(* ===== verification/_CoqProject ===== *)
-Q . S2P
Prelude.v
AccountingMath.v
AccountingState.v
AccountingTransition.v
AccountingInvariant.v
AccountingBook.v
AccountingSafety.v
AccountingFigures.v
AccountingPreserve.v
AccountingChecks.v
AccountingPrice.v
AccountingClaims.v
AccountingLifecycle.v
AccountingTheorems.v
ProtocolLayout.v
ProtocolTypes.v
ProtocolCodec.v
ProtocolWire.v
ProtocolBodies.v
ProtocolMessages.v
ProtocolTheorems.v
RemoteState.v
RemoteMessage.v
RemotePlatform.v
RemoteLeg.v
RemoteSettle.v
RemoteInit.v
RemoteBooks.v
RemoteEffects.v
RemotePreserve.v
RemoteRuns.v
RemoteHistory.v
RemoteSample.v
RemoteTheorems.v
StrategyProgram.v
StrategyFacts.v
StrategyBank.v
StrategyCalls.v
StrategyPair.v
StrategyOutcomes.v
StrategySample.v
StrategyTheorems.v
VerifierState.v
VerifierJwt.v
VerifierGrammar.v
VerifierParse.v
VerifierNumbers.v
VerifierClaims.v
VerifierBase64.v
VerifierProgram.v
VerifierRuns.v
VerifierApprovals.v
VerifierSample.v
VerifierTheorems.v
HostAdapter.v
HostFacts.v
HostTheorems.v
SimState.v
SimEngine.v
SimSteps.v
SimTables.v
SimRuns.v
SimAttempt.v
SimLoops.v
SimContent.v
SimInbox.v
SimLedger.v
SimDigest.v
SimTheorems.v
SimTransit.v
E2eWorld.v
E2eFacts.v
E2eRuns.v
E2eTheorems.v
DiffRecorder.v
DiffGenerator.v
DiffFacts.v
DiffScripts.v
DiffTheorems.v
DiffOutput.v
