(* ===== verification/Prelude.v ===== *)
(** SolEVM vault: a verification development of the Rust side of the
    repository.

    * The program

    The vault is an asynchronous share vault on an EVM chain that allocates
    part of its assets to a strategy on Solana.  The Rust code under
    [crates/] and [programs/] has nine parts, and the development has one
    family of files for each:

    - [crates/accounting-model]: the reference accounting of the vault.  A
      [State] holds accounts, buckets, request books, settled epochs and the
      remote cycle; [apply] runs one [Operation]; [check_invariants] is the
      executable audit of a state.
    - [crates/protocol-types]: the canonical wire format of the messages
      between the two chains, with message identifiers and the hash chain of
      a lane.
    - [programs/solevm-remote-leg]: the Solana program that receives those
      messages, attributes and deploys principal through a strategy adapter,
      recalls it, accounts for what the transport did, and reports back.
    - [programs/solevm-remote-leg/test-strategy]: the adapter the leg
      deploys into, which keeps principal in a vault and returns it less a
      configured loss; its hostile build attacks the leg.
    - [programs/authorization-verifier]: the Solana program that turns a
      signed verdict (a JWT) or a signed deployment approval into a receipt
      that the remote leg requires before it deploys.
    - [crates/xchain-sim]: the deterministic transport simulator: two lanes,
      endpoints with inboxes, a queue, a fault plan, a trace and a digest.
    - [programs/authorization-verifier/adapter]: the host library that turns
      a signature service's keys, signatures and tokens into the inputs the
      verifier's instruction expects.
    - [crates/evm-differential]: the generator of random scenarios that runs
      the accounting model and records what the contracts must reproduce.
    - [programs/solevm-remote-leg/e2e]: the harness that runs scripts against
      a live leg with the simulator as its transport.

    They interact along these seams, and each seam is a definition both
    sides use: the remote leg decodes and encodes with the codec of the
    protocol ([RemoteMessage] calls [ProtocolCodec]); the leg checks the
    receipt the verifier writes ([RemotePlatform.authorization_check],
    [VerifierProgram]); the leg's calls run in the strategy program and the
    leg reads its account back ([RemotePlatform.deposit_exact_ix],
    [read_principal], [StrategyCalls]); the accounting model receives what the leg reports
    (the remote operations of [AccountingTransition]); the simulator carries
    canonical bytes and names them as the protocol does
    ([SimEngine.message_identity]); the host adapter builds the instruction
    whose offsets the verifier reads back ([HostAdapter],
    [VerifierProgram]); the differential run applies the operations of the
    accounting model ([DiffRecorder] calls [AccountingTransition]); the
    harness drives [RemoteInit.exec] and [SimEngine] together ([E2eWorld]).

    * The files

    This file is the shared vocabulary: [result] and the [?] operator,
    machine integers as [Z] with checked and saturating arithmetic, record
    update, ordered iteration over maps, sums over lists and maps, and the
    tactics.

    Accounting ([crates/accounting-model/src]).  [AccountingMath] is
    [error.rs], [amount.rs] and [math.rs]; [AccountingState] is
    [request.rs], [state.rs] and [operation.rs]; [AccountingTransition] is
    [transition.rs], one function per handler; [AccountingInvariant] is
    [invariant.rs].  [AccountingBook] sees the two request books through the
    class [Request]; [AccountingSafety] states the invariant [Inv];
    [AccountingFigures] shows that the loops compute sums;
    [AccountingPreserve] has one preservation lemma per handler;
    [AccountingChecks], [AccountingPrice], [AccountingClaims],
    and [AccountingLifecycle] derive the audit, the price rule, payability,
    the lives of requests and the net asset value.

    Protocol ([crates/protocol-types/src]).  [ProtocolLayout] is
    [layout.rs]; [ProtocolTypes] the data; [ProtocolCodec] is [codec.rs],
    [validation.rs], [body/], [hash.rs] and [commitment.rs].  [ProtocolWire]
    has the class [Wire], what a body promises to the codec, and
    [ProtocolBodies] its instances; [ProtocolMessages] puts messages
    together.

    Remote leg ([programs/solevm-remote-leg/src]).  [RemoteState],
    [RemoteMessage], [RemoteLeg], [RemoteSettle] and [RemoteInit] are the
    accounts and the twenty instructions; [exec] dispatches one.
    [RemotePlatform] has the class [Chain]: addresses, digests, the token
    program and the adapter are other programs, so a theorem holds for every
    behaviour of theirs.  [RemoteBooks] states the invariant [books];
    [RemoteEffects] has one effect lemma per handler, from which
    [RemotePreserve], [RemoteRuns] and [RemoteHistory] prove everything
    else.

    Strategy ([programs/solevm-remote-leg/test-strategy/src/lib.rs]).
    [StrategyProgram] is the adapter with its account bytes, its account
    constraints and its dispatch, on a [Bank] of accounts; [StrategyFacts]
    has the laws it relies on ([AddressLaws], [TokenLaws]); [StrategyBank]
    its invariant [sound].  [StrategyCalls] makes the adapter the [Chain] of
    a remote leg and evaluates the leg's calls; [StrategyPair] proves that
    the two stay [paired]; [StrategyOutcomes] what the leg can fail with.
    [RemotePlatform] has the little-endian words both programs write.

    Verifier ([programs/authorization-verifier/src]).  [VerifierState] and
    [VerifierProgram] are the accounts and the eleven instructions;
    [VerifierJwt] the parsers.  The class [Runtime] has the signature check,
    addresses and SHA-256.  [VerifierGrammar] is a declarative grammar;
    [VerifierParse], [VerifierNumbers], [VerifierClaims] and
    [VerifierBase64] show that the parsers read exactly it;
    [VerifierRuns] and [VerifierApprovals] are about runs.

    Host adapter ([programs/authorization-verifier/adapter/src/lib.rs]).
    [HostAdapter] is the library over the crates it calls, which are the
    classes [Base64Crate], [Secp256r1Sdk] and [OpenSsl]; [HostFacts] has
    their laws ([HostLaws]) and what the functions compute under them.

    Simulator ([crates/xchain-sim/src]).  [SimState] is the data
    ([lane.rs], [event.rs], [endpoint.rs], [fault.rs], [queue.rs],
    [trace.rs], [error.rs], [time.rs]); [SimEngine] is [simulator.rs],
    [operation.rs] and [inspect.rs]; [SimDigest] is [state_hash.rs] and
    [snapshot.rs].  [SimSteps] is the engine as a small-step machine [mstep]
    with the event of an attempt in hand; [SimRuns] and [SimAttempt] show
    that every method is a run of it, so [SimTables], [SimContent],
    [SimInbox] and [SimLedger] prove their invariants once per step;
    [SimLoops] shows that the delivery loops end; [SimTransit] that a
    network under faults that neither reroute, corrupt nor over-deliver
    forges nothing.

    End-to-end harness ([programs/solevm-remote-leg/e2e/src], with the
    messages of [tests/common/messages.rs]).  [E2eWorld] is [hexutil.rs],
    [ops.rs], [trace.rs] and [world.rs]; LiteSVM, with the account lists the
    test fixture gives it, is the class [Fixture].  [E2eFacts] has its laws
    ([FixtureLaws]) and the invariant [sound] of a leg and a network;
    [E2eRuns] shows that every operation keeps it.

    Differential run ([crates/evm-differential/src]).  [DiffRecorder] is
    [action.rs], [result.rs], [snapshot.rs] and [scenario.rs]; [DiffGenerator] is
    [rng.rs], [generator.rs] and [lib.rs].  [DiffFacts] has the abstract
    replay of a trace; [DiffScripts] shows that every family of scripts runs
    and only records.  [DiffOutput] is [abi.rs] and [main.rs].

    [*Sample] files hold concrete runs; [*Theorems] files the properties of
    each part with their witnesses, and samples that only they use.

    * What the theorems show

    Accounting: every reachable state passes the audit, what is owed can be
    paid exactly once, a frozen vault can be left, requests move along their
    lifecycle, settlement pays every request at one floored price, and the
    net asset value moves as an abstract account says.  One rule of the
    audit does not hold of all reachable states; a theorem exhibits the run.

    Protocol: decoding inverts encoding and accepts nothing but canonical
    bytes; identifiers and lane commitments determine what they hash, or
    exhibit a collision of the digest.

    Remote leg: its books balance after any instructions, whatever the
    token program and the adapter do; principal has a ceiling; messages are
    consumed and published once and in order; transfers refine an abstract
    machine; deployments need a receipt; a frozen leg only unwinds; reports
    are truthful and their commitment binds the state.

    Strategy: the vault of every adapter covers its principal; the leg and
    the adapter, in either build, agree on the principal for ever and
    custody stays the leg's; the leg never blames an honest adapter and gets
    back exactly the configured amounts.

    Verifier: a deployment on the leg was signed by a registered key (the
    two programs composed); verdicts need a signed token; what is spent or
    revoked stays so; the parsers accept exactly a grammar and its canonical
    encoding.

    Simulator: the tables of every reachable network agree; deliveries
    happen once and as the trace says; the trace replays to the network (a
    refinement of an abstract ledger); the delivery loops end with nothing
    left to do; operations are all or nothing; amounts and bytes that arrive
    are accounted for; the digest binds the state.

    Host adapter: a token the signer makes comes apart again, and the
    instruction built from it is one the verifier's own check accepts, with
    the same key, signature and message; normalized signatures are the low
    ones of their pair.

    End-to-end harness: whatever a script drops, delays, duplicates, splits
    or reorders, the leg consumes only what was delivered to it, each message
    once and in order; the hub receives only what the leg published or sent;
    and the assets of the leg add up to what was credited to it.

    Differential run: every configuration yields its scenarios, and replaying
    a recorded trace on the accounting model gives back every recorded
    result, snapshot and settled epoch.  The printed bundle determines the
    seed and the scenarios, every command line is answered, and the printed
    statistics add up.

    * Conventions and bounds

    A [Result] is [result], an early return a guard; a handler is a function
    from the state to a result, which is how the code behaves where it works
    on a clone or the runtime rolls back; methods of the simulator that
    mutate before they fail return the state as well.  Integers are [Z] at
    their width: the predicates [is_u8] to [is_u128] state it, checked
    operations return [None] past it and saturating ones stop at it.  A
    [BTreeMap] is a [gmap] iterated through [btree_iter]; a [Vec] is a list.

    Loops with fuel.  The parsers get one step more than the bytes of the
    document, and never use it up.  The delivery loops of the simulator get
    one step more than [work], a bound on the attempts the queue can still
    lead to; each attempt lowers it, since a fault batch runs once per event
    and events made by faults make no more.  [generated_loop] gets one step
    more than there are events, and one of so many candidates is free.
    Running out is a value of its own ([Diverges], [None]) and is shown
    never to be returned.

    Parameters.  Keccak-256 and SHA-256 are functions on byte strings;
    theorems that need their output width say so, and binding theorems
    return a collision instead of assuming that there is none.  The token
    program, the strategy adapter, program addresses and the secp256r1
    check are fields of [Chain] and [Runtime], with no law beyond those the
    classes state.  Where the strategy program runs, the token program obeys
    [TokenLaws] (who acts on an account signed and controls it, an owner's
    transfer moves exactly what it says and runs when the balance is there)
    and program addresses obey [AddressLaws]; [StrategySample] has instances
    of both, as the other samples have of the other classes.  [HostLaws]
    states the documented behaviour of the crates the host adapter calls,
    [FixtureLaws] that of the runtime under the harness: a transaction runs
    its instruction on the leg or leaves the leg alone; both have instances
    in their [*Theorems] file.  [AlloyLaws] states that an ABI encoding is
    bytes and loses nothing, with an instance in [DiffOutput].

    * Not modelled

    Texts ([Display], [Debug], names and numeric codes of records), events
    that the programs log and never read, account sizes and rent.  The
    JSON of the harness with its command line only prints what is modelled
    or reads what it starts from.  The devnet tools drive a validator over RPC and
    hold no state of the system; the test suites run the modelled code.  The
    Solidity contracts are another language; their reference, the
    accounting model, is modelled. *)

From Stdlib Require Import ZArith Lia.
From stdpp Require Export prelude gmap sorting.

#[global] Open Scope Z_scope.

(** * Results *)

(** Rust's [Result<A, E>]. *)
Inductive result (E A : Type) : Type :=
| Ok (a : A)
| Err (e : E).

Arguments Ok {_ _} _.
Arguments Err {_ _} _.

#[global] Instance result_eq_dec {E A} `{EqDecision E, EqDecision A} :
  EqDecision (result E A).
Proof. solve_decision. Defined.

Declare Scope rust_scope.
Delimit Scope rust_scope with rust.
#[global] Open Scope rust_scope.

(** The [?] operator: continue on [Ok], return the error otherwise. *)
Notation "'let?' x := m 'in' k" :=
  (match m with Ok x => k | Err e => Err e end)
  (at level 10, x name, m at level 100, k at level 200)
  : rust_scope.

Notation "'let?' ' p := m 'in' k" :=
  (match m with Ok p => k | Err e => Err e end)
  (at level 10, p pattern, m at level 100, k at level 200)
  : rust_scope.

(** A guard: [if c { return Err(e) }]. *)
Notation "'fail_if' c 'with' e ; k" :=
  (if c then Err e else k)
  (at level 10, c at level 100, e at level 100, k at level 200)
  : rust_scope.

(** A guard in the other polarity: [require!(c, e)]. *)
Notation "'require' c 'or' e ; k" :=
  (if c then k else Err e)
  (at level 10, c at level 100, e at level 100, k at level 200)
  : rust_scope.

Definition ok_or {E A} (o : option A) (e : E) : result E A :=
  match o with Some a => Ok a | None => Err e end.

Definition map_err {E F A} (r : result E A) (e : F) : result F A :=
  match r with Ok a => Ok a | Err _ => Err e end.

Definition result_map {E A B} (f : A -> B) (r : result E A) : result E B :=
  match r with Ok a => Ok (f a) | Err e => Err e end.

Definition is_ok {E A} (r : result E A) : bool :=
  match r with Ok _ => true | Err _ => false end.

(** A loop body that may return early, run over a list. *)
Fixpoint try_fold {E A B} (f : B -> A -> result E B) (acc : B) (l : list A) : result E B :=
  match l with
  | [] => Ok acc
  | x :: l' => let? acc' := f acc x in try_fold f acc' l'
  end.

(** * Machine integers *)

Definition u8_max : Z := 2 ^ 8 - 1.
Definition u16_max : Z := 2 ^ 16 - 1.
Definition u32_max : Z := 2 ^ 32 - 1.
Definition u64_max : Z := 2 ^ 64 - 1.
Definition u128_max : Z := 2 ^ 128 - 1.
Definition i64_max : Z := 2 ^ 63 - 1.
Definition i64_min : Z := - 2 ^ 63.

(** [fits m x]: [x] is a value of the unsigned type whose maximum is [m]. *)
Definition fits (m x : Z) : Prop := 0 <= x <= m.

#[global] Instance fits_dec m x : Decision (fits m x).
Proof. unfold fits. apply _. Defined.

Definition is_i64 (x : Z) : Prop := i64_min <= x <= i64_max.

#[global] Instance is_i64_dec x : Decision (is_i64 x).
Proof. unfold is_i64. apply _. Defined.

Abbreviation is_u8 := (fits u8_max).
Abbreviation is_u16 := (fits u16_max).
Abbreviation is_u32 := (fits u32_max).
Abbreviation is_u64 := (fits u64_max).
Abbreviation is_u128 := (fits u128_max).

Definition checked_add (m a b : Z) : option Z :=
  if a + b <=? m then Some (a + b) else None.

Definition checked_sub (a b : Z) : option Z :=
  if b <=? a then Some (a - b) else None.

Definition saturating_add (m a b : Z) : Z := Z.min m (a + b).

Definition saturating_sub (a b : Z) : Z := Z.max 0 (a - b).

Lemma checked_add_Some m a b c :
  checked_add m a b = Some c <-> c = a + b /\ a + b <= m.
Proof. unfold checked_add. destruct (Z.leb_spec (a + b) m); split; intros; simplify_eq; try done; lia || (f_equal; lia). Qed.

Lemma checked_add_None m a b : checked_add m a b = None <-> m < a + b.
Proof. unfold checked_add. destruct (Z.leb_spec (a + b) m); split; intros; simplify_eq; try done; lia || (f_equal; lia). Qed.

Lemma checked_sub_Some a b c :
  checked_sub a b = Some c <-> c = a - b /\ b <= a.
Proof. unfold checked_sub. destruct (Z.leb_spec b a); split; intros; simplify_eq; try done; lia || (f_equal; lia). Qed.

Lemma checked_sub_None a b : checked_sub a b = None <-> a < b.
Proof. unfold checked_sub. destruct (Z.leb_spec b a); split; intros; simplify_eq; try done; lia || (f_equal; lia). Qed.

Lemma ok_or_Ok {E A} (o : option A) (e : E) a : ok_or o e = Ok a <-> o = Some a.
Proof. destruct o; naive_solver. Qed.

Lemma map_err_Ok {E F A} (r : result E A) (e : F) a : map_err r e = Ok a <-> r = Ok a.
Proof. destruct r; naive_solver. Qed.

(** * Record update *)

(** [s <| f := v |>] is [s] with its field [f] replaced, Rust's field
    assignment.  A record type declares its eta expansion as an [Eta]
    instance and the setter of each projection is derived from it. *)
Class Eta (R : Type) := eta : R -> R.
Class Setter {R T : Type} (proj : R -> T) := set_field : (T -> T) -> R -> R.
Arguments set_field {R T} proj {_} _ _.

Ltac derive_setter :=
  lazymatch goal with
  | |- @Setter ?R ?T ?proj =>
      let e := constr:(_ : Eta R) in
      let h := eval hnf in e in
      lazymatch eval pattern proj in h with
      | ?f _ =>
          let b := eval cbv beta in (fun (g : T -> T) (r : R) => f (fun r' : R => g (proj r')) r) in
          exact b
      end
  end.

#[global] Hint Extern 1 (Setter _) => derive_setter : typeclass_instances.

Notation "s <| f := v |>" := (set_field f (fun _ => v) s)
  (at level 1, f at level 0, v at level 200, left associativity) : rust_scope.

Notation "s <| f ::= g |>" := (set_field f g s)
  (at level 1, f at level 0, g at level 200, left associativity) : rust_scope.

Notation "s <| f , g := v |>" := (set_field f (set_field g (fun _ => v)) s)
  (at level 1, f at level 0, g at level 0, v at level 200, left associativity) : rust_scope.

(** * Sums *)

Definition lsum {A} (f : A -> Z) (l : list A) : Z := foldr (fun x acc => f x + acc) 0 l.

#[global] Arguments lsum : simpl never.

Lemma lsum_nil {A} (f : A -> Z) : lsum f [] = 0.
Proof. done. Qed.

Lemma lsum_cons {A} (f : A -> Z) x l : lsum f (x :: l) = f x + lsum f l.
Proof. done. Qed.

Lemma lsum_app {A} (f : A -> Z) l k : lsum f (l ++ k) = lsum f l + lsum f k.
Proof. induction l; cbn [app]; [done|]. rewrite !lsum_cons, IHl. lia. Qed.

#[global] Instance lsum_Permutation {A} (f : A -> Z) : Proper ((≡ₚ) ==> (=)) (lsum f).
Proof. induction 1; rewrite ?lsum_cons; lia. Qed.

Lemma lsum_ext {A} (f g : A -> Z) l :
  (forall x, x ∈ l -> f x = g x) -> lsum f l = lsum g l.
Proof.
  induction l as [|a l IH]; intros Hfg; [done|].
  rewrite !lsum_cons, (Hfg a), IH; set_solver.
Qed.

Lemma lsum_nonneg {A} (f : A -> Z) l : (forall x, x ∈ l -> 0 <= f x) -> 0 <= lsum f l.
Proof.
  induction l as [|a l IH]; intros Hf; rewrite ?lsum_cons; [unfold lsum; simpl; lia|].
  pose proof (Hf a ltac:(set_solver)).
  pose proof (IH ltac:(set_solver)). lia.
Qed.

Lemma lsum_le {A} (f g : A -> Z) l :
  (forall x, x ∈ l -> f x <= g x) -> lsum f l <= lsum g l.
Proof.
  induction l as [|a l IH]; intros Hf; rewrite ?lsum_cons; [unfold lsum; simpl; lia|].
  pose proof (Hf a ltac:(set_solver)).
  pose proof (IH ltac:(set_solver)). lia.
Qed.

Lemma lsum_add {A} (f g : A -> Z) l : lsum (fun x => f x + g x) l = lsum f l + lsum g l.
Proof. induction l; rewrite ?lsum_cons; unfold lsum in *; simpl in *; lia. Qed.

Lemma lsum_filter {A} (P : A -> Prop) `{forall x, Decision (P x)} (f : A -> Z) l :
  lsum f (filter P l) = lsum (fun x => if decide (P x) then f x else 0) l.
Proof.
  induction l as [|a l IH]; [done|]. rewrite filter_cons.
  case_decide as Ha; rewrite ?lsum_cons, IH; [by rewrite decide_True|].
  rewrite decide_False by done. lia.
Qed.

(** The sum of [f k v] over the entries of a finite map. *)
Definition msum {K V} `{Countable K} (f : K -> V -> Z) (m : gmap K V) : Z :=
  lsum (fun kv => f kv.1 kv.2) (map_to_list m).

Section msum.
Context {K V : Type} `{Countable K}.
Implicit Types (f g : K -> V -> Z) (m : gmap K V).

Lemma msum_empty f : msum f ∅ = 0.
Proof. unfold msum. by rewrite map_to_list_empty. Qed.

Lemma msum_insert_None f m k v : m !! k = None -> msum f (<[k:=v]> m) = f k v + msum f m.
Proof. intros Hk. unfold msum. by rewrite map_to_list_insert. Qed.

Lemma msum_delete f m k v : m !! k = Some v -> msum f m = f k v + msum f (delete k m).
Proof.
  intros Hk. rewrite <-(insert_id m k v) at 1 by done.
  rewrite <-insert_delete_eq, msum_insert_None; [done|apply lookup_delete_eq].
Qed.

(** Writing one entry replaces its contribution. *)
Lemma msum_insert f m k v :
  msum f (<[k:=v]> m) =
  msum f m - match m !! k with Some w => f k w | None => 0 end + f k v.
Proof.
  destruct (m !! k) as [w|] eqn:Hk.
  - rewrite <-insert_delete_eq, msum_insert_None, (msum_delete f m k w) by
      (done || apply lookup_delete_eq). lia.
  - rewrite msum_insert_None by done. lia.
Qed.

Lemma msum_ext f g m :
  (forall k v, m !! k = Some v -> f k v = g k v) -> msum f m = msum g m.
Proof.
  intros Hfg. apply lsum_ext. intros [k v] Hin%elem_of_map_to_list. by apply Hfg.
Qed.

Lemma msum_nonneg f m :
  (forall k v, m !! k = Some v -> 0 <= f k v) -> 0 <= msum f m.
Proof.
  intros Hf. apply lsum_nonneg. intros [k v] Hin%elem_of_map_to_list. by apply Hf.
Qed.

Lemma msum_le f g m :
  (forall k v, m !! k = Some v -> f k v <= g k v) -> msum f m <= msum g m.
Proof.
  intros Hf. apply lsum_le. intros [k v] Hin%elem_of_map_to_list. by apply Hf.
Qed.

(** One entry is at most the sum of all of them. *)
Lemma msum_lookup_le f m k v :
  (forall k v, m !! k = Some v -> 0 <= f k v) -> m !! k = Some v -> f k v <= msum f m.
Proof.
  intros Hf Hk. rewrite (msum_delete f m k v) by done.
  cut (0 <= msum f (delete k m)); [lia|].
  apply msum_nonneg. intros k' v' [? ?]%lookup_delete_Some. by apply Hf.
Qed.

Lemma msum_zero f m : (forall k v, m !! k = Some v -> f k v = 0) -> msum f m = 0.
Proof.
  intros Hf. rewrite (msum_ext f (fun _ _ => 0)) by done.
  unfold msum. induction (map_to_list m); [done|rewrite lsum_cons; lia].
Qed.
End msum.

(** * Ordered iteration *)

Definition entry_le {K V} (R : relation K) (p q : K * V) : Prop := R p.1 q.1.

#[global] Instance entry_le_dec {K V} (R : relation K) `{!RelDecision R} :
  RelDecision (@entry_le K V R).
Proof. intros p q. unfold entry_le. apply _. Defined.

#[global] Instance entry_le_total {K V} (R : relation K) `{!Total R} :
  Total (@entry_le K V R).
Proof. intros p q. apply (total R). Qed.

(** The entries of a map in key order, as [BTreeMap] yields them. *)
Definition btree_iter {K V} `{Countable K} (R : relation K) `{!RelDecision R}
  (m : gmap K V) : list (K * V) :=
  merge_sort (entry_le R) (map_to_list m).

Section btree.
Context {K V : Type} `{Countable K} (R : relation K) `{!RelDecision R}.
Implicit Types m : gmap K V.

Lemma btree_iter_Permutation m : btree_iter R m ≡ₚ map_to_list m.
Proof. apply merge_sort_Permutation. Qed.

Lemma elem_of_btree_iter m k v : (k, v) ∈ btree_iter R m <-> m !! k = Some v.
Proof. rewrite btree_iter_Permutation. apply elem_of_map_to_list. Qed.

Lemma NoDup_btree_iter_fst m : NoDup (btree_iter R m).*1.
Proof. rewrite btree_iter_Permutation. apply NoDup_fst_map_to_list. Qed.

Lemma lsum_btree_iter (f : K -> V -> Z) m :
  lsum (fun kv => f kv.1 kv.2) (btree_iter R m) = msum f m.
Proof. unfold msum. by rewrite btree_iter_Permutation. Qed.

Lemma StronglySorted_btree_iter `{!Transitive R, !Total R} m :
  StronglySorted (entry_le R) (btree_iter R m).
Proof.
  apply Sorted_StronglySorted; [intros ??? Hxy Hyz; unfold entry_le in *; by etrans|].
  apply (Sorted_merge_sort _).
Qed.
End btree.

(** A loop that adds up checked amounts returns their sum exactly when it fits. *)
Lemma try_fold_sum {E A} (m : Z) (e : E) (f : A -> Z) (l : list A) (acc : Z) :
  (forall x, x ∈ l -> 0 <= f x) -> acc + lsum f l <= m ->
  try_fold (fun t x => ok_or (checked_add m t (f x)) e) acc l = Ok (acc + lsum f l).
Proof.
  revert acc. induction l as [|x l IH]; intros acc Hf Hm; simpl in *; rewrite ?lsum_cons in *; [f_equal; unfold lsum in *; simpl in *; lia|].
  pose proof (Hf x ltac:(set_solver)).
  pose proof (lsum_nonneg f l ltac:(set_solver)).
  rewrite (proj2 (checked_add_Some m acc (f x) (acc + f x))) by lia. simpl.
  rewrite IH; [f_equal; lia|set_solver|lia].
Qed.

(** * Automation *)

(** Turns boolean tests in the context into the propositions they decide. *)
Ltac bool_to_prop :=
  repeat match goal with
  | H : (_ =? _)%Z = true |- _ => apply Z.eqb_eq in H
  | H : (_ =? _)%Z = false |- _ => apply Z.eqb_neq in H
  | H : (_ <? _)%Z = true |- _ => apply Z.ltb_lt in H
  | H : (_ <? _)%Z = false |- _ => apply Z.ltb_ge in H
  | H : (_ <=? _)%Z = true |- _ => apply Z.leb_le in H
  | H : (_ <=? _)%Z = false |- _ => apply Z.leb_gt in H
  | H : _ && _ = true |- _ => apply andb_true_iff in H as [? ?]
  | H : _ || _ = false |- _ => apply orb_false_iff in H as [? ?]
  | H : negb _ = true |- _ => apply negb_true_iff in H
  | H : negb _ = false |- _ => apply negb_false_iff in H
  | H : bool_decide _ = true |- _ => apply bool_decide_eq_true in H
  | H : bool_decide _ = false |- _ => apply bool_decide_eq_false in H
  end.

(** Linear arithmetic with quotients and remainders by literals. *)
Ltac euclid := Z.to_euclidean_division_equations; lia.

(** Splits on the comparisons of the goal. *)
Ltac case_ltb :=
  repeat match goal with |- context [(?a <? ?b)%Z] => destruct (Z.ltb_spec a b) end.

(** Replaces every sum by an atom, so that arithmetic sees only its value. *)
Ltac abstract_sums :=
  repeat match goal with
  | |- context [lsum ?f ?l] => let x := fresh "sum" in set (x := lsum f l) in *; clearbody x
  end.

(** Inverts a hypothesis that a chain of guards and [let?] steps returned. *)
Ltac invert_step :=
  match goal with
  | H : Ok _ = Ok _ |- _ => injection H as H; subst
  | H : Ok _ = Ok _ |- _ => injection H as <-
  | H : Some _ = Some _ |- _ => injection H as H; subst
  | H : Err _ = Ok _ |- _ => discriminate H
  | H : Ok _ = Err _ |- _ => discriminate H
  | H : None = Some _ |- _ => discriminate H
  | H : Some _ = None |- _ => discriminate H
  | H : ok_or _ _ = Ok _ |- _ => apply ok_or_Ok in H
  | H : map_err _ _ = Ok _ |- _ => apply map_err_Ok in H
  | H : checked_add _ _ _ = Some _ |- _ => apply checked_add_Some in H as [-> H]
  | H : checked_sub _ _ = Some _ |- _ => apply checked_sub_Some in H as [-> H]
  | H : (match ?m with Ok _ => _ | Err _ => _ end) = Ok _ |- _ =>
      let E := fresh "E" in destruct m eqn:E; [|discriminate H]
  | H : (if ?b then Err _ else _) = Ok _ |- _ =>
      let E := fresh "E" in destruct b eqn:E; [discriminate H|]
  | H : (if ?b then _ else Err _) = Ok _ |- _ =>
      let E := fresh "E" in destruct b eqn:E; [|discriminate H]
  | H : (match ?m with Some _ => _ | None => Err _ end) = Ok _ |- _ =>
      let E := fresh "E" in destruct m eqn:E; [|discriminate H]
  end.

Ltac invert_ok := repeat (invert_step; cbv beta zeta in * ); bool_to_prop.
