(* ===== verification/AccountingMath.v ===== *)
(** Error values, amounts and pricing arithmetic of the accounting model
    ([crates/accounting-model/src/error.rs], [amount.rs], [math.rs]).
    Amounts are [Z] at their Rust width; every operation that can leave
    the width is checked exactly where the code checks it. *)

From Stdlib Require Import ZArith Lia.
From stdpp Require Import strings.
From S2P Require Import Prelude.

(** * Reasons a transition is refused *)

Inductive Rejection : Set :=
| InvalidVaultState
| EpochNotOpen
| EpochAlreadyOpen
| CutoffNotReached
| EpochAlreadyCutOff
| EpochNotCutOff
| EpochAlreadyFinalized
| EpochNotFinalized
| EpochNotAborted
| RequestNotFound
| RequestAlreadyCancelled
| RequestAlreadySettled
| ClaimNotFound
| ClaimAlreadyConsumed
| CancellationAfterCutoff
| ZeroAmount
| AmountBelowMinimum
| InsufficientAssetBalance
| InsufficientShareBalance
| InsufficientRedemptionLiquidity
| ArithmeticOverflow
| ArithmeticUnderflow
| DivisionByZero
| UnauthorizedActor
| InvalidConfiguration
| DuplicateAccount
| TimestampNotMonotonic
| ActiveTransferExists
| NoActiveTransfer
| TransferIdReused
| InsufficientRemotePrincipal
| InvalidRecallSentAmounts
| RemoteValuationRequired
| ValuationAlreadyFixed
| AllocateNotAllowed
| InvalidAssetAttribution
| CloseAlreadyRequested
| NoPendingSettlement
| NothingToRecover
| SettlementMismatch.

#[global] Instance Rejection_eq_dec : EqDecision Rejection.
Proof. solve_decision. Defined.

(** * Amounts *)

Abbreviation AssetAmount := Z (only parsing).
Abbreviation ShareAmount := Z (only parsing).
Abbreviation EpochId := Z (only parsing).
Abbreviation AccountId := Z (only parsing).
Abbreviation Timestamp := Z (only parsing).
Abbreviation ConfigVersion := Z (only parsing).

(** Both amount types wrap a [u128] and share one arithmetic. *)
Definition amount_add (a b : Z) : result Rejection Z :=
  ok_or (checked_add u128_max a b) ArithmeticOverflow.

Definition amount_sub (a b : Z) : result Rejection Z :=
  ok_or (checked_sub a b) ArithmeticUnderflow.

Definition is_zero (a : Z) : bool := a =? 0.

Definition epoch_next (e : EpochId) : result Rejection EpochId :=
  ok_or (checked_add u64_max e 1) ArithmeticOverflow.

Definition checked_add_seconds (t : Timestamp) (seconds : Z) : result Rejection Timestamp :=
  ok_or (checked_add u64_max t seconds) ArithmeticOverflow.

(** A transfer identity is 32 bytes. *)
Abbreviation TransferId := (list Z) (only parsing).

Definition transfer_zero : TransferId := replicate 32 0.

#[global] Arguments transfer_zero : simpl never.

Definition transfer_is_zero (t : TransferId) : bool := bool_decide (t = transfer_zero).

(** * Pricing *)

Definition u256_max : Z := 2 ^ 256 - 1.
Definition u512_max : Z := 2 ^ 512 - 1.

Definition checked_mul (m a b : Z) : option Z :=
  if a * b <=? m then Some (a * b) else None.

Definition checked_div (a b : Z) : option Z :=
  if b =? 0 then None else Some (a / b).

Record PricingBasis := mkPricingBasis {
  pb_total_assets : AssetAmount;
  pb_total_supply : ShareAmount;
  pb_virtual_assets : AssetAmount;
  pb_virtual_shares : ShareAmount;
}.

#[global] Instance PricingBasis_eta : Eta PricingBasis := fun b =>
  mkPricingBasis (pb_total_assets b) (pb_total_supply b) (pb_virtual_assets b)
    (pb_virtual_shares b).

Definition asset_side (b : PricingBasis) : result Rejection Z :=
  amount_add b.(pb_total_assets) b.(pb_virtual_assets).

Definition share_side (b : PricingBasis) : result Rejection Z :=
  amount_add b.(pb_total_supply) b.(pb_virtual_shares).

(** Floor of [a * b / denominator] through a 256 bit product. *)
Definition mul_div_floor (a b denominator : Z) : result Rejection Z :=
  fail_if denominator =? 0 with DivisionByZero;
  let? product := ok_or (checked_mul u256_max a b) ArithmeticOverflow in
  let? quotient := ok_or (checked_div product denominator) DivisionByZero in
  require quotient <=? u128_max or ArithmeticOverflow;
  Ok quotient.

Definition assets_to_shares (assets : AssetAmount) (b : PricingBasis)
  : result Rejection ShareAmount :=
  let? shares := share_side b in
  let? total := asset_side b in
  mul_div_floor assets shares total.

Definition shares_to_assets (shares : ShareAmount) (b : PricingBasis)
  : result Rejection AssetAmount :=
  let? total := asset_side b in
  let? supply := share_side b in
  mul_div_floor shares total supply.

(** Both sides of a price, widened to 512 bits. *)
Definition wide_sides (b : PricingBasis) : Z * Z :=
  (saturating_add u512_max b.(pb_total_assets) b.(pb_virtual_assets),
   saturating_add u512_max b.(pb_total_supply) b.(pb_virtual_shares)).

(** Whether the later price is at least the earlier, by cross multiplication. *)
Definition price_is_non_decreasing (earlier later : PricingBasis) : result Rejection bool :=
  let '(earlier_assets, earlier_shares) := wide_sides earlier in
  let '(later_assets, later_shares) := wide_sides later in
  let? left := ok_or (checked_mul u512_max earlier_assets later_shares) ArithmeticOverflow in
  let? right := ok_or (checked_mul u512_max later_assets earlier_shares) ArithmeticOverflow in
  Ok (left <=? right).

(** [10u128.checked_pow(d)] for a [u32] exponent. *)
Definition checked_pow10 (d : Z) : option Z :=
  if 10 ^ d <=? u128_max then Some (10 ^ d) else None.

Definition virtual_shares_for (asset_decimals share_decimals : Z)
  : result Rejection ShareAmount :=
  let? difference := ok_or (checked_sub share_decimals asset_decimals) InvalidConfiguration in
  ok_or (checked_pow10 difference) InvalidConfiguration.

(** * Facts about the arithmetic *)

Lemma amount_add_Ok a b c : amount_add a b = Ok c <-> c = a + b /\ a + b <= u128_max.
Proof. unfold amount_add. by rewrite ok_or_Ok, checked_add_Some. Qed.

Lemma amount_sub_Ok a b c : amount_sub a b = Ok c <-> c = a - b /\ b <= a.
Proof. unfold amount_sub. by rewrite ok_or_Ok, checked_sub_Some. Qed.

Lemma amount_add_ok a b : a + b <= u128_max -> amount_add a b = Ok (a + b).
Proof. intros. by apply amount_add_Ok. Qed.

Lemma amount_sub_ok a b : b <= a -> amount_sub a b = Ok (a - b).
Proof. intros. by apply amount_sub_Ok. Qed.

Lemma u128_product_fits a b : is_u128 a -> is_u128 b -> 0 <= a * b <= u256_max.
Proof.
  unfold fits, u128_max, u256_max. intros [? ?] [? ?].
  change (2 ^ 256) with (2 ^ 128 * 2 ^ 128). nia.
Qed.

(** On [u128] inputs the wide product never overflows, so the only failures
    are a zero denominator and a quotient above the output type. *)
Lemma mul_div_floor_spec a b d :
  is_u128 a -> is_u128 b -> 0 <= d ->
  mul_div_floor a b d =
    if d =? 0 then Err DivisionByZero
    else if a * b / d <=? u128_max then Ok (a * b / d) else Err ArithmeticOverflow.
Proof.
  intros Ha Hb Hd. unfold mul_div_floor.
  destruct (Z.eqb_spec d 0); [done|].
  pose proof (u128_product_fits a b Ha Hb) as Hp.
  unfold checked_mul. destruct (Z.leb_spec (a * b) u256_max); [|lia]. simpl.
  unfold checked_div. destruct (Z.eqb_spec d 0); [done|]. simpl. done.
Qed.

Lemma mul_div_floor_Ok a b d q : mul_div_floor a b d = Ok q -> q = a * b / d /\ d <> 0 /\ q <= u128_max.
Proof.
  unfold mul_div_floor, checked_mul, checked_div. intros H.
  repeat (case_match; simplify_eq/=; bool_to_prop); done.
Qed.

(** The exact share price of a basis, as a pair of integers. *)
Definition share_units (b : PricingBasis) : Z := b.(pb_total_supply) + b.(pb_virtual_shares).
Definition asset_units (b : PricingBasis) : Z := b.(pb_total_assets) + b.(pb_virtual_assets).

Lemma assets_to_shares_Ok a b q :
  assets_to_shares a b = Ok q -> q = a * share_units b / asset_units b /\ asset_units b <> 0 /\ q <= u128_max.
Proof.
  unfold assets_to_shares, share_side, asset_side, share_units, asset_units. intros H.
  repeat invert_step. apply amount_add_Ok in E as [-> ?], E0 as [-> ?].
  by apply mul_div_floor_Ok.
Qed.

Lemma shares_to_assets_Ok a b q :
  shares_to_assets a b = Ok q -> q = a * asset_units b / share_units b /\ share_units b <> 0 /\ q <= u128_max.
Proof.
  unfold shares_to_assets, share_side, asset_side, share_units, asset_units. intros H.
  repeat invert_step. apply amount_add_Ok in E as [-> ?], E0 as [-> ?].
  by apply mul_div_floor_Ok.
Qed.

Lemma shares_to_assets_sides a b q :
  shares_to_assets a b = Ok q -> asset_units b <= u128_max /\ share_units b <= u128_max.
Proof.
  unfold shares_to_assets, share_side, asset_side, share_units, asset_units. intros H.
  repeat invert_step. by apply amount_add_Ok in E as [_ ?], E0 as [_ ?].
Qed.

(** A basis whose sides are positive and fit their type. *)
Definition basis_ok (b : PricingBasis) : Prop :=
  0 <= b.(pb_total_assets) /\ 0 <= b.(pb_total_supply) /\
  0 < b.(pb_virtual_assets) /\ 0 < b.(pb_virtual_shares) /\
  asset_units b <= u128_max /\ share_units b <= u128_max.

Lemma assets_to_shares_ok a b :
  basis_ok b -> is_u128 a -> a * share_units b / asset_units b <= u128_max ->
  assets_to_shares a b = Ok (a * share_units b / asset_units b).
Proof.
  intros (?&?&?&?&?&?) Ha Hq. unfold assets_to_shares, share_side, asset_side.
  unfold share_units, asset_units in *. rewrite !amount_add_ok by done.
  rewrite mul_div_floor_spec by (unfold fits; lia || done).
  destruct (Z.eqb_spec (pb_total_assets b + pb_virtual_assets b) 0); [lia|].
  apply Z.leb_le in Hq. by rewrite Hq.
Qed.

Lemma shares_to_assets_ok a b :
  basis_ok b -> is_u128 a -> a * asset_units b / share_units b <= u128_max ->
  shares_to_assets a b = Ok (a * asset_units b / share_units b).
Proof.
  intros (?&?&?&?&?&?) Ha Hq. unfold shares_to_assets, share_side, asset_side.
  unfold share_units, asset_units in *. rewrite !amount_add_ok by done.
  rewrite mul_div_floor_spec by (unfold fits; lia || done).
  destruct (Z.eqb_spec (pb_total_supply b + pb_virtual_shares b) 0); [lia|].
  apply Z.leb_le in Hq. by rewrite Hq.
Qed.

Lemma virtual_shares_for_Ok a s v :
  virtual_shares_for a s = Ok v -> 1 <= v <= u128_max.
Proof.
  unfold virtual_shares_for, checked_pow10. intros H. repeat invert_step.
  destruct (Z.leb_spec (10 ^ (s - a)) u128_max); simplify_eq.
  pose proof (Z.pow_pos_nonneg 10 (s - a)). lia.
Qed.

(** ** Floors of sums *)

(** The floors of the parts fall short of the floor of the whole by less
    than one unit per part. *)
Lemma div_add_bounds a b d : 0 < d ->
  a / d + b / d <= (a + b) / d <= a / d + b / d + 1.
Proof. intros. pose proof (Z.mod_pos_bound a d). pose proof (Z.mod_pos_bound b d).
  pose proof (Z.div_mod a d). pose proof (Z.div_mod b d). 
  split; [apply Z.div_le_lower_bound | apply Z.lt_succ_r, Z.div_lt_upper_bound]; nia. Qed.

Lemma lsum_div_le {A} (f : A -> Z) p d l : 0 < d -> 0 <= p ->
  lsum (fun x => f x * p / d) l <= lsum f l * p / d.
Proof.
  intros Hd Hp. induction l as [|x l IH]; [unfold lsum; simpl; by rewrite Z.div_0_l by lia|].
  rewrite !lsum_cons, Z.mul_add_distr_r.
  pose proof (div_add_bounds (f x * p) (lsum f l * p) d Hd). lia.
Qed.

Lemma lsum_div_ge {A} (f : A -> Z) p d l : 0 < d -> 0 <= p ->
  lsum f l * p / d <= lsum (fun x => f x * p / d) l + Z.max 0 (Z.of_nat (length l) - 1).
Proof.
  intros Hd Hp. induction l as [|x l IH]; [unfold lsum; simpl; by rewrite Z.div_0_l by lia|].
  destruct l as [|y l]; [unfold lsum; simpl; rewrite !Z.add_0_r; lia|].
  rewrite !(lsum_cons _ x), Z.mul_add_distr_r.
  pose proof (div_add_bounds (f x * p) (lsum f (y :: l) * p) d Hd).
  cbn [length] in *. lia.
Qed.
