(* ===== verification/AccountingState.v ===== *)
(** State of the accounting model ([crates/accounting-model/src/request.rs],
    [state.rs] and [operation.rs]): requests, epochs, settled terms, buckets,
    the whole [State], its constructor and every derived figure.  A
    [BTreeMap] is a [gmap] iterated in key order through [btree_iter]. *)

From Stdlib Require Import ZArith Lia.
From S2P Require Import Prelude AccountingMath.

(** * Requests *)

Record RequestKey := mkRequestKey {
  rk_epoch : EpochId;
  rk_account : AccountId;
}.

#[global] Instance RequestKey_eta : Eta RequestKey := fun r =>
  mkRequestKey (rk_epoch r) (rk_account r).

#[global] Instance RequestKey_eq_dec : EqDecision RequestKey.
Proof. solve_decision. Defined.

#[global] Instance RequestKey_countable : Countable RequestKey.
Proof.
  refine (inj_countable' (fun k => (rk_epoch k, rk_account k))
            (fun p => mkRequestKey p.1 p.2) _). by intros [].
Defined.

(** The derived [Ord]: epoch first, then account. *)
Definition key_le (k l : RequestKey) : Prop :=
  rk_epoch k < rk_epoch l \/ (rk_epoch k = rk_epoch l /\ rk_account k <= rk_account l).

#[global] Instance key_le_dec : RelDecision key_le.
Proof. intros k l. unfold key_le. apply _. Defined.

(** Membership in the inclusive range of every key of one epoch. *)
Definition in_epoch_range (e : EpochId) (k : RequestKey) : Prop :=
  key_le (mkRequestKey e 0) k /\ key_le k (mkRequestKey e u64_max).

#[global] Instance in_epoch_range_dec e k : Decision (in_epoch_range e k).
Proof. unfold in_epoch_range. apply _. Defined.

Lemma in_epoch_range_iff e k :
  is_u64 (rk_account k) -> in_epoch_range e k <-> rk_epoch k = e.
Proof. unfold in_epoch_range, key_le, fits; simpl. lia. Qed.

Inductive RequestState : Set :=
| Pending | Locked | Claimable | Claimed | Refundable | Refunded | Cancelled.

Record DepositRequest := mkDepositRequest {
  dr_assets : AssetAmount;
  dr_cancelled_assets : AssetAmount;
  dr_cancelled : bool;
  dr_claimed : bool;
}.

#[global] Instance DepositRequest_eta : Eta DepositRequest := fun r =>
  mkDepositRequest (dr_assets r) (dr_cancelled_assets r) (dr_cancelled r) (dr_claimed r).

Definition deposit_default : DepositRequest := mkDepositRequest 0 0 false false.

Definition deposit_is_outstanding (r : DepositRequest) : bool :=
  negb r.(dr_cancelled) && negb r.(dr_claimed) && negb (is_zero r.(dr_assets)).

Definition deposit_is_active (r : DepositRequest) : bool :=
  negb r.(dr_cancelled) && negb (is_zero r.(dr_assets)).

(** Cancelling empties the amount, so the two must always agree. *)
Definition deposit_flags_agree (r : DepositRequest) : bool :=
  Bool.eqb r.(dr_cancelled) (is_zero r.(dr_assets)) &&
  negb (r.(dr_cancelled) && r.(dr_claimed)).

Record RedeemRequest := mkRedeemRequest {
  rr_shares : ShareAmount;
  rr_cancelled_shares : ShareAmount;
  rr_cancelled : bool;
  rr_claimed : bool;
}.

#[global] Instance RedeemRequest_eta : Eta RedeemRequest := fun r =>
  mkRedeemRequest (rr_shares r) (rr_cancelled_shares r) (rr_cancelled r) (rr_claimed r).

Definition redeem_default : RedeemRequest := mkRedeemRequest 0 0 false false.

Definition redeem_is_outstanding (r : RedeemRequest) : bool :=
  negb r.(rr_cancelled) && negb r.(rr_claimed) && negb (is_zero r.(rr_shares)).

Definition redeem_is_active (r : RedeemRequest) : bool :=
  negb r.(rr_cancelled) && negb (is_zero r.(rr_shares)).

Definition redeem_flags_agree (r : RedeemRequest) : bool :=
  Bool.eqb r.(rr_cancelled) (is_zero r.(rr_shares)) &&
  negb (r.(rr_cancelled) && r.(rr_claimed)).

(** * Vault data *)

Inductive VaultState : Set := Active | Paused | Frozen.
Inductive EpochPhase : Set := Open | CutOff.
Inductive CycleKind : Set := CycleNone | CycleAllocate | CycleRecall | CycleRecover.

#[global] Instance VaultState_eq_dec : EqDecision VaultState.
Proof. solve_decision. Defined.
#[global] Instance EpochPhase_eq_dec : EqDecision EpochPhase.
Proof. solve_decision. Defined.
#[global] Instance CycleKind_eq_dec : EqDecision CycleKind.
Proof. solve_decision. Defined.

Record Config := mkConfig {
  cfg_version : ConfigVersion;
  cfg_asset_decimals : Z;
  cfg_share_decimals : Z;
  cfg_min_deposit_assets : AssetAmount;
  cfg_min_redeem_shares : ShareAmount;
  cfg_epoch_duration : Z;
}.

#[global] Instance Config_eta : Eta Config := fun r =>
  mkConfig (cfg_version r) (cfg_asset_decimals r) (cfg_share_decimals r)
  (cfg_min_deposit_assets r) (cfg_min_redeem_shares r) (cfg_epoch_duration r).

Definition config_validate (c : Config) : result Rejection unit :=
  fail_if (c.(cfg_share_decimals) <? c.(cfg_asset_decimals)) || (38 <? c.(cfg_share_decimals))
    with InvalidConfiguration;
  fail_if c.(cfg_epoch_duration) =? 0 with InvalidConfiguration;
  fail_if is_zero c.(cfg_min_deposit_assets) || is_zero c.(cfg_min_redeem_shares)
    with InvalidConfiguration;
  Ok tt.

Record Authority := mkAuthority {
  admin : AccountId;
  guardian : AccountId;
}.

#[global] Instance Authority_eta : Eta Authority := fun r =>
  mkAuthority (admin r) (guardian r).

Record Account := mkAccount {
  acc_assets : AssetAmount;
  acc_shares : ShareAmount;
}.

#[global] Instance Account_eta : Eta Account := fun r =>
  mkAccount (acc_assets r) (acc_shares r).

Definition account_default : Account := mkAccount 0 0.

Record Buckets := mkBuckets {
  pending_deposit_escrow : AssetAmount;
  idle_backing : AssetAmount;
  claim_reserve : AssetAmount;
  unattributed_balance : AssetAmount;
  unattributed_inbound : AssetAmount;
  outbound_in_transit : AssetAmount;
  accepted_remote_value : AssetAmount;
  inbound_in_transit : AssetAmount;
}.

#[global] Instance Buckets_eta : Eta Buckets := fun r =>
  mkBuckets (pending_deposit_escrow r) (idle_backing r) (claim_reserve r)
  (unattributed_balance r) (unattributed_inbound r) (outbound_in_transit r)
  (accepted_remote_value r) (inbound_in_transit r).

Definition buckets_physical (b : Buckets) : result Rejection AssetAmount :=
  let? t := amount_add b.(pending_deposit_escrow) b.(idle_backing) in
  let? t := amount_add t b.(claim_reserve) in
  let? t := amount_add t b.(unattributed_balance) in
  amount_add t b.(unattributed_inbound).

Definition buckets_total (b : Buckets) : result Rejection AssetAmount :=
  let? t := buckets_physical b in
  let? t := amount_add t b.(outbound_in_transit) in
  let? t := amount_add t b.(accepted_remote_value) in
  amount_add t b.(inbound_in_transit).

(** Buckets that never back the share price. *)
Definition buckets_excluded_from_nav (b : Buckets) : result Rejection AssetAmount :=
  let? t := amount_add b.(pending_deposit_escrow) b.(claim_reserve) in
  let? t := amount_add t b.(unattributed_balance) in
  amount_add t b.(unattributed_inbound).

(** The single epoch that is open or cut off but not yet settled. *)
Record Epoch := mkEpoch {
  ep_id : EpochId;
  ep_opened_at : Timestamp;
  ep_cutoff_at : Timestamp;
  ep_config_version : ConfigVersion;
  ep_asset_decimals : Z;
  ep_share_decimals : Z;
  ep_virtual_assets : AssetAmount;
  ep_virtual_shares : ShareAmount;
  ep_phase : EpochPhase;
  ep_pending_deposit_assets : AssetAmount;
  ep_pending_redeem_shares : ShareAmount;
}.

#[global] Instance Epoch_eta : Eta Epoch := fun r =>
  mkEpoch (ep_id r) (ep_opened_at r) (ep_cutoff_at r) (ep_config_version r)
  (ep_asset_decimals r) (ep_share_decimals r) (ep_virtual_assets r) (ep_virtual_shares r)
  (ep_phase r) (ep_pending_deposit_assets r) (ep_pending_redeem_shares r).

(** Immutable settlement terms of a finalized epoch. *)
Record EpochTerms := mkEpochTerms {
  et_id : EpochId;
  et_config_version : ConfigVersion;
  et_cutoff_at : Timestamp;
  et_total_assets : AssetAmount;
  et_total_supply : ShareAmount;
  et_virtual_assets : AssetAmount;
  et_virtual_shares : ShareAmount;
  et_deposit_assets : AssetAmount;
  et_minted_shares : ShareAmount;
  et_redeem_shares : ShareAmount;
  et_redeem_assets : AssetAmount;
  et_deposit_dust : ShareAmount;
  et_redeem_dust : AssetAmount;
}.

#[global] Instance EpochTerms_eta : Eta EpochTerms := fun r =>
  mkEpochTerms (et_id r) (et_config_version r) (et_cutoff_at r) (et_total_assets r)
  (et_total_supply r) (et_virtual_assets r) (et_virtual_shares r) (et_deposit_assets r)
  (et_minted_shares r) (et_redeem_shares r) (et_redeem_assets r) (et_deposit_dust r)
  (et_redeem_dust r).

Definition terms_basis (t : EpochTerms) : PricingBasis :=
  mkPricingBasis t.(et_total_assets) t.(et_total_supply) t.(et_virtual_assets)
    t.(et_virtual_shares).

Definition shares_for (t : EpochTerms) (assets : AssetAmount) : result Rejection ShareAmount :=
  assets_to_shares assets (terms_basis t).

Definition assets_for (t : EpochTerms) (shares : ShareAmount) : result Rejection AssetAmount :=
  shares_to_assets shares (terms_basis t).

(** Immutable record of an epoch that was abandoned while frozen. *)
Record AbortedTerms := mkAbortedTerms {
  at_id : EpochId;
  at_config_version : ConfigVersion;
  at_cutoff_at : Timestamp;
  at_refund_assets : AssetAmount;
  at_refund_shares : ShareAmount;
}.

#[global] Instance AbortedTerms_eta : Eta AbortedTerms := fun r =>
  mkAbortedTerms (at_id r) (at_config_version r) (at_cutoff_at r) (at_refund_assets r)
  (at_refund_shares r).

(** How an epoch left the active slot. *)
Inductive EpochOutcome :=
| Finalized (t : EpochTerms)
| Aborted (t : AbortedTerms).

Definition outcome_finalized (o : EpochOutcome) : option EpochTerms :=
  match o with Finalized t => Some t | Aborted _ => None end.

Definition outcome_aborted (o : EpochOutcome) : option AbortedTerms :=
  match o with Aborted t => Some t | Finalized _ => None end.

Record Genesis := mkGenesis {
  gen_config : Config;
  gen_authority : Authority;
  gen_accounts : list (AccountId * AssetAmount);
  gen_unattributed_balance : AssetAmount;
  gen_opened_at : Timestamp;
}.

(** Amounts requested in one epoch, derived from the request records. *)
Record RequestTotals := mkRequestTotals {
  tot_deposit_assets : AssetAmount;
  tot_redeem_shares : ShareAmount;
  tot_unclaimed_deposit_assets : AssetAmount;
  tot_unclaimed_redeem_shares : ShareAmount;
  tot_deposit_count : Z;
  tot_redeem_count : Z;
}.

#[global] Instance RequestTotals_eta : Eta RequestTotals := fun r =>
  mkRequestTotals (tot_deposit_assets r) (tot_redeem_shares r)
  (tot_unclaimed_deposit_assets r) (tot_unclaimed_redeem_shares r) (tot_deposit_count r)
  (tot_redeem_count r).

(** Entitlements a finalized epoch owes, derived from the request records. *)
Record Entitlements := mkEntitlements {
  ent_deposit_shares : ShareAmount;
  ent_unclaimed_deposit_shares : ShareAmount;
  ent_redeem_assets : AssetAmount;
  ent_unclaimed_redeem_assets : AssetAmount;
}.

#[global] Instance Entitlements_eta : Eta Entitlements := fun r =>
  mkEntitlements (ent_deposit_shares r) (ent_unclaimed_deposit_shares r)
  (ent_redeem_assets r) (ent_unclaimed_redeem_assets r).

(** Complete canonical accounting state. *)
Record State := mkState {
  config : Config;
  authority : Authority;
  vault_state : VaultState;
  epoch : option Epoch;
  next_epoch_id : EpochId;
  last_cutoff_at : Timestamp;
  epochs : gmap Z EpochOutcome;
  accounts : gmap Z Account;
  deposit_requests : gmap RequestKey DepositRequest;
  redeem_requests : gmap RequestKey RedeemRequest;
  buckets : Buckets;
  total_share_supply : ShareAmount;
  escrowed_redeem_shares : ShareAmount;
  claimable_deposit_shares : ShareAmount;
  burned_redemption_shares : ShareAmount;
  initial_asset_supply : AssetAmount;
  remote_principal_cap : AssetAmount;
  recognized_loss : AssetAmount;
  impaired_transport : AssetAmount;
  cumulative_impairment : AssetAmount;
  external_inflow : AssetAmount;
  pending_recall_id : TransferId;
  pending_recall_principal : AssetAmount;
  active_cycle : CycleKind;
  active_transfer_id : TransferId;
  active_amount : AssetAmount;
  close_requested : bool;
  inbound_cumulative_loss : AssetAmount;
  recall_baseline_value : AssetAmount;
  recall_baseline_loss : AssetAmount;
  used_transfer_ids : gset (list Z);
  epoch_valuation_locked : gmap Z AssetAmount;
}.

#[global] Instance State_eta : Eta State := fun r =>
  mkState (config r) (authority r) (vault_state r) (epoch r) (next_epoch_id r)
  (last_cutoff_at r) (epochs r) (accounts r) (deposit_requests r) (redeem_requests r)
  (buckets r) (total_share_supply r) (escrowed_redeem_shares r) (claimable_deposit_shares
  r) (burned_redemption_shares r) (initial_asset_supply r) (remote_principal_cap r)
  (recognized_loss r) (impaired_transport r) (cumulative_impairment r) (external_inflow r)
  (pending_recall_id r) (pending_recall_principal r) (active_cycle r) (active_transfer_id
  r) (active_amount r) (close_requested r) (inbound_cumulative_loss r)
  (recall_baseline_value r) (recall_baseline_loss r) (used_transfer_ids r)
  (epoch_valuation_locked r).

(** * Construction *)

(** The loop over the genesis accounts: a repeated id is refused. *)
Definition genesis_step (acc : gmap Z Account * AssetAmount) (entry : AccountId * AssetAmount)
  : result Rejection (gmap Z Account * AssetAmount) :=
  let '(accts, supply) := acc in
  let '(id, assets) := entry in
  fail_if bool_decide (is_Some (accts !! id)) with DuplicateAccount;
  let? supply := amount_add supply assets in
  Ok (<[id := mkAccount assets 0]> accts, supply).

Definition state_new (g : Genesis) : result Rejection State :=
  let c := g.(gen_config) in
  let? _ := config_validate c in
  let? virtual_shares := virtual_shares_for c.(cfg_asset_decimals) c.(cfg_share_decimals) in
  let? '(accts, supply) :=
    try_fold genesis_step (∅, g.(gen_unattributed_balance)) g.(gen_accounts) in
  let? cutoff_at := checked_add_seconds g.(gen_opened_at) c.(cfg_epoch_duration) in
  let? next := epoch_next 0 in
  Ok {|
    config := c;
    authority := g.(gen_authority);
    vault_state := Active;
    epoch := Some {|
      ep_id := 0;
      ep_opened_at := g.(gen_opened_at);
      ep_cutoff_at := cutoff_at;
      ep_config_version := c.(cfg_version);
      ep_asset_decimals := c.(cfg_asset_decimals);
      ep_share_decimals := c.(cfg_share_decimals);
      ep_virtual_assets := 1;
      ep_virtual_shares := virtual_shares;
      ep_phase := Open;
      ep_pending_deposit_assets := 0;
      ep_pending_redeem_shares := 0;
    |};
    next_epoch_id := next;
    last_cutoff_at := g.(gen_opened_at);
    epochs := ∅;
    accounts := accts;
    deposit_requests := ∅;
    redeem_requests := ∅;
    buckets := mkBuckets 0 0 0 g.(gen_unattributed_balance) 0 0 0 0;
    total_share_supply := 0;
    escrowed_redeem_shares := 0;
    claimable_deposit_shares := 0;
    burned_redemption_shares := 0;
    initial_asset_supply := supply;
    remote_principal_cap := 0;
    recognized_loss := 0;
    impaired_transport := 0;
    cumulative_impairment := 0;
    external_inflow := 0;
    pending_recall_id := transfer_zero;
    pending_recall_principal := 0;
    active_cycle := CycleNone;
    active_transfer_id := transfer_zero;
    active_amount := 0;
    close_requested := false;
    inbound_cumulative_loss := 0;
    recall_baseline_value := 0;
    recall_baseline_loss := 0;
    used_transfer_ids := ∅;
    epoch_valuation_locked := ∅;
  |}.

(** * Derived figures *)

(** Assets that back the share price.  Escrow and reserves are excluded. *)
Definition managed_backing (s : State) : AssetAmount :=
  let total := s.(buckets).(idle_backing) in
  let total := saturating_add u128_max total s.(buckets).(outbound_in_transit) in
  let total := saturating_add u128_max total s.(buckets).(accepted_remote_value) in
  saturating_add u128_max total s.(buckets).(inbound_in_transit).

Definition managed_nav (s : State) : AssetAmount := managed_backing s.

Definition has_remote_exposure (s : State) : bool :=
  negb (is_zero s.(buckets).(outbound_in_transit))
  || negb (is_zero s.(buckets).(accepted_remote_value))
  || negb (is_zero s.(buckets).(inbound_in_transit))
  || negb (is_zero s.(remote_principal_cap))
  || negb (is_zero s.(pending_recall_principal)).

Definition account (s : State) (id : AccountId) : Account :=
  default account_default (s.(accounts) !! id).

Definition finalized_terms (s : State) (id : EpochId) : option EpochTerms :=
  s.(epochs) !! id ≫= outcome_finalized.

Definition aborted_terms (s : State) (id : EpochId) : option AbortedTerms :=
  s.(epochs) !! id ≫= outcome_aborted.

(** [account_mut(id)] followed by an assignment to one field. *)
Definition set_account_assets (s : State) (id : AccountId) (a : AssetAmount) : State :=
  s <| accounts := <[id := (account s id) <| acc_assets := a |>]> s.(accounts) |>.

Definition set_account_shares (s : State) (id : AccountId) (a : ShareAmount) : State :=
  s <| accounts := <[id := (account s id) <| acc_shares := a |>]> s.(accounts) |>.

Definition total_bucket_assets (s : State) : result Rejection AssetAmount :=
  buckets_total s.(buckets).

Definition excluded_from_nav (s : State) : result Rejection AssetAmount :=
  buckets_excluded_from_nav s.(buckets).

Definition total_account_assets (s : State) : result Rejection AssetAmount :=
  try_fold (fun total kv => amount_add total kv.2.(acc_assets)) 0 (btree_iter Z.le s.(accounts)).

Definition total_account_shares (s : State) : result Rejection ShareAmount :=
  try_fold (fun total kv => amount_add total kv.2.(acc_shares)) 0 (btree_iter Z.le s.(accounts)).

(** Pricing basis taken before any settlement of the current epoch. *)
Definition pre_settlement_basis (s : State) (e : Epoch) : PricingBasis :=
  mkPricingBasis (managed_nav s) s.(total_share_supply) e.(ep_virtual_assets)
    e.(ep_virtual_shares).

(** The records of one epoch, in key order. *)
Definition deposit_range (s : State) (e : EpochId) : list (RequestKey * DepositRequest) :=
  filter (fun kv => in_epoch_range e kv.1) (btree_iter key_le s.(deposit_requests)).

Definition redeem_range (s : State) (e : EpochId) : list (RequestKey * RedeemRequest) :=
  filter (fun kv => in_epoch_range e kv.1) (btree_iter key_le s.(redeem_requests)).

Definition count_deposit (t : RequestTotals) (kv : RequestKey * DepositRequest)
  : result Rejection RequestTotals :=
  let r := kv.2 in
  if negb (deposit_is_active r) then Ok t else
  let? d := amount_add t.(tot_deposit_assets) r.(dr_assets) in
  let t := t <| tot_deposit_assets := d |>
             <| tot_deposit_count := saturating_add u128_max t.(tot_deposit_count) 1 |> in
  if r.(dr_claimed) then Ok t else
  let? u := amount_add t.(tot_unclaimed_deposit_assets) r.(dr_assets) in
  Ok (t <| tot_unclaimed_deposit_assets := u |>).

Definition count_redeem (t : RequestTotals) (kv : RequestKey * RedeemRequest)
  : result Rejection RequestTotals :=
  let r := kv.2 in
  if negb (redeem_is_active r) then Ok t else
  let? d := amount_add t.(tot_redeem_shares) r.(rr_shares) in
  let t := t <| tot_redeem_shares := d |>
             <| tot_redeem_count := saturating_add u128_max t.(tot_redeem_count) 1 |> in
  if r.(rr_claimed) then Ok t else
  let? u := amount_add t.(tot_unclaimed_redeem_shares) r.(rr_shares) in
  Ok (t <| tot_unclaimed_redeem_shares := u |>).

(** Sums the request records that belong to one epoch. *)
Definition request_totals (s : State) (e : EpochId) : result Rejection RequestTotals :=
  let? t := try_fold count_deposit (mkRequestTotals 0 0 0 0 0 0) (deposit_range s e) in
  try_fold count_redeem t (redeem_range s e).

Definition price_deposit (terms : EpochTerms) (o : Entitlements) (kv : RequestKey * DepositRequest)
  : result Rejection Entitlements :=
  let r := kv.2 in
  if negb (deposit_is_active r) then Ok o else
  let? shares := shares_for terms r.(dr_assets) in
  let? d := amount_add o.(ent_deposit_shares) shares in
  let o := o <| ent_deposit_shares := d |> in
  if r.(dr_claimed) then Ok o else
  let? u := amount_add o.(ent_unclaimed_deposit_shares) shares in
  Ok (o <| ent_unclaimed_deposit_shares := u |>).

Definition price_redeem (terms : EpochTerms) (o : Entitlements) (kv : RequestKey * RedeemRequest)
  : result Rejection Entitlements :=
  let r := kv.2 in
  if negb (redeem_is_active r) then Ok o else
  let? assets := assets_for terms r.(rr_shares) in
  let? d := amount_add o.(ent_redeem_assets) assets in
  let o := o <| ent_redeem_assets := d |> in
  if r.(rr_claimed) then Ok o else
  let? u := amount_add o.(ent_unclaimed_redeem_assets) assets in
  Ok (o <| ent_unclaimed_redeem_assets := u |>).

(** Prices every request of one epoch against the given terms. *)
Definition entitlements (s : State) (e : EpochId) (terms : EpochTerms)
  : result Rejection Entitlements :=
  let? o := try_fold (price_deposit terms) (mkEntitlements 0 0 0 0) (deposit_range s e) in
  try_fold (price_redeem terms) o (redeem_range s e).

Definition lifecycle (s : State) (e : EpochId) (cancelled claimed : bool) : RequestState :=
  if cancelled then Cancelled else
  match s.(epochs) !! e with
  | Some (Finalized _) => if claimed then Claimed else Claimable
  | Some (Aborted _) => if claimed then Refunded else Refundable
  | None =>
      match s.(epoch) with
      | Some current =>
          if (current.(ep_id) =? e) && bool_decide (current.(ep_phase) = CutOff)
          then Locked else Pending
      | None => Pending
      end
  end.

Definition deposit_request_state (s : State) (k : RequestKey) : option RequestState :=
  r ← s.(deposit_requests) !! k;
  Some (lifecycle s k.(rk_epoch) r.(dr_cancelled) r.(dr_claimed)).

Definition redeem_request_state (s : State) (k : RequestKey) : option RequestState :=
  r ← s.(redeem_requests) !! k;
  Some (lifecycle s k.(rk_epoch) r.(rr_cancelled) r.(rr_claimed)).

(** One loop over the settled epochs that adds up what [figure] says each owes. *)
Definition sum_epochs (s : State) (figure : EpochId -> EpochOutcome -> option (result Rejection Z))
  : result Rejection Z :=
  try_fold (fun total kv =>
    match figure kv.1 kv.2 with
    | None => Ok total
    | Some owed => let? owed := owed in amount_add total owed
    end) 0 (btree_iter Z.le s.(epochs)).

Definition outstanding_redeem_assets (s : State) : result Rejection AssetAmount :=
  sum_epochs s (fun id o =>
    terms ← outcome_finalized o;
    Some (result_map ent_unclaimed_redeem_assets (entitlements s id terms))).

Definition outstanding_deposit_shares (s : State) : result Rejection ShareAmount :=
  sum_epochs s (fun id o =>
    terms ← outcome_finalized o;
    Some (result_map ent_unclaimed_deposit_shares (entitlements s id terms))).

Definition outstanding_refund_assets (s : State) : result Rejection AssetAmount :=
  sum_epochs s (fun id o =>
    _ ← outcome_aborted o;
    Some (result_map tot_unclaimed_deposit_assets (request_totals s id))).

Definition outstanding_refund_shares (s : State) : result Rejection ShareAmount :=
  sum_epochs s (fun id o =>
    _ ← outcome_aborted o;
    Some (result_map tot_unclaimed_redeem_shares (request_totals s id))).

(** * Operations *)

Inductive Operation :=
| RequestDeposit (account : AccountId) (assets : AssetAmount)
| CancelDeposit (account : AccountId)
| RequestRedeem (account : AccountId) (shares : ShareAmount)
| CancelRedeem (account : AccountId)
| CutoffEpoch (now : Timestamp)
| FinalizeEpoch
| AbortEpoch (actor : AccountId)
| ClaimDeposit (account : AccountId) (epoch : EpochId)
| ClaimRedeem (account : AccountId) (epoch : EpochId)
| ClaimAbortedDeposit (account : AccountId) (epoch : EpochId)
| ClaimAbortedRedeem (account : AccountId) (epoch : EpochId)
| OpenNextEpoch (now : Timestamp)
| Pause (actor : AccountId)
| Unpause (actor : AccountId)
| Freeze (actor : AccountId)
| BeginAllocate (actor : AccountId) (transfer_id : TransferId) (amount : AssetAmount)
| CompleteAllocation (transfer_id : TransferId) (reported_value : AssetAmount)
| BeginRecall (actor : AccountId) (transfer_id : TransferId) (amount : AssetAmount)
| AcceptRecallSent (transfer_id : TransferId) (principal actual loss : AssetAmount)
| ObserveInbound (amount : AssetAmount)
| ApplyRemoteValuation (reported_value newly_realized_loss : AssetAmount)
| LockRemoteValuation
| RequestClose (actor : AccountId) (transfer_id : TransferId)
| SettleClose (transfer_id : TransferId) (credited : AssetAmount)
| BeginRecover (actor : AccountId) (transfer_id : TransferId)
| SettleRecover (transfer_id : TransferId) (credited : AssetAmount).
