(* ===== verification/AccountingTransition.v ===== *)
(** The transitions of the accounting model
    ([crates/accounting-model/src/transition.rs]): one function per private
    handler and [apply], which dispatches an [Operation].  The code mutates a
    clone of the state and drops it on an error, so a handler is a function
    [State -> result Rejection State]. *)

From Stdlib Require Import ZArith Lia.
From S2P Require Import Prelude AccountingMath AccountingState.

(** * Guards *)

Definition require_active (s : State) : result Rejection unit :=
  match s.(vault_state) with
  | Active => Ok tt
  | Paused | Frozen => Err InvalidVaultState
  end.

Definition require_open_epoch (s : State) : result Rejection Epoch :=
  let? e := ok_or s.(epoch) EpochNotOpen in
  match e.(ep_phase) with
  | Open => Ok e
  | CutOff => Err EpochAlreadyCutOff
  end.

(** [epoch_mut(state)?] followed by an assignment. *)
Definition epoch_mut (s : State) (f : Epoch -> Epoch) : result Rejection State :=
  let? e := ok_or s.(epoch) EpochNotOpen in
  Ok (s <| epoch := Some (f e) |>).

(** Cancellation stays available while paused. *)
Definition require_cancellation_allowed (s : State) : result Rejection unit :=
  match s.(vault_state) with
  | Active | Paused => Ok tt
  | Frozen => Err InvalidVaultState
  end.

Definition require_guardian_or_admin (s : State) (actor : AccountId) : result Rejection unit :=
  if (actor =? s.(authority).(admin)) || (actor =? s.(authority).(guardian))
  then Ok tt else Err UnauthorizedActor.

Definition require_admin (s : State) (actor : AccountId) : result Rejection unit :=
  if actor =? s.(authority).(admin) then Ok tt else Err UnauthorizedActor.

Definition require_fresh_transfer (s : State) (t : TransferId) : result Rejection unit :=
  fail_if transfer_is_zero t with ZeroAmount;
  fail_if bool_decide (t ∈ s.(used_transfer_ids)) with TransferIdReused;
  Ok tt.

Definition require_no_cycle (s : State) : result Rejection unit :=
  fail_if negb (bool_decide (s.(active_cycle) = CycleNone)) with ActiveTransferExists;
  Ok tt.

Definition clear_cycle (s : State) : State :=
  s <| active_cycle := CycleNone |>
    <| active_transfer_id := transfer_zero |>
    <| active_amount := 0 |>
    <| close_requested := false |>.

Definition set_accepted (s : State) (reported_value : AssetAmount) : State :=
  s <| buckets, accepted_remote_value :=
         if reported_value <? s.(remote_principal_cap)
         then reported_value else s.(remote_principal_cap) |>.

(** * Deposits and redemptions *)

Definition request_deposit (s : State) (acct : AccountId) (assets : AssetAmount)
  : result Rejection State :=
  let? _ := require_active s in
  let? e := require_open_epoch s in
  fail_if is_zero assets with ZeroAmount;
  fail_if assets <? s.(config).(cfg_min_deposit_assets) with AmountBelowMinimum;
  let key := mkRequestKey e.(ep_id) acct in
  fail_if match s.(deposit_requests) !! key with Some r => r.(dr_claimed) | None => false end
    with RequestAlreadySettled;
  let? remaining :=
    map_err (amount_sub (account s acct).(acc_assets) assets) InsufficientAssetBalance in
  let? escrow := amount_add s.(buckets).(pending_deposit_escrow) assets in
  let? epoch_total := amount_add e.(ep_pending_deposit_assets) assets in
  let s := set_account_assets s acct remaining in
  let s := s <| buckets, pending_deposit_escrow := escrow |> in
  let? s := epoch_mut s (fun e => e <| ep_pending_deposit_assets := epoch_total |>) in
  let entry := default deposit_default (s.(deposit_requests) !! key) in
  let? total := amount_add entry.(dr_assets) assets in
  Ok (s <| deposit_requests :=
             <[key := entry <| dr_assets := total |> <| dr_cancelled := false |>]>
               s.(deposit_requests) |>).

Definition cancel_deposit (s : State) (acct : AccountId) : result Rejection State :=
  let? _ := require_cancellation_allowed s in
  let? e := ok_or s.(epoch) EpochNotOpen in
  fail_if bool_decide (e.(ep_phase) = CutOff) with CancellationAfterCutoff;
  let key := mkRequestKey e.(ep_id) acct in
  let? r := ok_or (s.(deposit_requests) !! key) RequestNotFound in
  fail_if r.(dr_claimed) with RequestAlreadySettled;
  fail_if r.(dr_cancelled) || is_zero r.(dr_assets) with RequestAlreadyCancelled;
  let? escrow := amount_sub s.(buckets).(pending_deposit_escrow) r.(dr_assets) in
  let? epoch_total := amount_sub e.(ep_pending_deposit_assets) r.(dr_assets) in
  let? returned := amount_add (account s acct).(acc_assets) r.(dr_assets) in
  let? cancelled_total := amount_add r.(dr_cancelled_assets) r.(dr_assets) in
  let s := s <| buckets, pending_deposit_escrow := escrow |> in
  let? s := epoch_mut s (fun e => e <| ep_pending_deposit_assets := epoch_total |>) in
  let s := set_account_assets s acct returned in
  Ok (s <| deposit_requests ::=
             alter (fun r => r <| dr_assets := 0 |>
                               <| dr_cancelled_assets := cancelled_total |>
                               <| dr_cancelled := true |>) key |>).

Definition request_redeem (s : State) (acct : AccountId) (shares : ShareAmount)
  : result Rejection State :=
  let? _ := require_active s in
  let? e := require_open_epoch s in
  fail_if is_zero shares with ZeroAmount;
  fail_if shares <? s.(config).(cfg_min_redeem_shares) with AmountBelowMinimum;
  let key := mkRequestKey e.(ep_id) acct in
  fail_if match s.(redeem_requests) !! key with Some r => r.(rr_claimed) | None => false end
    with RequestAlreadySettled;
  let? remaining :=
    map_err (amount_sub (account s acct).(acc_shares) shares) InsufficientShareBalance in
  let? escrowed := amount_add s.(escrowed_redeem_shares) shares in
  let? epoch_total := amount_add e.(ep_pending_redeem_shares) shares in
  let s := set_account_shares s acct remaining in
  let s := s <| escrowed_redeem_shares := escrowed |> in
  let? s := epoch_mut s (fun e => e <| ep_pending_redeem_shares := epoch_total |>) in
  let entry := default redeem_default (s.(redeem_requests) !! key) in
  let? total := amount_add entry.(rr_shares) shares in
  Ok (s <| redeem_requests :=
             <[key := entry <| rr_shares := total |> <| rr_cancelled := false |>]>
               s.(redeem_requests) |>).

Definition cancel_redeem (s : State) (acct : AccountId) : result Rejection State :=
  let? _ := require_cancellation_allowed s in
  let? e := ok_or s.(epoch) EpochNotOpen in
  fail_if bool_decide (e.(ep_phase) = CutOff) with CancellationAfterCutoff;
  let key := mkRequestKey e.(ep_id) acct in
  let? r := ok_or (s.(redeem_requests) !! key) RequestNotFound in
  fail_if r.(rr_claimed) with RequestAlreadySettled;
  fail_if r.(rr_cancelled) || is_zero r.(rr_shares) with RequestAlreadyCancelled;
  let? escrowed := amount_sub s.(escrowed_redeem_shares) r.(rr_shares) in
  let? epoch_total := amount_sub e.(ep_pending_redeem_shares) r.(rr_shares) in
  let? returned := amount_add (account s acct).(acc_shares) r.(rr_shares) in
  let? cancelled_total := amount_add r.(rr_cancelled_shares) r.(rr_shares) in
  let s := s <| escrowed_redeem_shares := escrowed |> in
  let? s := epoch_mut s (fun e => e <| ep_pending_redeem_shares := epoch_total |>) in
  let s := set_account_shares s acct returned in
  Ok (s <| redeem_requests ::=
             alter (fun r => r <| rr_shares := 0 |>
                               <| rr_cancelled_shares := cancelled_total |>
                               <| rr_cancelled := true |>) key |>).

(** * The epoch *)

Definition cutoff_epoch (s : State) (now : Timestamp) : result Rejection State :=
  let? _ := require_active s in
  let? e := require_open_epoch s in
  fail_if now <? e.(ep_cutoff_at) with CutoffNotReached;
  epoch_mut s (fun e => e <| ep_phase := CutOff |>).

Definition finalize_epoch (s : State) : result Rejection State :=
  let? _ := require_active s in
  let? e := ok_or s.(epoch) EpochNotOpen in
  fail_if negb (bool_decide (e.(ep_phase) = CutOff)) with EpochNotCutOff;
  fail_if bool_decide (is_Some (s.(epochs) !! e.(ep_id))) with EpochAlreadyFinalized;
  let basis := pre_settlement_basis s e in
  let? basis :=
    if has_remote_exposure s then
      let? locked :=
        ok_or (s.(epoch_valuation_locked) !! e.(ep_id)) RemoteValuationRequired in
      Ok (basis <| pb_total_assets := locked |>)
    else Ok basis in
  let deposit_assets := e.(ep_pending_deposit_assets) in
  let redeem_shares := e.(ep_pending_redeem_shares) in
  let? redeem_assets := shares_to_assets redeem_shares basis in
  let? minted_shares := assets_to_shares deposit_assets basis in
  let? idle_after_redemptions :=
    map_err (amount_sub s.(buckets).(idle_backing) redeem_assets)
      InsufficientRedemptionLiquidity in
  let? idle := amount_add idle_after_redemptions deposit_assets in
  let? escrow := amount_sub s.(buckets).(pending_deposit_escrow) deposit_assets in
  let? reserve := amount_add s.(buckets).(claim_reserve) redeem_assets in
  let? supply := amount_add s.(total_share_supply) minted_shares in
  let? supply := amount_sub supply redeem_shares in
  let? claimable := amount_add s.(claimable_deposit_shares) minted_shares in
  let? escrowed := amount_sub s.(escrowed_redeem_shares) redeem_shares in
  let? burned := amount_add s.(burned_redemption_shares) redeem_shares in
  let? next := epoch_next e.(ep_id) in
  let terms := {|
    et_id := e.(ep_id);
    et_config_version := e.(ep_config_version);
    et_cutoff_at := e.(ep_cutoff_at);
    et_total_assets := basis.(pb_total_assets);
    et_total_supply := basis.(pb_total_supply);
    et_virtual_assets := basis.(pb_virtual_assets);
    et_virtual_shares := basis.(pb_virtual_shares);
    et_deposit_assets := deposit_assets;
    et_minted_shares := minted_shares;
    et_redeem_shares := redeem_shares;
    et_redeem_assets := redeem_assets;
    et_deposit_dust := 0;
    et_redeem_dust := 0;
  |} in
  let? owed := entitlements s e.(ep_id) terms in
  let? deposit_dust := amount_sub minted_shares owed.(ent_deposit_shares) in
  let? redeem_dust := amount_sub redeem_assets owed.(ent_redeem_assets) in
  let terms := terms <| et_deposit_dust := deposit_dust |>
                     <| et_redeem_dust := redeem_dust |> in
  Ok (s <| buckets, idle_backing := idle |>
        <| buckets, pending_deposit_escrow := escrow |>
        <| buckets, claim_reserve := reserve |>
        <| total_share_supply := supply |>
        <| claimable_deposit_shares := claimable |>
        <| escrowed_redeem_shares := escrowed |>
        <| burned_redemption_shares := burned |>
        <| epochs ::= <[e.(ep_id) := Finalized terms]> |>
        <| last_cutoff_at := e.(ep_cutoff_at) |>
        <| next_epoch_id := next |>
        <| epoch := None |>).

(** Abandons the current epoch so frozen funds keep a way out. *)
Definition abort_epoch (s : State) (actor : AccountId) : result Rejection State :=
  let? _ := require_guardian_or_admin s actor in
  fail_if negb (bool_decide (s.(vault_state) = Frozen)) with InvalidVaultState;
  let? e := ok_or s.(epoch) EpochNotOpen in
  fail_if bool_decide (is_Some (s.(epochs) !! e.(ep_id))) with EpochAlreadyFinalized;
  let? next := epoch_next e.(ep_id) in
  Ok (s <| epochs ::= <[e.(ep_id) := Aborted {|
              at_id := e.(ep_id);
              at_config_version := e.(ep_config_version);
              at_cutoff_at := e.(ep_cutoff_at);
              at_refund_assets := e.(ep_pending_deposit_assets);
              at_refund_shares := e.(ep_pending_redeem_shares);
            |}]> |>
        <| last_cutoff_at := e.(ep_cutoff_at) |>
        <| next_epoch_id := next |>
        <| epoch := None |>).

Definition open_next_epoch (s : State) (now : Timestamp) : result Rejection State :=
  let? _ := require_active s in
  fail_if bool_decide (is_Some s.(epoch)) with EpochAlreadyOpen;
  fail_if now <? s.(last_cutoff_at) with TimestampNotMonotonic;
  let? virtual_shares :=
    virtual_shares_for s.(config).(cfg_asset_decimals) s.(config).(cfg_share_decimals) in
  let? cutoff_at := checked_add_seconds now s.(config).(cfg_epoch_duration) in
  Ok (s <| epoch := Some {|
        ep_id := s.(next_epoch_id);
        ep_opened_at := now;
        ep_cutoff_at := cutoff_at;
        ep_config_version := s.(config).(cfg_version);
        ep_asset_decimals := s.(config).(cfg_asset_decimals);
        ep_share_decimals := s.(config).(cfg_share_decimals);
        ep_virtual_assets := 1;
        ep_virtual_shares := virtual_shares;
        ep_phase := Open;
        ep_pending_deposit_assets := 0;
        ep_pending_redeem_shares := 0;
      |} |>).

(** * Claims *)

Definition claim_deposit (s : State) (acct : AccountId) (e : EpochId)
  : result Rejection State :=
  let? terms := ok_or (finalized_terms s e) EpochNotFinalized in
  let key := mkRequestKey e acct in
  let? r := ok_or (s.(deposit_requests) !! key) RequestNotFound in
  fail_if r.(dr_cancelled) with RequestAlreadyCancelled;
  fail_if r.(dr_claimed) with ClaimAlreadyConsumed;
  fail_if is_zero r.(dr_assets) with ClaimNotFound;
  let? shares := shares_for terms r.(dr_assets) in
  let? claimable := amount_sub s.(claimable_deposit_shares) shares in
  let? credited := amount_add (account s acct).(acc_shares) shares in
  let s := s <| claimable_deposit_shares := claimable |> in
  let s := set_account_shares s acct credited in
  Ok (s <| deposit_requests ::= alter (fun r => r <| dr_claimed := true |>) key |>).

Definition claim_redeem (s : State) (acct : AccountId) (e : EpochId)
  : result Rejection State :=
  let? terms := ok_or (finalized_terms s e) EpochNotFinalized in
  let key := mkRequestKey e acct in
  let? r := ok_or (s.(redeem_requests) !! key) RequestNotFound in
  fail_if r.(rr_cancelled) with RequestAlreadyCancelled;
  fail_if r.(rr_claimed) with ClaimAlreadyConsumed;
  fail_if is_zero r.(rr_shares) with ClaimNotFound;
  let? assets := assets_for terms r.(rr_shares) in
  let? reserve := amount_sub s.(buckets).(claim_reserve) assets in
  let? credited := amount_add (account s acct).(acc_assets) assets in
  let s := s <| buckets, claim_reserve := reserve |> in
  let s := set_account_assets s acct credited in
  Ok (s <| redeem_requests ::= alter (fun r => r <| rr_claimed := true |>) key |>).

Definition claim_aborted_deposit (s : State) (acct : AccountId) (e : EpochId)
  : result Rejection State :=
  fail_if bool_decide (aborted_terms s e = None) with EpochNotAborted;
  let key := mkRequestKey e acct in
  let? r := ok_or (s.(deposit_requests) !! key) RequestNotFound in
  fail_if r.(dr_cancelled) with RequestAlreadyCancelled;
  fail_if r.(dr_claimed) with ClaimAlreadyConsumed;
  fail_if is_zero r.(dr_assets) with ClaimNotFound;
  let? escrow := amount_sub s.(buckets).(pending_deposit_escrow) r.(dr_assets) in
  let? returned := amount_add (account s acct).(acc_assets) r.(dr_assets) in
  let s := s <| buckets, pending_deposit_escrow := escrow |> in
  let s := set_account_assets s acct returned in
  Ok (s <| deposit_requests ::= alter (fun r => r <| dr_claimed := true |>) key |>).

Definition claim_aborted_redeem (s : State) (acct : AccountId) (e : EpochId)
  : result Rejection State :=
  fail_if bool_decide (aborted_terms s e = None) with EpochNotAborted;
  let key := mkRequestKey e acct in
  let? r := ok_or (s.(redeem_requests) !! key) RequestNotFound in
  fail_if r.(rr_cancelled) with RequestAlreadyCancelled;
  fail_if r.(rr_claimed) with ClaimAlreadyConsumed;
  fail_if is_zero r.(rr_shares) with ClaimNotFound;
  let? escrowed := amount_sub s.(escrowed_redeem_shares) r.(rr_shares) in
  let? returned := amount_add (account s acct).(acc_shares) r.(rr_shares) in
  let s := s <| escrowed_redeem_shares := escrowed |> in
  let s := set_account_shares s acct returned in
  Ok (s <| redeem_requests ::= alter (fun r => r <| rr_claimed := true |>) key |>).

(** * Emergency states *)

Definition pause (s : State) (actor : AccountId) : result Rejection State :=
  let? _ := require_guardian_or_admin s actor in
  fail_if negb (bool_decide (s.(vault_state) = Active)) with InvalidVaultState;
  Ok (s <| vault_state := Paused |>).

Definition unpause (s : State) (actor : AccountId) : result Rejection State :=
  fail_if negb (actor =? s.(authority).(admin)) with UnauthorizedActor;
  fail_if negb (bool_decide (s.(vault_state) = Paused)) with InvalidVaultState;
  Ok (s <| vault_state := Active |>).

Definition freeze (s : State) (actor : AccountId) : result Rejection State :=
  let? _ := require_guardian_or_admin s actor in
  fail_if bool_decide (s.(vault_state) = Frozen) with InvalidVaultState;
  Ok (s <| vault_state := Frozen |>).

(** * The remote leg *)

Definition begin_allocate (s : State) (actor : AccountId) (t : TransferId) (amount : AssetAmount)
  : result Rejection State :=
  let? _ := require_admin s actor in
  let? _ := require_active s in
  let? e := require_open_epoch s in
  fail_if negb (bool_decide (e.(ep_phase) = Open)) with AllocateNotAllowed;
  let? _ := require_no_cycle s in
  let? _ := require_fresh_transfer s t in
  fail_if is_zero amount with ZeroAmount;
  let? idle :=
    map_err (amount_sub s.(buckets).(idle_backing) amount) InsufficientRedemptionLiquidity in
  let s := s <| buckets, idle_backing := idle |> in
  let? outbound := amount_add s.(buckets).(outbound_in_transit) amount in
  Ok (s <| buckets, outbound_in_transit := outbound |>
        <| used_transfer_ids ::= ({[t]} ∪.) |>
        <| active_cycle := CycleAllocate |>
        <| active_transfer_id := t |>
        <| active_amount := amount |>).

Definition complete_allocation (s : State) (t : TransferId) (reported_value : AssetAmount)
  : result Rejection State :=
  if s.(close_requested) then Ok s else
  fail_if negb (bool_decide (s.(active_cycle) = CycleAllocate)) with NoActiveTransfer;
  fail_if negb (bool_decide (s.(active_transfer_id) = t)) with NoActiveTransfer;
  let amount := s.(active_amount) in
  let? outbound := amount_sub s.(buckets).(outbound_in_transit) amount in
  let s := s <| buckets, outbound_in_transit := outbound |> in
  let? cap := amount_add s.(remote_principal_cap) amount in
  let s := s <| remote_principal_cap := cap |> in
  let s := set_accepted s reported_value in
  Ok (clear_cycle s).

Definition begin_recall (s : State) (actor : AccountId) (t : TransferId) (amount : AssetAmount)
  : result Rejection State :=
  let? _ := require_admin s actor in
  let? _ := require_no_cycle s in
  let? _ := require_fresh_transfer s t in
  fail_if is_zero amount with ZeroAmount;
  fail_if s.(remote_principal_cap) <? amount with InsufficientRemotePrincipal;
  Ok (s <| recall_baseline_value := s.(buckets).(accepted_remote_value) |>
        <| recall_baseline_loss := s.(inbound_cumulative_loss) |>
        <| pending_recall_id := t |>
        <| pending_recall_principal := amount |>
        <| used_transfer_ids ::= ({[t]} ∪.) |>
        <| active_cycle := CycleRecall |>
        <| active_transfer_id := t |>
        <| active_amount := amount |>).

Definition accept_recall_sent (s : State) (t : TransferId)
  (principal actual loss : AssetAmount) : result Rejection State :=
  fail_if negb (bool_decide (s.(active_cycle) = CycleRecall)) with NoActiveTransfer;
  fail_if negb (bool_decide (s.(active_transfer_id) = t)) with NoActiveTransfer;
  fail_if s.(active_amount) <? principal with InvalidRecallSentAmounts;
  let? sum := amount_add actual loss in
  fail_if negb (sum =? principal) with InvalidRecallSentAmounts;
  fail_if s.(remote_principal_cap) <? principal with InsufficientRemotePrincipal;
  let s := set_accepted s s.(recall_baseline_value) in
  let? settled_loss := amount_add s.(recall_baseline_loss) loss in
  let s := s <| inbound_cumulative_loss :=
                  if s.(inbound_cumulative_loss) <? settled_loss
                  then settled_loss else s.(inbound_cumulative_loss) |> in
  let s := s <| recall_baseline_value := 0 |> <| recall_baseline_loss := 0 |> in
  let accepted_decrease :=
    if s.(buckets).(accepted_remote_value) <? principal
    then s.(buckets).(accepted_remote_value) else principal in
  let? cap := amount_sub s.(remote_principal_cap) principal in
  let s := s <| remote_principal_cap := cap |> in
  let? accepted := amount_sub s.(buckets).(accepted_remote_value) accepted_decrease in
  let s := s <| buckets, accepted_remote_value := accepted |> in
  let? recognized := amount_add s.(recognized_loss) loss in
  let s := s <| recognized_loss := recognized |> in
  let from_unattributed :=
    if actual <? s.(buckets).(unattributed_inbound)
    then actual else s.(buckets).(unattributed_inbound) in
  let? unattributed := amount_sub s.(buckets).(unattributed_inbound) from_unattributed in
  let s := s <| buckets, unattributed_inbound := unattributed |> in
  let? idle := amount_add s.(buckets).(idle_backing) from_unattributed in
  let s := s <| buckets, idle_backing := idle |> in
  let? in_flight := amount_sub actual from_unattributed in
  let? inbound := amount_add s.(buckets).(inbound_in_transit) in_flight in
  let s := s <| buckets, inbound_in_transit := inbound |>
             <| pending_recall_id := transfer_zero |>
             <| pending_recall_principal := 0 |> in
  Ok (clear_cycle s).

Definition observe_inbound (s : State) (amount : AssetAmount) : result Rejection State :=
  fail_if is_zero amount with ZeroAmount;
  let? '(s, remaining) :=
    if negb (is_zero s.(buckets).(inbound_in_transit)) then
      let attributed :=
        if amount <? s.(buckets).(inbound_in_transit)
        then amount else s.(buckets).(inbound_in_transit) in
      let? inbound := amount_sub s.(buckets).(inbound_in_transit) attributed in
      let s := s <| buckets, inbound_in_transit := inbound |> in
      let? idle := amount_add s.(buckets).(idle_backing) attributed in
      let s := s <| buckets, idle_backing := idle |> in
      let? remaining := amount_sub amount attributed in
      Ok (s, remaining)
    else Ok (s, amount) in
  if is_zero remaining then Ok s else
  if negb (is_zero s.(pending_recall_principal)) then
    let? u := amount_add s.(buckets).(unattributed_inbound) remaining in
    Ok (s <| buckets, unattributed_inbound := u |>)
  else
    let? inflow := amount_add s.(external_inflow) remaining in
    let s := s <| external_inflow := inflow |> in
    let? u := amount_add s.(buckets).(unattributed_balance) remaining in
    Ok (s <| buckets, unattributed_balance := u |>).

(** During a recall only the loss realized since it began moves the value. *)
Definition value_during_recall (s : State) (cumulative_loss : AssetAmount) : AssetAmount :=
  let loss := saturating_sub cumulative_loss s.(recall_baseline_loss) in
  saturating_sub s.(recall_baseline_value) loss.

Definition apply_remote_valuation (s : State) (reported_value newly_realized_loss : AssetAmount)
  : result Rejection State :=
  let? cumulative_loss := amount_add s.(inbound_cumulative_loss) newly_realized_loss in
  if s.(close_requested) then Ok (s <| inbound_cumulative_loss := cumulative_loss |>) else
  let value :=
    if bool_decide (s.(active_cycle) = CycleRecall)
    then value_during_recall s cumulative_loss else reported_value in
  let s := set_accepted s value in
  Ok (s <| inbound_cumulative_loss := cumulative_loss |>).

Definition lock_remote_valuation (s : State) : result Rejection State :=
  if s.(close_requested) then Ok s else
  let? e := ok_or s.(epoch) EpochNotOpen in
  fail_if negb (bool_decide (e.(ep_phase) = CutOff)) with EpochNotCutOff;
  fail_if bool_decide (is_Some (s.(epoch_valuation_locked) !! e.(ep_id)))
    with ValuationAlreadyFixed;
  Ok (s <| epoch_valuation_locked ::= <[e.(ep_id) := managed_backing s]> |>).

Definition credit_remote (s : State) (credited : AssetAmount) : result Rejection State :=
  let? cap := amount_add s.(remote_principal_cap) credited in
  let s := s <| remote_principal_cap := cap |> in
  let? accepted := amount_add s.(buckets).(accepted_remote_value) credited in
  Ok (s <| buckets, accepted_remote_value := accepted |>).

(** Moves nothing: a timeout alone proves no loss. *)
Definition request_close (s : State) (actor : AccountId) (t : TransferId)
  : result Rejection State :=
  let? _ := require_admin s actor in
  fail_if negb (bool_decide (s.(active_cycle) = CycleAllocate))
          || negb (bool_decide (s.(active_transfer_id) = t)) with NoActiveTransfer;
  fail_if s.(close_requested) with CloseAlreadyRequested;
  Ok (s <| close_requested := true |>).

(** Only what arrived becomes principal; the shortfall leaves NAV. *)
Definition settle_close (s : State) (t : TransferId) (credited : AssetAmount)
  : result Rejection State :=
  fail_if negb (bool_decide (s.(active_transfer_id) = t)) with NoActiveTransfer;
  fail_if negb (bool_decide (s.(active_cycle) = CycleAllocate)) || negb s.(close_requested)
    with NoPendingSettlement;
  let claim := s.(active_amount) in
  fail_if claim <? credited with SettlementMismatch;
  let? shortfall := amount_sub claim credited in
  let? outbound := amount_sub s.(buckets).(outbound_in_transit) claim in
  let s := s <| buckets, outbound_in_transit := outbound |> in
  let? s := credit_remote s credited in
  let? impaired := amount_add s.(impaired_transport) shortfall in
  let s := s <| impaired_transport := impaired |> in
  let? cumulative := amount_add s.(cumulative_impairment) shortfall in
  let s := s <| cumulative_impairment := cumulative |> in
  Ok (clear_cycle s).

Definition begin_recover (s : State) (actor : AccountId) (t : TransferId)
  : result Rejection State :=
  let? _ := require_admin s actor in
  let? _ := require_no_cycle s in
  let? _ := require_fresh_transfer s t in
  fail_if is_zero s.(impaired_transport) with NothingToRecover;
  Ok (s <| used_transfer_ids ::= ({[t]} ∪.) |>
        <| active_cycle := CycleRecover |>
        <| active_transfer_id := t |>
        <| active_amount := 0 |>).

(** Recovered impairment returns to principal at par. *)
Definition settle_recover (s : State) (t : TransferId) (credited : AssetAmount)
  : result Rejection State :=
  fail_if negb (bool_decide (s.(active_transfer_id) = t)) with NoActiveTransfer;
  fail_if negb (bool_decide (s.(active_cycle) = CycleRecover)) with NoPendingSettlement;
  fail_if s.(impaired_transport) <? credited with SettlementMismatch;
  let? impaired := amount_sub s.(impaired_transport) credited in
  let s := s <| impaired_transport := impaired |> in
  let? s := credit_remote s credited in
  Ok (clear_cycle s).

(** * Dispatch *)

Definition apply (s : State) (op : Operation) : result Rejection State :=
  match op with
  | RequestDeposit a x => request_deposit s a x
  | CancelDeposit a => cancel_deposit s a
  | RequestRedeem a x => request_redeem s a x
  | CancelRedeem a => cancel_redeem s a
  | CutoffEpoch now => cutoff_epoch s now
  | FinalizeEpoch => finalize_epoch s
  | AbortEpoch actor => abort_epoch s actor
  | ClaimDeposit a e => claim_deposit s a e
  | ClaimRedeem a e => claim_redeem s a e
  | ClaimAbortedDeposit a e => claim_aborted_deposit s a e
  | ClaimAbortedRedeem a e => claim_aborted_redeem s a e
  | OpenNextEpoch now => open_next_epoch s now
  | Pause actor => pause s actor
  | Unpause actor => unpause s actor
  | Freeze actor => freeze s actor
  | BeginAllocate actor t x => begin_allocate s actor t x
  | CompleteAllocation t x => complete_allocation s t x
  | BeginRecall actor t x => begin_recall s actor t x
  | AcceptRecallSent t p a l => accept_recall_sent s t p a l
  | ObserveInbound x => observe_inbound s x
  | ApplyRemoteValuation v l => apply_remote_valuation s v l
  | LockRemoteValuation => lock_remote_valuation s
  | RequestClose actor t => request_close s actor t
  | SettleClose t x => settle_close s t x
  | BeginRecover actor t => begin_recover s actor t
  | SettleRecover t x => settle_recover s t x
  end.

(** A sequence of operations, stopping at the first rejection. *)
Definition run (s : State) (ops : list Operation) : result Rejection State :=
  try_fold apply s ops.
