(* ===== verification/AccountingInvariant.v ===== *)
(** The executable accounting rules of
    [crates/accounting-model/src/invariant.rs]: [check_invariants] and the
    checks it runs, in the order it runs them. *)

From Stdlib Require Import ZArith Lia.
From S2P Require Import Prelude AccountingMath AccountingState.

Inductive Violation : Set :=
| AssetConservation
| ShareConservation
| NavCompositionMismatch
| EscrowAggregateMismatch
| BurnedSharesMismatch
| ClaimReserveNotExplained
| ClaimableSharesNotExplained
| RequestLifecycleInvalid
| EpochAggregateMismatch
| EpochTermsInconsistent
| SettledEpochStillCurrent
| AbortedRefundMismatch
| DustOutOfBounds
| PriceDecreased
| ArithmeticFailure (r : Rejection).

#[global] Instance Violation_eq_dec : EqDecision Violation.
Proof. solve_decision. Defined.

(** [From<Rejection> for Violation], which [?] applies. *)
Definition lift {A} (r : result Rejection A) : result Violation A :=
  match r with Ok a => Ok a | Err e => Err (ArithmeticFailure e) end.

Definition check_asset_conservation (s : State) : result Violation unit :=
  let b := s.(buckets) in
  let? held := lift (total_account_assets s) in
  let? p := lift (amount_add b.(pending_deposit_escrow) b.(idle_backing)) in
  let? p := lift (amount_add p b.(claim_reserve)) in
  let? physical := lift (amount_add p b.(unattributed_balance)) in
  let? o := lift (amount_add b.(outbound_in_transit) b.(inbound_in_transit)) in
  let? o := lift (amount_add o s.(remote_principal_cap)) in
  let? o := lift (amount_add o s.(recognized_loss)) in
  let? off_evm := lift (amount_add o s.(impaired_transport)) in
  let? a := lift (amount_add held physical) in
  let? accounted := lift (amount_add a off_evm) in
  let? issued := lift (amount_add s.(initial_asset_supply) s.(external_inflow)) in
  require accounted =? issued or AssetConservation;
  Ok tt.

Definition check_nav_composition (s : State) : result Violation unit :=
  let? excluded := lift (excluded_from_nav s) in
  let? composed := lift (amount_add (managed_nav s) excluded) in
  let? total := lift (total_bucket_assets s) in
  require composed =? total or NavCompositionMismatch;
  Ok tt.

Definition check_share_conservation (s : State) : result Violation unit :=
  let? t := lift (total_account_shares s) in
  let? t := lift (amount_add t s.(escrowed_redeem_shares)) in
  let? accounted := lift (amount_add t s.(claimable_deposit_shares)) in
  require accounted =? s.(total_share_supply) or ShareConservation;
  Ok tt.

Definition check_burned_shares (s : State) : result Violation unit :=
  let? burned := lift (try_fold (fun burned kv =>
      match outcome_finalized kv.2 with
      | Some terms => amount_add burned terms.(et_redeem_shares)
      | None => Ok burned
      end) 0 (btree_iter Z.le s.(epochs))) in
  require burned =? s.(burned_redemption_shares) or BurnedSharesMismatch;
  Ok tt.

(** A cancelled request is empty, and no request holds two outcomes at once. *)
Definition check_request_lifecycle (s : State) : result Violation unit :=
  require forallb (fun kv => deposit_flags_agree kv.2) (btree_iter key_le s.(deposit_requests))
    or RequestLifecycleInvalid;
  require forallb (fun kv => redeem_flags_agree kv.2) (btree_iter key_le s.(redeem_requests))
    or RequestLifecycleInvalid;
  Ok tt.

Definition escrow_step (s : State) (acc : Z * Z) (kv : Z * EpochOutcome)
  : result Violation (Z * Z) :=
  let '(assets, shares) := acc in
  match outcome_aborted kv.2 with
  | None => Ok (assets, shares)
  | Some aborted =>
      let? totals := lift (request_totals s kv.1) in
      fail_if negb (totals.(tot_deposit_assets) =? aborted.(at_refund_assets))
              || negb (totals.(tot_redeem_shares) =? aborted.(at_refund_shares))
        with AbortedRefundMismatch;
      let? assets := lift (amount_add assets totals.(tot_unclaimed_deposit_assets)) in
      let? shares := lift (amount_add shares totals.(tot_unclaimed_redeem_shares)) in
      Ok (assets, shares)
  end.

(** Escrow holds the current epoch plus every refund an aborted epoch owes. *)
Definition check_escrow_backing (s : State) : result Violation unit :=
  let? start :=
    match s.(epoch) with
    | None => Ok (0, 0)
    | Some e =>
        fail_if bool_decide (is_Some (s.(epochs) !! e.(ep_id))) with SettledEpochStillCurrent;
        let? totals := lift (request_totals s e.(ep_id)) in
        fail_if negb (totals.(tot_deposit_assets) =? e.(ep_pending_deposit_assets))
                || negb (totals.(tot_redeem_shares) =? e.(ep_pending_redeem_shares))
          with EpochAggregateMismatch;
        Ok (totals.(tot_deposit_assets), totals.(tot_redeem_shares))
    end in
  let? '(assets, shares) := try_fold (escrow_step s) start (btree_iter Z.le s.(epochs)) in
  fail_if negb (assets =? s.(buckets).(pending_deposit_escrow))
          || negb (shares =? s.(escrowed_redeem_shares))
    with EscrowAggregateMismatch;
  Ok tt.

(** Dust is the aggregate minus the sum of the parts, at most one unit a claim. *)
Definition check_dust (aggregate parts recorded count : Z) : result Violation unit :=
  fail_if aggregate <? parts with DustOutOfBounds;
  let? measured := ok_or (checked_sub aggregate parts) DustOutOfBounds in
  fail_if negb (measured =? recorded) || (saturating_sub count 1 <? measured)
    with DustOutOfBounds;
  Ok tt.

Definition claim_step (s : State) (acc : Z * Z) (kv : Z * EpochOutcome)
  : result Violation (Z * Z) :=
  let '(owed_shares, owed_assets) := acc in
  match outcome_finalized kv.2 with
  | None => Ok (owed_shares, owed_assets)
  | Some terms =>
      let? owed := lift (entitlements s kv.1 terms) in
      let? totals := lift (request_totals s kv.1) in
      let? _ := check_dust terms.(et_minted_shares) owed.(ent_deposit_shares)
                  terms.(et_deposit_dust) totals.(tot_deposit_count) in
      let? _ := check_dust terms.(et_redeem_assets) owed.(ent_redeem_assets)
                  terms.(et_redeem_dust) totals.(tot_redeem_count) in
      let? x := lift (amount_add owed_shares owed.(ent_unclaimed_deposit_shares)) in
      let? x := lift (amount_add x terms.(et_deposit_dust)) in
      let? y := lift (amount_add owed_assets owed.(ent_unclaimed_redeem_assets)) in
      let? y := lift (amount_add y terms.(et_redeem_dust)) in
      Ok (x, y)
  end.

(** Every unit of reserve and claimable shares is either owed or measured dust. *)
Definition check_claim_backing (s : State) : result Violation unit :=
  let? '(owed_shares, owed_assets) :=
    try_fold (claim_step s) (0, 0) (btree_iter Z.le s.(epochs)) in
  fail_if negb (owed_shares =? s.(claimable_deposit_shares)) with ClaimableSharesNotExplained;
  fail_if negb (owed_assets =? s.(buckets).(claim_reserve)) with ClaimReserveNotExplained;
  Ok tt.

Definition terms_step (s : State) (_ : unit) (kv : Z * EpochOutcome) : result Violation unit :=
  match outcome_finalized kv.2 with
  | None => Ok tt
  | Some terms =>
      fail_if negb (kv.1 =? terms.(et_id)) with EpochTermsInconsistent;
      let? minted := lift (shares_for terms terms.(et_deposit_assets)) in
      fail_if negb (minted =? terms.(et_minted_shares)) with EpochTermsInconsistent;
      let? paid := lift (assets_for terms terms.(et_redeem_shares)) in
      fail_if negb (paid =? terms.(et_redeem_assets)) with EpochTermsInconsistent;
      fail_if terms.(et_total_assets) <? terms.(et_redeem_assets) with EpochTermsInconsistent;
      let? totals := lift (request_totals s kv.1) in
      fail_if negb (totals.(tot_deposit_assets) =? terms.(et_deposit_assets))
              || negb (totals.(tot_redeem_shares) =? terms.(et_redeem_shares))
        with EpochAggregateMismatch;
      Ok tt
  end.

Definition check_finalized_terms (s : State) : result Violation unit :=
  try_fold (terms_step s) tt (btree_iter Z.le s.(epochs)).

Definition price_step (earlier : option EpochTerms) (kv : Z * EpochOutcome)
  : result Violation (option EpochTerms) :=
  match outcome_finalized kv.2 with
  | None => Ok earlier
  | Some terms =>
      match earlier with
      | None => Ok (Some terms)
      | Some previous =>
          let? rising := lift (price_is_non_decreasing (terms_basis previous) (terms_basis terms)) in
          fail_if negb rising with PriceDecreased;
          Ok (Some terms)
      end
  end.

(** Settlement rounds in favour of the vault, so the price can only rise. *)
Definition check_price_never_falls (s : State) : result Violation unit :=
  if negb (is_zero s.(recognized_loss))
     || negb (is_zero s.(inbound_cumulative_loss))
     || negb (is_zero s.(cumulative_impairment))
  then Ok tt else
  let? _ := try_fold price_step None (btree_iter Z.le s.(epochs)) in
  Ok tt.

Definition check_invariants (s : State) : result Violation unit :=
  let? _ := check_asset_conservation s in
  let? _ := check_nav_composition s in
  let? _ := check_share_conservation s in
  let? _ := check_burned_shares s in
  let? _ := check_request_lifecycle s in
  let? _ := check_escrow_backing s in
  let? _ := check_claim_backing s in
  let? _ := check_finalized_terms s in
  let? _ := check_price_never_falls s in
  Ok tt.
