(* ===== verification/AccountingBook.v ===== *)
(** Request books: the deposit and redemption records seen through their
    amount and their two flags, and the per-epoch sums the settlement rules
    are about.  Both books of the accounting model are instances. *)

From Stdlib Require Import ZArith Lia.
From S2P Require Import Prelude AccountingMath AccountingState.

(** What a request record offers to the accounting rules. *)
Class Request (R : Type) := {
  amt : R -> Z;
  cancelled : R -> bool;
  claimed : R -> bool;
}.

#[export] Instance deposit_Request : Request DepositRequest :=
  {| amt := dr_assets; cancelled := dr_cancelled; claimed := dr_claimed |}.

#[export] Instance redeem_Request : Request RedeemRequest :=
  {| amt := rr_shares; cancelled := rr_cancelled; claimed := rr_claimed |}.

(** The sum of [g] over the requests of one epoch. *)
Definition epoch_sum {R} (m : gmap RequestKey R) (e : Z) (g : R -> Z) : Z :=
  msum (fun k r => if decide (rk_epoch k = e) then g r else 0) m.

(** [g] of a request that is still owed its outcome. *)
Definition unclaimed {R} `{Request R} (g : R -> Z) (r : R) : Z :=
  if claimed r then 0 else g r.

(** One unit for each request that carries an amount. *)
Definition counts {R} `{Request R} (r : R) : Z := if amt r =? 0 then 0 else 1.

Definition is_current (cur : option Epoch) (e : Z) : Prop :=
  match cur with Some ep => ep.(ep_id) = e | None => False end.

(** Every record of a book is well formed: a cancelled request is exactly an
    empty one, only a settled epoch holds claimed requests, and a request
    belongs to a settled epoch or to the current one. *)
Definition book_ok {R} `{Request R} (outcomes : gmap Z EpochOutcome) (cur : option Epoch)
  (m : gmap RequestKey R) : Prop :=
  forall k r, m !! k = Some r ->
    is_u64 (rk_account k) /\ is_u128 (amt r) /\
    cancelled r = (amt r =? 0) /\
    (claimed r = true -> amt r <> 0 /\ is_Some (outcomes !! rk_epoch k)) /\
    (is_Some (outcomes !! rk_epoch k) \/ is_current cur (rk_epoch k)).

Section sums.
Context {R : Type}.
Implicit Types (m : gmap RequestKey R) (g h : R -> Z).

Lemma epoch_sum_empty e g : epoch_sum ∅ e g = 0.
Proof. apply msum_empty. Qed.

Lemma epoch_sum_insert m k r e g :
  epoch_sum (<[k:=r]> m) e g =
  epoch_sum m e g
  + (if decide (rk_epoch k = e)
     then g r - match m !! k with Some r0 => g r0 | None => 0 end else 0).
Proof.
  unfold epoch_sum. rewrite msum_insert.
  case_decide; destruct (m !! k); lia.
Qed.

Lemma epoch_sum_ext m e g h :
  (forall k r, m !! k = Some r -> rk_epoch k = e -> g r = h r) ->
  epoch_sum m e g = epoch_sum m e h.
Proof. intros Hgh. apply msum_ext. intros k r Hk. case_decide; eauto. Qed.

Lemma epoch_sum_nonneg m e g :
  (forall k r, m !! k = Some r -> rk_epoch k = e -> 0 <= g r) -> 0 <= epoch_sum m e g.
Proof. intros Hg. apply msum_nonneg. intros k r Hk. case_decide; eauto with lia. Qed.

Lemma epoch_sum_le m e g h :
  (forall k r, m !! k = Some r -> rk_epoch k = e -> g r <= h r) ->
  epoch_sum m e g <= epoch_sum m e h.
Proof. intros Hg. apply msum_le. intros k r Hk. case_decide; eauto with lia. Qed.

Lemma epoch_sum_lookup_le m k r g :
  (forall k r, m !! k = Some r -> 0 <= g r) -> m !! k = Some r ->
  g r <= epoch_sum m (rk_epoch k) g.
Proof.
  intros Hg Hk.
  pose proof (msum_lookup_le
    (fun k' r' => if decide (rk_epoch k' = rk_epoch k) then g r' else 0) m k r) as Hle.
  simpl in Hle. rewrite decide_True in Hle by done. apply Hle; [|done].
  intros k' r' Hk'. case_decide; eauto with lia.
Qed.

Lemma epoch_sum_none m e g :
  (forall k r, m !! k = Some r -> rk_epoch k <> e) -> epoch_sum m e g = 0.
Proof. intros Hm. apply msum_zero. intros k r Hk. case_decide; naive_solver. Qed.
End sums.

Section books.
Context {R : Type} `{Request R}.
Implicit Types (m : gmap RequestKey R) (g : R -> Z).

Lemma book_ok_empty outcomes cur : book_ok outcomes cur (∅ : gmap RequestKey R).
Proof. intros k r Hk. by rewrite lookup_empty in Hk. Qed.

Lemma book_ok_insert outcomes cur m k r :
  book_ok outcomes cur m ->
  is_u64 (rk_account k) -> is_u128 (amt r) -> cancelled r = (amt r =? 0) ->
  (claimed r = true -> amt r <> 0 /\ is_Some (outcomes !! rk_epoch k)) ->
  (is_Some (outcomes !! rk_epoch k) \/ is_current cur (rk_epoch k)) ->
  book_ok outcomes cur (<[k:=r]> m).
Proof.
  intros Hm ????? k' r' [[<- <-]|[? Hk']]%lookup_insert_Some; [done|by apply Hm].
Qed.

(** Settling the current epoch keeps the book well formed. *)
Lemma book_ok_settle outcomes ep o m :
  book_ok outcomes (Some ep) m -> book_ok (<[ep.(ep_id) := o]> outcomes) None m.
Proof.
  intros Hm k r Hk. destruct (Hm k r Hk) as (?&?&?&Hc&Hin). split_and!; try done.
  - intros Hcl. destruct (Hc Hcl) as [? ?]. split; [done|].
    apply lookup_insert_is_Some'. by right.
  - left. apply lookup_insert_is_Some'. destruct Hin as [?|Hcur]; [by right|by left].
Qed.

Lemma book_ok_current outcomes cur cur' m :
  book_ok outcomes cur m ->
  (forall e, is_current cur e -> is_current cur' e) -> book_ok outcomes cur' m.
Proof. intros Hm Hcur k r Hk. destruct (Hm k r Hk) as (?&?&?&?&[?|?]); split_and!; eauto. Qed.

Lemma book_ok_amt outcomes cur m k r :
  book_ok outcomes cur m -> m !! k = Some r -> is_u128 (amt r).
Proof. intros Hm Hk. by destruct (Hm k r Hk) as (?&?&?). Qed.

Lemma book_ok_amt_nonneg outcomes cur m k r :
  book_ok outcomes cur m -> m !! k = Some r -> 0 <= amt r.
Proof. intros Hm Hk. pose proof (book_ok_amt _ _ _ _ _ Hm Hk). unfold fits in *. lia. Qed.

(** No request of an unsettled epoch has been claimed. *)
Lemma unclaimed_unsettled outcomes cur m e g :
  book_ok outcomes cur m -> outcomes !! e = None ->
  epoch_sum m e (unclaimed g) = epoch_sum m e g.
Proof.
  intros Hm He. apply epoch_sum_ext. intros k r Hk <-. unfold unclaimed.
  destruct (claimed r) eqn:Hc; [|done].
  destruct (Hm k r Hk) as (?&?&?&Hcl&?). destruct (Hcl Hc) as [? [? ?]]. naive_solver.
Qed.

(** An epoch that is neither settled nor current has no requests. *)
Lemma epoch_sum_fresh outcomes cur m e g :
  book_ok outcomes cur m -> outcomes !! e = None -> ~ is_current cur e ->
  epoch_sum m e g = 0.
Proof.
  intros Hm He Hcur. apply epoch_sum_none. intros k r Hk <-.
  destruct (Hm k r Hk) as (?&?&?&?&[[? ?]|?]); naive_solver.
Qed.

Lemma unclaimed_le g r : 0 <= g r -> 0 <= unclaimed g r <= g r.
Proof. unfold unclaimed. destruct (claimed r); lia. Qed.
End books.

(** * Sums over settled epochs *)

(** What the settled epochs together owe, where [f] prices one of them. *)
Definition settled_sum (outcomes : gmap Z EpochOutcome) (f : Z -> EpochOutcome -> Z) : Z :=
  msum f outcomes.

Lemma settled_sum_change outcomes f f' e δ :
  (forall id o, outcomes !! id = Some o -> id <> e -> f' id o = f id o) ->
  (forall o, outcomes !! e = Some o -> f' e o = f e o + δ) ->
  is_Some (outcomes !! e) ->
  settled_sum outcomes f' = settled_sum outcomes f + δ.
Proof.
  intros Hne He [o Ho]. unfold settled_sum.
  rewrite (msum_delete f' _ e o), (msum_delete f _ e o), (He o) by done.
  rewrite (msum_ext f' f); [lia|].
  intros id o' [? ?]%lookup_delete_Some. by apply Hne.
Qed.

Lemma settled_sum_insert outcomes f e o :
  outcomes !! e = None -> settled_sum (<[e := o]> outcomes) f = f e o + settled_sum outcomes f.
Proof. apply msum_insert_None. Qed.
