(* ===== verification/AccountingSafety.v ===== *)
(** The accounting invariant as mathematics, and its preservation by every
    transition of [transition.rs].  [Inv] states over unbounded integers what
    [check_invariants] tests with checked arithmetic, together with the facts
    the tests rely on (which epochs can hold requests, what each remote cycle
    keeps in transit). *)

From Stdlib Require Import ZArith Lia.
From S2P Require Import Prelude AccountingMath AccountingState AccountingTransition.
From S2P Require Import AccountingBook.

(** * Figures *)

Definition deposit_entitlement (t : EpochTerms) (r : DepositRequest) : Z :=
  r.(dr_assets) * share_units (terms_basis t) / asset_units (terms_basis t).

Definition redeem_entitlement (t : EpochTerms) (r : RedeemRequest) : Z :=
  r.(rr_shares) * asset_units (terms_basis t) / share_units (terms_basis t).

(** Refunds of one settled epoch that are still owed. *)
Definition refund_owed {R} `{Request R} (m : gmap RequestKey R) (id : Z) (o : EpochOutcome) : Z :=
  match o with Aborted _ => epoch_sum m id (unclaimed amt) | Finalized _ => 0 end.

(** Claims of one settled epoch that are still owed, and its dust. *)
Definition deposit_owed (m : gmap RequestKey DepositRequest) (id : Z) (o : EpochOutcome) : Z :=
  match o with
  | Finalized t => epoch_sum m id (unclaimed (deposit_entitlement t)) + t.(et_deposit_dust)
  | Aborted _ => 0
  end.

Definition redeem_owed (m : gmap RequestKey RedeemRequest) (id : Z) (o : EpochOutcome) : Z :=
  match o with
  | Finalized t => epoch_sum m id (unclaimed (redeem_entitlement t)) + t.(et_redeem_dust)
  | Aborted _ => 0
  end.

Definition current_deposits (cur : option Epoch) : Z :=
  match cur with Some e => e.(ep_pending_deposit_assets) | None => 0 end.

Definition current_redeems (cur : option Epoch) : Z :=
  match cur with Some e => e.(ep_pending_redeem_shares) | None => 0 end.

Definition burned_by (_ : Z) (o : EpochOutcome) : Z :=
  match o with Finalized t => t.(et_redeem_shares) | Aborted _ => 0 end.

(** Everything issued: the genesis supply and what arrived from outside. *)
Definition issued (s : State) : Z := s.(initial_asset_supply) + s.(external_inflow).

(** * The invariant *)

Record TypeInv (s : State) : Prop := {
  ti_accounts : forall id a, s.(accounts) !! id = Some a -> 0 <= a.(acc_assets) /\ 0 <= a.(acc_shares);
  ti_escrow : 0 <= s.(buckets).(pending_deposit_escrow);
  ti_idle : 0 <= s.(buckets).(idle_backing);
  ti_reserve : 0 <= s.(buckets).(claim_reserve);
  ti_unattributed : 0 <= s.(buckets).(unattributed_balance);
  ti_unattributed_inbound : 0 <= s.(buckets).(unattributed_inbound);
  ti_accepted : 0 <= s.(buckets).(accepted_remote_value);
  ti_inbound : 0 <= s.(buckets).(inbound_in_transit);
  ti_initial : 0 <= s.(initial_asset_supply);
  ti_external : 0 <= s.(external_inflow);
  ti_recognized : 0 <= s.(recognized_loss);
  ti_impaired : 0 <= s.(impaired_transport);
  ti_loss : 0 <= s.(inbound_cumulative_loss);
  ti_baseline_loss : 0 <= s.(recall_baseline_loss);
  ti_supply : 0 <= s.(total_share_supply) <= u128_max;
  ti_escrowed : 0 <= s.(escrowed_redeem_shares);
  ti_claimable : 0 <= s.(claimable_deposit_shares);
  ti_burned : 0 <= s.(burned_redemption_shares) <= u128_max;
  ti_locked : forall id v, s.(epoch_valuation_locked) !! id = Some v -> 0 <= v;
}.

(** Every unit issued is in one account, one bucket, remote, lost or impaired. *)
Definition AssetInv (s : State) : Prop :=
  msum (fun _ a => acc_assets a) s.(accounts)
  + s.(buckets).(pending_deposit_escrow) + s.(buckets).(idle_backing)
  + s.(buckets).(claim_reserve) + s.(buckets).(unattributed_balance)
  + s.(buckets).(outbound_in_transit) + s.(buckets).(inbound_in_transit)
  + s.(remote_principal_cap) + s.(recognized_loss) + s.(impaired_transport)
  = issued s.

Definition ShareInv (s : State) : Prop :=
  msum (fun _ a => acc_shares a) s.(accounts)
  + s.(escrowed_redeem_shares) + s.(claimable_deposit_shares)
  = s.(total_share_supply).

Definition BurnInv (s : State) : Prop :=
  settled_sum s.(epochs) burned_by = s.(burned_redemption_shares).

Record BookInv (s : State) : Prop := {
  bi_deposits : book_ok s.(epochs) s.(epoch) s.(deposit_requests);
  bi_redeems : book_ok s.(epochs) s.(epoch) s.(redeem_requests);
  bi_ids : forall id, is_Some (s.(epochs) !! id) ->
    id < match s.(epoch) with Some e => e.(ep_id) | None => s.(next_epoch_id) end;
}.

Record EpochInv (c : Config) (D : gmap RequestKey DepositRequest)
  (R : gmap RequestKey RedeemRequest) (e : Epoch) : Prop := {
  ei_virtual_assets : e.(ep_virtual_assets) = 1;
  ei_virtual_shares :
    virtual_shares_for c.(cfg_asset_decimals) c.(cfg_share_decimals)
    = Ok e.(ep_virtual_shares);
  ei_deposits : e.(ep_pending_deposit_assets) = epoch_sum D e.(ep_id) amt;
  ei_redeems : e.(ep_pending_redeem_shares) = epoch_sum R e.(ep_id) amt;
  ei_deposits_u128 : e.(ep_pending_deposit_assets) <= u128_max;
  ei_redeems_u128 : e.(ep_pending_redeem_shares) <= u128_max;
}.

Record TermsInv (c : Config) (D : gmap RequestKey DepositRequest)
  (R : gmap RequestKey RedeemRequest) (id : Z) (t : EpochTerms) : Prop := {
  te_id : t.(et_id) = id;
  te_basis : basis_ok (terms_basis t);
  te_virtual_assets : t.(et_virtual_assets) = 1;
  te_virtual_shares :
    virtual_shares_for c.(cfg_asset_decimals) c.(cfg_share_decimals)
    = Ok t.(et_virtual_shares);
  te_deposits : t.(et_deposit_assets) = epoch_sum D id amt;
  te_redeems : t.(et_redeem_shares) = epoch_sum R id amt;
  te_deposit_u128 : is_u128 t.(et_deposit_assets);
  te_redeem_supply : 0 <= t.(et_redeem_shares) <= t.(et_total_supply);
  te_minted :
    t.(et_minted_shares) =
      t.(et_deposit_assets) * share_units (terms_basis t) / asset_units (terms_basis t);
  te_minted_u128 : t.(et_minted_shares) <= u128_max;
  te_paid :
    t.(et_redeem_assets) =
      t.(et_redeem_shares) * asset_units (terms_basis t) / share_units (terms_basis t);
  te_deposit_dust :
    t.(et_deposit_dust) =
      t.(et_minted_shares) - epoch_sum D id (deposit_entitlement t);
  te_redeem_dust :
    t.(et_redeem_dust) =
      t.(et_redeem_assets) - epoch_sum R id (redeem_entitlement t);
}.

Record AbortedInv (D : gmap RequestKey DepositRequest)
  (R : gmap RequestKey RedeemRequest) (id : Z) (t : AbortedTerms) : Prop := {
  ai_assets : t.(at_refund_assets) = epoch_sum D id amt;
  ai_shares : t.(at_refund_shares) = epoch_sum R id amt;
  ai_assets_u128 : t.(at_refund_assets) <= u128_max;
  ai_shares_u128 : t.(at_refund_shares) <= u128_max;
}.

Record SettleInv (s : State) : Prop := {
  si_epoch : forall e, s.(epoch) = Some e -> EpochInv s.(config) s.(deposit_requests) s.(redeem_requests) e;
  si_terms : forall id t, s.(epochs) !! id = Some (Finalized t) -> TermsInv s.(config) s.(deposit_requests) s.(redeem_requests) id t;
  si_aborted : forall id t, s.(epochs) !! id = Some (Aborted t) -> AbortedInv s.(deposit_requests) s.(redeem_requests) id t;
  si_escrow : s.(buckets).(pending_deposit_escrow) =
    current_deposits s.(epoch) + settled_sum s.(epochs) (refund_owed s.(deposit_requests));
  si_escrowed : s.(escrowed_redeem_shares) =
    current_redeems s.(epoch) + settled_sum s.(epochs) (refund_owed s.(redeem_requests));
  si_claimable : s.(claimable_deposit_shares) =
    settled_sum s.(epochs) (deposit_owed s.(deposit_requests));
  si_reserve : s.(buckets).(claim_reserve) =
    settled_sum s.(epochs) (redeem_owed s.(redeem_requests));
}.

(** What each remote cycle keeps in transit, and what identifies it. *)
Record RemoteInv (s : State) : Prop := {
  ri_accepted : s.(buckets).(accepted_remote_value) <= s.(remote_principal_cap);
  ri_amount : 0 <= s.(active_amount);
  ri_outbound : s.(buckets).(outbound_in_transit) =
    if decide (s.(active_cycle) = CycleAllocate) then s.(active_amount) else 0;
  ri_recall : s.(pending_recall_principal) =
    if decide (s.(active_cycle) = CycleRecall) then s.(active_amount) else 0;
  ri_recall_id : s.(pending_recall_id) =
    if decide (s.(active_cycle) = CycleRecall) then s.(active_transfer_id) else transfer_zero;
  ri_recall_cap : s.(active_cycle) = CycleRecall -> s.(active_amount) <= s.(remote_principal_cap);
  ri_baseline : 0 <= s.(recall_baseline_value) <= s.(remote_principal_cap);
  ri_idle_cycle : s.(active_cycle) = CycleNone ->
    s.(active_transfer_id) = transfer_zero /\ s.(active_amount) = 0;
  ri_close : s.(close_requested) = true -> s.(active_cycle) = CycleAllocate;
  ri_used : s.(active_cycle) <> CycleNone -> s.(active_transfer_id) ∈ s.(used_transfer_ids);
  ri_zero : transfer_zero ∉ s.(used_transfer_ids);
  ri_positive : s.(active_cycle) = CycleAllocate \/ s.(active_cycle) = CycleRecall ->
    0 < s.(active_amount);
  ri_impaired : s.(impaired_transport) <= s.(cumulative_impairment);
}.

Record Inv (s : State) : Prop := {
  inv_type : TypeInv s;
  inv_asset : AssetInv s;
  inv_share : ShareInv s;
  inv_burn : BurnInv s;
  inv_book : BookInv s;
  inv_settle : SettleInv s;
  inv_remote : RemoteInv s;
}.

(** * Tactics *)

(** Inverts a transition that returned [Ok]. *)
Ltac invert_amounts :=
  repeat first
    [ progress invert_step
    | match goal with
      | H : amount_add _ _ = Ok _ |- _ => apply amount_add_Ok in H as [-> H]
      | H : amount_sub _ _ = Ok _ |- _ => apply amount_sub_Ok in H as [-> H]
      end ];
  unfold is_zero in *; bool_to_prop.

(** Closes an invariant a transition does not touch. *)
Ltac frame H := destruct H; constructor; cbn in *; assumption || eauto.

Lemma require_active_Ok s u : require_active s = Ok u -> s.(vault_state) = Active.
Proof. unfold require_active. by destruct (vault_state s). Qed.

Lemma require_open_epoch_Ok s e :
  require_open_epoch s = Ok e -> s.(epoch) = Some e /\ e.(ep_phase) = Open.
Proof. unfold require_open_epoch. intros H. by repeat invert_step. Qed.

Lemma epoch_mut_Ok s f s' :
  epoch_mut s f = Ok s' -> exists e, s.(epoch) = Some e /\ s' = s <| epoch := Some (f e) |>.
Proof. unfold epoch_mut. intros H. repeat invert_step. eauto. Qed.

(** ** Accounts *)

Lemma account_nonneg s id :
  TypeInv s -> 0 <= (account s id).(acc_assets) /\ 0 <= (account s id).(acc_shares).
Proof.
  intros Ht. unfold account. destruct (accounts s !! id) eqn:E; simpl; [|lia].
  by eapply ti_accounts.
Qed.

(** Writing one account changes each sum by the change of that account. *)
Lemma msum_accounts (g : Account -> Z) s id a :
  g account_default = 0 ->
  msum (fun _ x => g x) (<[id := a]> s.(accounts)) =
  msum (fun _ x => g x) s.(accounts) + (g a - g (account s id)).
Proof.
  intros Hg. rewrite msum_insert. unfold account. destruct (accounts s !! id); simpl; lia.
Qed.

Lemma accounts_insert_nonneg s id a :
  TypeInv s -> 0 <= a.(acc_assets) /\ 0 <= a.(acc_shares) ->
  forall id' a', <[id := a]> s.(accounts) !! id' = Some a' ->
    0 <= a'.(acc_assets) /\ 0 <= a'.(acc_shares).
Proof.
  intros Ht Ha id' a' [[<- <-]|[? ?]]%lookup_insert_Some; [done|by eapply ti_accounts].
Qed.

Lemma accounts_assets_le s id :
  TypeInv s -> (account s id).(acc_assets) <= msum (fun _ a => acc_assets a) s.(accounts).
Proof.
  intros Ht. assert (forall k v, accounts s !! k = Some v -> 0 <= acc_assets v) as Hn
    by (intros k v Hk; by apply (ti_accounts _ Ht) in Hk as [? ?]).
  unfold account. destruct (accounts s !! id) eqn:E; simpl.
  - by apply (msum_lookup_le (fun _ a => acc_assets a) _ id).
  - by apply (msum_nonneg (fun _ a => acc_assets a)).
Qed.

Lemma accounts_shares_le s id :
  TypeInv s -> (account s id).(acc_shares) <= msum (fun _ a => acc_shares a) s.(accounts).
Proof.
  intros Ht. assert (forall k v, accounts s !! k = Some v -> 0 <= acc_shares v) as Hn
    by (intros k v Hk; by apply (ti_accounts _ Ht) in Hk as [? ?]).
  unfold account. destruct (accounts s !! id) eqn:E; simpl.
  - by apply (msum_lookup_le (fun _ a => acc_shares a) _ id).
  - by apply (msum_nonneg (fun _ a => acc_shares a)).
Qed.

(** ** Writing one request *)

Lemma alter_insert_Some {K V} `{Countable K} (f : V -> V) (m : gmap K V) k v :
  m !! k = Some v -> alter f k m = <[k := f v]> m.
Proof.
  intros Hk. apply map_eq. intros j. rewrite lookup_alter, lookup_insert.
  case_decide; subst; [by rewrite Hk|done].
Qed.

Section write.
Context {R : Type} `{Request R}.
Implicit Types (m : gmap RequestKey R) (g : R -> Z).

(** A figure [g] of the request at [k] is unchanged by writing [r]. *)
Definition same_figure m k r g : Prop := exists r0, m !! k = Some r0 /\ g r0 = g r.

Lemma epoch_sum_write m k r e g :
  rk_epoch k <> e \/ same_figure m k r g ->
  epoch_sum (<[k:=r]> m) e g = epoch_sum m e g.
Proof.
  intros Hw. rewrite epoch_sum_insert. case_decide; [|lia].
  destruct Hw as [?|(r0 & -> & ->)]; [done|lia].
Qed.

Lemma refund_owed_write outcomes m k r :
  outcomes !! rk_epoch k = None ->
  settled_sum outcomes (refund_owed (<[k:=r]> m)) = settled_sum outcomes (refund_owed m).
Proof.
  intros Hk. apply msum_ext. intros id o Ho. destruct o; simpl; [done|].
  apply epoch_sum_write. left. congruence.
Qed.

(** Marking one request claimed takes its amount out of the refunds owed. *)
Lemma refund_owed_claim outcomes m k r r' o :
  outcomes !! rk_epoch k = Some o -> m !! k = Some r ->
  claimed r = false -> claimed r' = true ->
  settled_sum outcomes (refund_owed (<[k:=r']> m)) =
  settled_sum outcomes (refund_owed m)
  + match o with Aborted _ => - amt r | Finalized _ => 0 end.
Proof.
  intros Ho Hk Hr Hr'. apply settled_sum_change with (e := rk_epoch k); [| |eauto].
  - intros id [] _ Hne; simpl; [done|]. apply epoch_sum_write. auto.
  - intros o' Ho'. simplify_eq. destruct o; simpl; [lia|].
    rewrite epoch_sum_insert, decide_True, Hk by done.
    unfold unclaimed. rewrite Hr, Hr'. lia.
Qed.
End write.

Lemma deposit_owed_write outcomes m k r :
  outcomes !! rk_epoch k = None ->
  settled_sum outcomes (deposit_owed (<[k:=r]> m)) = settled_sum outcomes (deposit_owed m).
Proof.
  intros Hk. apply msum_ext. intros id o Ho. destruct o; simpl; [|done].
  rewrite epoch_sum_write; [done|]. left. congruence.
Qed.

Lemma redeem_owed_write outcomes m k r :
  outcomes !! rk_epoch k = None ->
  settled_sum outcomes (redeem_owed (<[k:=r]> m)) = settled_sum outcomes (redeem_owed m).
Proof.
  intros Hk. apply msum_ext. intros id o Ho. destruct o; simpl; [|done].
  rewrite epoch_sum_write; [done|]. left. congruence.
Qed.

(** Marking one request claimed takes its entitlement out of the claims owed. *)
Lemma deposit_owed_claim outcomes m k r r' o :
  outcomes !! rk_epoch k = Some o -> m !! k = Some r ->
  dr_claimed r = false -> dr_claimed r' = true ->
  settled_sum outcomes (deposit_owed (<[k:=r']> m)) =
  settled_sum outcomes (deposit_owed m)
  + match o with Finalized t => - deposit_entitlement t r | Aborted _ => 0 end.
Proof.
  intros Ho Hk Hr Hr'. apply settled_sum_change with (e := rk_epoch k); [| |eauto].
  - intros id [] _ Hne; simpl; [|done]. rewrite epoch_sum_write; auto.
  - intros o' Ho'. simplify_eq. destruct o; simpl; [|lia].
    rewrite epoch_sum_insert, decide_True, Hk by done.
    unfold unclaimed; simpl. rewrite Hr, Hr'. lia.
Qed.

Lemma redeem_owed_claim outcomes m k r r' o :
  outcomes !! rk_epoch k = Some o -> m !! k = Some r ->
  rr_claimed r = false -> rr_claimed r' = true ->
  settled_sum outcomes (redeem_owed (<[k:=r']> m)) =
  settled_sum outcomes (redeem_owed m)
  + match o with Finalized t => - redeem_entitlement t r | Aborted _ => 0 end.
Proof.
  intros Ho Hk Hr Hr'. apply settled_sum_change with (e := rk_epoch k); [| |eauto].
  - intros id [] _ Hne; simpl; [|done]. rewrite epoch_sum_write; auto.
  - intros o' Ho'. simplify_eq. destruct o; simpl; [|lia].
    rewrite epoch_sum_insert, decide_True, Hk by done.
    unfold unclaimed; simpl. rewrite Hr, Hr'. lia.
Qed.

Lemma same_deposit_entitlement m k r t :
  same_figure m k r dr_assets -> same_figure m k r (deposit_entitlement t).
Proof. intros (r0 & ? & Heq). exists r0. split; [done|]. unfold deposit_entitlement. by rewrite Heq. Qed.

Lemma same_redeem_entitlement m k r t :
  same_figure m k r rr_shares -> same_figure m k r (redeem_entitlement t).
Proof. intros (r0 & ? & Heq). exists r0. split; [done|]. unfold redeem_entitlement. by rewrite Heq. Qed.

Lemma TermsInv_deposit_write c D R id t k r :
  rk_epoch k <> id \/ same_figure D k r dr_assets ->
  TermsInv c D R id t -> TermsInv c (<[k:=r]> D) R id t.
Proof.
  intros Hw []. constructor; try done.
  - by rewrite epoch_sum_write.
  - rewrite epoch_sum_write; [done|]. destruct Hw; auto using same_deposit_entitlement.
Qed.

Lemma TermsInv_redeem_write c D R id t k r :
  rk_epoch k <> id \/ same_figure R k r rr_shares ->
  TermsInv c D R id t -> TermsInv c D (<[k:=r]> R) id t.
Proof.
  intros Hw []. constructor; try done.
  - by rewrite epoch_sum_write.
  - rewrite epoch_sum_write; [done|]. destruct Hw; auto using same_redeem_entitlement.
Qed.

Lemma AbortedInv_deposit_write D R id t k r :
  rk_epoch k <> id \/ same_figure D k r dr_assets ->
  AbortedInv D R id t -> AbortedInv (<[k:=r]> D) R id t.
Proof. intros Hw []. constructor; by rewrite ?epoch_sum_write. Qed.

Lemma AbortedInv_redeem_write D R id t k r :
  rk_epoch k <> id \/ same_figure R k r rr_shares ->
  AbortedInv D R id t -> AbortedInv D (<[k:=r]> R) id t.
Proof. intros Hw []. constructor; by rewrite ?epoch_sum_write. Qed.

(** The current epoch is never a settled one. *)
Lemma current_unsettled s e : BookInv s -> s.(epoch) = Some e -> s.(epochs) !! e.(ep_id) = None.
Proof.
  intros Hb He. apply eq_None_not_Some. intros Hs.
  pose proof (bi_ids _ Hb _ Hs) as Hlt. rewrite He in Hlt. lia.
Qed.
