(* ===== verification/AccountingFigures.v ===== *)
(** The loops of [state.rs] compute the sums of [AccountingBook]:
    [request_totals] and [entitlements] return exactly the per-epoch sums
    over the request books, and return whenever those sums fit. *)

From Stdlib Require Import ZArith Lia.
From S2P Require Import Prelude AccountingMath AccountingState AccountingBook.
From S2P Require Import AccountingSafety.

(** The records of one epoch, in key order. *)
Definition epoch_records {R} (m : gmap RequestKey R) (e : Z) : list (RequestKey * R) :=
  filter (fun kv => in_epoch_range e kv.1) (btree_iter key_le m).

Definition figure {R} (g : R -> Z) (kv : RequestKey * R) : Z := g kv.2.

Lemma lsum_figure_cons {R} (g : R -> Z) k r l :
  lsum (figure g) ((k, r) :: l) = g r + lsum (figure g) l.
Proof. exact (lsum_cons (figure g) (k, r) l). Qed.

Section records.
Context {R : Type} `{Request R}.
Implicit Types (m : gmap RequestKey R) (g : R -> Z).

Lemma elem_of_epoch_records outcomes cur m e k r :
  book_ok outcomes cur m -> (k, r) ∈ epoch_records m e -> m !! k = Some r /\ rk_epoch k = e.
Proof.
  intros Hb [Hin Hk]%list_elem_of_filter. apply elem_of_btree_iter in Hk. split; [done|].
  apply in_epoch_range_iff in Hin; [done|]. by destruct (Hb _ _ Hk).
Qed.

Lemma lsum_epoch_records outcomes cur m e g :
  book_ok outcomes cur m -> lsum (figure g) (epoch_records m e) = epoch_sum m e g.
Proof.
  intros Hb. unfold epoch_records. rewrite lsum_filter. unfold epoch_sum.
  rewrite <-(lsum_btree_iter key_le). apply lsum_ext. intros [k r] Hk. simpl.
  apply elem_of_btree_iter in Hk. destruct (Hb _ _ Hk) as [Ha _].
  pose proof (in_epoch_range_iff e k Ha). unfold figure; simpl.
  do 2 case_decide; tauto.
Qed.

(** The well-formed records a loop over one epoch meets. *)
Definition records_ok (l : list (RequestKey * R)) : Prop :=
  forall k r, (k, r) ∈ l -> is_u128 (amt r) /\ cancelled r = (amt r =? 0).

Lemma records_ok_epoch outcomes cur m e :
  book_ok outcomes cur m -> records_ok (epoch_records m e).
Proof.
  intros Hb k r Hin. apply (elem_of_epoch_records _ _ _ _ _ _ Hb) in Hin as [Hk _].
  by destruct (Hb _ _ Hk) as (?&?&?&_).
Qed.

Lemma records_ok_cons k r l :
  records_ok ((k, r) :: l) ->
  is_u128 (amt r) /\ cancelled r = (amt r =? 0) /\ records_ok l.
Proof.
  intros Hl. destruct (Hl k r) as [? ?]; [set_solver|].
  split_and!; [done|done|]. intros k' r' ?. apply (Hl k'). set_solver.
Qed.
End records.

(** * [request_totals] *)

(** The totals after a loop over deposit records [l] that started from [t]. *)
Definition totals_after_deposits (t : RequestTotals) l : RequestTotals :=
  t <| tot_deposit_assets := t.(tot_deposit_assets) + lsum (figure dr_assets) l |>
    <| tot_unclaimed_deposit_assets :=
         t.(tot_unclaimed_deposit_assets) + lsum (figure (unclaimed dr_assets)) l |>
    <| tot_deposit_count := t.(tot_deposit_count) + lsum (figure counts) l |>.

Definition totals_after_redeems (t : RequestTotals) l : RequestTotals :=
  t <| tot_redeem_shares := t.(tot_redeem_shares) + lsum (figure rr_shares) l |>
    <| tot_unclaimed_redeem_shares :=
         t.(tot_unclaimed_redeem_shares) + lsum (figure (unclaimed rr_shares)) l |>
    <| tot_redeem_count := t.(tot_redeem_count) + lsum (figure counts) l |>.

Lemma RequestTotals_eq (t u : RequestTotals) :
  tot_deposit_assets t = tot_deposit_assets u -> tot_redeem_shares t = tot_redeem_shares u ->
  tot_unclaimed_deposit_assets t = tot_unclaimed_deposit_assets u ->
  tot_unclaimed_redeem_shares t = tot_unclaimed_redeem_shares u ->
  tot_deposit_count t = tot_deposit_count u -> tot_redeem_count t = tot_redeem_count u -> t = u.
Proof. destruct t, u; cbn; intros; by subst. Qed.

(** A record's contribution to the three figures of its loop. *)
Lemma counts_le {R} `{Request R} (r : R) : is_u128 (amt r) -> 0 <= counts r <= amt r.
Proof. unfold counts, fits. intros. destruct (Z.eqb_spec (amt r) 0); lia. Qed.

Lemma lsum_figure_le {R} `{Request R} (l : list (RequestKey * R)) :
  records_ok l ->
  0 <= lsum (figure (unclaimed amt)) l <= lsum (figure amt) l /\
  0 <= lsum (figure counts) l <= lsum (figure amt) l.
Proof.
  intros Hl. assert (forall kv, kv ∈ l -> is_u128 (amt kv.2)) as Ha
    by (intros [k r] Hin; by destruct (Hl k r Hin)).
  split; split; (apply lsum_nonneg || apply lsum_le); intros kv Hin; specialize (Ha kv Hin);
    unfold figure; pose proof (counts_le kv.2 Ha); unfold fits in Ha;
    pose proof (unclaimed_le amt kv.2); lia.
Qed.

Lemma count_deposits_ok l t :
  records_ok l ->
  t.(tot_deposit_assets) + lsum (figure dr_assets) l <= u128_max ->
  t.(tot_unclaimed_deposit_assets) <= t.(tot_deposit_assets) ->
  t.(tot_deposit_count) <= t.(tot_deposit_assets) ->
  try_fold count_deposit t l = Ok (totals_after_deposits t l).
Proof.
  revert t. induction l as [|[k r] l IH]; intros t Hl Hmax Hu Hc.
  { cbn. f_equal. apply RequestTotals_eq; cbn; rewrite ?lsum_nil; lia. }
  apply records_ok_cons in Hl as ([H0 H1] & Hcan & Hl).
  destruct (lsum_figure_le l Hl) as [? ?]. rewrite lsum_figure_cons in Hmax. cbn [try_fold]. unfold count_deposit at 1. cbn in *.
  unfold deposit_is_active, is_zero. rewrite Hcan.
  destruct (Z.eqb_spec (dr_assets r) 0) as [Hz|Hz]; cbn.
  - rewrite IH by (done || lia). f_equal. apply RequestTotals_eq; cbn; rewrite ?lsum_figure_cons;
      abstract_sums; unfold unclaimed, counts; cbn; rewrite ?Hz; destruct (dr_claimed r); cbn; lia.
  - rewrite amount_add_ok by lia. cbn. unfold saturating_add. rewrite Z.min_r by lia.
    destruct (dr_claimed r) eqn:Hcl; [|rewrite amount_add_ok by lia]; cbn;
      (rewrite IH by (done || (cbn; lia)); f_equal; apply RequestTotals_eq; cbn;
       rewrite ?lsum_figure_cons; abstract_sums; unfold unclaimed, counts; cbn; rewrite ?Hcl;
       destruct (Z.eqb_spec (dr_assets r) 0); lia).
Qed.

Lemma count_redeems_ok l t :
  records_ok l ->
  t.(tot_redeem_shares) + lsum (figure rr_shares) l <= u128_max ->
  t.(tot_unclaimed_redeem_shares) <= t.(tot_redeem_shares) ->
  t.(tot_redeem_count) <= t.(tot_redeem_shares) ->
  try_fold count_redeem t l = Ok (totals_after_redeems t l).
Proof.
  revert t. induction l as [|[k r] l IH]; intros t Hl Hmax Hu Hc.
  { cbn. f_equal. apply RequestTotals_eq; cbn; rewrite ?lsum_nil; lia. }
  apply records_ok_cons in Hl as ([H0 H1] & Hcan & Hl).
  destruct (lsum_figure_le l Hl) as [? ?]. rewrite lsum_figure_cons in Hmax. cbn [try_fold]. unfold count_redeem at 1. cbn in *.
  unfold redeem_is_active, is_zero. rewrite Hcan.
  destruct (Z.eqb_spec (rr_shares r) 0) as [Hz|Hz]; cbn.
  - rewrite IH by (done || lia). f_equal. apply RequestTotals_eq; cbn; rewrite ?lsum_figure_cons;
      abstract_sums; unfold unclaimed, counts; cbn; rewrite ?Hz; destruct (rr_claimed r); cbn; lia.
  - rewrite amount_add_ok by lia. cbn. unfold saturating_add. rewrite Z.min_r by lia.
    destruct (rr_claimed r) eqn:Hcl; [|rewrite amount_add_ok by lia]; cbn;
      (rewrite IH by (done || (cbn; lia)); f_equal; apply RequestTotals_eq; cbn;
       rewrite ?lsum_figure_cons; abstract_sums; unfold unclaimed, counts; cbn; rewrite ?Hcl;
       destruct (Z.eqb_spec (rr_shares r) 0); lia).
Qed.

(** The totals of one epoch. *)
Definition epoch_totals (s : State) (e : Z) : RequestTotals := {|
  tot_deposit_assets := epoch_sum s.(deposit_requests) e dr_assets;
  tot_redeem_shares := epoch_sum s.(redeem_requests) e rr_shares;
  tot_unclaimed_deposit_assets := epoch_sum s.(deposit_requests) e (unclaimed dr_assets);
  tot_unclaimed_redeem_shares := epoch_sum s.(redeem_requests) e (unclaimed rr_shares);
  tot_deposit_count := epoch_sum s.(deposit_requests) e counts;
  tot_redeem_count := epoch_sum s.(redeem_requests) e counts;
|}.

(** [request_totals] returns the sums of the two books whenever they fit. *)
Lemma request_totals_ok s e :
  BookInv s ->
  epoch_sum s.(deposit_requests) e dr_assets <= u128_max ->
  epoch_sum s.(redeem_requests) e rr_shares <= u128_max ->
  request_totals s e = Ok (epoch_totals s e).
Proof.
  intros [HD HR _] HmD HmR. unfold request_totals.
  change (deposit_range s e) with (epoch_records s.(deposit_requests) e).
  change (redeem_range s e) with (epoch_records s.(redeem_requests) e).
  rewrite count_deposits_ok; cbn; try lia;
    [|by eapply records_ok_epoch|by erewrite (lsum_epoch_records _ _ _ _ dr_assets)].
  rewrite count_redeems_ok; cbn; try lia;
    [|by eapply records_ok_epoch|by erewrite (lsum_epoch_records _ _ _ _ rr_shares)].
  f_equal. apply RequestTotals_eq; cbn;
    by erewrite ?(lsum_epoch_records _ _ s.(deposit_requests)),
                ?(lsum_epoch_records _ _ s.(redeem_requests)).
Qed.

(** * [entitlements] *)

Definition entitled_after_deposits (t : EpochTerms) (o : Entitlements) l : Entitlements :=
  o <| ent_deposit_shares := o.(ent_deposit_shares) + lsum (figure (deposit_entitlement t)) l |>
    <| ent_unclaimed_deposit_shares := o.(ent_unclaimed_deposit_shares)
         + lsum (figure (unclaimed (deposit_entitlement t))) l |>.

Definition entitled_after_redeems (t : EpochTerms) (o : Entitlements) l : Entitlements :=
  o <| ent_redeem_assets := o.(ent_redeem_assets) + lsum (figure (redeem_entitlement t)) l |>
    <| ent_unclaimed_redeem_assets := o.(ent_unclaimed_redeem_assets)
         + lsum (figure (unclaimed (redeem_entitlement t))) l |>.

Lemma Entitlements_eq (o p : Entitlements) :
  ent_deposit_shares o = ent_deposit_shares p ->
  ent_unclaimed_deposit_shares o = ent_unclaimed_deposit_shares p ->
  ent_redeem_assets o = ent_redeem_assets p ->
  ent_unclaimed_redeem_assets o = ent_unclaimed_redeem_assets p -> o = p.
Proof. destruct o, p; cbn; intros; by subst. Qed.

Lemma deposit_entitlement_nonneg t r :
  basis_ok (terms_basis t) -> 0 <= dr_assets r -> 0 <= deposit_entitlement t r.
Proof.
  intros (?&?&?&?&?&?) ?. unfold deposit_entitlement, share_units, asset_units in *.
  apply Z.div_pos; nia.
Qed.

Lemma redeem_entitlement_nonneg t r :
  basis_ok (terms_basis t) -> 0 <= rr_shares r -> 0 <= redeem_entitlement t r.
Proof.
  intros (?&?&?&?&?&?) ?. unfold redeem_entitlement, share_units, asset_units in *.
  apply Z.div_pos; nia.
Qed.

Lemma lsum_deposit_entitlement_nonneg t l :
  basis_ok (terms_basis t) -> records_ok l -> 0 <= lsum (figure (deposit_entitlement t)) l.
Proof.
  intros Hb Hl. apply lsum_nonneg. intros [k r] Hin. destruct (Hl k r Hin) as [[? _] _].
  by apply deposit_entitlement_nonneg.
Qed.

Lemma lsum_redeem_entitlement_nonneg t l :
  basis_ok (terms_basis t) -> records_ok l -> 0 <= lsum (figure (redeem_entitlement t)) l.
Proof.
  intros Hb Hl. apply lsum_nonneg. intros [k r] Hin. destruct (Hl k r Hin) as [[? _] _].
  by apply redeem_entitlement_nonneg.
Qed.

Lemma price_deposits_ok t l o :
  basis_ok (terms_basis t) -> records_ok l ->
  0 <= o.(ent_unclaimed_deposit_shares) <= o.(ent_deposit_shares) ->
  o.(ent_deposit_shares) + lsum (figure (deposit_entitlement t)) l <= u128_max ->
  try_fold (price_deposit t) o l = Ok (entitled_after_deposits t o l).
Proof.
  intros Hbasis. revert o. induction l as [|[k r] l IH]; intros o Hl Hu Hmax.
  { cbn. f_equal. apply Entitlements_eq; cbn; rewrite ?lsum_nil; lia. }
  apply records_ok_cons in Hl as ([H0 H1] & Hcan & Hl).
  pose proof (lsum_deposit_entitlement_nonneg t l Hbasis Hl).
  pose proof (deposit_entitlement_nonneg t r Hbasis H0).
  rewrite lsum_figure_cons in Hmax. cbn [try_fold]. unfold price_deposit at 1. cbn in *.
  unfold deposit_is_active, is_zero. rewrite Hcan.
  destruct (Z.eqb_spec (dr_assets r) 0) as [Hz|Hz]; cbn.
  - rewrite IH by (done || lia). f_equal.
    assert (deposit_entitlement t r = 0) by (unfold deposit_entitlement; by rewrite Hz).
    apply Entitlements_eq; cbn; rewrite ?lsum_figure_cons; abstract_sums; unfold unclaimed; cbn;
      destruct (dr_claimed r); lia.
  - unfold shares_for. rewrite assets_to_shares_ok;
      [|done|done|fold (deposit_entitlement t r); lia].
    fold (deposit_entitlement t r). cbn. rewrite amount_add_ok by lia.
    destruct (dr_claimed r) eqn:Hcl; [|cbn; rewrite amount_add_ok by lia]; cbn;
      (rewrite IH by (done || (cbn; lia)); f_equal; apply Entitlements_eq; cbn;
       rewrite ?lsum_figure_cons; abstract_sums; unfold unclaimed; cbn; rewrite ?Hcl; lia).
Qed.

Lemma price_redeems_ok t l o :
  basis_ok (terms_basis t) -> records_ok l ->
  0 <= o.(ent_unclaimed_redeem_assets) <= o.(ent_redeem_assets) ->
  o.(ent_redeem_assets) + lsum (figure (redeem_entitlement t)) l <= u128_max ->
  try_fold (price_redeem t) o l = Ok (entitled_after_redeems t o l).
Proof.
  intros Hbasis. revert o. induction l as [|[k r] l IH]; intros o Hl Hu Hmax.
  { cbn. f_equal. apply Entitlements_eq; cbn; rewrite ?lsum_nil; lia. }
  apply records_ok_cons in Hl as ([H0 H1] & Hcan & Hl).
  pose proof (lsum_redeem_entitlement_nonneg t l Hbasis Hl).
  pose proof (redeem_entitlement_nonneg t r Hbasis H0).
  rewrite lsum_figure_cons in Hmax. cbn [try_fold]. unfold price_redeem at 1. cbn in *.
  unfold redeem_is_active, is_zero. rewrite Hcan.
  destruct (Z.eqb_spec (rr_shares r) 0) as [Hz|Hz]; cbn.
  - rewrite IH by (done || lia). f_equal.
    assert (redeem_entitlement t r = 0) by (unfold redeem_entitlement; by rewrite Hz).
    apply Entitlements_eq; cbn; rewrite ?lsum_figure_cons; abstract_sums; unfold unclaimed; cbn;
      destruct (rr_claimed r); lia.
  - unfold assets_for. rewrite shares_to_assets_ok;
      [|done|done|fold (redeem_entitlement t r); lia].
    fold (redeem_entitlement t r). cbn. rewrite amount_add_ok by lia.
    destruct (rr_claimed r) eqn:Hcl; [|cbn; rewrite amount_add_ok by lia]; cbn;
      (rewrite IH by (done || (cbn; lia)); f_equal; apply Entitlements_eq; cbn;
       rewrite ?lsum_figure_cons; abstract_sums; unfold unclaimed; cbn; rewrite ?Hcl; lia).
Qed.

(** The entitlements of one epoch under the terms [t]. *)
Definition epoch_entitlements (s : State) (e : Z) (t : EpochTerms) : Entitlements := {|
  ent_deposit_shares := epoch_sum s.(deposit_requests) e (deposit_entitlement t);
  ent_unclaimed_deposit_shares :=
    epoch_sum s.(deposit_requests) e (unclaimed (deposit_entitlement t));
  ent_redeem_assets := epoch_sum s.(redeem_requests) e (redeem_entitlement t);
  ent_unclaimed_redeem_assets :=
    epoch_sum s.(redeem_requests) e (unclaimed (redeem_entitlement t));
|}.

(** [entitlements] prices both books exactly, whenever the sums fit. *)
Lemma entitlements_ok s e t :
  BookInv s -> basis_ok (terms_basis t) ->
  epoch_sum s.(deposit_requests) e (deposit_entitlement t) <= u128_max ->
  epoch_sum s.(redeem_requests) e (redeem_entitlement t) <= u128_max ->
  entitlements s e t = Ok (epoch_entitlements s e t).
Proof.
  intros [HD HR _] Hb HmD HmR. unfold entitlements.
  change (deposit_range s e) with (epoch_records s.(deposit_requests) e).
  change (redeem_range s e) with (epoch_records s.(redeem_requests) e).
  rewrite price_deposits_ok; cbn; try lia; try done;
    [|by eapply records_ok_epoch|by erewrite (lsum_epoch_records _ _ s.(deposit_requests))].
  rewrite price_redeems_ok; cbn; try lia; try done;
    [|by eapply records_ok_epoch|by erewrite (lsum_epoch_records _ _ s.(redeem_requests))].
  f_equal. apply Entitlements_eq; cbn;
    by erewrite ?(lsum_epoch_records _ _ s.(deposit_requests)),
                ?(lsum_epoch_records _ _ s.(redeem_requests)).
Qed.

(** * Dust *)

(** Pricing each request of an epoch and rounding down loses, against pricing
    the aggregate, less than one unit per request that carries an amount. *)
Lemma epoch_floor_bounds {R} `{Request R} outcomes cur (m : gmap RequestKey R) e p d :
  book_ok outcomes cur m -> 0 < d -> 0 <= p ->
  let parts := epoch_sum m e (fun r => amt r * p / d) in
  parts <= epoch_sum m e amt * p / d
  <= parts + Z.max 0 (epoch_sum m e counts - 1).
Proof.
  intros Hb Hd Hp parts. unfold parts.
  rewrite <-!(lsum_epoch_records outcomes cur m) by done.
  set (l := epoch_records m e).
  assert (forall g : R -> Z, (forall r, amt r = 0 -> g r = 0) ->
    lsum (figure g) (filter (fun kv => amt kv.2 <> 0) l) = lsum (figure g) l) as Hact.
  { intros g Hg. rewrite lsum_filter. apply lsum_ext. intros [k r] _. unfold figure; simpl.
    case_decide as Hz; [done|]. symmetry. apply Hg. lia. }
  rewrite <-(Hact amt), <-(Hact counts), <-(Hact (fun r => amt r * p / d)).
  - split; [apply (lsum_div_le (figure amt)); done|].
    replace (lsum (figure counts) (filter (fun kv => amt kv.2 <> 0) l))
      with (Z.of_nat (length (filter (fun kv => amt kv.2 <> 0) l))).
    + by apply (lsum_div_ge (figure amt)).
    + clear -H. induction l as [|[k r] l' IH]; [done|]. rewrite filter_cons.
      case_decide as Hz; [|exact IH]. cbn [length]. rewrite lsum_figure_cons, <-IH.
      unfold counts. simpl in Hz. destruct (Z.eqb_spec (amt r) 0); lia.
  - intros r ->. by rewrite Z.div_0_l by lia.
  - intros r Hr. unfold counts. by rewrite Hr.
  - done.
Qed.

Lemma deposit_parts_bounds outcomes cur D e t :
  book_ok outcomes cur D -> basis_ok (terms_basis t) ->
  let parts := epoch_sum D e (deposit_entitlement t) in
  parts <= epoch_sum D e amt * share_units (terms_basis t) / asset_units (terms_basis t)
  <= parts + Z.max 0 (epoch_sum D e counts - 1).
Proof.
  intros Hb (?&?&?&?&_).
  exact (epoch_floor_bounds outcomes cur D e (share_units (terms_basis t)) (asset_units (terms_basis t)) Hb
    ltac:(unfold asset_units; lia) ltac:(unfold share_units; lia)).
Qed.

Lemma redeem_parts_bounds outcomes cur R e t :
  book_ok outcomes cur R -> basis_ok (terms_basis t) ->
  let parts := epoch_sum R e (redeem_entitlement t) in
  parts <= epoch_sum R e amt * asset_units (terms_basis t) / share_units (terms_basis t)
  <= parts + Z.max 0 (epoch_sum R e counts - 1).
Proof.
  intros Hb (?&?&?&?&_).
  exact (epoch_floor_bounds outcomes cur R e (asset_units (terms_basis t)) (share_units (terms_basis t)) Hb
    ltac:(unfold share_units; lia) ltac:(unfold asset_units; lia)).
Qed.
