(* ===== verification/AccountingPreserve.v ===== *)
(** Every transition of the accounting model preserves [Inv]: one lemma per
    handler of [transition.rs], then [apply] and [state_new]. *)

From Stdlib Require Import ZArith Lia.
From S2P Require Import Prelude AccountingMath AccountingState AccountingTransition.
From S2P Require Import AccountingBook AccountingSafety AccountingFigures.

(** * Settlement figures under a request write *)

(** The change of an amount when [r] is written at [k]. *)
Definition amount_change {R} `{Request R} (m : gmap RequestKey R) k r : Z :=
  amt r - match m !! k with Some r0 => amt r0 | None => 0 end.

Lemma SettleInv_deposit_current s s' e k r δ :
  SettleInv s -> BookInv s -> s.(epoch) = Some e -> rk_epoch k = e.(ep_id) ->
  amount_change s.(deposit_requests) k r = δ ->
  e.(ep_pending_deposit_assets) + δ <= u128_max ->
  s'.(config) = s.(config) -> s'.(epochs) = s.(epochs) ->
  s'.(deposit_requests) = <[k:=r]> s.(deposit_requests) ->
  s'.(redeem_requests) = s.(redeem_requests) ->
  s'.(epoch) = Some (e <| ep_pending_deposit_assets := e.(ep_pending_deposit_assets) + δ |>) ->
  s'.(buckets).(pending_deposit_escrow) = s.(buckets).(pending_deposit_escrow) + δ ->
  s'.(buckets).(claim_reserve) = s.(buckets).(claim_reserve) ->
  s'.(escrowed_redeem_shares) = s.(escrowed_redeem_shares) ->
  s'.(claimable_deposit_shares) = s.(claimable_deposit_shares) ->
  SettleInv s'.
Proof.
  intros [HSe HSt HSa HSesc HSed HScl HSres] Hb He Hk <- Hmax Hc Ho HD HR Hep Hesc Hres Hed Hcl.
  pose proof (current_unsettled _ _ Hb He) as Hnone. rewrite <-Hk in Hnone.
  constructor; rewrite ?Hc, ?Ho, ?HD, ?HR, ?Hep, ?Hesc, ?Hres, ?Hed, ?Hcl.
  - intros e' [= <-]. destruct (HSe e He). constructor; cbn; try done.
    rewrite epoch_sum_insert, decide_True by done. unfold amount_change. cbn in *. lia.
  - intros id t Ht. apply TermsInv_deposit_write; [left; congruence|auto].
  - intros id t Ht. apply AbortedInv_deposit_write; [left; congruence|auto].
  - rewrite refund_owed_write by done. rewrite HSesc, He. cbn. lia.
  - rewrite HSed, He. done.
  - by rewrite deposit_owed_write.
  - done.
Qed.

Lemma SettleInv_redeem_current s s' e k r δ :
  SettleInv s -> BookInv s -> s.(epoch) = Some e -> rk_epoch k = e.(ep_id) ->
  amount_change s.(redeem_requests) k r = δ ->
  e.(ep_pending_redeem_shares) + δ <= u128_max ->
  s'.(config) = s.(config) -> s'.(epochs) = s.(epochs) ->
  s'.(deposit_requests) = s.(deposit_requests) ->
  s'.(redeem_requests) = <[k:=r]> s.(redeem_requests) ->
  s'.(epoch) = Some (e <| ep_pending_redeem_shares := e.(ep_pending_redeem_shares) + δ |>) ->
  s'.(buckets).(pending_deposit_escrow) = s.(buckets).(pending_deposit_escrow) ->
  s'.(buckets).(claim_reserve) = s.(buckets).(claim_reserve) ->
  s'.(escrowed_redeem_shares) = s.(escrowed_redeem_shares) + δ ->
  s'.(claimable_deposit_shares) = s.(claimable_deposit_shares) ->
  SettleInv s'.
Proof.
  intros [HSe HSt HSa HSesc HSed HScl HSres] Hb He Hk <- Hmax Hc Ho HD HR Hep Hesc Hres Hed Hcl.
  pose proof (current_unsettled _ _ Hb He) as Hnone. rewrite <-Hk in Hnone.
  constructor; rewrite ?Hc, ?Ho, ?HD, ?HR, ?Hep, ?Hesc, ?Hres, ?Hed, ?Hcl.
  - intros e' [= <-]. destruct (HSe e He). constructor; cbn; try done.
    rewrite epoch_sum_insert, decide_True by done. unfold amount_change. cbn in *. lia.
  - intros id t Ht. apply TermsInv_redeem_write; [left; congruence|auto].
  - intros id t Ht. apply AbortedInv_redeem_write; [left; congruence|auto].
  - rewrite HSesc, He. done.
  - rewrite refund_owed_write by done. rewrite HSed, He. cbn. lia.
  - done.
  - by rewrite redeem_owed_write.
Qed.

Lemma SettleInv_deposit_claim s s' k r r' o :
  SettleInv s -> BookInv s ->
  s.(epochs) !! rk_epoch k = Some o -> s.(deposit_requests) !! k = Some r ->
  dr_claimed r = false -> dr_claimed r' = true -> dr_assets r' = dr_assets r ->
  s'.(config) = s.(config) -> s'.(epochs) = s.(epochs) -> s'.(epoch) = s.(epoch) ->
  s'.(deposit_requests) = <[k:=r']> s.(deposit_requests) ->
  s'.(redeem_requests) = s.(redeem_requests) ->
  s'.(buckets).(pending_deposit_escrow) = s.(buckets).(pending_deposit_escrow)
    + match o with Aborted _ => - dr_assets r | Finalized _ => 0 end ->
  s'.(buckets).(claim_reserve) = s.(buckets).(claim_reserve) ->
  s'.(escrowed_redeem_shares) = s.(escrowed_redeem_shares) ->
  s'.(claimable_deposit_shares) = s.(claimable_deposit_shares)
    + match o with Finalized t => - deposit_entitlement t r | Aborted _ => 0 end ->
  SettleInv s'.
Proof.
  intros [HSe HSt HSa HSesc HSed HScl HSres] Hb Hset Hk Hr Hr' Hamt Hc Ho Hep HD HR Hesc Hres Hed Hcl.
  assert (same_figure s.(deposit_requests) k r' dr_assets) as Hsame by (exists r; eauto).
  constructor; rewrite ?Hc, ?Ho, ?HD, ?HR, ?Hep, ?Hesc, ?Hres, ?Hed, ?Hcl; try done.
  - intros e He. destruct (HSe e He). constructor; try done.
    rewrite epoch_sum_write; auto.
  - intros id t Ht. apply TermsInv_deposit_write; auto.
  - intros id t Ht. apply AbortedInv_deposit_write; auto.
  - rewrite (refund_owed_claim _ _ k r r' o) by done. rewrite HSesc. simpl. lia.
  - rewrite (deposit_owed_claim _ _ k r r' o) by done. by rewrite HScl.
Qed.

Lemma SettleInv_redeem_claim s s' k r r' o :
  SettleInv s -> BookInv s ->
  s.(epochs) !! rk_epoch k = Some o -> s.(redeem_requests) !! k = Some r ->
  rr_claimed r = false -> rr_claimed r' = true -> rr_shares r' = rr_shares r ->
  s'.(config) = s.(config) -> s'.(epochs) = s.(epochs) -> s'.(epoch) = s.(epoch) ->
  s'.(deposit_requests) = s.(deposit_requests) ->
  s'.(redeem_requests) = <[k:=r']> s.(redeem_requests) ->
  s'.(buckets).(pending_deposit_escrow) = s.(buckets).(pending_deposit_escrow) ->
  s'.(buckets).(claim_reserve) = s.(buckets).(claim_reserve)
    + match o with Finalized t => - redeem_entitlement t r | Aborted _ => 0 end ->
  s'.(escrowed_redeem_shares) = s.(escrowed_redeem_shares)
    + match o with Aborted _ => - rr_shares r | Finalized _ => 0 end ->
  s'.(claimable_deposit_shares) = s.(claimable_deposit_shares) ->
  SettleInv s'.
Proof.
  intros [HSe HSt HSa HSesc HSed HScl HSres] Hb Hset Hk Hr Hr' Hamt Hc Ho Hep HD HR Hesc Hres Hed Hcl.
  assert (same_figure s.(redeem_requests) k r' rr_shares) as Hsame by (exists r; eauto).
  constructor; rewrite ?Hc, ?Ho, ?HD, ?HR, ?Hep, ?Hesc, ?Hres, ?Hed, ?Hcl; try done.
  - intros e He. destruct (HSe e He). constructor; try done.
    rewrite epoch_sum_write; auto.
  - intros id t Ht. apply TermsInv_redeem_write; auto.
  - intros id t Ht. apply AbortedInv_redeem_write; auto.
  - rewrite (refund_owed_claim _ _ k r r' o) by done. rewrite HSed. simpl. lia.
  - rewrite (redeem_owed_claim _ _ k r r' o) by done. by rewrite HSres.
Qed.

(** * The books under a request write *)

(** A record that may stand at [k]. *)
Definition entry_ok {R} `{Request R} (s : State) (k : RequestKey) (r : R) : Prop :=
  is_u64 (rk_account k) /\ is_u128 (amt r) /\ cancelled r = (amt r =? 0) /\
  (claimed r = true -> amt r <> 0 /\ is_Some (s.(epochs) !! rk_epoch k)) /\
  (is_Some (s.(epochs) !! rk_epoch k) \/ is_current s.(epoch) (rk_epoch k)).

Lemma same_epoch_current (cur cur' : option Epoch) e :
  ep_id <$> cur' = ep_id <$> cur -> is_current cur e -> is_current cur' e.
Proof. destruct cur, cur'; cbn; intros ? ?; simplify_eq; congruence. Qed.

Lemma BookInv_ids s s' :
  BookInv s -> s'.(epochs) = s.(epochs) -> s'.(next_epoch_id) = s.(next_epoch_id) ->
  ep_id <$> s'.(epoch) = ep_id <$> s.(epoch) ->
  forall id, is_Some (s'.(epochs) !! id) ->
    id < match s'.(epoch) with Some e => e.(ep_id) | None => s'.(next_epoch_id) end.
Proof.
  intros Hb -> -> Hep id Hid. pose proof (bi_ids _ Hb id Hid).
  destruct (epoch s), (epoch s'); simplify_eq/=; congruence.
Qed.

Lemma BookInv_deposit_write s s' k r :
  BookInv s -> s'.(epochs) = s.(epochs) -> s'.(next_epoch_id) = s.(next_epoch_id) ->
  ep_id <$> s'.(epoch) = ep_id <$> s.(epoch) ->
  s'.(deposit_requests) = <[k:=r]> s.(deposit_requests) ->
  s'.(redeem_requests) = s.(redeem_requests) -> entry_ok s k r -> BookInv s'.
Proof.
  intros Hb Ho Hn Hep HD HR (?&?&?&?&Hin).
  constructor; rewrite ?HD, ?HR, ?Ho.
  - apply book_ok_insert; try done.
    + eapply book_ok_current; [apply Hb|]. eauto using same_epoch_current.
    + destruct Hin; eauto using same_epoch_current.
  - eapply book_ok_current; [apply Hb|]. eauto using same_epoch_current.
  - rewrite <-Ho. by apply (BookInv_ids s s').
Qed.

Lemma BookInv_redeem_write s s' k r :
  BookInv s -> s'.(epochs) = s.(epochs) -> s'.(next_epoch_id) = s.(next_epoch_id) ->
  ep_id <$> s'.(epoch) = ep_id <$> s.(epoch) ->
  s'.(deposit_requests) = s.(deposit_requests) ->
  s'.(redeem_requests) = <[k:=r]> s.(redeem_requests) -> entry_ok s k r -> BookInv s'.
Proof.
  intros Hb Ho Hn Hep HD HR (?&?&?&?&Hin).
  constructor; rewrite ?HD, ?HR, ?Ho.
  - eapply book_ok_current; [apply Hb|]. eauto using same_epoch_current.
  - apply book_ok_insert; try done.
    + eapply book_ok_current; [apply Hb|]. eauto using same_epoch_current.
    + destruct Hin; eauto using same_epoch_current.
  - rewrite <-Ho. by apply (BookInv_ids s s').
Qed.

(** Claiming a request keeps its record well formed. *)
Lemma entry_ok_claim {R} `{Request R} s (m : gmap RequestKey R) k r r' o :
  book_ok s.(epochs) s.(epoch) m -> m !! k = Some r -> s.(epochs) !! rk_epoch k = Some o ->
  amt r <> 0 -> amt r' = amt r -> cancelled r' = cancelled r -> entry_ok s k r'.
Proof.
  intros Hb Hk Ho Hnz Ha Hc. destruct (Hb k r Hk) as (?&?&?&?&?).
  unfold entry_ok. rewrite Ha, Hc, Ho. split_and!; eauto.
Qed.

(** * Requests *)

(** Splits [Inv] of a written state into its parts, framing the untouched ones. *)
Ltac split_inv HI :=
  destruct HI as [Ht Ha Hs Hbn Hb Hset Hr];
  constructor;
  [ try solve [frame Ht]
  | try solve [exact Ha]
  | try solve [exact Hs]
  | try solve [exact Hbn]
  | try solve [frame Hb]
  | try solve [frame Hset]
  | try solve [frame Hr] ].

(** Reads an account through writes to other fields. *)
Ltac fold_account s :=
  repeat match goal with
  | |- context [account ?s' ?a] =>
      assert_fails (constr_eq s' s); change (account s' a) with (account s a)
  end.

(** Widths after writing the account [a]. *)
Ltac type_after_account s a Ht :=
  pose proof (account_nonneg s a Ht); destruct Ht; constructor; cbn in *; try done; try lia;
  fold_account s; apply accounts_insert_nonneg; [by constructor|cbn; lia].

(** Conservation after writing the account [a]. *)
Ltac conserve s :=
  unfold AssetInv, ShareInv, issued in *; cbn in *; fold_account s;
  rewrite ?(msum_accounts acc_assets), ?(msum_accounts acc_shares) by done; cbn; lia.

Ltac same_epoch Hep Hep' := rewrite Hep in Hep'; injection Hep' as ->.

Lemma request_deposit_inv s a x s' :
  Inv s -> is_u64 a -> is_u128 x -> request_deposit s a x = Ok s' -> Inv s'.
Proof.
  intros HI Ha64 Hx H. unfold request_deposit in H. cbv zeta in H. invert_amounts.
  apply require_open_epoch_Ok in E0 as [Hep Hph].
  apply epoch_mut_Ok in E7 as (e' & Hep' & ->). cbn in *. same_epoch Hep Hep'.
  unfold fits in Hx. split_inv HI.
  - type_after_account s a Ht.
  - conserve s.
  - conserve s.
  - eapply (BookInv_deposit_write s _ (mkRequestKey (ep_id e') a)); try done; cbn; [by rewrite Hep|].
    assert (is_u128 (dr_assets (default deposit_default
      (deposit_requests s !! mkRequestKey (ep_id e') a)))) as Hold.
    { destruct (deposit_requests s !! _) eqn:Hk; [|done].
      exact (book_ok_amt _ _ _ _ _ (bi_deposits _ Hb) Hk). }
    unfold entry_ok, fits in *; cbn. split_and!; try lia.
    + destruct (deposit_requests s !! _); cbn; [|done]. by rewrite E3.
    + right. by rewrite Hep.
  - eapply (SettleInv_deposit_current s _ e' (mkRequestKey (ep_id e') a) _ x); try done.
    unfold amount_change; cbn. destruct (deposit_requests s !! _); cbn; lia.
Qed.

Lemma cancel_deposit_inv s a s' :
  Inv s -> is_u64 a -> cancel_deposit s a = Ok s' -> Inv s'.
Proof.
  intros HI Ha64 H. unfold cancel_deposit in H. cbv zeta in H. invert_amounts.
  rename a1 into e, a2 into r.
  apply epoch_mut_Ok in E9 as (e' & Hep' & ->). cbn in *. same_epoch E0 Hep'.
  pose proof (book_ok_amt_nonneg _ _ _ _ _ (bi_deposits _ (inv_book _ HI)) E2). split_inv HI.
  - type_after_account s a Ht.
  - conserve s.
  - conserve s.
  - eapply (BookInv_deposit_write s _ (mkRequestKey (ep_id e') a)); try done; cbn;
      [by rewrite E0|by apply alter_insert_Some|].
    unfold entry_ok, fits in *; cbn. rewrite E3. split_and!; try done; try lia. right. by rewrite E0.
  - eapply (SettleInv_deposit_current s _ e' (mkRequestKey (ep_id e') a) _ (- dr_assets r)); try done;
      [| |by apply alter_insert_Some]; [unfold amount_change; cbn; rewrite E2; lia|].
    pose proof (ei_deposits_u128 _ _ _ _ (si_epoch _ Hset _ E0)). cbn in *. lia.
Qed.

Lemma request_redeem_inv s a x s' :
  Inv s -> is_u64 a -> is_u128 x -> request_redeem s a x = Ok s' -> Inv s'.
Proof.
  intros HI Ha64 Hx H. unfold request_redeem in H. cbv zeta in H. invert_amounts.
  apply require_open_epoch_Ok in E0 as [Hep Hph].
  apply epoch_mut_Ok in E7 as (e' & Hep' & ->). cbn in *. same_epoch Hep Hep'.
  unfold fits in Hx. split_inv HI.
  - type_after_account s a Ht.
  - conserve s.
  - conserve s.
  - eapply (BookInv_redeem_write s _ (mkRequestKey (ep_id e') a)); try done; cbn; [by rewrite Hep|].
    assert (is_u128 (rr_shares (default redeem_default
      (redeem_requests s !! mkRequestKey (ep_id e') a)))) as Hold.
    { destruct (redeem_requests s !! _) eqn:Hk; [|done].
      exact (book_ok_amt _ _ _ _ _ (bi_redeems _ Hb) Hk). }
    unfold entry_ok, fits in *; cbn. split_and!; try lia.
    + destruct (redeem_requests s !! _); cbn; [|done]. by rewrite E3.
    + right. by rewrite Hep.
  - eapply (SettleInv_redeem_current s _ e' (mkRequestKey (ep_id e') a) _ x); try done.
    unfold amount_change; cbn. destruct (redeem_requests s !! _); cbn; lia.
Qed.

Lemma cancel_redeem_inv s a s' :
  Inv s -> is_u64 a -> cancel_redeem s a = Ok s' -> Inv s'.
Proof.
  intros HI Ha64 H. unfold cancel_redeem in H. cbv zeta in H. invert_amounts.
  rename a1 into e, a2 into r.
  apply epoch_mut_Ok in E9 as (e' & Hep' & ->). cbn in *. same_epoch E0 Hep'.
  pose proof (book_ok_amt_nonneg _ _ _ _ _ (bi_redeems _ (inv_book _ HI)) E2). split_inv HI.
  - type_after_account s a Ht.
  - conserve s.
  - conserve s.
  - eapply (BookInv_redeem_write s _ (mkRequestKey (ep_id e') a)); try done; cbn;
      [by rewrite E0|by apply alter_insert_Some|].
    unfold entry_ok, fits in *; cbn. rewrite E3. split_and!; try done; try lia. right. by rewrite E0.
  - eapply (SettleInv_redeem_current s _ e' (mkRequestKey (ep_id e') a) _ (- rr_shares r)); try done;
      [| |by apply alter_insert_Some]; [unfold amount_change; cbn; rewrite E2; lia|].
    pose proof (ei_redeems_u128 _ _ _ _ (si_epoch _ Hset _ E0)). cbn in *. lia.
Qed.

(** * Claims *)

Lemma finalized_terms_Some s e t :
  finalized_terms s e = Some t <-> s.(epochs) !! e = Some (Finalized t).
Proof. unfold finalized_terms. destruct (epochs s !! e) as [[]|]; naive_solver. Qed.

Lemma aborted_terms_Some s e t :
  aborted_terms s e = Some t <-> s.(epochs) !! e = Some (Aborted t).
Proof. unfold aborted_terms. destruct (epochs s !! e) as [[]|]; naive_solver. Qed.

Lemma shares_for_Ok t r q :
  shares_for t (dr_assets r) = Ok q -> q = deposit_entitlement t r.
Proof. by intros [-> _]%assets_to_shares_Ok. Qed.

Lemma assets_for_Ok t r q :
  assets_for t (rr_shares r) = Ok q -> q = redeem_entitlement t r.
Proof. by intros [-> _]%shares_to_assets_Ok. Qed.

Lemma claim_deposit_inv s a e s' : Inv s -> claim_deposit s a e = Ok s' -> Inv s'.
Proof.
  intros HI H. unfold claim_deposit in H. cbv zeta in H. invert_amounts.
  rename a0 into t, a1 into r. apply finalized_terms_Some in E. apply shares_for_Ok in E4 as ->.
  pose proof (book_ok_amt_nonneg _ _ _ _ _ (bi_deposits _ (inv_book _ HI)) E0).
  pose proof (deposit_entitlement_nonneg t r
    (te_basis _ _ _ _ _ (si_terms _ (inv_settle _ HI) _ _ E)) ltac:(done)).
  split_inv HI.
  - type_after_account s a Ht.
  - conserve s.
  - conserve s.
  - eapply (BookInv_deposit_write s _ (mkRequestKey e a)); try done; cbn;
      [by apply alter_insert_Some|].
    by eapply (entry_ok_claim s s.(deposit_requests) _ r); [apply Hb|..].
  - eapply (SettleInv_deposit_claim s _ (mkRequestKey e a) r (r <| dr_claimed := true |>)
      (Finalized t)); cbn; try done; try lia. by apply alter_insert_Some.
Qed.

Lemma claim_redeem_inv s a e s' : Inv s -> claim_redeem s a e = Ok s' -> Inv s'.
Proof.
  intros HI H. unfold claim_redeem in H. cbv zeta in H. invert_amounts.
  rename a0 into t, a1 into r. apply finalized_terms_Some in E. apply assets_for_Ok in E4 as ->.
  pose proof (book_ok_amt_nonneg _ _ _ _ _ (bi_redeems _ (inv_book _ HI)) E0).
  pose proof (redeem_entitlement_nonneg t r
    (te_basis _ _ _ _ _ (si_terms _ (inv_settle _ HI) _ _ E)) ltac:(done)).
  split_inv HI.
  - type_after_account s a Ht.
  - conserve s.
  - conserve s.
  - eapply (BookInv_redeem_write s _ (mkRequestKey e a)); try done; cbn;
      [by apply alter_insert_Some|].
    by eapply (entry_ok_claim s s.(redeem_requests) _ r); [apply Hb|..].
  - eapply (SettleInv_redeem_claim s _ (mkRequestKey e a) r (r <| rr_claimed := true |>)
      (Finalized t)); cbn; try done; try lia. by apply alter_insert_Some.
Qed.

Lemma aborted_terms_not_None s e :
  aborted_terms s e <> None -> exists t, s.(epochs) !! e = Some (Aborted t).
Proof.
  destruct (aborted_terms s e) as [t|] eqn:E; [|done].
  apply aborted_terms_Some in E. eauto.
Qed.

Lemma claim_aborted_deposit_inv s a e s' :
  Inv s -> claim_aborted_deposit s a e = Ok s' -> Inv s'.
Proof.
  intros HI H. unfold claim_aborted_deposit in H. cbv zeta in H. invert_amounts.
  rename a0 into r. apply aborted_terms_not_None in E as [t E].
  pose proof (book_ok_amt_nonneg _ _ _ _ _ (bi_deposits _ (inv_book _ HI)) E0).
  split_inv HI.
  - type_after_account s a Ht.
  - conserve s.
  - conserve s.
  - eapply (BookInv_deposit_write s _ (mkRequestKey e a)); try done; cbn;
      [by apply alter_insert_Some|].
    by eapply (entry_ok_claim s s.(deposit_requests) _ r); [apply Hb|..].
  - eapply (SettleInv_deposit_claim s _ (mkRequestKey e a) r (r <| dr_claimed := true |>)
      (Aborted t)); cbn; try done; try lia. by apply alter_insert_Some.
Qed.

Lemma claim_aborted_redeem_inv s a e s' :
  Inv s -> claim_aborted_redeem s a e = Ok s' -> Inv s'.
Proof.
  intros HI H. unfold claim_aborted_redeem in H. cbv zeta in H. invert_amounts.
  rename a0 into r. apply aborted_terms_not_None in E as [t E].
  pose proof (book_ok_amt_nonneg _ _ _ _ _ (bi_redeems _ (inv_book _ HI)) E0).
  split_inv HI.
  - type_after_account s a Ht.
  - conserve s.
  - conserve s.
  - eapply (BookInv_redeem_write s _ (mkRequestKey e a)); try done; cbn;
      [by apply alter_insert_Some|].
    by eapply (entry_ok_claim s s.(redeem_requests) _ r); [apply Hb|..].
  - eapply (SettleInv_redeem_claim s _ (mkRequestKey e a) r (r <| rr_claimed := true |>)
      (Aborted t)); cbn; try done; try lia. by apply alter_insert_Some.
Qed.

(** * Emergency states and the epoch clock *)

Lemma pause_inv s actor s' : Inv s -> pause s actor = Ok s' -> Inv s'.
Proof. intros HI H. unfold pause in H. invert_ok. split_inv HI. Qed.

Lemma unpause_inv s actor s' : Inv s -> unpause s actor = Ok s' -> Inv s'.
Proof. intros HI H. unfold unpause in H. invert_ok. split_inv HI. Qed.

Lemma freeze_inv s actor s' : Inv s -> freeze s actor = Ok s' -> Inv s'.
Proof. intros HI H. unfold freeze in H. invert_ok. split_inv HI. Qed.

Lemma cutoff_epoch_inv s now s' : Inv s -> cutoff_epoch s now = Ok s' -> Inv s'.
Proof.
  intros HI H. unfold cutoff_epoch in H. invert_ok.
  apply require_open_epoch_Ok in E0 as [Hep Hph].
  apply epoch_mut_Ok in H as (e' & Hep' & ->). same_epoch Hep Hep'. split_inv HI.
  - destruct Hb as [HbD HbR Hids]. rewrite Hep in *. constructor; cbn.
    + by apply (book_ok_current _ (Some e')).
    + by apply (book_ok_current _ (Some e')).
    + exact Hids.
  - destruct Hset. rewrite Hep in *. constructor; cbn; try done.
    intros e [= <-]. destruct (si_epoch e' eq_refl). by constructor.
Qed.

Lemma open_next_epoch_inv s now s' : Inv s -> open_next_epoch s now = Ok s' -> Inv s'.
Proof.
  intros HI H. unfold open_next_epoch in H. invert_ok.
  assert (epoch s = None) as Hep by (destruct (epoch s); [by destruct E0|done]).
  split_inv HI.
  - destruct Hb as [HbD HbR Hids]. rewrite Hep in *. constructor; cbn.
    + by apply (book_ok_current _ None).
    + by apply (book_ok_current _ None).
    + exact Hids.
  - assert (epochs s !! next_epoch_id s = None) as Hfresh.
    { apply eq_None_not_Some. intros Hid. pose proof (bi_ids _ Hb _ Hid) as Hlt.
      rewrite Hep in Hlt. lia. }
    destruct Hset, Hb. rewrite Hep in *. constructor; cbn; try done.
    intros e [= <-]. constructor; cbn; try done; symmetry;
      (apply (epoch_sum_fresh (epochs s) None); [done|done|by intros []]).
Qed.

(** * Settlement *)

Lemma refunds_nonneg {R} `{Request R} outcomes cur (m : gmap RequestKey R) :
  book_ok outcomes cur m -> 0 <= settled_sum outcomes (refund_owed m).
Proof.
  intros Hb. apply msum_nonneg. intros id [] _; simpl; [lia|]. apply epoch_sum_nonneg.
  intros k r Hk _. by apply unclaimed_le, (book_ok_amt_nonneg _ _ _ _ _ Hb Hk).
Qed.

(** Pending redemptions are part of the escrowed shares, hence of the supply. *)
Lemma pending_redeem_le_supply s e :
  Inv s -> s.(epoch) = Some e -> e.(ep_pending_redeem_shares) <= s.(total_share_supply).
Proof.
  intros [Ht _ Hs _ Hb Hset _] He.
  pose proof (refunds_nonneg _ _ _ (bi_redeems _ Hb)).
  assert (0 <= msum (fun _ a => acc_shares a) s.(accounts)).
  { apply msum_nonneg. intros k a Hk. by apply (ti_accounts _ Ht) in Hk as [? ?]. }
  pose proof (si_escrowed _ Hset) as Heq. rewrite He in Heq. simpl in Heq.
  pose proof (ti_claimable _ Ht). unfold ShareInv in Hs. lia.
Qed.

Lemma EpochInv_pending_nonneg s e :
  Inv s -> s.(epoch) = Some e ->
  0 <= e.(ep_pending_deposit_assets) /\ 0 <= e.(ep_pending_redeem_shares).
Proof.
  intros HI He. destruct (si_epoch _ (inv_settle _ HI) e He) as [_ _ -> -> _ _].
  split; apply epoch_sum_nonneg; intros k r Hk _.
  - exact (book_ok_amt_nonneg _ _ _ _ _ (bi_deposits _ (inv_book _ HI)) Hk).
  - exact (book_ok_amt_nonneg _ _ _ _ _ (bi_redeems _ (inv_book _ HI)) Hk).
Qed.

(** Recording the outcome [o] of the current epoch [e]. *)
Lemma BookInv_settle s s' e o :
  BookInv s -> s.(epoch) = Some e -> s'.(epoch) = None ->
  s'.(epochs) = <[e.(ep_id) := o]> s.(epochs) -> s'.(next_epoch_id) = e.(ep_id) + 1 ->
  s'.(deposit_requests) = s.(deposit_requests) -> s'.(redeem_requests) = s.(redeem_requests) ->
  BookInv s'.
Proof.
  intros [HD HR Hids] He He' Ho Hn HD' HR'. rewrite He in *.
  constructor; rewrite ?He', ?Ho, ?Hn, ?HD', ?HR'.
  - by apply book_ok_settle.
  - by apply book_ok_settle.
  - intros id [<-|Hid]%lookup_insert_is_Some'; [lia|]. apply Hids in Hid. lia.
Qed.

Lemma abort_epoch_inv s actor s' : Inv s -> abort_epoch s actor = Ok s' -> Inv s'.
Proof.
  intros HI H. unfold abort_epoch, epoch_next in H. invert_ok. rename a0 into e.
  pose proof (current_unsettled _ _ (inv_book _ HI) E1) as Hnone.
  split_inv HI.
  - unfold BurnInv in *. cbn. by rewrite settled_sum_insert.
  - eapply (BookInv_settle s _ e); try done.
  - destruct Hset as [HSe HSt HSa HSesc HSed HScl HSres], Hb as [HbD HbR _].
    destruct (HSe e E1) as [_ _ HeD HeR HmD HmR]. rewrite E1 in *.
    pose proof (unclaimed_unsettled _ _ _ _ amt HbD Hnone) as HuD.
    pose proof (unclaimed_unsettled _ _ _ _ amt HbR Hnone) as HuR.
    rewrite <-HeD in HuD. rewrite <-HeR in HuR.
    constructor; cbn in *; rewrite ?settled_sum_insert by done; cbn; rewrite ?HuD, ?HuR.
    + done.
    + intros id t [[<- ?]|[? ?]]%lookup_insert_Some; [done|auto].
    + intros id t [[<- ?]|[? ?]]%lookup_insert_Some; simplify_eq; [by constructor|auto].
    + rewrite HSesc. cbn. lia.
    + rewrite HSed. cbn. lia.
    + lia.
    + lia.
Qed.

(** The state after the epoch [e] settles at the terms [t]. *)
Definition settled_state (s : State) (e : Epoch) (t : EpochTerms) : State :=
  s <| buckets, idle_backing :=
         s.(buckets).(idle_backing) - t.(et_redeem_assets) + t.(et_deposit_assets) |>
    <| buckets, pending_deposit_escrow :=
         s.(buckets).(pending_deposit_escrow) - t.(et_deposit_assets) |>
    <| buckets, claim_reserve := s.(buckets).(claim_reserve) + t.(et_redeem_assets) |>
    <| total_share_supply :=
         s.(total_share_supply) + t.(et_minted_shares) - t.(et_redeem_shares) |>
    <| claimable_deposit_shares := s.(claimable_deposit_shares) + t.(et_minted_shares) |>
    <| escrowed_redeem_shares := s.(escrowed_redeem_shares) - t.(et_redeem_shares) |>
    <| burned_redemption_shares := s.(burned_redemption_shares) + t.(et_redeem_shares) |>
    <| epochs ::= <[e.(ep_id) := Finalized t]> |>
    <| last_cutoff_at := e.(ep_cutoff_at) |>
    <| next_epoch_id := e.(ep_id) + 1 |>
    <| epoch := None |>.

(** The basis an epoch settles at: the locked valuation under remote
    exposure, the live NAV otherwise. *)
Definition settlement_assets (s : State) (e : Epoch) : option Z :=
  if has_remote_exposure s then s.(epoch_valuation_locked) !! e.(ep_id)
  else Some (managed_nav s).

Lemma outbound_nonneg s : RemoteInv s -> 0 <= s.(buckets).(outbound_in_transit).
Proof.
  intros Hr. rewrite (ri_outbound _ Hr). pose proof (ri_amount _ Hr). case_decide; lia.
Qed.

Lemma managed_nav_nonneg s : Inv s -> 0 <= managed_nav s.
Proof.
  intros [[] _ _ _ _ _ Hr]. pose proof (outbound_nonneg s Hr).
  unfold managed_nav, managed_backing, saturating_add, u128_max. lia.
Qed.

Lemma settlement_assets_nonneg s e v : Inv s -> settlement_assets s e = Some v -> 0 <= v.
Proof.
  intros HI. unfold settlement_assets. destruct (has_remote_exposure s).
  - apply (ti_locked _ (inv_type _ HI)).
  - intros [= <-]. by apply managed_nav_nonneg.
Qed.

(** What a successful settlement did: it priced the epoch at one basis,
    rounding down, and moved exactly the amounts of its terms. *)
Record Settlement (s : State) (e : Epoch) (t : EpochTerms) : Prop := {
  st_epoch : s.(epoch) = Some e;
  st_cut_off : e.(ep_phase) = CutOff;
  st_active : s.(vault_state) = Active;
  st_assets : settlement_assets s e = Some t.(et_total_assets);
  st_supply : t.(et_total_supply) = s.(total_share_supply);
  st_deposits : t.(et_deposit_assets) = e.(ep_pending_deposit_assets);
  st_redeems : t.(et_redeem_shares) = e.(ep_pending_redeem_shares);
  st_terms : TermsInv s.(config) s.(deposit_requests) s.(redeem_requests) e.(ep_id) t;
  st_liquidity : t.(et_redeem_assets) <= s.(buckets).(idle_backing);
  st_supply_u128 : s.(total_share_supply) + t.(et_minted_shares) <= u128_max;
  st_burned_u128 : s.(burned_redemption_shares) + t.(et_redeem_shares) <= u128_max;
}.

Lemma finalize_basis_Ok s e b :
  (if has_remote_exposure s then
     let? locked := ok_or (s.(epoch_valuation_locked) !! e.(ep_id)) RemoteValuationRequired in
     Ok ((pre_settlement_basis s e) <| pb_total_assets := locked |>)
   else Ok (pre_settlement_basis s e)) = Ok b ->
  exists v, settlement_assets s e = Some v /\
    b = mkPricingBasis v s.(total_share_supply) e.(ep_virtual_assets) e.(ep_virtual_shares).
Proof.
  unfold settlement_assets. destruct (has_remote_exposure s); intros H; invert_ok; eauto.
Qed.

Lemma finalize_epoch_spec s s' :
  Inv s -> finalize_epoch s = Ok s' ->
  exists e t, Settlement s e t /\ s' = settled_state s e t.
Proof.
  intros HI H. unfold finalize_epoch, epoch_next in H. cbv zeta in H.
  invert_amounts. rename a0 into e, a2 into paid, a3 into minted, a13 into owed.
  apply finalize_basis_Ok in E3 as (v & Hv & ->). cbn in E16 |- *.
  destruct (si_epoch _ (inv_settle _ HI) e E0) as [Hva Hvs HeD HeR _ _].
  destruct (EpochInv_pending_nonneg s e HI E0) as [HnD HnR].
  pose proof (pending_redeem_le_supply s e HI E0) as HleR.
  pose proof (settlement_assets_nonneg s e v HI Hv) as Hv0.
  pose proof (virtual_shares_for_Ok _ _ _ Hvs) as Hvs1.
  pose proof (ti_supply _ (inv_type _ HI)) as Hsup.
  destruct (shares_to_assets_sides _ _ _ E4) as [Hau Hsu].
  apply shares_to_assets_Ok in E4 as (Hpaid & _ & Hpm).
  apply assets_to_shares_Ok in E5 as (Hmint & _ & Hmm).
  match type of E16 with entitlements _ _ ?t0 = _ => set (t0' := t0) in E16 end.
  assert (basis_ok (terms_basis t0')) as Hbasis.
  { change (terms_basis t0') with (mkPricingBasis v (total_share_supply s)
      (ep_virtual_assets e) (ep_virtual_shares e)). split_and!; cbn; lia. }
  pose proof (bi_deposits _ (inv_book _ HI)) as HbD.
  pose proof (bi_redeems _ (inv_book _ HI)) as HbR.
  pose proof (deposit_parts_bounds _ _ _ (ep_id e) t0' HbD Hbasis) as HpD.
  pose proof (redeem_parts_bounds _ _ _ (ep_id e) t0' HbR Hbasis) as HpR.
  rewrite <-HeD in HpD. rewrite <-HeR in HpR.
  change (terms_basis t0') with (mkPricingBasis v (total_share_supply s)
    (ep_virtual_assets e) (ep_virtual_shares e)) in HpD, HpR.
  rewrite <-Hmint in HpD. rewrite <-Hpaid in HpR.
  cbv zeta in HpD, HpR. rewrite entitlements_ok in E16; [|apply HI|done|lia..].
  injection E16 as <-. cbn [ent_deposit_shares ent_redeem_assets epoch_entitlements].
  exists e, (t0' <| et_deposit_dust := minted -
                    epoch_sum (deposit_requests s) (ep_id e) (deposit_entitlement t0') |>
                 <| et_redeem_dust := paid -
                    epoch_sum (redeem_requests s) (ep_id e) (redeem_entitlement t0') |>).
  split; [|reflexivity].
  constructor; try done; [by eapply require_active_Ok|].
  constructor; try done; cbn; unfold fits; lia.
Qed.

(** Dust of the terms is what rounding left over. *)
Lemma TermsInv_dust outcomes cur c D R id t :
  book_ok outcomes cur D -> book_ok outcomes cur R -> TermsInv c D R id t ->
  0 <= t.(et_deposit_dust) <= Z.max 0 (epoch_sum D id counts - 1) /\
  0 <= t.(et_redeem_dust) <= Z.max 0 (epoch_sum R id counts - 1).
Proof.
  intros HD HR [].
  pose proof (deposit_parts_bounds _ _ _ id t HD te_basis) as HpD.
  pose proof (redeem_parts_bounds _ _ _ id t HR te_basis) as HpR.
  rewrite <-te_deposits, <-te_minted in HpD. rewrite <-te_redeems, <-te_paid in HpR.
  cbv zeta in *. lia.
Qed.

Lemma TermsInv_nonneg c D R id t :
  TermsInv c D R id t -> 0 <= t.(et_minted_shares) /\ 0 <= t.(et_redeem_assets).
Proof.
  intros [? (?&?&?&?&?&?) ? ? ? ? [? ?] [? ?] -> ? -> ? ?].
  split; apply Z.div_pos; unfold share_units, asset_units; nia.
Qed.

Lemma SettleInv_finalize s e t :
  SettleInv s -> BookInv s -> Settlement s e t -> SettleInv (settled_state s e t).
Proof.
  intros [HSe HSt HSa HSesc HSed HScl HSres] Hb Hst.
  pose proof (current_unsettled _ _ Hb (st_epoch _ _ _ Hst)) as Hnone.
  destruct Hb as [HbD HbR _], Hst as [Hep _ _ _ _ HtD HtR Hterms _ _ _].
  pose proof (unclaimed_unsettled _ _ _ _ (deposit_entitlement t) HbD Hnone) as HuD.
  pose proof (unclaimed_unsettled _ _ _ _ (redeem_entitlement t) HbR Hnone) as HuR.
  pose proof (te_deposit_dust _ _ _ _ _ Hterms) as HdD.
  pose proof (te_redeem_dust _ _ _ _ _ Hterms) as HdR.
  rewrite Hep in HSesc, HSed.
  constructor; cbn in *; rewrite ?settled_sum_insert by done; cbn; rewrite ?HuD, ?HuR; try lia.
  - done.
  - intros id u [[<- ?]|[? ?]]%lookup_insert_Some; simplify_eq; auto.
  - intros id u [[<- ?]|[? ?]]%lookup_insert_Some; simplify_eq; auto.
Qed.

Lemma finalize_epoch_inv s s' : Inv s -> finalize_epoch s = Ok s' -> Inv s'.
Proof.
  intros HI H. destruct (finalize_epoch_spec s s' HI H) as (e & t & Hst & ->).
  pose proof (current_unsettled _ _ (inv_book _ HI) (st_epoch _ _ _ Hst)) as Hnone.
  pose proof (TermsInv_nonneg _ _ _ _ _ (st_terms _ _ _ Hst)) as [? ?].
  pose proof (te_redeem_supply _ _ _ _ _ (st_terms _ _ _ Hst)).
  pose proof (te_deposit_u128 _ _ _ _ _ (st_terms _ _ _ Hst)) as [? ?].
  assert (t.(et_deposit_assets) <= s.(buckets).(pending_deposit_escrow) /\
          t.(et_redeem_shares) <= s.(escrowed_redeem_shares)) as [? ?].
  { rewrite (si_escrow _ (inv_settle _ HI)), (si_escrowed _ (inv_settle _ HI)).
    rewrite (st_epoch _ _ _ Hst), (st_deposits _ _ _ Hst), (st_redeems _ _ _ Hst). cbn.
    split; cut (0 <= settled_sum s.(epochs) (refund_owed s.(deposit_requests)) /\
      0 <= settled_sum s.(epochs) (refund_owed s.(redeem_requests))); try lia;
    split; apply refunds_nonneg with (cur := s.(epoch)); apply (inv_book _ HI). }
  pose proof Hst as [Hep _ _ _ Hsup HtD HtR Hterms Hliq HsU HbU]. split_inv HI.
  - destruct Ht. constructor; cbn; try done; lia.
  - unfold AssetInv, issued in *. cbn. lia.
  - unfold ShareInv in *. cbn. lia.
  - unfold BurnInv in *. cbn. rewrite settled_sum_insert by done. cbn. lia.
  - by eapply (BookInv_settle s _ e).
  - by apply SettleInv_finalize.
Qed.

(** * The remote leg *)

Lemma require_no_cycle_Ok s u : require_no_cycle s = Ok u -> s.(active_cycle) = CycleNone.
Proof. unfold require_no_cycle. intros H. by invert_ok. Qed.

Lemma require_fresh_transfer_Ok s t u :
  require_fresh_transfer s t = Ok u -> t <> transfer_zero /\ t ∉ s.(used_transfer_ids).
Proof. unfold require_fresh_transfer, transfer_is_zero. intros H. by invert_ok. Qed.

(** With no cycle open nothing is in transit outbound or under recall. *)
Lemma RemoteInv_idle s :
  RemoteInv s -> s.(active_cycle) = CycleNone ->
  s.(buckets).(outbound_in_transit) = 0 /\ s.(pending_recall_principal) = 0 /\
  s.(pending_recall_id) = transfer_zero /\ s.(close_requested) = false.
Proof.
  intros [] Hc. rewrite Hc in *. split_and!; try done.
  destruct (close_requested s); [|done]. by discriminate ri_close.
Qed.

Ltac invert_remote :=
  invert_amounts;
  repeat match goal with
  | H : require_no_cycle _ = Ok _ |- _ => apply require_no_cycle_Ok in H
  | H : require_fresh_transfer _ _ = Ok _ |- _ => apply require_fresh_transfer_Ok in H as [? ?]
  | H : require_open_epoch _ = Ok _ |- _ => apply require_open_epoch_Ok in H as [? ?]
  end.

(** The cases of [RemoteInv] after a step that opens or closes a cycle. *)
Ltac remote_arith Hr :=
  destruct Hr; constructor; cbn in *; repeat case_decide; try done; try lia; try congruence;
  match goal with
  | |- _ \/ _ -> _ => intros [?|?]; congruence || lia
  | |- _ -> _ ∈ _ => intros _; apply elem_of_union_l, elem_of_singleton_2; done
  | |- _ ∉ _ => apply not_elem_of_union; split; [apply not_elem_of_singleton; congruence|done]
  | |- _ => idtac
  end.

Ltac asset_arith := unfold AssetInv, issued in *; cbn in *; lia.

Lemma begin_allocate_inv s actor t x s' :
  Inv s -> is_u128 x -> begin_allocate s actor t x = Ok s' -> Inv s'.
Proof.
  intros HI Hx H. unfold begin_allocate in H. cbv zeta in H. invert_remote.
  unfold fits in Hx. destruct (RemoteInv_idle s (inv_remote _ HI) E3) as (Ho & ? & ? & ?).
  split_inv HI.
  - destruct Ht. constructor; cbn in *; done || lia.
  - asset_arith.
  - remote_arith Hr.
Qed.

Lemma complete_allocation_inv s t v s' :
  Inv s -> is_u128 v -> complete_allocation s t v = Ok s' -> Inv s'.
Proof.
  intros HI Hv H. unfold complete_allocation in H. cbv zeta in H.
  destruct (close_requested s) eqn:Hclose; invert_remote; [done|].
  unfold fits in Hv. pose proof (ri_amount _ (inv_remote _ HI)).
  pose proof (ri_outbound _ (inv_remote _ HI)) as Ho. rewrite decide_True in Ho by done.
  split_inv HI.
  - destruct Ht, Hr. constructor; cbn in *; try done; case_ltb; lia.
  - asset_arith.
  - remote_arith Hr; case_ltb; lia.
Qed.

Lemma begin_recall_inv s actor t x s' :
  Inv s -> is_u128 x -> begin_recall s actor t x = Ok s' -> Inv s'.
Proof.
  intros HI Hx H. unfold begin_recall in H. cbv zeta in H. invert_remote.
  unfold fits in Hx. destruct (RemoteInv_idle s (inv_remote _ HI) E0) as (Ho & ? & ? & ?).
  pose proof (ti_accepted _ (inv_type _ HI)).
  split_inv HI. remote_arith Hr.
Qed.

Lemma accept_recall_sent_inv s t principal actual loss s' :
  Inv s -> is_u128 principal -> is_u128 actual -> is_u128 loss ->
  accept_recall_sent s t principal actual loss = Ok s' -> Inv s'.
Proof.
  intros HI Hp Hac Hl H. unfold fits in *. unfold accept_recall_sent in H. cbv zeta in H. invert_remote.
  cbn in *. split_inv HI.
  - destruct Ht, Hr. constructor; cbn in *; try done; revert E5 E7; case_ltb; intros; lia.
  - unfold AssetInv, issued in *; cbn in *; lia.
  - remote_arith Hr; revert E5 E7; case_ltb; intros; lia.
Qed.

(** The first half of [observe_inbound]: arrivals settle the transit first. *)
Definition inbound_attributed (s : State) (x : AssetAmount) : State * AssetAmount :=
  let attributed := Z.min x s.(buckets).(inbound_in_transit) in
  (s <| buckets, inbound_in_transit := s.(buckets).(inbound_in_transit) - attributed |>
     <| buckets, idle_backing := s.(buckets).(idle_backing) + attributed |>,
   x - attributed).

Lemma ltb_min a b : (if a <? b then a else b) = Z.min a b.
Proof. destruct (Z.ltb_spec a b); lia. Qed.

Lemma inbound_attributed_none s x :
  s.(buckets).(inbound_in_transit) = 0 -> 0 <= x -> inbound_attributed s x = (s, x).
Proof.
  intros Hz Hx. unfold inbound_attributed. rewrite Hz, Z.min_r, !Z.sub_0_r by lia.
  destruct s as [? ? ? ? ? ? ? ? ? ? b]; destruct b; cbn in *. subst. by rewrite Z.add_0_r.
Qed.

(** The branches of [observe_inbound]: what the transit does not explain is
    unattributed, and counts as external inflow unless a recall is pending. *)
Lemma observe_inbound_spec s x s' :
  0 <= s.(buckets).(inbound_in_transit) -> 0 <= x -> observe_inbound s x = Ok s' ->
  exists s1 rest, inbound_attributed s x = (s1, rest) /\ x <> 0 /\
    ((rest = 0 /\ s' = s1) \/
     (rest <> 0 /\ s1.(pending_recall_principal) <> 0 /\
      s' = s1 <| buckets, unattributed_inbound := s1.(buckets).(unattributed_inbound) + rest |>) \/
     (rest <> 0 /\ s1.(pending_recall_principal) = 0 /\
      s' = s1 <| external_inflow := s1.(external_inflow) + rest |>
              <| buckets, unattributed_balance :=
                   s1.(buckets).(unattributed_balance) + rest |>)).
Proof.
  intros Hin Hx H. unfold observe_inbound in H. cbv zeta in H. invert_amounts.
  assert (a = inbound_attributed s x) as ->.
  { revert E0. rewrite ltb_min.
    destruct (Z.eqb_spec (inbound_in_transit (buckets s)) 0) as [Hz|Hz]; cbn; intros HE.
    - invert_amounts. by rewrite inbound_attributed_none.
    - by invert_amounts. }
  destruct (inbound_attributed s x) as [s1 rest]. exists s1, rest.
  split; [done|]. split; [done|]. revert H.
  destruct (Z.eqb_spec rest 0); [intros; invert_amounts; auto|].
  destruct (Z.eqb_spec (pending_recall_principal s1) 0); cbn; intros; invert_amounts; auto.
Qed.

Lemma observe_inbound_inv s x s' :
  Inv s -> is_u128 x -> observe_inbound s x = Ok s' -> Inv s'.
Proof.
  intros HI [Hx _] H.
  apply observe_inbound_spec in H as (s1 & rest & Hs1 & ? & Hcases);
    [|apply HI|done].
  unfold inbound_attributed in Hs1. injection Hs1 as <- <-. cbn in Hcases.
  destruct Hcases as [(? & ->)|[(? & ? & ->)|(? & ? & ->)]]; split_inv HI;
    try asset_arith; destruct Ht; constructor; cbn in *; try done; lia.
Qed.

Lemma apply_remote_valuation_inv s v l s' :
  Inv s -> is_u128 v -> is_u128 l -> apply_remote_valuation s v l = Ok s' -> Inv s'.
Proof.
  intros HI [Hv _] [Hl _] H. unfold apply_remote_valuation in H. cbv zeta in H.
  pose proof (ri_baseline _ (inv_remote _ HI)).
  destruct (close_requested s) eqn:Hclose; invert_remote; split_inv HI;
    try (destruct Ht; constructor; cbn in *; try done; unfold value_during_recall, saturating_sub;
         case_ltb; try destruct (bool_decide _); lia).
  remote_arith Hr; case_ltb; lia.
Qed.

Lemma lock_remote_valuation_inv s s' : Inv s -> lock_remote_valuation s = Ok s' -> Inv s'.
Proof.
  intros HI H. unfold lock_remote_valuation in H.
  destruct (close_requested s); invert_remote; [done|].
  pose proof (managed_nav_nonneg s HI). split_inv HI.
  destruct Ht. constructor; cbn in *; try done.
  intros id v [[<- <-]|[? ?]]%lookup_insert_Some; [done|eauto].
Qed.

Lemma request_close_inv s actor t s' : Inv s -> request_close s actor t = Ok s' -> Inv s'.
Proof.
  intros HI H. unfold request_close in H. invert_remote. split_inv HI.
Qed.

Lemma settle_close_inv s t credited s' :
  Inv s -> is_u128 credited -> settle_close s t credited = Ok s' -> Inv s'.
Proof.
  intros HI [Hc _] H. unfold settle_close, credit_remote in H. cbv zeta in H. invert_remote.
  cbn in *. split_inv HI.
  - destruct Ht, Hr. constructor; cbn in *; done || lia.
  - asset_arith.
  - remote_arith Hr.
Qed.

Lemma begin_recover_inv s actor t s' : Inv s -> begin_recover s actor t = Ok s' -> Inv s'.
Proof.
  intros HI H. unfold begin_recover in H. invert_remote.
  destruct (RemoteInv_idle s (inv_remote _ HI) E0) as (Ho & ? & ? & ?).
  split_inv HI. remote_arith Hr.
Qed.

Lemma settle_recover_inv s t credited s' :
  Inv s -> is_u128 credited -> settle_recover s t credited = Ok s' -> Inv s'.
Proof.
  intros HI [Hc _] H. unfold settle_recover, credit_remote in H. cbv zeta in H. invert_remote.
  cbn in *. split_inv HI.
  - destruct Ht, Hr. constructor; cbn in *; done || lia.
  - asset_arith.
  - remote_arith Hr.
Qed.

(** * Dispatch *)

(** An operation whose arguments are values of their Rust types. *)
Definition op_typed (op : Operation) : Prop :=
  match op with
  | RequestDeposit a x => is_u64 a /\ is_u128 x
  | RequestRedeem a x => is_u64 a /\ is_u128 x
  | CancelDeposit a | CancelRedeem a => is_u64 a
  | BeginAllocate _ _ x | BeginRecall _ _ x => is_u128 x
  | CompleteAllocation _ x | ObserveInbound x => is_u128 x
  | AcceptRecallSent _ p a l => is_u128 p /\ is_u128 a /\ is_u128 l
  | ApplyRemoteValuation v l => is_u128 v /\ is_u128 l
  | SettleClose _ x | SettleRecover _ x => is_u128 x
  | _ => True
  end.

#[export] Instance op_typed_dec op : Decision (op_typed op).
Proof. destruct op; cbn; apply _. Defined.

Ltac by_handler L H := eapply L; [..|exact H]; eassumption.

(** Every accepted operation preserves the accounting invariant. *)
Lemma apply_inv s op s' : Inv s -> op_typed op -> apply s op = Ok s' -> Inv s'.
Proof.
  intros HI Hop H. destruct op; cbn [apply op_typed] in *;
    repeat match goal with H : _ /\ _ |- _ => destruct H end;
    [ by_handler request_deposit_inv H | by_handler cancel_deposit_inv H | by_handler request_redeem_inv H
    | by_handler cancel_redeem_inv H | by_handler cutoff_epoch_inv H | by_handler finalize_epoch_inv H
    | by_handler abort_epoch_inv H | by_handler claim_deposit_inv H | by_handler claim_redeem_inv H
    | by_handler claim_aborted_deposit_inv H | by_handler claim_aborted_redeem_inv H | by_handler open_next_epoch_inv H
    | by_handler pause_inv H | by_handler unpause_inv H | by_handler freeze_inv H
    | by_handler begin_allocate_inv H | by_handler complete_allocation_inv H | by_handler begin_recall_inv H
    | by_handler accept_recall_sent_inv H | by_handler observe_inbound_inv H | by_handler apply_remote_valuation_inv H
    | by_handler lock_remote_valuation_inv H | by_handler request_close_inv H | by_handler settle_close_inv H
    | by_handler begin_recover_inv H | by_handler settle_recover_inv H ].
Qed.

(** A state reached by accepted operations with typed arguments. *)
Inductive reachable (s0 : State) : State -> Prop :=
| reach_start : reachable s0 s0
| reach_step s op s' :
    reachable s0 s -> op_typed op -> apply s op = Ok s' -> reachable s0 s'.

Lemma reachable_inv s0 s : Inv s0 -> reachable s0 s -> Inv s.
Proof. induction 2; eauto using apply_inv. Qed.

Lemma reachable_run s0 s ops s' :
  reachable s0 s -> Forall op_typed ops -> run s ops = Ok s' -> reachable s0 s'.
Proof.
  intros Hs Hops. revert s Hs. induction Hops as [|op ops Hop Hops IH]; intros s Hs H.
  - by injection H as <-.
  - unfold run in H. cbn in H. invert_ok. eapply IH; [|done]. by econstructor.
Qed.

(** * Genesis *)

Definition genesis_typed (g : Genesis) : Prop :=
  is_u128 g.(gen_unattributed_balance) /\
  Forall (fun p => is_u64 p.1 /\ is_u128 p.2) g.(gen_accounts).

#[export] Instance genesis_typed_dec g : Decision (genesis_typed g).
Proof. unfold genesis_typed. apply _. Defined.

Lemma genesis_fold_Ok l accts supply accts' supply' :
  try_fold genesis_step (accts, supply) l = Ok (accts', supply') ->
  Forall (fun p => is_u64 p.1 /\ is_u128 p.2) l ->
  (forall id a, accts !! id = Some a -> 0 <= acc_assets a /\ acc_shares a = 0) ->
  supply' - supply = msum (fun _ a => acc_assets a) accts' - msum (fun _ a => acc_assets a) accts /\
  supply <= supply' /\
  (forall id a, accts' !! id = Some a -> 0 <= acc_assets a /\ acc_shares a = 0).
Proof.
  revert accts supply. induction l as [|[id x] l IH]; intros accts supply H Hl Ha.
  { cbn in H. injection H as <- <-. split_and!; [lia|lia|done]. }
  cbn in H. invert_amounts. inversion_clear Hl as [|? ? [_ [Hx _]] Hl']. cbn in Hx.
  apply IH in H as (Heq & Hle & Ha'); [|done|].
  - assert (accts !! id = None) as Hnone by (destruct (accts !! id); [by destruct E0|done]).
    rewrite msum_insert_None in Heq by done. cbn in Heq. split_and!; [lia|lia|done].
  - intros id' a [[<- <-]|[? ?]]%lookup_insert_Some; [cbn; lia|eauto].
Qed.

Lemma state_new_inv g s : genesis_typed g -> state_new g = Ok s -> Inv s.
Proof.
  intros [Hu Hl] H. unfold fits in Hu. unfold state_new in H. cbv zeta in H. repeat invert_step.
  destruct a1 as [accts supply]. repeat invert_step.
  apply genesis_fold_Ok in E1 as (Heq & Hle & Ha); [|done|by intros ? ? ?%lookup_empty_Some].
  rewrite msum_empty in Heq.
  constructor.
  - constructor; cbn; try lia; try (unfold u128_max; lia).
    + intros id acct Hk. destruct (Ha id acct Hk) as [? ->]. lia.
    + by intros id v ?%lookup_empty_Some.
  - unfold AssetInv, issued. cbn. lia.
  - unfold ShareInv. cbn. rewrite msum_zero; [done|]. intros k v Hk. by apply Ha in Hk as [_ ?].
  - done.
  - constructor; cbn.
    + apply book_ok_empty.
    + apply book_ok_empty.
    + by intros id [? ?%lookup_empty_Some].
  - constructor; cbn; try done.
    intros e [= <-]. by constructor.
  - constructor; cbn; try done; try lia. by intros [?|?].
Qed.
