(* ===== verification/AccountingChecks.v ===== *)
(** The executable rules of [AccountingInvariant] accept every state that
    satisfies [Inv]: one lemma per check of [invariant.rs], and the figures
    [outstanding_*] of [state.rs]. *)

From Stdlib Require Import ZArith Lia.
From S2P Require Import Prelude AccountingMath AccountingState AccountingTransition.
From S2P Require Import AccountingInvariant AccountingBook AccountingSafety.
From S2P Require Import AccountingFigures.
From S2P Require Import AccountingPreserve.

(** * Loops that add *)

Lemma try_fold_add {E A} (step : Z -> A -> result E Z) (f : A -> Z) M l a :
  (forall x, x ∈ l -> 0 <= f x) ->
  (forall x b, x ∈ l -> b + f x <= M -> step b x = Ok (b + f x)) ->
  a + lsum f l <= M -> try_fold step a l = Ok (a + lsum f l).
Proof.
  revert a. induction l as [|x l IH]; intros a Hf Hstep Hm; cbn [try_fold].
  { rewrite lsum_nil. f_equal. lia. }
  rewrite lsum_cons in *.
  pose proof (Hf x ltac:(set_solver)). pose proof (lsum_nonneg f l ltac:(set_solver)).
  rewrite Hstep by (set_solver || lia). rewrite IH; [f_equal; lia|set_solver|set_solver|lia].
Qed.

Lemma try_fold_add2 {E A} (step : Z * Z -> A -> result E (Z * Z)) (f g : A -> Z) M N l a b :
  (forall x, x ∈ l -> 0 <= f x /\ 0 <= g x) ->
  (forall x a b, x ∈ l -> a + f x <= M -> b + g x <= N -> step (a, b) x = Ok (a + f x, b + g x)) ->
  a + lsum f l <= M -> b + lsum g l <= N ->
  try_fold step (a, b) l = Ok (a + lsum f l, b + lsum g l).
Proof.
  revert a b. induction l as [|x l IH]; intros a b Hfg Hstep Ha Hb; cbn [try_fold].
  { rewrite !lsum_nil. f_equal. f_equal; lia. }
  rewrite !lsum_cons in *.
  pose proof (Hfg x ltac:(set_solver)).
  pose proof (lsum_nonneg f l (fun y Hy => proj1 (Hfg y ltac:(set_solver)))).
  pose proof (lsum_nonneg g l (fun y Hy => proj2 (Hfg y ltac:(set_solver)))).
  rewrite Hstep by (set_solver || lia).
  rewrite IH; [f_equal; f_equal; lia|set_solver|set_solver|lia|lia].
Qed.

(** The same loops over the entries of a map, in key order. *)
Lemma try_fold_map {E K V} `{Countable K} (R : relation K) `{!RelDecision R}
  (step : Z -> K * V -> result E Z) (f : K -> V -> Z) M (m : gmap K V) a :
  (forall k v, m !! k = Some v -> 0 <= f k v) ->
  (forall k v b, m !! k = Some v -> b + f k v <= M -> step b (k, v) = Ok (b + f k v)) ->
  a + msum f m <= M -> try_fold step a (btree_iter R m) = Ok (a + msum f m).
Proof.
  intros Hf Hstep Hm. rewrite <-(lsum_btree_iter R f m) in *.
  apply try_fold_add with (M := M); [| |done]; intros [k v]; intros; cbn in *;
    first [apply Hf | apply Hstep]; try done; by eapply elem_of_btree_iter.
Qed.

Lemma try_fold_map2 {E K V} `{Countable K} (R : relation K) `{!RelDecision R}
  (step : Z * Z -> K * V -> result E (Z * Z)) (f g : K -> V -> Z) M N (m : gmap K V) a b :
  (forall k v, m !! k = Some v -> 0 <= f k v /\ 0 <= g k v) ->
  (forall k v a b, m !! k = Some v -> a + f k v <= M -> b + g k v <= N ->
    step (a, b) (k, v) = Ok (a + f k v, b + g k v)) ->
  a + msum f m <= M -> b + msum g m <= N ->
  try_fold step (a, b) (btree_iter R m) = Ok (a + msum f m, b + msum g m).
Proof.
  intros Hf Hstep Hm Hn. rewrite <-(lsum_btree_iter R f m), <-(lsum_btree_iter R g m) in *.
  apply try_fold_add2 with (M := M) (N := N); [| |done|done]; intros [k v]; intros; cbn in *;
    first [apply Hf | apply Hstep]; try done; by eapply elem_of_btree_iter.
Qed.

(** * Bounds that follow from the invariant *)

(** Everything issued, and what was received ahead of its report, fits [u128]. *)
Definition supply_fits (s : State) : Prop :=
  issued s + s.(buckets).(unattributed_inbound) <= u128_max.

#[export] Instance supply_fits_dec s : Decision (supply_fits s).
Proof. unfold supply_fits. apply _. Defined.

Lemma accounts_assets_nonneg s :
  TypeInv s -> 0 <= msum (fun _ a => acc_assets a) s.(accounts).
Proof. intros Ht. apply msum_nonneg. intros k v Hk. by apply (ti_accounts _ Ht) in Hk as [? ?]. Qed.

Lemma accounts_shares_nonneg s :
  TypeInv s -> 0 <= msum (fun _ a => acc_shares a) s.(accounts).
Proof. intros Ht. apply msum_nonneg. intros k v Hk. by apply (ti_accounts _ Ht) in Hk as [? ?]. Qed.

(** Every asset figure is at most what was issued. *)
Record AssetBounds (s : State) : Prop := {
  ab_accounts : 0 <= msum (fun _ a => acc_assets a) s.(accounts);
  ab_outbound : 0 <= s.(buckets).(outbound_in_transit);
  ab_cap : 0 <= s.(buckets).(accepted_remote_value) <= s.(remote_principal_cap);
}.

Lemma inv_asset_bounds s : Inv s -> AssetBounds s.
Proof.
  intros HI. pose proof (inv_type _ HI) as Ht. pose proof (inv_remote _ HI) as Hr.
  constructor; [by apply accounts_assets_nonneg|by apply outbound_nonneg|].
  destruct Ht, Hr. lia.
Qed.

(** With the supply in range no saturation happens, so NAV is the plain sum. *)
Lemma managed_nav_sum s :
  Inv s -> supply_fits s ->
  managed_nav s = s.(buckets).(idle_backing) + s.(buckets).(outbound_in_transit)
    + s.(buckets).(accepted_remote_value) + s.(buckets).(inbound_in_transit).
Proof.
  intros HI Hfit. pose proof (inv_asset_bounds s HI) as [].
  pose proof (inv_type _ HI) as []. pose proof (inv_asset _ HI) as Ha.
  unfold supply_fits, AssetInv, issued in *.
  unfold managed_nav, managed_backing, saturating_add. lia.
Qed.

Lemma require_eqb {E} (a b : Z) (e : E) : a = b -> (if a =? b then Ok tt else Err e) = Ok tt.
Proof. intros ->. by rewrite Z.eqb_refl. Qed.

Lemma negb_eqb a b : a = b -> negb (a =? b) = false.
Proof. intros ->. by rewrite Z.eqb_refl. Qed.

(** * Conservation *)

Lemma total_account_assets_ok s :
  TypeInv s -> msum (fun _ a => acc_assets a) s.(accounts) <= u128_max ->
  total_account_assets s = Ok (msum (fun _ a => acc_assets a) s.(accounts)).
Proof.
  intros Ht Hm. unfold total_account_assets.
  apply (try_fold_map Z.le _ (fun _ a => acc_assets a) u128_max _ 0); [| |lia].
  - intros k v Hk. by apply (ti_accounts _ Ht) in Hk as [? ?].
  - intros k v b _ Hb. by apply amount_add_ok.
Qed.

Lemma total_account_shares_ok s :
  TypeInv s -> msum (fun _ a => acc_shares a) s.(accounts) <= u128_max ->
  total_account_shares s = Ok (msum (fun _ a => acc_shares a) s.(accounts)).
Proof.
  intros Ht Hm. unfold total_account_shares.
  apply (try_fold_map Z.le _ (fun _ a => acc_shares a) u128_max _ 0); [| |lia].
  - intros k v Hk. by apply (ti_accounts _ Ht) in Hk as [? ?].
  - intros k v b _ Hb. by apply amount_add_ok.
Qed.

Lemma check_asset_conservation_ok s :
  Inv s -> supply_fits s -> check_asset_conservation s = Ok tt.
Proof.
  intros HI Hfit. pose proof (inv_asset_bounds s HI) as [].
  pose proof (inv_type _ HI) as Ht. pose proof (inv_asset _ HI) as Ha.
  unfold supply_fits, AssetInv, issued in *.
  unfold check_asset_conservation.
  assert (Ht' := Ht). destruct Ht'.
  rewrite total_account_assets_ok by (done || lia).
  repeat (rewrite amount_add_ok by lia; cbn [lift]). cbn [lift].
  apply require_eqb. lia.
Qed.

Lemma check_nav_composition_ok s :
  Inv s -> supply_fits s -> check_nav_composition s = Ok tt.
Proof.
  intros HI Hfit. pose proof (inv_asset_bounds s HI) as [].
  pose proof (inv_type _ HI) as []. pose proof (inv_asset _ HI) as Ha.
  pose proof (managed_nav_sum s HI Hfit) as Hnav.
  unfold supply_fits, AssetInv, issued in *.
  unfold check_nav_composition, excluded_from_nav, buckets_excluded_from_nav,
    total_bucket_assets, buckets_total, buckets_physical. rewrite Hnav.
  repeat (rewrite amount_add_ok by lia; cbn [lift]).
  apply require_eqb. lia.
Qed.

Lemma check_share_conservation_ok s : Inv s -> check_share_conservation s = Ok tt.
Proof.
  intros HI. pose proof (inv_type _ HI) as Ht. pose proof (inv_share _ HI) as Hs.
  pose proof (accounts_shares_nonneg _ Ht). assert (Ht' := Ht). destruct Ht'.
  unfold ShareInv in *. unfold check_share_conservation.
  rewrite total_account_shares_ok by (done || lia).
  cbn [lift]. repeat (rewrite amount_add_ok by lia; cbn [lift]). apply require_eqb. lia.
Qed.

Lemma check_burned_shares_ok s : Inv s -> check_burned_shares s = Ok tt.
Proof.
  intros HI. pose proof (inv_type _ HI) as []. pose proof (inv_burn _ HI) as Hb.
  unfold BurnInv, settled_sum in Hb. unfold check_burned_shares.
  rewrite (try_fold_map Z.le _ burned_by u128_max _ 0); [cbn [lift]; apply require_eqb; lia| | |lia].
  - intros k [t|t] Hk; cbn; [|done]. apply (si_terms _ (inv_settle _ HI)) in Hk. destruct Hk. lia.
  - intros k [t|t] b Hk Hle; cbn in *; [by apply amount_add_ok|]. f_equal. lia.
Qed.

(** * Requests *)

Lemma flags_agree {R} `{Request R} outcomes cur (m : gmap RequestKey R) k r :
  book_ok outcomes cur m -> m !! k = Some r ->
  Bool.eqb (cancelled r) (is_zero (amt r)) && negb (cancelled r && claimed r) = true.
Proof.
  intros Hm Hk. destruct (Hm k r Hk) as (_&_&Hc&Hcl&_). unfold is_zero. rewrite <-Hc.
  rewrite Bool.eqb_reflx. cbn. destruct (cancelled r) eqn:E; [|done].
  destruct (claimed r); [|done]. destruct (Hcl eq_refl) as [Hne _].
  symmetry in Hc. by apply Z.eqb_eq in Hc.
Qed.

Lemma forallb_btree {K V} `{Countable K} (R : relation K) `{!RelDecision R}
  (p : V -> bool) (m : gmap K V) :
  (forall k v, m !! k = Some v -> p v = true) ->
  forallb (fun kv => p kv.2) (btree_iter R m) = true.
Proof.
  intros Hp. apply forallb_forall. intros [k v] Hin%list_elem_of_In.
  apply elem_of_btree_iter in Hin. by eapply Hp.
Qed.

Lemma check_request_lifecycle_ok s : Inv s -> check_request_lifecycle s = Ok tt.
Proof.
  intros [_ _ _ _ [HD HR _] _ _]. unfold check_request_lifecycle.
  rewrite (forallb_btree key_le deposit_flags_agree), (forallb_btree key_le redeem_flags_agree);
    [done| |]; intros k r Hk.
  - exact (flags_agree _ _ _ _ _ HR Hk).
  - exact (flags_agree _ _ _ _ _ HD Hk).
Qed.

(** * Escrow *)

(** The totals of any epoch of a well-formed state, settled or current. *)
Lemma totals_of_aborted s id t :
  Inv s -> s.(epochs) !! id = Some (Aborted t) ->
  request_totals s id = Ok (epoch_totals s id) /\
  epoch_sum s.(deposit_requests) id dr_assets = t.(at_refund_assets) /\
  epoch_sum s.(redeem_requests) id rr_shares = t.(at_refund_shares).
Proof.
  intros HI Hid. destruct (si_aborted _ (inv_settle _ HI) _ _ Hid) as [Ha Hs Ha' Hs'].
  cbn [amt deposit_Request redeem_Request] in *. split; [|lia].
  apply request_totals_ok; [apply HI| |]; cbn in *; lia.
Qed.

Lemma totals_of_finalized s id t :
  Inv s -> s.(epochs) !! id = Some (Finalized t) ->
  request_totals s id = Ok (epoch_totals s id) /\
  epoch_sum s.(deposit_requests) id dr_assets = t.(et_deposit_assets) /\
  epoch_sum s.(redeem_requests) id rr_shares = t.(et_redeem_shares).
Proof.
  intros HI Hid. destruct (si_terms _ (inv_settle _ HI) _ _ Hid) as [].
  cbn [amt deposit_Request redeem_Request] in *. split; [|lia].
  destruct te_basis as (?&?&?&?&?&?). unfold fits, share_units in *; cbn in *.
  apply request_totals_ok; [apply HI| |]; cbn in *; lia.
Qed.

Lemma totals_of_current s e :
  Inv s -> s.(epoch) = Some e ->
  request_totals s e.(ep_id) = Ok (epoch_totals s e.(ep_id)) /\
  epoch_sum s.(deposit_requests) e.(ep_id) dr_assets = e.(ep_pending_deposit_assets) /\
  epoch_sum s.(redeem_requests) e.(ep_id) rr_shares = e.(ep_pending_redeem_shares).
Proof.
  intros HI He. destruct (si_epoch _ (inv_settle _ HI) _ He) as [].
  cbn [amt deposit_Request redeem_Request] in *. split; [|lia].
  apply request_totals_ok; [apply HI| |]; cbn in *; lia.
Qed.

Lemma epoch_sum_unclaimed_nonneg {R} `{Request R} outcomes cur (m : gmap RequestKey R) e g :
  book_ok outcomes cur m -> (forall r, 0 <= amt r -> 0 <= g r) ->
  0 <= epoch_sum m e (unclaimed g).
Proof.
  intros Hm Hg. apply epoch_sum_nonneg. intros k r Hk _. apply unclaimed_le, Hg.
  by eapply book_ok_amt_nonneg.
Qed.

Lemma refund_owed_nonneg {R} `{Request R} outcomes cur (m : gmap RequestKey R) id o :
  book_ok outcomes cur m -> 0 <= refund_owed m id o.
Proof. intros Hm. destruct o; cbn; [done|]. by eapply epoch_sum_unclaimed_nonneg. Qed.

Lemma escrow_step_ok s id o a b :
  Inv s -> s.(epochs) !! id = Some o ->
  a + refund_owed s.(deposit_requests) id o <= u128_max ->
  b + refund_owed s.(redeem_requests) id o <= u128_max ->
  escrow_step s (a, b) (id, o) =
    Ok (a + refund_owed s.(deposit_requests) id o, b + refund_owed s.(redeem_requests) id o).
Proof.
  intros HI Hid Ha Hb. destruct o as [t|t]; cbn in *; [f_equal; f_equal; lia|].
  destruct (totals_of_aborted s id t HI Hid) as (-> & Hd & Hr). cbn.
  rewrite !negb_eqb by done. cbn. by rewrite !amount_add_ok by done.
Qed.

Lemma check_escrow_backing_ok s : Inv s -> supply_fits s -> check_escrow_backing s = Ok tt.
Proof.
  intros HI Hfit. pose proof (inv_asset_bounds s HI) as [].
  pose proof (inv_type _ HI) as Ht. pose proof (inv_asset _ HI) as Ha.
  pose proof (inv_share _ HI) as Hs. pose proof (accounts_shares_nonneg _ Ht). destruct Ht.
  pose proof (inv_settle _ HI) as [_ _ _ Hesc Hescr _ _].
  unfold supply_fits, AssetInv, ShareInv, issued, settled_sum in *.
  unfold check_escrow_backing.
  match goal with |- (match ?m with _ => _ end) = _ =>
    assert (m = Ok (current_deposits s.(epoch), current_redeems s.(epoch))) as -> end.
  { destruct (epoch s) as [e|] eqn:He; [|done].
    pose proof (current_unsettled s e (inv_book _ HI) He) as ->.
    rewrite bool_decide_false by (by intros []).
    destruct (totals_of_current s e HI He) as (-> & Hd & Hr). cbn.
    rewrite !negb_eqb by done. cbn. by rewrite Hd, Hr. }
  cbn beta iota.
  rewrite (try_fold_map2 Z.le _ (refund_owed s.(deposit_requests)) (refund_owed s.(redeem_requests))
    u128_max u128_max); [|..|lia|lia].
  - cbn beta iota. rewrite !negb_eqb by lia. done.
  - intros id o Ho. destruct (inv_book _ HI). split; by eapply refund_owed_nonneg.
  - intros. by apply escrow_step_ok.
Qed.

(** * Claims *)

Lemma epoch_sum_counts_nonneg {R} `{Request R} (m : gmap RequestKey R) e :
  0 <= epoch_sum m e counts.
Proof. apply epoch_sum_nonneg. intros k r _ _. unfold counts. by destruct (amt r =? 0). Qed.

(** What a finalized epoch pays to all its redeemers is at most what it holds. *)
Lemma redeem_assets_le_total c D R id t :
  TermsInv c D R id t -> 0 <= t.(et_redeem_assets) <= t.(et_total_assets).
Proof.
  intros Ht. pose proof (TermsInv_nonneg _ _ _ _ _ Ht) as [_ ?]. destruct Ht.
  destruct te_basis as (?&?&?&?&?&?). split; [done|]. rewrite te_paid.
  pose proof (virtual_shares_for_Ok _ _ _ te_virtual_shares).
  unfold share_units, asset_units in *; cbn in *. rewrite te_virtual_assets in *.
  assert (et_redeem_shares t * (et_total_assets t + 1) / (et_total_supply t + et_virtual_shares t)
    < et_total_assets t + 1); [|lia].
  apply Z.div_lt_upper_bound; nia.
Qed.

Lemma entitlements_of_finalized s id t :
  Inv s -> s.(epochs) !! id = Some (Finalized t) ->
  entitlements s id t = Ok (epoch_entitlements s id t).
Proof.
  intros HI Hid. pose proof (si_terms _ (inv_settle _ HI) _ _ Hid) as Ht.
  destruct (inv_book _ HI) as [HD HR _].
  pose proof (TermsInv_dust _ _ _ _ _ _ _ HD HR Ht) as [? ?].
  pose proof (redeem_assets_le_total _ _ _ _ _ Ht). destruct Ht.
  apply entitlements_ok; [apply HI|done|lia|].
  destruct te_basis as (?&?&?&?&?&?). unfold asset_units in *; cbn in *. lia.
Qed.

Lemma check_dust_ok aggregate parts dust count :
  0 <= count -> dust = aggregate - parts -> 0 <= dust <= Z.max 0 (count - 1) ->
  check_dust aggregate parts dust count = Ok tt.
Proof.
  intros Hc -> Hd. unfold check_dust, checked_sub, saturating_sub. case_ltb; [lia|].
  destruct (Z.leb_spec parts aggregate); [|lia]. cbn.
  rewrite negb_eqb by done. cbn. case_ltb; [lia|done].
Qed.

Lemma deposit_owed_parts s id t :
  Inv s -> s.(epochs) !! id = Some (Finalized t) ->
  0 <= epoch_sum s.(deposit_requests) id (unclaimed (deposit_entitlement t)) /\
  0 <= t.(et_deposit_dust) /\
  0 <= epoch_sum s.(redeem_requests) id (unclaimed (redeem_entitlement t)) /\
  0 <= t.(et_redeem_dust).
Proof.
  intros HI Hid. pose proof (si_terms _ (inv_settle _ HI) _ _ Hid) as Ht.
  destruct (inv_book _ HI) as [HD HR _].
  pose proof (TermsInv_dust _ _ _ _ _ _ _ HD HR Ht) as [? ?]. destruct Ht.
  split_and!; try lia; eapply epoch_sum_unclaimed_nonneg; try done; intros r Hr.
  - by apply deposit_entitlement_nonneg.
  - by apply redeem_entitlement_nonneg.
Qed.

Lemma owed_nonneg s id o :
  Inv s -> s.(epochs) !! id = Some o ->
  0 <= deposit_owed s.(deposit_requests) id o /\ 0 <= redeem_owed s.(redeem_requests) id o.
Proof.
  intros HI Hid. destruct o as [t|t]; cbn; [|lia].
  pose proof (deposit_owed_parts s id t HI Hid). lia.
Qed.

Lemma claim_step_ok s id o a b :
  Inv s -> s.(epochs) !! id = Some o ->
  a + deposit_owed s.(deposit_requests) id o <= u128_max ->
  b + redeem_owed s.(redeem_requests) id o <= u128_max ->
  claim_step s (a, b) (id, o) =
    Ok (a + deposit_owed s.(deposit_requests) id o, b + redeem_owed s.(redeem_requests) id o).
Proof.
  intros HI Hid Ha Hb. destruct o as [t|t]; cbn in *; [|f_equal; f_equal; lia].
  rewrite (entitlements_of_finalized s id t HI Hid).
  destruct (totals_of_finalized s id t HI Hid) as (-> & _ & _). cbn.
  pose proof (si_terms _ (inv_settle _ HI) _ _ Hid) as Ht.
  destruct (inv_book _ HI) as [HD HR _].
  pose proof (TermsInv_dust _ _ _ _ _ _ _ HD HR Ht) as [? ?].
  pose proof (deposit_owed_parts s id t HI Hid) as (?&?&?&?). destruct Ht.
  rewrite !check_dust_ok by (done || apply epoch_sum_counts_nonneg).
  repeat (rewrite amount_add_ok by lia; cbn). f_equal. f_equal; lia.
Qed.

Lemma check_claim_backing_ok s : Inv s -> supply_fits s -> check_claim_backing s = Ok tt.
Proof.
  intros HI Hfit. pose proof (inv_asset_bounds s HI) as [].
  pose proof (inv_type _ HI) as Ht. pose proof (inv_asset _ HI) as Ha.
  pose proof (inv_share _ HI) as Hs. pose proof (accounts_shares_nonneg _ Ht). destruct Ht.
  pose proof (inv_settle _ HI) as [_ _ _ _ _ Hcl Hres].
  unfold supply_fits, AssetInv, ShareInv, issued, settled_sum in *.
  unfold check_claim_backing.
  rewrite (try_fold_map2 Z.le _ (deposit_owed s.(deposit_requests)) (redeem_owed s.(redeem_requests))
    u128_max u128_max); [|..|lia|lia].
  - cbn beta iota. rewrite !negb_eqb by lia. done.
  - intros id o Ho. by apply owed_nonneg.
  - intros. by apply claim_step_ok.
Qed.

(** * Terms *)

Lemma terms_step_ok s id o :
  Inv s -> s.(epochs) !! id = Some o -> terms_step s tt (id, o) = Ok tt.
Proof.
  intros HI Hid. destruct o as [t|t]; [|done]. cbn.
  destruct (totals_of_finalized s id t HI Hid) as (-> & Hd & Hr).
  pose proof (si_terms _ (inv_settle _ HI) _ _ Hid) as Ht.
  pose proof (redeem_assets_le_total _ _ _ _ _ Ht) as Hle. destruct Ht.
  assert (te_basis' := te_basis). destruct te_basis' as (?&?&?&?&?&?).
  unfold asset_units, share_units in *; cbn in *.
  rewrite negb_eqb by done. unfold shares_for, assets_for.
  rewrite assets_to_shares_ok; [|done|done|unfold share_units, asset_units; cbn; lia].
  cbn. rewrite negb_eqb by (unfold share_units, asset_units; cbn; lia).
  rewrite shares_to_assets_ok;
    [|done|unfold fits; lia|unfold share_units, asset_units; cbn; lia].
  cbn. rewrite negb_eqb by (unfold share_units, asset_units; cbn; lia).
  case_ltb; [lia|]. by rewrite !negb_eqb by done.
Qed.

Lemma try_fold_unit {E A} (step : unit -> A -> result E unit) l :
  (forall x, x ∈ l -> step tt x = Ok tt) -> try_fold step tt l = Ok tt.
Proof.
  induction l as [|x l IH]; intros Hs; [done|]. cbn. rewrite Hs by set_solver. apply IH. set_solver.
Qed.

Lemma check_finalized_terms_ok s : Inv s -> check_finalized_terms s = Ok tt.
Proof.
  intros HI. apply try_fold_unit. intros [id o] Hin. apply elem_of_btree_iter in Hin.
  by apply terms_step_ok.
Qed.

(** Whatever the price rule says, every other rule accepts the state. *)
Lemma check_invariants_price s :
  Inv s -> supply_fits s -> check_invariants s = check_price_never_falls s.
Proof.
  intros HI Hfit. unfold check_invariants.
  rewrite check_asset_conservation_ok, check_nav_composition_ok, check_share_conservation_ok,
    check_burned_shares_ok, check_request_lifecycle_ok, check_escrow_backing_ok,
    check_claim_backing_ok, check_finalized_terms_ok by done.
  by destruct (check_price_never_falls s) as [[]|].
Qed.
