(* ===== verification/AccountingPrice.v ===== *)
(** The share price.  Settlement rounds in favour of the vault, so the price
    an epoch settles at is never above the price left behind.  While nothing
    has been allocated to the remote leg the settled prices therefore only
    rise, and [check_invariants] accepts every state. *)

From Stdlib Require Import ZArith Lia.
From S2P Require Import Prelude AccountingMath AccountingState AccountingTransition.
From S2P Require Import AccountingInvariant AccountingBook AccountingSafety.
From S2P Require Import AccountingFigures.
From S2P Require Import AccountingPreserve AccountingChecks.

(** [price_le b c]: the price of [b] is at most the price of [c]. *)
Definition price_le (b c : PricingBasis) : Prop :=
  asset_units b * share_units c <= asset_units c * share_units b.

#[export] Instance price_le_refl : Reflexive price_le.
Proof. intros b. unfold price_le. lia. Qed.

Lemma price_le_trans b c d :
  0 < share_units c -> 0 <= share_units b -> 0 <= share_units d ->
  price_le b c -> price_le c d -> price_le b d.
Proof.
  unfold price_le. generalize (asset_units b) (asset_units c) (asset_units d)
    (share_units b) (share_units c) (share_units d). intros ab ac ad sb sc sd ? ? ? H1 H2.
  apply (Z.mul_le_mono_pos_l _ _ sc); [done|].
  transitivity (ac * sb * sd); [nia|]. transitivity (ad * sc * sb); nia.
Qed.

(** The code's test decides the order exactly on bases that fit. *)
Lemma price_is_non_decreasing_spec b c :
  basis_ok b -> basis_ok c ->
  price_is_non_decreasing b c = Ok (asset_units b * share_units c <=? asset_units c * share_units b).
Proof.
  intros (?&?&?&?&?&?) (?&?&?&?&?&?). unfold price_is_non_decreasing, wide_sides, saturating_add.
  unfold asset_units, share_units in *.
  assert (u128_max * u128_max <= u512_max) as Hw by done.
  assert (u128_max <= u512_max) by done.
  rewrite !Z.min_r by lia. unfold checked_mul.
  repeat match goal with |- context [?x * ?y <=? u512_max] =>
    destruct (Z.leb_spec (x * y) u512_max); [cbn|nia] end.
  done.
Qed.

(** * One settlement *)

(** The basis left behind by settling at [A] assets for [S] shares. *)
Lemma settlement_raises_price A S deposits minted redeemed paid :
  0 < A -> 0 < S -> 0 <= deposits -> 0 <= redeemed ->
  minted = deposits * S / A -> paid = redeemed * A / S ->
  A * (S + minted - redeemed) <= (A - paid + deposits) * S.
Proof.
  intros HA HS Hd Hr Hm Hp.
  pose proof (Z.mul_div_le (deposits * S) A HA).
  pose proof (Z.mul_div_le (redeemed * A) S HS). subst. nia.
Qed.

(** * Runs without a remote leg *)

(** The price of the vault as a basis, at the virtual amounts of its configuration. *)
Definition current_basis (s : State) (virtual_shares : Z) : PricingBasis :=
  mkPricingBasis (managed_nav s) s.(total_share_supply) 1 virtual_shares.

Record LocalInv (s : State) : Prop := {
  lo_exposure : has_remote_exposure s = false;
  lo_cycle : s.(active_cycle) = CycleNone;
  lo_impaired : s.(impaired_transport) = 0;
  lo_idle : s.(buckets).(idle_backing) <= u128_max;
  lo_order : forall i t j u, i <= j ->
    s.(epochs) !! i = Some (Finalized t) -> s.(epochs) !! j = Some (Finalized u) ->
    price_le (terms_basis t) (terms_basis u);
  lo_current : forall i t, s.(epochs) !! i = Some (Finalized t) ->
    price_le (terms_basis t) (current_basis s t.(et_virtual_shares));
}.

Lemma exposure_false s :
  has_remote_exposure s = false ->
  s.(buckets).(outbound_in_transit) = 0 /\ s.(buckets).(accepted_remote_value) = 0 /\
  s.(buckets).(inbound_in_transit) = 0 /\ s.(remote_principal_cap) = 0 /\
  s.(pending_recall_principal) = 0.
Proof. unfold has_remote_exposure, is_zero. intros H. bool_to_prop. done. Qed.

Lemma local_nav s :
  has_remote_exposure s = false -> 0 <= s.(buckets).(idle_backing) <= u128_max ->
  managed_nav s = s.(buckets).(idle_backing).
Proof.
  intros (?&?&?&_)%exposure_false ?. unfold managed_nav, managed_backing, saturating_add. lia.
Qed.

(** A step that touches neither settled terms nor what backs the price. *)
Lemma LocalInv_frame s s' :
  LocalInv s -> has_remote_exposure s' = false ->
  s'.(active_cycle) = s.(active_cycle) -> s'.(impaired_transport) = s.(impaired_transport) ->
  s'.(buckets).(idle_backing) = s.(buckets).(idle_backing) ->
  s'.(total_share_supply) = s.(total_share_supply) ->
  (forall i t, s'.(epochs) !! i = Some (Finalized t) -> s.(epochs) !! i = Some (Finalized t)) ->
  LocalInv s'.
Proof.
  intros [] Hex Hc Hi Hid Hs He.
  assert (managed_nav s' = managed_nav s) as Hnav.
  { apply exposure_false in Hex as (?&?&?&_). apply exposure_false in lo_exposure0 as (?&?&?&_).
    unfold managed_nav, managed_backing. congruence. }
  constructor; [done|congruence|congruence|congruence|eauto|].
  intros i t Hit. unfold current_basis. rewrite Hnav, Hs. by eapply lo_current0, He.
Qed.

Definition is_begin_allocate (op : Operation) : bool :=
  match op with BeginAllocate _ _ _ => true | _ => false end.

(** The idle bucket is written through a checked addition. *)
Lemma finalize_idle_fits s s' :
  finalize_epoch s = Ok s' -> s'.(buckets).(idle_backing) <= u128_max.
Proof. unfold finalize_epoch. cbv zeta. intros Hf. invert_amounts. cbn. lia. Qed.

(** Without exposure an epoch settles at the current price. *)
Lemma settlement_basis s e t :
  Settlement s e t -> has_remote_exposure s = false ->
  terms_basis t = current_basis s t.(et_virtual_shares).
Proof.
  intros [_ _ _ Hassets Hsup _ _ Hterms] Hex. unfold settlement_assets in Hassets.
  rewrite Hex in Hassets. injection Hassets as Hassets. destruct Hterms.
  unfold terms_basis, current_basis. congruence.
Qed.

Lemma settled_price_rises s e t :
  Inv s -> Settlement s e t -> has_remote_exposure s = false ->
  s.(buckets).(idle_backing) <= u128_max ->
  (settled_state s e t).(buckets).(idle_backing) <= u128_max ->
  price_le (terms_basis t) (current_basis (settled_state s e t) t.(et_virtual_shares)).
Proof.
  intros HI Hst Hex Hid Hid'. pose proof (settlement_basis s e t Hst Hex) as Hbasis.
  destruct Hst as [_ _ _ _ Hsup _ _ Hterms].
  assert (0 <= s.(buckets).(idle_backing)) as Hpos by apply (inv_type _ HI).
  pose proof (redeem_assets_le_total _ _ _ _ _ Hterms) as Hle.
  destruct Hterms as [_ (?&?&?&?&_) Hv _ _ _ Hdu [Hr0 _] Hm _ Hp _ _].
  injection Hbasis as Hta _ _. rewrite local_nav in Hta by done.
  assert (managed_nav (settled_state s e t) =
    et_total_assets t - et_redeem_assets t + et_deposit_assets t) as Hnav.
  { rewrite local_nav; [cbn; lia|exact Hex|]. split; [cbn; unfold fits in *; lia|exact Hid']. }
  unfold price_le, asset_units, share_units in *; cbn in *. rewrite Hv in *.
  rewrite Hnav, <-Hsup.
  pose proof (settlement_raises_price (et_total_assets t + 1)
    (et_total_supply t + et_virtual_shares t) (et_deposit_assets t) (et_minted_shares t)
    (et_redeem_shares t) (et_redeem_assets t) ltac:(lia) ltac:(lia) ltac:(unfold fits in *; lia)
    Hr0 Hm Hp). nia.
Qed.

(** All epochs of one vault price at the same virtual shares. *)
Lemma same_virtual_shares s e t i u :
  Inv s -> Settlement s e t -> s.(epochs) !! i = Some (Finalized u) ->
  et_virtual_shares u = et_virtual_shares t /\ 0 < share_units (terms_basis u).
Proof.
  intros HI [_ _ _ _ _ _ _ Hterms] Hu. apply (si_terms _ (inv_settle _ HI)) in Hu as [].
  destruct Hterms. destruct te_basis as (?&?&?&?&_). unfold share_units; cbn in *.
  split; [congruence|lia].
Qed.

Lemma finalize_local s s' :
  Inv s -> LocalInv s -> finalize_epoch s = Ok s' -> LocalInv s'.
Proof.
  intros HI HL Hf. pose proof (finalize_idle_fits s s' Hf) as Hidle.
  pose proof (finalize_epoch_inv s s' HI Hf) as HI'.
  apply finalize_epoch_spec in Hf as (e & t & Hst & ->); [|done].
  destruct HL as [Hex Hc Him Hid Hord Hcur].
  pose proof (settled_price_rises s e t HI Hst Hex Hid Hidle) as Hraise.
  assert (forall i u, s.(epochs) !! i = Some (Finalized u) ->
    price_le (terms_basis u) (terms_basis t)) as Hbelow.
  { intros i u Hu. destruct (same_virtual_shares s e t i u HI Hst Hu) as [Hv _].
    rewrite (settlement_basis s e t Hst Hex), <-Hv. eauto. }
  pose proof (st_epoch _ _ _ Hst) as Hep.
  constructor; [exact Hex|exact Hc|exact Him|exact Hidle| |].
  - intros i u j w Hij Hi Hj. cbn in Hi, Hj.
    apply lookup_insert_Some in Hi as [[<- Hi]|[? Hi]], Hj as [[<- Hj]|[? Hj]]; simplify_eq; eauto.
    + reflexivity.
    + pose proof (bi_ids _ (inv_book _ HI) j ltac:(eauto)) as Hlt. rewrite Hep in Hlt. lia.
  - intros i u Hi. cbn in Hi. apply lookup_insert_Some in Hi as [[<- Hi]|[? Hi]]; simplify_eq; [done|].
    destruct (same_virtual_shares s e t i u HI Hst Hi) as [Hv Hpos]. rewrite Hv.
    pose proof (te_basis _ _ _ _ _ (st_terms _ _ _ Hst)) as (?&?&?&?&_).
    apply price_le_trans with (terms_basis t); [| | |eauto|done]; unfold share_units in *; [lia|lia|].
    assert (0 <= total_share_supply (settled_state s e t)) by apply (inv_type _ HI').
    cbn in *; lia.
Qed.

(** Closes a step that leaves the price alone. *)
Ltac local_frame HL Hex :=
  apply (LocalInv_frame _ _ HL); [unfold has_remote_exposure in *; cbn in *; exact Hex|done..|];
  intros i t Hit; exact Hit.

Lemma abort_local s actor s' :
  LocalInv s -> abort_epoch s actor = Ok s' -> LocalInv s'.
Proof.
  intros HL Hop. pose proof (lo_exposure _ HL) as Hex. unfold abort_epoch in Hop. invert_amounts.
  apply (LocalInv_frame _ _ HL); [exact Hex|done..|].
  intros i t Hit. cbn in Hit. by apply lookup_insert_Some in Hit as [[_ ?]|[_ ?]].
Qed.

Lemma observe_local s x s' :
  Inv s -> LocalInv s -> is_u128 x -> observe_inbound s x = Ok s' -> LocalInv s'.
Proof.
  intros HI HL Hx Hop. pose proof (lo_exposure _ HL) as Hex.
  apply exposure_false in Hex as Hz. destruct Hz as (_ & _ & Hin & _ & Hpend).
  apply observe_inbound_spec in Hop as (s1 & rest & Hatt & Hne & Hcases); [|lia|apply Hx].
  rewrite inbound_attributed_none in Hatt by (done || apply Hx). injection Hatt as <- <-.
  destruct Hcases as [[-> ->]|[(_ & Hp & _)|(_ & _ & ->)]]; [done|done|].
  local_frame HL Hex.
Qed.

Lemma valuation_local s v l s' :
  LocalInv s -> is_u128 v -> apply_remote_valuation s v l = Ok s' -> LocalInv s'.
Proof.
  intros HL Hv Hop. pose proof (lo_exposure _ HL) as Hex. pose proof (lo_cycle _ HL) as Hc.
  apply exposure_false in Hex as Hz. destruct Hz as (_ & Hacc & _ & Hcap & _).
  unfold apply_remote_valuation in Hop. cbv zeta in Hop. invert_amounts.
  destruct (close_requested s); invert_amounts; [local_frame HL Hex|].
  rewrite bool_decide_false by congruence. unfold set_accepted. cbn.
  apply (LocalInv_frame _ _ HL); [|done..|done].
  unfold has_remote_exposure, is_zero in *; cbn in *. rewrite Hcap, Hacc in *. cbn in *.
  destruct (v <? 0) eqn:Hneg; [bool_to_prop; unfold fits in *; lia|exact Hex].
Qed.

(** Every operation but [BeginAllocate] keeps a local vault local. *)
Lemma apply_local s op s' :
  Inv s -> LocalInv s -> op_typed op -> is_begin_allocate op = false ->
  apply s op = Ok s' -> LocalInv s'.
Proof.
  intros HI HL Hty Hop Happ. pose proof (lo_exposure _ HL) as Hex.
  pose proof (lo_cycle _ HL) as Hcyc. pose proof (lo_impaired _ HL) as Him.
  destruct op; cbn in Happ, Hty; try discriminate Hop.
  all: first
    [ by apply (finalize_local s) | by apply (abort_local s actor)
    | by apply (observe_local s amount) | by apply (valuation_local s reported_value newly_realized_loss); [|tauto|]
    | idtac ].
  all: unfold request_deposit, cancel_deposit, request_redeem, cancel_redeem, cutoff_epoch,
    claim_deposit, claim_redeem, claim_aborted_deposit, claim_aborted_redeem, open_next_epoch,
    pause, unpause, freeze, complete_allocation, begin_recall, accept_recall_sent,
    lock_remote_valuation, request_close, settle_close, begin_recover, settle_recover, epoch_mut
    in Happ; cbv zeta in Happ.
  all: try (rewrite Hcyc in Happ; cbn in Happ).
  all: try (destruct (close_requested s); cbn in Happ).
  all: invert_amounts; try discriminate; try local_frame HL Hex.
  all: exfalso; apply exposure_false in Hex as (?&?&?&?&?); unfold fits in *; lia.
Qed.

(** * The price rule *)

(** A settled entry and the terms after it. *)
Definition entry_price_le (p q : Z * EpochOutcome) : Prop :=
  forall t u, outcome_finalized p.2 = Some t -> outcome_finalized q.2 = Some u ->
    price_le (terms_basis t) (terms_basis u).

Definition entry_basis_ok (p : Z * EpochOutcome) : Prop :=
  forall t, outcome_finalized p.2 = Some t -> basis_ok (terms_basis t).

Lemma price_fold_ok l earlier :
  StronglySorted entry_price_le l -> Forall entry_basis_ok l ->
  (forall t, earlier = Some t -> basis_ok (terms_basis t) /\
    Forall (fun q => forall u, outcome_finalized q.2 = Some u ->
      price_le (terms_basis t) (terms_basis u)) l) ->
  is_ok (try_fold price_step earlier l) = true.
Proof.
  revert earlier. induction l as [|p l IH]; intros earlier Hs Hb He; [done|]. cbn [try_fold].
  apply StronglySorted_inv in Hs as [Hs Hp]. apply Forall_cons in Hb as [Hbp Hb].
  unfold price_step at 1. destruct (outcome_finalized p.2) as [t|] eqn:Ht.
  - assert (is_ok (try_fold price_step (Some t) l) = true) as Hrest.
    { apply IH; [done|done|]. intros t' [= <-]. split; [by apply Hbp|].
      eapply Forall_impl; [exact Hp|]. intros q Hq u Hu. by apply Hq. }
    destruct earlier as [prev|]; [|exact Hrest].
    destruct (He prev eq_refl) as [Hbprev [Hle _]%Forall_cons].
    rewrite price_is_non_decreasing_spec by (done || by apply Hbp). cbn [lift].
    specialize (Hle t Ht). unfold price_le in Hle. apply Z.leb_le in Hle. by rewrite Hle.
  - apply IH; [done|done|]. intros t He'. destruct (He t He') as [? [_ ?]%Forall_cons]. done.
Qed.

Lemma check_price_local s : Inv s -> LocalInv s -> check_price_never_falls s = Ok tt.
Proof.
  intros HI HL. unfold check_price_never_falls. case_match; [done|].
  assert (is_ok (try_fold price_step None (btree_iter Z.le s.(epochs))) = true) as Hok.
  { apply price_fold_ok; [| |done].
    - assert (forall x, x ∈ btree_iter Z.le s.(epochs) -> s.(epochs) !! x.1 = Some x.2) as Hin.
      { intros [k v] Hx. by apply elem_of_btree_iter in Hx. }
      pose proof (StronglySorted_btree_iter Z.le s.(epochs)) as Hsort. revert Hin Hsort.
      generalize (btree_iter Z.le (epochs s)). intros l. induction l as [|p l IH]; intros Hin Hsort; [constructor|].
      apply StronglySorted_inv in Hsort as [Hsort Hp]. constructor; [apply IH; set_solver|].
      apply Forall_forall. intros q Hq t u Ht Hu. rewrite Forall_forall in Hp.
      pose proof (Hin p ltac:(set_solver)) as Hlp. pose proof (Hin q ltac:(set_solver)) as Hlq.
      destruct p as [i [?|?]], q as [j [?|?]]; cbn in *; simplify_eq.
      apply (lo_order _ HL i t j u); [exact (Hp (j, Finalized u) Hq)|done|done].
    - apply Forall_forall. intros [k [u|u]] Hk t Ht; cbn in *; simplify_eq.
      apply elem_of_btree_iter in Hk. by apply (si_terms _ (inv_settle _ HI)) in Hk as []. }
  destruct (try_fold price_step None _); [done|discriminate].
Qed.

(** States reached without ever allocating to the remote leg. *)
Inductive local_reachable (s0 : State) : State -> Prop :=
| local_start : local_reachable s0 s0
| local_step s op s' :
    local_reachable s0 s -> op_typed op -> is_begin_allocate op = false ->
    apply s op = Ok s' -> local_reachable s0 s'.

Lemma state_new_local g s : genesis_typed g -> state_new g = Ok s -> LocalInv s.
Proof.
  intros _ Hn. unfold state_new in Hn. cbv zeta in Hn. invert_amounts.
  destruct a1 as [accts supply]. invert_amounts.
  constructor; try done; cbn; intros; simplify_map_eq.
Qed.

Lemma local_reachable_inv s0 s :
  Inv s0 -> LocalInv s0 -> local_reachable s0 s -> Inv s /\ LocalInv s.
Proof.
  intros HI HL. induction 1 as [|s op s' _ [IHI IHL] Hty Hop Happ]; [done|]. split.
  - exact (apply_inv s op s' IHI Hty Happ).
  - exact (apply_local s op s' IHI IHL Hty Hop Happ).
Qed.

Lemma local_run s0 s ops s' :
  local_reachable s0 s -> Forall op_typed ops -> forallb (fun op => negb (is_begin_allocate op)) ops = true ->
  run s ops = Ok s' -> local_reachable s0 s'.
Proof.
  revert s. induction ops as [|op ops IH]; intros s Hs Hty Hop Hrun; cbn in Hrun; [by simplify_eq|].
  apply Forall_cons in Hty as [? ?]. cbn in Hop. bool_to_prop.
  destruct (apply s op) as [s1|] eqn:Happ; [|done].
  apply IH with s1; [|done..]. by apply (local_step s0 s op s1).
Qed.
