(* ===== verification/AccountingClaims.v ===== *)
(** What the vault owes can always be paid: the four claim handlers of
    [transition.rs] succeed on every unconsumed claim of a state that
    satisfies the invariant, and the [outstanding_*] figures of [state.rs]
    are what the buckets hold for them. *)

From Stdlib Require Import ZArith Lia.
From S2P Require Import Prelude AccountingMath AccountingState AccountingTransition.
From S2P Require Import AccountingInvariant AccountingBook AccountingSafety.
From S2P Require Import AccountingFigures.
From S2P Require Import AccountingPreserve AccountingChecks.

(** * Each claim is covered *)

(** One term is at most the sum, over the settled epochs, of nonnegative terms. *)
Lemma settled_sum_ge outcomes f e o :
  outcomes !! e = Some o -> (forall id o', outcomes !! id = Some o' -> 0 <= f id o') ->
  f e o <= settled_sum outcomes f.
Proof. intros He Hf. by apply msum_lookup_le. Qed.

Lemma unclaimed_lookup_le {R} `{Request R} outcomes cur (m : gmap RequestKey R) k r g :
  book_ok outcomes cur m -> (forall r, 0 <= amt r -> 0 <= g r) ->
  m !! k = Some r -> claimed r = false ->
  g r <= epoch_sum m (rk_epoch k) (unclaimed g).
Proof.
  intros Hm Hg Hk Hc. replace (g r) with (unclaimed g r) by (unfold unclaimed; by rewrite Hc).
  apply epoch_sum_lookup_le; [|done]. intros k' r' Hk'.
  apply unclaimed_le, Hg. by eapply book_ok_amt_nonneg.
Qed.

Lemma deposit_claim_covered s a e t r :
  Inv s -> s.(epochs) !! e = Some (Finalized t) ->
  s.(deposit_requests) !! mkRequestKey e a = Some r -> dr_claimed r = false ->
  0 <= deposit_entitlement t r <= s.(claimable_deposit_shares).
Proof.
  intros HI He Hk Hc. pose proof (si_terms _ (inv_settle _ HI) _ _ He) as Ht.
  destruct (inv_book _ HI) as [HD _ _].
  assert (forall r', 0 <= dr_assets r' -> 0 <= deposit_entitlement t r') as Hnn
    by (intros; apply deposit_entitlement_nonneg; [apply Ht|done]).
  split; [exact (Hnn r (book_ok_amt_nonneg _ _ _ _ _ HD Hk))|].
  rewrite (si_claimable _ (inv_settle _ HI)).
  transitivity (deposit_owed s.(deposit_requests) e (Finalized t)).
  - pose proof (unclaimed_lookup_le _ _ _ _ _ _ HD Hnn Hk Hc) as Hle. cbn in Hle |- *.
    pose proof (deposit_owed_parts s e t HI He). lia.
  - apply settled_sum_ge; [done|]. intros id o Ho. by apply owed_nonneg.
Qed.

Lemma redeem_claim_covered s a e t r :
  Inv s -> s.(epochs) !! e = Some (Finalized t) ->
  s.(redeem_requests) !! mkRequestKey e a = Some r -> rr_claimed r = false ->
  0 <= redeem_entitlement t r <= s.(buckets).(claim_reserve).
Proof.
  intros HI He Hk Hc. pose proof (si_terms _ (inv_settle _ HI) _ _ He) as Ht.
  destruct (inv_book _ HI) as [_ HR _].
  assert (forall r', 0 <= rr_shares r' -> 0 <= redeem_entitlement t r') as Hnn
    by (intros; apply redeem_entitlement_nonneg; [apply Ht|done]).
  split; [exact (Hnn r (book_ok_amt_nonneg _ _ _ _ _ HR Hk))|].
  rewrite (si_reserve _ (inv_settle _ HI)).
  transitivity (redeem_owed s.(redeem_requests) e (Finalized t)).
  - pose proof (unclaimed_lookup_le _ _ _ _ _ _ HR Hnn Hk Hc) as Hle. cbn in Hle |- *.
    pose proof (deposit_owed_parts s e t HI He). lia.
  - apply settled_sum_ge; [done|]. intros id o Ho. by apply owed_nonneg.
Qed.

Lemma refund_covered {R} `{Request R} outcomes cur (m : gmap RequestKey R) k r t :
  book_ok outcomes cur m -> outcomes !! rk_epoch k = Some (Aborted t) ->
  m !! k = Some r -> claimed r = false ->
  0 <= amt r <= settled_sum outcomes (refund_owed m).
Proof.
  intros Hm He Hk Hc. split; [by eapply book_ok_amt_nonneg|].
  transitivity (refund_owed m (rk_epoch k) (Aborted t)).
  - by apply (unclaimed_lookup_le outcomes cur).
  - apply settled_sum_ge; [done|]. intros id o _. by eapply refund_owed_nonneg.
Qed.

(** * Paying *)

(** The state after a deposit claim of [r] under the terms [t]. *)
Definition deposit_claimed_state (s : State) (a : AccountId) (e : EpochId) (t : EpochTerms)
  (r : DepositRequest) : State :=
  let s := s <| claimable_deposit_shares := s.(claimable_deposit_shares) - deposit_entitlement t r |> in
  let s := set_account_shares s a ((account s a).(acc_shares) + deposit_entitlement t r) in
  s <| deposit_requests ::= alter (fun r => r <| dr_claimed := true |>) (mkRequestKey e a) |>.

Definition redeem_claimed_state (s : State) (a : AccountId) (e : EpochId) (t : EpochTerms)
  (r : RedeemRequest) : State :=
  let s := s <| buckets, claim_reserve := s.(buckets).(claim_reserve) - redeem_entitlement t r |> in
  let s := set_account_assets s a ((account s a).(acc_assets) + redeem_entitlement t r) in
  s <| redeem_requests ::= alter (fun r => r <| rr_claimed := true |>) (mkRequestKey e a) |>.

Definition deposit_refunded_state (s : State) (a : AccountId) (e : EpochId) (r : DepositRequest)
  : State :=
  let s := s <| buckets, pending_deposit_escrow := s.(buckets).(pending_deposit_escrow) - r.(dr_assets) |> in
  let s := set_account_assets s a ((account s a).(acc_assets) + r.(dr_assets)) in
  s <| deposit_requests ::= alter (fun r => r <| dr_claimed := true |>) (mkRequestKey e a) |>.

Definition redeem_refunded_state (s : State) (a : AccountId) (e : EpochId) (r : RedeemRequest)
  : State :=
  let s := s <| escrowed_redeem_shares := s.(escrowed_redeem_shares) - r.(rr_shares) |> in
  let s := set_account_shares s a ((account s a).(acc_shares) + r.(rr_shares)) in
  s <| redeem_requests ::= alter (fun r => r <| rr_claimed := true |>) (mkRequestKey e a) |>.

(** An active record carries an amount. *)
Lemma active_amt {R} `{Request R} outcomes cur (m : gmap RequestKey R) k r :
  book_ok outcomes cur m -> m !! k = Some r -> cancelled r = false -> amt r <> 0.
Proof. intros Hm Hk Hc. destruct (Hm k r Hk) as (_&_&Hz&_). rewrite Hc in Hz. by apply Z.eqb_neq. Qed.

(** What one account and the funds that pay it hold fits, because both are
    part of a conserved total. *)
Lemma share_credit_fits s a x :
  Inv s -> x <= s.(claimable_deposit_shares) + s.(escrowed_redeem_shares) ->
  (account s a).(acc_shares) + x <= u128_max.
Proof.
  intros HI Hx. pose proof (inv_type _ HI) as Ht. pose proof (inv_share _ HI) as Hs.
  pose proof (accounts_shares_le s a Ht). destruct Ht. unfold ShareInv in Hs. lia.
Qed.

Lemma asset_credit_fits s a x :
  Inv s -> supply_fits s ->
  x <= s.(buckets).(claim_reserve) + s.(buckets).(pending_deposit_escrow) ->
  (account s a).(acc_assets) + x <= u128_max.
Proof.
  intros HI Hfit Hx. pose proof (inv_type _ HI) as Ht. pose proof (inv_asset _ HI) as Ha.
  pose proof (inv_asset_bounds s HI) as []. pose proof (accounts_assets_le s a Ht). destruct Ht.
  unfold AssetInv, supply_fits in *. lia.
Qed.

Lemma claim_deposit_ok s a e t r :
  Inv s -> s.(epochs) !! e = Some (Finalized t) ->
  s.(deposit_requests) !! mkRequestKey e a = Some r ->
  dr_cancelled r = false -> dr_claimed r = false ->
  claim_deposit s a e = Ok (deposit_claimed_state s a e t r).
Proof.
  intros HI He Hk Hca Hcl. pose proof (deposit_claim_covered s a e t r HI He Hk Hcl) as Hcov.
  pose proof (si_terms _ (inv_settle _ HI) _ _ He) as Ht.
  destruct (inv_book _ HI) as [HD _ _].
  pose proof (active_amt _ _ _ _ _ HD Hk Hca) as Hne. cbn in Hne.
  pose proof (book_ok_amt _ _ _ _ _ HD Hk) as Hu. cbn in Hu.
  assert (claimable_deposit_shares s <= u128_max) as Hmax.
  { pose proof (inv_share _ HI) as Hs. pose proof (accounts_shares_nonneg s (inv_type _ HI)).
    destruct (inv_type _ HI). unfold ShareInv in Hs. lia. }
  unfold claim_deposit. rewrite (proj2 (finalized_terms_Some s e t) He). cbn [ok_or].
  rewrite Hk. cbn [ok_or]. rewrite Hca, Hcl. unfold is_zero.
  destruct (Z.eqb_spec (dr_assets r) 0); [done|].
  unfold shares_for. rewrite assets_to_shares_ok;
    [|apply Ht|done|fold (deposit_entitlement t r); lia].
  fold (deposit_entitlement t r). rewrite amount_sub_ok, amount_add_ok; [done| |lia].
  apply share_credit_fits; [done|]. destruct (inv_type _ HI). lia.
Qed.

Lemma claim_redeem_ok s a e t r :
  Inv s -> supply_fits s -> s.(epochs) !! e = Some (Finalized t) ->
  s.(redeem_requests) !! mkRequestKey e a = Some r ->
  rr_cancelled r = false -> rr_claimed r = false ->
  claim_redeem s a e = Ok (redeem_claimed_state s a e t r).
Proof.
  intros HI Hfit He Hk Hca Hcl. pose proof (redeem_claim_covered s a e t r HI He Hk Hcl) as Hcov.
  pose proof (si_terms _ (inv_settle _ HI) _ _ He) as Ht.
  destruct (inv_book _ HI) as [_ HR _].
  pose proof (active_amt _ _ _ _ _ HR Hk Hca) as Hne. cbn in Hne.
  pose proof (book_ok_amt _ _ _ _ _ HR Hk) as Hu. cbn in Hu.
  assert ((account s a).(acc_assets) + redeem_entitlement t r <= u128_max) as Hcredit.
  { apply asset_credit_fits; [done|done|]. destruct (inv_type _ HI). lia. }
  pose proof (account_nonneg s a (inv_type _ HI)).
  unfold claim_redeem. rewrite (proj2 (finalized_terms_Some s e t) He). cbn [ok_or].
  rewrite Hk. cbn [ok_or]. rewrite Hca, Hcl. unfold is_zero.
  destruct (Z.eqb_spec (rr_shares r) 0); [done|].
  unfold assets_for. rewrite shares_to_assets_ok;
    [|apply Ht|done|fold (redeem_entitlement t r); lia].
  fold (redeem_entitlement t r). by rewrite amount_sub_ok, amount_add_ok by lia.
Qed.

Lemma claim_aborted_deposit_ok s a e t r :
  Inv s -> supply_fits s -> s.(epochs) !! e = Some (Aborted t) ->
  s.(deposit_requests) !! mkRequestKey e a = Some r ->
  dr_cancelled r = false -> dr_claimed r = false ->
  claim_aborted_deposit s a e = Ok (deposit_refunded_state s a e r).
Proof.
  intros HI Hfit He Hk Hca Hcl. destruct (inv_book _ HI) as [HD _ _].
  pose proof (refund_covered _ _ _ (mkRequestKey e a) _ t HD He Hk Hcl) as Hcov. cbn in Hcov.
  pose proof (active_amt _ _ _ _ _ HD Hk Hca) as Hne. cbn in Hne.
  pose proof (si_escrow _ (inv_settle _ HI)) as Hesc.
  assert (0 <= current_deposits s.(epoch)).
  { unfold current_deposits. destruct (epoch s) eqn:Hep; [|done].
    by apply (EpochInv_pending_nonneg s e0 HI). }
  assert ((account s a).(acc_assets) + dr_assets r <= u128_max) as Hcredit.
  { apply asset_credit_fits; [done|done|]. destruct (inv_type _ HI). lia. }
  unfold claim_aborted_deposit, aborted_terms. rewrite He. cbn [mbind option_bind outcome_aborted].
  rewrite bool_decide_false by done. rewrite Hk. cbn [ok_or]. rewrite Hca, Hcl. unfold is_zero.
  destruct (Z.eqb_spec (dr_assets r) 0); [done|].
  by rewrite amount_sub_ok, amount_add_ok by lia.
Qed.

Lemma claim_aborted_redeem_ok s a e t r :
  Inv s -> s.(epochs) !! e = Some (Aborted t) ->
  s.(redeem_requests) !! mkRequestKey e a = Some r ->
  rr_cancelled r = false -> rr_claimed r = false ->
  claim_aborted_redeem s a e = Ok (redeem_refunded_state s a e r).
Proof.
  intros HI He Hk Hca Hcl. destruct (inv_book _ HI) as [_ HR _].
  pose proof (refund_covered _ _ _ (mkRequestKey e a) _ t HR He Hk Hcl) as Hcov. cbn in Hcov.
  pose proof (active_amt _ _ _ _ _ HR Hk Hca) as Hne. cbn in Hne.
  pose proof (si_escrowed _ (inv_settle _ HI)) as Hesc.
  assert (0 <= current_redeems s.(epoch)).
  { unfold current_redeems. destruct (epoch s) eqn:Hep; [|done].
    by apply (EpochInv_pending_nonneg s e0 HI). }
  assert ((account s a).(acc_shares) + rr_shares r <= u128_max) as Hcredit.
  { apply share_credit_fits; [done|]. destruct (inv_type _ HI). lia. }
  unfold claim_aborted_redeem, aborted_terms. rewrite He. cbn [mbind option_bind outcome_aborted].
  rewrite bool_decide_false by done. rewrite Hk. cbn [ok_or]. rewrite Hca, Hcl. unfold is_zero.
  destruct (Z.eqb_spec (rr_shares r) 0); [done|].
  by rewrite amount_sub_ok, amount_add_ok by lia.
Qed.

(** * Lifecycle states as facts about the record *)

Lemma deposit_request_state_Some s k st :
  deposit_request_state s k = Some st ->
  exists r, s.(deposit_requests) !! k = Some r /\
    lifecycle s (rk_epoch k) r.(dr_cancelled) r.(dr_claimed) = st.
Proof.
  unfold deposit_request_state. destruct (deposit_requests s !! k) as [r|]; cbn; [|done].
  intros [= <-]. eauto.
Qed.

Lemma redeem_request_state_Some s k st :
  redeem_request_state s k = Some st ->
  exists r, s.(redeem_requests) !! k = Some r /\
    lifecycle s (rk_epoch k) r.(rr_cancelled) r.(rr_claimed) = st.
Proof.
  unfold redeem_request_state. destruct (redeem_requests s !! k) as [r|]; cbn; [|done].
  intros [= <-]. eauto.
Qed.

Lemma lifecycle_Claimable s e ca cl :
  lifecycle s e ca cl = Claimable ->
  ca = false /\ cl = false /\ exists t, s.(epochs) !! e = Some (Finalized t).
Proof.
  unfold lifecycle. destruct ca; [done|]. destruct (epochs s !! e) as [[t|t]|].
  - destruct cl; [done|eauto].
  - by destruct cl.
  - destruct (epoch s); [|done]. by case_match.
Qed.

Lemma lifecycle_Refundable s e ca cl :
  lifecycle s e ca cl = Refundable ->
  ca = false /\ cl = false /\ exists t, s.(epochs) !! e = Some (Aborted t).
Proof.
  unfold lifecycle. destruct ca; [done|]. destruct (epochs s !! e) as [[t|t]|].
  - by destruct cl.
  - destruct cl; [done|eauto].
  - destruct (epoch s); [|done]. by case_match.
Qed.

(** * Outstanding figures *)

Lemma sum_epochs_ok s fig f :
  (forall id o, s.(epochs) !! id = Some o -> 0 <= f id o /\
    match fig id o with None => f id o = 0 | Some r => r = Ok (f id o) end) ->
  settled_sum s.(epochs) f <= u128_max ->
  sum_epochs s fig = Ok (settled_sum s.(epochs) f).
Proof.
  intros Hf Hm. unfold sum_epochs, settled_sum in *.
  apply (try_fold_map Z.le _ f u128_max _ 0); [|intros id o b Ho Hb|lia]; [apply Hf|].
  destruct (Hf id o Ho) as [_ Hfig]. cbn. destruct (fig id o); subst; [by apply amount_add_ok|].
  f_equal. lia.
Qed.

(** The dust every finalized epoch left in the reserve and in claimable shares. *)
Definition redeem_dust_of (_ : Z) (o : EpochOutcome) : Z :=
  match o with Finalized t => t.(et_redeem_dust) | Aborted _ => 0 end.

Definition deposit_dust_of (_ : Z) (o : EpochOutcome) : Z :=
  match o with Finalized t => t.(et_deposit_dust) | Aborted _ => 0 end.

Lemma msum_sub {K V} `{Countable K} (f g h : K -> V -> Z) (m : gmap K V) :
  (forall k v, m !! k = Some v -> f k v = g k v + h k v) -> msum f m = msum g m + msum h m.
Proof.
  intros Hf. rewrite (msum_ext f (fun k v => g k v + h k v)) by done. unfold msum.
  apply lsum_add.
Qed.

(** The unclaimed entitlements of one settled epoch. *)
Definition unclaimed_redeem_of (s : State) (id : Z) (o : EpochOutcome) : Z :=
  match o with
  | Finalized t => epoch_sum s.(redeem_requests) id (unclaimed (redeem_entitlement t))
  | Aborted _ => 0
  end.

Definition unclaimed_deposit_of (s : State) (id : Z) (o : EpochOutcome) : Z :=
  match o with
  | Finalized t => epoch_sum s.(deposit_requests) id (unclaimed (deposit_entitlement t))
  | Aborted _ => 0
  end.

Lemma outstanding_claims s :
  Inv s -> supply_fits s ->
  outstanding_redeem_assets s =
    Ok (s.(buckets).(claim_reserve) - settled_sum s.(epochs) redeem_dust_of) /\
  outstanding_deposit_shares s =
    Ok (s.(claimable_deposit_shares) - settled_sum s.(epochs) deposit_dust_of).
Proof.
  intros HI Hfit. pose proof (inv_settle _ HI) as [_ _ _ _ _ Hcl Hres].
  pose proof (inv_asset_bounds s HI) as []. pose proof (inv_asset _ HI) as Ha.
  pose proof (inv_share _ HI) as Hs. pose proof (accounts_shares_nonneg s (inv_type _ HI)).
  pose proof (inv_type _ HI) as []. unfold AssetInv, ShareInv, supply_fits, issued in *.
  assert (0 <= settled_sum s.(epochs) redeem_dust_of /\ 0 <= settled_sum s.(epochs) deposit_dust_of)
    as [? ?].
  { split; apply msum_nonneg; intros id [t|t] Ho; cbn; try done;
      pose proof (deposit_owed_parts s id t HI Ho); lia. }
  rewrite Hcl, Hres in *. unfold settled_sum in *.
  rewrite (msum_sub (redeem_owed _) (unclaimed_redeem_of s) redeem_dust_of) in * by
    (by intros id [t|t] _).
  rewrite (msum_sub (deposit_owed _) (unclaimed_deposit_of s) deposit_dust_of) in * by
    (by intros id [t|t] _).
  unfold outstanding_redeem_assets, outstanding_deposit_shares.
  split; [rewrite (sum_epochs_ok s _ (unclaimed_redeem_of s))
         |rewrite (sum_epochs_ok s _ (unclaimed_deposit_of s))];
    unfold settled_sum; try (f_equal; lia); try lia;
    intros id [t|t] Ho; cbn; try done;
    rewrite (entitlements_of_finalized s id t HI Ho);
    (split; [pose proof (deposit_owed_parts s id t HI Ho); lia|done]).
Qed.

Lemma outstanding_refunds s :
  Inv s -> supply_fits s ->
  outstanding_refund_assets s =
    Ok (s.(buckets).(pending_deposit_escrow) - current_deposits s.(epoch)) /\
  outstanding_refund_shares s =
    Ok (s.(escrowed_redeem_shares) - current_redeems s.(epoch)).
Proof.
  intros HI Hfit. pose proof (inv_settle _ HI) as [_ _ _ Hesc Hescr _ _].
  pose proof (inv_asset_bounds s HI) as []. pose proof (inv_asset _ HI) as Ha.
  pose proof (inv_share _ HI) as Hs. pose proof (accounts_shares_nonneg s (inv_type _ HI)).
  pose proof (inv_type _ HI) as []. unfold AssetInv, ShareInv, supply_fits, issued in *.
  assert (0 <= current_deposits s.(epoch) /\ 0 <= current_redeems s.(epoch)) as [? ?].
  { destruct (epoch s) as [e|] eqn:Hep; [|done]. by apply EpochInv_pending_nonneg with (s := s). }
  destruct (inv_book _ HI) as [HD HR _].
  unfold outstanding_refund_assets, outstanding_refund_shares.
  split; [rewrite (sum_epochs_ok s _ (refund_owed s.(deposit_requests)))
         |rewrite (sum_epochs_ok s _ (refund_owed s.(redeem_requests)))];
    unfold settled_sum in *; try (f_equal; lia); try lia;
    intros id [t|t] Ho; (split; [by eapply refund_owed_nonneg|]); cbn; try done;
    by destruct (totals_of_aborted s id t HI Ho) as (-> & _).
Qed.

(** * Requesting and cancelling a deposit *)

(** The record of the open epoch a deposit request adds to. *)
Definition deposit_entry (s : State) (k : RequestKey) : DepositRequest :=
  default deposit_default (s.(deposit_requests) !! k).

Definition deposit_requested_state (s : State) (e : Epoch) (a : AccountId) (x : AssetAmount) : State :=
  let k := mkRequestKey e.(ep_id) a in
  (set_account_assets s a ((account s a).(acc_assets) - x))
    <| buckets, pending_deposit_escrow := s.(buckets).(pending_deposit_escrow) + x |>
    <| epoch := Some (e <| ep_pending_deposit_assets := e.(ep_pending_deposit_assets) + x |>) |>
    <| deposit_requests :=
         <[k := (deposit_entry s k) <| dr_assets := (deposit_entry s k).(dr_assets) + x |>
                                    <| dr_cancelled := false |>]> s.(deposit_requests) |>.

Definition deposit_cancelled_state (s : State) (e : Epoch) (a : AccountId) (r : DepositRequest) : State :=
  (set_account_assets
     (s <| buckets, pending_deposit_escrow := s.(buckets).(pending_deposit_escrow) - r.(dr_assets) |>
        <| epoch := Some (e <| ep_pending_deposit_assets := e.(ep_pending_deposit_assets) - r.(dr_assets) |>) |>)
     a ((account s a).(acc_assets) + r.(dr_assets)))
    <| deposit_requests ::=
         alter (fun r' => r' <| dr_assets := 0 |>
                             <| dr_cancelled_assets := r.(dr_cancelled_assets) + r.(dr_assets) |>
                             <| dr_cancelled := true |>) (mkRequestKey e.(ep_id) a) |>.

Lemma request_deposit_spec s a x s1 :
  request_deposit s a x = Ok s1 ->
  exists e, s.(epoch) = Some e /\ e.(ep_phase) = Open /\ s.(vault_state) = Active /\ x <> 0 /\
    s1 = deposit_requested_state s e a x.
Proof.
  intros Hop. unfold request_deposit, epoch_mut in Hop. cbv zeta in Hop. invert_amounts.
  match goal with H : require_active s = Ok _ |- _ => apply require_active_Ok in H end.
  match goal with H : require_open_epoch s = Ok ?e |- _ =>
    apply require_open_epoch_Ok in H as [He Hph]; exists e end.
  match goal with H : epoch _ = Some ?e' |- _ =>
    change (epoch s = Some e') in H; rewrite He in H; injection H as <- end.
  by split_and!.
Qed.

Lemma cancel_deposit_ok s e a r :
  Inv s -> supply_fits s -> s.(vault_state) <> Frozen ->
  s.(epoch) = Some e -> e.(ep_phase) = Open ->
  s.(deposit_requests) !! mkRequestKey e.(ep_id) a = Some r -> dr_cancelled r = false ->
  r.(dr_cancelled_assets) + r.(dr_assets) <= u128_max ->
  cancel_deposit s a = Ok (deposit_cancelled_state s e a r).
Proof.
  intros HI Hfit Hv He Hph Hk Hca Hmax. destruct (inv_book _ HI) as [HD _ _].
  assert (dr_claimed r = false) as Hcl.
  { destruct (dr_claimed r) eqn:Hc; [|done]. destruct (HD _ _ Hk) as (_&_&_&Hs&_).
    destruct (Hs Hc) as [_ Hset]. cbn in Hset.
    rewrite (current_unsettled s e (inv_book _ HI) He) in Hset. by destruct Hset. }
  pose proof (active_amt _ _ _ _ _ HD Hk Hca) as Hne. cbn in Hne.
  assert (dr_assets r <= ep_pending_deposit_assets e) as Hle.
  { rewrite (ei_deposits _ _ _ _ (si_epoch _ (inv_settle _ HI) e He)).
    apply (epoch_sum_lookup_le _ (mkRequestKey (ep_id e) a) r dr_assets); [|done].
    intros k r' Hk'. exact (book_ok_amt_nonneg _ _ _ _ _ HD Hk'). }
  pose proof (si_escrow _ (inv_settle _ HI)) as Hesc. rewrite He in Hesc. cbn in Hesc.
  pose proof (refunds_nonneg _ _ _ HD).
  assert ((account s a).(acc_assets) + dr_assets r <= u128_max) as Hcredit.
  { apply asset_credit_fits; [done|done|]. destruct (inv_type _ HI). lia. }
  unfold cancel_deposit, epoch_mut.
  replace (require_cancellation_allowed s) with (Ok tt : result Rejection unit)
    by (unfold require_cancellation_allowed; by destruct (vault_state s)).
  rewrite He. cbn [ok_or]. rewrite Hph, bool_decide_false by done. rewrite Hk. cbn [ok_or].
  rewrite Hcl, Hca. unfold is_zero. destruct (Z.eqb_spec (dr_assets r) 0); [done|]. cbn [orb].
  rewrite !amount_sub_ok, !amount_add_ok by lia. cbn [epoch set_field ok_or]. rewrite He. done.
Qed.
