(* ===== verification/AccountingLifecycle.v ===== *)
(** The life of a request and of an epoch: which parts of the books one
    accepted operation may write, the edges a request's state follows, and
    what never changes once written; and what each operation does to the
    net asset value that backs the share price. *)

From Stdlib Require Import ZArith Lia.
From S2P Require Import Prelude AccountingMath AccountingState AccountingTransition.
From S2P Require Import AccountingBook AccountingSafety AccountingFigures.
From S2P Require Import AccountingPreserve AccountingChecks.

(** * What one operation writes *)

(** The identity and phase of the current epoch. *)
Definition epoch_view (s : State) : option (EpochId * EpochPhase) :=
  (fun e => (e.(ep_id), e.(ep_phase))) <$> s.(epoch).

(** A request record is written either in the open epoch, unclaimed, or in
    the settled epoch it belongs to, once, by a claim. *)
Inductive write_ok {R} `{Request R} (s : State) (m : gmap RequestKey R) (k : RequestKey) (r : R)
  : Prop :=
| write_open :
    epoch_view s = Some (rk_epoch k, Open) -> claimed r = false -> write_ok s m k r
| write_claim r0 :
    is_Some (s.(epochs) !! rk_epoch k) -> m !! k = Some r0 ->
    cancelled r0 = false -> cancelled r = false -> claimed r0 = false -> claimed r = true ->
    write_ok s m k r.

Inductive books_step (s s' : State) : Prop :=
| books_frame :
    s'.(epochs) = s.(epochs) -> epoch_view s' = epoch_view s ->
    s'.(deposit_requests) = s.(deposit_requests) -> s'.(redeem_requests) = s.(redeem_requests) ->
    books_step s s'
| books_deposit k r :
    s'.(epochs) = s.(epochs) -> epoch_view s' = epoch_view s ->
    s'.(deposit_requests) = <[k := r]> s.(deposit_requests) ->
    s'.(redeem_requests) = s.(redeem_requests) ->
    write_ok s s.(deposit_requests) k r -> books_step s s'
| books_redeem k r :
    s'.(epochs) = s.(epochs) -> epoch_view s' = epoch_view s ->
    s'.(deposit_requests) = s.(deposit_requests) ->
    s'.(redeem_requests) = <[k := r]> s.(redeem_requests) ->
    write_ok s s.(redeem_requests) k r -> books_step s s'
| books_cutoff id :
    s'.(epochs) = s.(epochs) ->
    epoch_view s = Some (id, Open) -> epoch_view s' = Some (id, CutOff) ->
    s'.(deposit_requests) = s.(deposit_requests) -> s'.(redeem_requests) = s.(redeem_requests) ->
    books_step s s'
| books_settle id phase o :
    epoch_view s = Some (id, phase) -> epoch_view s' = None ->
    s.(epochs) !! id = None -> s'.(epochs) = <[id := o]> s.(epochs) ->
    (is_Some (outcome_finalized o) -> phase = CutOff) ->
    s'.(deposit_requests) = s.(deposit_requests) -> s'.(redeem_requests) = s.(redeem_requests) ->
    books_step s s'
| books_open :
    epoch_view s = None -> s'.(epochs) = s.(epochs) ->
    s'.(deposit_requests) = s.(deposit_requests) -> s'.(redeem_requests) = s.(redeem_requests) ->
    books_step s s'.

Lemma open_view s e :
  require_open_epoch s = Ok e -> epoch_view s = Some (e.(ep_id), Open).
Proof. intros [He <-]%require_open_epoch_Ok. unfold epoch_view. by rewrite He. Qed.

(** An unsettled epoch holds no claimed request. *)
Lemma current_unclaimed {R} `{Request R} s (m : gmap RequestKey R) k r :
  Inv s -> book_ok s.(epochs) s.(epoch) m -> is_current s.(epoch) (rk_epoch k) ->
  m !! k = Some r -> claimed r = false.
Proof.
  intros HI Hm Hcur Hk. destruct (claimed r) eqn:Hc; [|done].
  destruct (Hm k r Hk) as (_&_&_&Hcl&_). destruct (Hcl Hc) as [_ Hs].
  unfold is_current in Hcur. destruct (epoch s) as [e|] eqn:He; [|done].
  pose proof (current_unsettled s e (inv_book _ HI) He) as Hn. rewrite Hcur in Hn.
  rewrite Hn in Hs. by destruct Hs.
Qed.

Ltac books_unchanged := apply books_frame; (reflexivity || assumption).

Lemma request_deposit_books s a x s' :
  Inv s -> request_deposit s a x = Ok s' -> books_step s s'.
Proof.
  intros HI Hop. unfold request_deposit, epoch_mut in Hop. cbv zeta in Hop. invert_amounts.
  match goal with H : require_open_epoch s = Ok ?e |- _ =>
    pose proof (open_view s e H) as Hv; apply require_open_epoch_Ok in H as [He Hph] end.
  cbn in *. rewrite He in *. simplify_eq.
  eapply books_deposit; [done| |reflexivity|done|].
  - unfold epoch_view. cbn. by rewrite He.
  - apply write_open; [done|]. cbn.
    destruct (deposit_requests s !! _) as [r|] eqn:Hk; cbn; [|done].
    by destruct (dr_claimed r).
Qed.

Lemma cancel_deposit_books s a s' :
  Inv s -> cancel_deposit s a = Ok s' -> books_step s s'.
Proof.
  intros HI Hop. unfold cancel_deposit, epoch_mut in Hop. cbv zeta in Hop. invert_amounts.
  cbn in *. simplify_eq.
  eapply books_deposit; cbn; [done| | |done|].
  - unfold epoch_view. cbn. by match goal with H : epoch s = Some _ |- _ => rewrite H end.
  - by apply alter_insert_Some.
  - apply write_open; cbn; [|done]. unfold epoch_view.
    match goal with H : epoch s = Some ?e |- _ => rewrite H; cbn; destruct (ep_phase e) end; done.
Qed.

Lemma request_redeem_books s a x s' :
  Inv s -> request_redeem s a x = Ok s' -> books_step s s'.
Proof.
  intros HI Hop. unfold request_redeem, epoch_mut in Hop. cbv zeta in Hop. invert_amounts.
  match goal with H : require_open_epoch s = Ok ?e |- _ =>
    pose proof (open_view s e H) as Hv; apply require_open_epoch_Ok in H as [He Hph] end.
  cbn in *. rewrite He in *. simplify_eq.
  eapply books_redeem; [done| |done|reflexivity|].
  - unfold epoch_view. cbn. by rewrite He.
  - apply write_open; [done|]. cbn.
    destruct (redeem_requests s !! _) as [r|] eqn:Hk; cbn; [|done].
    by destruct (rr_claimed r).
Qed.

Lemma cancel_redeem_books s a s' :
  Inv s -> cancel_redeem s a = Ok s' -> books_step s s'.
Proof.
  intros HI Hop. unfold cancel_redeem, epoch_mut in Hop. cbv zeta in Hop. invert_amounts.
  cbn in *. simplify_eq.
  eapply books_redeem; cbn; [done| |done| |].
  - unfold epoch_view. cbn. by match goal with H : epoch s = Some _ |- _ => rewrite H end.
  - by apply alter_insert_Some.
  - apply write_open; cbn; [|done]. unfold epoch_view.
    match goal with H : epoch s = Some ?e |- _ => rewrite H; cbn; destruct (ep_phase e) end; done.
Qed.

Ltac claim_write R :=
  eapply R; cbn; first [by apply alter_insert_Some | done | eapply write_claim; cbn; eauto].

Lemma claim_deposit_books s a e s' : claim_deposit s a e = Ok s' -> books_step s s'.
Proof.
  intros Hop. unfold claim_deposit in Hop. cbv zeta in Hop. invert_amounts.
  match goal with H : finalized_terms s e = Some _ |- _ => apply finalized_terms_Some in H end.
  claim_write books_deposit.
Qed.

Lemma claim_redeem_books s a e s' : claim_redeem s a e = Ok s' -> books_step s s'.
Proof.
  intros Hop. unfold claim_redeem in Hop. cbv zeta in Hop. invert_amounts.
  match goal with H : finalized_terms s e = Some _ |- _ => apply finalized_terms_Some in H end.
  claim_write books_redeem.
Qed.

Lemma claim_aborted_deposit_books s a e s' : claim_aborted_deposit s a e = Ok s' -> books_step s s'.
Proof.
  intros Hop. unfold claim_aborted_deposit in Hop. cbv zeta in Hop. invert_amounts.
  match goal with H : aborted_terms s e <> None |- _ => apply aborted_terms_not_None in H as [? ?] end.
  claim_write books_deposit.
Qed.

Lemma claim_aborted_redeem_books s a e s' : claim_aborted_redeem s a e = Ok s' -> books_step s s'.
Proof.
  intros Hop. unfold claim_aborted_redeem in Hop. cbv zeta in Hop. invert_amounts.
  match goal with H : aborted_terms s e <> None |- _ => apply aborted_terms_not_None in H as [? ?] end.
  claim_write books_redeem.
Qed.

Lemma finalize_books s s' : Inv s -> finalize_epoch s = Ok s' -> books_step s s'.
Proof.
  intros HI Hop. apply finalize_epoch_spec in Hop as (e & t & Hst & ->); [|done].
  pose proof (st_epoch _ _ _ Hst) as He.
  apply (books_settle _ _ e.(ep_id) e.(ep_phase) (Finalized t)); cbn; try done.
  - unfold epoch_view. by rewrite He.
  - by apply (current_unsettled s e (inv_book _ HI)).
  - intros _. apply Hst.
Qed.

Lemma abort_books s actor s' : Inv s -> abort_epoch s actor = Ok s' -> books_step s s'.
Proof.
  intros HI Hop. unfold abort_epoch in Hop. invert_amounts.
  match goal with H : epoch s = Some ?e |- _ => rename H into He; rename e into ep end.
  eapply (books_settle _ _ ep.(ep_id) ep.(ep_phase)); cbn; try done.
  - unfold epoch_view. by rewrite He.
  - by apply (current_unsettled s ep (inv_book _ HI)).
  - by intros [].
Qed.

Lemma cutoff_books s now s' : cutoff_epoch s now = Ok s' -> books_step s s'.
Proof.
  intros Hop. unfold cutoff_epoch, epoch_mut in Hop. invert_amounts.
  match goal with H : require_open_epoch s = Ok ?e |- _ =>
    pose proof (open_view s e H) as Hv; apply require_open_epoch_Ok in H as [He Hph] end.
  rewrite He in *. simplify_eq. by eapply books_cutoff.
Qed.

(** The remote operations leave every book alone. *)
Lemma remote_books s op s' :
  match op with
  | Pause _ | Unpause _ | Freeze _ | BeginAllocate _ _ _ | CompleteAllocation _ _
  | BeginRecall _ _ _ | AcceptRecallSent _ _ _ _ | ObserveInbound _ | ApplyRemoteValuation _ _
  | LockRemoteValuation | RequestClose _ _ | SettleClose _ _ | BeginRecover _ _
  | SettleRecover _ _ => True
  | _ => False
  end -> apply s op = Ok s' -> books_step s s'.
Proof.
  intros Hop Happ. destruct op; try contradiction; cbn in Happ;
    unfold pause, unpause, freeze, begin_allocate, complete_allocation, begin_recall,
      accept_recall_sent, observe_inbound, apply_remote_valuation, lock_remote_valuation,
      request_close, settle_close, begin_recover, settle_recover, credit_remote in Happ;
    cbv zeta in Happ;
    repeat (first [progress invert_amounts | progress cbv beta iota in * |
      match goal with H : (if ?b then _ else _) = Ok _ |- _ => destruct b
                    | H : (let (_, _) := ?p in _) = Ok _ |- _ => destruct p end]);
    books_unchanged.
Qed.

Lemma apply_books s op s' : Inv s -> apply s op = Ok s' -> books_step s s'.
Proof.
  intros HI Happ. destruct op; try (by eapply remote_books; [|exact Happ]); cbn in Happ.
  - by eapply request_deposit_books.
  - by eapply cancel_deposit_books.
  - by eapply request_redeem_books.
  - by eapply cancel_redeem_books.
  - by eapply cutoff_books.
  - by eapply finalize_books.
  - by eapply abort_books.
  - by eapply claim_deposit_books.
  - by eapply claim_redeem_books.
  - by eapply claim_aborted_deposit_books.
  - by eapply claim_aborted_redeem_books.
  - unfold open_next_epoch in Happ. cbv zeta in Happ. invert_amounts.
    apply books_open; try done. unfold epoch_view.
    by match goal with H : ~ is_Some _ |- _ => apply eq_None_not_Some in H; rewrite H end.
Qed.

(** * Edges of a request's state *)

Definition lifecycle_edge (from to : RequestState) : bool :=
  match from, to with
  | Pending, (Pending | Locked | Cancelled | Refundable) => true
  | Cancelled, (Cancelled | Pending) => true
  | Locked, (Locked | Claimable | Refundable) => true
  | Claimable, (Claimable | Claimed) => true
  | Claimed, Claimed => true
  | Refundable, (Refundable | Refunded) => true
  | Refunded, Refunded => true
  | _, _ => false
  end.

(** Both [deposit_request_state] and [redeem_request_state]. *)
Definition request_state {R} `{Request R} (s : State) (m : gmap RequestKey R) (k : RequestKey)
  : option RequestState :=
  r ← m !! k; Some (lifecycle s (rk_epoch k) (cancelled r) (claimed r)).

Lemma lifecycle_edge_refl st : lifecycle_edge st st = true.
Proof. by destruct st. Qed.

(** The lifecycle seen through the outcome and the view of the current epoch. *)
Lemma lifecycle_view s e ca cl :
  lifecycle s e ca cl =
    if ca then Cancelled else
    match s.(epochs) !! e with
    | Some (Finalized _) => if cl then Claimed else Claimable
    | Some (Aborted _) => if cl then Refunded else Refundable
    | None =>
        match epoch_view s with
        | Some (id, phase) => if (id =? e) && bool_decide (phase = CutOff) then Locked else Pending
        | None => Pending
        end
    end.
Proof. unfold lifecycle, epoch_view. by destruct (epoch s). Qed.

Lemma lifecycle_frame s s' e ca cl :
  s'.(epochs) = s.(epochs) -> epoch_view s' = epoch_view s ->
  lifecycle s' e ca cl = lifecycle s e ca cl.
Proof. intros He Hv. by rewrite !lifecycle_view, He, Hv. Qed.

Section edges.
Context {R : Type} `{Request R} (s s' : State) (m : gmap RequestKey R).
Context (HI : Inv s) (Hm : book_ok s.(epochs) s.(epoch) m).

(** The book after the step, in the state after the step, follows an edge. *)
Definition follows (m' : gmap RequestKey R) : Prop :=
  forall k st, request_state s m k = Some st ->
    exists st', request_state s' m' k = Some st' /\ lifecycle_edge st st' = true.

Lemma view_current e phase :
  epoch_view s = Some (e, phase) -> is_current s.(epoch) e /\ s.(epochs) !! e = None.
Proof.
  unfold epoch_view. destruct (epoch s) as [ep|] eqn:He; [|done]. intros [= <- _].
  split; [done|]. by apply (current_unsettled s ep (inv_book _ HI)).
Qed.

Lemma follows_frame :
  s'.(epochs) = s.(epochs) -> epoch_view s' = epoch_view s -> follows m.
Proof.
  intros He Hv k st. unfold request_state. destruct (m !! k) as [r|]; cbn; [|done].
  intros [= <-]. eexists. split; [done|]. rewrite (lifecycle_frame s s') by done.
  apply lifecycle_edge_refl.
Qed.

Lemma follows_write k r :
  s'.(epochs) = s.(epochs) -> epoch_view s' = epoch_view s ->
  write_ok s m k r -> follows (<[k := r]> m).
Proof.
  intros He Hv Hw k' st. unfold request_state.
  destruct (m !! k') as [r0|] eqn:Hk'; cbn; [|done]. intros [= <-].
  destruct (decide (k = k')) as [<-|Hne].
  - rewrite lookup_insert_eq. cbn. eexists. split; [done|].
    rewrite (lifecycle_frame s s'), !lifecycle_view by done.
    destruct Hw as [Hopen Hcl|r1 [o Ho] Hr1 Hca0 Hca Hcl0 Hcl].
    + destruct (view_current _ _ Hopen) as [Hcur ->]. rewrite Hopen.
      rewrite (bool_decide_false (Open = CutOff)), andb_false_r by done.
      by destruct (cancelled r0), (cancelled r).
    + simplify_eq. rewrite Hca, Hca0, Hcl, Hcl0, Ho. by destruct o.
  - rewrite lookup_insert_ne, Hk' by done. cbn. eexists. split; [done|].
    rewrite (lifecycle_frame s s') by done. apply lifecycle_edge_refl.
Qed.

Lemma follows_cutoff id :
  s'.(epochs) = s.(epochs) -> epoch_view s = Some (id, Open) ->
  epoch_view s' = Some (id, CutOff) -> follows m.
Proof.
  intros He Hv Hv' k st. unfold request_state. destruct (m !! k) as [r|]; cbn; [|done].
  intros [= <-]. eexists. split; [done|]. rewrite !lifecycle_view, He, Hv, Hv'.
  rewrite (bool_decide_false (Open = CutOff)), (bool_decide_true (CutOff = CutOff)) by done.
  rewrite andb_false_r, andb_true_r.
  destruct (cancelled r); [done|]. destruct (epochs s !! rk_epoch k) as [[]|];
    [by destruct (claimed r)|by destruct (claimed r)|by destruct (id =? rk_epoch k)].
Qed.

Lemma follows_settle id phase o :
  epoch_view s = Some (id, phase) -> epoch_view s' = None ->
  s'.(epochs) = <[id := o]> s.(epochs) ->
  (is_Some (outcome_finalized o) -> phase = CutOff) -> follows m.
Proof.
  intros Hv Hv' He Hph k st. unfold request_state.
  destruct (m !! k) as [r|] eqn:Hk; cbn; [|done].
  intros [= <-]. eexists. split; [done|]. rewrite !lifecycle_view, He, Hv, Hv'.
  destruct (cancelled r); [done|]. destruct (view_current _ _ Hv) as [Hcur Hnone].
  destruct (decide (id = rk_epoch k)) as [->|Hne].
  - rewrite lookup_insert_eq, Hnone, Z.eqb_refl. cbn.
    rewrite (current_unclaimed s m k r HI Hm Hcur Hk).
    destruct o; [rewrite Hph by eauto; by rewrite bool_decide_true|by destruct phase].
  - rewrite lookup_insert_ne by done. destruct (epochs s !! rk_epoch k) as [[]|];
      [by destruct (claimed r)|by destruct (claimed r)|].
    by rewrite (proj2 (Z.eqb_neq _ _) Hne).
Qed.

Lemma follows_open : epoch_view s = None -> s'.(epochs) = s.(epochs) -> follows m.
Proof.
  intros Hv He k st. unfold request_state. destruct (m !! k) as [r|] eqn:Hk; cbn; [|done].
  intros [= <-]. eexists. split; [done|]. rewrite !lifecycle_view, He.
  destruct (cancelled r); [done|]. destruct (Hm k r Hk) as (_&_&_&_&[[o ->]|Hcur]).
  - destruct o; by destruct (claimed r).
  - unfold is_current in Hcur. unfold epoch_view in Hv. by destruct (epoch s).
Qed.
End edges.

(** Every accepted operation moves every request along an edge. *)
Lemma books_step_follows s s' :
  Inv s -> books_step s s' ->
  follows s s' s.(deposit_requests) s'.(deposit_requests) /\
  follows s s' s.(redeem_requests) s'.(redeem_requests).
Proof.
  intros HI. destruct (inv_book _ HI) as [HD HR _].
  intros [He Hv -> ->|k r He Hv -> -> Hw|k r He Hv -> -> Hw|id He Hv Hv' -> ->
         |id ph o Hv Hv' Hn He Hph -> ->|Hv He -> ->]; split;
    eauto using follows_frame, follows_write, follows_cutoff, follows_settle, follows_open.
Qed.

(** * What never changes *)

(** A settled epoch keeps its terms. *)
Lemma books_step_epochs s s' id o :
  books_step s s' -> s.(epochs) !! id = Some o -> s'.(epochs) !! id = Some o.
Proof.
  intros [He|? ? He|? ? He|? He|id' ph o' ? ? Hn He|? He] Ho; rewrite He; try done.
  rewrite lookup_insert_ne; [done|congruence].
Qed.

Lemma reachable_epochs s s' id o :
  Inv s -> reachable s s' -> s.(epochs) !! id = Some o -> s'.(epochs) !! id = Some o.
Proof.
  intros HI Hr Ho. induction Hr as [|s1 op s2 Hr IH Hty Happ]; [done|].
  eapply books_step_epochs; [|exact IH]. eapply apply_books; [|exact Happ].
  by eapply reachable_inv.
Qed.

Lemma used_transfer_ids_grow s op s' t :
  apply s op = Ok s' -> t ∈ s.(used_transfer_ids) -> t ∈ s'.(used_transfer_ids).
Proof.
  intros Happ Ht. destruct op; cbn in Happ;
    unfold request_deposit, cancel_deposit, request_redeem, cancel_redeem, cutoff_epoch,
      finalize_epoch, abort_epoch, claim_deposit, claim_redeem, claim_aborted_deposit,
      claim_aborted_redeem, open_next_epoch, pause, unpause, freeze, begin_allocate,
      complete_allocation, begin_recall, accept_recall_sent, observe_inbound,
      apply_remote_valuation, lock_remote_valuation, request_close, settle_close,
      begin_recover, settle_recover, credit_remote, epoch_mut in Happ;
    cbv zeta in Happ;
    repeat (first [progress invert_amounts | progress cbv beta iota in * |
      match goal with H : (if ?b then _ else _) = Ok _ |- _ => destruct b
                    | H : (let (_, _) := ?p in _) = Ok _ |- _ => destruct p end]);
    first [exact Ht | apply elem_of_union_r; exact Ht].
Qed.

(** * The net asset value *)

(** What each operation does to the net asset value that backs the share
    price.  [nav_change] is the abstract account of it; [apply_nav] shows
    that the transitions implement it. *)

(** The buckets that back the price, without saturation. *)
Definition backing (s : State) : Z :=
  s.(buckets).(idle_backing) + s.(buckets).(outbound_in_transit)
  + s.(buckets).(accepted_remote_value) + s.(buckets).(inbound_in_transit).

(** The value a report of [v] is accepted at, under the principal cap [cap]. *)
Definition capped (v cap : Z) : Z := Z.min v cap.

(** What the epoch [e] pays its redeemers when it settles. *)
Definition settlement_paid (s : State) (e : Epoch) : Z :=
  match settlement_assets s e with
  | None => 0
  | Some assets =>
      e.(ep_pending_redeem_shares) * (assets + e.(ep_virtual_assets))
        / (s.(total_share_supply) + e.(ep_virtual_shares))
  end.

Definition nav_change (s : State) (op : Operation) : Z :=
  match op with
  | FinalizeEpoch =>
      match s.(epoch) with
      | Some e => e.(ep_pending_deposit_assets) - settlement_paid s e
      | None => 0
      end
  | CompleteAllocation _ v =>
      if s.(close_requested) then 0 else
      capped v (s.(remote_principal_cap) + s.(active_amount))
      - s.(buckets).(accepted_remote_value) - s.(active_amount)
  | AcceptRecallSent _ principal actual _ =>
      let value := capped s.(recall_baseline_value) s.(remote_principal_cap) in
      value - Z.min value principal + actual - s.(buckets).(accepted_remote_value)
  | ApplyRemoteValuation v l =>
      if s.(close_requested) then 0 else
      let value :=
        if decide (s.(active_cycle) = CycleRecall)
        then value_during_recall s (s.(inbound_cumulative_loss) + l) else v in
      capped value s.(remote_principal_cap) - s.(buckets).(accepted_remote_value)
  | SettleClose _ credited => credited - s.(active_amount)
  | SettleRecover _ credited => credited
  | _ => 0
  end.

(** Unfolds a handler that returned and closes the arithmetic that is left. *)
Ltac nav_step Hop :=
  cbv zeta in Hop; invert_amounts; unfold backing, clear_cycle, set_accepted; cbn; lia.

Lemma complete_allocation_nav s t v s' :
  complete_allocation s t v = Ok s' ->
  backing s' = backing s + nav_change s (CompleteAllocation t v).
Proof.
  unfold complete_allocation. intros Hop. cbn. destruct (close_requested s).
  - simplify_eq. lia.
  - cbv zeta in Hop. invert_amounts. unfold backing, clear_cycle, set_accepted, capped; cbn.
    rewrite ltb_min. lia.
Qed.

Lemma accept_recall_sent_nav s t p a l s' :
  accept_recall_sent s t p a l = Ok s' ->
  backing s' = backing s + nav_change s (AcceptRecallSent t p a l).
Proof.
  unfold accept_recall_sent. intros Hop. cbv zeta in Hop. invert_amounts.
  unfold backing, clear_cycle, set_accepted in *; cbn in *. rewrite !ltb_min in *. unfold capped. lia.
Qed.

Lemma observe_inbound_nav s x s' :
  0 <= s.(buckets).(inbound_in_transit) -> is_u128 x ->
  observe_inbound s x = Ok s' -> backing s' = backing s.
Proof.
  intros Hin Hx Hop. apply observe_inbound_spec in Hop as (s1 & rest & Hatt & _ & Hs'); [|done|apply Hx].
  injection Hatt as <- _. unfold backing.
  destruct Hs' as [[_ ->]|[(_ & _ & ->)|(_ & _ & ->)]]; cbn; lia.
Qed.

Lemma apply_remote_valuation_nav s v l s' :
  apply_remote_valuation s v l = Ok s' ->
  backing s' = backing s + nav_change s (ApplyRemoteValuation v l).
Proof.
  unfold apply_remote_valuation. intros Hop. cbn. cbv zeta in Hop. invert_amounts.
  destruct (close_requested s); invert_amounts; unfold backing, set_accepted, capped; cbn; [lia|].
  rewrite ltb_min. destruct (decide (active_cycle s = CycleRecall)).
  - rewrite bool_decide_true by done. lia.
  - rewrite bool_decide_false by done. lia.
Qed.

Lemma finalize_nav s s' :
  Inv s -> finalize_epoch s = Ok s' -> backing s' = backing s + nav_change s FinalizeEpoch.
Proof.
  intros HI Hop. apply finalize_epoch_spec in Hop as (e & t & Hst & ->); [|done].
  pose proof (si_epoch _ (inv_settle _ HI) e (st_epoch _ _ _ Hst)) as [Hva Hvs _ _ _ _].
  destruct Hst as [He _ _ Ha Hs Hd Hr Ht]. destruct Ht.
  cbn. rewrite He. unfold settlement_paid. rewrite Ha, <-Hr, Hva.
  unfold backing; cbn. rewrite te_paid. unfold asset_units, share_units; cbn.
  rewrite te_virtual_assets, Hs.
  replace (et_virtual_shares t) with (ep_virtual_shares e) by congruence. lia.
Qed.

Lemma apply_backing s op s' :
  Inv s -> op_typed op -> apply s op = Ok s' -> backing s' = backing s + nav_change s op.
Proof.
  intros HI Hty Hop.
  assert (0 <= s.(buckets).(inbound_in_transit)) as Hin by apply (inv_type _ HI).
  destruct op; cbn [apply] in Hop.
  all: first
    [ by apply finalize_nav | by eapply complete_allocation_nav | by eapply accept_recall_sent_nav
    | by eapply apply_remote_valuation_nav
    | rewrite (observe_inbound_nav s amount s') by done; cbn; lia | idtac ].
  all: cbn [nav_change].
  all: unfold request_deposit, cancel_deposit, request_redeem, cancel_redeem, cutoff_epoch,
    abort_epoch, claim_deposit, claim_redeem, claim_aborted_deposit, claim_aborted_redeem,
    open_next_epoch, pause, unpause, freeze, begin_allocate, begin_recall,
    lock_remote_valuation, request_close, settle_close, begin_recover, settle_recover,
    credit_remote, epoch_mut in Hop.
  all: try nav_step Hop.
  all: destruct (close_requested s); [simplify_eq; lia|nav_step Hop].
Qed.

(** With the supply in range, the same holds of [managed_nav]. *)
Lemma apply_nav s op s' :
  Inv s -> op_typed op -> apply s op = Ok s' -> supply_fits s -> supply_fits s' ->
  managed_nav s' = managed_nav s + nav_change s op.
Proof.
  intros HI Hty Hop Hfit Hfit'. pose proof (apply_inv s op s' HI Hty Hop) as HI'.
  rewrite !managed_nav_sum by done. by apply (apply_backing s op s').
Qed.
