(* ===== verification/AccountingTheorems.v ===== *)
(** The properties of the accounting model
    ([crates/accounting-model/src]): what every reachable state satisfies,
    that everything owed can be paid, what an operation may change, and what
    it does to the net asset value. *)

From Stdlib Require Import ZArith Lia.
From S2P Require Import Prelude AccountingMath AccountingState AccountingTransition.
From S2P Require Import AccountingInvariant AccountingBook AccountingSafety.
From S2P Require Import AccountingFigures.
From S2P Require Import AccountingPreserve AccountingChecks AccountingPrice AccountingClaims.
From S2P Require Import AccountingLifecycle.

(** * Concrete vaults the witnesses evaluate *)

Definition sample_genesis : Genesis :=
  mkGenesis (mkConfig 1 6 18 1 1 100) (mkAuthority 1 2) [(10, 1000000); (11, 5000000)] 7 0.

Definition genesis_or (g : Genesis) (d : State) : State :=
  match state_new g with Ok s => s | Err _ => d end.

(** The state a run ends in, or its start when the run is refused. *)
Definition after (s : State) (ops : list Operation) : State :=
  match run s ops with Ok s' => s' | Err _ => s end.

(** A vault with nothing in it, the value no sample ever takes. *)
Definition blank : State :=
  mkState (mkConfig 0 0 0 0 0 0) (mkAuthority 0 0) Active None 0 0 ∅ ∅ ∅ ∅
    (mkBuckets 0 0 0 0 0 0 0 0) 0 0 0 0 0 0 0 0 0 0 transfer_zero 0 CycleNone transfer_zero 0
    false 0 0 0 ∅ ∅.

Definition sample_start : State := genesis_or sample_genesis blank.

Lemma sample_start_new : state_new sample_genesis = Ok sample_start.
Proof. reflexivity. Qed.

Lemma sample_genesis_typed : genesis_typed sample_genesis.
Proof. by apply (bool_decide_unpack (genesis_typed sample_genesis)). Qed.

Definition ops_typed (ops : list Operation) : bool := bool_decide (Forall op_typed ops).

Lemma after_reachable s0 s ops :
  reachable s0 s -> ops_typed ops = true -> reachable s0 (after s ops).
Proof.
  intros Hs Hty%bool_decide_eq_true. unfold after. destruct (run s ops) eqn:Hrun; [|done].
  by eapply reachable_run.
Qed.

Lemma after_local s0 s ops :
  local_reachable s0 s -> ops_typed ops = true ->
  forallb (fun op => negb (is_begin_allocate op)) ops = true -> local_reachable s0 (after s ops).
Proof.
  intros Hs Hty%bool_decide_eq_true Hl. unfold after. destruct (run s ops) eqn:Hrun; [|done].
  by eapply local_run.
Qed.

Definition tid (n : Z) : TransferId := n :: replicate 31 0.

(** Two depositors, one settled epoch and the next one open. *)
Definition sample_settle : list Operation :=
  [RequestDeposit 10 500000; RequestDeposit 11 3; CutoffEpoch 100; FinalizeEpoch;
   OpenNextEpoch 100].

(** The first depositor claims and asks for half of the shares back. *)
Definition sample_redeem : list Operation :=
  sample_settle ++ [ClaimDeposit 10 0; RequestRedeem 10 250000000000000000; CutoffEpoch 200; FinalizeEpoch;
                    OpenNextEpoch 200].

(** The vault is frozen with requests of both kinds in the open epoch. *)
Definition sample_abort : list Operation :=
  sample_settle ++ [ClaimDeposit 10 0; RequestRedeem 10 1000; RequestDeposit 11 77; Freeze 2;
                    AbortEpoch 2].

(** One allocation to the remote leg, completed at par. *)
Definition sample_remote : list Operation :=
  sample_settle ++ [ClaimDeposit 10 0; BeginAllocate 1 (tid 1) 100000;
                    CompleteAllocation (tid 1) 100000].

(** An unrealized mark-down of the remote position, with no loss reported. *)
Definition sample_markdown : list Operation :=
  sample_remote ++ [CutoffEpoch 200; LockRemoteValuation; FinalizeEpoch; OpenNextEpoch 200;
                    ApplyRemoteValuation 50000 0; RequestRedeem 10 1000000; CutoffEpoch 300;
                    LockRemoteValuation; FinalizeEpoch].

(** * The properties *)

(** Discharges the reachability of a sample state. *)
Ltac sample_reach :=
  match goal with
  | |- reachable sample_start (after sample_start ?ops) =>
      exact (after_reachable sample_start sample_start ops (reach_start _) eq_refl)
  | |- local_reachable sample_start (after sample_start ?ops) =>
      exact (after_local sample_start sample_start ops (local_start _) eq_refl eq_refl)
  end.

Section reachable_states.
  Context (g : Genesis) (s0 s : State).
  Context (Hg : genesis_typed g) (Hnew : state_new g = Ok s0).

Lemma genesis_reachable_inv : reachable s0 s -> Inv s.
Proof. apply reachable_inv. by eapply state_new_inv. Qed.



(** C3. A claimable deposit can always be claimed: the claim succeeds, credits
    exactly the entitlement under the epoch's terms, and a second claim of the
    same request is refused. *)
Theorem deposit_claims_payable a e :
  reachable s0 s -> deposit_request_state s (mkRequestKey e a) = Some Claimable ->
  exists t r s', finalized_terms s e = Some t /\
    s.(deposit_requests) !! mkRequestKey e a = Some r /\
    claim_deposit s a e = Ok s' /\
    (account s' a).(acc_shares) = (account s a).(acc_shares) + deposit_entitlement t r /\
    s'.(claimable_deposit_shares) = s.(claimable_deposit_shares) - deposit_entitlement t r /\
    claim_deposit s' a e = Err ClaimAlreadyConsumed.
Proof.
  intros HI%genesis_reachable_inv (r & Hk & Hl)%deposit_request_state_Some.
  apply lifecycle_Claimable in Hl as (Hca & Hcl & t & He). cbn in He.
  pose proof (claim_deposit_ok s a e t r HI He Hk Hca Hcl) as Hok.
  exists t, r, (deposit_claimed_state s a e t r).
  split_and!; [by apply finalized_terms_Some|done|done| |done|].
  - unfold deposit_claimed_state, account at 1. cbn. by rewrite lookup_insert_eq.
  - unfold claim_deposit, finalized_terms. cbn. rewrite He. cbn.
    by rewrite lookup_alter_eq, Hk; cbn; rewrite Hca.
Qed.


(** Every request of an aborted epoch is refunded in full, once: deposits
    from escrow, redemptions from escrowed shares. *)
Theorem aborted_refunds_payable a e :
  reachable s0 s -> supply_fits s ->
  (deposit_request_state s (mkRequestKey e a) = Some Refundable ->
    exists r s', s.(deposit_requests) !! mkRequestKey e a = Some r /\
      claim_aborted_deposit s a e = Ok s' /\
      (account s' a).(acc_assets) = (account s a).(acc_assets) + r.(dr_assets) /\
      claim_aborted_deposit s' a e = Err ClaimAlreadyConsumed) /\
  (redeem_request_state s (mkRequestKey e a) = Some Refundable ->
    exists r s', s.(redeem_requests) !! mkRequestKey e a = Some r /\
      claim_aborted_redeem s a e = Ok s' /\
      (account s' a).(acc_shares) = (account s a).(acc_shares) + r.(rr_shares) /\
      claim_aborted_redeem s' a e = Err ClaimAlreadyConsumed).
Proof.
  intros HI%genesis_reachable_inv Hfit. split.
  - intros (r & Hk & Hl)%deposit_request_state_Some.
    apply lifecycle_Refundable in Hl as (Hca & Hcl & t & He). cbn in He.
    exists r, (deposit_refunded_state s a e r).
    split_and!; [done|by eapply claim_aborted_deposit_ok| |].
    + unfold deposit_refunded_state, account at 1. cbn. by rewrite lookup_insert_eq.
    + unfold claim_aborted_deposit, aborted_terms. cbn. rewrite He. cbn.
      by rewrite lookup_alter_eq, Hk; cbn; rewrite Hca.
  - intros (r & Hk & Hl)%redeem_request_state_Some.
    apply lifecycle_Refundable in Hl as (Hca & Hcl & t & He). cbn in He.
    exists r, (redeem_refunded_state s a e r).
    split_and!; [done|by eapply claim_aborted_redeem_ok| |].
    + unfold redeem_refunded_state, account at 1. cbn. by rewrite lookup_insert_eq.
    + unfold claim_aborted_redeem, aborted_terms. cbn. rewrite He. cbn.
      by rewrite lookup_alter_eq, Hk; cbn; rewrite Hca.
Qed.
End reachable_states.

Abbreviation settled_sample := (after sample_start sample_settle).
Abbreviation redeemed_sample := (after sample_start sample_redeem).
Abbreviation aborted_sample := (after sample_start sample_abort).
Abbreviation remote_sample := (after sample_start sample_remote).



Lemma deposit_claims_payable_witness :
  exists s', claim_deposit settled_sample 10 0 = Ok s'.
Proof.
  destruct (deposit_claims_payable sample_genesis sample_start settled_sample
    sample_genesis_typed sample_start_new 10 0 ltac:(sample_reach) ltac:(vm_compute; reflexivity))
    as (t & r & s' & _ & _ & Hok & _).
  exists s'. exact Hok.
Defined.


Lemma aborted_refunds_payable_witness :
  (exists s', claim_aborted_deposit aborted_sample 11 1 = Ok s') /\
  (exists s', claim_aborted_redeem aborted_sample 10 1 = Ok s').
Proof.
  split.
  - destruct (proj1 (aborted_refunds_payable sample_genesis sample_start aborted_sample
      sample_genesis_typed sample_start_new 11 1 ltac:(sample_reach) ltac:(vm_compute; discriminate))
      ltac:(vm_compute; reflexivity)) as (r & s' & _ & Hok & _). exists s'. exact Hok.
  - destruct (proj2 (aborted_refunds_payable sample_genesis sample_start aborted_sample
      sample_genesis_typed sample_start_new 10 1 ltac:(sample_reach) ltac:(vm_compute; discriminate))
      ltac:(vm_compute; reflexivity)) as (r & s' & _ & Hok & _). exists s'. exact Hok.
Defined.



(** C6. Every accepted operation moves every request, deposit or redemption,
    along an edge of its lifecycle; no record disappears, and [Claimed] and
    [Refunded] are final. *)
Theorem request_lifecycle_edges g s0 s op s' :
  genesis_typed g -> state_new g = Ok s0 -> reachable s0 s -> apply s op = Ok s' ->
  (forall k st, deposit_request_state s k = Some st ->
    exists st', deposit_request_state s' k = Some st' /\ lifecycle_edge st st' = true) /\
  (forall k st, redeem_request_state s k = Some st ->
    exists st', redeem_request_state s' k = Some st' /\ lifecycle_edge st st' = true).
Proof.
  intros Hg Hnew HI%(genesis_reachable_inv g s0 s Hg Hnew) Hop.
  exact (books_step_follows s s' HI (apply_books s op s' HI Hop)).
Qed.

Lemma request_lifecycle_edges_witness :
  exists s' st', apply settled_sample (ClaimDeposit 10 0) = Ok s' /\
    deposit_request_state s' (mkRequestKey 0 10) = Some st' /\
    lifecycle_edge Claimable st' = true.
Proof.
  destruct (apply settled_sample (ClaimDeposit 10 0)) as [s'|r] eqn:Hop;
    [|vm_compute in Hop; discriminate Hop].
  destruct (proj1 (request_lifecycle_edges sample_genesis sample_start settled_sample
    (ClaimDeposit 10 0) s' sample_genesis_typed sample_start_new ltac:(sample_reach) Hop)
    (mkRequestKey 0 10) Claimable ltac:(vm_compute; reflexivity)) as (st' & Hst & Hedge).
  exists s', st'. split; [reflexivity|]. split; [exact Hst|exact Hedge].
Defined.

(** The terms an epoch settled at, or the record of its abort, never
    change afterwards, and no later epoch reuses its identity. *)
Theorem settled_terms_immutable g s0 s s' id o :
  genesis_typed g -> state_new g = Ok s0 -> reachable s0 s -> reachable s s' ->
  s.(epochs) !! id = Some o ->
  s'.(epochs) !! id = Some o /\
  match s'.(epoch) with Some e => id < e.(ep_id) | None => id < s'.(next_epoch_id) end.
Proof.
  intros Hg Hnew HI%(genesis_reachable_inv g s0 s Hg Hnew) Hr Ho.
  pose proof (reachable_epochs s s' id o HI Hr Ho) as Ho'. split; [done|].
  pose proof (bi_ids _ (inv_book _ (reachable_inv s s' HI Hr)) id ltac:(eauto)) as Hlt.
  by destruct (epoch s').
Qed.

Lemma settled_terms_immutable_witness :
  exists o, (after sample_start sample_settle).(epochs) !! 0 = Some o /\
    (after settled_sample [ClaimDeposit 10 0; CutoffEpoch 200; FinalizeEpoch]).(epochs) !! 0 = Some o.
Proof.
  destruct (settled_sample.(epochs) !! 0) as [o|] eqn:Ho; [|vm_compute in Ho; discriminate Ho].
  exists o. split; [reflexivity|].
  refine (proj1 (settled_terms_immutable sample_genesis sample_start settled_sample _ 0 o
    sample_genesis_typed sample_start_new ltac:(sample_reach) _ Ho)).
  exact (after_reachable settled_sample settled_sample
    [ClaimDeposit 10 0; CutoffEpoch 200; FinalizeEpoch] (reach_start _) eq_refl).
Defined.

(** The operations that open a remote cycle under a transfer identity. *)
Definition opens_cycle (op : Operation) : option TransferId :=
  match op with
  | BeginAllocate _ t _ | BeginRecall _ t _ | BeginRecover _ t => Some t
  | _ => None
  end.

Lemma opens_cycle_marks s op s' t :
  opens_cycle op = Some t -> apply s op = Ok s' ->
  (t ∉ s.(used_transfer_ids)) /\ (t ∈ s'.(used_transfer_ids)).
Proof.
  intros Hop Happ. destruct op; cbn in Hop; simplify_eq; cbn in Happ;
    unfold begin_allocate, begin_recall, begin_recover in Happ; cbv zeta in Happ; invert_remote;
    (split; [done|]); apply elem_of_union_l; by apply elem_of_singleton_2.
Qed.

(** A transfer identity opens at most one remote cycle, whatever happens
    in between: an operation that would open a second one is refused. *)
Theorem transfer_id_opens_once s op s1 s2 op' t :
  opens_cycle op = Some t -> opens_cycle op' = Some t ->
  apply s op = Ok s1 -> reachable s1 s2 -> is_ok (apply s2 op') = false.
Proof.
  intros Hop Hop' Happ Hr. apply (opens_cycle_marks s op s1 t Hop) in Happ as [_ Ht].
  assert (t ∈ s2.(used_transfer_ids)) as Ht2.
  { induction Hr; [done|]. by eapply used_transfer_ids_grow. }
  destruct (apply s2 op') as [s3|] eqn:Happ'; [|done].
  by apply (opens_cycle_marks s2 op' s3 t Hop') in Happ' as [Hn _].
Qed.

Lemma transfer_id_opens_once_witness :
  let s := after sample_start (sample_settle ++ [ClaimDeposit 10 0]) in
  let s1 := after s [BeginAllocate 1 (tid 1) 100000] in
  let s2 := after s1 [CompleteAllocation (tid 1) 100000; ApplyRemoteValuation 90000 0] in
  apply s (BeginAllocate 1 (tid 1) 100000) = Ok s1 /\
  is_ok (apply s2 (BeginRecall 1 (tid 1) 5)) = false.
Proof.
  intros s s1 s2.
  assert (apply s (BeginAllocate 1 (tid 1) 100000) = Ok s1) as Hop by (vm_compute; reflexivity).
  split; [exact Hop|].
  refine (transfer_id_opens_once s (BeginAllocate 1 (tid 1) 100000) s1 s2
    (BeginRecall 1 (tid 1) 5) (tid 1) eq_refl eq_refl Hop _).
  exact (after_reachable s1 s1 [CompleteAllocation (tid 1) 100000; ApplyRemoteValuation 90000 0]
    (reach_start _) eq_refl).
Defined.



(** Remote exposure in every reachable state: accepted remote value never
    exceeds the principal sent, outbound transit is exactly the open
    allocation, a pending recall is exactly the open recall and is covered by
    principal, and a close is requested only for an open allocation. *)
Theorem remote_cycle_consistent g s0 s :
  genesis_typed g -> state_new g = Ok s0 -> reachable s0 s ->
  0 <= s.(buckets).(accepted_remote_value) <= s.(remote_principal_cap) /\
  s.(buckets).(outbound_in_transit) =
    (if decide (s.(active_cycle) = CycleAllocate) then s.(active_amount) else 0) /\
  s.(pending_recall_principal) =
    (if decide (s.(active_cycle) = CycleRecall) then s.(active_amount) else 0) /\
  s.(pending_recall_principal) <= s.(remote_principal_cap) /\
  (s.(close_requested) = true -> s.(active_cycle) = CycleAllocate) /\
  (s.(active_cycle) <> CycleNone -> s.(active_transfer_id) ∈ s.(used_transfer_ids)) /\
  s.(impaired_transport) <= s.(cumulative_impairment).
Proof.
  intros Hg Hnew HI%(genesis_reachable_inv g s0 s Hg Hnew).
  pose proof (inv_asset_bounds s HI) as [_ _ [? ?]]. destruct (inv_remote _ HI).
  split_and!; try done. rewrite ri_recall. case_decide; [auto|lia].
Qed.

Lemma remote_cycle_consistent_witness :
  0 < remote_sample.(buckets).(accepted_remote_value) <= remote_sample.(remote_principal_cap).
Proof.
  destruct (remote_cycle_consistent sample_genesis sample_start remote_sample
    sample_genesis_typed sample_start_new ltac:(sample_reach)) as [[_ Hle] _].
  split; [vm_compute; reflexivity|exact Hle].
Defined.

Lemma frozen_step s op s' :
  s.(vault_state) = Frozen -> apply s op = Ok s' -> s'.(vault_state) = Frozen.
Proof.
  intros Hf Happ. destruct op; cbn in Happ;
    unfold request_deposit, cancel_deposit, request_redeem, cancel_redeem, cutoff_epoch,
      finalize_epoch, abort_epoch, claim_deposit, claim_redeem, claim_aborted_deposit,
      claim_aborted_redeem, open_next_epoch, pause, unpause, freeze, begin_allocate,
      complete_allocation, begin_recall, accept_recall_sent, observe_inbound,
      apply_remote_valuation, lock_remote_valuation, request_close, settle_close,
      begin_recover, settle_recover, credit_remote, epoch_mut in Happ;
    cbv zeta in Happ;
    repeat (first [progress invert_amounts | progress cbv beta iota in * |
      match goal with H : (if ?b then _ else _) = Ok _ |- _ => destruct b
                    | H : (let (_, _) := ?p in _) = Ok _ |- _ => destruct p end]);
    first [exact Hf | congruence].
Qed.

Lemma refundable_after_abort s s' id t ca :
  s'.(epochs) = <[id := Aborted t]> s.(epochs) -> ca = false ->
  lifecycle s' id ca false = Refundable.
Proof. intros He ->. unfold lifecycle. by rewrite He, lookup_insert_eq. Qed.

(** C8. A frozen vault stays frozen, and its users still get out: the
    guardian or the admin can abort the current epoch in one step, after which
    every request of that epoch that was not cancelled is refundable. *)
Theorem frozen_vault_exits g s0 s :
  genesis_typed g -> state_new g = Ok s0 -> reachable s0 s -> s.(vault_state) = Frozen ->
  (forall s', reachable s s' -> s'.(vault_state) = Frozen) /\
  (forall e actor, s.(epoch) = Some e -> e.(ep_id) < u64_max ->
    actor = s.(authority).(guardian) \/ actor = s.(authority).(admin) ->
    exists s', abort_epoch s actor = Ok s' /\ s'.(epoch) = None /\
      (forall a r, s.(deposit_requests) !! mkRequestKey e.(ep_id) a = Some r ->
        dr_cancelled r = false ->
        deposit_request_state s' (mkRequestKey e.(ep_id) a) = Some Refundable) /\
      (forall a r, s.(redeem_requests) !! mkRequestKey e.(ep_id) a = Some r ->
        rr_cancelled r = false ->
        redeem_request_state s' (mkRequestKey e.(ep_id) a) = Some Refundable)).
Proof.
  intros Hg Hnew HI%(genesis_reachable_inv g s0 s Hg Hnew) Hf. split.
  { intros s' Hr. induction Hr; [done|]. by eapply frozen_step. }
  intros e actor He Hid Hactor. destruct (inv_book _ HI) as [HD HR _].
  assert (is_current s.(epoch) e.(ep_id)) as Hcur by (by rewrite He).
  unfold abort_epoch, require_guardian_or_admin.
  replace ((actor =? admin (authority s)) || (actor =? guardian (authority s))) with true
    by (destruct Hactor as [-> | ->]; rewrite Z.eqb_refl; by rewrite ?orb_true_r).
  rewrite bool_decide_true by done. cbn. rewrite He. cbn.
  rewrite (current_unsettled s e (inv_book _ HI) He), bool_decide_false by (by intros []).
  unfold epoch_next, checked_add. destruct (Z.leb_spec (ep_id e + 1) u64_max); [|lia]. cbn.
  eexists. split_and!; [done|done| |]; intros a r Hk Hca.
  - unfold deposit_request_state. cbn. rewrite Hk. cbn.
    assert (dr_claimed r = false) as -> by exact (current_unclaimed s _ (mkRequestKey _ a) r HI HD Hcur Hk).
    by erewrite refundable_after_abort.
  - unfold redeem_request_state. cbn. rewrite Hk. cbn.
    assert (rr_claimed r = false) as -> by exact (current_unclaimed s _ (mkRequestKey _ a) r HI HR Hcur Hk).
    by erewrite refundable_after_abort.
Qed.

Lemma frozen_vault_exits_witness :
  let s := after sample_start [RequestDeposit 10 500; Freeze 2] in
  exists s', abort_epoch s 2 = Ok s' /\
    deposit_request_state s' (mkRequestKey 0 10) = Some Refundable.
Proof.
  intros s. assert (s.(vault_state) = Frozen) as Hf by (vm_compute; reflexivity).
  destruct (s.(epoch)) as [e|] eqn:He; [|vm_compute in He; discriminate He].
  destruct (s.(deposit_requests) !! mkRequestKey 0 10) as [r|] eqn:Hk; [|vm_compute in Hk; discriminate Hk].
  assert (e.(ep_id) = 0) as Hid by (vm_compute in He; injection He as <-; reflexivity).
  assert (r.(dr_cancelled) = false) as Hc by (vm_compute in Hk; injection Hk as <-; reflexivity).
  destruct (proj2 (frozen_vault_exits sample_genesis sample_start s sample_genesis_typed
    sample_start_new (after_reachable sample_start sample_start [RequestDeposit 10 500; Freeze 2]
      (reach_start _) eq_refl) Hf) e 2 He) as (s' & Hok & _ & Hd & _).
  - rewrite Hid. reflexivity.
  - left. vm_compute. reflexivity.
  - exists s'. split; [exact Hok|]. rewrite Hid in Hd. exact (Hd 10 r Hk Hc).
Defined.

(** Conversions round against the caller.  On amounts that fit [u128]
    the 256 bit product never overflows, so a conversion returns the exact
    floor, or [ArithmeticOverflow] when that floor does not fit; and
    converting there and back never returns more than was put in. *)
Theorem conversions_round_down b a :
  basis_ok b -> is_u128 a ->
  (let q := a * share_units b / asset_units b in
   assets_to_shares a b = if q <=? u128_max then Ok q else Err ArithmeticOverflow) /\
  (let q := a * asset_units b / share_units b in
   shares_to_assets a b = if q <=? u128_max then Ok q else Err ArithmeticOverflow) /\
  (forall q p, assets_to_shares a b = Ok q -> shares_to_assets q b = Ok p -> p <= a) /\
  (forall q p, shares_to_assets a b = Ok q -> assets_to_shares q b = Ok p -> p <= a).
Proof.
  intros Hb Ha. pose proof Hb as (?&?&?&?&Hau&Hsu).
  assert (0 < asset_units b /\ 0 < share_units b) as [HA HS] by (unfold asset_units, share_units; lia).
  assert (forall x y z, 0 < y -> 0 < z -> 0 <= x -> (x * y / z) * z / y <= x) as Hround.
  { intros x y z Hy Hz Hx. pose proof (Z.mul_div_le (x * y) z Hz).
    assert (x * y / z * z / y < x + 1); [apply Z.div_lt_upper_bound; nia|lia]. }
  split_and!.
  - cbv zeta. unfold assets_to_shares, share_side, asset_side, asset_units, share_units in *.
    rewrite !amount_add_ok by done. rewrite mul_div_floor_spec by (unfold fits in *; lia || done).
    destruct (Z.eqb_spec (pb_total_assets b + pb_virtual_assets b) 0); [lia|done].
  - cbv zeta. unfold shares_to_assets, share_side, asset_side, asset_units, share_units in *.
    rewrite !amount_add_ok by done. rewrite mul_div_floor_spec by (unfold fits in *; lia || done).
    destruct (Z.eqb_spec (pb_total_supply b + pb_virtual_shares b) 0); [lia|done].
  - intros q p (-> & _ & _)%assets_to_shares_Ok (-> & _ & _)%shares_to_assets_Ok.
    apply Hround; [done|done|apply Ha].
  - intros q p (-> & _ & _)%shares_to_assets_Ok (-> & _ & _)%assets_to_shares_Ok.
    apply Hround; [done|done|apply Ha].
Qed.

Lemma conversions_round_down_witness :
  assets_to_shares 7 (mkPricingBasis 10 20 1 1) = Ok 13 /\
  shares_to_assets 13 (mkPricingBasis 10 20 1 1) = Ok 6 /\ 6 <= 7.
Proof.
  split_and!; [vm_compute; reflexivity|vm_compute; reflexivity|].
  refine (proj1 (proj2 (proj2 (conversions_round_down (mkPricingBasis 10 20 1 1) 7 _ _))) 13 6 _ _);
    vm_compute; repeat split; discriminate || reflexivity.
Defined.

(** C9. The price rule of [check_invariants] is not an invariant of the
    transitions: an accepted run in which the remote position is only marked
    down, with no loss recognized and nothing impaired, settles a later epoch
    at a lower price, and the rule reports it. *)
Theorem unrealized_markdown_breaks_price_rule :
  let s := after sample_start sample_markdown in
  run sample_start sample_markdown = Ok s /\ forallb (fun op => bool_decide (op_typed op)) sample_markdown = true /\
  s.(recognized_loss) = 0 /\ s.(inbound_cumulative_loss) = 0 /\ s.(cumulative_impairment) = 0 /\
  check_invariants s = Err PriceDecreased.
Proof. vm_compute. repeat split. Qed.

(** The figures [state.rs] reports as outstanding are exactly what the
    vault holds for them: the reserve and the claimable shares, less the dust
    of settled epochs, and the escrow, less the current epoch. *)
Theorem outstanding_figures_backed g s0 s :
  genesis_typed g -> state_new g = Ok s0 -> reachable s0 s -> supply_fits s ->
  outstanding_redeem_assets s =
    Ok (s.(buckets).(claim_reserve) - settled_sum s.(epochs) redeem_dust_of) /\
  outstanding_deposit_shares s =
    Ok (s.(claimable_deposit_shares) - settled_sum s.(epochs) deposit_dust_of) /\
  outstanding_refund_assets s =
    Ok (s.(buckets).(pending_deposit_escrow) - current_deposits s.(epoch)) /\
  outstanding_refund_shares s =
    Ok (s.(escrowed_redeem_shares) - current_redeems s.(epoch)).
Proof.
  intros Hg Hnew HI%(genesis_reachable_inv g s0 s Hg Hnew) Hfit.
  destruct (outstanding_claims s HI Hfit), (outstanding_refunds s HI Hfit). by split_and!.
Qed.

Lemma outstanding_figures_backed_witness :
  outstanding_refund_assets aborted_sample =
    Ok (aborted_sample.(buckets).(pending_deposit_escrow) - current_deposits aborted_sample.(epoch)) /\
  outstanding_refund_assets aborted_sample = Ok 77.
Proof.
  split; [|vm_compute; reflexivity].
  exact (proj1 (proj2 (proj2 (outstanding_figures_backed sample_genesis sample_start aborted_sample
    sample_genesis_typed sample_start_new ltac:(sample_reach) ltac:(vm_compute; discriminate))))).
Defined.

(** Before cutoff a request can be undone: cancelling a first deposit
    request of the epoch succeeds and restores every account, every bucket and
    the epoch's total. *)
Theorem deposit_cancel_round_trip g s0 s a x s1 :
  genesis_typed g -> state_new g = Ok s0 -> reachable s0 s -> supply_fits s ->
  is_u64 a -> is_u128 x -> request_deposit s a x = Ok s1 ->
  (forall e, s.(epoch) = Some e -> s.(deposit_requests) !! mkRequestKey e.(ep_id) a = None) ->
  exists s2, cancel_deposit s1 a = Ok s2 /\
    (forall b, account s2 b = account s b) /\
    s2.(buckets) = s.(buckets) /\ s2.(epoch) = s.(epoch).
Proof.
  intros Hg Hnew HI%(genesis_reachable_inv g s0 s Hg Hnew) Hfit Hau Hxu Hop Hfresh.
  pose proof (request_deposit_inv s a x s1 HI Hau Hxu Hop) as HI1.
  apply request_deposit_spec in Hop as (e & He & Hph & Hact & Hx & ->).
  specialize (Hfresh e He).
  set (r := mkDepositRequest x 0 false false).
  set (s1 := deposit_requested_state s e a x) in *.
  assert (s1.(deposit_requests) !! mkRequestKey e.(ep_id) a = Some r) as Hk.
  { unfold s1, deposit_requested_state, deposit_entry. cbn. by rewrite lookup_insert_eq, Hfresh. }
  exists (deposit_cancelled_state s1 (e <| ep_pending_deposit_assets ::= (fun d => d + x) |>) a r).
  split_and!.
  - assert (s1.(vault_state) = Active) as Hact1 by exact Hact.
    apply cancel_deposit_ok; try done; [by rewrite Hact1|cbn; apply Hxu].
  - intros b. unfold deposit_cancelled_state, account at 1. cbn.
    destruct (decide (a = b)) as [<-|Hne].
    + rewrite lookup_insert_eq. cbn. unfold account. cbn. rewrite lookup_insert_eq. cbn.
      fold (account s a). rewrite Z.sub_add. by destruct (account s a).
    + by rewrite !lookup_insert_ne by done.
  - cbn. rewrite Z.add_simpl_r. by destruct (buckets s).
  - cbn. rewrite He, Z.add_simpl_r. by destruct e.
Qed.

Lemma deposit_cancel_round_trip_witness :
  let s1 := after sample_start [RequestDeposit 10 500] in
  exists s2, cancel_deposit s1 10 = Ok s2 /\ s2.(buckets) = sample_start.(buckets).
Proof.
  intros s1.
  destruct (deposit_cancel_round_trip sample_genesis sample_start sample_start 10 500 s1
    sample_genesis_typed sample_start_new (reach_start _)) as (s2 & Hok & _ & Hb & _).
  - vm_compute. discriminate.
  - split; vm_compute; discriminate.
  - split; vm_compute; discriminate.
  - vm_compute. reflexivity.
  - intros e He. vm_compute in He. injection He as <-. vm_compute. reflexivity.
  - exists s2. split; [exact Hok|exact Hb].
Defined.
