(* ===== verification/ProtocolLayout.v ===== *)
(** Offsets and widths of the wire format
    ([crates/protocol-types/src/layout.rs]) and the compile-time checks the
    crate runs over them. *)

From Stdlib Require Import ZArith Lia.
From S2P Require Import Prelude.

#[local] Open Scope nat_scope.

Definition WIDE : nat := 32.

(** * Header *)

Definition MAGIC_OFFSET : nat := 0.
Definition MAGIC_LEN : nat := 4.
Definition PROTOCOL_VERSION_OFFSET : nat := MAGIC_OFFSET + MAGIC_LEN.
Definition SCHEMA_VERSION_OFFSET : nat := PROTOCOL_VERSION_OFFSET + 2.
Definition MESSAGE_TYPE_OFFSET : nat := SCHEMA_VERSION_OFFSET + 2.
Definition FLAGS_OFFSET : nat := MESSAGE_TYPE_OFFSET + 1.
Definition SOURCE_CHAIN_OFFSET : nat := FLAGS_OFFSET + 2.
Definition DESTINATION_CHAIN_OFFSET : nat := SOURCE_CHAIN_OFFSET + 4.
Definition SOURCE_APPLICATION_OFFSET : nat := DESTINATION_CHAIN_OFFSET + 4.
Definition DESTINATION_APPLICATION_OFFSET : nat := SOURCE_APPLICATION_OFFSET + WIDE.
Definition DEPLOYMENT_ID_OFFSET : nat := DESTINATION_APPLICATION_OFFSET + WIDE.
Definition VAULT_ID_OFFSET : nat := DEPLOYMENT_ID_OFFSET + WIDE.
Definition LANE_ID_OFFSET : nat := VAULT_ID_OFFSET + WIDE.
Definition SEQUENCE_OFFSET : nat := LANE_ID_OFFSET + 4.
Definition PREVIOUS_COMMITMENT_OFFSET : nat := SEQUENCE_OFFSET + 8.
Definition OBSERVED_AT_OFFSET : nat := PREVIOUS_COMMITMENT_OFFSET + WIDE.
Definition PUBLISHED_AT_OFFSET : nat := OBSERVED_AT_OFFSET + 8.
Definition EXPIRES_AT_OFFSET : nat := PUBLISHED_AT_OFFSET + 8.
Definition BODY_HASH_OFFSET : nat := EXPIRES_AT_OFFSET + 8.
Definition HEADER_LEN : nat := BODY_HASH_OFFSET + WIDE.

(** * Bodies *)

Definition ALLOCATE_TRANSFER_ID_OFFSET : nat := 0.
Definition ALLOCATE_AMOUNT_OFFSET : nat := ALLOCATE_TRANSFER_ID_OFFSET + WIDE.
Definition ALLOCATE_EXPECTED_SOURCE_BALANCE_OFFSET : nat := ALLOCATE_AMOUNT_OFFSET + 16.
Definition ALLOCATE_MINIMUM_DESTINATION_AMOUNT_OFFSET : nat :=
  ALLOCATE_EXPECTED_SOURCE_BALANCE_OFFSET + 16.
Definition ALLOCATE_DEADLINE_OFFSET : nat := ALLOCATE_MINIMUM_DESTINATION_AMOUNT_OFFSET + 16.
Definition ALLOCATE_CONFIG_VERSION_OFFSET : nat := ALLOCATE_DEADLINE_OFFSET + 8.
Definition ALLOCATE_BODY_LEN : nat := ALLOCATE_CONFIG_VERSION_OFFSET + 8.

Definition RECALL_TRANSFER_ID_OFFSET : nat := 0.
Definition RECALL_REQUESTED_AMOUNT_OFFSET : nat := RECALL_TRANSFER_ID_OFFSET + WIDE.
Definition RECALL_MINIMUM_RETURN_AMOUNT_OFFSET : nat := RECALL_REQUESTED_AMOUNT_OFFSET + 16.
Definition RECALL_DEADLINE_OFFSET : nat := RECALL_MINIMUM_RETURN_AMOUNT_OFFSET + 16.
Definition RECALL_CONFIG_VERSION_OFFSET : nat := RECALL_DEADLINE_OFFSET + 8.
Definition RECALL_BODY_LEN : nat := RECALL_CONFIG_VERSION_OFFSET + 8.

Definition REPORT_EPOCH_ID_OFFSET : nat := 0.
Definition REPORT_REMOTE_PRINCIPAL_OFFSET : nat := REPORT_EPOCH_ID_OFFSET + 8.
Definition REPORT_REPORTED_VALUE_OFFSET : nat := REPORT_REMOTE_PRINCIPAL_OFFSET + 16.
Definition REPORT_REALIZED_LOSS_OFFSET : nat := REPORT_REPORTED_VALUE_OFFSET + 16.
Definition REPORT_UNATTRIBUTED_BALANCE_OFFSET : nat := REPORT_REALIZED_LOSS_OFFSET + 16.
Definition REPORT_LATEST_COMPLETED_TRANSFER_ID_OFFSET : nat :=
  REPORT_UNATTRIBUTED_BALANCE_OFFSET + 16.
Definition REPORT_PROBE_STATUS_OFFSET : nat := REPORT_LATEST_COMPLETED_TRANSFER_ID_OFFSET + WIDE.
Definition REPORT_PROBE_TIMESTAMP_OFFSET : nat := REPORT_PROBE_STATUS_OFFSET + 1.
Definition REPORT_CONFIG_VERSION_OFFSET : nat := REPORT_PROBE_TIMESTAMP_OFFSET + 8.
Definition REPORT_REMOTE_STATE_COMMITMENT_OFFSET : nat := REPORT_CONFIG_VERSION_OFFSET + 8.
Definition REMOTE_REPORT_BODY_LEN : nat := REPORT_REMOTE_STATE_COMMITMENT_OFFSET + WIDE.

Definition RECALL_SENT_TRANSFER_ID_OFFSET : nat := 0.
Definition RECALL_SENT_PRINCIPAL_SENT_OFFSET : nat := RECALL_SENT_TRANSFER_ID_OFFSET + WIDE.
Definition RECALL_SENT_ACTUAL_AMOUNT_SENT_OFFSET : nat := RECALL_SENT_PRINCIPAL_SENT_OFFSET + 16.
Definition RECALL_SENT_REALIZED_LOSS_OFFSET : nat := RECALL_SENT_ACTUAL_AMOUNT_SENT_OFFSET + 16.
Definition RECALL_SENT_DESTINATION_REFERENCE_OFFSET : nat := RECALL_SENT_REALIZED_LOSS_OFFSET + 16.
Definition RECALL_SENT_SENT_TIMESTAMP_OFFSET : nat :=
  RECALL_SENT_DESTINATION_REFERENCE_OFFSET + WIDE.
Definition RECALL_SENT_CONFIG_VERSION_OFFSET : nat := RECALL_SENT_SENT_TIMESTAMP_OFFSET + 8.
Definition RECALL_SENT_BODY_LEN : nat := RECALL_SENT_CONFIG_VERSION_OFFSET + 8.

Definition CONFIG_VERSION_OFFSET : nat := 0.
Definition CONFIG_PREVIOUS_VERSION_OFFSET : nat := CONFIG_VERSION_OFFSET + 8.
Definition CONFIG_MAX_REMOTE_ALLOCATION_BPS_OFFSET : nat := CONFIG_PREVIOUS_VERSION_OFFSET + 8.
Definition CONFIG_MAX_UPWARD_DEVIATION_BPS_OFFSET : nat :=
  CONFIG_MAX_REMOTE_ALLOCATION_BPS_OFFSET + 2.
Definition CONFIG_MAX_DOWNWARD_DEVIATION_BPS_OFFSET : nat :=
  CONFIG_MAX_UPWARD_DEVIATION_BPS_OFFSET + 2.
Definition CONFIG_MAX_REPORT_AGE_OFFSET : nat := CONFIG_MAX_DOWNWARD_DEVIATION_BPS_OFFSET + 2.
Definition CONFIG_EFFECTIVE_TIMESTAMP_OFFSET : nat := CONFIG_MAX_REPORT_AGE_OFFSET + 8.
Definition CONFIG_COMMITMENT_OFFSET : nat := CONFIG_EFFECTIVE_TIMESTAMP_OFFSET + 8.
Definition CONFIG_UPDATE_BODY_LEN : nat := CONFIG_COMMITMENT_OFFSET + WIDE.

Definition RESOLVE_TRANSFER_ID_OFFSET : nat := 0.
Definition RESOLVE_TARGET_SEQUENCE_OFFSET : nat := RESOLVE_TRANSFER_ID_OFFSET + WIDE.
Definition RESOLVE_ACTION_OFFSET : nat := RESOLVE_TARGET_SEQUENCE_OFFSET + 8.
Definition RESOLVE_CONFIG_VERSION_OFFSET : nat := RESOLVE_ACTION_OFFSET + 1.
Definition RESOLVE_BODY_LEN : nat := RESOLVE_CONFIG_VERSION_OFFSET + 8.

Definition SETTLEMENT_TRANSFER_ID_OFFSET : nat := 0.
Definition SETTLEMENT_KIND_OFFSET : nat := SETTLEMENT_TRANSFER_ID_OFFSET + WIDE.
Definition SETTLEMENT_CLAIM_AMOUNT_OFFSET : nat := SETTLEMENT_KIND_OFFSET + 1.
Definition SETTLEMENT_CREDITED_AMOUNT_OFFSET : nat := SETTLEMENT_CLAIM_AMOUNT_OFFSET + 16.
Definition SETTLEMENT_IMPAIRED_OUTSTANDING_OFFSET : nat := SETTLEMENT_CREDITED_AMOUNT_OFFSET + 16.
Definition SETTLEMENT_CONFIG_VERSION_OFFSET : nat := SETTLEMENT_IMPAIRED_OUTSTANDING_OFFSET + 16.
Definition TRANSPORT_SETTLEMENT_BODY_LEN : nat := SETTLEMENT_CONFIG_VERSION_OFFSET + 8.

(** * Whole messages *)

Definition ALLOCATE_MESSAGE_LEN : nat := HEADER_LEN + ALLOCATE_BODY_LEN.
Definition RECALL_MESSAGE_LEN : nat := HEADER_LEN + RECALL_BODY_LEN.
Definition REMOTE_REPORT_MESSAGE_LEN : nat := HEADER_LEN + REMOTE_REPORT_BODY_LEN.
Definition RECALL_SENT_MESSAGE_LEN : nat := HEADER_LEN + RECALL_SENT_BODY_LEN.
Definition CONFIG_UPDATE_MESSAGE_LEN : nat := HEADER_LEN + CONFIG_UPDATE_BODY_LEN.
Definition RESOLVE_MESSAGE_LEN : nat := HEADER_LEN + RESOLVE_BODY_LEN.
Definition TRANSPORT_SETTLEMENT_MESSAGE_LEN : nat := HEADER_LEN + TRANSPORT_SETTLEMENT_BODY_LEN.
Definition MAX_BODY_LEN : nat := REMOTE_REPORT_BODY_LEN.
Definition MAX_MESSAGE_LEN : nat := HEADER_LEN + MAX_BODY_LEN.
Definition MESSAGE_SIZE_TARGET : nat := 400.

(** * Compile-time checks *)

(** A field is a start offset and a width. *)
Abbreviation Field := (nat * nat)%type (only parsing).

(** The loop of [is_contiguous], from the offset [expected]. *)
Fixpoint contiguous_from (expected : nat) (fields : list Field) (total : nat) : bool :=
  match fields with
  | [] => expected =? total
  | (start, width) :: fields' =>
      if negb (start =? expected) || (width =? 0) then false
      else contiguous_from (expected + width) fields' total
  end.

Definition is_contiguous (fields : list Field) (total : nat) : bool :=
  contiguous_from 0 fields total.

Definition HEADER_FIELDS : list Field :=
  [(MAGIC_OFFSET, MAGIC_LEN); (PROTOCOL_VERSION_OFFSET, 2); (SCHEMA_VERSION_OFFSET, 2);
   (MESSAGE_TYPE_OFFSET, 1); (FLAGS_OFFSET, 2); (SOURCE_CHAIN_OFFSET, 4);
   (DESTINATION_CHAIN_OFFSET, 4); (SOURCE_APPLICATION_OFFSET, WIDE);
   (DESTINATION_APPLICATION_OFFSET, WIDE); (DEPLOYMENT_ID_OFFSET, WIDE);
   (VAULT_ID_OFFSET, WIDE); (LANE_ID_OFFSET, 4); (SEQUENCE_OFFSET, 8);
   (PREVIOUS_COMMITMENT_OFFSET, WIDE); (OBSERVED_AT_OFFSET, 8); (PUBLISHED_AT_OFFSET, 8);
   (EXPIRES_AT_OFFSET, 8); (BODY_HASH_OFFSET, WIDE)].

Definition ALLOCATE_FIELDS : list Field :=
  [(ALLOCATE_TRANSFER_ID_OFFSET, WIDE); (ALLOCATE_AMOUNT_OFFSET, 16);
   (ALLOCATE_EXPECTED_SOURCE_BALANCE_OFFSET, 16);
   (ALLOCATE_MINIMUM_DESTINATION_AMOUNT_OFFSET, 16); (ALLOCATE_DEADLINE_OFFSET, 8);
   (ALLOCATE_CONFIG_VERSION_OFFSET, 8)].

Definition RECALL_FIELDS : list Field :=
  [(RECALL_TRANSFER_ID_OFFSET, WIDE); (RECALL_REQUESTED_AMOUNT_OFFSET, 16);
   (RECALL_MINIMUM_RETURN_AMOUNT_OFFSET, 16); (RECALL_DEADLINE_OFFSET, 8);
   (RECALL_CONFIG_VERSION_OFFSET, 8)].

Definition REMOTE_REPORT_FIELDS : list Field :=
  [(REPORT_EPOCH_ID_OFFSET, 8); (REPORT_REMOTE_PRINCIPAL_OFFSET, 16);
   (REPORT_REPORTED_VALUE_OFFSET, 16); (REPORT_REALIZED_LOSS_OFFSET, 16);
   (REPORT_UNATTRIBUTED_BALANCE_OFFSET, 16);
   (REPORT_LATEST_COMPLETED_TRANSFER_ID_OFFSET, WIDE); (REPORT_PROBE_STATUS_OFFSET, 1);
   (REPORT_PROBE_TIMESTAMP_OFFSET, 8); (REPORT_CONFIG_VERSION_OFFSET, 8);
   (REPORT_REMOTE_STATE_COMMITMENT_OFFSET, WIDE)].

Definition RECALL_SENT_FIELDS : list Field :=
  [(RECALL_SENT_TRANSFER_ID_OFFSET, WIDE); (RECALL_SENT_PRINCIPAL_SENT_OFFSET, 16);
   (RECALL_SENT_ACTUAL_AMOUNT_SENT_OFFSET, 16); (RECALL_SENT_REALIZED_LOSS_OFFSET, 16);
   (RECALL_SENT_DESTINATION_REFERENCE_OFFSET, WIDE); (RECALL_SENT_SENT_TIMESTAMP_OFFSET, 8);
   (RECALL_SENT_CONFIG_VERSION_OFFSET, 8)].

Definition CONFIG_UPDATE_FIELDS : list Field :=
  [(CONFIG_VERSION_OFFSET, 8); (CONFIG_PREVIOUS_VERSION_OFFSET, 8);
   (CONFIG_MAX_REMOTE_ALLOCATION_BPS_OFFSET, 2); (CONFIG_MAX_UPWARD_DEVIATION_BPS_OFFSET, 2);
   (CONFIG_MAX_DOWNWARD_DEVIATION_BPS_OFFSET, 2); (CONFIG_MAX_REPORT_AGE_OFFSET, 8);
   (CONFIG_EFFECTIVE_TIMESTAMP_OFFSET, 8); (CONFIG_COMMITMENT_OFFSET, WIDE)].

Definition RESOLVE_FIELDS : list Field :=
  [(RESOLVE_TRANSFER_ID_OFFSET, WIDE); (RESOLVE_TARGET_SEQUENCE_OFFSET, 8);
   (RESOLVE_ACTION_OFFSET, 1); (RESOLVE_CONFIG_VERSION_OFFSET, 8)].

Definition TRANSPORT_SETTLEMENT_FIELDS : list Field :=
  [(SETTLEMENT_TRANSFER_ID_OFFSET, WIDE); (SETTLEMENT_KIND_OFFSET, 1);
   (SETTLEMENT_CLAIM_AMOUNT_OFFSET, 16); (SETTLEMENT_CREDITED_AMOUNT_OFFSET, 16);
   (SETTLEMENT_IMPAIRED_OUTSTANDING_OFFSET, 16); (SETTLEMENT_CONFIG_VERSION_OFFSET, 8)].

(** The nested loops of [all_distinct]: no width equals a later one. *)
Fixpoint all_distinct (widths : list nat) : bool :=
  match widths with
  | [] => true
  | w :: widths' => negb (existsb (Nat.eqb w) widths') && all_distinct widths'
  end.

Definition BODY_WIDTHS : list nat :=
  [ALLOCATE_BODY_LEN; RECALL_BODY_LEN; REMOTE_REPORT_BODY_LEN; RECALL_SENT_BODY_LEN;
   CONFIG_UPDATE_BODY_LEN; RESOLVE_BODY_LEN; TRANSPORT_SETTLEMENT_BODY_LEN].

(** * Slices *)

(** The bytes [off .. off + n]. *)
Definition slice {A} (l : list A) (off n : nat) : list A := take n (drop off l).

#[global] Arguments slice : simpl never.

Lemma length_slice {A} (l : list A) off n : off + n <= length l -> length (slice l off n) = n.
Proof. intros. unfold slice. rewrite length_take, length_drop. lia. Qed.

Lemma slice_split {A} (l : list A) off n m :
  slice l off n ++ slice l (off + n) m = slice l off (n + m).
Proof. unfold slice. rewrite <-drop_drop, <-take_take_drop. done. Qed.

Lemma slice_full {A} (l : list A) : slice l 0 (length l) = l.
Proof. unfold slice. rewrite drop_0. by apply take_ge. Qed.

Lemma contiguous_le fields from total :
  contiguous_from from fields total = true -> from <= total.
Proof.
  revert from. induction fields as [|[start width] fields IH]; intros from Hc; simpl in Hc.
  - apply Nat.eqb_eq in Hc. lia.
  - destruct (negb _ || _); [done|]. apply IH in Hc. lia.
Qed.

Lemma contiguous_slices {A} (a b : list A) fields from total :
  contiguous_from from fields total = true -> 
  (forall f, f ∈ fields -> slice a f.1 f.2 = slice b f.1 f.2) ->
  slice a from (total - from) = slice b from (total - from) /\ from <= total.
Proof.
  revert from. induction fields as [|[start width] fields IH]; intros from Hc Hf; simpl in Hc.
  { apply Nat.eqb_eq in Hc as ->. rewrite Nat.sub_diag. by unfold slice. }
  destruct (Nat.eqb_spec start from) as [->|]; [|done].
  destruct (Nat.eqb_spec width 0) as [|Hw]; [done|]. simpl in Hc.
  destruct (IH _ Hc) as [Hrest Hle]; [intros; apply Hf; set_solver|].
  split; [|lia]. replace (total - from) with (width + (total - (from + width))) by lia.
  rewrite <-!slice_split. f_equal; [exact (Hf (from, width) ltac:(set_solver))|exact Hrest].
Qed.

(** Two buffers of the declared length that agree on every field of a
    contiguous region are equal. *)
Lemma contiguous_eq {A} (a b : list A) fields total :
  is_contiguous fields total = true -> length a = total -> length b = total ->
  (forall f, f ∈ fields -> slice a f.1 f.2 = slice b f.1 f.2) -> a = b.
Proof.
  intros Hc Ha Hb Hf. destruct (contiguous_slices a b fields 0 total Hc Hf) as [Heq _].
  rewrite Nat.sub_0_r in Heq. rewrite <-Ha in Heq at 1. rewrite <-Hb in Heq.
  by rewrite !slice_full in Heq.
Qed.
