(* ===== verification/ProtocolTypes.v ===== *)
(** Data of the wire protocol: errors ([error.rs]), identifiers
    ([identifier.rs]), the header and message kinds ([message.rs]) and the
    seven bodies ([body/]), all under [crates/protocol-types/src].  A byte
    string is a [list Z] of bytes; an integer field is a [Z] of its wire
    width; a wide identifier is a list of 32 bytes. *)

From Stdlib Require Import ZArith Lia.
From S2P Require Import Prelude ProtocolLayout.

(** * Errors *)

Inductive IdentifierField : Set :=
| IdSourceChain | IdDestinationChain | IdSourceApplication | IdDestinationApplication
| IdDeployment | IdVault | IdLane | IdSequence | IdTransfer | IdEpoch | IdConfigVersion
| IdRemoteStateCommitment | IdConfigCommitment | IdDestinationReference | IdTargetSequence.

Inductive AmountField : Set :=
| AmtAmount | AmtMinimumDestinationAmount | AmtRequestedAmount | AmtMinimumReturnAmount
| AmtPrincipalSent | AmtActualAmountSent | AmtMaxReportAge | AmtClaimAmount.

Inductive ValidationError : Set :=
| ZeroIdentifier (f : IdentifierField)
| ZeroAmount (f : AmountField)
| ReservedFlagsSet
| SourceEqualsDestinationChain
| SourceEqualsDestinationApplication
| PublicationBeforeObservation
| ExpirationBeforePublication
| DeadlineBeforePublication
| EffectiveTimestampBeforePublication
| ProbeTimestampAfterObservation
| SentTimestampAfterObservation
| MissingProbeTimestamp
| MinimumAboveAmount
| RealizedLossAbovePrincipal
| BasisPointsOutOfRange
| ConfigVersionNotIncreasing
| TargetNotBeforeResolution
| CreditAboveClaim
| ImpairmentBelowShortfall
| RecoveryImpairmentMismatch.

Inductive EncodeError : Set :=
| BufferTooSmall (needed available : Z)
| EncodeUnsupportedProtocolVersion (found : Z)
| EncodeUnsupportedSchemaVersion (found : Z)
| EncodeInvalid (reason : ValidationError).

Inductive DecodeError : Set :=
| Truncated (needed found : Z)
| TrailingBytes (expected found : Z)
| InvalidMagic
| UnsupportedProtocolVersion (found : Z)
| UnsupportedSchemaVersion (found : Z)
| UnknownMessageType (found : Z)
| InvalidProbeStatus (found : Z)
| UnknownResolveAction (found : Z)
| UnknownSettlementKind (found : Z)
| BodyHashMismatch
| LengthOverflow
| DecodeInvalid (reason : ValidationError).

#[global] Instance IdentifierField_eq_dec : EqDecision IdentifierField.
Proof. solve_decision. Defined.
#[global] Instance AmountField_eq_dec : EqDecision AmountField.
Proof. solve_decision. Defined.
#[global] Instance ValidationError_eq_dec : EqDecision ValidationError.
Proof. solve_decision. Defined.
#[global] Instance EncodeError_eq_dec : EqDecision EncodeError.
Proof. solve_decision. Defined.
#[global] Instance DecodeError_eq_dec : EqDecision DecodeError.
Proof. solve_decision. Defined.

(** * Identifiers *)

(** A byte of the wire. *)
Definition is_byte (b : Z) : Prop := 0 <= b < 256.

Definition is_bytes (l : list Z) : Prop := Forall is_byte l.

(** A wide identifier. *)
Definition is_wide (l : list Z) : Prop := length l = WIDE /\ is_bytes l.

#[global] Instance is_byte_dec b : Decision (is_byte b).
Proof. unfold is_byte. apply _. Defined.
#[global] Instance is_bytes_dec l : Decision (is_bytes l).
Proof. unfold is_bytes. apply _. Defined.
#[global] Instance is_wide_dec l : Decision (is_wide l).
Proof. unfold is_wide. apply _. Defined.

Definition wide_zero : list Z := replicate 32 0.

#[global] Arguments wide_zero : simpl never.

Definition wide_is_zero (id : list Z) : bool := bool_decide (id = wide_zero).

Definition scalar_is_zero (v : Z) : bool := v =? 0.

Definition MAX_BASIS_POINTS : Z := 10000.

Definition bps_is_in_range (v : Z) : bool := v <=? MAX_BASIS_POINTS.

(** Maps a 20 byte EVM address into the low bytes, with a zero prefix. *)
Definition from_evm_address (address : list Z) : list Z :=
  map (fun index =>
         match checked_sub (Z.of_nat index) 12 with
         | Some low => default 0 (address !! Z.to_nat low)
         | None => 0
         end) (seq 0 32).

Definition from_solana_pubkey (key : list Z) : list Z := key.

Definition low_20_bytes (id : list Z) : list Z := drop 12 id.

Definition has_zero_high_12_bytes (id : list Z) : bool :=
  bool_decide (take 12 id = replicate 12 0).

Definition FLAGS_RESERVED_MASK : Z := u16_max.

Definition has_reserved_bits (bits : Z) : bool :=
  negb (Z.land bits FLAGS_RESERVED_MASK =? 0).

(** * Kinds *)

Inductive MessageType : Set :=
| MtAllocate | MtRecall | MtRemoteReport | MtRecallSent | MtConfigUpdate | MtResolve
| MtTransportSettlement.

#[global] Instance MessageType_eq_dec : EqDecision MessageType.
Proof. solve_decision. Defined.

Definition message_type_to_u8 (k : MessageType) : Z :=
  match k with
  | MtAllocate => 1 | MtRecall => 2 | MtRemoteReport => 3 | MtRecallSent => 4
  | MtConfigUpdate => 5 | MtResolve => 6 | MtTransportSettlement => 7
  end.

Definition message_type_from_u8 (v : Z) : result DecodeError MessageType :=
  match v with
  | 1 => Ok MtAllocate | 2 => Ok MtRecall | 3 => Ok MtRemoteReport | 4 => Ok MtRecallSent
  | 5 => Ok MtConfigUpdate | 6 => Ok MtResolve | 7 => Ok MtTransportSettlement
  | other => Err (UnknownMessageType other)
  end.

Definition body_len (k : MessageType) : nat :=
  match k with
  | MtAllocate => ALLOCATE_BODY_LEN
  | MtRecall => RECALL_BODY_LEN
  | MtRemoteReport => REMOTE_REPORT_BODY_LEN
  | MtRecallSent => RECALL_SENT_BODY_LEN
  | MtConfigUpdate => CONFIG_UPDATE_BODY_LEN
  | MtResolve => RESOLVE_BODY_LEN
  | MtTransportSettlement => TRANSPORT_SETTLEMENT_BODY_LEN
  end.

Definition message_len (k : MessageType) : nat :=
  match k with
  | MtAllocate => ALLOCATE_MESSAGE_LEN
  | MtRecall => RECALL_MESSAGE_LEN
  | MtRemoteReport => REMOTE_REPORT_MESSAGE_LEN
  | MtRecallSent => RECALL_SENT_MESSAGE_LEN
  | MtConfigUpdate => CONFIG_UPDATE_MESSAGE_LEN
  | MtResolve => RESOLVE_MESSAGE_LEN
  | MtTransportSettlement => TRANSPORT_SETTLEMENT_MESSAGE_LEN
  end.

Inductive ProbeStatus : Set := NotRequired | Fresh | Stale | Failed.

#[global] Instance ProbeStatus_eq_dec : EqDecision ProbeStatus.
Proof. solve_decision. Defined.

Definition probe_status_to_u8 (s : ProbeStatus) : Z :=
  match s with NotRequired => 0 | Fresh => 1 | Stale => 2 | Failed => 3 end.

Definition probe_status_from_u8 (v : Z) : result DecodeError ProbeStatus :=
  match v with
  | 0 => Ok NotRequired | 1 => Ok Fresh | 2 => Ok Stale | 3 => Ok Failed
  | other => Err (InvalidProbeStatus other)
  end.

Inductive ResolveAction : Set := ActAdmit | ActClose | ActRecover.

#[global] Instance ResolveAction_eq_dec : EqDecision ResolveAction.
Proof. solve_decision. Defined.

Definition resolve_action_to_u8 (a : ResolveAction) : Z :=
  match a with ActAdmit => 1 | ActClose => 2 | ActRecover => 3 end.

Definition resolve_action_from_u8 (v : Z) : result DecodeError ResolveAction :=
  match v with
  | 1 => Ok ActAdmit | 2 => Ok ActClose | 3 => Ok ActRecover
  | other => Err (UnknownResolveAction other)
  end.

Inductive SettlementKind : Set := Closed | Recovered.

#[global] Instance SettlementKind_eq_dec : EqDecision SettlementKind.
Proof. solve_decision. Defined.

Definition settlement_kind_to_u8 (k : SettlementKind) : Z :=
  match k with Closed => 1 | Recovered => 2 end.

Definition settlement_kind_from_u8 (v : Z) : result DecodeError SettlementKind :=
  match v with
  | 1 => Ok Closed | 2 => Ok Recovered
  | other => Err (UnknownSettlementKind other)
  end.

(** * Bodies *)

(** Authorises moving assets to the remote leg. *)
Record AllocateBody := mkAllocateBody {
  al_transfer_id : list Z;
  al_amount : Z;
  al_expected_source_balance : Z;
  al_minimum_destination_amount : Z;
  al_deadline : Z;
  al_config_version : Z;
}.

(** Asks the remote leg to unwind and return assets. *)
Record RecallBody := mkRecallBody {
  rc_transfer_id : list Z;
  rc_requested_amount : Z;
  rc_minimum_return_amount : Z;
  rc_deadline : Z;
  rc_config_version : Z;
}.

(** What the remote leg says it holds for one epoch. *)
Record RemoteReportBody := mkRemoteReportBody {
  rp_epoch_id : Z;
  rp_remote_principal : Z;
  rp_reported_value : Z;
  rp_realized_loss : Z;
  rp_unattributed_balance : Z;
  rp_latest_completed_transfer_id : list Z;
  rp_probe_status : ProbeStatus;
  rp_probe_timestamp : Z;
  rp_config_version : Z;
  rp_remote_state_commitment : list Z;
}.

(** Says the remote leg released assets back towards the hub. *)
Record RecallSentBody := mkRecallSentBody {
  rs_transfer_id : list Z;
  rs_principal_sent : Z;
  rs_actual_amount_sent : Z;
  rs_realized_loss : Z;
  rs_destination_reference : list Z;
  rs_sent_timestamp : Z;
  rs_config_version : Z;
}.

(** Moves both legs to a new configuration generation. *)
Record ConfigUpdateBody := mkConfigUpdateBody {
  cu_config_version : Z;
  cu_previous_config_version : Z;
  cu_max_remote_allocation_bps : Z;
  cu_max_upward_deviation_bps : Z;
  cu_max_downward_deviation_bps : Z;
  cu_max_report_age : Z;
  cu_effective_timestamp : Z;
  cu_config_commitment : list Z;
}.

(** Settles one earlier transfer of the same lane. *)
Record ResolveBody := mkResolveBody {
  re_transfer_id : list Z;
  re_target_sequence : Z;
  re_action : ResolveAction;
  re_config_version : Z;
}.

(** The one terminal notice for a closed allocation or for a recovery. *)
Record TransportSettlementBody := mkTransportSettlementBody {
  ts_transfer_id : list Z;
  ts_kind : SettlementKind;
  ts_claim_amount : Z;
  ts_credited_amount : Z;
  ts_impaired_outstanding : Z;
  ts_config_version : Z;
}.

(** The part of the claim this settlement did not credit. *)
Definition ts_shortfall (b : TransportSettlementBody) : Z :=
  saturating_sub b.(ts_claim_amount) b.(ts_credited_amount).

Inductive Body :=
| BAllocate (b : AllocateBody)
| BRecall (b : RecallBody)
| BRemoteReport (b : RemoteReportBody)
| BRecallSent (b : RecallSentBody)
| BConfigUpdate (b : ConfigUpdateBody)
| BResolve (b : ResolveBody)
| BTransportSettlement (b : TransportSettlementBody).

Definition body_message_type (b : Body) : MessageType :=
  match b with
  | BAllocate _ => MtAllocate
  | BRecall _ => MtRecall
  | BRemoteReport _ => MtRemoteReport
  | BRecallSent _ => MtRecallSent
  | BConfigUpdate _ => MtConfigUpdate
  | BResolve _ => MtResolve
  | BTransportSettlement _ => MtTransportSettlement
  end.

Definition body_encoded_len (b : Body) : nat := body_len (body_message_type b).

(** * Messages *)

Record Header := mkHeader {
  h_protocol_version : Z;
  h_schema_version : Z;
  h_flags : Z;
  h_source_chain : Z;
  h_destination_chain : Z;
  h_source_application : list Z;
  h_destination_application : list Z;
  h_deployment_id : list Z;
  h_vault_id : list Z;
  h_lane_id : Z;
  h_sequence : Z;
  h_previous_commitment : list Z;
  h_observed_at : Z;
  h_published_at : Z;
  h_expires_at : Z;
}.

Record Message := mkMessage {
  m_header : Header;
  m_body : Body;
}.

Definition message_type (m : Message) : MessageType := body_message_type m.(m_body).

Definition encoded_len (m : Message) : nat := message_len (message_type m).

Definition MAGIC : list Z := [83; 86; 69; 49].
Definition PROTOCOL_VERSION : Z := 1.
Definition SCHEMA_VERSION : Z := 1.
