(* ===== verification/ProtocolCodec.v ===== *)
(** The codec of [crates/protocol-types/src]: byte reads and writes
    ([codec.rs]), field rules ([validation.rs] and each body's [validate]),
    the body encoders and decoders ([body/]), [encode_into], [encode_message]
    and [decode_message], message identifiers and the lane hash chain
    ([hash.rs], [commitment.rs]).  Keccak-256 is the parameter [digest], the
    digest of everything a hasher was given. *)

From Stdlib Require Import ZArith Lia.
From S2P Require Import Prelude ProtocolLayout ProtocolTypes.

(** [usize] of a 64 bit target. *)
Abbreviation usize_max := u64_max.

(** * Bytes *)

Definition saturating_u32 (n : nat) : Z := Z.min (Z.of_nat n) u32_max.

(** [from_be_bytes] *)
Definition from_be (l : list Z) : Z := foldl (fun acc b => acc * 256 + b) 0 l.

(** [to_be_bytes] at a width of [n] bytes *)
Fixpoint to_be (n : nat) (v : Z) : list Z :=
  match n with
  | O => []
  | S n' => to_be n' (v / 256) ++ [v mod 256]
  end.

#[global] Arguments to_be : simpl never.
#[global] Arguments from_be : simpl never.

Definition window (bytes : list Z) (offset width : nat) : result DecodeError (list Z) :=
  require Z.of_nat offset + Z.of_nat width <=? usize_max or LengthOverflow;
  let end_ := (offset + width)%nat in
  require (end_ <=? length bytes)%nat
    or Truncated (saturating_u32 end_) (saturating_u32 (length bytes));
  Ok (slice bytes offset width).

Definition read_array (n : nat) (bytes : list Z) (offset : nat) : result DecodeError (list Z) :=
  let? w := window bytes offset n in
  require (length w =? n)%nat or LengthOverflow;
  Ok w.

Definition read_u8 (bytes : list Z) (offset : nat) : result DecodeError Z :=
  result_map from_be (read_array 1 bytes offset).
Definition read_u16 (bytes : list Z) (offset : nat) : result DecodeError Z :=
  result_map from_be (read_array 2 bytes offset).
Definition read_u32 (bytes : list Z) (offset : nat) : result DecodeError Z :=
  result_map from_be (read_array 4 bytes offset).
Definition read_u64 (bytes : list Z) (offset : nat) : result DecodeError Z :=
  result_map from_be (read_array 8 bytes offset).
Definition read_u128 (bytes : list Z) (offset : nat) : result DecodeError Z :=
  result_map from_be (read_array 16 bytes offset).

Definition write_bytes (out : list Z) (offset : nat) (value : list Z)
  : result EncodeError (list Z) :=
  let available := saturating_u32 (length out) in
  require Z.of_nat offset + Z.of_nat (length value) <=? usize_max
    or BufferTooSmall u32_max available;
  let end_ := (offset + length value)%nat in
  require (end_ <=? length out)%nat or BufferTooSmall (saturating_u32 end_) available;
  Ok (take offset out ++ value ++ drop end_ out).

Definition write_u8 (out : list Z) (offset : nat) (v : Z) : result EncodeError (list Z) :=
  write_bytes out offset (to_be 1 v).
Definition write_u16 (out : list Z) (offset : nat) (v : Z) : result EncodeError (list Z) :=
  write_bytes out offset (to_be 2 v).
Definition write_u32 (out : list Z) (offset : nat) (v : Z) : result EncodeError (list Z) :=
  write_bytes out offset (to_be 4 v).
Definition write_u64 (out : list Z) (offset : nat) (v : Z) : result EncodeError (list Z) :=
  write_bytes out offset (to_be 8 v).
Definition write_u128 (out : list Z) (offset : nat) (v : Z) : result EncodeError (list Z) :=
  write_bytes out offset (to_be 16 v).

(** * Field rules *)

Record EnvelopeTimes := mkEnvelopeTimes {
  et_observed_at : Z;
  et_published_at : Z;
}.

Definition envelope_times (h : Header) : EnvelopeTimes :=
  mkEnvelopeTimes h.(h_observed_at) h.(h_published_at).

Definition validate_header (h : Header) : result ValidationError unit :=
  fail_if has_reserved_bits h.(h_flags) with ReservedFlagsSet;
  fail_if scalar_is_zero h.(h_source_chain) with ZeroIdentifier IdSourceChain;
  fail_if scalar_is_zero h.(h_destination_chain) with ZeroIdentifier IdDestinationChain;
  fail_if h.(h_source_chain) =? h.(h_destination_chain) with SourceEqualsDestinationChain;
  fail_if wide_is_zero h.(h_source_application) with ZeroIdentifier IdSourceApplication;
  fail_if wide_is_zero h.(h_destination_application) with ZeroIdentifier IdDestinationApplication;
  fail_if bool_decide (h.(h_source_application) = h.(h_destination_application))
    with SourceEqualsDestinationApplication;
  fail_if wide_is_zero h.(h_deployment_id) with ZeroIdentifier IdDeployment;
  fail_if wide_is_zero h.(h_vault_id) with ZeroIdentifier IdVault;
  fail_if scalar_is_zero h.(h_lane_id) with ZeroIdentifier IdLane;
  fail_if scalar_is_zero h.(h_sequence) with ZeroIdentifier IdSequence;
  fail_if h.(h_published_at) <? h.(h_observed_at) with PublicationBeforeObservation;
  fail_if h.(h_expires_at) <? h.(h_published_at) with ExpirationBeforePublication;
  Ok tt.

Definition validate_supported_versions_for_encode (h : Header) : result EncodeError unit :=
  fail_if negb (h.(h_protocol_version) =? PROTOCOL_VERSION)
    with EncodeUnsupportedProtocolVersion h.(h_protocol_version);
  fail_if negb (h.(h_schema_version) =? SCHEMA_VERSION)
    with EncodeUnsupportedSchemaVersion h.(h_schema_version);
  Ok tt.

Definition allocate_validate (b : AllocateBody) (published_at : Z) : result ValidationError unit :=
  fail_if wide_is_zero b.(al_transfer_id) with ZeroIdentifier IdTransfer;
  fail_if scalar_is_zero b.(al_amount) with ZeroAmount AmtAmount;
  fail_if scalar_is_zero b.(al_minimum_destination_amount)
    with ZeroAmount AmtMinimumDestinationAmount;
  fail_if b.(al_amount) <? b.(al_minimum_destination_amount) with MinimumAboveAmount;
  fail_if b.(al_deadline) <? published_at with DeadlineBeforePublication;
  fail_if scalar_is_zero b.(al_config_version) with ZeroIdentifier IdConfigVersion;
  Ok tt.

Definition recall_validate (b : RecallBody) (published_at : Z) : result ValidationError unit :=
  fail_if wide_is_zero b.(rc_transfer_id) with ZeroIdentifier IdTransfer;
  fail_if scalar_is_zero b.(rc_requested_amount) with ZeroAmount AmtRequestedAmount;
  fail_if scalar_is_zero b.(rc_minimum_return_amount) with ZeroAmount AmtMinimumReturnAmount;
  fail_if b.(rc_requested_amount) <? b.(rc_minimum_return_amount) with MinimumAboveAmount;
  fail_if b.(rc_deadline) <? published_at with DeadlineBeforePublication;
  fail_if scalar_is_zero b.(rc_config_version) with ZeroIdentifier IdConfigVersion;
  Ok tt.

Definition remote_report_validate (b : RemoteReportBody) (times : EnvelopeTimes)
  : result ValidationError unit :=
  fail_if scalar_is_zero b.(rp_epoch_id) with ZeroIdentifier IdEpoch;
  fail_if scalar_is_zero b.(rp_config_version) with ZeroIdentifier IdConfigVersion;
  fail_if wide_is_zero b.(rp_remote_state_commitment) with ZeroIdentifier IdRemoteStateCommitment;
  fail_if times.(et_observed_at) <? b.(rp_probe_timestamp) with ProbeTimestampAfterObservation;
  fail_if bool_decide (b.(rp_probe_status) = Fresh) && scalar_is_zero b.(rp_probe_timestamp)
    with MissingProbeTimestamp;
  Ok tt.

Definition recall_sent_validate (b : RecallSentBody) (times : EnvelopeTimes)
  : result ValidationError unit :=
  fail_if wide_is_zero b.(rs_transfer_id) with ZeroIdentifier IdTransfer;
  fail_if scalar_is_zero b.(rs_principal_sent) with ZeroAmount AmtPrincipalSent;
  fail_if b.(rs_principal_sent) <? b.(rs_realized_loss) with RealizedLossAbovePrincipal;
  fail_if wide_is_zero b.(rs_destination_reference) with ZeroIdentifier IdDestinationReference;
  fail_if times.(et_observed_at) <? b.(rs_sent_timestamp) with SentTimestampAfterObservation;
  fail_if scalar_is_zero b.(rs_config_version) with ZeroIdentifier IdConfigVersion;
  Ok tt.

Definition config_update_validate (b : ConfigUpdateBody) (published_at : Z)
  : result ValidationError unit :=
  fail_if scalar_is_zero b.(cu_config_version) with ZeroIdentifier IdConfigVersion;
  fail_if b.(cu_config_version) <=? b.(cu_previous_config_version)
    with ConfigVersionNotIncreasing;
  fail_if existsb (fun rate => negb (bps_is_in_range rate))
            [b.(cu_max_remote_allocation_bps); b.(cu_max_upward_deviation_bps);
             b.(cu_max_downward_deviation_bps)] with BasisPointsOutOfRange;
  fail_if b.(cu_max_report_age) =? 0 with ZeroAmount AmtMaxReportAge;
  fail_if b.(cu_effective_timestamp) <? published_at with EffectiveTimestampBeforePublication;
  fail_if wide_is_zero b.(cu_config_commitment) with ZeroIdentifier IdConfigCommitment;
  Ok tt.

Definition resolve_validate (b : ResolveBody) (sequence : Z) : result ValidationError unit :=
  fail_if wide_is_zero b.(re_transfer_id) with ZeroIdentifier IdTransfer;
  fail_if scalar_is_zero b.(re_target_sequence) with ZeroIdentifier IdTargetSequence;
  fail_if sequence <=? b.(re_target_sequence) with TargetNotBeforeResolution;
  fail_if scalar_is_zero b.(re_config_version) with ZeroIdentifier IdConfigVersion;
  Ok tt.

Definition transport_settlement_validate (b : TransportSettlementBody)
  : result ValidationError unit :=
  fail_if wide_is_zero b.(ts_transfer_id) with ZeroIdentifier IdTransfer;
  fail_if scalar_is_zero b.(ts_claim_amount) with ZeroAmount AmtClaimAmount;
  fail_if b.(ts_claim_amount) <? b.(ts_credited_amount) with CreditAboveClaim;
  let? _ :=
    match b.(ts_kind) with
    | Closed =>
        fail_if b.(ts_impaired_outstanding) <? ts_shortfall b with ImpairmentBelowShortfall;
        Ok tt
    | Recovered =>
        fail_if negb (b.(ts_impaired_outstanding) =? ts_shortfall b)
          with RecoveryImpairmentMismatch;
        Ok tt
    end in
  fail_if scalar_is_zero b.(ts_config_version) with ZeroIdentifier IdConfigVersion;
  Ok tt.

Definition body_validate (b : Body) (times : EnvelopeTimes) (sequence : Z)
  : result ValidationError unit :=
  match b with
  | BAllocate b => allocate_validate b times.(et_published_at)
  | BRecall b => recall_validate b times.(et_published_at)
  | BRemoteReport b => remote_report_validate b times
  | BRecallSent b => recall_sent_validate b times
  | BConfigUpdate b => config_update_validate b times.(et_published_at)
  | BResolve b => resolve_validate b sequence
  | BTransportSettlement b => transport_settlement_validate b
  end.

(** * Bodies on the wire *)

Definition allocate_encode_into (b : AllocateBody) (out : list Z) : result EncodeError (list Z) :=
  let? out := write_bytes out ALLOCATE_TRANSFER_ID_OFFSET b.(al_transfer_id) in
  let? out := write_u128 out ALLOCATE_AMOUNT_OFFSET b.(al_amount) in
  let? out := write_u128 out ALLOCATE_EXPECTED_SOURCE_BALANCE_OFFSET
                b.(al_expected_source_balance) in
  let? out := write_u128 out ALLOCATE_MINIMUM_DESTINATION_AMOUNT_OFFSET
                b.(al_minimum_destination_amount) in
  let? out := write_u64 out ALLOCATE_DEADLINE_OFFSET b.(al_deadline) in
  write_u64 out ALLOCATE_CONFIG_VERSION_OFFSET b.(al_config_version).

Definition allocate_decode (bytes : list Z) : result DecodeError AllocateBody :=
  let? transfer_id := read_array WIDE bytes ALLOCATE_TRANSFER_ID_OFFSET in
  let? amount := read_u128 bytes ALLOCATE_AMOUNT_OFFSET in
  let? expected := read_u128 bytes ALLOCATE_EXPECTED_SOURCE_BALANCE_OFFSET in
  let? minimum := read_u128 bytes ALLOCATE_MINIMUM_DESTINATION_AMOUNT_OFFSET in
  let? deadline := read_u64 bytes ALLOCATE_DEADLINE_OFFSET in
  let? config_version := read_u64 bytes ALLOCATE_CONFIG_VERSION_OFFSET in
  Ok (mkAllocateBody transfer_id amount expected minimum deadline config_version).

Definition recall_encode_into (b : RecallBody) (out : list Z) : result EncodeError (list Z) :=
  let? out := write_bytes out RECALL_TRANSFER_ID_OFFSET b.(rc_transfer_id) in
  let? out := write_u128 out RECALL_REQUESTED_AMOUNT_OFFSET b.(rc_requested_amount) in
  let? out := write_u128 out RECALL_MINIMUM_RETURN_AMOUNT_OFFSET b.(rc_minimum_return_amount) in
  let? out := write_u64 out RECALL_DEADLINE_OFFSET b.(rc_deadline) in
  write_u64 out RECALL_CONFIG_VERSION_OFFSET b.(rc_config_version).

Definition recall_decode (bytes : list Z) : result DecodeError RecallBody :=
  let? transfer_id := read_array WIDE bytes RECALL_TRANSFER_ID_OFFSET in
  let? requested := read_u128 bytes RECALL_REQUESTED_AMOUNT_OFFSET in
  let? minimum := read_u128 bytes RECALL_MINIMUM_RETURN_AMOUNT_OFFSET in
  let? deadline := read_u64 bytes RECALL_DEADLINE_OFFSET in
  let? config_version := read_u64 bytes RECALL_CONFIG_VERSION_OFFSET in
  Ok (mkRecallBody transfer_id requested minimum deadline config_version).

Definition remote_report_encode_into (b : RemoteReportBody) (out : list Z)
  : result EncodeError (list Z) :=
  let? out := write_u64 out REPORT_EPOCH_ID_OFFSET b.(rp_epoch_id) in
  let? out := write_u128 out REPORT_REMOTE_PRINCIPAL_OFFSET b.(rp_remote_principal) in
  let? out := write_u128 out REPORT_REPORTED_VALUE_OFFSET b.(rp_reported_value) in
  let? out := write_u128 out REPORT_REALIZED_LOSS_OFFSET b.(rp_realized_loss) in
  let? out := write_u128 out REPORT_UNATTRIBUTED_BALANCE_OFFSET b.(rp_unattributed_balance) in
  let? out := write_bytes out REPORT_LATEST_COMPLETED_TRANSFER_ID_OFFSET
                b.(rp_latest_completed_transfer_id) in
  let? out := write_u8 out REPORT_PROBE_STATUS_OFFSET (probe_status_to_u8 b.(rp_probe_status)) in
  let? out := write_u64 out REPORT_PROBE_TIMESTAMP_OFFSET b.(rp_probe_timestamp) in
  let? out := write_u64 out REPORT_CONFIG_VERSION_OFFSET b.(rp_config_version) in
  write_bytes out REPORT_REMOTE_STATE_COMMITMENT_OFFSET b.(rp_remote_state_commitment).

Definition remote_report_decode (bytes : list Z) : result DecodeError RemoteReportBody :=
  let? epoch_id := read_u64 bytes REPORT_EPOCH_ID_OFFSET in
  let? principal := read_u128 bytes REPORT_REMOTE_PRINCIPAL_OFFSET in
  let? value := read_u128 bytes REPORT_REPORTED_VALUE_OFFSET in
  let? loss := read_u128 bytes REPORT_REALIZED_LOSS_OFFSET in
  let? unattributed := read_u128 bytes REPORT_UNATTRIBUTED_BALANCE_OFFSET in
  let? latest := read_array WIDE bytes REPORT_LATEST_COMPLETED_TRANSFER_ID_OFFSET in
  let? status_byte := read_u8 bytes REPORT_PROBE_STATUS_OFFSET in
  let? status := probe_status_from_u8 status_byte in
  let? probe_timestamp := read_u64 bytes REPORT_PROBE_TIMESTAMP_OFFSET in
  let? config_version := read_u64 bytes REPORT_CONFIG_VERSION_OFFSET in
  let? commitment := read_array WIDE bytes REPORT_REMOTE_STATE_COMMITMENT_OFFSET in
  Ok (mkRemoteReportBody epoch_id principal value loss unattributed latest status
        probe_timestamp config_version commitment).

Definition recall_sent_encode_into (b : RecallSentBody) (out : list Z)
  : result EncodeError (list Z) :=
  let? out := write_bytes out RECALL_SENT_TRANSFER_ID_OFFSET b.(rs_transfer_id) in
  let? out := write_u128 out RECALL_SENT_PRINCIPAL_SENT_OFFSET b.(rs_principal_sent) in
  let? out := write_u128 out RECALL_SENT_ACTUAL_AMOUNT_SENT_OFFSET b.(rs_actual_amount_sent) in
  let? out := write_u128 out RECALL_SENT_REALIZED_LOSS_OFFSET b.(rs_realized_loss) in
  let? out := write_bytes out RECALL_SENT_DESTINATION_REFERENCE_OFFSET
                b.(rs_destination_reference) in
  let? out := write_u64 out RECALL_SENT_SENT_TIMESTAMP_OFFSET b.(rs_sent_timestamp) in
  write_u64 out RECALL_SENT_CONFIG_VERSION_OFFSET b.(rs_config_version).

Definition recall_sent_decode (bytes : list Z) : result DecodeError RecallSentBody :=
  let? transfer_id := read_array WIDE bytes RECALL_SENT_TRANSFER_ID_OFFSET in
  let? principal := read_u128 bytes RECALL_SENT_PRINCIPAL_SENT_OFFSET in
  let? actual := read_u128 bytes RECALL_SENT_ACTUAL_AMOUNT_SENT_OFFSET in
  let? loss := read_u128 bytes RECALL_SENT_REALIZED_LOSS_OFFSET in
  let? reference := read_array WIDE bytes RECALL_SENT_DESTINATION_REFERENCE_OFFSET in
  let? sent_timestamp := read_u64 bytes RECALL_SENT_SENT_TIMESTAMP_OFFSET in
  let? config_version := read_u64 bytes RECALL_SENT_CONFIG_VERSION_OFFSET in
  Ok (mkRecallSentBody transfer_id principal actual loss reference sent_timestamp config_version).

Definition config_update_encode_into (b : ConfigUpdateBody) (out : list Z)
  : result EncodeError (list Z) :=
  let? out := write_u64 out CONFIG_VERSION_OFFSET b.(cu_config_version) in
  let? out := write_u64 out CONFIG_PREVIOUS_VERSION_OFFSET b.(cu_previous_config_version) in
  let? out := write_u16 out CONFIG_MAX_REMOTE_ALLOCATION_BPS_OFFSET
                b.(cu_max_remote_allocation_bps) in
  let? out := write_u16 out CONFIG_MAX_UPWARD_DEVIATION_BPS_OFFSET
                b.(cu_max_upward_deviation_bps) in
  let? out := write_u16 out CONFIG_MAX_DOWNWARD_DEVIATION_BPS_OFFSET
                b.(cu_max_downward_deviation_bps) in
  let? out := write_u64 out CONFIG_MAX_REPORT_AGE_OFFSET b.(cu_max_report_age) in
  let? out := write_u64 out CONFIG_EFFECTIVE_TIMESTAMP_OFFSET b.(cu_effective_timestamp) in
  write_bytes out CONFIG_COMMITMENT_OFFSET b.(cu_config_commitment).

Definition config_update_decode (bytes : list Z) : result DecodeError ConfigUpdateBody :=
  let? config_version := read_u64 bytes CONFIG_VERSION_OFFSET in
  let? previous := read_u64 bytes CONFIG_PREVIOUS_VERSION_OFFSET in
  let? allocation := read_u16 bytes CONFIG_MAX_REMOTE_ALLOCATION_BPS_OFFSET in
  let? upward := read_u16 bytes CONFIG_MAX_UPWARD_DEVIATION_BPS_OFFSET in
  let? downward := read_u16 bytes CONFIG_MAX_DOWNWARD_DEVIATION_BPS_OFFSET in
  let? age := read_u64 bytes CONFIG_MAX_REPORT_AGE_OFFSET in
  let? effective := read_u64 bytes CONFIG_EFFECTIVE_TIMESTAMP_OFFSET in
  let? commitment := read_array WIDE bytes CONFIG_COMMITMENT_OFFSET in
  Ok (mkConfigUpdateBody config_version previous allocation upward downward age effective
        commitment).

Definition resolve_encode_into (b : ResolveBody) (out : list Z) : result EncodeError (list Z) :=
  let? out := write_bytes out RESOLVE_TRANSFER_ID_OFFSET b.(re_transfer_id) in
  let? out := write_u64 out RESOLVE_TARGET_SEQUENCE_OFFSET b.(re_target_sequence) in
  let? out := write_u8 out RESOLVE_ACTION_OFFSET (resolve_action_to_u8 b.(re_action)) in
  write_u64 out RESOLVE_CONFIG_VERSION_OFFSET b.(re_config_version).

Definition resolve_decode (bytes : list Z) : result DecodeError ResolveBody :=
  let? transfer_id := read_array WIDE bytes RESOLVE_TRANSFER_ID_OFFSET in
  let? target := read_u64 bytes RESOLVE_TARGET_SEQUENCE_OFFSET in
  let? action_byte := read_u8 bytes RESOLVE_ACTION_OFFSET in
  let? action := resolve_action_from_u8 action_byte in
  let? config_version := read_u64 bytes RESOLVE_CONFIG_VERSION_OFFSET in
  Ok (mkResolveBody transfer_id target action config_version).

Definition transport_settlement_encode_into (b : TransportSettlementBody) (out : list Z)
  : result EncodeError (list Z) :=
  let? out := write_bytes out SETTLEMENT_TRANSFER_ID_OFFSET b.(ts_transfer_id) in
  let? out := write_u8 out SETTLEMENT_KIND_OFFSET (settlement_kind_to_u8 b.(ts_kind)) in
  let? out := write_u128 out SETTLEMENT_CLAIM_AMOUNT_OFFSET b.(ts_claim_amount) in
  let? out := write_u128 out SETTLEMENT_CREDITED_AMOUNT_OFFSET b.(ts_credited_amount) in
  let? out := write_u128 out SETTLEMENT_IMPAIRED_OUTSTANDING_OFFSET
                b.(ts_impaired_outstanding) in
  write_u64 out SETTLEMENT_CONFIG_VERSION_OFFSET b.(ts_config_version).

Definition transport_settlement_decode (bytes : list Z)
  : result DecodeError TransportSettlementBody :=
  let? transfer_id := read_array WIDE bytes SETTLEMENT_TRANSFER_ID_OFFSET in
  let? kind_byte := read_u8 bytes SETTLEMENT_KIND_OFFSET in
  let? kind := settlement_kind_from_u8 kind_byte in
  let? claim := read_u128 bytes SETTLEMENT_CLAIM_AMOUNT_OFFSET in
  let? credited := read_u128 bytes SETTLEMENT_CREDITED_AMOUNT_OFFSET in
  let? impaired := read_u128 bytes SETTLEMENT_IMPAIRED_OUTSTANDING_OFFSET in
  let? config_version := read_u64 bytes SETTLEMENT_CONFIG_VERSION_OFFSET in
  Ok (mkTransportSettlementBody transfer_id kind claim credited impaired config_version).

Definition body_encode_into (b : Body) (out : list Z) : result EncodeError (list Z) :=
  match b with
  | BAllocate b => allocate_encode_into b out
  | BRecall b => recall_encode_into b out
  | BRemoteReport b => remote_report_encode_into b out
  | BRecallSent b => recall_sent_encode_into b out
  | BConfigUpdate b => config_update_encode_into b out
  | BResolve b => resolve_encode_into b out
  | BTransportSettlement b => transport_settlement_encode_into b out
  end.

Definition body_decode (kind : MessageType) (bytes : list Z) : result DecodeError Body :=
  match kind with
  | MtAllocate => result_map BAllocate (allocate_decode bytes)
  | MtRecall => result_map BRecall (recall_decode bytes)
  | MtRemoteReport => result_map BRemoteReport (remote_report_decode bytes)
  | MtRecallSent => result_map BRecallSent (recall_sent_decode bytes)
  | MtConfigUpdate => result_map BConfigUpdate (config_update_decode bytes)
  | MtResolve => result_map BResolve (resolve_decode bytes)
  | MtTransportSettlement =>
      result_map BTransportSettlement (transport_settlement_decode bytes)
  end.

(** * The header on the wire *)

Definition read_header (bytes : list Z) : result DecodeError Header :=
  let? protocol_version := read_u16 bytes PROTOCOL_VERSION_OFFSET in
  let? schema_version := read_u16 bytes SCHEMA_VERSION_OFFSET in
  let? flags := read_u16 bytes FLAGS_OFFSET in
  let? source_chain := read_u32 bytes SOURCE_CHAIN_OFFSET in
  let? destination_chain := read_u32 bytes DESTINATION_CHAIN_OFFSET in
  let? source_application := read_array WIDE bytes SOURCE_APPLICATION_OFFSET in
  let? destination_application := read_array WIDE bytes DESTINATION_APPLICATION_OFFSET in
  let? deployment_id := read_array WIDE bytes DEPLOYMENT_ID_OFFSET in
  let? vault_id := read_array WIDE bytes VAULT_ID_OFFSET in
  let? lane_id := read_u32 bytes LANE_ID_OFFSET in
  let? sequence := read_u64 bytes SEQUENCE_OFFSET in
  let? previous_commitment := read_array WIDE bytes PREVIOUS_COMMITMENT_OFFSET in
  let? observed_at := read_u64 bytes OBSERVED_AT_OFFSET in
  let? published_at := read_u64 bytes PUBLISHED_AT_OFFSET in
  let? expires_at := read_u64 bytes EXPIRES_AT_OFFSET in
  Ok (mkHeader protocol_version schema_version flags source_chain destination_chain
        source_application destination_application deployment_id vault_id lane_id sequence
        previous_commitment observed_at published_at expires_at).

Definition write_header (out : list Z) (h : Header) (kind : MessageType) (body_hash : list Z)
  : result EncodeError (list Z) :=
  let? out := write_bytes out MAGIC_OFFSET MAGIC in
  let? out := write_u16 out PROTOCOL_VERSION_OFFSET h.(h_protocol_version) in
  let? out := write_u16 out SCHEMA_VERSION_OFFSET h.(h_schema_version) in
  let? out := write_u8 out MESSAGE_TYPE_OFFSET (message_type_to_u8 kind) in
  let? out := write_u16 out FLAGS_OFFSET h.(h_flags) in
  let? out := write_u32 out SOURCE_CHAIN_OFFSET h.(h_source_chain) in
  let? out := write_u32 out DESTINATION_CHAIN_OFFSET h.(h_destination_chain) in
  let? out := write_bytes out SOURCE_APPLICATION_OFFSET h.(h_source_application) in
  let? out := write_bytes out DESTINATION_APPLICATION_OFFSET h.(h_destination_application) in
  let? out := write_bytes out DEPLOYMENT_ID_OFFSET h.(h_deployment_id) in
  let? out := write_bytes out VAULT_ID_OFFSET h.(h_vault_id) in
  let? out := write_u32 out LANE_ID_OFFSET h.(h_lane_id) in
  let? out := write_u64 out SEQUENCE_OFFSET h.(h_sequence) in
  let? out := write_bytes out PREVIOUS_COMMITMENT_OFFSET h.(h_previous_commitment) in
  let? out := write_u64 out OBSERVED_AT_OFFSET h.(h_observed_at) in
  let? out := write_u64 out PUBLISHED_AT_OFFSET h.(h_published_at) in
  let? out := write_u64 out EXPIRES_AT_OFFSET h.(h_expires_at) in
  write_bytes out BODY_HASH_OFFSET body_hash.

(** What structural inspection learned before any field was parsed. *)
Record Frame := mkFrame {
  fr_message_type : MessageType;
  fr_body_len : nat;
}.

Definition inspect_frame (bytes : list Z) : result DecodeError Frame :=
  fail_if (length bytes <? HEADER_LEN)%nat
    with Truncated (saturating_u32 HEADER_LEN) (saturating_u32 (length bytes));
  let? magic := read_array MAGIC_LEN bytes MAGIC_OFFSET in
  fail_if negb (bool_decide (magic = MAGIC)) with InvalidMagic;
  let? protocol := read_u16 bytes PROTOCOL_VERSION_OFFSET in
  fail_if negb (protocol =? PROTOCOL_VERSION) with UnsupportedProtocolVersion protocol;
  let? schema := read_u16 bytes SCHEMA_VERSION_OFFSET in
  fail_if negb (schema =? SCHEMA_VERSION) with UnsupportedSchemaVersion schema;
  let? kind_byte := read_u8 bytes MESSAGE_TYPE_OFFSET in
  let? kind := message_type_from_u8 kind_byte in
  let len := body_len kind in
  require Z.of_nat HEADER_LEN + Z.of_nat len <=? usize_max or LengthOverflow;
  let total := (HEADER_LEN + len)%nat in
  fail_if (length bytes <? total)%nat
    with Truncated (saturating_u32 total) (saturating_u32 (length bytes));
  fail_if (total <? length bytes)%nat
    with TrailingBytes (saturating_u32 total) (saturating_u32 (length bytes));
  Ok (mkFrame kind len).

(** [?] on a [ValidationError], through the two [From] impls. *)
Definition encode_invalid {A} (r : result ValidationError A) : result EncodeError A :=
  match r with Ok a => Ok a | Err e => Err (EncodeInvalid e) end.

Definition decode_invalid {A} (r : result ValidationError A) : result DecodeError A :=
  match r with Ok a => Ok a | Err e => Err (DecodeInvalid e) end.

(** Domain tags: [SOLEVM_MESSAGE_ID_V1] and [SOLEVM_COMMITMENT_V1] in ASCII. *)
Definition MESSAGE_ID_DOMAIN : list Z :=
  [83; 79; 76; 69; 86; 77; 95; 77; 69; 83; 83; 65; 71; 69; 95; 73; 68; 95; 86; 49].
Definition COMMITMENT_DOMAIN : list Z :=
  [83; 79; 76; 69; 86; 77; 95; 67; 79; 77; 77; 73; 84; 77; 69; 78; 84; 95; 86; 49].

(** A canonical message held in a fixed size buffer. *)
Record EncodedMessage := mkEncodedMessage {
  em_bytes : list Z;
  em_len : Z;
}.

Definition em_as_bytes (e : EncodedMessage) : list Z :=
  if (Z.to_nat e.(em_len) <=? length e.(em_bytes))%nat
  then take (Z.to_nat e.(em_len)) e.(em_bytes) else [].

Section hashed.
Context (digest : list Z -> list Z).

Definition keccak256 (bytes : list Z) : list Z := digest bytes.

Definition keccak256_parts (parts : list (list Z)) : list Z := digest (concat parts).

(** Identifier of a whole canonical message. *)
Definition message_id (encoded : list Z) : list Z := keccak256_parts [MESSAGE_ID_DOMAIN; encoded].

(** Next link of a lane hash chain. *)
Definition next_commitment (previous message : list Z) : list Z :=
  keccak256_parts [COMMITMENT_DOMAIN; previous; message].

(** Writes the canonical bytes of a valid message into [out]; returns the
    buffer after the call and the width used. *)
Definition encode_into (m : Message) (out : list Z) : result EncodeError (list Z * nat) :=
  let? _ := validate_supported_versions_for_encode m.(m_header) in
  let? _ := encode_invalid (validate_header m.(m_header)) in
  let? _ := encode_invalid
    (body_validate m.(m_body) (envelope_times m.(m_header)) m.(m_header).(h_sequence)) in
  let width := encoded_len m in
  let available := saturating_u32 (length out) in
  require (width <=? length out)%nat or BufferTooSmall (saturating_u32 width) available;
  let frame := take width out in
  let head := take HEADER_LEN frame in
  let body := drop HEADER_LEN frame in
  let? body := body_encode_into m.(m_body) body in
  let body_hash := keccak256 body in
  let? head := write_header head m.(m_header) (message_type m) body_hash in
  Ok (head ++ body ++ drop width out, width).

Definition message_encode (m : Message) : result EncodeError EncodedMessage :=
  let? '(bytes, written) := encode_into m (replicate MAX_MESSAGE_LEN 0) in
  Ok (mkEncodedMessage bytes
        (if Z.of_nat written <=? u16_max then Z.of_nat written else u16_max)).

Definition encode_message (m : Message) : result EncodeError (list Z) :=
  result_map em_as_bytes (message_encode m).

(** Keccak-256 of the encoded body. *)
Definition message_body_hash (m : Message) : result EncodeError (list Z) :=
  let body := replicate MAX_BODY_LEN 0 in
  let width := body_encoded_len m.(m_body) in
  require (width <=? MAX_BODY_LEN)%nat
    or BufferTooSmall (saturating_u32 width) (saturating_u32 MAX_BODY_LEN);
  let? slot := body_encode_into m.(m_body) (take width body) in
  Ok (keccak256 slot).

Definition message_message_id (m : Message) : result EncodeError (list Z) :=
  let? e := message_encode m in
  Ok (message_id (em_as_bytes e)).

(** Parses and fully validates one canonical message. *)
Definition decode_message (bytes : list Z) : result DecodeError Message :=
  let? frame := inspect_frame bytes in
  let? body_bytes := window bytes HEADER_LEN frame.(fr_body_len) in
  let? declared := read_array WIDE bytes BODY_HASH_OFFSET in
  fail_if negb (bool_decide (declared = keccak256 body_bytes)) with BodyHashMismatch;
  let? header := read_header bytes in
  let? body := body_decode frame.(fr_message_type) body_bytes in
  let? _ := decode_invalid (validate_header header) in
  let? _ := decode_invalid (body_validate body (envelope_times header) header.(h_sequence)) in
  Ok (mkMessage header body).

End hashed.
