(* ===== verification/ProtocolWire.v ===== *)
(** Fixed-width regions.  A region is a list of fields, each an offset and
    its bytes.  Writing the fields of a contiguous region yields their
    concatenation, and a reader gets every field back; [Wire] is what a body
    of the protocol promises, and each body is an instance. *)

From Stdlib Require Import ZArith Lia.
From S2P Require Import Prelude ProtocolLayout ProtocolTypes ProtocolCodec.

(** * Big-endian integers *)

Lemma to_be_S n v : to_be (S n) v = to_be n (v / 256) ++ [v mod 256].
Proof. done. Qed.

Lemma length_to_be n v : length (to_be n v) = n.
Proof. revert v. induction n; intros v; [done|]. rewrite to_be_S, length_app, IHn. cbn. lia. Qed.

Lemma to_be_is_bytes n v : is_bytes (to_be n v).
Proof.
  revert v. induction n; intros v; [constructor|]. rewrite to_be_S. apply Forall_app. split; [apply IHn|].
  repeat constructor; apply Z.mod_pos_bound; lia.
Qed.

Lemma from_be_snoc l b : from_be (l ++ [b]) = from_be l * 256 + b.
Proof. unfold from_be. by rewrite foldl_app. Qed.

(** The values of [n] bytes. *)
Definition be_max (n : nat) : Z := 256 ^ Z.of_nat n - 1.

Lemma be_max_S n : be_max (S n) = 256 * be_max n + 255.
Proof. unfold be_max. rewrite Nat2Z.inj_succ, Z.pow_succ_r by lia. lia. Qed.

Lemma from_to_be n v : fits (be_max n) v -> from_be (to_be n v) = v.
Proof.
  unfold fits. revert v. induction n as [|n IH]; intros v Hv.
  { unfold be_max in Hv. change (to_be 0 v) with (@nil Z). change (from_be []) with 0. cbn in Hv. lia. }
  rewrite to_be_S, from_be_snoc, IH; [pose proof (Z.div_mod v 256); lia|].
  rewrite be_max_S in Hv. pose proof (Z.div_mod v 256). pose proof (Z.mod_pos_bound v 256).
  split; [apply Z.div_pos; lia|apply Z.lt_succ_r, Z.div_lt_upper_bound; lia].
Qed.

Lemma to_from_be l : is_bytes l -> to_be (length l) (from_be l) = l /\ fits (be_max (length l)) (from_be l).
Proof.
  induction l as [|b l IH] using rev_ind; intros Hl; [split; [done|by unfold fits, be_max]|].
  apply Forall_app in Hl as [Hl Hb]. destruct (IH Hl) as [Heq Hfit].
  apply Forall_cons in Hb as [Hb _]. unfold is_byte in Hb.
  rewrite length_app, Nat.add_1_r, from_be_snoc. cbn [length]. rewrite to_be_S.
  rewrite (Z.div_add_l (from_be l) 256 b), (Z.div_small b 256), Z.add_0_r by lia.
  rewrite (Z.add_comm (from_be l * 256) b), (Z.mod_add b), (Z.mod_small b 256), Z.add_comm by lia.
  rewrite Heq. split; [done|]. rewrite be_max_S. unfold fits in *. lia.
Qed.

(** * Regions *)

(** A field with its contents. *)
Abbreviation Slot := (nat * list Z)%type (only parsing).

Definition slot_field (f : Slot) : nat * nat := (f.1, length f.2).

(** The bytes of a region, its fields joined in order. *)
Definition region (fs : list Slot) : list Z := concat fs.*2.

Fixpoint write_all (out : list Z) (fs : list Slot) : result EncodeError (list Z) :=
  match fs with
  | [] => Ok out
  | [f] => write_bytes out f.1 f.2
  | f :: fs' => let? out := write_bytes out f.1 f.2 in write_all out fs'
  end.

Lemma write_all_cons out f fs :
  write_all out (f :: fs) = (let? out := write_bytes out f.1 f.2 in write_all out fs).
Proof. destruct fs; [|done]. cbn. by destruct (write_bytes out f.1 f.2). Qed.

(** [bytes] carries the field [f]. *)
Definition carries (bytes : list Z) (f : Slot) : Prop :=
  (f.1 + length f.2 <= length bytes)%nat /\ slice bytes f.1 (length f.2) = f.2.

(** Buffers short enough for [usize]; every buffer of the protocol is. *)
Definition addressable (l : list Z) : Prop := Z.of_nat (length l) <= usize_max.

Lemma write_bytes_append pre rest v :
  addressable (pre ++ rest) -> (length v <= length rest)%nat ->
  write_bytes (pre ++ rest) (length pre) v = Ok ((pre ++ v) ++ drop (length v) rest).
Proof.
  unfold addressable. rewrite length_app. intros Ha Hv. unfold write_bytes.
  rewrite (proj2 (Z.leb_le _ _)) by lia. rewrite length_app.
  rewrite (proj2 (Nat.leb_le _ _)) by lia. f_equal.
  by rewrite take_app_length, <-drop_drop, drop_app_length, app_assoc.
Qed.

Lemma write_all_from pre rest fs total :
  addressable (pre ++ rest) -> (length pre + length rest = total)%nat ->
  contiguous_from (length pre) (map slot_field fs) total = true ->
  write_all (pre ++ rest) fs = Ok (pre ++ region fs).
Proof.
  unfold region. revert pre rest. induction fs as [|[off v] fs IH]; intros pre rest Ha Hlen Hc; cbn in Hc.
  { apply Nat.eqb_eq in Hc. cbn. assert (rest = []) as -> by (apply length_zero_iff_nil; lia). done. }
  destruct (Nat.eqb_spec off (length pre)) as [->|]; [|done].
  destruct (Nat.eqb_spec (length v) 0); [done|]. cbn in Hc.
  assert (length v <= length rest)%nat as Hv.
  { apply contiguous_le in Hc. lia. }
  rewrite write_all_cons. cbn [fst snd]. rewrite write_bytes_append by done.
  rewrite IH.
  - cbn. by rewrite <-app_assoc.
  - unfold addressable in *. rewrite !length_app, length_drop in *. lia.
  - rewrite length_app, length_drop. lia.
  - by rewrite length_app.
Qed.

(** Writing a contiguous region that fills the buffer gives its bytes. *)
Lemma write_region out fs total :
  addressable out -> length out = total ->
  is_contiguous (map slot_field fs) total = true -> write_all out fs = Ok (region fs).
Proof. intros Ha Hl Hc. by apply (write_all_from [] out fs total). Qed.

Lemma contiguous_length fs from total :
  contiguous_from from (map slot_field fs) total = true ->
  (from + length (region fs) = total)%nat.
Proof.
  unfold region. revert from. induction fs as [|[off v] fs IH]; intros from Hc; cbn in Hc.
  - apply Nat.eqb_eq in Hc. cbn. lia.
  - destruct (negb _ || _); [done|]. apply IH in Hc. cbn. rewrite length_app. lia.
Qed.

Lemma length_region fs total :
  is_contiguous (map slot_field fs) total = true -> length (region fs) = total.
Proof. intros Hc. by apply contiguous_length in Hc. Qed.

Lemma region_carries_from pre fs total f :
  contiguous_from (length pre) (map slot_field fs) total = true -> f ∈ fs ->
  carries (pre ++ region fs) f.
Proof.
  unfold region. revert pre. induction fs as [|[off v] fs IH]; intros pre Hc Hf; [by apply not_elem_of_nil in Hf|].
  cbn in Hc. destruct (Nat.eqb_spec off (length pre)) as [->|]; [|done].
  destruct (Nat.eqb_spec (length v) 0); [done|]. cbn in Hc. rewrite <-length_app in Hc.
  apply elem_of_cons in Hf as [->|Hf]; cbn.
  - unfold carries; cbn. rewrite !length_app. split; [lia|].
    unfold slice. by rewrite drop_app_length, take_app_length.
  - rewrite app_assoc. by apply IH.
Qed.

Lemma region_carries fs total f :
  is_contiguous (map slot_field fs) total = true -> f ∈ fs -> carries (region fs) f.
Proof. intros Hc Hf. by apply (region_carries_from [] fs total f). Qed.

(** Bytes that carry every field of a contiguous region are that region. *)
Lemma carries_region bytes fs total :
  is_contiguous (map slot_field fs) total = true -> length bytes = total ->
  (forall f, f ∈ fs -> carries bytes f) -> bytes = region fs.
Proof.
  intros Hc Hl Hf. eapply contiguous_eq; [exact Hc|done|by eapply length_region|].
  intros g Hg. apply list_elem_of_In, in_map_iff in Hg as (f & <- & Hin%list_elem_of_In).
  destruct (Hf f Hin) as [_ H1], (region_carries fs total f Hc Hin) as [_ H2].
  exact (eq_trans H1 (eq_sym H2)).
Qed.

(** * Reads *)

Lemma read_carried bytes off v n :
  addressable bytes -> carries bytes (off, v) -> length v = n ->
  read_array n bytes off = Ok v.
Proof.
  unfold addressable. intros Ha [Hle Hs] <-. cbn in *. unfold read_array, window.
  rewrite (proj2 (Z.leb_le _ _)) by lia. rewrite (proj2 (Nat.leb_le _ _)) by done.
  by rewrite Hs, Nat.eqb_refl.
Qed.

Lemma read_int_carried bytes off n v :
  addressable bytes -> carries bytes (off, to_be n v) -> fits (be_max n) v ->
  result_map from_be (read_array n bytes off) = Ok v.
Proof.
  intros Ha Hc Hv. rewrite (read_carried bytes off (to_be n v)) by (done || apply length_to_be).
  cbn. by rewrite from_to_be.
Qed.

(** What a read that returned says of the bytes. *)
Lemma read_array_Ok n bytes off v :
  read_array n bytes off = Ok v -> carries bytes (off, v) /\ length v = n.
Proof.
  unfold read_array, window, carries. intros H. repeat invert_step.
  repeat match goal with
  | E : (_ <=? _)%nat = true |- _ => apply Nat.leb_le in E
  | E : (_ =? _)%nat = true |- _ => apply Nat.eqb_eq in E
  end. cbn. rewrite length_slice by done. done.
Qed.

Lemma is_bytes_slice bytes off n : is_bytes bytes -> is_bytes (slice bytes off n).
Proof. intros H. unfold slice. by apply Forall_take, Forall_drop. Qed.

Lemma read_wide_Ok bytes off v :
  is_bytes bytes -> read_array WIDE bytes off = Ok v -> carries bytes (off, v) /\ is_wide v.
Proof.
  intros Hb Hr. apply read_array_Ok in Hr as [Hc Hl]. split; [done|]. split; [done|].
  destruct Hc as [_ Heq]. cbn in Heq. rewrite <-Heq. by apply is_bytes_slice.
Qed.

Lemma read_int_Ok n bytes off v :
  is_bytes bytes -> result_map from_be (read_array n bytes off) = Ok v ->
  carries bytes (off, to_be n v) /\ fits (be_max n) v.
Proof.
  intros Hb Hr. destruct (read_array n bytes off) as [l|] eqn:El; [|done]. cbn in Hr.
  injection Hr as <-. apply read_array_Ok in El as [[Hle Heq] Hl]. cbn in *.
  assert (is_bytes l) as Hbl by (rewrite <-Heq; by apply is_bytes_slice).
  destruct (to_from_be l Hbl) as [Hto Hfit]. rewrite Hl in *. split; [|done].
  unfold carries; cbn. by rewrite length_to_be, Hto.
Qed.

(** * What a body promises *)

(** [fields] is the reference layout of a body; the laws relate the code's
    encoder and decoder to it. *)
Class Wire (B : Type) := {
  w_fields : B -> list (nat * list Z);
  w_layout : list (nat * nat);
  w_len : nat;
  w_typed : B -> Prop;
  w_encode : B -> list Z -> result EncodeError (list Z);
  w_decode : list Z -> result DecodeError B;
  w_contiguous : is_contiguous w_layout w_len = true;
  w_fields_layout b : w_typed b -> map slot_field (w_fields b) = w_layout;
  w_encode_fields b out : w_encode b out = write_all out (w_fields b);
  w_decode_carried b bytes : w_typed b -> addressable bytes ->
    Forall (carries bytes) (w_fields b) -> w_decode bytes = Ok b;
  w_decode_Ok b bytes : is_bytes bytes -> w_decode bytes = Ok b ->
    w_typed b /\ Forall (carries bytes) (w_fields b);
}.

Section wire.
Context {B : Type} `{Wire B}.

Lemma wire_contiguous b : w_typed b -> is_contiguous (map slot_field (w_fields b)) w_len = true.
Proof. intros Ht. rewrite w_fields_layout by done. apply w_contiguous. Qed.

(** Encoding into a buffer of the body's width returns its region. *)
Lemma wire_encode b out :
  w_typed b -> addressable out -> length out = w_len -> w_encode b out = Ok (region (w_fields b)).
Proof. intros Ht Ha Hl. rewrite w_encode_fields. by eapply write_region, wire_contiguous. Qed.

Lemma wire_length b : w_typed b -> length (region (w_fields b)) = w_len.
Proof. intros Ht. by eapply length_region, wire_contiguous. Qed.

Lemma wire_round_trip b :
  w_typed b -> addressable (region (w_fields b)) -> w_decode (region (w_fields b)) = Ok b.
Proof.
  intros Ht Ha. apply w_decode_carried; [done|done|]. apply Forall_forall. intros f Hf.
  by eapply region_carries; [apply wire_contiguous|].
Qed.

(** Only the canonical bytes decode to a body. *)
Lemma wire_canonical b bytes :
  is_bytes bytes -> length bytes = w_len -> w_decode bytes = Ok b ->
  w_typed b /\ bytes = region (w_fields b).
Proof.
  intros Hb Hl Hd. destruct (w_decode_Ok b bytes Hb Hd) as [Ht Hf]. split; [done|].
  rewrite Forall_forall in Hf. by eapply carries_region; [apply wire_contiguous| |].
Qed.
End wire.
