(* ===== verification/ProtocolBodies.v ===== *)
(** The seven bodies and the header as regions: [Wire] instances for the
    bodies, and the same facts for [write_header] and [read_header]. *)

From Stdlib Require Import ZArith Lia.
From S2P Require Import Prelude ProtocolLayout ProtocolTypes ProtocolCodec ProtocolWire.

(** * Discriminants *)

Lemma message_type_round_trip k : message_type_from_u8 (message_type_to_u8 k) = Ok k.
Proof. by destruct k. Qed.

Lemma message_type_from_Ok v k : message_type_from_u8 v = Ok k -> v = message_type_to_u8 k.
Proof. unfold message_type_from_u8. intros H. repeat (case_match; try discriminate); by simplify_eq. Qed.

Lemma probe_status_round_trip s : probe_status_from_u8 (probe_status_to_u8 s) = Ok s.
Proof. by destruct s. Qed.

Lemma probe_status_from_Ok v s : probe_status_from_u8 v = Ok s -> v = probe_status_to_u8 s.
Proof. unfold probe_status_from_u8. intros H. repeat (case_match; try discriminate); by simplify_eq. Qed.

Lemma resolve_action_round_trip a : resolve_action_from_u8 (resolve_action_to_u8 a) = Ok a.
Proof. by destruct a. Qed.

Lemma resolve_action_from_Ok v a : resolve_action_from_u8 v = Ok a -> v = resolve_action_to_u8 a.
Proof. unfold resolve_action_from_u8. intros H. repeat (case_match; try discriminate); by simplify_eq. Qed.

Lemma settlement_kind_round_trip k : settlement_kind_from_u8 (settlement_kind_to_u8 k) = Ok k.
Proof. by destruct k. Qed.

Lemma settlement_kind_from_Ok v k : settlement_kind_from_u8 v = Ok k -> v = settlement_kind_to_u8 k.
Proof. unfold settlement_kind_from_u8. intros H. repeat (case_match; try discriminate); by simplify_eq. Qed.

Lemma probe_status_byte s : fits (be_max 1) (probe_status_to_u8 s).
Proof. by destruct s. Qed.

Lemma resolve_action_byte a : fits (be_max 1) (resolve_action_to_u8 a).
Proof. by destruct a. Qed.

Lemma settlement_kind_byte k : fits (be_max 1) (settlement_kind_to_u8 k).
Proof. by destruct k. Qed.

Lemma message_type_byte k : fits (be_max 1) (message_type_to_u8 k).
Proof. by destruct k. Qed.

(** * Automation *)

(** Splits what the bytes carry, and runs a chain of reads over it. *)
Ltac split_carried H := repeat (apply Forall_cons in H as [? H]).

Ltac solve_reads Ha :=
  unfold read_u8, read_u16, read_u32, read_u64, read_u128;
  repeat match goal with
  | H : carries ?bytes (?off, to_be ?n ?v) |- context [result_map from_be (read_array ?n ?bytes ?off)] =>
      rewrite (read_int_carried bytes off n v Ha H) by assumption; clear H
  | H : carries ?bytes (?off, ?v) |- context [read_array WIDE ?bytes ?off] =>
      rewrite (read_carried bytes off v WIDE Ha H) by assumption; clear H
  | |- _ => rewrite probe_status_round_trip || rewrite resolve_action_round_trip
            || rewrite settlement_kind_round_trip
  end.

(** Reads that returned: what the bytes carry, and the widths of the values. *)
Ltac invert_reads Hb :=
  unfold read_u8, read_u16, read_u32, read_u64, read_u128 in *;
  repeat (invert_step; cbv beta in * );
  repeat match goal with
  | H : result_map from_be (read_array ?n ?bytes ?off) = Ok ?v |- _ =>
      apply (read_int_Ok n bytes off v Hb) in H as [? ?]
  | H : read_array WIDE ?bytes ?off = Ok ?v |- _ =>
      apply (read_wide_Ok bytes off v Hb) in H as [? ?]
  | H : probe_status_from_u8 _ = Ok _ |- _ => apply probe_status_from_Ok in H; subst
  | H : resolve_action_from_u8 _ = Ok _ |- _ => apply resolve_action_from_Ok in H; subst
  | H : settlement_kind_from_u8 _ = Ok _ |- _ => apply settlement_kind_from_Ok in H; subst
  end.

Ltac join_carried := repeat (apply Forall_cons_2; [assumption|]); apply Forall_nil_2.

(** Widths of the wire integers. *)
Lemma u8_be : u8_max = be_max 1. Proof. reflexivity. Qed.
Lemma u16_be : u16_max = be_max 2. Proof. reflexivity. Qed.
Lemma u32_be : u32_max = be_max 4. Proof. reflexivity. Qed.
Lemma u64_be : u64_max = be_max 8. Proof. reflexivity. Qed.
Lemma u128_be : u128_max = be_max 16. Proof. reflexivity. Qed.

(** * Bodies *)

(** The field widths of a typed body are those of its layout. *)
Ltac solve_layout :=
  unfold slot_field; cbn [map fst snd]; rewrite ?length_to_be;
  repeat match goal with
  | H : _ /\ _ |- _ => destruct H
  end;
  repeat match goal with
  | H : is_wide _ |- _ => destruct H as [? _]
  | H : length _ = WIDE |- _ => rewrite H; clear H
  end; reflexivity.

Ltac use_widths :=
  rewrite ?u8_be, ?u16_be, ?u32_be, ?u64_be, ?u128_be in *.

(** The widths of a typed body as separate hypotheses. *)
Ltac split_typed :=
  use_widths;
  repeat match goal with H : _ /\ _ |- _ => destruct H end;
  repeat match goal with H : is_wide _ |- _ => destruct H as [? _] end.

(** ** [AllocateBody] *)

Definition allocate_typed (b : AllocateBody) : Prop :=
  is_wide b.(al_transfer_id) /\ is_u128 b.(al_amount) /\
  is_u128 b.(al_expected_source_balance) /\ is_u128 b.(al_minimum_destination_amount) /\
  is_u64 b.(al_deadline) /\ is_u64 b.(al_config_version).

Definition allocate_fields (b : AllocateBody) : list (nat * list Z) :=
  [(ALLOCATE_TRANSFER_ID_OFFSET, b.(al_transfer_id));
   (ALLOCATE_AMOUNT_OFFSET, to_be 16 b.(al_amount));
   (ALLOCATE_EXPECTED_SOURCE_BALANCE_OFFSET, to_be 16 b.(al_expected_source_balance));
   (ALLOCATE_MINIMUM_DESTINATION_AMOUNT_OFFSET, to_be 16 b.(al_minimum_destination_amount));
   (ALLOCATE_DEADLINE_OFFSET, to_be 8 b.(al_deadline));
   (ALLOCATE_CONFIG_VERSION_OFFSET, to_be 8 b.(al_config_version))].

#[export] Program Instance allocate_wire : Wire AllocateBody := {|
  w_fields := allocate_fields;
  w_layout := ALLOCATE_FIELDS;
  w_len := ALLOCATE_BODY_LEN;
  w_typed := allocate_typed;
  w_encode := allocate_encode_into;
  w_decode := allocate_decode;
|}.
Next Obligation. reflexivity. Qed.
Next Obligation. intros b Ht. unfold allocate_typed in Ht. unfold allocate_fields. solve_layout. Qed.
Next Obligation. done. Qed.
Next Obligation.
  intros b bytes Ht Ha Hf. unfold allocate_typed in Ht. unfold allocate_fields in Hf.
  split_typed. split_carried Hf. unfold allocate_decode. solve_reads Ha. by destruct b.
Qed.
Next Obligation.
  intros b bytes Hb Hd. unfold allocate_decode in Hd. invert_reads Hb.
  unfold allocate_typed, allocate_fields; cbn; use_widths. split; [by split_and!|join_carried].
Qed.

(** ** [RecallBody] *)

Definition recall_typed (b : RecallBody) : Prop :=
  is_wide b.(rc_transfer_id) /\ is_u128 b.(rc_requested_amount) /\
  is_u128 b.(rc_minimum_return_amount) /\ is_u64 b.(rc_deadline) /\
  is_u64 b.(rc_config_version).

Definition recall_fields (b : RecallBody) : list (nat * list Z) :=
  [(RECALL_TRANSFER_ID_OFFSET, b.(rc_transfer_id));
   (RECALL_REQUESTED_AMOUNT_OFFSET, to_be 16 b.(rc_requested_amount));
   (RECALL_MINIMUM_RETURN_AMOUNT_OFFSET, to_be 16 b.(rc_minimum_return_amount));
   (RECALL_DEADLINE_OFFSET, to_be 8 b.(rc_deadline));
   (RECALL_CONFIG_VERSION_OFFSET, to_be 8 b.(rc_config_version))].

#[export] Program Instance recall_wire : Wire RecallBody := {|
  w_fields := recall_fields;
  w_layout := RECALL_FIELDS;
  w_len := RECALL_BODY_LEN;
  w_typed := recall_typed;
  w_encode := recall_encode_into;
  w_decode := recall_decode;
|}.
Next Obligation. reflexivity. Qed.
Next Obligation. intros b Ht. unfold recall_typed in Ht. unfold recall_fields. solve_layout. Qed.
Next Obligation. done. Qed.
Next Obligation.
  intros b bytes Ht Ha Hf. unfold recall_typed in Ht. unfold recall_fields in Hf.
  split_typed. split_carried Hf. unfold recall_decode. solve_reads Ha. by destruct b.
Qed.
Next Obligation.
  intros b bytes Hb Hd. unfold recall_decode in Hd. invert_reads Hb.
  unfold recall_typed, recall_fields; cbn; use_widths. split; [by split_and!|join_carried].
Qed.

(** ** [RemoteReportBody] *)

Definition remote_report_typed (b : RemoteReportBody) : Prop :=
  is_u64 b.(rp_epoch_id) /\ is_u128 b.(rp_remote_principal) /\ is_u128 b.(rp_reported_value) /\
  is_u128 b.(rp_realized_loss) /\ is_u128 b.(rp_unattributed_balance) /\
  is_wide b.(rp_latest_completed_transfer_id) /\ is_u64 b.(rp_probe_timestamp) /\
  is_u64 b.(rp_config_version) /\ is_wide b.(rp_remote_state_commitment).

Definition remote_report_fields (b : RemoteReportBody) : list (nat * list Z) :=
  [(REPORT_EPOCH_ID_OFFSET, to_be 8 b.(rp_epoch_id));
   (REPORT_REMOTE_PRINCIPAL_OFFSET, to_be 16 b.(rp_remote_principal));
   (REPORT_REPORTED_VALUE_OFFSET, to_be 16 b.(rp_reported_value));
   (REPORT_REALIZED_LOSS_OFFSET, to_be 16 b.(rp_realized_loss));
   (REPORT_UNATTRIBUTED_BALANCE_OFFSET, to_be 16 b.(rp_unattributed_balance));
   (REPORT_LATEST_COMPLETED_TRANSFER_ID_OFFSET, b.(rp_latest_completed_transfer_id));
   (REPORT_PROBE_STATUS_OFFSET, to_be 1 (probe_status_to_u8 b.(rp_probe_status)));
   (REPORT_PROBE_TIMESTAMP_OFFSET, to_be 8 b.(rp_probe_timestamp));
   (REPORT_CONFIG_VERSION_OFFSET, to_be 8 b.(rp_config_version));
   (REPORT_REMOTE_STATE_COMMITMENT_OFFSET, b.(rp_remote_state_commitment))].

#[export] Program Instance remote_report_wire : Wire RemoteReportBody := {|
  w_fields := remote_report_fields;
  w_layout := REMOTE_REPORT_FIELDS;
  w_len := REMOTE_REPORT_BODY_LEN;
  w_typed := remote_report_typed;
  w_encode := remote_report_encode_into;
  w_decode := remote_report_decode;
|}.
Next Obligation. reflexivity. Qed.
Next Obligation. intros b Ht. unfold remote_report_typed in Ht. unfold remote_report_fields. solve_layout. Qed.
Next Obligation. done. Qed.
Next Obligation.
  intros b bytes Ht Ha Hf. unfold remote_report_typed in Ht. unfold remote_report_fields in Hf.
  split_typed. split_carried Hf. unfold remote_report_decode. pose proof (probe_status_byte b.(rp_probe_status)). solve_reads Ha. by destruct b.
Qed.
Next Obligation.
  intros b bytes Hb Hd. unfold remote_report_decode in Hd. invert_reads Hb.
  unfold remote_report_typed, remote_report_fields; cbn; use_widths. split; [by split_and!|join_carried].
Qed.

(** ** [RecallSentBody] *)

Definition recall_sent_typed (b : RecallSentBody) : Prop :=
  is_wide b.(rs_transfer_id) /\ is_u128 b.(rs_principal_sent) /\
  is_u128 b.(rs_actual_amount_sent) /\ is_u128 b.(rs_realized_loss) /\
  is_wide b.(rs_destination_reference) /\ is_u64 b.(rs_sent_timestamp) /\
  is_u64 b.(rs_config_version).

Definition recall_sent_fields (b : RecallSentBody) : list (nat * list Z) :=
  [(RECALL_SENT_TRANSFER_ID_OFFSET, b.(rs_transfer_id));
   (RECALL_SENT_PRINCIPAL_SENT_OFFSET, to_be 16 b.(rs_principal_sent));
   (RECALL_SENT_ACTUAL_AMOUNT_SENT_OFFSET, to_be 16 b.(rs_actual_amount_sent));
   (RECALL_SENT_REALIZED_LOSS_OFFSET, to_be 16 b.(rs_realized_loss));
   (RECALL_SENT_DESTINATION_REFERENCE_OFFSET, b.(rs_destination_reference));
   (RECALL_SENT_SENT_TIMESTAMP_OFFSET, to_be 8 b.(rs_sent_timestamp));
   (RECALL_SENT_CONFIG_VERSION_OFFSET, to_be 8 b.(rs_config_version))].

#[export] Program Instance recall_sent_wire : Wire RecallSentBody := {|
  w_fields := recall_sent_fields;
  w_layout := RECALL_SENT_FIELDS;
  w_len := RECALL_SENT_BODY_LEN;
  w_typed := recall_sent_typed;
  w_encode := recall_sent_encode_into;
  w_decode := recall_sent_decode;
|}.
Next Obligation. reflexivity. Qed.
Next Obligation. intros b Ht. unfold recall_sent_typed in Ht. unfold recall_sent_fields. solve_layout. Qed.
Next Obligation. done. Qed.
Next Obligation.
  intros b bytes Ht Ha Hf. unfold recall_sent_typed in Ht. unfold recall_sent_fields in Hf.
  split_typed. split_carried Hf. unfold recall_sent_decode. solve_reads Ha. by destruct b.
Qed.
Next Obligation.
  intros b bytes Hb Hd. unfold recall_sent_decode in Hd. invert_reads Hb.
  unfold recall_sent_typed, recall_sent_fields; cbn; use_widths. split; [by split_and!|join_carried].
Qed.

(** ** [ConfigUpdateBody] *)

Definition config_update_typed (b : ConfigUpdateBody) : Prop :=
  is_u64 b.(cu_config_version) /\ is_u64 b.(cu_previous_config_version) /\
  is_u16 b.(cu_max_remote_allocation_bps) /\ is_u16 b.(cu_max_upward_deviation_bps) /\
  is_u16 b.(cu_max_downward_deviation_bps) /\ is_u64 b.(cu_max_report_age) /\
  is_u64 b.(cu_effective_timestamp) /\ is_wide b.(cu_config_commitment).

Definition config_update_fields (b : ConfigUpdateBody) : list (nat * list Z) :=
  [(CONFIG_VERSION_OFFSET, to_be 8 b.(cu_config_version));
   (CONFIG_PREVIOUS_VERSION_OFFSET, to_be 8 b.(cu_previous_config_version));
   (CONFIG_MAX_REMOTE_ALLOCATION_BPS_OFFSET, to_be 2 b.(cu_max_remote_allocation_bps));
   (CONFIG_MAX_UPWARD_DEVIATION_BPS_OFFSET, to_be 2 b.(cu_max_upward_deviation_bps));
   (CONFIG_MAX_DOWNWARD_DEVIATION_BPS_OFFSET, to_be 2 b.(cu_max_downward_deviation_bps));
   (CONFIG_MAX_REPORT_AGE_OFFSET, to_be 8 b.(cu_max_report_age));
   (CONFIG_EFFECTIVE_TIMESTAMP_OFFSET, to_be 8 b.(cu_effective_timestamp));
   (CONFIG_COMMITMENT_OFFSET, b.(cu_config_commitment))].

#[export] Program Instance config_update_wire : Wire ConfigUpdateBody := {|
  w_fields := config_update_fields;
  w_layout := CONFIG_UPDATE_FIELDS;
  w_len := CONFIG_UPDATE_BODY_LEN;
  w_typed := config_update_typed;
  w_encode := config_update_encode_into;
  w_decode := config_update_decode;
|}.
Next Obligation. reflexivity. Qed.
Next Obligation. intros b Ht. unfold config_update_typed in Ht. unfold config_update_fields. solve_layout. Qed.
Next Obligation. done. Qed.
Next Obligation.
  intros b bytes Ht Ha Hf. unfold config_update_typed in Ht. unfold config_update_fields in Hf.
  split_typed. split_carried Hf. unfold config_update_decode. solve_reads Ha. by destruct b.
Qed.
Next Obligation.
  intros b bytes Hb Hd. unfold config_update_decode in Hd. invert_reads Hb.
  unfold config_update_typed, config_update_fields; cbn; use_widths. split; [by split_and!|join_carried].
Qed.

(** ** [ResolveBody] *)

Definition resolve_typed (b : ResolveBody) : Prop :=
  is_wide b.(re_transfer_id) /\ is_u64 b.(re_target_sequence) /\ is_u64 b.(re_config_version).

Definition resolve_fields (b : ResolveBody) : list (nat * list Z) :=
  [(RESOLVE_TRANSFER_ID_OFFSET, b.(re_transfer_id));
   (RESOLVE_TARGET_SEQUENCE_OFFSET, to_be 8 b.(re_target_sequence));
   (RESOLVE_ACTION_OFFSET, to_be 1 (resolve_action_to_u8 b.(re_action)));
   (RESOLVE_CONFIG_VERSION_OFFSET, to_be 8 b.(re_config_version))].

#[export] Program Instance resolve_wire : Wire ResolveBody := {|
  w_fields := resolve_fields;
  w_layout := RESOLVE_FIELDS;
  w_len := RESOLVE_BODY_LEN;
  w_typed := resolve_typed;
  w_encode := resolve_encode_into;
  w_decode := resolve_decode;
|}.
Next Obligation. reflexivity. Qed.
Next Obligation. intros b Ht. unfold resolve_typed in Ht. unfold resolve_fields. solve_layout. Qed.
Next Obligation. done. Qed.
Next Obligation.
  intros b bytes Ht Ha Hf. unfold resolve_typed in Ht. unfold resolve_fields in Hf.
  split_typed. split_carried Hf. unfold resolve_decode. pose proof (resolve_action_byte b.(re_action)). solve_reads Ha. by destruct b.
Qed.
Next Obligation.
  intros b bytes Hb Hd. unfold resolve_decode in Hd. invert_reads Hb.
  unfold resolve_typed, resolve_fields; cbn; use_widths. split; [by split_and!|join_carried].
Qed.

(** ** [TransportSettlementBody] *)

Definition transport_settlement_typed (b : TransportSettlementBody) : Prop :=
  is_wide b.(ts_transfer_id) /\ is_u128 b.(ts_claim_amount) /\
  is_u128 b.(ts_credited_amount) /\ is_u128 b.(ts_impaired_outstanding) /\
  is_u64 b.(ts_config_version).

Definition transport_settlement_fields (b : TransportSettlementBody) : list (nat * list Z) :=
  [(SETTLEMENT_TRANSFER_ID_OFFSET, b.(ts_transfer_id));
   (SETTLEMENT_KIND_OFFSET, to_be 1 (settlement_kind_to_u8 b.(ts_kind)));
   (SETTLEMENT_CLAIM_AMOUNT_OFFSET, to_be 16 b.(ts_claim_amount));
   (SETTLEMENT_CREDITED_AMOUNT_OFFSET, to_be 16 b.(ts_credited_amount));
   (SETTLEMENT_IMPAIRED_OUTSTANDING_OFFSET, to_be 16 b.(ts_impaired_outstanding));
   (SETTLEMENT_CONFIG_VERSION_OFFSET, to_be 8 b.(ts_config_version))].

#[export] Program Instance transport_settlement_wire : Wire TransportSettlementBody := {|
  w_fields := transport_settlement_fields;
  w_layout := TRANSPORT_SETTLEMENT_FIELDS;
  w_len := TRANSPORT_SETTLEMENT_BODY_LEN;
  w_typed := transport_settlement_typed;
  w_encode := transport_settlement_encode_into;
  w_decode := transport_settlement_decode;
|}.
Next Obligation. reflexivity. Qed.
Next Obligation. intros b Ht. unfold transport_settlement_typed in Ht. unfold transport_settlement_fields. solve_layout. Qed.
Next Obligation. done. Qed.
Next Obligation.
  intros b bytes Ht Ha Hf. unfold transport_settlement_typed in Ht. unfold transport_settlement_fields in Hf.
  split_typed. split_carried Hf. unfold transport_settlement_decode. pose proof (settlement_kind_byte b.(ts_kind)). solve_reads Ha. by destruct b.
Qed.
Next Obligation.
  intros b bytes Hb Hd. unfold transport_settlement_decode in Hd. invert_reads Hb.
  unfold transport_settlement_typed, transport_settlement_fields; cbn; use_widths. split; [by split_and!|join_carried].
Qed.

(** * The header *)

Definition header_typed (h : Header) : Prop :=
  is_u16 h.(h_protocol_version) /\ is_u16 h.(h_schema_version) /\ is_u16 h.(h_flags) /\
  is_u32 h.(h_source_chain) /\ is_u32 h.(h_destination_chain) /\
  is_wide h.(h_source_application) /\ is_wide h.(h_destination_application) /\
  is_wide h.(h_deployment_id) /\ is_wide h.(h_vault_id) /\ is_u32 h.(h_lane_id) /\
  is_u64 h.(h_sequence) /\ is_wide h.(h_previous_commitment) /\ is_u64 h.(h_observed_at) /\
  is_u64 h.(h_published_at) /\ is_u64 h.(h_expires_at).

Definition header_fields (h : Header) (kind : MessageType) (hash : list Z)
  : list (nat * list Z) :=
  [(MAGIC_OFFSET, MAGIC);
   (PROTOCOL_VERSION_OFFSET, to_be 2 h.(h_protocol_version));
   (SCHEMA_VERSION_OFFSET, to_be 2 h.(h_schema_version));
   (MESSAGE_TYPE_OFFSET, to_be 1 (message_type_to_u8 kind));
   (FLAGS_OFFSET, to_be 2 h.(h_flags));
   (SOURCE_CHAIN_OFFSET, to_be 4 h.(h_source_chain));
   (DESTINATION_CHAIN_OFFSET, to_be 4 h.(h_destination_chain));
   (SOURCE_APPLICATION_OFFSET, h.(h_source_application));
   (DESTINATION_APPLICATION_OFFSET, h.(h_destination_application));
   (DEPLOYMENT_ID_OFFSET, h.(h_deployment_id));
   (VAULT_ID_OFFSET, h.(h_vault_id));
   (LANE_ID_OFFSET, to_be 4 h.(h_lane_id));
   (SEQUENCE_OFFSET, to_be 8 h.(h_sequence));
   (PREVIOUS_COMMITMENT_OFFSET, h.(h_previous_commitment));
   (OBSERVED_AT_OFFSET, to_be 8 h.(h_observed_at));
   (PUBLISHED_AT_OFFSET, to_be 8 h.(h_published_at));
   (EXPIRES_AT_OFFSET, to_be 8 h.(h_expires_at));
   (BODY_HASH_OFFSET, hash)].

Lemma header_fields_layout h kind hash :
  header_typed h -> length hash = WIDE ->
  map slot_field (header_fields h kind hash) = HEADER_FIELDS.
Proof. intros Ht Hh. unfold header_typed in Ht. unfold header_fields. solve_layout. Qed.

Lemma header_contiguous h kind hash :
  header_typed h -> length hash = WIDE ->
  is_contiguous (map slot_field (header_fields h kind hash)) HEADER_LEN = true.
Proof. intros Ht Hh. by rewrite header_fields_layout. Qed.

Lemma write_header_fields out h kind hash :
  write_header out h kind hash = write_all out (header_fields h kind hash).
Proof. reflexivity. Qed.

Lemma read_header_carried h kind hash bytes :
  header_typed h -> addressable bytes ->
  Forall (carries bytes) (header_fields h kind hash) -> read_header bytes = Ok h.
Proof.
  intros Ht Ha Hf. unfold header_typed in Ht. unfold header_fields in Hf.
  split_typed. split_carried Hf. unfold read_header. solve_reads Ha. by destruct h.
Qed.

(** What [read_header] learns; the magic, the kind and the hash come from
    [inspect_frame] and [decode_message]. *)
Lemma read_header_Ok h bytes kind hash :
  is_bytes bytes -> read_header bytes = Ok h ->
  carries bytes (MAGIC_OFFSET, MAGIC) ->
  carries bytes (MESSAGE_TYPE_OFFSET, to_be 1 (message_type_to_u8 kind)) ->
  carries bytes (BODY_HASH_OFFSET, hash) ->
  header_typed h /\ Forall (carries bytes) (header_fields h kind hash).
Proof.
  intros Hb Hd. unfold read_header in Hd. intros Hm Hk Hh. invert_reads Hb.
  unfold header_typed, header_fields; cbn; use_widths. split; [by split_and!|join_carried].
Qed.

(** * Bodies as a sum *)

Definition body_typed (b : Body) : Prop :=
  match b with
  | BAllocate b => w_typed b
  | BRecall b => w_typed b
  | BRemoteReport b => w_typed b
  | BRecallSent b => w_typed b
  | BConfigUpdate b => w_typed b
  | BResolve b => w_typed b
  | BTransportSettlement b => w_typed b
  end.

(** The canonical bytes of a body. *)
Definition body_region (b : Body) : list Z :=
  match b with
  | BAllocate b => region (w_fields b)
  | BRecall b => region (w_fields b)
  | BRemoteReport b => region (w_fields b)
  | BRecallSent b => region (w_fields b)
  | BConfigUpdate b => region (w_fields b)
  | BResolve b => region (w_fields b)
  | BTransportSettlement b => region (w_fields b)
  end.

(** Every body is shorter than the longest one. *)
Lemma body_len_bound k : (body_len k <= MAX_BODY_LEN)%nat.
Proof. destruct k; vm_compute; lia. Qed.

Lemma message_len_sum k : message_len k = (HEADER_LEN + body_len k)%nat.
Proof. by destruct k. Qed.

Lemma length_addressable (l : list Z) : (length l <= MAX_MESSAGE_LEN)%nat -> addressable l.
Proof.
  intros Hl. unfold addressable. change MAX_MESSAGE_LEN with 400%nat in Hl.
  unfold u64_max. lia.
Qed.

Lemma body_len_addressable (l : list Z) k : length l = body_len k -> addressable l.
Proof.
  intros Hl. apply length_addressable. pose proof (body_len_bound k).
  unfold MAX_MESSAGE_LEN. lia.
Qed.

Lemma length_body_region b : body_typed b -> length (body_region b) = body_encoded_len b.
Proof. destruct b as [b|b|b|b|b|b|b]; intros Ht; exact (wire_length b Ht). Qed.

Lemma body_encode_region b out :
  body_typed b -> length out = body_encoded_len b -> body_encode_into b out = Ok (body_region b).
Proof.
  intros Ht Hl. assert (addressable out) as Ha by (by eapply body_len_addressable).
  destruct b as [b|b|b|b|b|b|b]; exact (wire_encode b out Ht Ha Hl).
Qed.

Lemma body_round_trip b : body_typed b -> body_decode (body_message_type b) (body_region b) = Ok b.
Proof.
  intros Ht. pose proof (length_body_region b Ht) as Hl.
  assert (addressable (body_region b)) as Ha by (by eapply body_len_addressable).
  destruct b as [b|b|b|b|b|b|b]; pose proof (wire_round_trip b Ht Ha) as Hd; cbn in Hd |- *;
    by rewrite Hd.
Qed.

Lemma body_canonical k b bytes :
  is_bytes bytes -> length bytes = body_len k -> body_decode k bytes = Ok b ->
  body_message_type b = k /\ body_typed b /\ bytes = body_region b.
Proof.
  intros Hb Hl Hd. destruct k; cbn in Hl, Hd.
  1: destruct (allocate_decode bytes) as [x|] eqn:E; [|discriminate].
  2: destruct (recall_decode bytes) as [x|] eqn:E; [|discriminate].
  3: destruct (remote_report_decode bytes) as [x|] eqn:E; [|discriminate].
  4: destruct (recall_sent_decode bytes) as [x|] eqn:E; [|discriminate].
  5: destruct (config_update_decode bytes) as [x|] eqn:E; [|discriminate].
  6: destruct (resolve_decode bytes) as [x|] eqn:E; [|discriminate].
  7: destruct (transport_settlement_decode bytes) as [x|] eqn:E; [|discriminate].
  all: injection Hd as <-; split; [done|]; exact (wire_canonical x bytes Hb Hl E).
Qed.
