(* ===== verification/ProtocolMessages.v ===== *)
(** Whole messages: [encode_message] writes the canonical bytes of a valid
    message, [decode_message] accepts exactly those bytes, and what the two
    hash domains commit to. *)

From Stdlib Require Import ZArith Lia.
From S2P Require Import Prelude ProtocolLayout ProtocolTypes ProtocolCodec ProtocolWire.
From S2P Require Import ProtocolBodies.

Definition message_typed (m : Message) : Prop := header_typed m.(m_header) /\ body_typed m.(m_body).

(** Every rule the encoder applies before it writes a byte. *)
Definition message_rules (m : Message) : result EncodeError unit :=
  let? _ := validate_supported_versions_for_encode m.(m_header) in
  let? _ := encode_invalid (validate_header m.(m_header)) in
  encode_invalid
    (body_validate m.(m_body) (envelope_times m.(m_header)) m.(m_header).(h_sequence)).

Lemma versions_Ok h u :
  validate_supported_versions_for_encode h = Ok u ->
  h.(h_protocol_version) = PROTOCOL_VERSION /\ h.(h_schema_version) = SCHEMA_VERSION.
Proof. unfold validate_supported_versions_for_encode. intros H. invert_ok. done. Qed.

Lemma encode_invalid_Ok {A} (r : result ValidationError A) a : encode_invalid r = Ok a <-> r = Ok a.
Proof. destruct r; cbn; split; intros; by simplify_eq. Qed.

Lemma decode_invalid_Ok {A} (r : result ValidationError A) a : decode_invalid r = Ok a <-> r = Ok a.
Proof. destruct r; cbn; split; intros; by simplify_eq. Qed.

Lemma message_rules_Ok m u :
  message_rules m = Ok u <->
  m.(m_header).(h_protocol_version) = PROTOCOL_VERSION /\
  m.(m_header).(h_schema_version) = SCHEMA_VERSION /\
  validate_header m.(m_header) = Ok tt /\
  body_validate m.(m_body) (envelope_times m.(m_header)) m.(m_header).(h_sequence) = Ok tt.
Proof.
  unfold message_rules. split.
  - intros H. repeat invert_step.
    repeat match goal with E : encode_invalid _ = Ok ?x |- _ => apply encode_invalid_Ok in E; destruct x end.
    match goal with E : validate_supported_versions_for_encode _ = _ |- _ => apply versions_Ok in E as [? ?] end.
    done.
  - intros (Hp & Hs & Hh & Hb). unfold validate_supported_versions_for_encode.
    rewrite Hp, Hs, Hh. cbn. rewrite Hb. by destruct u.
Qed.

Lemma carries_app_l l r f : carries l f -> carries (l ++ r) f.
Proof.
  intros [Hle Heq]. unfold carries. rewrite length_app. split; [lia|].
  unfold slice in *. rewrite drop_app_le by lia. rewrite take_app_le; [done|].
  rewrite length_drop. lia.
Qed.

(** A field that ends inside the first part is carried by the first part. *)
Lemma carries_app_inv l r f : (f.1 + length f.2 <= length l)%nat -> carries (l ++ r) f -> carries l f.
Proof.
  intros Hle [_ Heq]. split; [done|]. unfold slice in *. rewrite drop_app_le in Heq by lia.
  rewrite take_app_le in Heq; [done|]. rewrite length_drop. lia.
Qed.

Section messages.
Context (digest : list Z -> list Z).

Definition message_head (m : Message) : list Z :=
  region (header_fields m.(m_header) (message_type m) (digest (body_region m.(m_body)))).

(** The canonical bytes of a message. *)
Definition message_bytes (m : Message) : list Z := message_head m ++ body_region m.(m_body).

Section one_message.
Context (m : Message) (Ht : message_typed m).
Context (Hd : length (digest (body_region m.(m_body))) = WIDE).

Lemma length_message_head : length (message_head m) = HEADER_LEN.
Proof. eapply length_region, header_contiguous; [apply Ht|done]. Qed.

Lemma length_message_bytes : length (message_bytes m) = encoded_len m.
Proof.
  unfold message_bytes, encoded_len. rewrite length_app, length_message_head, message_len_sum.
  rewrite length_body_region by apply Ht. done.
Qed.

Lemma message_bytes_addressable : addressable (message_bytes m).
Proof.
  apply length_addressable. rewrite length_message_bytes. unfold encoded_len.
  rewrite message_len_sum. pose proof (body_len_bound (message_type m)). unfold MAX_MESSAGE_LEN. lia.
Qed.

(** The encoder's result, every branch. *)
Lemma encode_into_spec out :
  encode_into digest m out =
    let? _ := message_rules m in
    if (encoded_len m <=? length out)%nat
    then Ok (message_bytes m ++ drop (encoded_len m) out, encoded_len m)
    else Err (BufferTooSmall (saturating_u32 (encoded_len m)) (saturating_u32 (length out))).
Proof.
  unfold encode_into, message_rules.
  destruct (validate_supported_versions_for_encode _); [|done].
  destruct (encode_invalid (validate_header _)); [|done].
  destruct (encode_invalid (body_validate _ _ _)); [|done].
  destruct (Nat.leb_spec (encoded_len m) (length out)) as [Hlen|]; [|done].
  assert (encoded_len m = HEADER_LEN + body_encoded_len (m_body m))%nat as Hw
    by (unfold encoded_len; by rewrite message_len_sum).
  rewrite body_encode_region; [|apply Ht|rewrite length_drop, length_take; lia].
  unfold keccak256. rewrite write_header_fields.
  erewrite write_region; [|..|apply header_contiguous; [apply Ht|exact Hd]].
  - unfold message_bytes. by rewrite <-app_assoc.
  - apply length_addressable. rewrite !length_take. unfold MAX_MESSAGE_LEN. lia.
  - rewrite !length_take. lia.
Qed.

(** Encoding never runs out of buffer: it returns the canonical bytes, or the
    first rule the message breaks. *)
Lemma encode_message_spec :
  encode_message digest m = let? _ := message_rules m in Ok (message_bytes m).
Proof.
  unfold encode_message, message_encode. rewrite encode_into_spec.
  destruct (message_rules m); [|done]. rewrite length_replicate.
  assert (encoded_len m <= MAX_MESSAGE_LEN)%nat as Hle.
  { unfold encoded_len. rewrite message_len_sum. pose proof (body_len_bound (message_type m)).
    unfold MAX_MESSAGE_LEN. lia. }
  rewrite (proj2 (Nat.leb_le _ _) Hle). cbn [result_map].
  assert (Z.of_nat (encoded_len m) <= u16_max) as Hu16.
  { change MAX_MESSAGE_LEN with 400%nat in Hle. unfold u16_max. lia. }
  rewrite (proj2 (Z.leb_le _ _) Hu16). unfold em_as_bytes. cbn [em_bytes em_len].
  rewrite Nat2Z.id, length_app, length_message_bytes.
  rewrite (proj2 (Nat.leb_le _ _)) by lia.
  rewrite <-length_message_bytes at 1. by rewrite take_app_length.
Qed.

Lemma message_head_carries f :
  f ∈ header_fields m.(m_header) (message_type m) (digest (body_region m.(m_body))) ->
  carries (message_bytes m) f.
Proof.
  intros Hf. apply carries_app_l. eapply region_carries; [apply header_contiguous; [apply Ht|exact Hd]|done].
Qed.

Lemma body_window :
  window (message_bytes m) HEADER_LEN (body_encoded_len m.(m_body)) = Ok (body_region m.(m_body)).
Proof.
  pose proof message_bytes_addressable as Ha. unfold addressable in Ha.
  pose proof length_message_bytes as Hl.
  assert (encoded_len m = HEADER_LEN + body_encoded_len (m_body m))%nat as Hw
    by (unfold encoded_len; by rewrite message_len_sum).
  unfold window. rewrite (proj2 (Z.leb_le _ _)) by lia. rewrite (proj2 (Nat.leb_le _ _)) by lia.
  f_equal. unfold slice, message_bytes. rewrite <-length_message_head, drop_app_length.
  apply take_ge. rewrite length_body_region by apply Ht. done.
Qed.

Lemma inspect_frame_ok u :
  message_rules m = Ok u ->
  inspect_frame (message_bytes m) = Ok (mkFrame (message_type m) (body_encoded_len m.(m_body))).
Proof.
  intros (Hp & Hs & _ & _)%message_rules_Ok.
  pose proof message_bytes_addressable as Ha. pose proof length_message_bytes as Hl.
  assert (encoded_len m = HEADER_LEN + body_encoded_len (m_body m))%nat as Hw
    by (unfold encoded_len; by rewrite message_len_sum).
  pose proof (Forall_forall (carries (message_bytes m)) (header_fields m.(m_header) (message_type m)
    (digest (body_region m.(m_body))))) as [_ Hf].
  specialize (Hf message_head_carries). unfold header_fields in Hf. rewrite Hp, Hs in Hf.
  split_carried Hf. unfold inspect_frame.
  destruct (Nat.ltb_spec (length (message_bytes m)) HEADER_LEN); [lia|].
  erewrite read_carried; [|done|eassumption|reflexivity].
  rewrite bool_decide_true by done. cbn [negb]. unfold read_u16, read_u8.
  erewrite (read_int_carried _ PROTOCOL_VERSION_OFFSET); [|done|eassumption|by vm_compute].
  rewrite Z.eqb_refl. cbn [negb].
  erewrite (read_int_carried _ SCHEMA_VERSION_OFFSET); [|done|eassumption|by vm_compute].
  rewrite Z.eqb_refl. cbn [negb].
  erewrite (read_int_carried _ MESSAGE_TYPE_OFFSET); [|done|eassumption|apply message_type_byte].
  rewrite message_type_round_trip. unfold addressable in Ha.
  change (body_len (message_type m)) with (body_encoded_len (m_body m)).
  rewrite (proj2 (Z.leb_le _ _)) by lia.
  rewrite (proj2 (Nat.ltb_ge _ _)) by lia. by rewrite (proj2 (Nat.ltb_ge _ _)) by lia.
Qed.

Lemma decode_message_bytes u :
  message_rules m = Ok u -> decode_message digest (message_bytes m) = Ok m.
Proof.
  intros Hr. pose proof (inspect_frame_ok u Hr) as Hframe.
  apply message_rules_Ok in Hr as (_ & _ & Hh & Hb). pose proof message_bytes_addressable as Ha.
  unfold decode_message. rewrite Hframe. cbn [fr_body_len fr_message_type].
  rewrite body_window.
  rewrite (read_carried _ BODY_HASH_OFFSET (digest (body_region (m_body m)))); [|done| |done].
  2: { apply message_head_carries. unfold header_fields. do 17 (apply list_elem_of_further). apply list_elem_of_here. }
  unfold keccak256. rewrite bool_decide_true by done. cbn [negb].
  erewrite read_header_carried; [|apply Ht|done|apply Forall_forall, message_head_carries].
  change (message_type m) with (body_message_type (m_body m)).
  rewrite body_round_trip by apply Ht. rewrite Hh. cbn. rewrite Hb. cbn. by destruct m.
Qed.
End one_message.

(** What a byte string [inspect_frame] accepts looks like. *)
Lemma inspect_frame_Ok bytes fr :
  is_bytes bytes -> inspect_frame bytes = Ok fr ->
  fr.(fr_body_len) = body_len fr.(fr_message_type) /\
  length bytes = (HEADER_LEN + fr.(fr_body_len))%nat /\
  carries bytes (MAGIC_OFFSET, MAGIC) /\
  carries bytes (MESSAGE_TYPE_OFFSET, to_be 1 (message_type_to_u8 fr.(fr_message_type))) /\
  (forall h, read_header bytes = Ok h ->
    h.(h_protocol_version) = PROTOCOL_VERSION /\ h.(h_schema_version) = SCHEMA_VERSION).
Proof.
  intros Hb H. unfold inspect_frame, read_u16, read_u8 in H. repeat (invert_step; cbv zeta in * ).
  bool_to_prop. repeat match goal with
  | E : (_ <? _)%nat = false |- _ => apply Nat.ltb_ge in E
  | E : message_type_from_u8 _ = Ok _ |- _ => apply message_type_from_Ok in E; subst
  | E : read_array MAGIC_LEN _ _ = Ok _ |- _ => apply read_array_Ok in E as [? _]
  end. subst.
  repeat match goal with
  | E : result_map from_be (read_array 1 _ _) = Ok _ |- _ => apply (read_int_Ok 1 _ _ _ Hb) in E as [? _]
  end.
  cbn [fr_body_len fr_message_type] in *. split_and!; [done|lia|done|done|].
  { intros h Hh. unfold read_header, read_u16 in Hh.
    repeat match goal with
    | E : result_map from_be (read_array 2 bytes ?o) = Ok ?v, G : context [result_map from_be (read_array 2 bytes ?o)] |- _ =>
        lazymatch G with E => fail | _ => rewrite E in G end
    end.
    repeat (invert_step; cbv zeta in * ). done. }
Qed.

(** Only canonical bytes are accepted. *)
Lemma decode_message_Ok bytes m :
  is_bytes bytes -> decode_message digest bytes = Ok m ->
  message_typed m /\ length (digest (body_region m.(m_body))) = WIDE /\
  message_rules m = Ok tt /\ bytes = message_bytes m.
Proof.
  intros Hb H. unfold decode_message, keccak256 in H. repeat (invert_step; cbv zeta in * ).
  bool_to_prop. subst.
  match goal with E : inspect_frame _ = Ok ?f |- _ =>
    rename f into fr; apply (inspect_frame_Ok _ _ Hb) in E as (Hfl & Hlen & Hmagic & Hkind & Hver) end.
  match goal with E : window _ _ _ = Ok ?w |- _ => rename w into wb; rename E into Hwin end.
  match goal with E : read_header _ = Ok ?x |- _ => rename x into h; rename E into Hrh end.
  match goal with E : body_decode _ _ = Ok ?x |- _ => rename x into b; rename E into Hbd end.
  match goal with E : read_array WIDE _ BODY_HASH_OFFSET = Ok _ |- _ => rename E into Hhash end.
  repeat match goal with E : decode_invalid _ = Ok ?u |- _ => apply decode_invalid_Ok in E; destruct u end.
  apply (read_wide_Ok _ _ _ Hb) in Hhash as [Hhash [Hdl _]].
  assert (wb = drop HEADER_LEN bytes) as ->.
  { unfold window in Hwin. repeat invert_step. unfold slice. apply take_ge. rewrite length_drop. lia. }
  apply body_canonical in Hbd as (Hk & Htb & Hreg);
    [|by apply Forall_drop|rewrite length_drop; lia]. rewrite <-Hk in *.
  destruct (read_header_Ok h bytes (body_message_type b) (digest (drop HEADER_LEN bytes)) Hb Hrh Hmagic Hkind Hhash)
    as [Hth Hcar]. destruct (Hver h Hrh) as [Hpv Hsv]. rewrite Hreg in Hdl, Hcar.
  cbn [m_body m_header]. split_and!; [done|done|by apply message_rules_Ok|].
  unfold message_bytes, message_head. cbn [m_body m_header]. unfold message_type. cbn [m_body].
  rewrite <-(take_drop HEADER_LEN bytes) at 1. rewrite Hreg. f_equal.
  assert (length (take HEADER_LEN bytes) = HEADER_LEN) as Hlt by (rewrite length_take; lia).
  eapply carries_region; [by apply header_contiguous|done|]. intros f Hf.
  apply (carries_app_inv _ (drop HEADER_LEN bytes)).
  - rewrite Hlt. pose proof (region_carries _ _ f (header_contiguous h (body_message_type b) _ Hth Hdl) Hf) as [Hle _].
    erewrite (length_region _ HEADER_LEN) in Hle by (by apply header_contiguous). exact Hle.
  - rewrite take_drop. rewrite Forall_forall in Hcar. by apply Hcar.
Qed.

(** * Hash chains *)

(** Two different inputs with one digest. *)
Definition collides (x y : list Z) : Prop := x <> y /\ digest x = digest y.

(** The commitment of a lane after the messages [ids], from [start]. *)
Definition lane_commitment (start : list Z) (ids : list (list Z)) : list Z :=
  foldl (next_commitment digest) start ids.

(** What the identifier of a message and one step of a lane hash. *)
Definition id_input (bytes : list Z) : list Z := MESSAGE_ID_DOMAIN ++ bytes.

Definition step_input (previous id : list Z) : list Z := COMMITMENT_DOMAIN ++ previous ++ id.

Lemma next_commitment_binds p q x y :
  length p = length q -> next_commitment digest p x = next_commitment digest q y ->
  (p = q /\ x = y) \/ collides (step_input p x) (step_input q y).
Proof.
  unfold next_commitment, keccak256_parts. cbn [concat]. rewrite !app_nil_r. intros Hl Heq.
  destruct (decide (step_input p x = step_input q y)) as [Hs|Hne]; [left|by right].
  apply app_inv_head in Hs. by apply app_inj_1 in Hs.
Qed.

Lemma message_id_binds x y :
  message_id digest x = message_id digest y -> x = y \/ collides (id_input x) (id_input y).
Proof.
  unfold message_id, keccak256_parts. cbn [concat]. rewrite !app_nil_r. intros Heq.
  destruct (decide (id_input x = id_input y)) as [Hs|Hne]; [left|by right].
  by apply app_inv_head in Hs.
Qed.

(** The two domains never share an input. *)
Lemma domains_disjoint x p y : id_input x <> step_input p y.
Proof. unfold id_input, step_input, MESSAGE_ID_DOMAIN, COMMITMENT_DOMAIN. cbn. intros H. by simplify_eq. Qed.

(** The step at which two histories of a lane part with one commitment. *)
Definition lane_collision (start : list Z) (ids ids' : list (list Z)) : Prop :=
  exists i x y, ids !! i = Some x /\ ids' !! i = Some y /\
    collides (step_input (lane_commitment start (take i ids)) x)
             (step_input (lane_commitment start (take i ids')) y).

Lemma lane_collision_snoc start ids ids' x y :
  lane_collision start ids ids' -> lane_collision start (ids ++ [x]) (ids' ++ [y]).
Proof.
  intros (i & a & b & Ha & Hb & Hc). exists i, a, b.
  pose proof (lookup_lt_Some _ _ _ Ha). pose proof (lookup_lt_Some _ _ _ Hb).
  rewrite !lookup_app_l, !take_app_le by lia. done.
Qed.

Lemma lane_commitment_binds start ids ids' :
  (forall x, length (digest x) = WIDE) -> length start = WIDE ->
  length ids = length ids' ->
  lane_commitment start ids = lane_commitment start ids' ->
  ids = ids' \/ lane_collision start ids ids'.
Proof.
  intros Hd Hs. revert ids'.
  assert (forall l, length (lane_commitment start l) = WIDE) as Hlen.
  { intros l. unfold lane_commitment. induction l as [|x l IH] using rev_ind; [done|].
    rewrite foldl_app. apply Hd. }
  induction ids as [|x ids IH] using rev_ind; intros ids' Hl Heq.
  { left. cbn in Hl. by destruct ids'. }
  destruct ids' as [|y ids' _] using rev_ind; [rewrite length_app in Hl; cbn in Hl; lia|].
  rewrite !length_app in Hl. cbn in Hl.
  unfold lane_commitment in Heq. rewrite !foldl_app in Heq. cbn in Heq.
  fold (lane_commitment start ids) (lane_commitment start ids') in Heq.
  apply next_commitment_binds in Heq as [[Hpre ->]|Hcol]; [| |by rewrite !Hlen].
  - destruct (IH ids' ltac:(lia) Hpre) as [->|?]; [by left|right].
    by apply lane_collision_snoc.
  - right. exists (length ids), x, y. assert (length ids = length ids') as Hl' by lia.
    rewrite take_app_length. rewrite Hl' at 2 3. rewrite take_app_length.
    split_and!; [by apply list_lookup_middle| |done]. by apply list_lookup_middle.
Qed.
End messages.
