(* ===== verification/ProtocolTheorems.v ===== *)
(** The properties of the wire protocol ([crates/protocol-types/src]): the
    codec is total on typed messages, decoding inverts it and accepts nothing
    else, the frame rejects a swapped kind, and identifiers and lane
    commitments pin down what they hash. *)

From Stdlib Require Import ZArith Lia.
From S2P Require Import Prelude ProtocolLayout ProtocolTypes ProtocolCodec ProtocolWire.
From S2P Require Import ProtocolBodies ProtocolMessages.

(** * Fixtures of [bin/protocol_codec_ffi.rs] *)

Definition ffi_OBSERVED_AT : Z := 1700000000.
Definition ffi_PUBLISHED_AT : Z := 1700000060.
Definition ffi_EXPIRES_AT : Z := 1700003600.

Definition ffi_header : Header := {|
  h_protocol_version := PROTOCOL_VERSION;
  h_schema_version := SCHEMA_VERSION;
  h_flags := 0;
  h_source_chain := 1;
  h_destination_chain := 2;
  h_source_application := from_evm_address (replicate 20 161);
  h_destination_application := from_solana_pubkey (replicate 32 178);
  h_deployment_id := replicate 32 208;
  h_vault_id := replicate 32 14;
  h_lane_id := 7;
  h_sequence := 42;
  h_previous_commitment := replicate 32 193;
  h_observed_at := ffi_OBSERVED_AT;
  h_published_at := ffi_PUBLISHED_AT;
  h_expires_at := ffi_EXPIRES_AT;
|}.

(** The binary exits on [ConfigUpdate], which it has no fixture for. *)
Definition ffi_body_of (kind : MessageType) : option Body :=
  match kind with
  | MtAllocate => Some (BAllocate (mkAllocateBody (replicate 32 17) 1000000 5000000 999000
      (ffi_PUBLISHED_AT + 900) 4))
  | MtRecall => Some (BRecall (mkRecallBody (replicate 32 51) 750000 740000
      (ffi_PUBLISHED_AT + 1800) 9))
  | MtRemoteReport => Some (BRemoteReport (mkRemoteReportBody 12 2000000 2050000 1500 25
      (replicate 32 119) Fresh (ffi_OBSERVED_AT - 120) 4 (replicate 32 136)))
  | MtRecallSent => Some (BRecallSent (mkRecallSentBody (replicate 32 153) 500000 498000 2000
      (replicate 32 187) (ffi_OBSERVED_AT - 30) 4))
  | MtResolve => Some (BResolve (mkResolveBody (replicate 32 85) 41 ActAdmit 4))
  | MtTransportSettlement => Some (BTransportSettlement (mkTransportSettlementBody
      (replicate 32 102) Closed 1000000 600000 400000 4))
  | MtConfigUpdate => None
  end.

Definition ffi_message (kind : MessageType) : option Message :=
  mkMessage ffi_header <$> ffi_body_of kind.

(** A stand-in for Keccak-256 the witnesses run with. *)
Definition toy_digest (l : list Z) : list Z :=
  to_be 32 (foldl (fun acc b => (acc * 257 + b + 1) mod 2 ^ 256) 7 l).

Lemma toy_digest_wide l : length (toy_digest l) = WIDE.
Proof. apply length_to_be. Qed.

Definition report_sample : Message :=
  default (mkMessage ffi_header (BResolve (mkResolveBody [] 0 ActAdmit 0))) (ffi_message MtRemoteReport).

Lemma report_sample_typed : message_typed report_sample.
Proof.
  split; cbn; unfold header_typed, remote_report_typed, is_wide, fits; cbn;
    repeat split; try (vm_compute; congruence);
    by apply (bool_decide_unpack (is_bytes _)).
Qed.

Definition report_bytes : list Z :=
  match encode_message toy_digest report_sample with Ok b => b | Err _ => [] end.

(** * Properties *)

(** C10. A message that encodes decodes back to itself: whatever its kind,
    the decoder returns exactly the message the encoder was given. *)
Theorem message_round_trip (digest : list Z -> list Z) m bytes :
  (forall x, length (digest x) = WIDE) -> message_typed m ->
  encode_message digest m = Ok bytes -> decode_message digest bytes = Ok m.
Proof.
  intros Hd Ht He. rewrite encode_message_spec in He by done.
  destruct (message_rules m) as [u|] eqn:Hr; [|done]. injection He as <-.
  by apply (decode_message_bytes digest m Ht (Hd _) u).
Qed.

Lemma message_round_trip_witness : decode_message toy_digest report_bytes = Ok report_sample.
Proof.
  apply (message_round_trip toy_digest report_sample report_bytes toy_digest_wide
    report_sample_typed). vm_compute. reflexivity.
Defined.

(** C11. The encoding is canonical: the decoder accepts no byte string but
    the one the encoder writes for the message it returns, so no message has
    two encodings. *)
Theorem decode_accepts_only_canonical (digest : list Z -> list Z) bytes m :
  is_bytes bytes -> decode_message digest bytes = Ok m ->
  encode_message digest m = Ok bytes /\ length bytes = message_len (message_type m).
Proof.
  intros Hb Hd. apply (decode_message_Ok digest) in Hd as (Ht & Hl & Hr & ->); [|done].
  rewrite encode_message_spec by done. rewrite Hr. split; [done|].
  by rewrite length_message_bytes.
Qed.

Lemma decode_accepts_only_canonical_witness :
  encode_message toy_digest report_sample = Ok report_bytes /\ length report_bytes = 400%nat.
Proof.
  refine (decode_accepts_only_canonical toy_digest report_bytes report_sample _ _).
  - apply (bool_decide_unpack (is_bytes report_bytes)). vm_compute. exact I.
  - vm_compute. reflexivity.
Defined.

(** Encoding is total: a typed message yields its canonical bytes, of the
    fixed width of its kind and within the transport budget, or the first rule
    it breaks; the buffer is never too small. *)
Theorem encode_total (digest : list Z -> list Z) m :
  (forall x, length (digest x) = WIDE) -> message_typed m ->
  match message_rules m with
  | Ok _ => exists bytes, encode_message digest m = Ok bytes /\
      length bytes = message_len (message_type m) /\ (length bytes <= MESSAGE_SIZE_TARGET)%nat
  | Err e => encode_message digest m = Err e
  end.
Proof.
  intros Hd Ht. rewrite encode_message_spec by done. destruct (message_rules m); [|done].
  eexists. split; [done|]. rewrite length_message_bytes by done. split; [done|].
  unfold encoded_len. rewrite message_len_sum. pose proof (body_len_bound (message_type m)) as Hle.
  change MAX_BODY_LEN with 153%nat in Hle. change HEADER_LEN with 247%nat.
  unfold MESSAGE_SIZE_TARGET. lia.
Qed.

Lemma encode_total_witness :
  exists bytes, encode_message toy_digest report_sample = Ok bytes /\ (length bytes <= 400)%nat.
Proof.
  destruct (encode_total toy_digest report_sample toy_digest_wide report_sample_typed)
    as (bytes & He & _ & Hl). exists bytes. split; [exact He|exact Hl].
Defined.

Lemma body_len_inj j k : body_len j = body_len k -> j = k.
Proof. destruct j, k; (reflexivity || (vm_compute; discriminate)). Qed.

(** The kind byte of accepted bytes. *)
Lemma accepted_kind digest bytes m :
  is_bytes bytes -> decode_message digest bytes = Ok m ->
  bytes !! MESSAGE_TYPE_OFFSET = Some (message_type_to_u8 (message_type m)) /\
  length bytes = (HEADER_LEN + body_len (message_type m))%nat.
Proof.
  intros Hb Hd. apply (decode_message_Ok digest) in Hd as (Ht & Hl & _ & ->); [|done].
  split; [|by rewrite length_message_bytes, <-message_len_sum].
  assert (carries (message_bytes digest m)
    (MESSAGE_TYPE_OFFSET, to_be 1 (message_type_to_u8 (message_type m)))) as [_ Heq].
  { apply message_head_carries; [done|done|]. unfold header_fields.
    do 3 apply list_elem_of_further. apply list_elem_of_here. }
  cbn [fst snd] in Heq. rewrite length_to_be in Heq. unfold slice in Heq.
  assert (to_be 1 (message_type_to_u8 (message_type m)) = [message_type_to_u8 (message_type m)])
    as Hone by (by destruct (message_type m)).
  rewrite Hone in Heq. rewrite <-(Nat.add_0_r MESSAGE_TYPE_OFFSET), <-lookup_drop.
  destruct (drop MESSAGE_TYPE_OFFSET _); simpl in *; [done|]. congruence.
Qed.

(** A message cannot be replayed as another kind: the widths of the seven
    bodies differ, so changing the kind byte of an accepted message, to any
    other value, makes the decoder refuse it. *)
Theorem swapped_kind_rejected (digest : list Z -> list Z) bytes m v :
  is_bytes bytes -> decode_message digest bytes = Ok m -> is_byte v ->
  v <> message_type_to_u8 (message_type m) ->
  is_ok (decode_message digest (<[MESSAGE_TYPE_OFFSET := v]> bytes)) = false.
Proof.
  intros Hb Hd Hv Hne. destruct (accepted_kind digest bytes m Hb Hd) as [_ Hlen].
  destruct (decode_message digest (<[MESSAGE_TYPE_OFFSET := v]> bytes)) as [m'|] eqn:Hd'; [|done].
  apply accepted_kind in Hd' as [Hk' Hlen']; [|by apply Forall_insert].
  rewrite length_insert in Hlen'. exfalso. apply Hne.
  rewrite list_lookup_insert_eq in Hk' by (rewrite Hlen; vm_compute; lia).
  injection Hk' as ->. f_equal. apply body_len_inj. lia.
Qed.

Lemma swapped_kind_rejected_witness :
  is_ok (decode_message toy_digest (<[MESSAGE_TYPE_OFFSET := 2]> report_bytes)) = false.
Proof.
  refine (swapped_kind_rejected toy_digest report_bytes report_sample 2 _ _ _ _).
  - apply (bool_decide_unpack (is_bytes report_bytes)). vm_compute. exact I.
  - vm_compute. reflexivity.
  - split; vm_compute; congruence.
  - vm_compute. discriminate.
Defined.

(** A message identifier names one message: two typed messages whose
    encodings share an identifier are equal, or those two encodings, under the
    identifier's domain, are different inputs with one Keccak-256 digest. *)
Theorem message_id_identifies (digest : list Z -> list Z) m1 m2 b1 b2 :
  (forall x, length (digest x) = WIDE) -> message_typed m1 -> message_typed m2 ->
  encode_message digest m1 = Ok b1 -> encode_message digest m2 = Ok b2 ->
  message_id digest b1 = message_id digest b2 ->
  m1 = m2 \/ collides digest (id_input b1) (id_input b2).
Proof.
  intros Hd Ht1 Ht2 He1 He2 [->|?]%message_id_binds; [left|by right].
  rewrite encode_message_spec in He1, He2 by done.
  destruct (message_rules m1) as [u1|] eqn:Hr1; [|done]. destruct (message_rules m2) as [u2|] eqn:Hr2; [|done].
  pose proof (decode_message_bytes digest m1 Ht1 (Hd _) u1 Hr1) as Hd1.
  pose proof (decode_message_bytes digest m2 Ht2 (Hd _) u2 Hr2) as Hd2. congruence.
Qed.

Lemma message_id_identifies_witness :
  report_sample = report_sample \/
  collides toy_digest (id_input report_bytes) (id_input report_bytes).
Proof.
  apply (message_id_identifies toy_digest report_sample report_sample report_bytes report_bytes
    toy_digest_wide report_sample_typed report_sample_typed); vm_compute; reflexivity.
Defined.

(** The commitment of a lane pins down its whole history: two histories
    of the same length that reach the same commitment from the same start are
    the same sequence of messages, or some step of the two chains hashed
    different inputs to one digest. *)
Theorem lane_commitment_pins_history (digest : list Z -> list Z) start ids ids' :
  (forall x, length (digest x) = WIDE) -> length start = WIDE -> length ids = length ids' ->
  lane_commitment digest start ids = lane_commitment digest start ids' ->
  ids = ids' \/ lane_collision digest start ids ids'.
Proof. apply lane_commitment_binds. Qed.

Lemma lane_commitment_pins_history_witness :
  [message_id toy_digest report_bytes] = [message_id toy_digest report_bytes] \/
  lane_collision toy_digest wide_zero [message_id toy_digest report_bytes]
    [message_id toy_digest report_bytes].
Proof.
  apply (lane_commitment_pins_history toy_digest wide_zero
    [message_id toy_digest report_bytes] [message_id toy_digest report_bytes] toy_digest_wide);
    reflexivity.
Defined.
