(* ===== verification/RemoteState.v ===== *)
(** Data and rules of the Solana remote leg: errors ([errors.rs]), the
    configuration account ([state.rs]), risk limits and the replay lane
    ([control.rs]), the position and the transfer records ([strategy.rs]),
    the transport ledger ([transport.rs]), the custody identity
    ([custody.rs]) and the outbound lane ([outbound.rs]).

    Account fields keep their Rust width as [Z]; keys and identifiers are
    byte lists.  The layout constants ([LEN], reserved bytes) that only
    size an account on chain are left out. *)

From Stdlib Require Import ZArith Lia.
From stdpp Require Import strings.
From S2P Require Import Prelude ProtocolLayout ProtocolTypes.

(** * Errors *)

Inductive RemoteLegError : Set :=
| Unauthorized | AlreadyInitialized | Frozen | AlreadyFrozen | InvalidAuthority
| EqualAuthorities | InvalidProgram | InvalidAccountOwner | InvalidPda | InvalidBump
| InvalidMint | InvalidMintDecimals | InvalidTokenProgram | InvalidCustodyAccount
| InvalidOutboundEscrow | InvalidSourceDomain | InvalidDestinationDomain
| InvalidApplication | InvalidDeployment | InvalidVault | InvalidLane
| InvalidConfigVersion | ArithmeticOverflow | ControlStateAlreadyInitialized
| InvalidStateVersion | InvalidRiskConfig | InvalidBasisPoints | InvalidReportAge
| InvalidConfigCommitment | InvalidMessage | MessageTooLarge | UnsupportedMessageType
| InvalidProtocolVersion | InvalidSchemaVersion | InvalidTimestamp | MessageExpired
| InvalidSequence | SequenceBelowWatermark | InvalidPreviousCommitment | ReplayDetected
| InvalidConsumedMessage | ConfigNotEffective | InvalidWatermark | WatermarkLagViolation
| RecordNotClosable | InvalidRentDestination | StrategyStateAlreadyInitialized
| InvalidStrategyConfig | InvalidRemotePosition | InvalidAdapterProgram
| InvalidAdapterState | InvalidAdapterAuthority | InvalidAdapterVault
| InvalidTransferRecord | InvalidTransferKind | InvalidTransferStatus
| TransferAlreadyExists | TransferNotFound | UnresolvedCycle | NoActiveTransfer
| AllocationIncomplete | AttributionExceedsAuthorization | NoAttributableAssets
| RemoteAllocationLimitExceeded | InvalidExpectedSourceBalance
| InvalidMinimumDestinationAmount | InsufficientAttributedCustody
| InsufficientRemotePrincipal | InsufficientStrategyLiquidity | InvalidBalanceDelta
| InvalidPrincipalDelta | InvalidRealizedLoss | InvalidRecallAmount
| InvalidMinimumReturn | NoRecalledCustody | FinancialObligationBlocksWatermark
| AccountingDeficit | AmountTooLarge | OutboundStateAlreadyInitialized
| InvalidOutboundLane | InvalidReportRecord | InvalidReportType | InvalidReportSequence
| InvalidPublicationTimestamp | ReportAlreadyPublished | RecallNotComplete
| RecallSentAlreadyPublished | InvalidRecallIdentity | InvalidRemoteState
| InvalidRemoteStateCommitment | InvalidReportedValue | InvalidEncodedLength
| ReportTooLarge | InvalidDestinationReference | InvalidProbeState
| AdapterStateMismatch | InvalidOutboundMessage | CustodyControlChanged
| WrongResolveInstruction | TransferNotClosable | InvalidTransportLedger
| RecoveryStateMismatch | TransportLedgerImbalance | MissingActiveTransferRecord
| DeploymentAuthorizationRequired | DeploymentNotTopLevel | InvalidAuthorizationPolicy
| InvalidAuthorizationReceipt | AuthorizationExpired | AuthorizationAmountMismatch
| AuthorizationContextMismatch.

#[global] Instance RemoteLegError_eq_dec : EqDecision RemoteLegError.
Proof. solve_decision. Defined.

(** What an instruction can fail with: a rule of the leg, a constraint the
    account framework checks before the handler runs, or a program the leg
    called. *)
Inductive Error : Set :=
| Refused (e : RemoteLegError)
| AccountConstraint
| CalleeFailed.

#[global] Instance Error_eq_dec : EqDecision Error.
Proof. solve_decision. Defined.

Abbreviation Result := (result Error).

Abbreviation Key := (list Z) (only parsing).
Abbreviation Bytes32 := (list Z) (only parsing).

Definition default_key : Key := wide_zero.

(** The bytes of an ASCII literal, [b"..."]. *)
Definition byte_string (s : string) : list Z :=
  map (fun c => Z.of_nat (Ascii.nat_of_ascii c)) (String.list_ascii_of_string s).

(** Equality of keys, [require_keys_eq!]. *)
Definition keys_eq (a b : Key) : bool := bool_decide (a = b).

(** * Configuration *)

Definition STATE_VERSION : Z := 1.
Definition MIN_CONFIG_VERSION : Z := 1.
Definition REQUIRED_MINT_DECIMALS : Z := 6.

Record RemoteConfig := mkRemoteConfig {
  cf_state_version : Z;
  cf_bump : Z;
  cf_custody_authority_bump : Z;
  cf_frozen : bool;
  cf_administrator : Key;
  cf_emergency_guardian : Key;
  cf_transport_verifier : Key;
  cf_asset_mint : Key;
  cf_token_program : Key;
  cf_custody_authority : Key;
  cf_custody_token_account : Key;
  cf_outbound_escrow : Key;
  cf_source_chain_id : Z;
  cf_destination_chain_id : Z;
  cf_source_application_id : Bytes32;
  cf_local_application_id : Bytes32;
  cf_deployment_id : Bytes32;
  cf_vault_id : Bytes32;
  cf_control_lane_id : Z;
  cf_report_lane_id : Z;
  cf_config_version : Z;
  cf_initialized_at : Z
}.

#[global] Instance RemoteConfig_eta : Eta RemoteConfig := fun s => mkRemoteConfig
  (cf_state_version s) (cf_bump s) (cf_custody_authority_bump s) (cf_frozen s)
  (cf_administrator s) (cf_emergency_guardian s) (cf_transport_verifier s)
  (cf_asset_mint s) (cf_token_program s) (cf_custody_authority s)
  (cf_custody_token_account s) (cf_outbound_escrow s) (cf_source_chain_id s)
  (cf_destination_chain_id s) (cf_source_application_id s) (cf_local_application_id s)
  (cf_deployment_id s) (cf_vault_id s) (cf_control_lane_id s) (cf_report_lane_id s)
  (cf_config_version s) (cf_initialized_at s).

Definition is_emergency_authority (c : RemoteConfig) (signer : Key) : bool :=
  keys_eq signer c.(cf_administrator) || keys_eq signer c.(cf_emergency_guardian).

(** * Risk limits and the inbound lane *)

Inductive MessageClass : Set := ClassAllocate | ClassRecall | ClassConfigUpdate | ClassResolve.

#[global] Instance MessageClass_eq_dec : EqDecision MessageClass.
Proof. solve_decision. Defined.

Definition message_class_to_u8 (c : MessageClass) : Z :=
  match c with
  | ClassAllocate => 0 | ClassRecall => 1 | ClassConfigUpdate => 2 | ClassResolve => 3
  end.

Definition class_message_type (c : MessageClass) : MessageType :=
  match c with
  | ClassAllocate => MtAllocate
  | ClassRecall => MtRecall
  | ClassConfigUpdate => MtConfigUpdate
  | ClassResolve => MtResolve
  end.

Inductive SequenceRule : Set := StrictNext | StrictlyIncreasing.

Definition sequence_rule_check (r : SequenceRule) (sequence highest : Z) : Result unit :=
  match r with
  | StrictNext =>
      let? expected := ok_or (checked_add u64_max highest 1) (Refused ArithmeticOverflow) in
      require sequence =? expected or Refused InvalidSequence; Ok tt
  | StrictlyIncreasing =>
      require highest <? sequence or Refused InvalidSequence; Ok tt
  end.

Record RiskConfig := mkRiskConfig {
  rk_state_version : Z;
  rk_bump : Z;
  rk_max_remote_allocation_bps : Z;
  rk_max_upward_deviation_bps : Z;
  rk_max_downward_deviation_bps : Z;
  rk_max_report_age : Z;
  rk_config_version : Z;
  rk_config_commitment : Bytes32;
  rk_initialized_at : Z;
  rk_last_update_at : Z
}.

#[global] Instance RiskConfig_eta : Eta RiskConfig := fun s => mkRiskConfig
  (rk_state_version s) (rk_bump s) (rk_max_remote_allocation_bps s)
  (rk_max_upward_deviation_bps s) (rk_max_downward_deviation_bps s)
  (rk_max_report_age s) (rk_config_version s) (rk_config_commitment s)
  (rk_initialized_at s) (rk_last_update_at s).

Definition check_parameters (max_remote_allocation_bps max_upward_deviation_bps
    max_downward_deviation_bps max_report_age : Z) (config_commitment : Bytes32)
    : Result unit :=
  let? _ := try_fold (fun _ rate =>
      require rate <=? MAX_BASIS_POINTS or Refused InvalidBasisPoints; Ok tt) tt
      [max_remote_allocation_bps; max_upward_deviation_bps; max_downward_deviation_bps] in
  fail_if max_report_age =? 0 with Refused InvalidReportAge;
  fail_if bool_decide (config_commitment = wide_zero) with Refused InvalidConfigCommitment;
  Ok tt.

Record ReplayLane := mkReplayLane {
  rl_state_version : Z;
  rl_bump : Z;
  rl_lane_id : Z;
  rl_minimum_acceptable_sequence : Z;
  rl_highest_consumed_sequence : Z;
  rl_message_commitment : Bytes32;
  rl_mandatory_watermark_lag : Z;
  rl_last_accepted_at : Z
}.

#[global] Instance ReplayLane_eta : Eta ReplayLane := fun s => mkReplayLane
  (rl_state_version s) (rl_bump s) (rl_lane_id s) (rl_minimum_acceptable_sequence s)
  (rl_highest_consumed_sequence s) (rl_message_commitment s)
  (rl_mandatory_watermark_lag s) (rl_last_accepted_at s).

Definition FIRST_SEQUENCE : Z := 1.
Definition SEQUENCE_RULE : SequenceRule := StrictNext.

Record ConsumedMessage := mkConsumedMessage {
  cm_state_version : Z;
  cm_bump : Z;
  cm_message_class : MessageClass;
  cm_lane_id : Z;
  cm_sequence : Z;
  cm_message_id : Bytes32
}.

(** * Transfers and the position *)

Inductive TransferKind : Set := KNone | KAllocate | KRecall | KRecover.

#[global] Instance TransferKind_eq_dec : EqDecision TransferKind.
Proof. solve_decision. Defined.

Definition transfer_kind_to_u8 (k : TransferKind) : Z :=
  match k with KNone => 0 | KAllocate => 1 | KRecall => 2 | KRecover => 3 end.

Definition kind_message_class (k : TransferKind) : option MessageClass :=
  match k with
  | KNone => None
  | KAllocate => Some ClassAllocate
  | KRecall => Some ClassRecall
  | KRecover => Some ClassResolve
  end.

Inductive TransferStatus : Set := SNone | SPending | SComplete | SQuarantined | SClosed.

#[global] Instance TransferStatus_eq_dec : EqDecision TransferStatus.
Proof. solve_decision. Defined.

Definition transfer_status_to_u8 (s : TransferStatus) : Z :=
  match s with SNone => 0 | SPending => 1 | SComplete => 2 | SQuarantined => 3 | SClosed => 4 end.

Inductive QuarantineReason : Set := QExpired | QFrozen | QAllocationLimit.

Inductive ResolveOutcome : Set :=
| RAdmitted | RExpired | RNotQuarantined | RAllocationLimit | RInsufficientPrincipal.

Record StrategyConfig := mkStrategyConfig {
  sc_state_version : Z;
  sc_bump : Z;
  sc_adapter_program : Key;
  sc_adapter_state : Key;
  sc_adapter_authority : Key;
  sc_adapter_token_vault : Key;
  sc_max_remote_principal : Z;
  sc_initialized_at : Z
}.

Record RemotePosition := mkRemotePosition {
  po_state_version : Z;
  po_bump : Z;
  po_attributed_principal : Z;
  po_deployed_principal : Z;
  po_recalled_custody : Z;
  po_unattributed_custody : Z;
  po_cumulative_realized_loss : Z;
  po_active_transfer_id : Bytes32;
  po_active_transfer_kind : TransferKind;
  po_active_transfer_sequence : Z;
  po_active_transfer_status : TransferStatus;
  po_latest_completed_transfer_id : Bytes32;
  po_latest_completion_at : Z;
  po_initialized_at : Z
}.

#[global] Instance RemotePosition_eta : Eta RemotePosition := fun s => mkRemotePosition
  (po_state_version s) (po_bump s) (po_attributed_principal s) (po_deployed_principal s)
  (po_recalled_custody s) (po_unattributed_custody s) (po_cumulative_realized_loss s)
  (po_active_transfer_id s) (po_active_transfer_kind s) (po_active_transfer_sequence s)
  (po_active_transfer_status s) (po_latest_completed_transfer_id s)
  (po_latest_completion_at s) (po_initialized_at s).

Definition has_active_transfer (p : RemotePosition) : bool :=
  negb (bool_decide (p.(po_active_transfer_kind) = KNone)).

Definition check_no_active_transfer (p : RemotePosition) : Result unit :=
  require negb (has_active_transfer p) or Refused UnresolvedCycle; Ok tt.

Definition u64_add (a b : Z) : Result Z :=
  ok_or (checked_add u64_max a b) (Refused ArithmeticOverflow).

Definition u64_sub (a b : Z) (e : RemoteLegError) : Result Z :=
  ok_or (checked_sub a b) (Refused e).

Definition accounted_custody (p : RemotePosition) : Result Z :=
  let? total := u64_add p.(po_attributed_principal) p.(po_recalled_custody) in
  u64_add total p.(po_unattributed_custody).

Definition accepted_principal (p : RemotePosition) : Result Z :=
  u64_add p.(po_attributed_principal) p.(po_deployed_principal).

Definition committed_principal (p : RemotePosition) : Result Z :=
  let? accepted := accepted_principal p in
  u64_add accepted p.(po_recalled_custody).

Definition open_transfer (p : RemotePosition) (kind : TransferKind) (id : Bytes32)
    (sequence : Z) : RemotePosition :=
  p <| po_active_transfer_kind := kind |>
    <| po_active_transfer_id := id |>
    <| po_active_transfer_sequence := sequence |>
    <| po_active_transfer_status := SPending |>.

Definition quarantine_transfer (p : RemotePosition) (kind : TransferKind) (id : Bytes32)
    (sequence : Z) : RemotePosition :=
  (open_transfer p kind id sequence) <| po_active_transfer_status := SQuarantined |>.

Definition admit_transfer (p : RemotePosition) : RemotePosition :=
  p <| po_active_transfer_status := SPending |>.

Definition holds_quarantined (p : RemotePosition) (id : Bytes32) (sequence : Z) : bool :=
  has_active_transfer p
  && bool_decide (p.(po_active_transfer_status) = SQuarantined)
  && bool_decide (p.(po_active_transfer_id) = id)
  && (p.(po_active_transfer_sequence) =? sequence).

Definition close_transfer (p : RemotePosition) : RemotePosition :=
  p <| po_active_transfer_kind := KNone |>
    <| po_active_transfer_id := wide_zero |>
    <| po_active_transfer_sequence := 0 |>
    <| po_active_transfer_status := SNone |>.

Definition holds_allocation (p : RemotePosition) (id : Bytes32) (sequence : Z) : bool :=
  bool_decide (p.(po_active_transfer_kind) = KAllocate)
  && bool_decide (p.(po_active_transfer_id) = id)
  && (p.(po_active_transfer_sequence) =? sequence).

Definition complete_transfer (p : RemotePosition) (id : Bytes32) (completed_at : Z)
    : RemotePosition :=
  p <| po_active_transfer_kind := KNone |>
    <| po_active_transfer_id := wide_zero |>
    <| po_active_transfer_sequence := 0 |>
    <| po_active_transfer_status := SNone |>
    <| po_latest_completed_transfer_id := id |>
    <| po_latest_completion_at := completed_at |>.

Record TransferRecord := mkTransferRecord {
  tr_state_version : Z;
  tr_bump : Z;
  tr_transfer_kind : TransferKind;
  tr_message_class : MessageClass;
  tr_status : TransferStatus;
  tr_transfer_id : Bytes32;
  tr_message_sequence : Z;
  tr_authorized_amount : Z;
  tr_attributed_amount : Z;
  tr_requested_recall_amount : Z;
  tr_minimum_amount : Z;
  tr_custody_principal_reserved : Z;
  tr_strategy_principal_resolved : Z;
  tr_assets_withdrawn : Z;
  tr_assets_sent : Z;
  tr_realized_loss : Z;
  tr_expected_source_balance : Z;
  tr_created_at : Z;
  tr_completed_at : Z
}.

#[global] Instance TransferRecord_eta : Eta TransferRecord := fun s => mkTransferRecord
  (tr_state_version s) (tr_bump s) (tr_transfer_kind s) (tr_message_class s) (tr_status s)
  (tr_transfer_id s) (tr_message_sequence s) (tr_authorized_amount s)
  (tr_attributed_amount s) (tr_requested_recall_amount s) (tr_minimum_amount s)
  (tr_custody_principal_reserved s) (tr_strategy_principal_resolved s)
  (tr_assets_withdrawn s) (tr_assets_sent s) (tr_realized_loss s)
  (tr_expected_source_balance s) (tr_created_at s) (tr_completed_at s).

Definition new_allocation (bump : Z) (id : Bytes32) (message_sequence authorized_amount
    minimum_amount expected_source_balance created_at : Z) : TransferRecord := {|
  tr_state_version := STATE_VERSION;
  tr_bump := bump;
  tr_transfer_kind := KAllocate;
  tr_message_class := ClassAllocate;
  tr_status := SPending;
  tr_transfer_id := id;
  tr_message_sequence := message_sequence;
  tr_authorized_amount := authorized_amount;
  tr_attributed_amount := 0;
  tr_requested_recall_amount := 0;
  tr_minimum_amount := minimum_amount;
  tr_custody_principal_reserved := 0;
  tr_strategy_principal_resolved := 0;
  tr_assets_withdrawn := 0;
  tr_assets_sent := 0;
  tr_realized_loss := 0;
  tr_expected_source_balance := expected_source_balance;
  tr_created_at := created_at;
  tr_completed_at := 0
|}.

Definition new_recall (bump : Z) (id : Bytes32) (message_sequence requested_recall_amount
    minimum_amount custody_principal_reserved created_at : Z) : TransferRecord := {|
  tr_state_version := STATE_VERSION;
  tr_bump := bump;
  tr_transfer_kind := KRecall;
  tr_message_class := ClassRecall;
  tr_status := SPending;
  tr_transfer_id := id;
  tr_message_sequence := message_sequence;
  tr_authorized_amount := 0;
  tr_attributed_amount := 0;
  tr_requested_recall_amount := requested_recall_amount;
  tr_minimum_amount := minimum_amount;
  tr_custody_principal_reserved := custody_principal_reserved;
  tr_strategy_principal_resolved := 0;
  tr_assets_withdrawn := 0;
  tr_assets_sent := 0;
  tr_realized_loss := 0;
  tr_expected_source_balance := 0;
  tr_created_at := created_at;
  tr_completed_at := 0
|}.

Definition new_recovery (bump : Z) (id : Bytes32) (message_sequence credited_amount
    created_at : Z) : TransferRecord := {|
  tr_state_version := STATE_VERSION;
  tr_bump := bump;
  tr_transfer_kind := KRecover;
  tr_message_class := ClassResolve;
  tr_status := SComplete;
  tr_transfer_id := id;
  tr_message_sequence := message_sequence;
  tr_authorized_amount := credited_amount;
  tr_attributed_amount := credited_amount;
  tr_requested_recall_amount := 0;
  tr_minimum_amount := 0;
  tr_custody_principal_reserved := 0;
  tr_strategy_principal_resolved := 0;
  tr_assets_withdrawn := 0;
  tr_assets_sent := 0;
  tr_realized_loss := 0;
  tr_expected_source_balance := 0;
  tr_created_at := created_at;
  tr_completed_at := created_at
|}.

Definition quarantined (r : TransferRecord) : TransferRecord := r <| tr_status := SQuarantined |>.

Definition check_quarantined (r : TransferRecord) (p : RemotePosition) : Result unit :=
  require r.(tr_state_version) =? STATE_VERSION or Refused InvalidStateVersion;
  require bool_decide (r.(tr_status) = SQuarantined) or Refused InvalidTransferStatus;
  require bool_decide (r.(tr_transfer_kind) = p.(po_active_transfer_kind))
    or Refused InvalidTransferKind;
  require bool_decide (r.(tr_transfer_id) = p.(po_active_transfer_id))
      && (r.(tr_message_sequence) =? p.(po_active_transfer_sequence))
    or Refused InvalidTransferRecord;
  Ok tt.

Definition check_active (r : TransferRecord) (kind : TransferKind) (p : RemotePosition)
    : Result unit :=
  require r.(tr_state_version) =? STATE_VERSION or Refused InvalidStateVersion;
  require bool_decide (r.(tr_transfer_kind) = kind) or Refused InvalidTransferKind;
  require bool_decide (r.(tr_status) = SPending) or Refused InvalidTransferStatus;
  require bool_decide (p.(po_active_transfer_kind) = kind) or Refused NoActiveTransfer;
  require bool_decide (p.(po_active_transfer_id) = r.(tr_transfer_id))
    or Refused InvalidTransferRecord;
  Ok tt.

Definition check_allocation_shape (r : TransferRecord) : Result unit :=
  require forallb (fun value => value =? 0)
      [r.(tr_requested_recall_amount); r.(tr_custody_principal_reserved);
       r.(tr_strategy_principal_resolved); r.(tr_assets_withdrawn); r.(tr_assets_sent);
       r.(tr_realized_loss)]
    or Refused InvalidTransferRecord;
  Ok tt.

Definition check_recall_shape (r : TransferRecord) : Result unit :=
  require (r.(tr_authorized_amount) =? 0) && (r.(tr_attributed_amount) =? 0)
      && (r.(tr_expected_source_balance) =? 0)
    or Refused InvalidTransferRecord;
  Ok tt.

Definition outstanding_allocation (r : TransferRecord) : Result Z :=
  u64_sub r.(tr_authorized_amount) r.(tr_attributed_amount) AttributionExceedsAuthorization.

Definition unresolved_recall_principal (r : TransferRecord) : Result Z :=
  let? resolved := u64_add r.(tr_custody_principal_reserved) r.(tr_strategy_principal_resolved) in
  u64_sub r.(tr_requested_recall_amount) resolved InvalidRecallAmount.

Definition reserve_recall_custody (r : TransferRecord) (p : RemotePosition)
    : Result (TransferRecord * RemotePosition * Z) :=
  let reserved := Z.min r.(tr_requested_recall_amount) p.(po_attributed_principal) in
  let? attributed := u64_sub p.(po_attributed_principal) reserved InsufficientAttributedCustody in
  let? recalled := u64_add p.(po_recalled_custody) reserved in
  Ok (r <| tr_custody_principal_reserved := reserved |>,
      p <| po_attributed_principal := attributed |> <| po_recalled_custody := recalled |>,
      reserved).

Definition settle_recall (r : TransferRecord) (p : RemotePosition) (now : Z)
    : Result (TransferRecord * RemotePosition * bool) :=
  let? settled := u64_add r.(tr_assets_sent) r.(tr_realized_loss) in
  require settled <=? r.(tr_requested_recall_amount) or Refused InvalidRecallAmount;
  if negb (settled =? r.(tr_requested_recall_amount)) then Ok (r, p, false) else
  let r' := r <| tr_status := SComplete |> <| tr_completed_at := now |> in
  Ok (r', complete_transfer p r'.(tr_transfer_id) now, true).

(** * Transport ledger *)

Record TransportLedger := mkTransportLedger {
  tl_state_version : Z;
  tl_bump : Z;
  tl_impaired_outstanding : Z;
  tl_cumulative_closed_claim : Z;
  tl_cumulative_closed_credit : Z;
  tl_cumulative_recovered : Z;
  tl_last_impaired_sequence : Z;
  tl_total_closed : Z;
  tl_total_recoveries : Z;
  tl_initialized_at : Z
}.

#[global] Instance TransportLedger_eta : Eta TransportLedger := fun s => mkTransportLedger
  (tl_state_version s) (tl_bump s) (tl_impaired_outstanding s)
  (tl_cumulative_closed_claim s) (tl_cumulative_closed_credit s)
  (tl_cumulative_recovered s) (tl_last_impaired_sequence s) (tl_total_closed s)
  (tl_total_recoveries s) (tl_initialized_at s).

Definition ledger_empty (bump initialized_at : Z) : TransportLedger :=
  mkTransportLedger STATE_VERSION bump 0 0 0 0 0 0 0 initialized_at.

Definition ledger_add (total amount : Z) : Result Z :=
  ok_or (checked_add u128_max total amount) (Refused ArithmeticOverflow).

Definition check_balanced (l : TransportLedger) : Result unit :=
  let? total := ledger_add l.(tl_cumulative_closed_credit) l.(tl_impaired_outstanding) in
  let? explained := ledger_add total l.(tl_cumulative_recovered) in
  require explained =? l.(tl_cumulative_closed_claim) or Refused TransportLedgerImbalance;
  Ok tt.

Definition record_close (l : TransportLedger) (claim credited sequence : Z)
    : Result (TransportLedger * Z) :=
  let? shortfall := u64_sub claim credited AttributionExceedsAuthorization in
  let? closed_claim := ledger_add l.(tl_cumulative_closed_claim) claim in
  let? closed_credit := ledger_add l.(tl_cumulative_closed_credit) credited in
  let? impaired := ledger_add l.(tl_impaired_outstanding) shortfall in
  let? total_closed := u64_add l.(tl_total_closed) 1 in
  let l' := l <| tl_cumulative_closed_claim := closed_claim |>
              <| tl_cumulative_closed_credit := closed_credit |>
              <| tl_impaired_outstanding := impaired |>
              <| tl_last_impaired_sequence :=
                   if 0 <? shortfall then sequence else l.(tl_last_impaired_sequence) |>
              <| tl_total_closed := total_closed |> in
  let? _ := check_balanced l' in
  Ok (l', shortfall).

Definition record_recovery (l : TransportLedger) (credited : Z) : Result TransportLedger :=
  let? impaired := ok_or (checked_sub l.(tl_impaired_outstanding) credited)
    (Refused RecoveryStateMismatch) in
  let? recovered := ledger_add l.(tl_cumulative_recovered) credited in
  let? total_recoveries := u64_add l.(tl_total_recoveries) 1 in
  let l' := l <| tl_impaired_outstanding := impaired |>
              <| tl_cumulative_recovered := recovered |>
              <| tl_total_recoveries := total_recoveries |> in
  let? _ := check_balanced l' in
  Ok l'.

(** * Custody *)

(** The fields of a token account the leg reads. *)
Record TokenState := mkTokenState {
  tk_amount : Z;
  tk_owner : Key;
  tk_mint : Key;
  tk_delegate : option Key;
  tk_close_authority : option Key;
  tk_program : Key
}.

#[global] Instance TokenState_eta : Eta TokenState := fun s => mkTokenState
  (tk_amount s) (tk_owner s) (tk_mint s) (tk_delegate s) (tk_close_authority s)
  (tk_program s).

Definition reconcile (p : RemotePosition) (custody_amount : Z) : Result (RemotePosition * Z) :=
  let? accounted := accounted_custody p in
  require accounted <=? custody_amount or Refused AccountingDeficit;
  let? surplus := u64_sub custody_amount accounted AccountingDeficit in
  if 0 <? surplus then
    let? unattributed := u64_add p.(po_unattributed_custody) surplus in
    Ok (p <| po_unattributed_custody := unattributed |>, surplus)
  else Ok (p, surplus).

Definition check_identity (p : RemotePosition) (custody_amount : Z) : Result unit :=
  let? accounted := accounted_custody p in
  require custody_amount =? accounted or Refused AccountingDeficit; Ok tt.

Definition check_deployed (p : RemotePosition) (adapter_principal : Z) : Result unit :=
  require adapter_principal =? p.(po_deployed_principal) or Refused InvalidPrincipalDelta;
  Ok tt.

Definition is_none {A} (o : option A) : bool := match o with None => true | Some _ => false end.

Definition check_control (custody : TokenState) (custody_authority : Key) : Result unit :=
  require keys_eq custody.(tk_owner) custody_authority or Refused CustodyControlChanged;
  require is_none custody.(tk_delegate) && is_none custody.(tk_close_authority)
    or Refused CustodyControlChanged;
  Ok tt.

Definition narrow_amount (amount : Z) : Result Z :=
  require amount <=? u64_max or Refused AmountTooLarge; Ok amount.

(** * The outbound lane *)

Definition FIRST_OUTBOUND_SEQUENCE : Z := 1.

Inductive ReportType : Set := TRemoteReport | TRecallSent | TTransportSettlement.

#[global] Instance ReportType_eq_dec : EqDecision ReportType.
Proof. solve_decision. Defined.

Definition report_type_to_u8 (t : ReportType) : Z :=
  match t with TRemoteReport => 1 | TRecallSent => 2 | TTransportSettlement => 3 end.

Record OutboundLane := mkOutboundLane {
  ol_state_version : Z;
  ol_bump : Z;
  ol_lane_id : Z;
  ol_next_sequence : Z;
  ol_current_commitment : Bytes32;
  ol_last_publication_at : Z;
  ol_total_reports : Z;
  ol_total_recall_notifications : Z;
  ol_initialized_at : Z
}.

#[global] Instance OutboundLane_eta : Eta OutboundLane := fun s => mkOutboundLane
  (ol_state_version s) (ol_bump s) (ol_lane_id s) (ol_next_sequence s)
  (ol_current_commitment s) (ol_last_publication_at s) (ol_total_reports s)
  (ol_total_recall_notifications s) (ol_initialized_at s).

Definition advance (l : OutboundLane) (report_type : ReportType) (next_commitment : Bytes32)
    (published_at : Z) : Result OutboundLane :=
  let? next_sequence := u64_add l.(ol_next_sequence) 1 in
  let l' := l <| ol_next_sequence := next_sequence |>
              <| ol_current_commitment := next_commitment |>
              <| ol_last_publication_at := published_at |> in
  match report_type with
  | TRemoteReport =>
      let? counter := u64_add l'.(ol_total_reports) 1 in
      Ok (l' <| ol_total_reports := counter |>)
  | TRecallSent =>
      let? counter := u64_add l'.(ol_total_recall_notifications) 1 in
      Ok (l' <| ol_total_recall_notifications := counter |>)
  | TTransportSettlement => Ok l'
  end.

Record ReportRecord := mkReportRecord {
  rr_state_version : Z;
  rr_bump : Z;
  rr_report_type : ReportType;
  rr_lane_id : Z;
  rr_sequence : Z;
  rr_message_id : Bytes32;
  rr_body_hash : Bytes32;
  rr_previous_commitment : Bytes32;
  rr_next_commitment : Bytes32;
  rr_encoded_len : Z;
  rr_published_at : Z;
  rr_related_transfer_id : Bytes32;
  rr_epoch_id : Z
}.

Record RecallSentMarker := mkRecallSentMarker {
  rm_state_version : Z;
  rm_bump : Z;
  rm_transfer_id : Bytes32;
  rm_report_sequence : Z;
  rm_message_id : Bytes32;
  rm_published_at : Z
}.
