(* ===== verification/RemoteMessage.v ===== *)
(** Messages of the remote leg: validation of inbound canonical messages
    ([message.rs]), construction of the outbound ones
    ([outbound_message.rs]), the commitment over the reported state
    ([remote_state.rs]) and the digest they share ([hashing.rs]).  The
    Keccak-256 digest is the parameter of the section. *)

From Stdlib Require Import ZArith Lia.
From stdpp Require Import strings.
From S2P Require Import Prelude ProtocolLayout ProtocolTypes ProtocolCodec RemoteState.

(** A message that passed every rule of the lane. *)
Record ValidatedMessage := mkValidatedMessage {
  vm_message : Message;
  vm_message_id : Bytes32;
  vm_fresh : bool
}.

(** The chain clock, narrowed to the protocol time type. *)
Definition current_time (unix_timestamp : Z) : Result Z :=
  require 0 <=? unix_timestamp or Refused InvalidTimestamp; Ok unix_timestamp.

Definition decode_error (e : DecodeError) : RemoteLegError :=
  match e with
  | UnsupportedProtocolVersion _ => InvalidProtocolVersion
  | UnsupportedSchemaVersion _ => InvalidSchemaVersion
  | UnknownMessageType _ => UnsupportedMessageType
  | _ => InvalidMessage
  end.

Definition check_domains (h : Header) (c : RemoteConfig) (lane : ReplayLane) : Result unit :=
  require h.(h_source_chain) =? c.(cf_source_chain_id) or Refused InvalidSourceDomain;
  require h.(h_destination_chain) =? c.(cf_destination_chain_id)
    or Refused InvalidDestinationDomain;
  require keys_eq h.(h_source_application) c.(cf_source_application_id)
    or Refused InvalidApplication;
  require keys_eq h.(h_destination_application) c.(cf_local_application_id)
    or Refused InvalidApplication;
  require keys_eq h.(h_deployment_id) c.(cf_deployment_id) or Refused InvalidDeployment;
  require keys_eq h.(h_vault_id) c.(cf_vault_id) or Refused InvalidVault;
  require h.(h_lane_id) =? lane.(rl_lane_id) or Refused InvalidLane;
  Ok tt.

Definition check_published (h : Header) (now : Z) : Result unit :=
  require h.(h_published_at) <=? now or Refused InvalidTimestamp; Ok tt.

Definition is_fresh (h : Header) (now : Z) : bool := now <=? h.(h_expires_at).

(** * What the leg publishes *)

Definition MAX_REPORT_LEN : nat := 400.

Definition NO_PROBE_STATUS : ProbeStatus := NotRequired.

Record BuiltMessage := mkBuiltMessage {
  bm_encoded : EncodedMessage;
  bm_message_id : Bytes32;
  bm_body_hash : Bytes32;
  bm_previous_commitment : Bytes32;
  bm_next_commitment : Bytes32;
  bm_encoded_len : Z
}.

Record OutboundContext := mkOutboundContext {
  oc_config : RemoteConfig;
  oc_lane : OutboundLane;
  oc_max_report_age : Z;
  oc_now : Z
}.

Record ReportFields := mkReportFields {
  rf_epoch_id : Z;
  rf_remote_principal : Z;
  rf_realized_loss : Z;
  rf_unattributed_balance : Z;
  rf_latest_completed_transfer_id : Bytes32;
  rf_config_version : Z;
  rf_remote_state_commitment : Bytes32
}.

Record RecallSentFields := mkRecallSentFields {
  sf_transfer_id : Bytes32;
  sf_principal_sent : Z;
  sf_actual_amount_sent : Z;
  sf_realized_loss : Z;
  sf_destination_reference : Bytes32;
  sf_sent_timestamp : Z;
  sf_config_version : Z
}.

Record TransportSettlementFields := mkTransportSettlementFields {
  tf_transfer_id : Bytes32;
  tf_kind : SettlementKind;
  tf_claim_amount : Z;
  tf_credited_amount : Z;
  tf_impaired_outstanding : Z;
  tf_config_version : Z
}.

Definition encode_error (e : EncodeError) : RemoteLegError :=
  match e with
  | BufferTooSmall _ _ => ReportTooLarge
  | _ => InvalidOutboundMessage
  end.

Definition lift_decode {A} (r : result DecodeError A) : Result A :=
  match r with Ok a => Ok a | Err e => Err (Refused (decode_error e)) end.

Definition lift_encode {A} (r : result EncodeError A) : Result A :=
  match r with Ok a => Ok a | Err e => Err (Refused (encode_error e)) end.

Definition outbound_header (c : OutboundContext) : Result Header :=
  let? expires_at := u64_add c.(oc_now) c.(oc_max_report_age) in
  Ok {|
    h_protocol_version := PROTOCOL_VERSION;
    h_schema_version := SCHEMA_VERSION;
    h_flags := 0;
    h_source_chain := c.(oc_config).(cf_destination_chain_id);
    h_destination_chain := c.(oc_config).(cf_source_chain_id);
    h_source_application := c.(oc_config).(cf_local_application_id);
    h_destination_application := c.(oc_config).(cf_source_application_id);
    h_deployment_id := c.(oc_config).(cf_deployment_id);
    h_vault_id := c.(oc_config).(cf_vault_id);
    h_lane_id := c.(oc_config).(cf_report_lane_id);
    h_sequence := c.(oc_lane).(ol_next_sequence);
    h_previous_commitment := c.(oc_lane).(ol_current_commitment);
    h_observed_at := c.(oc_now);
    h_published_at := c.(oc_now);
    h_expires_at := expires_at
  |}.

(** Reads the body hash the encoder wrote into the header. *)
Definition read_body_hash (encoded : list Z) : Result (list Z) :=
  require (HEADER_LEN <=? length encoded)%nat or Refused InvalidEncodedLength;
  Ok (slice encoded BODY_HASH_OFFSET (HEADER_LEN - BODY_HASH_OFFSET)%nat).

(** * The committed state *)

(** [SOLEVM_REMOTE_STATE_V1] in ASCII. *)
Definition REMOTE_STATE_DOMAIN : list Z := byte_string "SOLEVM_REMOTE_STATE_V1".

Definition REMOTE_STATE_BODY_LEN : nat := 179.

Definition REMOTE_STATE_PREIMAGE_LEN : nat :=
  (length REMOTE_STATE_DOMAIN + REMOTE_STATE_BODY_LEN)%nat.

Record RemoteStateView := mkRemoteStateView {
  sv_remote_config : Key;
  sv_config_version : Z;
  sv_frozen : bool;
  sv_position : RemotePosition;
  sv_custody_balance : Z;
  sv_adapter_principal : Z
}.

(** The two's complement big-endian bytes of an [i64]. *)
Definition i64_to_be (v : Z) : list Z := to_be 8 (v mod 2 ^ 64).

(** Appends one field: the buffer and the offset after it. *)
Definition put (w : list Z * nat) (bytes : list Z) : Result (list Z * nat) :=
  let '(buffer, offset) := w in
  let? stop := ok_or (checked_add usize_max (Z.of_nat offset) (Z.of_nat (length bytes)))
    (Refused ArithmeticOverflow) in
  require (offset + length bytes <=? length buffer)%nat or Refused InvalidRemoteState;
  Ok (take offset buffer ++ bytes ++ drop (offset + length bytes) buffer,
      Z.to_nat stop).

Definition preimage_fields (s : RemoteStateView) : list (list Z) :=
  let p := s.(sv_position) in
  [ REMOTE_STATE_DOMAIN;
    s.(sv_remote_config);
    to_be 8 s.(sv_config_version);
    [if s.(sv_frozen) then 1 else 0];
    to_be 8 p.(po_attributed_principal);
    to_be 8 p.(po_deployed_principal);
    to_be 8 p.(po_recalled_custody);
    to_be 8 p.(po_unattributed_custody);
    to_be 8 p.(po_cumulative_realized_loss);
    p.(po_active_transfer_id);
    [transfer_kind_to_u8 p.(po_active_transfer_kind)];
    [transfer_status_to_u8 p.(po_active_transfer_status)];
    to_be 8 p.(po_active_transfer_sequence);
    p.(po_latest_completed_transfer_id);
    i64_to_be p.(po_latest_completion_at);
    to_be 8 s.(sv_custody_balance);
    to_be 8 s.(sv_adapter_principal) ].

Definition write_preimage (s : RemoteStateView) (out : list Z) : Result (list Z * nat) :=
  try_fold put (out, 0%nat) (preimage_fields s).

Section hashed.
Context (digest : list Z -> list Z).

Definition hashing_keccak256_parts (parts : list (list Z)) : list Z := digest (concat parts).

Definition hashing_keccak256 (bytes : list Z) : list Z := hashing_keccak256_parts [bytes].

Definition remote_message_id (encoded : list Z) : Result Bytes32 :=
  require (length encoded <=? MAX_MESSAGE_LEN)%nat or Refused MessageTooLarge;
  Ok (hashing_keccak256_parts [MESSAGE_ID_DOMAIN; encoded]).

Definition remote_next_commitment (previous id : Bytes32) : Bytes32 :=
  hashing_keccak256_parts [COMMITMENT_DOMAIN; previous; id].

Definition remote_decode (bytes : list Z) : Result Message :=
  fail_if (length bytes =? 0)%nat with Refused InvalidMessage;
  require (length bytes <=? MAX_MESSAGE_LEN)%nat or Refused MessageTooLarge;
  lift_decode (decode_message digest bytes).

Definition validate_inbound (bytes : list Z) (class : MessageClass) (config : RemoteConfig)
    (lane : ReplayLane) (now : Z) : Result ValidatedMessage :=
  let? message := remote_decode bytes in
  require bool_decide (message_type message = class_message_type class)
    or Refused UnsupportedMessageType;
  let? _ := check_domains message.(m_header) config lane in
  let? _ := check_published message.(m_header) now in
  let sequence := message.(m_header).(h_sequence) in
  require lane.(rl_minimum_acceptable_sequence) <=? sequence
    or Refused SequenceBelowWatermark;
  let? _ := sequence_rule_check SEQUENCE_RULE sequence lane.(rl_highest_consumed_sequence) in
  require keys_eq message.(m_header).(h_previous_commitment) lane.(rl_message_commitment)
    or Refused InvalidPreviousCommitment;
  let? id := remote_message_id bytes in
  Ok (mkValidatedMessage message id (is_fresh message.(m_header) now)).

Definition build (c : OutboundContext) (body : Body) (expected_len : nat)
    : Result BuiltMessage :=
  let? header := outbound_header c in
  let? encoded := lift_encode (message_encode digest (mkMessage header body)) in
  let bytes := em_as_bytes encoded in
  require (length bytes =? expected_len)%nat or Refused InvalidEncodedLength;
  require (length bytes <=? MAX_REPORT_LEN)%nat or Refused ReportTooLarge;
  let? id := remote_message_id bytes in
  let? body_hash := read_body_hash bytes in
  let next := remote_next_commitment c.(oc_lane).(ol_current_commitment) id in
  require Z.of_nat (length bytes) <=? u16_max or Refused ReportTooLarge;
  Ok (mkBuiltMessage encoded id body_hash c.(oc_lane).(ol_current_commitment) next
        (Z.of_nat (length bytes))).

Definition build_remote_report (c : OutboundContext) (f : ReportFields) : Result BuiltMessage :=
  build c (BRemoteReport {|
      rp_epoch_id := f.(rf_epoch_id);
      rp_remote_principal := f.(rf_remote_principal);
      rp_reported_value := f.(rf_remote_principal);
      rp_realized_loss := f.(rf_realized_loss);
      rp_unattributed_balance := f.(rf_unattributed_balance);
      rp_latest_completed_transfer_id := f.(rf_latest_completed_transfer_id);
      rp_probe_status := NO_PROBE_STATUS;
      rp_probe_timestamp := 0;
      rp_config_version := f.(rf_config_version);
      rp_remote_state_commitment := f.(rf_remote_state_commitment) |})
    REMOTE_REPORT_MESSAGE_LEN.

Definition build_recall_sent (c : OutboundContext) (f : RecallSentFields) : Result BuiltMessage :=
  build c (BRecallSent {|
      rs_transfer_id := f.(sf_transfer_id);
      rs_principal_sent := f.(sf_principal_sent);
      rs_actual_amount_sent := f.(sf_actual_amount_sent);
      rs_realized_loss := f.(sf_realized_loss);
      rs_destination_reference := f.(sf_destination_reference);
      rs_sent_timestamp := f.(sf_sent_timestamp);
      rs_config_version := f.(sf_config_version) |})
    RECALL_SENT_MESSAGE_LEN.

Definition build_transport_settlement (c : OutboundContext) (f : TransportSettlementFields)
    : Result BuiltMessage :=
  build c (BTransportSettlement {|
      ts_transfer_id := f.(tf_transfer_id);
      ts_kind := f.(tf_kind);
      ts_claim_amount := f.(tf_claim_amount);
      ts_credited_amount := f.(tf_credited_amount);
      ts_impaired_outstanding := f.(tf_impaired_outstanding);
      ts_config_version := f.(tf_config_version) |})
    TRANSPORT_SETTLEMENT_MESSAGE_LEN.

Definition commitment (s : RemoteStateView) : Result Bytes32 :=
  let? '(preimage, width) := write_preimage s (replicate REMOTE_STATE_PREIMAGE_LEN 0) in
  require (width <=? length preimage)%nat or Refused InvalidRemoteState;
  Ok (hashing_keccak256 (take width preimage)).

End hashed.
