(* ===== verification/RemotePlatform.v ===== *)
(** What the remote leg runs on and what it shares with other programs:
    the chain interface, record accounts ([records.rs]), the adapter call
    ([adapter.rs]) and the deployment authorization the leg checks
    ([authorization.rs], and the receipt and context it reads from the
    authorization verifier).

    The platform is the interface [Chain]: program addresses, digests, the
    token program and the strategy adapter are other programs, so they are
    operations of the interface without laws.  Every theorem about the leg
    holds for any token program and any adapter, however it behaves. *)

From Stdlib Require Import ZArith Lia.
From stdpp Require Import strings.
From S2P Require Import Prelude ProtocolLayout ProtocolTypes ProtocolCodec ProtocolWire RemoteState.
From S2P Require Import RemoteMessage.

(** * Accounts of other programs *)

Record AccountInfo := mkAccountInfo {
  ai_owner : Key;
  ai_data : list Z
}.

Record AccountMeta := mkAccountMeta {
  am_pubkey : Key;
  am_is_signer : bool;
  am_is_writable : bool
}.

Record Instruction := mkInstruction {
  ix_program_id : Key;
  ix_accounts : list AccountMeta;
  ix_data : list Z
}.

(** The accounts the leg reads but does not own: the three token accounts
    and the adapter's state. *)
Record World := mkWorld {
  w_custody : TokenState;
  w_vault : TokenState;
  w_escrow : TokenState;
  w_adapter_state : AccountInfo
}.

#[global] Instance World_eta : Eta World := fun s => mkWorld
  (w_custody s) (w_vault s) (w_escrow s) (w_adapter_state s).

Inductive TokenSide : Set := SideCustody | SideVault | SideEscrow.

Class Chain := {
  crate_ID : Key;
  verifier_ID : Key;
  (** Keccak-256 and SHA-256. *)
  keccak : list Z -> list Z;
  sha256 : list Z -> list Z;
  (** Program derived addresses, with their bump. *)
  find_program_address : list (list Z) -> Key -> Key * Z;
  create_program_address : list (list Z) -> Key -> option Key;
  (** The selector of the verifier's consume instruction. *)
  consume_discriminator : list Z;
  (** A token transfer from the first account to the second. *)
  spl_transfer : TokenSide -> TokenSide -> Z -> World -> option World;
  (** A call of the strategy adapter. *)
  invoke_signed : Instruction -> World -> option World
}.

Definition callee {A} (o : option A) : Result A :=
  match o with Some a => Ok a | None => Err CalleeFailed end.

(** * Records *)

(** An account at an address only this program can create: absent is an
    empty account of the system program, [Foreign] anything else. *)
Inductive Slot (A : Type) : Type :=
| Owned (a : A)
| Foreign.

Arguments Owned {_} _.
Arguments Foreign {_}.

Abbreviation Store A := (gmap (list Z) (Slot A)).

Definition check_available {A} (m : Store A) (k : Key) (already_used invalid : RemoteLegError)
    : Result unit :=
  match m !! k with
  | Some (Owned _) => Err (Refused already_used)
  | Some Foreign => Err (Refused invalid)
  | None => Ok tt
  end.

(** Funds, allocates, assigns and writes the account; the system program
    refuses an account that is in use or a payer without the rent. *)
Definition create_and_write {A} (funded : Key -> bool) (m : Store A) (k : Key) (v : A)
    : Result (Store A) :=
  require funded k or CalleeFailed;
  require is_none (m !! k) or CalleeFailed;
  Ok (<[k := Owned v]> m).

Definition load {A} (m : Store A) (k : Key) (invalid : RemoteLegError) : Result A :=
  match m !! k with Some (Owned v) => Ok v | _ => Err (Refused invalid) end.

Definition store {A} (m : Store A) (k : Key) (v : A) : Store A := <[k := Owned v]> m.

(** * The adapter *)

Definition DEPOSIT_EXACT : list Z := [103; 205; 71; 100; 215; 98; 254; 121].
Definition WITHDRAW_FOR_REMOTE_LEG : list Z := [140; 25; 238; 22; 233; 57; 60; 133].
Definition PRINCIPAL_OFFSET : nat := 236.
Definition PRINCIPAL_LEN : nat := 8.
Definition STATE_DISCRIMINATOR : list Z := [88; 130; 126; 170; 183; 106; 151; 212].
Definition STATE_LEN : nat := 262.

(** Little-endian integers. *)
Definition from_le (l : list Z) : Z := from_be (rev l).
Definition to_le (n : nat) (v : Z) : list Z := rev (to_be n v).

Record AdapterCall := mkAdapterCall {
  ac_adapter_program : Key;
  ac_adapter_state : Key;
  ac_adapter_authority : Key;
  ac_adapter_token_vault : Key;
  ac_caller : Key;
  ac_custody_token_account : Key;
  ac_asset_mint : Key;
  ac_token_program : Key
}.

Definition adapter_instruction (c : AdapterCall) (selector : list Z) (amount : Z)
    (metas : list AccountMeta) : Instruction :=
  mkInstruction c.(ac_adapter_program) metas (selector ++ to_le 8 amount).

Definition deposit_exact_ix (c : AdapterCall) (amount : Z) : Instruction :=
  adapter_instruction c DEPOSIT_EXACT amount
    [ mkAccountMeta c.(ac_caller) true false;
      mkAccountMeta c.(ac_adapter_state) false true;
      mkAccountMeta c.(ac_adapter_token_vault) false false;
      mkAccountMeta c.(ac_asset_mint) false false;
      mkAccountMeta c.(ac_token_program) false false ].

Definition withdraw_ix (c : AdapterCall) (requested_principal : Z) : Instruction :=
  adapter_instruction c WITHDRAW_FOR_REMOTE_LEG requested_principal
    [ mkAccountMeta c.(ac_caller) true false;
      mkAccountMeta c.(ac_adapter_state) false true;
      mkAccountMeta c.(ac_adapter_authority) false false;
      mkAccountMeta c.(ac_custody_token_account) false true;
      mkAccountMeta c.(ac_adapter_token_vault) false true;
      mkAccountMeta c.(ac_asset_mint) false false;
      mkAccountMeta c.(ac_token_program) false false ].

Definition check_layout (adapter_state : AccountInfo) (adapter_program : Key) : Result unit :=
  require keys_eq adapter_state.(ai_owner) adapter_program or Refused AdapterStateMismatch;
  require (length adapter_state.(ai_data) =? STATE_LEN)%nat or Refused AdapterStateMismatch;
  require (length STATE_DISCRIMINATOR <=? length adapter_state.(ai_data))%nat
    or Refused AdapterStateMismatch;
  require bool_decide (take (length STATE_DISCRIMINATOR) adapter_state.(ai_data)
                       = STATE_DISCRIMINATOR)
    or Refused AdapterStateMismatch;
  Ok tt.

Definition read_principal (adapter_state : AccountInfo) : Result Z :=
  require (PRINCIPAL_OFFSET + PRINCIPAL_LEN <=? length adapter_state.(ai_data))%nat
    or Refused InvalidAdapterState;
  Ok (from_le (slice adapter_state.(ai_data) PRINCIPAL_OFFSET PRINCIPAL_LEN)).

(** * Seeds and derived addresses *)

Definition REMOTE_CONFIG_SEED : list Z := byte_string "remote-config".
Definition CUSTODY_AUTHORITY_SEED : list Z := byte_string "custody-authority".
Definition ADAPTER_CALLER_SEED : list Z := byte_string "adapter-caller".
Definition STRATEGY_CONFIG_SEED : list Z := byte_string "strategy-config".
Definition TRANSFER_RECORD_SEED : list Z := byte_string "transfer-record".
Definition CONSUMED_MESSAGE_SEED : list Z := byte_string "consumed-message".
Definition REPORT_RECORD_SEED : list Z := byte_string "report-record".
Definition RECALL_SENT_MARKER_SEED : list Z := byte_string "recall-sent-marker".
Definition TRANSPORT_LEDGER_SEED : list Z := byte_string "transport-ledger".
Definition DEPLOYMENT_RECEIPT_SEED : list Z := byte_string "solevm-deploy-receipt".

Definition transfer_seeds (config_key id : Key) : list (list Z) :=
  [TRANSFER_RECORD_SEED; config_key; id].

Definition consumed_seeds (config_key : Key) (lane_id sequence : Z) : list (list Z) :=
  [CONSUMED_MESSAGE_SEED; config_key; to_le 4 lane_id; to_le 8 sequence].

Definition report_seeds (config_key : Key) (lane_id sequence : Z) : list (list Z) :=
  [REPORT_RECORD_SEED; config_key; to_le 4 lane_id; to_le 8 sequence].

Definition marker_seeds (config_key id : Key) : list (list Z) :=
  [RECALL_SENT_MARKER_SEED; config_key; id].

Section addresses.
Context `{Chain}.

Definition custody_authority (config_key : Key) : Key * Z :=
  find_program_address [CUSTODY_AUTHORITY_SEED; config_key] crate_ID.

Definition adapter_caller (config_key : Key) : Key * Z :=
  find_program_address [ADAPTER_CALLER_SEED; config_key] crate_ID.

Definition transfer_address (config_key id : Key) : Key * Z :=
  find_program_address (transfer_seeds config_key id) crate_ID.

Definition consumed_address (config_key : Key) (lane_id sequence : Z) : Key * Z :=
  find_program_address (consumed_seeds config_key lane_id sequence) crate_ID.

Definition report_address (config_key : Key) (lane_id sequence : Z) : Key * Z :=
  find_program_address (report_seeds config_key lane_id sequence) crate_ID.

Definition marker_address (config_key id : Key) : Key * Z :=
  find_program_address (marker_seeds config_key id) crate_ID.

Definition ledger_address (config_key : Key) : Key * Z :=
  find_program_address [TRANSPORT_LEDGER_SEED; config_key] crate_ID.

Definition strategy_config_address (config_key : Key) : Key * Z :=
  find_program_address [STRATEGY_CONFIG_SEED; config_key] crate_ID.

End addresses.

(** * Deployment authorization *)

Definition DEPLOYMENT_PROFILE_VERSION : Z := 2.

Record DeploymentReceipt := mkDeploymentReceipt {
  dr_version : Z;
  dr_bump : Z;
  dr_config : Key;
  dr_remote_config : Key;
  dr_risk_key : Key;
  dr_nonce : list Z;
  dr_deployment_context : Bytes32;
  dr_amount : Z;
  dr_policy_generation : Z;
  dr_issued_at : Z;
  dr_expires_at : Z;
  dr_consumed_at : Z;
  dr_message_hash : Bytes32
}.

Record DeployAuthorizationPolicy := mkDeployAuthorizationPolicy {
  ap_state_version : Z;
  ap_bump : Z;
  ap_authorization_config : Key;
  ap_adopted_at : Z
}.

Record DeploymentContext := mkDeploymentContext {
  dc_remote_leg_program : Key;
  dc_remote_config : Key;
  dc_deployment_id : Bytes32;
  dc_vault_id : Bytes32;
  dc_config_version : Z;
  dc_strategy_config : Key;
  dc_adapter_program : Key;
  dc_adapter_state : Key;
  dc_adapter_authority : Key;
  dc_adapter_token_vault : Key;
  dc_max_remote_principal : Z;
  dc_asset_mint : Key;
  dc_token_program : Key;
  dc_custody_authority : Key;
  dc_custody_token_account : Key;
  dc_deployed_principal : Z
}.

Definition CONTEXT_DOMAIN : list Z := byte_string "solevm-remote-leg:deploy-context:v2".

Definition CONSUME_CONFIG_INDEX : nat := 1.
Definition CONSUME_RECEIPT_INDEX : nat := 3.
Definition TRANSACTION_LEVEL_STACK_HEIGHT : Z := 1.

(** What the runtime tells an instruction about its transaction. *)
Record Introspection := mkIntrospection {
  in_stack_height : Z;
  in_current_index : nat;
  in_instructions : list Instruction
}.

Section authorization.
Context `{Chain}.

Definition deployment_context (config_key : Key) (config : RemoteConfig)
    (strategy_key : Key) (strategy : StrategyConfig) (position : RemotePosition)
    : DeploymentContext := {|
  dc_remote_leg_program := crate_ID;
  dc_remote_config := config_key;
  dc_deployment_id := config.(cf_deployment_id);
  dc_vault_id := config.(cf_vault_id);
  dc_config_version := config.(cf_config_version);
  dc_strategy_config := strategy_key;
  dc_adapter_program := strategy.(sc_adapter_program);
  dc_adapter_state := strategy.(sc_adapter_state);
  dc_adapter_authority := strategy.(sc_adapter_authority);
  dc_adapter_token_vault := strategy.(sc_adapter_token_vault);
  dc_max_remote_principal := strategy.(sc_max_remote_principal);
  dc_asset_mint := config.(cf_asset_mint);
  dc_token_program := config.(cf_token_program);
  dc_custody_authority := config.(cf_custody_authority);
  dc_custody_token_account := config.(cf_custody_token_account);
  dc_deployed_principal := position.(po_deployed_principal)
|}.

Definition context_commitment (c : DeploymentContext) : Bytes32 :=
  sha256 (concat
    [ CONTEXT_DOMAIN; verifier_ID; c.(dc_remote_leg_program); c.(dc_remote_config);
      c.(dc_deployment_id); c.(dc_vault_id); to_le 8 c.(dc_config_version);
      c.(dc_strategy_config); c.(dc_adapter_program); c.(dc_adapter_state);
      c.(dc_adapter_authority); c.(dc_adapter_token_vault);
      to_le 8 c.(dc_max_remote_principal); c.(dc_asset_mint); c.(dc_token_program);
      c.(dc_custody_authority); c.(dc_custody_token_account);
      to_le 8 c.(dc_deployed_principal) ]).

(** The approval one deployment spends. *)
Record Authorization := mkAuthorization {
  au_policy : DeployAuthorizationPolicy;
  au_receipt_key : Key;
  au_receipt : DeploymentReceipt;
  au_introspection : Introspection
}.

Definition named (i : Instruction) (index : nat) : option Key :=
  am_pubkey <$> (i.(ix_accounts) !! index).

Definition check_consumed_just_before (a : Authorization) : Result unit :=
  let t := a.(au_introspection) in
  require t.(in_stack_height) =? TRANSACTION_LEVEL_STACK_HEIGHT
    or Refused DeploymentNotTopLevel;
  let? this := callee (t.(in_instructions) !! t.(in_current_index)) in
  require keys_eq this.(ix_program_id) crate_ID or Refused DeploymentNotTopLevel;
  let? consume := ok_or
    (match t.(in_current_index) with O => None | S i => t.(in_instructions) !! i end)
    (Refused DeploymentAuthorizationRequired) in
  require keys_eq consume.(ix_program_id) verifier_ID
      && bool_decide (consume.(ix_data) = consume_discriminator ++ a.(au_receipt).(dr_nonce))
      && bool_decide (named consume CONSUME_CONFIG_INDEX
                      = Some a.(au_policy).(ap_authorization_config))
      && bool_decide (named consume CONSUME_RECEIPT_INDEX = Some a.(au_receipt_key))
    or Refused DeploymentAuthorizationRequired;
  Ok tt.

Definition receipt_address_is_canonical (a : Authorization) : bool :=
  bool_decide (create_program_address
      [DEPLOYMENT_RECEIPT_SEED; a.(au_receipt).(dr_config); a.(au_receipt).(dr_nonce);
       [a.(au_receipt).(dr_bump)]] verifier_ID = Some a.(au_receipt_key)).

Definition authorization_check (a : Authorization) (config_key : Key)
    (context : DeploymentContext) (amount now : Z) : Result unit :=
  let? _ := check_consumed_just_before a in
  let receipt := a.(au_receipt) in
  require (receipt.(dr_version) =? DEPLOYMENT_PROFILE_VERSION)
      && keys_eq receipt.(dr_config) a.(au_policy).(ap_authorization_config)
      && keys_eq receipt.(dr_remote_config) config_key
      && receipt_address_is_canonical a
    or Refused InvalidAuthorizationReceipt;
  require receipt.(dr_consumed_at) =? now or Refused InvalidAuthorizationReceipt;
  require now <? receipt.(dr_expires_at) or Refused AuthorizationExpired;
  require receipt.(dr_amount) =? amount or Refused AuthorizationAmountMismatch;
  require keys_eq receipt.(dr_deployment_context) (context_commitment context)
    or Refused AuthorizationContextMismatch;
  Ok tt.

End authorization.

(** * Little-endian words

    The integers of Borsh: what [to_le_bytes] writes [from_le_bytes] reads
    back, unsigned and signed. *)

Lemma length_to_le n v : length (to_le n v) = n.
Proof. unfold to_le. by rewrite length_rev, length_to_be. Qed.

Lemma to_from_le l : is_bytes l -> to_le (length l) (from_le l) = l /\ fits (be_max (length l)) (from_le l).
Proof.
  intros Hl. unfold to_le, from_le.
  assert (Hr : is_bytes (rev l)) by (by apply Forall_rev).
  destruct (to_from_be (rev l) Hr) as [He Hf]. rewrite length_rev in He, Hf.
  split; [by rewrite He, rev_involutive|done].
Qed.

Lemma from_to_le n v : fits (be_max n) v -> from_le (to_le n v) = v.
Proof. intros Hv. unfold from_le, to_le. rewrite rev_involutive. by apply from_to_be. Qed.

Lemma to_le_is_bytes n v : is_bytes (to_le n v).
Proof. unfold to_le. apply Forall_rev, to_be_is_bytes. Qed.

Lemma u64_to_from_le l : is_bytes l -> length l = 8%nat -> to_le 8 (from_le l) = l /\ is_u64 (from_le l).
Proof. intros Hl Hn. pose proof (to_from_le l Hl) as Ht. by rewrite Hn in Ht. Qed.

Lemma u64_from_to_le v : is_u64 v -> from_le (to_le 8 v) = v.
Proof. exact (from_to_le 8 v). Qed.

(** The two's complement of an [i64], and back. *)
Definition i64_to_le (v : Z) : list Z := to_le 8 (v mod 2 ^ 64).

Definition i64_from_le (l : list Z) : Z :=
  let v := from_le l in if v <=? i64_max then v else v - 2 ^ 64.

Lemma length_i64_to_le v : length (i64_to_le v) = 8%nat.
Proof. apply length_to_le. Qed.

Lemma i64_to_from_le l : is_bytes l -> length l = 8%nat -> i64_to_le (i64_from_le l) = l /\ is_i64 (i64_from_le l).
Proof.
  intros Hl Hn. destruct (to_from_le l Hl) as [He Hf]. rewrite Hn in He, Hf.
  unfold i64_to_le, i64_from_le, is_i64, fits, be_max in *.
  change (256 ^ Z.of_nat 8) with (2 ^ 64) in Hf.
  assert (Hm : (if from_le l <=? i64_max then from_le l else from_le l - 2 ^ 64) mod 2 ^ 64 = from_le l).
  { destruct (from_le l <=? i64_max); [apply Z.mod_small; lia|].
    rewrite <-(Z.mod_add _ 1) by lia. rewrite Z.mod_small; lia. }
  rewrite Hm. split; [done|]. unfold i64_max, i64_min.
  destruct (Z.leb_spec (from_le l) (2 ^ 63 - 1)); lia.
Qed.

Lemma i64_from_to_le v : is_i64 v -> i64_from_le (i64_to_le v) = v.
Proof.
  unfold is_i64, i64_from_le, i64_to_le, i64_max, i64_min. intros Hv.
  rewrite from_to_le by (unfold fits, be_max; change (256 ^ Z.of_nat 8) with (2 ^ 64);
    pose proof (Z.mod_pos_bound v (2 ^ 64)); lia).
  destruct (Z.lt_ge_cases v 0) as [Hneg|Hpos].
  - rewrite <-(Z.mod_add _ 1) by lia. rewrite Z.mod_small by lia.
    destruct (Z.leb_spec (v + 1 * 2 ^ 64) (2 ^ 63 - 1)); lia.
  - rewrite Z.mod_small by lia. destruct (Z.leb_spec v (2 ^ 63 - 1)); lia.
Qed.
