(* ===== verification/RemoteLeg.v ===== *)
(** The remote leg as a state machine: the accounts of one leg and its
    instruction handlers ([programs/solevm-remote-leg/src/instructions]).

    A handler takes the accounts and clock of the call as an [Env], checks
    what the account framework checks before it runs ([has_one], signers,
    addresses), and returns the leg after the call or the error.  A failed
    instruction changes nothing, as the runtime rolls it back.  Accounts
    with a fixed seed (configuration, position, lanes) are fields of [Leg];
    accounts created per identifier are stores keyed by their address.
    Events are log records and are not part of the state; the handlers
    that publish return the message they built. *)

From Stdlib Require Import ZArith Lia.
From stdpp Require Import strings.
From S2P Require Import Prelude ProtocolLayout ProtocolTypes ProtocolCodec RemoteState.
From S2P Require Import RemoteMessage RemotePlatform.

(** * State *)

Record Leg := mkLeg {
  l_key : Key;
  l_config : RemoteConfig;
  l_risk : RiskConfig;
  l_strategy : StrategyConfig;
  l_position : RemotePosition;
  l_lane : ReplayLane;
  l_outbound : OutboundLane;
  l_policy : option DeployAuthorizationPolicy;
  l_transfers : Store TransferRecord;
  l_consumed : Store ConsumedMessage;
  l_reports : Store ReportRecord;
  l_markers : Store RecallSentMarker;
  l_ledger : Store TransportLedger;
  l_world : World
}.

#[global] Instance Leg_eta : Eta Leg := fun s => mkLeg
  (l_key s) (l_config s) (l_risk s) (l_strategy s) (l_position s) (l_lane s)
  (l_outbound s) (l_policy s) (l_transfers s) (l_consumed s) (l_reports s)
  (l_markers s) (l_ledger s) (l_world s).

(** Accounts, signers and runtime values of one call.  An instruction reads
    only the entries its account list names. *)
Record Env := mkEnv {
  e_unix_timestamp : Z;
  e_signer : Key;
  e_guardian : option Key;
  e_funded : Key -> bool;
  e_transfer_record : Key;
  e_consumed_message : Key;
  e_report_record : Key;
  e_recall_sent_marker : Key;
  e_transport_ledger : Key;
  e_active_transfer_record : option Key;
  e_custody_token_account : Key;
  e_outbound_escrow : Key;
  e_asset_mint : Key;
  e_token_program : Key;
  e_adapter_program : Key;
  e_adapter_state : Key;
  e_adapter_authority : Key;
  e_adapter_token_vault : Key;
  e_receipt_key : Key;
  e_receipt : DeploymentReceipt;
  e_introspection : Introspection
}.

Section handlers.
Context `{Chain}.
Implicit Types (l : Leg) (env : Env).

(** * Shared account checks *)

(** [has_one = transport_verifier]. *)
Definition require_verifier env l : Result unit :=
  require keys_eq env.(e_signer) l.(l_config).(cf_transport_verifier)
    or Refused Unauthorized; Ok tt.

(** [has_one = administrator]. *)
Definition require_administrator env l : Result unit :=
  require keys_eq env.(e_signer) l.(l_config).(cf_administrator)
    or Refused Unauthorized; Ok tt.

Definition require_custody_account env l : Result unit :=
  require keys_eq env.(e_custody_token_account) l.(l_config).(cf_custody_token_account)
    or Refused InvalidCustodyAccount; Ok tt.

Definition require_asset_mint env l : Result unit :=
  require keys_eq env.(e_asset_mint) l.(l_config).(cf_asset_mint)
    or Refused InvalidMint; Ok tt.

(** The optional guardian co-signer. *)
Definition require_guardian_key env l : Result unit :=
  match env.(e_guardian) with
  | None => Ok tt
  | Some k => require keys_eq k l.(l_config).(cf_emergency_guardian)
                or Refused Unauthorized; Ok tt
  end.

(** Runs only on an active leg, or with the guardian's signature. *)
Definition check_frozen_gate env l : Result unit :=
  require negb l.(l_config).(cf_frozen) || negb (is_none env.(e_guardian))
    or Refused Frozen; Ok tt.

(** A transfer record passed as a typed account: it exists and sits at the
    address its own identifier and bump derive. *)
Definition typed_transfer_record env l : Result TransferRecord :=
  match l.(l_transfers) !! env.(e_transfer_record) with
  | Some (Owned r) =>
      require bool_decide (create_program_address
          (transfer_seeds l.(l_key) r.(tr_transfer_id) ++ [[r.(tr_bump)]]) crate_ID
          = Some env.(e_transfer_record))
        or AccountConstraint;
      Ok r
  | _ => Err AccountConstraint
  end.

Definition check_version (v : Z) : Result unit :=
  require v =? STATE_VERSION or Refused InvalidStateVersion; Ok tt.

Definition check_versions_of (vs : list Z) : Result unit :=
  try_fold (fun _ v => check_version v) tt vs.

Definition check_control_lane l : Result unit :=
  require l.(l_lane).(rl_lane_id) =? l.(l_config).(cf_control_lane_id)
    or Refused InvalidLane; Ok tt.

Definition check_report_lane l : Result unit :=
  require l.(l_outbound).(ol_lane_id) =? l.(l_config).(cf_report_lane_id)
    or Refused InvalidOutboundLane; Ok tt.

(** The lane after it consumed one message. *)
Definition lane_consume (lane : ReplayLane) (sequence : Z) (id : Bytes32) (at_ : Z)
    : ReplayLane :=
  lane <| rl_highest_consumed_sequence := sequence |>
       <| rl_message_commitment :=
            remote_next_commitment keccak lane.(rl_message_commitment) id |>
       <| rl_last_accepted_at := at_ |>.

(** The consumed record of this sequence must be free and at its address. *)
Definition check_consumed_slot env l (sequence : Z) : Result (Key * Z) :=
  let consumed := consumed_address l.(l_key) l.(l_config).(cf_control_lane_id) sequence in
  require keys_eq env.(e_consumed_message) consumed.1 or Refused InvalidConsumedMessage;
  let? _ := check_available l.(l_consumed) env.(e_consumed_message)
    ReplayDetected InvalidConsumedMessage in
  Ok consumed.

(** Writes the consumed record and moves the lane on. *)
Definition consume env l (class : MessageClass) (bump sequence : Z) (id : Bytes32)
    : Result Leg :=
  let? consumed := create_and_write env.(e_funded) l.(l_consumed) env.(e_consumed_message)
    (mkConsumedMessage STATE_VERSION bump class l.(l_config).(cf_control_lane_id)
       sequence id) in
  Ok (l <| l_consumed := consumed |>
        <| l_lane := lane_consume l.(l_lane) sequence id env.(e_unix_timestamp) |>).

(** The transfer record of this identifier must be at its address. *)
Definition check_transfer_key env l (id : Bytes32) : Result Z :=
  let target := transfer_address l.(l_key) id in
  require keys_eq env.(e_transfer_record) target.1 or Refused InvalidTransferRecord;
  Ok target.2.

(** * Allocation *)

Definition allocation_fits (p : RemotePosition) (s : StrategyConfig) (authorized_amount : Z)
    : Result bool :=
  let? accepted := accepted_principal p in
  let? projected := u64_add accepted authorized_amount in
  Ok (projected <=? s.(sc_max_remote_principal)).

Definition handle_allocate env l (message_bytes : list Z) : Result Leg :=
  let? _ := require_verifier env l in
  let? _ := check_versions_of
    [ l.(l_config).(cf_state_version); l.(l_risk).(rk_state_version);
      l.(l_strategy).(sc_state_version); l.(l_position).(po_state_version);
      l.(l_lane).(rl_state_version) ] in
  let? _ := check_control_lane l in
  let? now := current_time env.(e_unix_timestamp) in
  let? v := validate_inbound keccak message_bytes ClassAllocate l.(l_config) l.(l_lane) now in
  match v.(vm_message).(m_body) with
  | BAllocate body =>
      require body.(al_config_version) =? l.(l_config).(cf_config_version)
        or Refused InvalidConfigVersion;
      let id := body.(al_transfer_id) in
      fail_if keys_eq id wide_zero with Refused InvalidTransferRecord;
      let? record_bump := check_transfer_key env l id in
      let? _ := check_available l.(l_transfers) env.(e_transfer_record)
        TransferAlreadyExists InvalidTransferRecord in
      let? _ := check_no_active_transfer l.(l_position) in
      let? authorized_amount := narrow_amount body.(al_amount) in
      let? minimum_amount := narrow_amount body.(al_minimum_destination_amount) in
      fail_if authorized_amount =? 0 with Refused InvalidTransferRecord;
      fail_if minimum_amount =? 0 with Refused InvalidMinimumDestinationAmount;
      require minimum_amount <=? authorized_amount or Refused InvalidMinimumDestinationAmount;
      let? quarantine :=
        if negb v.(vm_fresh) then Ok (Some QExpired)
        else if l.(l_config).(cf_frozen) then Ok (Some QFrozen)
        else
          let? fits := allocation_fits l.(l_position) l.(l_strategy) authorized_amount in
          Ok (if negb fits then Some QAllocationLimit else None) in
      let sequence := v.(vm_message).(m_header).(h_sequence) in
      let? consumed := check_consumed_slot env l sequence in
      let transfer := new_allocation record_bump id sequence authorized_amount
        minimum_amount body.(al_expected_source_balance) env.(e_unix_timestamp) in
      let? transfers := create_and_write env.(e_funded) l.(l_transfers)
        env.(e_transfer_record)
        (if is_none quarantine then transfer else quarantined transfer) in
      let? l' := consume env (l <| l_transfers := transfers |>) ClassAllocate consumed.2
        sequence v.(vm_message_id) in
      if is_none quarantine then
        Ok (l' <| l_position := open_transfer l.(l_position) KAllocate id sequence |>)
      else
        Ok (l' <| l_position := quarantine_transfer l.(l_position) KAllocate id sequence |>)
  | _ => Err (Refused UnsupportedMessageType)
  end.

(** Takes custody that arrived into the open allocation: the record and the
    position after it, and the amount. *)
Definition attribute_arrived (r : TransferRecord) (p : RemotePosition) (attributed_now : Z)
    : Result (TransferRecord * RemotePosition) :=
  let? unattributed := u64_sub p.(po_unattributed_custody) attributed_now ArithmeticOverflow in
  let? principal := u64_add p.(po_attributed_principal) attributed_now in
  let? attributed := u64_add r.(tr_attributed_amount) attributed_now in
  Ok (r <| tr_attributed_amount := attributed |>,
      p <| po_unattributed_custody := unattributed |>
        <| po_attributed_principal := principal |>).

Definition process_attribute_allocation env l : Result Leg :=
  let? _ := require_custody_account env l in
  let? record := typed_transfer_record env l in
  let? _ := require_guardian_key env l in
  let? _ := check_version l.(l_position).(po_state_version) in
  let? _ := check_frozen_gate env l in
  let? _ := check_active record KAllocate l.(l_position) in
  let? _ := check_allocation_shape record in
  let custody_amount := l.(l_world).(w_custody).(tk_amount) in
  let? '(position, _) := reconcile l.(l_position) custody_amount in
  let? outstanding := outstanding_allocation record in
  let attributed_now := Z.min outstanding position.(po_unattributed_custody) in
  fail_if attributed_now =? 0 with Refused NoAttributableAssets;
  let? '(record, position) := attribute_arrived record position attributed_now in
  require record.(tr_attributed_amount) <=? record.(tr_authorized_amount)
    or Refused AttributionExceedsAuthorization;
  let? _ := check_identity position custody_amount in
  let now := env.(e_unix_timestamp) in
  let '(record, position) :=
    if record.(tr_attributed_amount) =? record.(tr_authorized_amount) then
      (record <| tr_status := SComplete |> <| tr_completed_at := now |>,
       complete_transfer position record.(tr_transfer_id) now)
    else (record, position) in
  Ok (l <| l_transfers := store l.(l_transfers) env.(e_transfer_record) record |>
        <| l_position := position |>).

(** * Recall *)

Definition handle_recall env l (message_bytes : list Z) : Result Leg :=
  let? _ := require_verifier env l in
  let? _ := require_guardian_key env l in
  let? _ := check_versions_of
    [ l.(l_config).(cf_state_version); l.(l_risk).(rk_state_version);
      l.(l_position).(po_state_version); l.(l_lane).(rl_state_version) ] in
  let? _ := check_control_lane l in
  let? _ := check_frozen_gate env l in
  let? now := current_time env.(e_unix_timestamp) in
  let? v := validate_inbound keccak message_bytes ClassRecall l.(l_config) l.(l_lane) now in
  match v.(vm_message).(m_body) with
  | BRecall body =>
      require body.(rc_config_version) =? l.(l_config).(cf_config_version)
        or Refused InvalidConfigVersion;
      let id := body.(rc_transfer_id) in
      fail_if keys_eq id wide_zero with Refused InvalidTransferRecord;
      let? record_bump := check_transfer_key env l id in
      let? _ := check_available l.(l_transfers) env.(e_transfer_record)
        TransferAlreadyExists InvalidTransferRecord in
      let? _ := check_no_active_transfer l.(l_position) in
      let? requested_amount := narrow_amount body.(rc_requested_amount) in
      let? minimum_amount := narrow_amount body.(rc_minimum_return_amount) in
      fail_if requested_amount =? 0 with Refused InvalidRecallAmount;
      fail_if minimum_amount =? 0 with Refused InvalidMinimumReturn;
      require minimum_amount <=? requested_amount or Refused InvalidMinimumReturn;
      let? _ :=
        if v.(vm_fresh) then
          let? accepted := accepted_principal l.(l_position) in
          require requested_amount <=? accepted or Refused InsufficientRemotePrincipal; Ok tt
        else Ok tt in
      let sequence := v.(vm_message).(m_header).(h_sequence) in
      let? consumed := check_consumed_slot env l sequence in
      let transfer := new_recall record_bump id sequence requested_amount minimum_amount 0
        env.(e_unix_timestamp) in
      let? '(transfer, position, reserved) :=
        if v.(vm_fresh) then reserve_recall_custody transfer l.(l_position)
        else Ok (quarantined transfer, l.(l_position), 0) in
      let? transfers := create_and_write env.(e_funded) l.(l_transfers)
        env.(e_transfer_record) transfer in
      let? l' := consume env (l <| l_transfers := transfers |>) ClassRecall consumed.2
        sequence v.(vm_message_id) in
      if negb v.(vm_fresh) then
        Ok (l' <| l_position := quarantine_transfer position KRecall id sequence |>)
      else
        let? _ := u64_sub requested_amount reserved InvalidRecallAmount in
        Ok (l' <| l_position := open_transfer position KRecall id sequence |>)
  | _ => Err (Refused UnsupportedMessageType)
  end.

(** * Resolution *)

Record Admission := mkAdmission {
  ad_outcome : ResolveOutcome;
  ad_reserved_amount : option Z;
  ad_remaining_principal : Z
}.

Definition admission_unchanged (outcome : ResolveOutcome) : Admission :=
  mkAdmission outcome None 0.

(** Whether the terms of a quarantined transfer still hold. *)
Definition admit_blocked l (record : TransferRecord) : Result (option ResolveOutcome) :=
  match record.(tr_transfer_kind) with
  | KAllocate =>
      let? _ := check_allocation_shape record in
      let? fits := allocation_fits l.(l_position) l.(l_strategy) record.(tr_authorized_amount) in
      Ok (if negb fits then Some RAllocationLimit else None)
  | KRecall =>
      let? _ := check_recall_shape record in
      let? accepted := accepted_principal l.(l_position) in
      Ok (if accepted <? record.(tr_requested_recall_amount)
          then Some RInsufficientPrincipal else None)
  | KNone | KRecover => Err (Refused InvalidTransferKind)
  end.

Definition admit_quarantined env l : Result (Leg * Admission) :=
  let? record := load l.(l_transfers) env.(e_transfer_record) InvalidTransferRecord in
  let? _ := check_quarantined record l.(l_position) in
  let? blocked := admit_blocked l record in
  match blocked with
  | Some outcome => Ok (l, admission_unchanged outcome)
  | None =>
      let? _ := check_frozen_gate env l in
      let? '(record, position, admission) :=
        if bool_decide (record.(tr_transfer_kind) = KRecall) then
          let? '(record, position, reserved) :=
            reserve_recall_custody record l.(l_position) in
          let? remaining := unresolved_recall_principal record in
          Ok (record, position, mkAdmission RAdmitted (Some reserved) remaining)
        else Ok (record, l.(l_position), admission_unchanged RAdmitted) in
      let record := record <| tr_status := SPending |> in
      Ok (l <| l_position := admit_transfer position |>
            <| l_transfers := store l.(l_transfers) env.(e_transfer_record) record |>,
          admission)
  end.

Definition handle_resolve env l (message_bytes : list Z) : Result (Leg * Admission) :=
  let? _ := require_verifier env l in
  let? _ := require_guardian_key env l in
  let? _ := check_versions_of
    [ l.(l_config).(cf_state_version); l.(l_strategy).(sc_state_version);
      l.(l_position).(po_state_version); l.(l_lane).(rl_state_version) ] in
  let? _ := check_control_lane l in
  let? now := current_time env.(e_unix_timestamp) in
  let? v := validate_inbound keccak message_bytes ClassResolve l.(l_config) l.(l_lane) now in
  match v.(vm_message).(m_body) with
  | BResolve body =>
      require bool_decide (body.(re_action) = ActAdmit) or Refused WrongResolveInstruction;
      require body.(re_config_version) =? l.(l_config).(cf_config_version)
        or Refused InvalidConfigVersion;
      let id := body.(re_transfer_id) in
      let? _ := check_transfer_key env l id in
      let sequence := v.(vm_message).(m_header).(h_sequence) in
      let? consumed := check_consumed_slot env l sequence in
      let held := holds_quarantined l.(l_position) id body.(re_target_sequence) in
      let? '(l', admission) :=
        if negb v.(vm_fresh) then Ok (l, admission_unchanged RExpired)
        else if negb held then Ok (l, admission_unchanged RNotQuarantined)
        else admit_quarantined env l in
      let? l'' := consume env l' ClassResolve consumed.2 sequence v.(vm_message_id) in
      Ok (l'', admission)
  | _ => Err (Refused UnsupportedMessageType)
  end.

End handlers.
