(* ===== verification/RemoteSettle.v ===== *)
(** Handlers of the remote leg that settle, move assets and publish:
    [settlement.rs], [deploy.rs], [withdraw.rs], [send.rs], [reconcile.rs],
    [publication.rs], [publish_report.rs], [publish_recall_sent.rs],
    [config_update.rs], [watermark.rs], [close_record.rs] and [freeze.rs],
    and the instruction set of the program ([lib.rs]). *)

From Stdlib Require Import ZArith Lia.
From stdpp Require Import strings.
From S2P Require Import Prelude ProtocolLayout ProtocolTypes ProtocolCodec RemoteState.
From S2P Require Import RemoteMessage RemotePlatform RemoteLeg.

Record Settlement := mkSettlement {
  st_kind : SettlementKind;
  st_claim_amount : Z;
  st_credited_amount : Z;
  st_impaired_outstanding : Z
}.

Record LedgerSlot := mkLedgerSlot {
  ls_ledger : TransportLedger;
  ls_exists : bool
}.

Section handlers.
Context `{Chain}.
Implicit Types (l : Leg) (env : Env).

(** * Publication *)

Definition create_report_record env l (report_type : ReportType) (built : BuiltMessage)
    (related_transfer_id : Bytes32) (epoch_id : Z) : Result Leg :=
  let lane_id := l.(l_outbound).(ol_lane_id) in
  let sequence := l.(l_outbound).(ol_next_sequence) in
  let '(expected, bump) := report_address l.(l_key) lane_id sequence in
  require keys_eq env.(e_report_record) expected or Refused InvalidReportRecord;
  let? _ := check_available l.(l_reports) env.(e_report_record)
    ReportAlreadyPublished InvalidReportRecord in
  let? reports := create_and_write env.(e_funded) l.(l_reports) env.(e_report_record) {|
      rr_state_version := STATE_VERSION;
      rr_bump := bump;
      rr_report_type := report_type;
      rr_lane_id := lane_id;
      rr_sequence := sequence;
      rr_message_id := built.(bm_message_id);
      rr_body_hash := built.(bm_body_hash);
      rr_previous_commitment := built.(bm_previous_commitment);
      rr_next_commitment := built.(bm_next_commitment);
      rr_encoded_len := built.(bm_encoded_len);
      rr_published_at := env.(e_unix_timestamp);
      rr_related_transfer_id := related_transfer_id;
      rr_epoch_id := epoch_id |} in
  Ok (l <| l_reports := reports |>).

Definition create_recall_marker env l (id : Bytes32) (built : BuiltMessage) : Result Leg :=
  let '(expected, bump) := marker_address l.(l_key) id in
  require keys_eq env.(e_recall_sent_marker) expected or Refused InvalidRecallIdentity;
  let? _ := check_available l.(l_markers) env.(e_recall_sent_marker)
    RecallSentAlreadyPublished InvalidRecallIdentity in
  let? markers := create_and_write env.(e_funded) l.(l_markers) env.(e_recall_sent_marker) {|
      rm_state_version := STATE_VERSION;
      rm_bump := bump;
      rm_transfer_id := id;
      rm_report_sequence := l.(l_outbound).(ol_next_sequence);
      rm_message_id := built.(bm_message_id);
      rm_published_at := env.(e_unix_timestamp) |} in
  Ok (l <| l_markers := markers |>).

Definition advance_outbound env l (report_type : ReportType) (built : BuiltMessage)
    : Result Leg :=
  let? lane := advance l.(l_outbound) report_type built.(bm_next_commitment)
    env.(e_unix_timestamp) in
  Ok (l <| l_outbound := lane |>).

Definition outbound_context l (now : Z) : OutboundContext :=
  mkOutboundContext l.(l_config) l.(l_outbound) l.(l_risk).(rk_max_report_age) now.

(** * Settlement *)

Definition load_ledger env l (address : Key) (bump now : Z) : Result LedgerSlot :=
  require keys_eq env.(e_transport_ledger) address or Refused InvalidTransportLedger;
  match l.(l_ledger) !! env.(e_transport_ledger) with
  | Some (Owned ledger) =>
      require ledger.(tl_state_version) =? STATE_VERSION or Refused InvalidStateVersion;
      let? _ := check_balanced ledger in
      Ok (mkLedgerSlot ledger true)
  | _ =>
      let? _ := check_available l.(l_ledger) env.(e_transport_ledger)
        InvalidTransportLedger InvalidTransportLedger in
      Ok (mkLedgerSlot (ledger_empty bump now) false)
  end.

(** The position and the record after the status rules of a close. *)
Definition close_record_rules l (record : TransferRecord) (now : Z)
    : Result (TransferRecord * RemotePosition) :=
  let position := l.(l_position) in
  let held := holds_allocation position record.(tr_transfer_id) record.(tr_message_sequence) in
  match record.(tr_status) with
  | SPending =>
      require held && bool_decide (position.(po_active_transfer_status) = SPending)
        or Refused InvalidTransferRecord;
      let custody_amount := l.(l_world).(w_custody).(tk_amount) in
      let? '(position, _) := reconcile position custody_amount in
      let? outstanding := outstanding_allocation record in
      let attributed_now := Z.min outstanding position.(po_unattributed_custody) in
      let? '(record, position) := attribute_arrived record position attributed_now in
      let? _ := check_identity position custody_amount in
      Ok (record <| tr_completed_at := now |>, close_transfer position)
  | SQuarantined =>
      require held && bool_decide (position.(po_active_transfer_status) = SQuarantined)
        or Refused InvalidTransferRecord;
      require record.(tr_attributed_amount) =? 0 or Refused InvalidTransferRecord;
      Ok (record <| tr_completed_at := now |>, close_transfer position)
  | SComplete =>
      let? _ := check_no_active_transfer position in
      require keys_eq position.(po_latest_completed_transfer_id) record.(tr_transfer_id)
        or Refused InvalidTransferRecord;
      require record.(tr_attributed_amount) =? record.(tr_authorized_amount)
        or Refused InvalidTransferRecord;
      Ok (record, position)
  | SNone | SClosed => Err (Refused TransferNotClosable)
  end.

Definition close env l (body : ResolveBody) (ledger : TransportLedger) (now : Z)
    : Result (Leg * TransportLedger * Settlement) :=
  let? record := load l.(l_transfers) env.(e_transfer_record) InvalidTransferRecord in
  require record.(tr_state_version) =? STATE_VERSION or Refused InvalidStateVersion;
  require bool_decide (record.(tr_transfer_kind) = KAllocate) or Refused InvalidTransferKind;
  require keys_eq record.(tr_transfer_id) body.(re_transfer_id)
      && (record.(tr_message_sequence) =? body.(re_target_sequence))
    or Refused InvalidTransferRecord;
  let? _ := check_allocation_shape record in
  let? '(record, position) := close_record_rules l record now in
  require record.(tr_attributed_amount) <=? record.(tr_authorized_amount)
    or Refused AttributionExceedsAuthorization;
  let record := record <| tr_status := SClosed |> in
  let transfers := store l.(l_transfers) env.(e_transfer_record) record in
  let? '(ledger, _) := record_close ledger record.(tr_authorized_amount)
    record.(tr_attributed_amount) record.(tr_message_sequence) in
  Ok (l <| l_transfers := transfers |> <| l_position := position |>, ledger,
      mkSettlement Closed record.(tr_authorized_amount) record.(tr_attributed_amount)
        ledger.(tl_impaired_outstanding)).

Definition recover env l (body : ResolveBody) (record_bump sequence : Z)
    (ledger : TransportLedger) (now : Z) : Result (Leg * TransportLedger * Settlement) :=
  require (0 <? ledger.(tl_impaired_outstanding))
      && (body.(re_target_sequence) =? ledger.(tl_last_impaired_sequence))
    or Refused RecoveryStateMismatch;
  let? _ := check_no_active_transfer l.(l_position) in
  let? _ := check_available l.(l_transfers) env.(e_transfer_record)
    TransferAlreadyExists InvalidTransferRecord in
  let custody_amount := l.(l_world).(w_custody).(tk_amount) in
  let? '(position, _) := reconcile l.(l_position) custody_amount in
  let? committed := committed_principal position in
  let headroom := saturating_sub l.(l_strategy).(sc_max_remote_principal) committed in
  let pool := if ledger.(tl_impaired_outstanding) <=? u64_max
              then ledger.(tl_impaired_outstanding) else u64_max in
  let credited := Z.min (Z.min position.(po_unattributed_custody) pool) headroom in
  let? unattributed := u64_sub position.(po_unattributed_custody) credited ArithmeticOverflow in
  let? principal := u64_add position.(po_attributed_principal) credited in
  let position := position <| po_unattributed_custody := unattributed |>
                           <| po_attributed_principal := principal |> in
  let? _ := check_identity position custody_amount in
  let claim_amount := ledger.(tl_impaired_outstanding) in
  let? ledger := record_recovery ledger credited in
  let id := body.(re_transfer_id) in
  let? transfers := create_and_write env.(e_funded) l.(l_transfers) env.(e_transfer_record)
    (new_recovery record_bump id sequence credited now) in
  Ok (l <| l_transfers := transfers |> <| l_position := position |>, ledger,
      mkSettlement Recovered claim_amount credited ledger.(tl_impaired_outstanding)).

Definition handle_settlement env l (message_bytes : list Z) : Result (Leg * BuiltMessage) :=
  let? _ := require_verifier env l in
  let? _ := require_custody_account env l in
  let? _ := require_guardian_key env l in
  let? _ := check_versions_of
    [ l.(l_config).(cf_state_version); l.(l_risk).(rk_state_version);
      l.(l_strategy).(sc_state_version); l.(l_position).(po_state_version);
      l.(l_lane).(rl_state_version); l.(l_outbound).(ol_state_version) ] in
  let? _ := check_control_lane l in
  let? _ := check_report_lane l in
  let? now := current_time env.(e_unix_timestamp) in
  let? v := validate_inbound keccak message_bytes ClassResolve l.(l_config) l.(l_lane) now in
  match v.(vm_message).(m_body) with
  | BResolve body =>
      fail_if bool_decide (body.(re_action) = ActAdmit) with Refused WrongResolveInstruction;
      require body.(re_config_version) =? l.(l_config).(cf_config_version)
        or Refused InvalidConfigVersion;
      let id := body.(re_transfer_id) in
      let? target_bump := check_transfer_key env l id in
      let sequence := v.(vm_message).(m_header).(h_sequence) in
      let? consumed := check_consumed_slot env l sequence in
      let? _ := check_frozen_gate env l in
      let processed_at := env.(e_unix_timestamp) in
      let '(address, ledger_bump) := ledger_address l.(l_key) in
      let? slot := load_ledger env l address ledger_bump processed_at in
      let? '(l1, ledger, settlement) :=
        match body.(re_action) with
        | ActClose => close env l body slot.(ls_ledger) processed_at
        | ActRecover =>
            require slot.(ls_exists) or Refused RecoveryStateMismatch;
            recover env l body target_bump sequence slot.(ls_ledger) processed_at
        | ActAdmit => Err (Refused WrongResolveInstruction)
        end in
      let? ledgers :=
        if slot.(ls_exists) then Ok (store l1.(l_ledger) env.(e_transport_ledger) ledger)
        else create_and_write env.(e_funded) l1.(l_ledger) env.(e_transport_ledger) ledger in
      let l2 := l1 <| l_ledger := ledgers |> in
      let? built := build_transport_settlement keccak (outbound_context l2 now) {|
          tf_transfer_id := id;
          tf_kind := settlement.(st_kind);
          tf_claim_amount := settlement.(st_claim_amount);
          tf_credited_amount := settlement.(st_credited_amount);
          tf_impaired_outstanding := settlement.(st_impaired_outstanding);
          tf_config_version := l2.(l_config).(cf_config_version) |} in
      let? l3 := create_report_record env l2 TTransportSettlement built id 0 in
      let? l4 := advance_outbound env l3 TTransportSettlement built in
      let? l5 := consume env l4 ClassResolve consumed.2 sequence v.(vm_message_id) in
      Ok (l5, built)
  | _ => Err (Refused UnsupportedMessageType)
  end.

(** * Assets *)

(** The account list of a deployment or a withdrawal. *)
Definition require_adapter_accounts env l : Result unit :=
  let? _ := require_custody_account env l in
  let? _ := require_asset_mint env l in
  require keys_eq env.(e_adapter_program) l.(l_strategy).(sc_adapter_program)
    or Refused InvalidAdapterProgram;
  require keys_eq env.(e_adapter_state) l.(l_strategy).(sc_adapter_state)
    or Refused InvalidAdapterState;
  require keys_eq env.(e_adapter_authority) l.(l_strategy).(sc_adapter_authority)
    or Refused InvalidAdapterAuthority;
  require keys_eq env.(e_adapter_token_vault) l.(l_strategy).(sc_adapter_token_vault)
    or Refused InvalidAdapterVault;
  Ok tt.

Definition adapter_call env l : AdapterCall := {|
  ac_adapter_program := env.(e_adapter_program);
  ac_adapter_state := env.(e_adapter_state);
  ac_adapter_authority := env.(e_adapter_authority);
  ac_adapter_token_vault := env.(e_adapter_token_vault);
  ac_caller := (adapter_caller l.(l_key)).1;
  ac_custody_token_account := env.(e_custody_token_account);
  ac_asset_mint := env.(e_asset_mint);
  ac_token_program := env.(e_token_program)
|}.

Definition process_deploy_to_strategy env l (amount : Z) : Result Leg :=
  let? _ := require_adapter_accounts env l in
  let? policy := ok_or l.(l_policy) AccountConstraint in
  let? _ := check_versions_of [l.(l_position).(po_state_version);
    l.(l_strategy).(sc_state_version); policy.(ap_state_version)] in
  fail_if l.(l_config).(cf_frozen) with Refused Frozen;
  require keys_eq env.(e_token_program) l.(l_config).(cf_token_program)
    or Refused InvalidTokenProgram;
  require keys_eq l.(l_world).(w_vault).(tk_mint) l.(l_config).(cf_asset_mint)
    or Refused InvalidAdapterVault;
  let custody_before := l.(l_world).(w_custody).(tk_amount) in
  let? '(position, _) := reconcile l.(l_position) custody_before in
  require negb (amount =? 0) && (amount <=? position.(po_attributed_principal))
    or Refused InsufficientAttributedCustody;
  let? principal_before := read_principal l.(l_world).(w_adapter_state) in
  let? _ := check_deployed position principal_before in
  let vault_before := l.(l_world).(w_vault).(tk_amount) in
  let context := deployment_context l.(l_key) l.(l_config)
    (strategy_config_address l.(l_key)).1 l.(l_strategy) position in
  let? _ := authorization_check
    (mkAuthorization policy env.(e_receipt_key) env.(e_receipt) env.(e_introspection))
    l.(l_key) context amount env.(e_unix_timestamp) in
  let? w1 := callee (spl_transfer SideCustody SideVault amount l.(l_world)) in
  let? w2 := callee (invoke_signed (deposit_exact_ix (adapter_call env l) amount) w1) in
  let? _ := check_control w2.(w_custody) (custody_authority l.(l_key)).1 in
  let custody_after := w2.(w_custody).(tk_amount) in
  let vault_after := w2.(w_vault).(tk_amount) in
  let? principal_after := read_principal w2.(w_adapter_state) in
  let? custody_decrease := u64_sub custody_before custody_after InvalidBalanceDelta in
  let? vault_increase := u64_sub vault_after vault_before InvalidBalanceDelta in
  let? principal_increase := u64_sub principal_after principal_before InvalidPrincipalDelta in
  require custody_decrease =? amount or Refused InvalidBalanceDelta;
  require vault_increase =? custody_decrease or Refused InvalidBalanceDelta;
  require principal_increase =? custody_decrease or Refused InvalidPrincipalDelta;
  let? attributed := u64_sub position.(po_attributed_principal) amount
    InsufficientAttributedCustody in
  let? deployed := u64_add position.(po_deployed_principal) amount in
  let position := position <| po_attributed_principal := attributed |>
                           <| po_deployed_principal := deployed |> in
  let? _ := check_identity position custody_after in
  let? _ := check_deployed position principal_after in
  Ok (l <| l_position := position |> <| l_world := w2 |>).

Definition process_withdraw_for_recall env l (maximum_principal : Z) : Result Leg :=
  let? _ := require_adapter_accounts env l in
  let? record := typed_transfer_record env l in
  let? _ := check_versions_of [l.(l_position).(po_state_version);
    l.(l_strategy).(sc_state_version)] in
  require keys_eq env.(e_token_program) l.(l_config).(cf_token_program)
    or Refused InvalidTokenProgram;
  require keys_eq l.(l_world).(w_vault).(tk_mint) l.(l_config).(cf_asset_mint)
    or Refused InvalidAdapterVault;
  let? _ := check_active record KRecall l.(l_position) in
  let? _ := check_recall_shape record in
  let custody_before := l.(l_world).(w_custody).(tk_amount) in
  let? '(position, _) := reconcile l.(l_position) custody_before in
  let? unresolved := unresolved_recall_principal record in
  let request := Z.min (Z.min maximum_principal unresolved) position.(po_deployed_principal) in
  fail_if request =? 0 with Refused InsufficientStrategyLiquidity;
  let? principal_before := read_principal l.(l_world).(w_adapter_state) in
  let? _ := check_deployed position principal_before in
  let vault_before := l.(l_world).(w_vault).(tk_amount) in
  let? w := callee (invoke_signed (withdraw_ix (adapter_call env l) request) l.(l_world)) in
  let? _ := check_control w.(w_custody) (custody_authority l.(l_key)).1 in
  let custody_after := w.(w_custody).(tk_amount) in
  let vault_after := w.(w_vault).(tk_amount) in
  let? principal_after := read_principal w.(w_adapter_state) in
  let? principal_reduction := u64_sub principal_before principal_after InvalidPrincipalDelta in
  let? assets_returned := u64_sub custody_after custody_before InvalidBalanceDelta in
  let? vault_decrease := u64_sub vault_before vault_after InvalidBalanceDelta in
  require vault_decrease =? assets_returned or Refused InvalidBalanceDelta;
  require principal_reduction <=? request or Refused InvalidPrincipalDelta;
  fail_if principal_reduction =? 0 with Refused InsufficientStrategyLiquidity;
  let? realized_loss := u64_sub principal_reduction assets_returned InvalidRealizedLoss in
  let? deployed := u64_sub position.(po_deployed_principal) principal_reduction
    InvalidPrincipalDelta in
  let? recalled := u64_add position.(po_recalled_custody) assets_returned in
  let? cumulative := u64_add position.(po_cumulative_realized_loss) realized_loss in
  let position := position <| po_deployed_principal := deployed |>
                           <| po_recalled_custody := recalled |>
                           <| po_cumulative_realized_loss := cumulative |> in
  let? resolved := u64_add record.(tr_strategy_principal_resolved) principal_reduction in
  let? withdrawn := u64_add record.(tr_assets_withdrawn) assets_returned in
  let? loss := u64_add record.(tr_realized_loss) realized_loss in
  let record := record <| tr_strategy_principal_resolved := resolved |>
                       <| tr_assets_withdrawn := withdrawn |>
                       <| tr_realized_loss := loss |> in
  let? covered := u64_add record.(tr_custody_principal_reserved)
    record.(tr_strategy_principal_resolved) in
  require covered <=? record.(tr_requested_recall_amount) or Refused InvalidRecallAmount;
  let? _ := check_identity position custody_after in
  let? _ := check_deployed position principal_after in
  let? '(record, position, _) := settle_recall record position env.(e_unix_timestamp) in
  Ok (l <| l_transfers := store l.(l_transfers) env.(e_transfer_record) record |>
        <| l_position := position |> <| l_world := w |>).

Definition process_send_recall env l (maximum_amount : Z) : Result Leg :=
  let? _ := require_custody_account env l in
  require keys_eq env.(e_outbound_escrow) l.(l_config).(cf_outbound_escrow)
    or Refused InvalidOutboundEscrow;
  let? record := typed_transfer_record env l in
  let? _ := check_version l.(l_position).(po_state_version) in
  require keys_eq env.(e_token_program) l.(l_config).(cf_token_program)
    or Refused InvalidTokenProgram;
  require keys_eq l.(l_world).(w_escrow).(tk_mint) l.(l_config).(cf_asset_mint)
    or Refused InvalidOutboundEscrow;
  let? _ := check_active record KRecall l.(l_position) in
  let? _ := check_recall_shape record in
  let custody_before := l.(l_world).(w_custody).(tk_amount) in
  let? '(position, _) := reconcile l.(l_position) custody_before in
  let amount := Z.min maximum_amount position.(po_recalled_custody) in
  fail_if amount =? 0 with Refused NoRecalledCustody;
  let escrow_before := l.(l_world).(w_escrow).(tk_amount) in
  let? w := callee (spl_transfer SideCustody SideEscrow amount l.(l_world)) in
  let custody_after := w.(w_custody).(tk_amount) in
  let escrow_after := w.(w_escrow).(tk_amount) in
  let? custody_decrease := u64_sub custody_before custody_after InvalidBalanceDelta in
  let? escrow_increase := u64_sub escrow_after escrow_before InvalidBalanceDelta in
  require custody_decrease =? amount or Refused InvalidBalanceDelta;
  require escrow_increase =? custody_decrease or Refused InvalidBalanceDelta;
  let? recalled := u64_sub position.(po_recalled_custody) amount NoRecalledCustody in
  let position := position <| po_recalled_custody := recalled |> in
  let? sent := u64_add record.(tr_assets_sent) amount in
  let record := record <| tr_assets_sent := sent |> in
  let? _ := check_identity position custody_after in
  let? '(record, position, _) := settle_recall record position env.(e_unix_timestamp) in
  Ok (l <| l_transfers := store l.(l_transfers) env.(e_transfer_record) record |>
        <| l_position := position |> <| l_world := w |>).

Definition process_reconcile_custody env l : Result Leg :=
  let? _ := require_custody_account env l in
  let? _ := check_version l.(l_position).(po_state_version) in
  let? '(position, _) := reconcile l.(l_position) l.(l_world).(w_custody).(tk_amount) in
  Ok (l <| l_position := position |>).

(** * Reports *)

Definition remote_principal (p : RemotePosition) : Result Z :=
  let? total := u64_add p.(po_attributed_principal) p.(po_deployed_principal) in
  u64_add total p.(po_recalled_custody).

Definition in_flight_attribution env l (p : RemotePosition) : Result Z :=
  if negb (bool_decide (p.(po_active_transfer_kind) = KAllocate)) then Ok 0 else
  let? key := ok_or env.(e_active_transfer_record) (Refused MissingActiveTransferRecord) in
  let? record := load l.(l_transfers) key InvalidTransferRecord in
  let? address := ok_or (create_program_address
      (transfer_seeds l.(l_key) p.(po_active_transfer_id) ++ [[record.(tr_bump)]]) crate_ID)
    (Refused InvalidTransferRecord) in
  require keys_eq key address or Refused InvalidTransferRecord;
  require bool_decide (record.(tr_transfer_kind) = KAllocate)
      && keys_eq record.(tr_transfer_id) p.(po_active_transfer_id)
    or Refused InvalidTransferRecord;
  Ok record.(tr_attributed_amount).

Definition process_publish_remote_report env l (epoch_id : Z) : Result (Leg * BuiltMessage) :=
  let? _ := require_custody_account env l in
  require keys_eq env.(e_adapter_state) l.(l_strategy).(sc_adapter_state)
    or Refused InvalidAdapterState;
  let? _ := check_versions_of
    [ l.(l_config).(cf_state_version); l.(l_risk).(rk_state_version);
      l.(l_strategy).(sc_state_version); l.(l_position).(po_state_version);
      l.(l_outbound).(ol_state_version) ] in
  let? _ := check_report_lane l in
  let? _ := check_layout l.(l_world).(w_adapter_state) l.(l_strategy).(sc_adapter_program) in
  let custody_amount := l.(l_world).(w_custody).(tk_amount) in
  let? adapter_principal := read_principal l.(l_world).(w_adapter_state) in
  let? '(position, _) := reconcile l.(l_position) custody_amount in
  let? _ := check_deployed position adapter_principal in
  let? in_flight := in_flight_attribution env l position in
  let? principal := remote_principal position in
  let reported := saturating_sub principal in_flight in
  let? state_commitment := commitment keccak {|
      sv_remote_config := l.(l_key);
      sv_config_version := l.(l_config).(cf_config_version);
      sv_frozen := l.(l_config).(cf_frozen);
      sv_position := position;
      sv_custody_balance := custody_amount;
      sv_adapter_principal := adapter_principal |} in
  let? now := current_time env.(e_unix_timestamp) in
  let? built := build_remote_report keccak (outbound_context l now) {|
      rf_epoch_id := epoch_id;
      rf_remote_principal := reported;
      rf_realized_loss := position.(po_cumulative_realized_loss);
      rf_unattributed_balance := position.(po_unattributed_custody);
      rf_latest_completed_transfer_id := position.(po_latest_completed_transfer_id);
      rf_config_version := l.(l_config).(cf_config_version);
      rf_remote_state_commitment := state_commitment |} in
  let? l1 := create_report_record env (l <| l_position := position |>) TRemoteReport built
    position.(po_latest_completed_transfer_id) epoch_id in
  let? l2 := advance_outbound env l1 TRemoteReport built in
  Ok (l2, built).

Definition check_unpublished env l (id : Bytes32) : Result unit :=
  require keys_eq env.(e_recall_sent_marker) (marker_address l.(l_key) id).1
    or Refused InvalidRecallIdentity;
  match l.(l_markers) !! env.(e_recall_sent_marker) with
  | Some (Owned _) => Err (Refused RecallSentAlreadyPublished)
  | _ => Ok tt
  end.

Definition check_eligible (record : TransferRecord) (now : Z) : Result Z :=
  require bool_decide (record.(tr_transfer_kind) = KRecall) or Refused InvalidRecallIdentity;
  require bool_decide (record.(tr_status) = SComplete) or Refused RecallNotComplete;
  let? settled := u64_add record.(tr_assets_sent) record.(tr_realized_loss) in
  require settled =? record.(tr_requested_recall_amount) or Refused RecallNotComplete;
  fail_if record.(tr_completed_at) =? 0 with Refused InvalidPublicationTimestamp;
  require 0 <=? record.(tr_completed_at) or Refused InvalidPublicationTimestamp;
  require record.(tr_completed_at) <=? now or Refused InvalidPublicationTimestamp;
  Ok record.(tr_completed_at).

Definition process_publish_recall_sent env l : Result (Leg * BuiltMessage) :=
  let? record := typed_transfer_record env l in
  let? _ := check_versions_of
    [ l.(l_config).(cf_state_version); l.(l_risk).(rk_state_version);
      record.(tr_state_version); l.(l_outbound).(ol_state_version) ] in
  let? _ := check_report_lane l in
  let? now := current_time env.(e_unix_timestamp) in
  let? sent_timestamp := check_eligible record now in
  let? _ := check_unpublished env l record.(tr_transfer_id) in
  let? built := build_recall_sent keccak (outbound_context l now) {|
      sf_transfer_id := record.(tr_transfer_id);
      sf_principal_sent := record.(tr_requested_recall_amount);
      sf_actual_amount_sent := record.(tr_assets_sent);
      sf_realized_loss := record.(tr_realized_loss);
      sf_destination_reference := l.(l_config).(cf_outbound_escrow);
      sf_sent_timestamp := sent_timestamp;
      sf_config_version := l.(l_config).(cf_config_version) |} in
  let? l1 := create_report_record env l TRecallSent built record.(tr_transfer_id) 0 in
  let? l2 := create_recall_marker env l1 record.(tr_transfer_id) built in
  let? l3 := advance_outbound env l2 TRecallSent built in
  Ok (l3, built).

(** * Control *)

Definition handle_config_update env l (message_bytes : list Z) : Result Leg :=
  let? _ := require_verifier env l in
  let? _ := check_versions_of [l.(l_config).(cf_state_version);
    l.(l_risk).(rk_state_version); l.(l_lane).(rl_state_version)] in
  let? _ := check_control_lane l in
  require l.(l_risk).(rk_config_version) =? l.(l_config).(cf_config_version)
    or Refused InvalidRiskConfig;
  fail_if l.(l_config).(cf_frozen) with Refused Frozen;
  let? now := current_time env.(e_unix_timestamp) in
  let? v := validate_inbound keccak message_bytes ClassConfigUpdate l.(l_config) l.(l_lane)
    now in
  match v.(vm_message).(m_body) with
  | BConfigUpdate body =>
      let sequence := v.(vm_message).(m_header).(h_sequence) in
      let? record := check_consumed_slot env l sequence in
      if negb v.(vm_fresh) then
        consume env l ClassConfigUpdate record.2 sequence v.(vm_message_id)
      else
      let previous_config_version := l.(l_config).(cf_config_version) in
      let new_config_version := body.(cu_config_version) in
      require body.(cu_previous_config_version) =? previous_config_version
        or Refused InvalidConfigVersion;
      require previous_config_version <? new_config_version or Refused InvalidConfigVersion;
      require body.(cu_effective_timestamp) <=? now or Refused ConfigNotEffective;
      let? _ := check_parameters body.(cu_max_remote_allocation_bps)
        body.(cu_max_upward_deviation_bps) body.(cu_max_downward_deviation_bps)
        body.(cu_max_report_age) body.(cu_config_commitment) in
      let risk := l.(l_risk)
        <| rk_max_remote_allocation_bps := body.(cu_max_remote_allocation_bps) |>
        <| rk_max_upward_deviation_bps := body.(cu_max_upward_deviation_bps) |>
        <| rk_max_downward_deviation_bps := body.(cu_max_downward_deviation_bps) |>
        <| rk_max_report_age := body.(cu_max_report_age) |>
        <| rk_config_commitment := body.(cu_config_commitment) |>
        <| rk_config_version := new_config_version |>
        <| rk_last_update_at := env.(e_unix_timestamp) |> in
      let config := l.(l_config) <| cf_config_version := new_config_version |> in
      consume env (l <| l_risk := risk |> <| l_config := config |>) ClassConfigUpdate
        record.2 sequence v.(vm_message_id)
  | _ => Err (Refused UnsupportedMessageType)
  end.

Definition check_obligation (new_minimum_sequence : Z) (p : RemotePosition) : Result unit :=
  let? _ := check_version p.(po_state_version) in
  if has_active_transfer p then
    require new_minimum_sequence <=? p.(po_active_transfer_sequence)
      or Refused FinancialObligationBlocksWatermark; Ok tt
  else Ok tt.

Definition process_advance_replay_watermark env l (new_minimum_sequence : Z) : Result Leg :=
  let? _ := require_administrator env l in
  let lane := l.(l_lane) in
  let? _ := check_version lane.(rl_state_version) in
  let? _ := check_control_lane l in
  require lane.(rl_minimum_acceptable_sequence) <? new_minimum_sequence
    or Refused InvalidWatermark;
  require new_minimum_sequence <=? lane.(rl_highest_consumed_sequence)
    or Refused InvalidWatermark;
  let? lowest_allowed_highest := u64_add new_minimum_sequence
    lane.(rl_mandatory_watermark_lag) in
  require lowest_allowed_highest <=? lane.(rl_highest_consumed_sequence)
    or Refused WatermarkLagViolation;
  let? _ := check_obligation new_minimum_sequence l.(l_position) in
  Ok (l <| l_lane, rl_minimum_acceptable_sequence := new_minimum_sequence |>).

(** [key] names the account that receives the rent. *)
Definition process_close_consumed_message env l (rent_destination : Key) : Result Leg :=
  require keys_eq rent_destination l.(l_config).(cf_administrator)
    or Refused InvalidRentDestination;
  match l.(l_consumed) !! env.(e_consumed_message) with
  | Some (Owned record) =>
      require bool_decide (create_program_address
          (consumed_seeds l.(l_key) record.(cm_lane_id) record.(cm_sequence)
             ++ [[record.(cm_bump)]]) crate_ID = Some env.(e_consumed_message))
        or AccountConstraint;
      let? _ := check_version record.(cm_state_version) in
      require record.(cm_lane_id) =? l.(l_lane).(rl_lane_id) or Refused InvalidConsumedMessage;
      let? _ := check_control_lane l in
      require record.(cm_sequence) <? l.(l_lane).(rl_minimum_acceptable_sequence)
        or Refused RecordNotClosable;
      Ok (l <| l_consumed := delete env.(e_consumed_message) l.(l_consumed) |>)
  | _ => Err AccountConstraint
  end.

Definition process_freeze env l : Result Leg :=
  require is_emergency_authority l.(l_config) env.(e_signer) or Refused Unauthorized;
  fail_if l.(l_config).(cf_frozen) with Refused AlreadyFrozen;
  Ok (l <| l_config, cf_frozen := true |>).

End handlers.
