(* ===== verification/RemoteInit.v ===== *)
(** Setup of a remote leg: [initialize.rs], [control_state.rs],
    [strategy_state.rs], [outbound_state.rs] and [deploy_authorization.rs],
    and the instruction set of the program with the steps a leg can take. *)

From Stdlib Require Import ZArith Lia.
From stdpp Require Import strings.
From S2P Require Import Prelude ProtocolLayout ProtocolTypes ProtocolCodec RemoteState.
From S2P Require Import RemoteMessage RemotePlatform RemoteLeg RemoteSettle.

(** * Parameters *)

Record InitializeParams := mkInitializeParams {
  ip_deployment_id : Bytes32;
  ip_vault_id : Bytes32;
  ip_source_chain_id : Z;
  ip_destination_chain_id : Z;
  ip_source_application_id : Bytes32;
  ip_local_application_id : Bytes32;
  ip_control_lane_id : Z;
  ip_report_lane_id : Z;
  ip_config_version : Z;
  ip_transport_verifier : Key;
  ip_emergency_guardian : Key
}.

Definition check_authorities (p : InitializeParams) (administrator : Key) : Result unit :=
  fail_if keys_eq administrator default_key with Refused InvalidAuthority;
  fail_if keys_eq p.(ip_emergency_guardian) default_key with Refused InvalidAuthority;
  fail_if keys_eq p.(ip_transport_verifier) default_key with Refused InvalidAuthority;
  fail_if keys_eq administrator p.(ip_emergency_guardian) with Refused EqualAuthorities;
  Ok tt.

Definition check_initial_domains (p : InitializeParams) : Result unit :=
  fail_if p.(ip_source_chain_id) =? 0 with Refused InvalidSourceDomain;
  fail_if p.(ip_destination_chain_id) =? 0 with Refused InvalidDestinationDomain;
  fail_if p.(ip_source_chain_id) =? p.(ip_destination_chain_id)
    with Refused InvalidDestinationDomain;
  fail_if keys_eq p.(ip_source_application_id) wide_zero with Refused InvalidApplication;
  fail_if keys_eq p.(ip_local_application_id) wide_zero with Refused InvalidApplication;
  fail_if keys_eq p.(ip_deployment_id) wide_zero with Refused InvalidDeployment;
  fail_if keys_eq p.(ip_vault_id) wide_zero with Refused InvalidVault;
  fail_if p.(ip_control_lane_id) =? 0 with Refused InvalidLane;
  fail_if p.(ip_report_lane_id) =? 0 with Refused InvalidLane;
  require MIN_CONFIG_VERSION <=? p.(ip_config_version) or Refused InvalidConfigVersion;
  Ok tt.

Definition initialize_validate (p : InitializeParams) (administrator : Key) : Result unit :=
  let? _ := check_authorities p administrator in
  check_initial_domains p.

Record ControlStateParams := mkControlStateParams {
  cp_max_remote_allocation_bps : Z;
  cp_max_upward_deviation_bps : Z;
  cp_max_downward_deviation_bps : Z;
  cp_max_report_age : Z;
  cp_config_commitment : Bytes32;
  cp_mandatory_watermark_lag : Z
}.

Definition control_state_validate (p : ControlStateParams) : Result unit :=
  let? _ := check_parameters p.(cp_max_remote_allocation_bps) p.(cp_max_upward_deviation_bps)
    p.(cp_max_downward_deviation_bps) p.(cp_max_report_age) p.(cp_config_commitment) in
  fail_if p.(cp_mandatory_watermark_lag) =? 0 with Refused InvalidWatermark;
  Ok tt.

(** Accounts of the setup instructions. *)
Record SetupEnv := mkSetupEnv {
  se_unix_timestamp : Z;
  se_administrator : Key;
  se_upgrade_authority : Key;
  se_program_upgrade_authority : option Key;
  se_asset_mint : Key;
  se_mint_decimals : Z;
  se_token_program : Key;
  se_custody_token_account : Key;
  se_outbound_escrow : Key;
  se_adapter_program : Key;
  se_adapter_executable : bool;
  se_adapter_state : Key;
  se_adapter_authority : Key;
  se_adapter_token_vault : Key
}.

Definition ADAPTER_STATE_SEED : list Z := byte_string "adapter-state".
Definition ADAPTER_AUTHORITY_SEED : list Z := byte_string "adapter-authority".
Definition RISK_CONFIG_SEED : list Z := byte_string "risk-config".
Definition REPLAY_LANE_SEED : list Z := byte_string "replay-lane".
Definition REMOTE_POSITION_SEED : list Z := byte_string "remote-position".
Definition OUTBOUND_LANE_SEED : list Z := byte_string "outbound-lane".
Definition DEPLOY_AUTHORIZATION_SEED : list Z := byte_string "deploy-authorization".
Definition DEPLOYMENT_AUTHORITY_SEED : list Z := byte_string "solevm-deploy-authority".

(** The verifier account that may approve deployments of one leg. *)
Record DeploymentAuthority := mkDeploymentAuthority {
  da_version : Z;
  da_bump : Z;
  da_administrator : Key;
  da_remote_leg_program : Key;
  da_remote_config : Key;
  da_network_domain : Bytes32;
  da_policy_generation : Z
}.

Section setup.
Context `{Chain}.
Implicit Types (se : SetupEnv) (w : World).

(** * The configuration *)

Definition check_custody se w (authority : Key) : Result unit :=
  let custody := w.(w_custody) in
  require keys_eq custody.(tk_program) se.(se_token_program) or Refused InvalidTokenProgram;
  require keys_eq custody.(tk_mint) se.(se_asset_mint) or Refused InvalidMint;
  require keys_eq custody.(tk_owner) authority or Refused InvalidCustodyAccount;
  require is_none custody.(tk_delegate) or Refused InvalidCustodyAccount;
  require is_none custody.(tk_close_authority) or Refused InvalidCustodyAccount;
  Ok tt.

Definition check_outbound_escrow se w (authority : Key) : Result unit :=
  let escrow := w.(w_escrow) in
  require keys_eq escrow.(tk_program) se.(se_token_program) or Refused InvalidTokenProgram;
  require keys_eq escrow.(tk_mint) se.(se_asset_mint) or Refused InvalidOutboundEscrow;
  fail_if keys_eq se.(se_outbound_escrow) se.(se_custody_token_account)
    with Refused InvalidOutboundEscrow;
  fail_if keys_eq escrow.(tk_owner) authority with Refused InvalidOutboundEscrow;
  require is_none escrow.(tk_close_authority) or Refused InvalidOutboundEscrow;
  require is_none escrow.(tk_delegate) or Refused InvalidOutboundEscrow;
  Ok tt.

Definition config_seeds (p : InitializeParams) : list (list Z) :=
  [REMOTE_CONFIG_SEED; p.(ip_deployment_id); p.(ip_vault_id)].

(** The address of the new configuration and the account. *)
Definition process_initialize se w (p : InitializeParams) : Result (Key * RemoteConfig) :=
  require bool_decide (se.(se_program_upgrade_authority) = Some se.(se_upgrade_authority))
    or Refused Unauthorized;
  let? _ := initialize_validate p se.(se_administrator) in
  require se.(se_mint_decimals) =? REQUIRED_MINT_DECIMALS or Refused InvalidMintDecimals;
  let '(config_key, bump) := find_program_address (config_seeds p) crate_ID in
  let '(authority, authority_bump) := custody_authority config_key in
  let? _ := check_custody se w authority in
  let? _ := check_outbound_escrow se w authority in
  Ok (config_key, {|
    cf_state_version := STATE_VERSION;
    cf_bump := bump;
    cf_custody_authority_bump := authority_bump;
    cf_frozen := false;
    cf_administrator := se.(se_administrator);
    cf_emergency_guardian := p.(ip_emergency_guardian);
    cf_transport_verifier := p.(ip_transport_verifier);
    cf_asset_mint := se.(se_asset_mint);
    cf_token_program := se.(se_token_program);
    cf_custody_authority := authority;
    cf_custody_token_account := se.(se_custody_token_account);
    cf_outbound_escrow := se.(se_outbound_escrow);
    cf_source_chain_id := p.(ip_source_chain_id);
    cf_destination_chain_id := p.(ip_destination_chain_id);
    cf_source_application_id := p.(ip_source_application_id);
    cf_local_application_id := p.(ip_local_application_id);
    cf_deployment_id := p.(ip_deployment_id);
    cf_vault_id := p.(ip_vault_id);
    cf_control_lane_id := p.(ip_control_lane_id);
    cf_report_lane_id := p.(ip_report_lane_id);
    cf_config_version := p.(ip_config_version);
    cf_initialized_at := se.(se_unix_timestamp) |}).

(** * Control state *)

Definition process_initialize_control_state se (config_key : Key) (config : RemoteConfig)
    (p : ControlStateParams) : Result (RiskConfig * ReplayLane) :=
  require keys_eq se.(se_administrator) config.(cf_administrator) or Refused Unauthorized;
  let? _ := control_state_validate p in
  let? _ := check_version config.(cf_state_version) in
  Ok ({| rk_state_version := STATE_VERSION;
         rk_bump := (find_program_address [RISK_CONFIG_SEED; config_key] crate_ID).2;
         rk_max_remote_allocation_bps := p.(cp_max_remote_allocation_bps);
         rk_max_upward_deviation_bps := p.(cp_max_upward_deviation_bps);
         rk_max_downward_deviation_bps := p.(cp_max_downward_deviation_bps);
         rk_max_report_age := p.(cp_max_report_age);
         rk_config_version := config.(cf_config_version);
         rk_config_commitment := p.(cp_config_commitment);
         rk_initialized_at := se.(se_unix_timestamp);
         rk_last_update_at := se.(se_unix_timestamp) |},
      {| rl_state_version := STATE_VERSION;
         rl_bump := (find_program_address [REPLAY_LANE_SEED; config_key;
                       to_le 4 config.(cf_control_lane_id)] crate_ID).2;
         rl_lane_id := config.(cf_control_lane_id);
         rl_minimum_acceptable_sequence := FIRST_SEQUENCE;
         rl_highest_consumed_sequence := 0;
         rl_message_commitment := wide_zero;
         rl_mandatory_watermark_lag := p.(cp_mandatory_watermark_lag);
         rl_last_accepted_at := 0 |}).

(** * Strategy state *)

Definition check_adapter_vault se w (config : RemoteConfig) (authority : Key) : Result unit :=
  let vault := w.(w_vault) in
  require keys_eq vault.(tk_program) config.(cf_token_program) or Refused InvalidTokenProgram;
  require keys_eq vault.(tk_mint) config.(cf_asset_mint) or Refused InvalidAdapterVault;
  require keys_eq vault.(tk_owner) authority or Refused InvalidAdapterVault;
  require is_none vault.(tk_delegate) or Refused InvalidAdapterVault;
  require is_none vault.(tk_close_authority) or Refused InvalidAdapterVault;
  fail_if keys_eq se.(se_adapter_token_vault) config.(cf_custody_token_account)
    with Refused InvalidAdapterVault;
  fail_if keys_eq se.(se_adapter_token_vault) config.(cf_outbound_escrow)
    with Refused InvalidAdapterVault;
  Ok tt.

Definition process_initialize_strategy_state se w (config_key : Key) (config : RemoteConfig)
    (risk : RiskConfig) (max_remote_principal : Z) : Result (StrategyConfig * RemotePosition) :=
  require keys_eq se.(se_administrator) config.(cf_administrator) or Refused Unauthorized;
  require keys_eq se.(se_asset_mint) config.(cf_asset_mint) or Refused InvalidMint;
  let? _ := check_version config.(cf_state_version) in
  let? _ := check_version risk.(rk_state_version) in
  fail_if config.(cf_frozen) with Refused Frozen;
  fail_if max_remote_principal =? 0 with Refused InvalidStrategyConfig;
  require keys_eq se.(se_token_program) config.(cf_token_program)
    or Refused InvalidTokenProgram;
  require se.(se_adapter_executable) or Refused InvalidAdapterProgram;
  fail_if keys_eq se.(se_adapter_program) crate_ID with Refused InvalidAdapterProgram;
  require keys_eq w.(w_adapter_state).(ai_owner) se.(se_adapter_program)
    or Refused InvalidAdapterState;
  require keys_eq se.(se_adapter_state)
      (find_program_address [ADAPTER_STATE_SEED; config_key] se.(se_adapter_program)).1
    or Refused InvalidAdapterState;
  let expected_authority := (find_program_address
      [ADAPTER_AUTHORITY_SEED; se.(se_adapter_state)] se.(se_adapter_program)).1 in
  require keys_eq se.(se_adapter_authority) expected_authority
    or Refused InvalidAdapterAuthority;
  let? _ := check_adapter_vault se w config expected_authority in
  Ok ({| sc_state_version := STATE_VERSION;
         sc_bump := (strategy_config_address config_key).2;
         sc_adapter_program := se.(se_adapter_program);
         sc_adapter_state := se.(se_adapter_state);
         sc_adapter_authority := expected_authority;
         sc_adapter_token_vault := se.(se_adapter_token_vault);
         sc_max_remote_principal := max_remote_principal;
         sc_initialized_at := se.(se_unix_timestamp) |},
      {| po_state_version := STATE_VERSION;
         po_bump := (find_program_address [REMOTE_POSITION_SEED; config_key] crate_ID).2;
         po_attributed_principal := 0;
         po_deployed_principal := 0;
         po_recalled_custody := 0;
         po_unattributed_custody := 0;
         po_cumulative_realized_loss := 0;
         po_active_transfer_id := wide_zero;
         po_active_transfer_kind := KNone;
         po_active_transfer_sequence := 0;
         po_active_transfer_status := SNone;
         po_latest_completed_transfer_id := wide_zero;
         po_latest_completion_at := 0;
         po_initialized_at := se.(se_unix_timestamp) |}).

(** * The outbound lane *)

Definition process_initialize_outbound_state se (config_key : Key) (config : RemoteConfig)
    : Result OutboundLane :=
  require keys_eq se.(se_administrator) config.(cf_administrator) or Refused Unauthorized;
  let? _ := check_version config.(cf_state_version) in
  fail_if config.(cf_frozen) with Refused Frozen;
  Ok {| ol_state_version := STATE_VERSION;
        ol_bump := (find_program_address [OUTBOUND_LANE_SEED; config_key;
                      to_le 4 config.(cf_report_lane_id)] crate_ID).2;
        ol_lane_id := config.(cf_report_lane_id);
        ol_next_sequence := FIRST_OUTBOUND_SEQUENCE;
        ol_current_commitment := wide_zero;
        ol_last_publication_at := 0;
        ol_total_reports := 0;
        ol_total_recall_notifications := 0;
        ol_initialized_at := se.(se_unix_timestamp) |}.

(** The whole setup, in the order the program requires. *)
Definition launch se w (p : InitializeParams) (c : ControlStateParams)
    (max_remote_principal : Z) : Result Leg :=
  let? '(config_key, config) := process_initialize se w p in
  let? '(risk, lane) := process_initialize_control_state se config_key config c in
  let? '(strategy, position) := process_initialize_strategy_state se w config_key config risk
    max_remote_principal in
  let? outbound := process_initialize_outbound_state se config_key config in
  Ok (mkLeg config_key config risk strategy position lane outbound None ∅ ∅ ∅ ∅ ∅ w).

(** * The deployment policy *)

Definition process_initialize_deploy_authorization (env : Env) (l : Leg)
    (authority_key : Key) (authority : DeploymentAuthority) : Result Leg :=
  let? _ := require_administrator env l in
  require bool_decide (create_program_address
      [DEPLOYMENT_AUTHORITY_SEED; crate_ID; l.(l_key); [authority.(da_bump)]] verifier_ID
      = Some authority_key)
    or AccountConstraint;
  require is_none l.(l_policy) or AccountConstraint;
  let? _ := check_version l.(l_config).(cf_state_version) in
  require (authority.(da_version) =? DEPLOYMENT_PROFILE_VERSION)
      && keys_eq authority.(da_remote_leg_program) crate_ID
      && keys_eq authority.(da_remote_config) l.(l_key)
    or Refused InvalidAuthorizationPolicy;
  Ok (l <| l_policy := Some {|
        ap_state_version := STATE_VERSION;
        ap_bump := (find_program_address [DEPLOY_AUTHORIZATION_SEED; l.(l_key)] crate_ID).2;
        ap_authorization_config := authority_key;
        ap_adopted_at := env.(e_unix_timestamp) |} |>).

(** * Instructions *)

Inductive Ix :=
| IxFreeze
| IxConfigUpdate (message_bytes : list Z)
| IxAdvanceWatermark (new_minimum_sequence : Z)
| IxCloseConsumed (rent_destination : Key)
| IxReconcile
| IxAllocate (message_bytes : list Z)
| IxAttribute
| IxDeploy (amount : Z)
| IxRecall (message_bytes : list Z)
| IxSettlement (message_bytes : list Z)
| IxResolve (message_bytes : list Z)
| IxWithdraw (maximum_principal : Z)
| IxSend (maximum_amount : Z)
| IxPublishReport (epoch_id : Z)
| IxPublishRecallSent
| IxAdoptPolicy (authority_key : Key) (authority : DeploymentAuthority).

(** Runs one instruction; the messages it published come with the leg. *)
Definition exec (env : Env) (l : Leg) (ix : Ix) : Result (Leg * list BuiltMessage) :=
  let silent r := result_map (fun l' => (l', [])) r in
  let published r := result_map (fun '(l', b) => (l', [b])) r in
  match ix with
  | IxFreeze => silent (process_freeze env l)
  | IxConfigUpdate bytes => silent (handle_config_update env l bytes)
  | IxAdvanceWatermark n => silent (process_advance_replay_watermark env l n)
  | IxCloseConsumed k => silent (process_close_consumed_message env l k)
  | IxReconcile => silent (process_reconcile_custody env l)
  | IxAllocate bytes => silent (handle_allocate env l bytes)
  | IxAttribute => silent (process_attribute_allocation env l)
  | IxDeploy amount => silent (process_deploy_to_strategy env l amount)
  | IxRecall bytes => silent (handle_recall env l bytes)
  | IxSettlement bytes => published (handle_settlement env l bytes)
  | IxResolve bytes => silent (result_map fst (handle_resolve env l bytes))
  | IxWithdraw n => silent (process_withdraw_for_recall env l n)
  | IxSend n => silent (process_send_recall env l n)
  | IxPublishReport epoch => published (process_publish_remote_report env l epoch)
  | IxPublishRecallSent => published (process_publish_recall_sent env l)
  | IxAdoptPolicy k a => silent (process_initialize_deploy_authorization env l k a)
  end.

End setup.
