(* ===== verification/RemoteBooks.v ===== *)
(** The books of a remote leg: what every transfer record contributes to
    each bucket of the position, as sums over the record store, and the
    invariant [books] that ties the position, the records, the transport
    ledger and the custody balance together. *)

From Stdlib Require Import ZArith Lia.
From stdpp Require Import strings.
From S2P Require Import Prelude ProtocolLayout ProtocolTypes ProtocolCodec RemoteState.
From S2P Require Import RemoteMessage RemotePlatform RemoteLeg RemoteSettle RemoteInit.

(** * Inversion of the checked steps *)

Lemma u64_add_Ok a b c : u64_add a b = Ok c <-> c = a + b /\ a + b <= u64_max.
Proof. unfold u64_add. rewrite ok_or_Ok. apply checked_add_Some. Qed.

Lemma ledger_add_Ok a b c : ledger_add a b = Ok c <-> c = a + b /\ a + b <= u128_max.
Proof. unfold ledger_add. rewrite ok_or_Ok. apply checked_add_Some. Qed.

Lemma u64_sub_Ok a b e c : u64_sub a b e = Ok c <-> c = a - b /\ b <= a.
Proof. unfold u64_sub. rewrite ok_or_Ok. apply checked_sub_Some. Qed.

Lemma keys_eq_true a b : keys_eq a b = true <-> a = b.
Proof. unfold keys_eq. apply bool_decide_eq_true. Qed.

Lemma keys_eq_false a b : keys_eq a b = false <-> a <> b.
Proof. unfold keys_eq. apply bool_decide_eq_false. Qed.

Lemma callee_Ok {A} (o : option A) a : callee o = Ok a <-> o = Some a.
Proof. destruct o; naive_solver. Qed.

Lemma create_and_write_Ok {A} (funded : list Z -> bool) (m : Store A) (k : list Z) (v : A) m' :
  create_and_write funded m k v = Ok m' ->
  m !! k = None /\ m' = <[k := Owned v]> m.
Proof.
  unfold create_and_write. intros Hc. repeat invert_step.
  by destruct (m !! k).
Qed.

Lemma load_Ok {A} (m : Store A) k e v : load m k e = Ok v <-> m !! k = Some (Owned v).
Proof. unfold load. destruct (m !! k) as [[]|]; naive_solver. Qed.

Lemma check_available_Ok {A} (m : Store A) k e1 e2 u :
  check_available m k e1 e2 = Ok u -> m !! k = None.
Proof. unfold check_available. destruct (m !! k) as [[]|]; naive_solver. Qed.

(** One step of inverting a successful handler, the leg's own checks
    included. *)
Ltac leg_step :=
  match goal with
  | H : u64_add _ _ = Ok _ |- _ => apply u64_add_Ok in H as [-> H]
  | H : ledger_add _ _ = Ok _ |- _ => apply ledger_add_Ok in H as [-> H]
  | H : u64_sub _ _ _ = Ok _ |- _ => apply u64_sub_Ok in H as [-> H]
  | H : callee _ = Ok _ |- _ => apply callee_Ok in H
  | H : load _ _ _ = Ok _ |- _ => apply load_Ok in H
  | H : check_available _ _ _ _ = Ok _ |- _ => apply check_available_Ok in H
  | H : create_and_write _ _ _ _ = Ok _ |- _ => apply create_and_write_Ok in H as [? ->]
  | H : Ok (_, _) = Ok (_, _) |- _ => injection H as; subst
  | H : (let '(_, _) := ?x in _) = Ok _ |- _ => let E := fresh "Ep" in destruct x eqn:E
  | H : context [match ?x with (_, _) => _ end] |- _ =>
      is_var x; destruct x
  | H : keys_eq _ _ = true |- _ => apply keys_eq_true in H
  | H : keys_eq _ _ = false |- _ => apply keys_eq_false in H
  | _ => invert_step
  end.

Ltac leg_inv := repeat (leg_step; cbv beta zeta in * ); bool_to_prop.

(** * Contributions of one record *)

Definition principal_of (r : TransferRecord) : Z :=
  r.(tr_attributed_amount) - (r.(tr_custody_principal_reserved)
                              + r.(tr_strategy_principal_resolved)).

Definition recalled_of (r : TransferRecord) : Z :=
  r.(tr_custody_principal_reserved) + r.(tr_assets_withdrawn) - r.(tr_assets_sent).

Definition loss_of (r : TransferRecord) : Z := r.(tr_realized_loss).

(** Authorization an admitted allocation still waits for. *)
Definition pending_of (r : TransferRecord) : Z :=
  if bool_decide (r.(tr_transfer_kind) = KAllocate /\ r.(tr_status) = SPending)
  then r.(tr_authorized_amount) - r.(tr_attributed_amount) else 0.

Definition claim_of (r : TransferRecord) : Z :=
  if bool_decide (r.(tr_status) = SClosed) then r.(tr_authorized_amount) else 0.

Definition credit_of (r : TransferRecord) : Z :=
  if bool_decide (r.(tr_status) = SClosed) then r.(tr_attributed_amount) else 0.

Definition recovered_of (r : TransferRecord) : Z :=
  if bool_decide (r.(tr_transfer_kind) = KRecover) then r.(tr_attributed_amount) else 0.

(** The sum of one contribution over a record store. *)
Definition slot_value {A} (f : A -> Z) (s : Slot A) : Z :=
  match s with Owned a => f a | Foreign => 0 end.

Definition total {A} (f : A -> Z) (m : Store A) : Z := msum (fun _ s => slot_value f s) m.

#[global] Arguments total : simpl never.

Lemma total_empty {A} (f : A -> Z) : total f ∅ = 0.
Proof. apply msum_empty. Qed.

Lemma total_insert {A} (f : A -> Z) (m : Store A) k r :
  total f (<[k := Owned r]> m) =
  total f m - match m !! k with Some s => slot_value f s | None => 0 end + f r.
Proof. unfold total. by rewrite msum_insert. Qed.

(** Creating a record adds its contribution, rewriting one replaces it. *)
Lemma total_create {A} (f : A -> Z) (m : Store A) k r :
  m !! k = None -> total f (<[k := Owned r]> m) = total f m + f r.
Proof. intros Hk. rewrite total_insert, Hk. lia. Qed.

Lemma total_replace {A} (f : A -> Z) (m : Store A) k r r' :
  m !! k = Some (Owned r) -> total f (<[k := Owned r']> m) = total f m - f r + f r'.
Proof. intros Hk. by rewrite total_insert, Hk. Qed.

Lemma total_zero {A} (f : A -> Z) (m : Store A) :
  (forall k r, m !! k = Some (Owned r) -> f r = 0) -> total f m = 0.
Proof. intros Hf. apply msum_zero. intros k [r|] Hk; [by eapply Hf|done]. Qed.

Lemma total_lookup_le {A} (f : A -> Z) (m : Store A) k r :
  (forall k r, m !! k = Some (Owned r) -> 0 <= f r) ->
  m !! k = Some (Owned r) -> f r <= total f m.
Proof.
  intros Hf Hk. apply (msum_lookup_le (fun _ s => slot_value f s) m k (Owned r)); [|done].
  intros k' [r'|] Hk'; simpl; [by eapply Hf|done].
Qed.

(** * Well-formed records *)

Definition is_open (r : TransferRecord) : Prop :=
  r.(tr_status) = SPending \/ r.(tr_status) = SQuarantined.

(** Fields an allocation or a recovery never uses. *)
Definition no_recall_fields (r : TransferRecord) : Prop :=
  r.(tr_requested_recall_amount) = 0 /\ r.(tr_custody_principal_reserved) = 0 /\
  r.(tr_strategy_principal_resolved) = 0 /\ r.(tr_assets_withdrawn) = 0 /\
  r.(tr_assets_sent) = 0 /\ r.(tr_realized_loss) = 0.

Definition allocation_ok (r : TransferRecord) : Prop :=
  no_recall_fields r /\
  0 <= r.(tr_attributed_amount) <= r.(tr_authorized_amount) /\
  0 < r.(tr_authorized_amount) /\
  match r.(tr_status) with
  | SPending => r.(tr_attributed_amount) < r.(tr_authorized_amount)
  | SQuarantined => r.(tr_attributed_amount) = 0
  | SComplete => r.(tr_attributed_amount) = r.(tr_authorized_amount)
  | SClosed => True
  | SNone => False
  end.

Definition recall_ok (r : TransferRecord) : Prop :=
  r.(tr_authorized_amount) = 0 /\ r.(tr_attributed_amount) = 0 /\
  0 < r.(tr_requested_recall_amount) /\
  0 <= r.(tr_custody_principal_reserved) /\ 0 <= r.(tr_strategy_principal_resolved) /\
  r.(tr_custody_principal_reserved) + r.(tr_strategy_principal_resolved)
    <= r.(tr_requested_recall_amount) /\
  0 <= r.(tr_assets_withdrawn) /\ 0 <= r.(tr_realized_loss) /\
  r.(tr_assets_withdrawn) + r.(tr_realized_loss) = r.(tr_strategy_principal_resolved) /\
  0 <= r.(tr_assets_sent)
    <= r.(tr_custody_principal_reserved) + r.(tr_assets_withdrawn) /\
  match r.(tr_status) with
  | SPending => r.(tr_assets_sent) + r.(tr_realized_loss) < r.(tr_requested_recall_amount)
  | SQuarantined => r.(tr_custody_principal_reserved) = 0
                    /\ r.(tr_strategy_principal_resolved) = 0
  | SComplete => r.(tr_assets_sent) + r.(tr_realized_loss) = r.(tr_requested_recall_amount)
  | SClosed | SNone => False
  end.

Definition recovery_ok (r : TransferRecord) : Prop :=
  no_recall_fields r /\ r.(tr_status) = SComplete /\
  r.(tr_authorized_amount) = r.(tr_attributed_amount) /\ 0 <= r.(tr_attributed_amount).

Definition record_ok (r : TransferRecord) : Prop :=
  match r.(tr_transfer_kind) with
  | KAllocate => allocation_ok r
  | KRecall => recall_ok r
  | KRecover => recovery_ok r
  | KNone => False
  end.

(** The position points at this record as its open cycle. *)
Definition points_at (p : RemotePosition) (r : TransferRecord) : Prop :=
  p.(po_active_transfer_kind) = r.(tr_transfer_kind) /\
  p.(po_active_transfer_id) = r.(tr_transfer_id) /\
  p.(po_active_transfer_sequence) = r.(tr_message_sequence) /\
  p.(po_active_transfer_status) = r.(tr_status).

(** The buckets and the figures of a position that the records determine. *)
Definition buckets_nonneg (p : RemotePosition) : Prop :=
  0 <= p.(po_attributed_principal) /\ 0 <= p.(po_deployed_principal) /\
  0 <= p.(po_recalled_custody) /\ 0 <= p.(po_unattributed_custody) /\
  0 <= p.(po_cumulative_realized_loss).

Definition custody_buckets (p : RemotePosition) : Z :=
  p.(po_attributed_principal) + p.(po_recalled_custody) + p.(po_unattributed_custody).

Definition principal (p : RemotePosition) : Z :=
  p.(po_attributed_principal) + p.(po_deployed_principal).

(** Every open record is the open cycle, and the open cycle has a record. *)
Record cycle_ok (addr : Key -> Key) (p : RemotePosition) (ts : Store TransferRecord) : Prop := {
  co_only : forall k r, ts !! k = Some (Owned r) -> is_open r -> points_at p r;
  co_some : p.(po_active_transfer_kind) <> KNone ->
    exists r, ts !! addr p.(po_active_transfer_id) = Some (Owned r) /\ is_open r /\ points_at p r
}.

Record position_ok (max custody : Z) (p : RemotePosition) (ts : Store TransferRecord)
    : Prop := {
  pk_nonneg : buckets_nonneg p;
  pk_custody : custody_buckets p <= custody;
  pk_principal : principal p = total principal_of ts;
  pk_recalled : p.(po_recalled_custody) = total recalled_of ts;
  pk_loss : p.(po_cumulative_realized_loss) = total loss_of ts;
  pk_ceiling : principal p + total pending_of ts <= max
}.

(** The ledger explains every closed claim and every recovery. *)
Record ledger_ok (ts : Store TransferRecord) (lg : TransportLedger) : Prop := {
  lk_claim : lg.(tl_cumulative_closed_claim) = total claim_of ts;
  lk_credit : lg.(tl_cumulative_closed_credit) = total credit_of ts;
  lk_recovered : lg.(tl_cumulative_recovered) = total recovered_of ts;
  lk_balanced : lg.(tl_cumulative_closed_credit) + lg.(tl_impaired_outstanding)
                + lg.(tl_cumulative_recovered) = lg.(tl_cumulative_closed_claim);
  lk_impaired : 0 <= lg.(tl_impaired_outstanding)
}.

Definition records_ok (addr : Key -> Key) (ts : Store TransferRecord) : Prop :=
  forall k r, ts !! k = Some (Owned r) -> k = addr r.(tr_transfer_id) /\ record_ok r.

(** The ledger of a leg: absent until the first close. *)
Definition ledger_at (m : Store TransportLedger) (k : Key) : TransportLedger :=
  match m !! k with Some (Owned lg) => lg | _ => ledger_empty 0 0 end.

Section books.
Context `{Chain}.

Definition record_key (l : Leg) (id : Key) : Key := (transfer_address l.(l_key) id).1.

Definition leg_ledger (l : Leg) : TransportLedger :=
  ledger_at l.(l_ledger) (ledger_address l.(l_key)).1.

Record books (l : Leg) : Prop := {
  bk_records : records_ok (record_key l) l.(l_transfers);
  bk_cycle : cycle_ok (record_key l) l.(l_position) l.(l_transfers);
  bk_position : position_ok l.(l_strategy).(sc_max_remote_principal)
    l.(l_world).(w_custody).(tk_amount) l.(l_position) l.(l_transfers);
  bk_ledger : ledger_ok l.(l_transfers) (leg_ledger l)
}.

End books.

(** * Writing one record *)

Lemma records_ok_write addr ts k r :
  records_ok addr ts -> k = addr r.(tr_transfer_id) -> record_ok r ->
  records_ok addr (<[k := Owned r]> ts).
Proof.
  intros Hts Hk Hr k' r' [[<- [= <-]] | [? ?]]%lookup_insert_Some; [done|by apply Hts].
Qed.

(** Opening the first cycle. *)
Lemma cycle_ok_open addr p p' ts k r :
  cycle_ok addr p ts -> p.(po_active_transfer_kind) = KNone ->
  ts !! k = None -> k = addr r.(tr_transfer_id) -> is_open r -> points_at p' r ->
  r.(tr_transfer_kind) <> KNone -> records_ok addr ts ->
  cycle_ok addr p' (<[k := Owned r]> ts).
Proof.
  intros [Honly _] Hp Hk -> Hopen Hpts Hkind Hts. split.
  - intros k' r' [[<- [= <-]] | [? Hr']]%lookup_insert_Some Ho; [done|].
    destruct (Honly k' r' Hr' Ho) as [Hkind' _].
    destruct (Hts k' r' Hr') as [_ Hok]. unfold record_ok in Hok.
    rewrite <- Hkind', Hp in Hok. done.
  - intros _. exists r. pose proof (proj1 (proj2 Hpts)) as Hi. rewrite Hi.
    rewrite lookup_insert_eq. by split_and!.
Qed.

(** Moving the open cycle on: the record at its key stays open. *)
Lemma cycle_ok_step addr p p' ts k r0 r :
  cycle_ok addr p ts -> records_ok addr ts ->
  ts !! k = Some (Owned r0) -> is_open r0 ->
  r.(tr_transfer_id) = r0.(tr_transfer_id) -> is_open r -> points_at p' r ->
  cycle_ok addr p' (<[k := Owned r]> ts).
Proof.
  intros [Honly _] Hts Hk Ho0 Hid Ho Hpts. destruct (Hts k r0 Hk) as [-> Hok0]. split.
  - intros k' r' [[<- [= <-]] | [Hne Hr']]%lookup_insert_Some Ho'; [done|].
    exfalso. apply Hne.
    destruct (Honly _ _ Hk Ho0) as (_ & Hi0 & _), (Honly _ _ Hr' Ho') as (_ & Hi' & _).
    destruct (Hts k' r' Hr') as [-> _]. congruence.
  - intros _. exists r. pose proof (proj1 (proj2 Hpts)) as Hi. rewrite Hi.
    rewrite Hid, lookup_insert_eq. by split_and!.
Qed.

(** Ending the open cycle: the record at its key is settled. *)
Lemma cycle_ok_end addr p p' ts k r0 r :
  cycle_ok addr p ts -> records_ok addr ts ->
  ts !! k = Some (Owned r0) -> is_open r0 -> ~ is_open r ->
  p'.(po_active_transfer_kind) = KNone ->
  cycle_ok addr p' (<[k := Owned r]> ts).
Proof.
  intros [Honly _] Hts Hk Ho0 Hclosed Hp'. destruct (Hts k r0 Hk) as [-> Hok0]. split; [|done].
  intros k' r' [[<- [= <-]] | [Hne Hr']]%lookup_insert_Some Ho'; [done|].
  exfalso. apply Hne.
  destruct (Honly _ _ Hk Ho0) as (_ & Hi0 & _), (Honly _ _ Hr' Ho') as (_ & Hi' & _).
  destruct (Hts k' r' Hr') as [-> _]. congruence.
Qed.

(** Writing a settled record with no cycle open. *)
Lemma cycle_ok_settled addr p p' ts k r :
  cycle_ok addr p ts -> p.(po_active_transfer_kind) = KNone -> records_ok addr ts ->
  ~ is_open r -> p'.(po_active_transfer_kind) = KNone ->
  cycle_ok addr p' (<[k := Owned r]> ts).
Proof.
  intros [Honly _] Hp Hts Hclosed Hp'. split; [|done].
  intros k' r' [[<- [= <-]] | [Hne Hr']]%lookup_insert_Some Ho'; [done|].
  destruct (Honly _ _ Hr' Ho') as [Hkind _]. destruct (Hts _ _ Hr') as [_ Hok].
  unfold record_ok in Hok. rewrite <- Hkind, Hp in Hok. done.
Qed.

Lemma pending_of_other r : r.(tr_status) <> SPending -> pending_of r = 0.
Proof. intros Hs. unfold pending_of. rewrite bool_decide_eq_false_2; [done|naive_solver]. Qed.

(** With no cycle open nothing is pending. *)
Lemma pending_none addr p ts :
  cycle_ok addr p ts -> records_ok addr ts -> p.(po_active_transfer_kind) = KNone ->
  total pending_of ts = 0.
Proof.
  intros [Honly _] Hts Hp. apply total_zero. intros k r Hr. unfold pending_of.
  case_bool_decide as Hd; [|done]. destruct Hd as [Hkind Hst].
  destruct (Honly k r Hr (or_introl Hst)) as [Hk _]. congruence.
Qed.

(** While a cycle is open nothing else is pending. *)
Lemma pending_only addr p ts k r :
  cycle_ok addr p ts -> records_ok addr ts -> ts !! k = Some (Owned r) -> is_open r ->
  total pending_of ts = pending_of r.
Proof.
  intros [Honly _] Hts Hk Ho. destruct (Hts k r Hk) as [-> _].
  unfold total. rewrite (msum_delete _ _ _ _ Hk). simpl.
  rewrite msum_zero; [lia|]. intros k' [r'|] [Hne Hr']%lookup_delete_Some; [|done]. simpl.
  unfold pending_of. case_bool_decide as Hd; [|done]. destruct Hd as [_ Hst].
  exfalso. apply Hne.
  destruct (Honly _ _ Hk Ho) as (_ & Hi0 & _),
    (Honly _ _ Hr' (or_introl Hst)) as (_ & Hi' & _).
  destruct (Hts k' r' Hr') as [-> _]. congruence.
Qed.

(** Settled records hold no recalled custody, so it all belongs to the open
    cycle. *)
Lemma recalled_settled r : record_ok r -> ~ is_open r -> recalled_of r = 0.
Proof.
  unfold record_ok, recalled_of, is_open. intros Hok Ho.
  destruct (tr_transfer_kind r); unfold allocation_ok, recall_ok, recovery_ok, no_recall_fields in Hok;
    [done|lia| |lia].
  destruct (tr_status r); try tauto. lia.
Qed.

Lemma recalled_only addr p ts k r :
  cycle_ok addr p ts -> records_ok addr ts -> ts !! k = Some (Owned r) -> is_open r ->
  total recalled_of ts = recalled_of r.
Proof.
  intros [Honly _] Hts Hk Ho. destruct (Hts k r Hk) as [-> _].
  unfold total. rewrite (msum_delete _ _ _ _ Hk). simpl.
  rewrite msum_zero; [lia|]. intros k' [r'|] [Hne Hr']%lookup_delete_Some; [|done]. simpl.
  destruct (Hts k' r' Hr') as [-> Hok']. apply recalled_settled; [done|]. intros Ho'. apply Hne.
  destruct (Honly _ _ Hk Ho) as (_ & Hi0 & _), (Honly _ _ Hr' Ho') as (_ & Hi' & _). congruence.
Qed.

(** With no cycle open nothing is recalled. *)
Lemma recalled_none addr p ts :
  cycle_ok addr p ts -> records_ok addr ts -> p.(po_active_transfer_kind) = KNone ->
  total recalled_of ts = 0.
Proof.
  intros [Honly _] Hts Hp. apply total_zero. intros k r Hr. destruct (Hts k r Hr) as [_ Hok].
  apply recalled_settled; [done|]. intros Ho. destruct (Honly k r Hr Ho) as [Hk _].
  unfold record_ok in Hok. by rewrite <- Hk, Hp in Hok.
Qed.
