(* ===== verification/RemoteEffects.v ===== *)
(** What each handler of the remote leg does when it succeeds, as
    equations on the leg after the call.  The theorems about the leg are
    proved from these lemmas and never unfold a handler again. *)

From Stdlib Require Import ZArith Lia.
From stdpp Require Import strings.
From S2P Require Import Prelude ProtocolLayout ProtocolTypes ProtocolCodec ProtocolWire.
From S2P Require Import ProtocolBodies ProtocolMessages RemoteState RemoteMessage.
From S2P Require Import RemotePlatform RemoteLeg RemoteSettle RemoteInit RemoteBooks.

(** * Buckets *)

Lemma accounted_Ok p a :
  accounted_custody p = Ok a -> a = custody_buckets p /\ custody_buckets p <= u64_max.
Proof. unfold accounted_custody, custody_buckets. intros Ha. leg_inv. lia. Qed.

Lemma accepted_Ok p a : accepted_principal p = Ok a -> a = principal p.
Proof. unfold accepted_principal, principal. intros Ha. by leg_inv. Qed.

Lemma position_same p : p <| po_unattributed_custody := p.(po_unattributed_custody) + 0 |> = p.
Proof. destruct p. cbn. by rewrite Z.add_0_r. Qed.

Lemma reconcile_Ok p c p' s :
  reconcile p c = Ok (p', s) ->
  0 <= s /\ s = c - custody_buckets p /\
  p' = p <| po_unattributed_custody := p.(po_unattributed_custody) + s |>.
Proof.
  unfold reconcile. intros Hr. invert_step. apply accounted_Ok in E as [-> _].
  invert_step. bool_to_prop. leg_step. leg_step.
  destruct (Z.ltb_spec 0 (c - custody_buckets p)) as [Hlt|Hge]; leg_inv; [split_and!; lia || done|].
  replace (c - custody_buckets p') with 0 by lia. rewrite position_same. split_and!; lia || done.
Qed.

Lemma check_identity_Ok p c u : check_identity p c = Ok u -> c = custody_buckets p.
Proof. unfold check_identity. intros Hc. leg_inv. by apply accounted_Ok in E as [<- _]. Qed.

Lemma check_deployed_Ok p a u : check_deployed p a = Ok u -> a = p.(po_deployed_principal).
Proof. unfold check_deployed. intros Hc. by leg_inv. Qed.

Lemma no_active_Ok p u : check_no_active_transfer p = Ok u -> p.(po_active_transfer_kind) = KNone.
Proof. unfold check_no_active_transfer, has_active_transfer. intros Hc. by leg_inv. Qed.

Lemma narrow_Ok a b : narrow_amount a = Ok b -> b = a /\ a <= u64_max.
Proof. unfold narrow_amount. intros Hn. by leg_inv. Qed.

Lemma check_active_Ok r k p u :
  check_active r k p = Ok u ->
  r.(tr_transfer_kind) = k /\ r.(tr_status) = SPending /\ p.(po_active_transfer_kind) = k /\
  p.(po_active_transfer_id) = r.(tr_transfer_id).
Proof. unfold check_active. intros Hc. by leg_inv. Qed.

Lemma allocation_shape_Ok r u : check_allocation_shape r = Ok u -> no_recall_fields r.
Proof.
  unfold check_allocation_shape, no_recall_fields. intros Hc. leg_inv. simpl in E.
  bool_to_prop. by split_and!.
Qed.

Lemma recall_shape_Ok r u :
  check_recall_shape r = Ok u -> r.(tr_authorized_amount) = 0 /\ r.(tr_attributed_amount) = 0.
Proof. unfold check_recall_shape. intros Hc. by leg_inv. Qed.

Lemma unresolved_Ok r a :
  unresolved_recall_principal r = Ok a ->
  a = r.(tr_requested_recall_amount)
      - (r.(tr_custody_principal_reserved) + r.(tr_strategy_principal_resolved)) /\ 0 <= a.
Proof. unfold unresolved_recall_principal. intros Hu. leg_inv. lia. Qed.

Lemma attribute_arrived_Ok r p n r' p' :
  attribute_arrived r p n = Ok (r', p') ->
  n <= p.(po_unattributed_custody) /\
  r' = r <| tr_attributed_amount := r.(tr_attributed_amount) + n |> /\
  p' = p <| po_unattributed_custody := p.(po_unattributed_custody) - n |>
         <| po_attributed_principal := p.(po_attributed_principal) + n |>.
Proof. unfold attribute_arrived. intros Ha. by leg_inv. Qed.

Lemma reserve_Ok r p r' p' n :
  reserve_recall_custody r p = Ok (r', p', n) ->
  n = Z.min r.(tr_requested_recall_amount) p.(po_attributed_principal) /\
  r' = r <| tr_custody_principal_reserved := n |> /\
  p' = p <| po_attributed_principal := p.(po_attributed_principal) - n |>
         <| po_recalled_custody := p.(po_recalled_custody) + n |>.
Proof. unfold reserve_recall_custody. intros Hr. by leg_inv. Qed.

(** A recall settles exactly when what was sent and what was lost make up
    the request. *)
Lemma settle_Ok r p now r' p' b :
  settle_recall r p now = Ok (r', p', b) ->
  r.(tr_assets_sent) + r.(tr_realized_loss) <= r.(tr_requested_recall_amount) /\
  if b then
    r.(tr_assets_sent) + r.(tr_realized_loss) = r.(tr_requested_recall_amount) /\
    r' = r <| tr_status := SComplete |> <| tr_completed_at := now |> /\
    p' = complete_transfer p r.(tr_transfer_id) now
  else
    r.(tr_assets_sent) + r.(tr_realized_loss) < r.(tr_requested_recall_amount) /\
    r' = r /\ p' = p.
Proof.
  unfold settle_recall. intros Hs. leg_inv.
  destruct (negb _) eqn:Hb; leg_inv; cbv iota; split_and!; try lia; done.
Qed.

(** * Consuming a message *)

Section effects.
Context `{Chain}.
Implicit Types (l : Leg) (env : Env).

(** The lane, the message and the record of one consumed message. *)
Record consumes env l (bytes : list Z) (class : MessageClass) l' (v : ValidatedMessage)
    : Prop := {
  cs_signer : env.(e_signer) = l.(l_config).(cf_transport_verifier);
  cs_lane_id : l.(l_lane).(rl_lane_id) = l.(l_config).(cf_control_lane_id);
  cs_now : 0 <= env.(e_unix_timestamp);
  cs_valid : validate_inbound keccak bytes class l.(l_config) l.(l_lane)
    env.(e_unix_timestamp) = Ok v;
  cs_key : env.(e_consumed_message)
    = (consumed_address l.(l_key) l.(l_config).(cf_control_lane_id)
         v.(vm_message).(m_header).(h_sequence)).1;
  cs_fresh_slot : l.(l_consumed) !! env.(e_consumed_message) = None;
  cs_record : l'.(l_consumed) = <[env.(e_consumed_message) := Owned {|
      cm_state_version := STATE_VERSION;
      cm_bump := (consumed_address l.(l_key) l.(l_config).(cf_control_lane_id)
                    v.(vm_message).(m_header).(h_sequence)).2;
      cm_message_class := class;
      cm_lane_id := l.(l_config).(cf_control_lane_id);
      cm_sequence := v.(vm_message).(m_header).(h_sequence);
      cm_message_id := v.(vm_message_id) |}]> l.(l_consumed);
  cs_lane : l'.(l_lane) = lane_consume l.(l_lane) v.(vm_message).(m_header).(h_sequence)
    v.(vm_message_id) env.(e_unix_timestamp)
}.

Lemma require_verifier_Ok env l u :
  require_verifier env l = Ok u -> env.(e_signer) = l.(l_config).(cf_transport_verifier).
Proof. unfold require_verifier. intros Hr. by leg_inv. Qed.

Lemma check_control_lane_Ok l u :
  check_control_lane l = Ok u -> l.(l_lane).(rl_lane_id) = l.(l_config).(cf_control_lane_id).
Proof. unfold check_control_lane. intros Hr. by leg_inv. Qed.

Lemma current_time_Ok t now : current_time t = Ok now -> now = t /\ 0 <= t.
Proof. unfold current_time. intros Hr. by leg_inv. Qed.

Lemma check_consumed_slot_Ok env l s c :
  check_consumed_slot env l s = Ok c ->
  c = consumed_address l.(l_key) l.(l_config).(cf_control_lane_id) s /\
  env.(e_consumed_message) = c.1 /\ l.(l_consumed) !! env.(e_consumed_message) = None.
Proof. unfold check_consumed_slot. intros Hc. leg_inv. by split_and!. Qed.

Lemma check_transfer_key_Ok env l id b :
  check_transfer_key env l id = Ok b ->
  env.(e_transfer_record) = record_key l id /\ b = (transfer_address l.(l_key) id).2.
Proof. unfold check_transfer_key, record_key. intros Hc. by leg_inv. Qed.

Lemma consume_Ok env l class bump s id l' :
  consume env l class bump s id = Ok l' ->
  l' = l <| l_consumed := <[env.(e_consumed_message) := Owned
              (mkConsumedMessage STATE_VERSION bump class l.(l_config).(cf_control_lane_id)
                 s id)]> l.(l_consumed) |>
         <| l_lane := lane_consume l.(l_lane) s id env.(e_unix_timestamp) |>.
Proof. unfold consume. intros Hc. by leg_inv. Qed.

Lemma validate_inbound_decode bytes class c lane now v :
  validate_inbound keccak bytes class c lane now = Ok v ->
  decode_message keccak bytes = Ok v.(vm_message) /\
  message_type v.(vm_message) = class_message_type class /\
  v.(vm_fresh) = is_fresh v.(vm_message).(m_header) now.
Proof.
  unfold validate_inbound, remote_decode, lift_decode. intros Hv.
  leg_inv. destruct (decode_message keccak bytes); [|discriminate]. leg_inv. simpl in *.
  by split_and!.
Qed.

(** A body that decoded has the widths of its fields. *)
Lemma validate_inbound_typed bytes class c lane now v :
  is_bytes bytes -> validate_inbound keccak bytes class c lane now = Ok v ->
  message_typed v.(vm_message).
Proof.
  intros Hb [Hd _]%validate_inbound_decode.
  by apply (decode_message_Ok keccak) in Hd as [Ht _].
Qed.

End effects.

(** Applies the specification of every check in the context. *)
Ltac leg_spec :=
  match goal with
  | H : require_verifier _ _ = Ok _ |- _ => apply require_verifier_Ok in H
  | H : check_control_lane _ = Ok _ |- _ => apply check_control_lane_Ok in H
  | H : current_time _ = Ok _ |- _ => apply current_time_Ok in H as [-> H]
  | H : check_transfer_key _ _ _ = Ok _ |- _ => apply check_transfer_key_Ok in H as [H ->]
  | H : check_no_active_transfer _ = Ok _ |- _ => apply no_active_Ok in H
  | H : narrow_amount _ = Ok _ |- _ => apply narrow_Ok in H as [-> H]
  | H : check_consumed_slot _ _ _ = Ok _ |- _ =>
      let K := fresh "Hckey" in apply check_consumed_slot_Ok in H as (-> & K & H)
  | H : consume _ _ _ _ _ _ = Ok _ |- _ => apply consume_Ok in H as ->
  | H : check_active _ _ _ = Ok _ |- _ => apply check_active_Ok in H as (? & ? & ? & ?)
  | H : check_allocation_shape _ = Ok _ |- _ => apply allocation_shape_Ok in H
  | H : check_recall_shape _ = Ok _ |- _ => apply recall_shape_Ok in H as [? ?]
  | H : reconcile _ _ = Ok (_, _) |- _ => apply reconcile_Ok in H as (? & ? & ->)
  | H : attribute_arrived _ _ _ = Ok (_, _) |- _ =>
      apply attribute_arrived_Ok in H as (? & -> & ->)
  | H : reserve_recall_custody _ _ = Ok (_, _, _) |- _ => apply reserve_Ok in H as (-> & -> & ->)
  | H : check_identity _ _ = Ok _ |- _ => apply check_identity_Ok in H
  | H : check_deployed _ _ = Ok _ |- _ => apply check_deployed_Ok in H
  | H : accepted_principal _ = Ok _ |- _ => apply accepted_Ok in H as ->
  | H : unresolved_recall_principal _ = Ok _ |- _ => apply unresolved_Ok in H as [-> H]
  end.

Ltac leg_steps := repeat (first [leg_spec | leg_step]; cbv beta zeta in * ).

(** Names the validated message of a handler and opens its body. *)
Ltac open_message E v Hv body Hbody :=
  match goal with H : validate_inbound _ _ _ _ _ _ = Ok ?a |- _ =>
    rename a into v, H into Hv end;
  destruct (m_body (vm_message v)) as [body|body|body|body|body|body|body] eqn:Hbody;
  try discriminate E.

Section handlers.
Context `{Chain}.
Implicit Types (l : Leg) (env : Env).

(** The leg after it consumed the validated message [v]. *)
Definition consumed_leg env l (class : MessageClass) (v : ValidatedMessage) : Leg :=
  let sequence := v.(vm_message).(m_header).(h_sequence) in
  l <| l_consumed := <[env.(e_consumed_message) := Owned
         (mkConsumedMessage STATE_VERSION
            (consumed_address l.(l_key) l.(l_config).(cf_control_lane_id) sequence).2 class
            l.(l_config).(cf_control_lane_id) sequence v.(vm_message_id))]> l.(l_consumed) |>
    <| l_lane := lane_consume l.(l_lane) sequence v.(vm_message_id) env.(e_unix_timestamp) |>.

(** * Allocation *)

Lemma allocation_fits_Ok p s a b :
  allocation_fits p s a = Ok b ->
  b = true -> principal p + a <= s.(sc_max_remote_principal).
Proof.
  unfold allocation_fits. intros Hf ->. leg_inv. apply accepted_Ok in E as ->. done.
Qed.

(** The record and the position one allocation opens. *)
Definition allocation_record env l (v : ValidatedMessage) (body : AllocateBody)
    (q : option QuarantineReason) : TransferRecord :=
  let r := new_allocation (transfer_address l.(l_key) body.(al_transfer_id)).2
    body.(al_transfer_id) v.(vm_message).(m_header).(h_sequence) body.(al_amount)
    body.(al_minimum_destination_amount) body.(al_expected_source_balance)
    env.(e_unix_timestamp) in
  if is_none q then r else quarantined r.

Definition allocation_position l (v : ValidatedMessage) (body : AllocateBody)
    (q : option QuarantineReason) : RemotePosition :=
  (if is_none q then open_transfer else quarantine_transfer) l.(l_position) KAllocate
    body.(al_transfer_id) v.(vm_message).(m_header).(h_sequence).

Lemma handle_allocate_Ok env l bytes l' :
  is_bytes bytes -> handle_allocate env l bytes = Ok l' ->
  exists v body q,
    consumes env l bytes ClassAllocate l' v /\
    v.(vm_message).(m_body) = BAllocate body /\
    0 < body.(al_amount) <= u64_max /\
    l.(l_position).(po_active_transfer_kind) = KNone /\
    env.(e_transfer_record) = record_key l body.(al_transfer_id) /\
    l.(l_transfers) !! env.(e_transfer_record) = None /\
    (q = None -> v.(vm_fresh) = true /\ l.(l_config).(cf_frozen) = false /\
      principal l.(l_position) + body.(al_amount) <= l.(l_strategy).(sc_max_remote_principal)) /\
    l' = (consumed_leg env l ClassAllocate v)
           <| l_transfers := <[env.(e_transfer_record) :=
                Owned (allocation_record env l v body q)]> l.(l_transfers) |>
           <| l_position := allocation_position l v body q |>.
Proof.
  intros Hb H0. unfold handle_allocate in H0. leg_steps.
  open_message H0 v Hv body Hbody.
  leg_steps.
  match goal with H : (if negb (vm_fresh _) then _ else _) = Ok ?a |- _ =>
    rename a into q, H into Hq end.
  pose proof (validate_inbound_typed _ _ _ _ _ _ Hb Hv) as [_ Ht].
  rewrite Hbody in Ht. destruct Ht as (_ & [Hpos _] & _). bool_to_prop.
  exists v, body, q.
  assert (Hl' : l' = (consumed_leg env l ClassAllocate v)
           <| l_transfers := <[e_transfer_record env :=
                Owned (allocation_record env l v body q)]> (l_transfers l) |>
           <| l_position := allocation_position l v body q |>).
  { unfold allocation_record, allocation_position.
    destruct q; cbn [is_none] in *; injection H0 as <-; reflexivity. }
  clear H0. split_and!; try done; try lia.
  - subst l'. by split.
  - intros ->. destruct (vm_fresh v); [|by simplify_eq/=]. simpl in Hq.
    destruct (cf_frozen _); [by simplify_eq/=|]. invert_step.
    match goal with Hf : allocation_fits _ _ _ = Ok ?b |- _ =>
      destruct b; [|by simplify_eq/=]; apply allocation_fits_Ok in Hf; [|done] end.
    done.
Qed.

(** * Attribution *)

(** The position after reconciling [s] units of surplus. *)
Definition reconciled (p : RemotePosition) (s : Z) : RemotePosition :=
  p <| po_unattributed_custody := p.(po_unattributed_custody) + s |>.

(** The position after [n] reconciled units became principal. *)
Definition attributed (p : RemotePosition) (s n : Z) : RemotePosition :=
  (reconciled p s)
    <| po_unattributed_custody := (reconciled p s).(po_unattributed_custody) - n |>
    <| po_attributed_principal := (reconciled p s).(po_attributed_principal) + n |>.

Definition attributed_record (r : TransferRecord) (n : Z) : TransferRecord :=
  r <| tr_attributed_amount := r.(tr_attributed_amount) + n |>.

(** Consent to act on a frozen leg. *)
Definition consented env l : Prop :=
  l.(l_config).(cf_frozen) = true ->
  env.(e_guardian) = Some l.(l_config).(cf_emergency_guardian).

Lemma consented_Ok env l u u' :
  require_guardian_key env l = Ok u -> check_frozen_gate env l = Ok u' -> consented env l.
Proof.
  unfold require_guardian_key, check_frozen_gate, consented. intros Hg Hf Hz.
  rewrite Hz in Hf. destruct (e_guardian env); simpl in *; leg_inv; congruence.
Qed.

Lemma typed_record_Ok env l r :
  typed_transfer_record env l = Ok r -> l.(l_transfers) !! env.(e_transfer_record) = Some (Owned r).
Proof.
  unfold typed_transfer_record. destruct (_ !! _) as [[r0|]|]; [|done..]. intros Hr. by leg_inv.
Qed.

Lemma process_attribute_Ok env l l' :
  process_attribute_allocation env l = Ok l' ->
  exists r s n,
    l.(l_transfers) !! env.(e_transfer_record) = Some (Owned r) /\
    consented env l /\
    r.(tr_transfer_kind) = KAllocate /\ r.(tr_status) = SPending /\
    s = l.(l_world).(w_custody).(tk_amount) - custody_buckets l.(l_position) /\ 0 <= s /\
    n = Z.min (r.(tr_authorized_amount) - r.(tr_attributed_amount))
              (l.(l_position).(po_unattributed_custody) + s) /\
    n <> 0 /\ r.(tr_attributed_amount) <= r.(tr_authorized_amount) /\
    let r' := attributed_record r n in
    let p' := attributed l.(l_position) s n in
    let now := env.(e_unix_timestamp) in
    let done := r'.(tr_attributed_amount) =? r'.(tr_authorized_amount) in
    l' = l <| l_transfers := <[env.(e_transfer_record) := Owned
                (if done then r' <| tr_status := SComplete |> <| tr_completed_at := now |>
                 else r')]> l.(l_transfers) |>
           <| l_position := if done then complete_transfer p' r'.(tr_transfer_id) now
                            else p' |>.
Proof.
  intros H0. unfold process_attribute_allocation, outstanding_allocation in H0. leg_steps.
  match goal with Hr : typed_transfer_record _ _ = Ok ?r0 |- _ =>
    apply typed_record_Ok in Hr; exists r0 end.
  match goal with Hg : require_guardian_key _ _ = Ok _, Hf : check_frozen_gate _ _ = Ok _ |- _ =>
    pose proof (consented_Ok _ _ _ _ Hg Hf) end.
  do 2 eexists. split_and!; try done; [bool_to_prop; done|].
  cbv zeta. unfold attributed_record, attributed, reconciled, store in *.
  match goal with Hp : (if ?b then _ else _) = (_, _) |- _ =>
    destruct b eqn:Hd; injection Hp as <- <- end;
  match goal with |- context [if ?c then _ else _] =>
    match type of Hd with _ = ?v => replace c with v by (symmetry; exact Hd) end end;
  reflexivity.
Qed.

(** * Recall *)

(** The position after [n] units of attributed custody were set aside. *)
Definition reserved_position (p : RemotePosition) (n : Z) : RemotePosition :=
  p <| po_attributed_principal := p.(po_attributed_principal) - n |>
    <| po_recalled_custody := p.(po_recalled_custody) + n |>.

Definition recall_record env l (v : ValidatedMessage) (body : RecallBody) : TransferRecord :=
  let r := new_recall (transfer_address l.(l_key) body.(rc_transfer_id)).2
    body.(rc_transfer_id) v.(vm_message).(m_header).(h_sequence)
    body.(rc_requested_amount) body.(rc_minimum_return_amount) 0 env.(e_unix_timestamp) in
  if v.(vm_fresh)
  then r <| tr_custody_principal_reserved :=
              Z.min body.(rc_requested_amount) l.(l_position).(po_attributed_principal) |>
  else quarantined r.

Definition recall_position l (v : ValidatedMessage) (body : RecallBody) : RemotePosition :=
  let sequence := v.(vm_message).(m_header).(h_sequence) in
  if v.(vm_fresh)
  then open_transfer (reserved_position l.(l_position)
         (Z.min body.(rc_requested_amount) l.(l_position).(po_attributed_principal)))
         KRecall body.(rc_transfer_id) sequence
  else quarantine_transfer l.(l_position) KRecall body.(rc_transfer_id) sequence.

Lemma handle_recall_Ok env l bytes l' :
  is_bytes bytes -> handle_recall env l bytes = Ok l' ->
  exists v body,
    consumes env l bytes ClassRecall l' v /\
    v.(vm_message).(m_body) = BRecall body /\
    consented env l /\
    0 < body.(rc_requested_amount) <= u64_max /\
    l.(l_position).(po_active_transfer_kind) = KNone /\
    env.(e_transfer_record) = record_key l body.(rc_transfer_id) /\
    l.(l_transfers) !! env.(e_transfer_record) = None /\
    (v.(vm_fresh) = true -> body.(rc_requested_amount) <= principal l.(l_position)) /\
    l' = (consumed_leg env l ClassRecall v)
           <| l_transfers := <[env.(e_transfer_record) :=
                Owned (recall_record env l v body)]> l.(l_transfers) |>
           <| l_position := recall_position l v body |>.
Proof.
  intros Hb H0. unfold handle_recall in H0. leg_steps.
  open_message H0 v Hv body Hbody. leg_steps.
  match goal with Hg : require_guardian_key _ _ = Ok _, Hf : check_frozen_gate _ _ = Ok _ |- _ =>
    pose proof (consented_Ok _ _ _ _ Hg Hf) end.
  pose proof (validate_inbound_typed _ _ _ _ _ _ Hb Hv) as [_ Ht].
  rewrite Hbody in Ht. destruct Ht as (_ & [Hpos _] & _). bool_to_prop.
  exists v, body.
  assert (Hl' : l' = (consumed_leg env l ClassRecall v)
           <| l_transfers := <[e_transfer_record env :=
                Owned (recall_record env l v body)]> (l_transfers l) |>
           <| l_position := recall_position l v body |>).
  { unfold recall_record, recall_position.
    destruct (vm_fresh v); cbn [negb] in *; leg_steps; reflexivity. }
  clear H0. split_and!; try done; try lia.
  - subst l'. by split.
  - intros Hf. rewrite Hf in *. leg_steps. by bool_to_prop.
Qed.

(** * Resolution *)

Lemma check_quarantined_Ok r p u :
  check_quarantined r p = Ok u -> r.(tr_status) = SQuarantined /\
  r.(tr_transfer_kind) = p.(po_active_transfer_kind) /\
  r.(tr_transfer_id) = p.(po_active_transfer_id) /\
  r.(tr_message_sequence) = p.(po_active_transfer_sequence).
Proof. unfold check_quarantined. intros Hc. by leg_inv. Qed.

(** The leg after its quarantined transfer was admitted. *)
Definition admitted_leg env l (r : TransferRecord) : Leg :=
  let n := Z.min r.(tr_requested_recall_amount) l.(l_position).(po_attributed_principal) in
  let recall := bool_decide (r.(tr_transfer_kind) = KRecall) in
  l <| l_position := admit_transfer (if recall then reserved_position l.(l_position) n
                                     else l.(l_position)) |>
    <| l_transfers := <[env.(e_transfer_record) := Owned
         ((if recall then r <| tr_custody_principal_reserved := n |> else r)
            <| tr_status := SPending |>)]> l.(l_transfers) |>.

(** The terms under which a quarantined transfer may run. *)
Definition admissible l (r : TransferRecord) : Prop :=
  (r.(tr_transfer_kind) = KAllocate /\
   principal l.(l_position) + r.(tr_authorized_amount)
     <= l.(l_strategy).(sc_max_remote_principal)) \/
  (r.(tr_transfer_kind) = KRecall /\
   r.(tr_requested_recall_amount) <= principal l.(l_position)).

Lemma admit_blocked_None l r : admit_blocked l r = Ok None -> admissible l r.
Proof.
  unfold admit_blocked, admissible. destruct (tr_transfer_kind r); try done; intros Hb;
    leg_steps.
  - match goal with Hf : allocation_fits _ _ _ = Ok ?b |- _ =>
      destruct b; [|by simplify_eq/=]; apply allocation_fits_Ok in Hf; [|done] end. by left.
  - right. destruct (_ <? _) eqn:E in *; [by simplify_eq/=|]. bool_to_prop. split; [done|lia].
Qed.

Lemma admit_Ok env l l1 ad :
  admit_quarantined env l = Ok (l1, ad) ->
  l1 = l \/
  exists r, l.(l_transfers) !! env.(e_transfer_record) = Some (Owned r) /\
    r.(tr_status) = SQuarantined /\
    r.(tr_transfer_kind) = l.(l_position).(po_active_transfer_kind) /\
    r.(tr_transfer_id) = l.(l_position).(po_active_transfer_id) /\
    r.(tr_message_sequence) = l.(l_position).(po_active_transfer_sequence) /\
    check_frozen_gate env l = Ok tt /\ admissible l r /\ l1 = admitted_leg env l r.
Proof.
  unfold admit_quarantined. intros H0. leg_steps.
  match goal with Hb : admit_blocked _ _ = Ok ?b |- _ =>
    destruct b; [left; by simplify_eq/=|] end.
  right. repeat invert_step.
  match goal with Hq : check_quarantined ?r _ = Ok _ |- _ =>
    apply check_quarantined_Ok in Hq as (? & ? & ? & ?); exists r end.
  match goal with Hf : check_frozen_gate _ _ = Ok ?u |- _ => destruct u end.
  split_and!; try done; [by apply admit_blocked_None|].
  unfold admitted_leg, store in *. case_bool_decide; leg_steps; reflexivity.
Qed.

Lemma handle_resolve_Ok env l bytes l' ad :
  handle_resolve env l bytes = Ok (l', ad) ->
  exists v body l1,
    consumes env l bytes ClassResolve l' v /\
    v.(vm_message).(m_body) = BResolve body /\
    l' = consumed_leg env l1 ClassResolve v /\
    (l1 = l \/
     exists r, l.(l_transfers) !! env.(e_transfer_record) = Some (Owned r) /\
       r.(tr_status) = SQuarantined /\
       r.(tr_transfer_kind) = l.(l_position).(po_active_transfer_kind) /\
       r.(tr_transfer_id) = l.(l_position).(po_active_transfer_id) /\
       r.(tr_message_sequence) = l.(l_position).(po_active_transfer_sequence) /\
       consented env l /\ v.(vm_fresh) = true /\ admissible l r /\ l1 = admitted_leg env l r).
Proof.
  intros H0. unfold handle_resolve in H0. leg_steps.
  open_message H0 v Hv body Hbody. leg_steps.
  match goal with Ha : (if negb (vm_fresh v) then _ else _) = Ok (?a, _) |- _ =>
    rename a into l1, Ha into Had end.
  assert (Hl1 : l1 = l \/ vm_fresh v = true /\ exists ad, admit_quarantined env l = Ok (l1, ad)).
  { destruct (vm_fresh v); simpl in Had; [|left; by simplify_eq].
    destruct (holds_quarantined _ _ _); simpl in Had; [right; eauto|left; by simplify_eq]. }
  clear Had.
  assert (Hcase : l1 = l \/
     exists r, l.(l_transfers) !! env.(e_transfer_record) = Some (Owned r) /\
       r.(tr_status) = SQuarantined /\
       r.(tr_transfer_kind) = l.(l_position).(po_active_transfer_kind) /\
       r.(tr_transfer_id) = l.(l_position).(po_active_transfer_id) /\
       r.(tr_message_sequence) = l.(l_position).(po_active_transfer_sequence) /\
       consented env l /\ v.(vm_fresh) = true /\ admissible l r /\ l1 = admitted_leg env l r).
  { destruct Hl1 as [->|(Hf & ad1 & [->|(r & ? & ? & ? & ? & ? & ? & ? & ->)]%admit_Ok)]; eauto.
    right. exists r. split_and!; try done. by eapply consented_Ok. }
  exists v, body, l1. split_and!; try done.
  - destruct Hcase as [->|(r & _ & _ & _ & _ & _ & _ & _ & _ & ->)]; by split.
  - destruct Hcase as [->|(r & _ & _ & _ & _ & _ & _ & _ & _ & ->)]; reflexivity.
Qed.

(** * Publication *)

(** One published message: its record at the next sequence of the lane and
    the lane after it. *)
Record publishes env l (t : ReportType) (b : BuiltMessage) l' : Prop := {
  pb_key : env.(e_report_record)
    = (report_address l.(l_key) l.(l_outbound).(ol_lane_id) l.(l_outbound).(ol_next_sequence)).1;
  pb_slot : l.(l_reports) !! env.(e_report_record) = None;
  pb_record : exists r, l'.(l_reports) = <[env.(e_report_record) := Owned r]> l.(l_reports) /\
    r.(rr_report_type) = t /\ r.(rr_lane_id) = l.(l_outbound).(ol_lane_id) /\
    r.(rr_sequence) = l.(l_outbound).(ol_next_sequence) /\
    r.(rr_message_id) = b.(bm_message_id) /\
    r.(rr_previous_commitment) = b.(bm_previous_commitment) /\
    r.(rr_next_commitment) = b.(bm_next_commitment);
  pb_lane : advance l.(l_outbound) t b.(bm_next_commitment) env.(e_unix_timestamp)
    = Ok l'.(l_outbound)
}.

Lemma create_report_record_Ok env l t b id epoch l' :
  create_report_record env l t b id epoch = Ok l' ->
  env.(e_report_record) = (report_address l.(l_key) l.(l_outbound).(ol_lane_id)
                             l.(l_outbound).(ol_next_sequence)).1 /\
  l.(l_reports) !! env.(e_report_record) = None /\
  exists r, l' = l <| l_reports := <[env.(e_report_record) := Owned r]> l.(l_reports) |> /\
    r.(rr_report_type) = t /\ r.(rr_lane_id) = l.(l_outbound).(ol_lane_id) /\
    r.(rr_sequence) = l.(l_outbound).(ol_next_sequence) /\
    r.(rr_message_id) = b.(bm_message_id) /\
    r.(rr_previous_commitment) = b.(bm_previous_commitment) /\
    r.(rr_next_commitment) = b.(bm_next_commitment).
Proof.
  unfold create_report_record. intros H0.
  destruct (report_address _ _ _) as [address bump] eqn:Ha. leg_steps.
  split_and!; try done. eexists. by split_and!.
Qed.

Lemma advance_outbound_Ok env l t b l' :
  advance_outbound env l t b = Ok l' ->
  exists lane, advance l.(l_outbound) t b.(bm_next_commitment) env.(e_unix_timestamp) = Ok lane /\
    l' = l <| l_outbound := lane |>.
Proof. unfold advance_outbound. intros H0. leg_inv. eauto. Qed.

(** Building a message derives every identifier from the encoded bytes. *)
Lemma build_Ok c body n b :
  build keccak c body n = Ok b ->
  exists h, outbound_header c = Ok h /\
    encode_message keccak (mkMessage h body) = Ok (em_as_bytes b.(bm_encoded)) /\
    length (em_as_bytes b.(bm_encoded)) = n /\
    b.(bm_message_id) = message_id keccak (em_as_bytes b.(bm_encoded)) /\
    b.(bm_previous_commitment) = c.(oc_lane).(ol_current_commitment) /\
    b.(bm_next_commitment)
      = next_commitment keccak c.(oc_lane).(ol_current_commitment) b.(bm_message_id).
Proof.
  unfold build, lift_encode, remote_message_id. intros H0. leg_steps.
  destruct (message_encode keccak _) as [enc|] eqn:He; [|discriminate]. leg_steps.
  eexists. split; [done|]. unfold encode_message. rewrite He. simpl.
  match goal with Hl : (_ =? _)%nat = true |- _ => apply Nat.eqb_eq in Hl as <- end.
  by split_and!.
Qed.

(** * Settlement *)

Lemma check_balanced_Ok lg u :
  check_balanced lg = Ok u ->
  lg.(tl_cumulative_closed_credit) + lg.(tl_impaired_outstanding)
    + lg.(tl_cumulative_recovered) = lg.(tl_cumulative_closed_claim).
Proof. unfold check_balanced. intros Hc. by leg_inv. Qed.

Lemma record_close_Ok lg claim credited seq lg' s :
  record_close lg claim credited seq = Ok (lg', s) ->
  s = claim - credited /\ 0 <= s /\
  lg'.(tl_cumulative_closed_claim) = lg.(tl_cumulative_closed_claim) + claim /\
  lg'.(tl_cumulative_closed_credit) = lg.(tl_cumulative_closed_credit) + credited /\
  lg'.(tl_impaired_outstanding) = lg.(tl_impaired_outstanding) + s /\
  lg'.(tl_cumulative_recovered) = lg.(tl_cumulative_recovered) /\
  lg'.(tl_state_version) = lg.(tl_state_version).
Proof. unfold record_close. intros Hc. leg_inv. split_and!; try done. lia. Qed.

Lemma record_recovery_Ok lg credited lg' :
  record_recovery lg credited = Ok lg' ->
  credited <= lg.(tl_impaired_outstanding) /\
  lg'.(tl_impaired_outstanding) = lg.(tl_impaired_outstanding) - credited /\
  lg'.(tl_cumulative_recovered) = lg.(tl_cumulative_recovered) + credited /\
  lg'.(tl_cumulative_closed_claim) = lg.(tl_cumulative_closed_claim) /\
  lg'.(tl_cumulative_closed_credit) = lg.(tl_cumulative_closed_credit) /\
  lg'.(tl_state_version) = lg.(tl_state_version).
Proof. unfold record_recovery. intros Hc. leg_inv. by split_and!. Qed.

(** The three ways an allocation can be closed. *)
Inductive close_case l (r : TransferRecord) (now : Z) : TransferRecord -> RemotePosition -> Prop :=
| close_pending s n :
    r.(tr_status) = SPending ->
    l.(l_position).(po_active_transfer_kind) = KAllocate ->
    s = l.(l_world).(w_custody).(tk_amount) - custody_buckets l.(l_position) -> 0 <= s ->
    n = Z.min (r.(tr_authorized_amount) - r.(tr_attributed_amount))
              (l.(l_position).(po_unattributed_custody) + s) ->
    close_case l r now ((attributed_record r n) <| tr_completed_at := now |>)
      (close_transfer (attributed l.(l_position) s n))
| close_quarantined :
    r.(tr_status) = SQuarantined -> r.(tr_attributed_amount) = 0 ->
    l.(l_position).(po_active_transfer_kind) = KAllocate ->
    close_case l r now (r <| tr_completed_at := now |>) (close_transfer l.(l_position))
| close_complete :
    r.(tr_status) = SComplete -> l.(l_position).(po_active_transfer_kind) = KNone ->
    close_case l r now r l.(l_position).

Lemma close_record_rules_Ok l r now r' p' :
  close_record_rules l r now = Ok (r', p') -> close_case l r now r' p'.
Proof.
  unfold close_record_rules, holds_allocation, outstanding_allocation. intros H0.
  destruct (tr_status r) eqn:Hst; try discriminate H0; leg_steps; bool_to_prop.
  - eapply close_pending; try done.
  - by apply close_complete.
  - by apply close_quarantined.
Qed.

Lemma close_Ok env l body lg now l1 lg' st :
  close env l body lg now = Ok (l1, lg', st) ->
  exists r r' p' s,
    l.(l_transfers) !! env.(e_transfer_record) = Some (Owned r) /\
    r.(tr_transfer_kind) = KAllocate /\ no_recall_fields r /\
    close_case l r now r' p' /\ r'.(tr_attributed_amount) <= r'.(tr_authorized_amount) /\
    record_close lg r'.(tr_authorized_amount) r'.(tr_attributed_amount)
      r'.(tr_message_sequence) = Ok (lg', s) /\
    st = mkSettlement Closed r'.(tr_authorized_amount) r'.(tr_attributed_amount)
           lg'.(tl_impaired_outstanding) /\
    l1 = l <| l_transfers := <[env.(e_transfer_record) :=
                Owned (r' <| tr_status := SClosed |>)]> l.(l_transfers) |>
           <| l_position := p' |>.
Proof.
  unfold close, store. intros H0. leg_steps. bool_to_prop.
  match goal with Hc : close_record_rules _ ?r0 _ = Ok (?r1, ?p1) |- _ =>
    apply close_record_rules_Ok in Hc; exists r0, r1, p1 end.
  eexists. by split_and!.
Qed.

Lemma recover_Ok env l body bump seq lg now l1 lg' st :
  recover env l body bump seq lg now = Ok (l1, lg', st) ->
  exists s n,
    l.(l_position).(po_active_transfer_kind) = KNone /\
    l.(l_transfers) !! env.(e_transfer_record) = None /\
    s = l.(l_world).(w_custody).(tk_amount) - custody_buckets l.(l_position) /\ 0 <= s /\
    n = Z.min (Z.min (l.(l_position).(po_unattributed_custody) + s)
                (if lg.(tl_impaired_outstanding) <=? u64_max
                 then lg.(tl_impaired_outstanding) else u64_max))
          (saturating_sub l.(l_strategy).(sc_max_remote_principal)
             (principal l.(l_position) + l.(l_position).(po_recalled_custody))) /\
    0 < lg.(tl_impaired_outstanding) /\
    record_recovery lg n = Ok lg' /\
    st = mkSettlement Recovered lg.(tl_impaired_outstanding) n lg'.(tl_impaired_outstanding) /\
    l1 = l <| l_transfers := <[env.(e_transfer_record) := Owned
                (new_recovery bump body.(re_transfer_id) seq n now)]> l.(l_transfers) |>
           <| l_position := attributed l.(l_position) s n |>.
Proof.
  unfold recover, committed_principal. intros H0. leg_steps. bool_to_prop.
  do 2 eexists. split_and!; try done.
Qed.

(** The leg after a close or a recovery, before the notice goes out. *)
Inductive settles env l (body : ResolveBody) (seq : Z) (lg : TransportLedger)
    : Leg -> TransportLedger -> Settlement -> Prop :=
| settles_close l1 lg' st :
    close env l body lg env.(e_unix_timestamp) = Ok (l1, lg', st) ->
    settles env l body seq lg l1 lg' st
| settles_recover l1 lg' st :
    recover env l body (transfer_address l.(l_key) body.(re_transfer_id)).2 seq lg
      env.(e_unix_timestamp) = Ok (l1, lg', st) ->
    settles env l body seq lg l1 lg' st.

Lemma load_ledger_Ok env l address bump now slot :
  load_ledger env l address bump now = Ok slot ->
  env.(e_transport_ledger) = address /\
  ((l.(l_ledger) !! address = Some (Owned slot.(ls_ledger)) /\ slot.(ls_exists) = true) \/
   (l.(l_ledger) !! address = None /\ slot.(ls_ledger) = ledger_empty bump now /\
    slot.(ls_exists) = false)).
Proof.
  unfold load_ledger. intros H0. leg_step. leg_step. split; [done|].
  destruct (l_ledger l !! _) as [[lg|]|] eqn:Hl; subst address; rewrite Hl;
    leg_steps; [by left|congruence|by right].
Qed.

Lemma handle_settlement_Ok env l bytes l' b :
  handle_settlement env l bytes = Ok (l', b) ->
  exists v body lg l1 lg' st,
    consumes env l bytes ClassResolve l' v /\
    v.(vm_message).(m_body) = BResolve body /\ consented env l /\
    env.(e_transfer_record) = record_key l body.(re_transfer_id) /\
    env.(e_transport_ledger) = (ledger_address l.(l_key)).1 /\
    (l.(l_ledger) !! env.(e_transport_ledger) = Some (Owned lg) \/
     l.(l_ledger) !! env.(e_transport_ledger) = None /\
     lg = ledger_empty (ledger_address l.(l_key)).2 env.(e_unix_timestamp)) /\
    settles env l body v.(vm_message).(m_header).(h_sequence) lg l1 lg' st /\
    build_transport_settlement keccak (outbound_context l env.(e_unix_timestamp)) {|
        tf_transfer_id := body.(re_transfer_id);
        tf_kind := st.(st_kind);
        tf_claim_amount := st.(st_claim_amount);
        tf_credited_amount := st.(st_credited_amount);
        tf_impaired_outstanding := st.(st_impaired_outstanding);
        tf_config_version := l.(l_config).(cf_config_version) |} = Ok b /\
    publishes env l TTransportSettlement b l' /\
    exists reports outbound,
      l' = (consumed_leg env l ClassResolve v)
             <| l_transfers := l1.(l_transfers) |> <| l_position := l1.(l_position) |>
             <| l_ledger := <[env.(e_transport_ledger) := Owned lg']> l.(l_ledger) |>
             <| l_reports := reports |> <| l_outbound := outbound |>.
Proof.
  intros H0. unfold handle_settlement in H0.
  destruct (ledger_address (l_key l)) as [address lbump] eqn:Hla.
  leg_steps. open_message H0 v Hv body Hbody. leg_steps.
  match goal with Hg : require_guardian_key _ _ = Ok _, Hf : check_frozen_gate _ _ = Ok _ |- _ =>
    pose proof (consented_Ok _ _ _ _ Hg Hf) end.
  match goal with Hs : load_ledger _ _ _ _ _ = Ok ?slot |- _ =>
    apply load_ledger_Ok in Hs as [<- Hslot]; rename slot into sl end.
  match goal with
  | Hs : match re_action body with ActAdmit => _ | _ => _ end = Ok (?a, ?c, ?d) |- _ =>
      rename a into l1, c into lg', d into st, Hs into Hset end.
  assert (Hsettles : settles env l body (h_sequence (m_header (vm_message v)))
            (ls_ledger sl) l1 lg' st).
  { destruct (re_action body); [done| |]; repeat invert_step.
    - by apply settles_close.
    - by apply settles_recover. }
  assert (Hl1 : exists ts p, l1 = l <| l_transfers := ts |> <| l_position := p |>).
  { destruct Hsettles as [? ? ? Hc|? ? ? Hc].
    - apply close_Ok in Hc as (? & ? & ? & ? & _ & _ & _ & _ & _ & _ & _ & ->). eauto.
    - apply recover_Ok in Hc as (? & ? & _ & _ & _ & _ & _ & _ & _ & _ & ->). eauto. }
  destruct Hl1 as (ts & p & ->).
  match goal with Hr : create_report_record _ _ _ _ _ _ = Ok _ |- _ =>
    apply create_report_record_Ok in Hr as (Hrk & Hrs & rr & -> & Hrr) end.
  match goal with Ha : advance_outbound _ _ _ _ = Ok _ |- _ =>
    apply advance_outbound_Ok in Ha as (lane & Hlane & ->) end.
  match goal with Hw : (if ls_exists sl then _ else _) = Ok ?m |- _ =>
    assert (m = <[e_transport_ledger env := Owned lg']> (l_ledger l)) as ->
      by (destruct (ls_exists sl); leg_steps; reflexivity); clear Hw end.
  exists v, body, (ls_ledger sl), (l <| l_transfers := ts |> <| l_position := p |>), lg', st.
  split_and!; try done.
  - destruct Hslot as [[? _]|(? & ? & _)]; [by left|by right].
  - split; try done. exists rr. split; [reflexivity|exact Hrr].
  - do 2 eexists. reflexivity.
Qed.

(** * Assets *)

(** The approval a deployment spent. *)
Definition approved env l (amount : Z) (p : RemotePosition) : Prop :=
  exists policy, l.(l_policy) = Some policy /\
    authorization_check
      (mkAuthorization policy env.(e_receipt_key) env.(e_receipt) env.(e_introspection))
      l.(l_key)
      (deployment_context l.(l_key) l.(l_config) (strategy_config_address l.(l_key)).1
         l.(l_strategy) p)
      amount env.(e_unix_timestamp) = Ok tt.

Definition deployed_position (p : RemotePosition) (s n : Z) : RemotePosition :=
  (reconciled p s)
    <| po_attributed_principal := p.(po_attributed_principal) - n |>
    <| po_deployed_principal := p.(po_deployed_principal) + n |>.

Lemma process_deploy_Ok env l amount l' :
  process_deploy_to_strategy env l amount = Ok l' ->
  exists s w,
    l.(l_config).(cf_frozen) = false /\
    s = l.(l_world).(w_custody).(tk_amount) - custody_buckets l.(l_position) /\ 0 <= s /\
    amount <> 0 /\ amount <= l.(l_position).(po_attributed_principal) /\
    approved env l amount (reconciled l.(l_position) s) /\
    w.(w_custody).(tk_amount) = custody_buckets (deployed_position l.(l_position) s amount) /\
    w.(w_custody).(tk_owner) = (custody_authority l.(l_key)).1 /\
    w.(w_vault).(tk_amount) = l.(l_world).(w_vault).(tk_amount) + amount /\
    read_principal w.(w_adapter_state) = Ok (l.(l_position).(po_deployed_principal) + amount) /\
    l' = l <| l_position := deployed_position l.(l_position) s amount |> <| l_world := w |>.
Proof.
  unfold process_deploy_to_strategy. intros H0. leg_steps.
  match goal with Hc : check_control _ _ = Ok _ |- _ =>
    unfold check_control in Hc; leg_steps end.
  bool_to_prop.
  match goal with Hp : read_principal (w_adapter_state ?w) = Ok _,
      Hi : invoke_signed _ _ = Some ?w |- _ => exists (tk_amount (w_custody (l_world l))
        - custody_buckets (l_position l)), w end.
  split_and!; try done.
  - eexists. split; [done|].
    match goal with |- _ = Ok ?t => destruct t end.
    match goal with Ha : authorization_check _ _ _ _ _ = Ok ?u |- _ => destruct u; exact Ha end.
  - cbn in *. lia.
Qed.

(** The position and the record after [a] units of principal came back as
    [b] units of assets. *)
Definition withdrawn_position (p : RemotePosition) (s a b : Z) : RemotePosition :=
  (reconciled p s)
    <| po_deployed_principal := p.(po_deployed_principal) - a |>
    <| po_recalled_custody := p.(po_recalled_custody) + b |>
    <| po_cumulative_realized_loss := p.(po_cumulative_realized_loss) + (a - b) |>.

Definition withdrawn_record (r : TransferRecord) (a b : Z) : TransferRecord :=
  r <| tr_strategy_principal_resolved := r.(tr_strategy_principal_resolved) + a |>
    <| tr_assets_withdrawn := r.(tr_assets_withdrawn) + b |>
    <| tr_realized_loss := r.(tr_realized_loss) + (a - b) |>.

Lemma process_withdraw_Ok env l maximum l' :
  process_withdraw_for_recall env l maximum = Ok l' ->
  exists r s w a b r' p' settled,
    l.(l_transfers) !! env.(e_transfer_record) = Some (Owned r) /\
    r.(tr_transfer_kind) = KRecall /\ r.(tr_status) = SPending /\
    l.(l_position).(po_active_transfer_kind) = KRecall /\
    l.(l_position).(po_active_transfer_id) = r.(tr_transfer_id) /\
    s = l.(l_world).(w_custody).(tk_amount) - custody_buckets l.(l_position) /\ 0 <= s /\
    0 <= b <= a /\ 0 < a /\ a <= maximum /\ a <= l.(l_position).(po_deployed_principal) /\
    r.(tr_custody_principal_reserved) + (r.(tr_strategy_principal_resolved) + a)
      <= r.(tr_requested_recall_amount) /\
    w.(w_custody).(tk_amount) = custody_buckets (withdrawn_position l.(l_position) s a b) /\
    w.(w_custody).(tk_owner) = (custody_authority l.(l_key)).1 /\
    read_principal w.(w_adapter_state) = Ok (l.(l_position).(po_deployed_principal) - a) /\
    settle_recall (withdrawn_record r a b) (withdrawn_position l.(l_position) s a b)
      env.(e_unix_timestamp) = Ok (r', p', settled) /\
    l' = l <| l_transfers := <[env.(e_transfer_record) := Owned r']> l.(l_transfers) |>
           <| l_position := p' |> <| l_world := w |>.
Proof.
  unfold process_withdraw_for_recall, store. intros H0. leg_steps.
  match goal with Hc : check_control _ _ = Ok _ |- _ =>
    unfold check_control in Hc; leg_steps end.
  match goal with Hr : typed_transfer_record _ _ = Ok ?r0 |- _ =>
    apply typed_record_Ok in Hr; exists r0 end.
  bool_to_prop. cbn in *.
  match goal with
  | Hi : invoke_signed _ _ = Some ?w, Hs : settle_recall _ _ _ = Ok (?r', ?p', ?b),
    Ha : read_principal (w_adapter_state (l_world l)) = Ok ?pb,
    Hb : read_principal (w_adapter_state ?w) = Ok ?pa |- _ =>
      exists (tk_amount (w_custody (l_world l)) - custody_buckets (l_position l)), w,
        (pb - pa), (tk_amount (w_custody w) - tk_amount (w_custody (l_world l))), r', p', b
  end.
  split_and!; try done; try lia.
  match goal with Hb : read_principal (w_adapter_state ?w) = Ok _ |- read_principal _ = _ =>
    etrans; [exact Hb|] end. f_equal. lia.
Qed.

(** Settling a recall moves no asset. *)
Lemma settle_buckets r p now r' p' b :
  settle_recall r p now = Ok (r', p', b) ->
  custody_buckets p' = custody_buckets p /\
  p'.(po_deployed_principal) = p.(po_deployed_principal) /\
  p'.(po_recalled_custody) = p.(po_recalled_custody) /\
  p'.(po_cumulative_realized_loss) = p.(po_cumulative_realized_loss).
Proof. intros [_ Hb]%settle_Ok. by destruct b; destruct Hb as (_ & _ & ->). Qed.

Definition sent_position (p : RemotePosition) (s n : Z) : RemotePosition :=
  (reconciled p s) <| po_recalled_custody := p.(po_recalled_custody) - n |>.

Definition sent_record (r : TransferRecord) (n : Z) : TransferRecord :=
  r <| tr_assets_sent := r.(tr_assets_sent) + n |>.

Lemma process_send_Ok env l maximum l' :
  process_send_recall env l maximum = Ok l' ->
  exists r s w n r' p' settled,
    l.(l_transfers) !! env.(e_transfer_record) = Some (Owned r) /\
    r.(tr_transfer_kind) = KRecall /\ r.(tr_status) = SPending /\
    l.(l_position).(po_active_transfer_kind) = KRecall /\
    l.(l_position).(po_active_transfer_id) = r.(tr_transfer_id) /\
    s = l.(l_world).(w_custody).(tk_amount) - custody_buckets l.(l_position) /\ 0 <= s /\
    n = Z.min maximum l.(l_position).(po_recalled_custody) /\ n <> 0 /\
    w.(w_custody).(tk_amount) = custody_buckets (sent_position l.(l_position) s n) /\
    w.(w_escrow).(tk_amount) = l.(l_world).(w_escrow).(tk_amount) + n /\
    settle_recall (sent_record r n) (sent_position l.(l_position) s n)
      env.(e_unix_timestamp) = Ok (r', p', settled) /\
    l' = l <| l_transfers := <[env.(e_transfer_record) := Owned r']> l.(l_transfers) |>
           <| l_position := p' |> <| l_world := w |>.
Proof.
  unfold process_send_recall, store. intros H0. leg_steps.
  match goal with Hr : typed_transfer_record _ _ = Ok ?r0 |- _ =>
    apply typed_record_Ok in Hr; exists r0 end.
  bool_to_prop. cbn in *.
  match goal with
  | Hi : spl_transfer _ _ _ _ = Some ?w, Hs : settle_recall _ _ _ = Ok (?r', ?p', ?b) |- _ =>
      exists (tk_amount (w_custody (l_world l)) - custody_buckets (l_position l)), w,
        (Z.min maximum (po_recalled_custody (l_position l))), r', p', b
  end.
  split_and!; try done; try lia.
Qed.

Lemma process_reconcile_Ok env l l' :
  process_reconcile_custody env l = Ok l' ->
  exists s, s = l.(l_world).(w_custody).(tk_amount) - custody_buckets l.(l_position) /\ 0 <= s /\
    l' = l <| l_position := reconciled l.(l_position) s |>.
Proof. unfold process_reconcile_custody. intros H0. leg_steps. eexists. by split_and!. Qed.

(** * Reports *)

(** What a report says, taken from the reconciled position. *)
Definition report_fields l (p : RemotePosition) (epoch reported : Z) (c : Bytes32)
    : ReportFields := {|
  rf_epoch_id := epoch;
  rf_remote_principal := reported;
  rf_realized_loss := p.(po_cumulative_realized_loss);
  rf_unattributed_balance := p.(po_unattributed_custody);
  rf_latest_completed_transfer_id := p.(po_latest_completed_transfer_id);
  rf_config_version := l.(l_config).(cf_config_version);
  rf_remote_state_commitment := c
|}.

Definition state_view l (p : RemotePosition) (adapter_principal : Z) : RemoteStateView := {|
  sv_remote_config := l.(l_key);
  sv_config_version := l.(l_config).(cf_config_version);
  sv_frozen := l.(l_config).(cf_frozen);
  sv_position := p;
  sv_custody_balance := l.(l_world).(w_custody).(tk_amount);
  sv_adapter_principal := adapter_principal
|}.

Lemma process_report_Ok env l epoch l' b :
  process_publish_remote_report env l epoch = Ok (l', b) ->
  exists s in_flight c reports outbound,
    let p := reconciled l.(l_position) s in
    s = l.(l_world).(w_custody).(tk_amount) - custody_buckets l.(l_position) /\ 0 <= s /\
    read_principal l.(l_world).(w_adapter_state) = Ok p.(po_deployed_principal) /\
    in_flight_attribution env l p = Ok in_flight /\
    commitment keccak (state_view l p p.(po_deployed_principal)) = Ok c /\
    build_remote_report keccak (outbound_context l env.(e_unix_timestamp))
      (report_fields l p epoch
         (saturating_sub (principal p + p.(po_recalled_custody)) in_flight) c) = Ok b /\
    publishes env l TRemoteReport b l' /\
    l' = l <| l_position := p |> <| l_reports := reports |> <| l_outbound := outbound |>.
Proof.
  unfold process_publish_remote_report, remote_principal. intros H0. leg_steps.
  match goal with Hr : create_report_record _ _ _ _ _ _ = Ok _ |- _ =>
    apply create_report_record_Ok in Hr as (Hrk & Hrs & rr & -> & Hrr) end.
  match goal with Ha : advance_outbound _ _ _ _ = Ok _ |- _ =>
    apply advance_outbound_Ok in Ha as (lane & Hlane & ->) end.
  match goal with Hi : in_flight_attribution _ _ _ = Ok ?i, Hc : commitment _ _ = Ok ?c |- _ =>
    exists (tk_amount (w_custody (l_world l)) - custody_buckets (l_position l)), i, c end.
  do 2 eexists. cbv zeta. split_and!; try done.
  split; try done. exists rr. split; [reflexivity|exact Hrr].
Qed.

Lemma process_recall_sent_Ok env l l' b :
  process_publish_recall_sent env l = Ok (l', b) ->
  exists r m reports outbound,
    l.(l_transfers) !! env.(e_transfer_record) = Some (Owned r) /\
    r.(tr_transfer_kind) = KRecall /\ r.(tr_status) = SComplete /\
    r.(tr_assets_sent) + r.(tr_realized_loss) = r.(tr_requested_recall_amount) /\
    env.(e_recall_sent_marker) = (marker_address l.(l_key) r.(tr_transfer_id)).1 /\
    l.(l_markers) !! env.(e_recall_sent_marker) = None /\
    m.(rm_transfer_id) = r.(tr_transfer_id) /\
    build_recall_sent keccak (outbound_context l env.(e_unix_timestamp)) {|
        sf_transfer_id := r.(tr_transfer_id);
        sf_principal_sent := r.(tr_requested_recall_amount);
        sf_actual_amount_sent := r.(tr_assets_sent);
        sf_realized_loss := r.(tr_realized_loss);
        sf_destination_reference := l.(l_config).(cf_outbound_escrow);
        sf_sent_timestamp := r.(tr_completed_at);
        sf_config_version := l.(l_config).(cf_config_version) |} = Ok b /\
    publishes env l TRecallSent b l' /\
    l' = l <| l_markers := <[env.(e_recall_sent_marker) := Owned m]> l.(l_markers) |>
           <| l_reports := reports |> <| l_outbound := outbound |>.
Proof.
  unfold process_publish_recall_sent. intros H0. leg_steps.
  match goal with Hr : typed_transfer_record _ _ = Ok ?r0 |- _ =>
    apply typed_record_Ok in Hr; exists r0 end.
  match goal with He : check_eligible _ _ = Ok _ |- _ =>
    unfold check_eligible in He; leg_steps end.
  match goal with Hr : create_report_record _ _ _ _ _ _ = Ok _ |- _ =>
    apply create_report_record_Ok in Hr as (Hrk & Hrs & rr & -> & Hrr) end.
  match goal with Hm : create_recall_marker _ _ _ _ = Ok _ |- _ =>
    unfold create_recall_marker in Hm; destruct (marker_address _ _) as [mk mb] eqn:Hmk;
    leg_steps end.
  match goal with Ha : advance_outbound _ _ _ _ = Ok _ |- _ =>
    apply advance_outbound_Ok in Ha as (lane & Hlane & ->) end.
  bool_to_prop. do 3 eexists. split_and!; try done.
  - reflexivity.
  - split; try done. exists rr. split; [reflexivity|exact Hrr].
Qed.

(** * Control *)

Definition updated_risk env l (body : ConfigUpdateBody) : RiskConfig :=
  l.(l_risk)
    <| rk_max_remote_allocation_bps := body.(cu_max_remote_allocation_bps) |>
    <| rk_max_upward_deviation_bps := body.(cu_max_upward_deviation_bps) |>
    <| rk_max_downward_deviation_bps := body.(cu_max_downward_deviation_bps) |>
    <| rk_max_report_age := body.(cu_max_report_age) |>
    <| rk_config_commitment := body.(cu_config_commitment) |>
    <| rk_config_version := body.(cu_config_version) |>
    <| rk_last_update_at := env.(e_unix_timestamp) |>.

Lemma handle_config_update_Ok env l bytes l' :
  handle_config_update env l bytes = Ok l' ->
  exists v body,
    consumes env l bytes ClassConfigUpdate l' v /\
    v.(vm_message).(m_body) = BConfigUpdate body /\
    l.(l_config).(cf_frozen) = false /\
    if v.(vm_fresh) then
      l.(l_config).(cf_config_version) < body.(cu_config_version) /\
      check_parameters body.(cu_max_remote_allocation_bps) body.(cu_max_upward_deviation_bps)
        body.(cu_max_downward_deviation_bps) body.(cu_max_report_age)
        body.(cu_config_commitment) = Ok tt /\
      l' = (consumed_leg env l ClassConfigUpdate v)
             <| l_risk := updated_risk env l body |>
             <| l_config, cf_config_version := body.(cu_config_version) |>
    else l' = consumed_leg env l ClassConfigUpdate v.
Proof.
  intros H0. unfold handle_config_update in H0. leg_steps.
  open_message H0 v Hv body Hbody. leg_steps. exists v, body.
  destruct (vm_fresh v) eqn:Hf; cbn [negb] in H0; leg_steps; bool_to_prop; split_and!; try done;
    try by split.
  by match goal with |- Ok ?u = Ok _ => destruct u end.
Qed.

Lemma advance_watermark_Ok env l n l' :
  process_advance_replay_watermark env l n = Ok l' ->
  env.(e_signer) = l.(l_config).(cf_administrator) /\
  l.(l_lane).(rl_minimum_acceptable_sequence) < n /\
  n + l.(l_lane).(rl_mandatory_watermark_lag) <= l.(l_lane).(rl_highest_consumed_sequence) /\
  n <= l.(l_lane).(rl_highest_consumed_sequence) /\
  (l.(l_position).(po_active_transfer_kind) <> KNone ->
   n <= l.(l_position).(po_active_transfer_sequence)) /\
  l' = l <| l_lane, rl_minimum_acceptable_sequence := n |>.
Proof.
  unfold process_advance_replay_watermark, require_administrator, check_obligation,
    has_active_transfer. intros H0. leg_steps. bool_to_prop. split_and!; try done.
  intros Hk. rewrite bool_decide_eq_false_2 in * by done. simpl in *. leg_inv. done.
Qed.

Lemma close_consumed_Ok env l k l' :
  process_close_consumed_message env l k = Ok l' ->
  exists r, l.(l_consumed) !! env.(e_consumed_message) = Some (Owned r) /\
    r.(cm_sequence) < l.(l_lane).(rl_minimum_acceptable_sequence) /\
    r.(cm_lane_id) = l.(l_config).(cf_control_lane_id) /\
    l' = l <| l_consumed := delete env.(e_consumed_message) l.(l_consumed) |>.
Proof.
  unfold process_close_consumed_message. intros H0. leg_step.
  destruct (l_consumed l !! _) as [[r|]|]; [|done..]. leg_steps. bool_to_prop.
  exists r. split_and!; try done. congruence.
Qed.

Lemma process_freeze_Ok env l l' :
  process_freeze env l = Ok l' ->
  is_emergency_authority l.(l_config) env.(e_signer) = true /\
  l.(l_config).(cf_frozen) = false /\ l' = l <| l_config, cf_frozen := true |>.
Proof. unfold process_freeze. intros H0. by leg_inv. Qed.

Lemma adopt_policy_Ok env l k a l' :
  process_initialize_deploy_authorization env l k a = Ok l' ->
  l.(l_policy) = None /\ exists policy, l' = l <| l_policy := Some policy |>.
Proof.
  unfold process_initialize_deploy_authorization. intros H0. leg_steps.
  destruct (l_policy l); [done|]. eauto.
Qed.

End handlers.
