(* ===== verification/RemotePreserve.v ===== *)
(** Every instruction of the remote leg keeps its books: [books] holds
    after [launch] and is preserved by every successful instruction,
    whatever the token program and the adapter do. *)

From Stdlib Require Import ZArith Lia.
From stdpp Require Import strings.
From S2P Require Import Prelude ProtocolLayout ProtocolTypes ProtocolCodec ProtocolWire.
From S2P Require Import ProtocolBodies ProtocolMessages RemoteState RemoteMessage.
From S2P Require Import RemotePlatform RemoteLeg RemoteSettle RemoteInit RemoteBooks.
From S2P Require Import RemoteEffects.

Lemma ledger_ok_same ts ts' lg :
  ledger_ok ts lg -> total claim_of ts' = total claim_of ts ->
  total credit_of ts' = total credit_of ts -> total recovered_of ts' = total recovered_of ts ->
  ledger_ok ts' lg.
Proof. intros [] ? ? ?. split; congruence. Qed.

Ltac unfold_contributions :=
  unfold principal_of, recalled_of, loss_of, pending_of, claim_of, credit_of, recovered_of,
    principal, custody_buckets, buckets_nonneg, record_ok, allocation_ok, recall_ok, recovery_ok,
    no_recall_fields, is_open in *.

(** Evaluates every sum over a store with one record written. *)
Ltac sums :=
  repeat match goal with
  | Hk : ?m !! ?k = None |- context [total ?f (<[?k := Owned ?r]> ?m)] =>
      rewrite (total_create f m k r Hk)
  | Hk : ?m !! ?k = Some (Owned ?r0) |- context [total ?f (<[?k := Owned ?r]> ?m)] =>
      rewrite (total_replace f m k r0 r Hk)
  end.

(** Decides the tests on the kind and the status of a known record. *)
Ltac decide_tests :=
  repeat match goal with
  | |- context [bool_decide ?P] =>
      first [ rewrite (bool_decide_eq_true_2 P) by (cbn; split_and?; congruence || done)
            | rewrite (bool_decide_eq_false_2 P) by (cbn; intros ?; naive_solver congruence) ]
  end.

(** Replaces every remaining sum by an atom. *)
Ltac abstract_totals :=
  repeat match goal with
  | |- context [total ?f ?m] => let x := fresh "t" in set (x := total f m) in *; clearbody x
  | _ : context [total ?f ?m] |- _ =>
      let x := fresh "t" in set (x := total f m) in *; clearbody x
  end.

Ltac figures := cbn; sums; abstract_totals; unfold_contributions; cbn in *; decide_tests; cbn in *.

Section preserve.
Context `{Chain}.
Implicit Types (l : Leg) (env : Env).

(** Only the books' own accounts matter. *)
Lemma books_ext l l' :
  books l -> l'.(l_key) = l.(l_key) -> l'.(l_transfers) = l.(l_transfers) ->
  l'.(l_position) = l.(l_position) -> l'.(l_strategy) = l.(l_strategy) ->
  l'.(l_ledger) = l.(l_ledger) ->
  l.(l_world).(w_custody).(tk_amount) <= l'.(l_world).(w_custody).(tk_amount) ->
  books l'.
Proof.
  intros [Hr Hc Hp Hl] Hk Ht Hpo Hs Hlg Hw. split; unfold record_key, leg_ledger in *;
    rewrite ?Hk, ?Ht, ?Hpo, ?Hs, ?Hlg; try done.
  destruct Hp. split; try done. lia.
Qed.

Lemma books_launch se w p c max l :
  0 <= w.(w_custody).(tk_amount) -> 0 <= max ->
  launch se w p c max = Ok l -> books l.
Proof.
  intros Hw Hmax H0. unfold launch in H0. leg_steps.
  match goal with H1 : process_initialize_strategy_state _ _ _ _ _ _ = Ok _ |- _ =>
    unfold process_initialize_strategy_state in H1; leg_steps end.
  split.
  - intros ? ? Hk. cbn in Hk. by rewrite lookup_empty in Hk.
  - split; [|done]. intros ? ? Hk. cbn in Hk. by rewrite lookup_empty in Hk.
  - split; cbn; rewrite ?total_empty; unfold custody_buckets, principal, buckets_nonneg; cbn; lia.
  - unfold leg_ledger, ledger_at. cbn. rewrite lookup_empty.
    split; cbn; rewrite ?total_empty; done.
Qed.

(** Reconciling classifies a surplus and keeps every other figure. *)
Lemma books_reconciled l s :
  books l -> 0 <= s -> custody_buckets l.(l_position) + s
    <= l.(l_world).(w_custody).(tk_amount) ->
  books (l <| l_position := reconciled l.(l_position) s |>).
Proof.
  intros [Hr [Ho Hs] Hp Hl] Hs0 Hc. split; cbn; try done.
  destruct Hp as [Hn ? ? ? ? ?]. split; cbn; unfold custody_buckets, principal, buckets_nonneg in *;
    cbn; try done; lia.
Qed.

(** * Opening a transfer *)

Lemma books_allocate env l bytes l' :
  is_bytes bytes -> books l -> handle_allocate env l bytes = Ok l' -> books l'.
Proof.
  intros Hb [Hr Hc Hp Hl] (v & body & q & Hcs & _ & Ha & Hk & Hkey & Hfree & Hq & ->)%handle_allocate_Ok;
    [|done].
  assert (Hpend := pending_none _ _ _ Hc Hr Hk).
  assert (Hrec : record_ok (allocation_record env l v body q)).
  { unfold allocation_record. destruct q; cbn; unfold allocation_ok, no_recall_fields; cbn;
      split_and!; done || lia. }
  assert (Hid : tr_transfer_id (allocation_record env l v body q) = al_transfer_id body)
    by (unfold allocation_record; by destruct q).
  split; cbn [l_key l_transfers l_position l_strategy l_world l_ledger].
  - apply records_ok_write; [done| |done]. by rewrite Hid.
  - apply (cycle_ok_open _ (l_position l)); try done.
    + by rewrite Hid.
    + unfold allocation_record, is_open. destruct q; cbn; auto.
    + unfold allocation_record, allocation_position, points_at. destruct q; cbn; by split_and!.
    + unfold allocation_record. by destruct q.
  - destruct Hp. unfold allocation_record, allocation_position in *.
    destruct q as [q|]; split; figures; try done; try lia.
    destruct (Hq eq_refl) as (_ & _ & Hfit). lia.
  - apply (ledger_ok_same (l_transfers l)); [done|..];
      unfold allocation_record; destruct q; figures; lia.
Qed.

(** The open record of a leg, as its position sees it. *)
Lemma open_record l k r :
  books l -> l.(l_transfers) !! k = Some (Owned r) -> is_open r ->
  k = record_key l r.(tr_transfer_id) /\ record_ok r /\ points_at l.(l_position) r.
Proof.
  intros [Hr [Ho _] _ _] Hk Hop. destruct (Hr k r Hk). split_and!; try done. by apply (Ho k).
Qed.

Lemma books_attribute env l l' :
  books l -> process_attribute_allocation env l = Ok l' -> books l'.
Proof.
  intros Hbk (r & s & n & Hk & _ & Hkind & Hst & -> & Hs & -> & Hn & Hle & Hl')%process_attribute_Ok.
  destruct (open_record l _ r Hbk Hk ltac:(by left)) as (Hkey & Hok & Hpts).
  destruct Hbk as [Hr Hc Hp Hl].
  assert (Hpend := pending_only _ _ _ _ _ Hc Hr Hk ltac:(by left)).
  unfold record_ok in Hok. rewrite Hkind in Hok. destruct Hok as (Hz & Hatt & Hpos & Hstat).
  rewrite Hst in Hstat. destruct Hp as [Hnn ? ? ? ? ?].
  destruct Hpts as (? & ? & ? & ?).
  cbv zeta in Hl'. destruct (_ =? _) eqn:Hd in Hl'; bool_to_prop; subst l'; cbn in Hd.
  - split; cbn.
    + apply records_ok_write; [done|done|]. unfold record_ok. cbn. rewrite Hkind.
      unfold allocation_ok, buckets_nonneg in *. cbn. split_and!; try done; lia.
    + eapply cycle_ok_end; try done; [by left|]. unfold is_open. cbn. naive_solver.
    + split; figures; lia.
    + apply (ledger_ok_same (l_transfers l)); [done|..]; figures; lia.
  - split; cbn.
    + apply records_ok_write; [done|done|]. unfold record_ok. cbn. rewrite Hkind.
      unfold allocation_ok, buckets_nonneg in *. cbn. rewrite Hst. split_and!; try done; lia.
    + apply (cycle_ok_step _ (l_position l) _ _ _ r); try done; try by left.
    + split; figures; lia.
    + apply (ledger_ok_same (l_transfers l)); [done|..]; figures; lia.
Qed.

Lemma books_recall env l bytes l' :
  is_bytes bytes -> books l -> handle_recall env l bytes = Ok l' -> books l'.
Proof.
  intros Hb [Hr Hc Hp Hl] (v & body & _ & _ & _ & Ha & Hk & Hkey & Hfree & Hfit & ->)%handle_recall_Ok;
    [|done].
  assert (Hpend := pending_none _ _ _ Hc Hr Hk).
  assert (Hid : tr_transfer_id (recall_record env l v body) = rc_transfer_id body)
    by (unfold recall_record; by destruct (vm_fresh v)).
  destruct Hp as [Hnn ? ? ? ? ?].
  assert (Hrec : record_ok (recall_record env l v body)).
  { unfold recall_record, buckets_nonneg, principal in *.
    destruct (vm_fresh v); unfold record_ok; cbn; unfold recall_ok; cbn; split_and!; try done; lia. }
  split; cbn [l_key l_transfers l_position l_strategy l_world l_ledger].
  - apply records_ok_write; [done| |done]. by rewrite Hid.
  - apply (cycle_ok_open _ (l_position l)); try done.
    + by rewrite Hid.
    + unfold recall_record, is_open. destruct (vm_fresh v); cbn; auto.
    + unfold recall_record, recall_position, points_at. by destruct (vm_fresh v).
    + unfold recall_record. by destruct (vm_fresh v).
  - unfold recall_record, recall_position in *.
    destruct (vm_fresh v); split; figures; lia.
  - apply (ledger_ok_same (l_transfers l)); [done|..];
      unfold recall_record; destruct (vm_fresh v); figures; lia.
Qed.

(** Admission puts a quarantined transfer back on its original terms. *)
Lemma books_admitted env l r :
  books l -> l.(l_transfers) !! env.(e_transfer_record) = Some (Owned r) ->
  r.(tr_status) = SQuarantined -> admissible l r -> books (admitted_leg env l r).
Proof.
  intros Hbk Hk Hst Had.
  destruct (open_record l _ r Hbk Hk ltac:(by right)) as (Hkey & Hok & Hpts).
  destruct Hbk as [Hr Hc Hp Hl].
  assert (Hpend := pending_only _ _ _ _ _ Hc Hr Hk ltac:(by right)).
  rewrite pending_of_other in Hpend by congruence.
  destruct Hp as [Hnn ? ? ? ? ?]. destruct Hpts as (? & ? & ? & ?).
  unfold record_ok in Hok. unfold admitted_leg.
  destruct Had as [[Hkind Hfit] | [Hkind Hfit]]; rewrite Hkind in Hok |- *;
    [rewrite bool_decide_eq_false_2 by done | rewrite bool_decide_eq_true_2 by done].
  - destruct Hok as (Hz & Hatt & Hpos & Hstat). rewrite Hst in Hstat. split; cbn.
    + apply records_ok_write; [done|done|]. unfold record_ok. cbn. rewrite Hkind.
      unfold allocation_ok. cbn. split_and!; try done; lia.
    + apply (cycle_ok_step _ (l_position l) _ _ _ r); try done; [by right|by left].
    + split; figures; lia.
    + apply (ledger_ok_same (l_transfers l)); [done|..]; figures; lia.
  - unfold recall_ok in Hok. rewrite Hst in Hok.
    destruct Hok as (? & ? & ? & ? & ? & ? & ? & ? & ? & ? & Hres & Hrs).
    unfold buckets_nonneg, principal in *. split; cbn.
    + apply records_ok_write; [done|done|]. unfold record_ok. cbn. rewrite Hkind.
      unfold recall_ok. cbn. split_and!; try done; lia.
    + apply (cycle_ok_step _ (l_position l) _ _ _ r); try done; [by right|by left].
    + split; figures; lia.
    + apply (ledger_ok_same (l_transfers l)); [done|..]; figures; lia.
Qed.

Lemma books_resolve env l bytes l' ad :
  books l -> handle_resolve env l bytes = Ok (l', ad) -> books l'.
Proof.
  intros Hbk (v & body & l1 & _ & _ & -> & Hl1)%handle_resolve_Ok.
  apply (books_ext l1); try done.
  destruct Hl1 as [->|(r & Hk & Hst & _ & _ & _ & _ & _ & Had & ->)]; [done|].
  by apply books_admitted.
Qed.

Lemma books_deploy env l amount l' :
  0 <= amount -> books l -> process_deploy_to_strategy env l amount = Ok l' -> books l'.
Proof.
  intros Ha [Hr [Ho Hs] [Hnn ? ? ? ? ?] Hl]
    (s & w & _ & -> & Hs0 & Hne & Hle & _ & Hcu & _ & _ & _ & ->)%process_deploy_Ok.
  split; cbn; try done. split; cbn; unfold custody_buckets, principal, buckets_nonneg in *;
    cbn in *; try done; lia.
Qed.

(** Moves a pending recall on, and settles it when it is complete. *)
Lemma books_settle l k r r1 p1 w now r' p' b :
  books l -> l.(l_transfers) !! k = Some (Owned r) ->
  r.(tr_transfer_kind) = KRecall -> r.(tr_status) = SPending ->
  r1.(tr_transfer_id) = r.(tr_transfer_id) -> r1.(tr_transfer_kind) = KRecall ->
  r1.(tr_status) = SPending -> points_at p1 r1 ->
  (r1.(tr_assets_sent) + r1.(tr_realized_loss) < r1.(tr_requested_recall_amount) ->
   recall_ok r1) ->
  (r1.(tr_assets_sent) + r1.(tr_realized_loss) = r1.(tr_requested_recall_amount) ->
   recall_ok (r1 <| tr_status := SComplete |>)) ->
  buckets_nonneg p1 -> custody_buckets p1 <= w.(w_custody).(tk_amount) ->
  principal p1 = principal l.(l_position) - principal_of r + principal_of r1 ->
  principal p1 <= principal l.(l_position) ->
  p1.(po_recalled_custody) = l.(l_position).(po_recalled_custody) - recalled_of r + recalled_of r1 ->
  p1.(po_cumulative_realized_loss)
    = l.(l_position).(po_cumulative_realized_loss) - loss_of r + loss_of r1 ->
  settle_recall r1 p1 now = Ok (r', p', b) ->
  books (l <| l_transfers := <[k := Owned r']> l.(l_transfers) |>
           <| l_position := p' |> <| l_world := w |>).
Proof.
  intros Hbk Hk Hkind Hst Hid Hkind1 Hst1 Hpts Hok Hdone Hnn Hcu Hpr Hprle Hrc Hls Hset.
  destruct (open_record l _ r Hbk Hk ltac:(by left)) as (Hkey & Hok0 & _).
  destruct Hbk as [Hr Hc Hp Hl]. destruct Hp as [_ _ ? ? ? ?].
  apply settle_Ok in Hset as [Hset Hb]. destruct b; destruct Hb as (Hsum & -> & ->).
  - split; cbn.
    + apply records_ok_write; [done|cbn; rewrite Hid; exact Hkey|]. unfold record_ok. cbn. rewrite Hkind1.
      exact (Hdone Hsum).
    + eapply cycle_ok_end; try done; [by left|]. unfold is_open. cbn. naive_solver.
    + split; figures; lia.
    + apply (ledger_ok_same (l_transfers l)); [done|..]; figures; lia.
  - split; cbn.
    + apply records_ok_write; [done|rewrite Hid; exact Hkey|]. unfold record_ok. rewrite Hkind1. by apply Hok.
    + apply (cycle_ok_step _ (l_position l) _ _ _ r); try done; by left.
    + split; figures; lia.
    + apply (ledger_ok_same (l_transfers l)); [done|..]; figures; lia.
Qed.

Lemma books_withdraw env l maximum l' :
  books l -> process_withdraw_for_recall env l maximum = Ok l' -> books l'.
Proof.
  intros Hbk (r & s & w & a & b & r' & p' & settled & Hk & Hkind & Hst & Hpk & Hpid & Hs & Hs0 & Hab
    & Ha & _ & Had & Hcov & Hcu & _ & _ & Hset & ->)%process_withdraw_Ok.
  destruct (open_record l _ r Hbk Hk ltac:(by left)) as (Hkey & Hok & Hpts).
  unfold record_ok in Hok. rewrite Hkind in Hok. unfold recall_ok in Hok. rewrite Hst in Hok.
  destruct Hok as (? & ? & ? & ? & ? & ? & ? & ? & ? & ? & ?).
  pose proof (pk_nonneg _ _ _ _ (bk_position _ Hbk)) as Hnn. unfold buckets_nonneg in Hnn.
  eapply books_settle; try exact Hset; try done; try (by left).
  - intros Hlt. unfold recall_ok. cbn. cbn in Hlt. rewrite Hst. split_and!; try done; lia.
  - intros Heq. unfold recall_ok. cbn. cbn in Heq. split_and!; try done; lia.
  - unfold buckets_nonneg. cbn. lia.
  - rewrite Hcu. done.
  - unfold principal, principal_of. cbn. lia.
  - unfold principal. cbn. lia.
  - unfold recalled_of. cbn. lia.
  - unfold loss_of. cbn. lia.
Qed.

Lemma books_send env l maximum l' :
  0 <= maximum -> books l -> process_send_recall env l maximum = Ok l' -> books l'.
Proof.
  intros Hmax Hbk (r & s & w & n & r' & p' & settled & Hk & Hkind & Hst & Hpk & Hpid & Hs & Hs0 & Hn
    & Hn0 & Hcu & _ & Hset & ->)%process_send_Ok.
  destruct (open_record l _ r Hbk Hk ltac:(by left)) as (Hkey & Hok & Hpts).
  unfold record_ok in Hok. rewrite Hkind in Hok. unfold recall_ok in Hok. rewrite Hst in Hok.
  destruct Hok as (? & ? & ? & ? & ? & ? & ? & ? & ? & ? & ?).
  pose proof (bk_position _ Hbk) as [Hnn ? ? Hrec ? ?]. unfold buckets_nonneg in Hnn.
  assert (n <= recalled_of r).
  { cut (po_recalled_custody (l_position l) = recalled_of r); [lia|]. rewrite Hrec.
    destruct Hbk as [Hr Hc _ _]. apply (recalled_only (record_key l) (l_position l) _ (e_transfer_record env) r); try done.
    by left. }
  unfold recalled_of in *.
  eapply books_settle; try exact Hset; try done; try (by left).
  - intros Hlt. unfold recall_ok. cbn. cbn in Hlt. rewrite Hst. split_and!; try done; lia.
  - intros Heq. unfold recall_ok. cbn. cbn in Heq. split_and!; try done; lia.
  - unfold buckets_nonneg. cbn. lia.
  - rewrite Hcu. done.
  - unfold principal, principal_of. cbn. lia.
  - unfold recalled_of. cbn. lia.
  - unfold loss_of. cbn. lia.
Qed.

(** * Settlement *)

(** The leg with the ledger a settlement leaves behind. *)
Definition with_ledger l (lg : TransportLedger) : Leg :=
  l <| l_ledger := <[(ledger_address l.(l_key)).1 := Owned lg]> l.(l_ledger) |>.

Lemma leg_ledger_with l lg : leg_ledger (with_ledger l lg) = lg.
Proof. unfold leg_ledger, ledger_at, with_ledger. cbn. by rewrite lookup_insert_eq. Qed.

Lemma ledger_ok_loaded l lg b now :
  ledger_ok l.(l_transfers) (leg_ledger l) ->
  l.(l_ledger) !! (ledger_address l.(l_key)).1 = Some (Owned lg) \/
  l.(l_ledger) !! (ledger_address l.(l_key)).1 = None /\ lg = ledger_empty b now ->
  ledger_ok l.(l_transfers) lg.
Proof.
  unfold leg_ledger, ledger_at. intros Hl [Hlg|[Hlg ->]]; rewrite Hlg in Hl; [done|].
  destruct Hl. by split.
Qed.

Lemma books_close env l body lg now l1 lg' st :
  books l -> ledger_ok l.(l_transfers) lg -> close env l body lg now = Ok (l1, lg', st) ->
  books (with_ledger l1 lg').
Proof.
  intros Hbk Hlg (r & r' & p' & sh & Hk & Hkind & Hz & Hcase & Hle & Hrc & _ & ->)%close_Ok.
  apply record_close_Ok in Hrc as (-> & Hsh & Hc1 & Hc2 & Hc3 & Hc4 & _).
  destruct Hbk as [Hr Hc [Hnn ? ? ? ? ?] _].
  destruct (Hr _ _ Hk) as [Hkey Hok]. unfold record_ok in Hok. rewrite Hkind in Hok.
  destruct Hok as (_ & Hatt & Hpos & Hstat). destruct Hlg as [? ? ? ? ?].
  unfold no_recall_fields in Hz. destruct Hz as (? & ? & ? & ? & ? & ?).
  destruct Hcase as [s n Hst Hpk -> Hs0 -> | Hst Hatt0 Hpk | Hst Hpk]; rewrite Hst in Hstat.
  - assert (Hpend := pending_only _ _ _ _ _ Hc Hr Hk ltac:(by left)).
    split; try rewrite leg_ledger_with; cbn [with_ledger].
    + apply records_ok_write; [done|done|]. unfold record_ok. cbn. rewrite Hkind.
      unfold allocation_ok, no_recall_fields, buckets_nonneg in *. cbn. cbn in Hle.
      split_and!; try done; lia.
    + eapply cycle_ok_end; try done; [by left|]. unfold is_open. cbn. naive_solver.
    + split; figures; lia.
    + split; figures; lia.
  - assert (Hpend := pending_only _ _ _ _ _ Hc Hr Hk ltac:(by right)).
    rewrite pending_of_other in Hpend by congruence.
    split; try rewrite leg_ledger_with; cbn [with_ledger].
    + apply records_ok_write; [done|done|]. unfold record_ok. cbn. rewrite Hkind.
      unfold allocation_ok, no_recall_fields. cbn. split_and!; try done; lia.
    + eapply cycle_ok_end; try done; [by right|]. unfold is_open. cbn. naive_solver.
    + split; figures; lia.
    + split; figures; lia.
  - assert (Hpend := pending_none _ _ _ Hc Hr Hpk).
    split; try rewrite leg_ledger_with; cbn [with_ledger].
    + apply records_ok_write; [done|done|]. unfold record_ok. cbn. rewrite Hkind.
      unfold allocation_ok, no_recall_fields. cbn. split_and!; try done; lia.
    + eapply cycle_ok_settled; try done. unfold is_open. cbn. naive_solver.
    + split; figures; lia.
    + split; figures; lia.
Qed.

Lemma books_recover env l body bump seq lg now l1 lg' st :
  books l -> ledger_ok l.(l_transfers) lg ->
  env.(e_transfer_record) = record_key l body.(re_transfer_id) ->
  recover env l body bump seq lg now = Ok (l1, lg', st) -> books (with_ledger l1 lg').
Proof.
  intros Hbk Hlg Hkey (s & n & Hpk & Hfree & -> & Hs0 & Hn & Himp & Hrr & _ & ->)%recover_Ok.
  apply record_recovery_Ok in Hrr as (Hc0 & Hc1 & Hc2 & Hc3 & Hc4 & _).
  destruct Hbk as [Hr Hc [Hnn ? ? ? ? ?] _]. destruct Hlg as [? ? ? ? ?].
  assert (Hpend := pending_none _ _ _ Hc Hr Hpk).
  assert (Hbound : 0 <= n /\ principal (l_position l) + n
                   <= sc_max_remote_principal (l_strategy l) /\
    n <= po_unattributed_custody (l_position l)
         + (tk_amount (w_custody (l_world l)) - custody_buckets (l_position l))).
  { unfold saturating_sub, buckets_nonneg, principal in *.
    destruct (tl_impaired_outstanding lg <=? u64_max); cbn in *; unfold u64_max in *; lia. }
  clear Hn. split; try rewrite leg_ledger_with; cbn [with_ledger].
  - apply records_ok_write; [done|done|]. unfold record_ok. cbn.
    unfold recovery_ok, no_recall_fields. cbn. split_and!; try done; lia.
  - eapply cycle_ok_settled; try done. unfold is_open. cbn. naive_solver.
  - split; figures; lia.
  - split; figures; lia.
Qed.

Lemma books_settlement env l bytes l' b :
  books l -> handle_settlement env l bytes = Ok (l', b) -> books l'.
Proof.
  intros Hbk (v & body & lg & l1 & lg' & st & _ & _ & _ & Hkey & Hlk & Hlg & Hset & _ & _
    & reports & outbound & ->)%handle_settlement_Ok.
  assert (Hlok : ledger_ok (l_transfers l) lg).
  { eapply ledger_ok_loaded; [apply Hbk|]. by rewrite <- Hlk. }
  assert (H1 : books (with_ledger l1 lg') /\ exists ts p, l1 = l <| l_transfers := ts |>
                 <| l_position := p |>).
  { destruct Hset as [? ? ? Hs|? ? ? Hs]; split.
    - by eapply books_close.
    - apply close_Ok in Hs as (? & ? & ? & ? & _ & _ & _ & _ & _ & _ & _ & ->). eauto.
    - by eapply books_recover.
    - apply recover_Ok in Hs as (? & ? & _ & _ & _ & _ & _ & _ & _ & _ & ->). eauto. }
  destruct H1 as (H1 & ts & p & ->). eapply (books_ext _ _ H1); try done.
  cbn. by rewrite Hlk.
Qed.

(** * Every instruction *)

Lemma books_report env l epoch l' b :
  books l -> process_publish_remote_report env l epoch = Ok (l', b) -> books l'.
Proof.
  intros Hbk (s & i & c & reports & outbound & -> & Hs & _ & _ & _ & _ & _ & ->)%process_report_Ok.
  eapply books_ext; [apply (books_reconciled l _ Hbk Hs)|done..]. lia.
Qed.

(** Arguments at their Rust width. *)
Definition ix_typed (ix : Ix) : Prop :=
  match ix with
  | IxConfigUpdate bytes | IxAllocate bytes | IxRecall bytes | IxSettlement bytes
  | IxResolve bytes => is_bytes bytes
  | IxAdvanceWatermark n | IxDeploy n | IxWithdraw n | IxSend n | IxPublishReport n => is_u64 n
  | _ => True
  end.

Lemma exec_inv env l ix l' bs :
  exec env l ix = Ok (l', bs) ->
  match ix with
  | IxFreeze => process_freeze env l = Ok l'
  | IxConfigUpdate bytes => handle_config_update env l bytes = Ok l'
  | IxAdvanceWatermark n => process_advance_replay_watermark env l n = Ok l'
  | IxCloseConsumed k => process_close_consumed_message env l k = Ok l'
  | IxReconcile => process_reconcile_custody env l = Ok l'
  | IxAllocate bytes => handle_allocate env l bytes = Ok l'
  | IxAttribute => process_attribute_allocation env l = Ok l'
  | IxDeploy amount => process_deploy_to_strategy env l amount = Ok l'
  | IxRecall bytes => handle_recall env l bytes = Ok l'
  | IxSettlement bytes => exists b, bs = [b] /\ handle_settlement env l bytes = Ok (l', b)
  | IxResolve bytes => exists ad, handle_resolve env l bytes = Ok (l', ad)
  | IxWithdraw n => process_withdraw_for_recall env l n = Ok l'
  | IxSend n => process_send_recall env l n = Ok l'
  | IxPublishReport epoch =>
      exists b, bs = [b] /\ process_publish_remote_report env l epoch = Ok (l', b)
  | IxPublishRecallSent => exists b, bs = [b] /\ process_publish_recall_sent env l = Ok (l', b)
  | IxAdoptPolicy k a => process_initialize_deploy_authorization env l k a = Ok l'
  end.
Proof.
  unfold exec, result_map. intros He.
  destruct ix; try (match type of He with (match ?m with _ => _ end) = _ =>
    destruct m as [[]|] eqn:Em || destruct m eqn:Em end; simplify_eq/=; eauto; fail).
  all: repeat case_match; simplify_eq/=; eauto.
  match goal with Hr : handle_resolve _ _ _ = Ok ?p |- _ => destruct p; eauto end.
Qed.

Lemma books_exec env l ix l' bs :
  ix_typed ix -> books l -> exec env l ix = Ok (l', bs) -> books l'.
Proof.
  intros Ht Hbk He%exec_inv. destruct ix; cbn in Ht.
  - apply process_freeze_Ok in He as (_ & _ & ->). by apply (books_ext l).
  - apply handle_config_update_Ok in He as (v & body & _ & _ & _ & He).
    destruct (vm_fresh v); [destruct He as (_ & _ & ->)|subst l']; by apply (books_ext l).
  - apply advance_watermark_Ok in He as (_ & _ & _ & _ & _ & ->). by apply (books_ext l).
  - apply close_consumed_Ok in He as (r & _ & _ & _ & ->). by apply (books_ext l).
  - apply process_reconcile_Ok in He as (s & -> & Hs & ->). apply books_reconciled; [done..|lia].
  - by eapply books_allocate.
  - by eapply books_attribute.
  - eapply books_deploy; [apply Ht|done..].
  - by eapply books_recall.
  - destruct He as (b & _ & He). by eapply books_settlement.
  - destruct He as (ad & He). by eapply books_resolve.
  - by eapply books_withdraw.
  - eapply books_send; [apply Ht|done..].
  - destruct He as (b & _ & He). by eapply books_report.
  - destruct He as (b & _ & He).
    apply process_recall_sent_Ok in He as (r & m & reports & outbound & _ & _ & _ & _ & _ & _ & _ & _ & _ & ->).
    by apply (books_ext l).
  - apply adopt_policy_Ok in He as (_ & policy & ->). by apply (books_ext l).
Qed.

End preserve.
