(* ===== verification/RemoteRuns.v ===== *)
(** Runs of a remote leg: sequences of instructions and of changes to the
    accounts of other programs, with the messages the leg consumed and the
    messages it published, and what every run preserves. *)

From Stdlib Require Import ZArith Lia.
From stdpp Require Import strings.
From S2P Require Import Prelude ProtocolLayout ProtocolTypes ProtocolCodec ProtocolWire.
From S2P Require Import ProtocolBodies ProtocolMessages RemoteState RemoteMessage.
From S2P Require Import RemotePlatform RemoteLeg RemoteSettle RemoteInit RemoteBooks.
From S2P Require Import RemoteEffects RemotePreserve.

(** The canonical message an instruction carries. *)
Definition ix_message (ix : Ix) : list (list Z) :=
  match ix with
  | IxConfigUpdate bytes | IxAllocate bytes | IxRecall bytes | IxSettlement bytes
  | IxResolve bytes => [bytes]
  | _ => []
  end.

(** Splits on the instruction and replaces the leg after it by its equation. *)
Ltac exec_cases He :=
  apply exec_inv in He;
  match type of He with match ?ix with _ => _ end => destruct ix end;
  [ apply process_freeze_Ok in He as (? & ? & ->)
  | apply handle_config_update_Ok in He as (v & body & ? & ? & ? & He)
  | apply advance_watermark_Ok in He as (? & ? & ? & ? & ? & ->)
  | apply close_consumed_Ok in He as (cr & ? & ? & ? & ->)
  | apply process_reconcile_Ok in He as (s & ? & ? & ->)
  | apply handle_allocate_Ok in He as (v & body & q & ? & ? & ? & ? & ? & ? & ? & ->)
  | apply process_attribute_Ok in He as (r & s & n & ? & ? & ? & ? & ? & ? & ? & ? & ? & ->)
  | apply process_deploy_Ok in He as (s & w & ? & ? & ? & ? & ? & ? & ? & ? & ? & ? & ->)
  | apply handle_recall_Ok in He as (v & body & ? & ? & ? & ? & ? & ? & ? & ? & ->)
  | destruct He as (b & -> & He); apply handle_settlement_Ok in He
      as (v & body & lg & l1 & lg' & st & ? & ? & ? & ? & ? & ? & Hset & ? & ? & reports
          & outbound & ->)
  | destruct He as (ad & He); apply handle_resolve_Ok in He
      as (v & body & l1 & ? & ? & -> & Had)
  | apply process_withdraw_Ok in He
      as (r & s & w & a & b & r' & p' & settled & ? & ? & ? & ? & ? & ? & ? & ? & ? & ? & ? & ?
          & ? & ? & ? & ? & ->)
  | apply process_send_Ok in He
      as (r & s & w & n & r' & p' & settled & ? & ? & ? & ? & ? & ? & ? & ? & ? & ? & ? & ? & ->)
  | destruct He as (b & -> & He); apply process_report_Ok in He
      as (s & i & c & reports & outbound & ? & ? & ? & ? & ? & ? & ? & ->)
  | destruct He as (b & -> & He); apply process_recall_sent_Ok in He
      as (r & m & reports & outbound & ? & ? & ? & ? & ? & ? & ? & ? & ? & ->)
  | apply adopt_policy_Ok in He as (? & policy & ->) ].

Section runs.
Context `{Chain}.
Implicit Types (l : Leg) (env : Env).

(** [run l0 ins outs l]: from [l0] the leg reached [l], consuming the
    messages [ins] and publishing [outs], in order.  Between instructions
    anyone may add to custody, and the other token accounts and the
    adapter's state may change in any way; only the custody authority,
    which signs inside the leg's own instructions, can take from it. *)
Inductive run (l0 : Leg) : list (list Z) -> list BuiltMessage -> Leg -> Prop :=
| run_start : run l0 [] [] l0
| run_ix ins outs l env ix l' bs :
    run l0 ins outs l -> ix_typed ix -> exec env l ix = Ok (l', bs) ->
    run l0 (ins ++ ix_message ix) (outs ++ bs) l'
| run_world ins outs l w :
    run l0 ins outs l ->
    l.(l_world).(w_custody).(tk_amount) <= w.(w_custody).(tk_amount) ->
    run l0 ins outs (l <| l_world := w |>).

(** A leg that was set up and then ran. *)
Definition reachable l : Prop :=
  exists se w p c max l0 ins outs,
    0 <= w.(w_custody).(tk_amount) /\ 0 <= max /\
    launch se w p c max = Ok l0 /\ run l0 ins outs l.

Lemma run_books l0 ins outs l : books l0 -> run l0 ins outs l -> books l.
Proof.
  intros H0. induction 1 as [|ins outs l env ix l' bs _ IH Ht He|ins outs l w _ IH Hw]; [done|..].
  - by eapply books_exec.
  - by apply (books_ext l).
Qed.

Lemma reachable_books l : reachable l -> books l.
Proof.
  intros (se & w & p & c & max & l0 & ins & outs & Hw & Hm & Hl & Hr).
  eapply run_books; [|done]. by eapply books_launch.
Qed.

(** * Consumed messages *)

Lemma consumes_next env l bytes class l' v :
  consumes env l bytes class l' v ->
  v.(vm_message).(m_header).(h_sequence) = l.(l_lane).(rl_highest_consumed_sequence) + 1 /\
  v.(vm_message).(m_header).(h_previous_commitment) = l.(l_lane).(rl_message_commitment) /\
  v.(vm_message_id) = message_id keccak bytes /\
  l.(l_lane).(rl_minimum_acceptable_sequence) <= v.(vm_message).(m_header).(h_sequence).
Proof.
  intros [_ _ _ Hv _ _ _ _]. unfold validate_inbound, remote_message_id, SEQUENCE_RULE,
    sequence_rule_check in Hv. leg_steps. bool_to_prop. cbn. by split_and!.
Qed.

(** The parts of a leg that identify it. *)
Definition same_identity l l' : Prop :=
  l'.(l_key) = l.(l_key) /\ l'.(l_strategy) = l.(l_strategy) /\
  l'.(l_config).(cf_control_lane_id) = l.(l_config).(cf_control_lane_id) /\
  l'.(l_config).(cf_report_lane_id) = l.(l_config).(cf_report_lane_id) /\
  l'.(l_config).(cf_emergency_guardian) = l.(l_config).(cf_emergency_guardian).

(** An instruction consumes the message it carries, or leaves the lane's
    head alone. *)
Definition lane_effect env l ix l' : Prop :=
  match ix_message ix with
  | [] =>
      l'.(l_lane).(rl_highest_consumed_sequence) = l.(l_lane).(rl_highest_consumed_sequence) /\
      l'.(l_lane).(rl_message_commitment) = l.(l_lane).(rl_message_commitment)
  | bytes :: _ => exists class v, consumes env l bytes class l' v
  end.

Lemma exec_lane env l ix l' bs :
  ix_typed ix -> exec env l ix = Ok (l', bs) -> lane_effect env l ix l'.
Proof.
  intros Ht He. unfold lane_effect. exec_cases He; cbn [ix_message]; try done; eauto.
Qed.

Lemma settles_identity env l body seq lg l1 lg' st :
  settles env l body seq lg l1 lg' st ->
  exists ts p, l1 = l <| l_transfers := ts |> <| l_position := p |>.
Proof.
  intros [? ? ? Hc|? ? ? Hc].
  - apply close_Ok in Hc as (? & ? & ? & ? & _ & _ & _ & _ & _ & _ & _ & ->). eauto.
  - apply recover_Ok in Hc as (? & ? & _ & _ & _ & _ & _ & _ & _ & _ & ->). eauto.
Qed.

Lemma exec_identity env l ix l' bs :
  ix_typed ix -> exec env l ix = Ok (l', bs) -> same_identity l l'.
Proof.
  intros Ht He. exec_cases He; try done.
  - destruct (vm_fresh v); [destruct He as (_ & _ & ->)|subst l']; done.
  - destruct Had as [->|(? & _ & _ & _ & _ & _ & _ & _ & _ & ->)]; done.
Qed.

(** * The inbound lane *)

(** The lane stands exactly where the consumed messages put it, each of
    them the next in its turn. *)
Definition lane_tracks l (ins : list (list Z)) : Prop :=
  l.(l_lane).(rl_highest_consumed_sequence) = Z.of_nat (length ins) /\
  l.(l_lane).(rl_message_commitment)
    = lane_commitment keccak wide_zero (message_id keccak <$> ins) /\
  forall i bytes, ins !! i = Some bytes ->
    exists m, decode_message keccak bytes = Ok m /\
      m.(m_header).(h_sequence) = Z.of_nat i + 1 /\
      m.(m_header).(h_previous_commitment)
        = lane_commitment keccak wide_zero (message_id keccak <$> take i ins).

Lemma lane_tracks_snoc env l bytes class l' v ins :
  lane_tracks l ins -> consumes env l bytes class l' v -> lane_tracks l' (ins ++ [bytes]).
Proof.
  intros (Hh & Hc & Hall) Hcs. pose proof (consumes_next _ _ _ _ _ _ Hcs) as (Hs & Hp & Hid & _).
  destruct Hcs as [_ _ _ Hv _ _ _ Hlane].
  apply validate_inbound_decode in Hv as (Hdec & _ & _). unfold lane_tracks. rewrite Hlane. cbn.
  rewrite length_app, fmap_app. split_and!.
  - cbn. lia.
  - unfold lane_commitment. rewrite foldl_app. cbn. by rewrite Hc, Hid.
  - intros i b [Hi|[Hi Hb]]%lookup_app_Some.
    + destruct (Hall i b Hi) as (m & ? & ? & Hpre). exists m. split_and!; try done.
      rewrite take_app_le by (apply lookup_lt_Some in Hi; lia). done.
    + apply list_lookup_singleton_Some in Hb as [Hi0 <-].
      assert (i = length ins) as -> by lia. exists (vm_message v). split_and!; [done|lia|].
      rewrite take_app_length. congruence.
Qed.

Lemma run_lane l0 ins outs l :
  lane_tracks l0 [] -> run l0 ins outs l -> lane_tracks l ins.
Proof.
  intros H0. induction 1 as [|ins outs l env ix l' bs _ IH Ht He|ins outs l w _ IH Hw]; [done|..|done].
  apply exec_lane in He; [|done]. unfold lane_effect in He.
  destruct ix; cbn [ix_message] in *;
    solve [ destruct He as (class & v & He); by eapply lane_tracks_snoc
          | rewrite app_nil_r; destruct He as [Hh Hc], IH as (? & ? & ?);
            unfold lane_tracks; rewrite Hh, Hc; done ].
Qed.

Lemma launch_lane se w p c max l : launch se w p c max = Ok l -> lane_tracks l [].
Proof.
  unfold launch, process_initialize_control_state. intros H0. leg_steps. by split_and!.
Qed.

(** * The outbound lane *)

(** What building a message promises. *)
Definition announces l (b : BuiltMessage) : Prop :=
  exists m, encode_message keccak m = Ok (em_as_bytes b.(bm_encoded)) /\
    m.(m_header).(h_sequence) = l.(l_outbound).(ol_next_sequence) /\
    m.(m_header).(h_previous_commitment) = l.(l_outbound).(ol_current_commitment) /\
    b.(bm_message_id) = message_id keccak (em_as_bytes b.(bm_encoded)) /\
    b.(bm_next_commitment)
      = next_commitment keccak l.(l_outbound).(ol_current_commitment) b.(bm_message_id).

Lemma build_announces l now body n b :
  build keccak (outbound_context l now) body n = Ok b -> announces l b.
Proof.
  intros (h & Hh & He & _ & Hid & _ & Hn)%build_Ok. unfold outbound_header in Hh. leg_steps.
  eexists. by split_and!.
Qed.

Lemma advance_Ok lane t c now lane' :
  advance lane t c now = Ok lane' ->
  lane'.(ol_next_sequence) = lane.(ol_next_sequence) + 1 /\
  lane'.(ol_current_commitment) = c /\ lane'.(ol_lane_id) = lane.(ol_lane_id).
Proof. unfold advance. intros Ha. destruct t; leg_steps; done. Qed.

(** An instruction publishes at most one message, at the lane's head. *)
Definition outbound_effect env l (bs : list BuiltMessage) l' : Prop :=
  match bs with
  | [] => l'.(l_outbound) = l.(l_outbound) /\ l'.(l_reports) = l.(l_reports)
  | [b] => announces l b /\ exists t, publishes env l t b l'
  | _ => False
  end.

Lemma exec_outbound env l ix l' bs :
  ix_typed ix -> exec env l ix = Ok (l', bs) -> outbound_effect env l bs l'.
Proof.
  intros Ht He. assert (Hsilent : bs = [] \/ exists b, bs = [b]).
  { unfold exec, result_map in He. destruct ix; repeat case_match; simplify_eq; eauto. }
  assert (Hbs : match ix with IxSettlement _ | IxPublishReport _ | IxPublishRecallSent => True
                | _ => bs = [] end).
  { unfold exec, result_map in He. destruct ix; repeat case_match; by simplify_eq. }
  clear Hsilent. exec_cases He; cbn [outbound_effect]; try (subst bs; cbn); try done.
  - destruct (vm_fresh v); [destruct He as (_ & _ & ->)|subst l']; done.
  - split; [|by eexists]. unfold build_transport_settlement in *. by eapply build_announces.
  - destruct Had as [->|(? & _ & _ & _ & _ & _ & _ & _ & _ & ->)]; done.
  - split; [|by eexists]. unfold build_remote_report in *. by eapply build_announces.
  - split; [|by eexists]. unfold build_recall_sent in *. by eapply build_announces.
Qed.

(** The outbound lane stands exactly where the published messages put it,
    and every one of them has its record. *)
Definition outbound_tracks l (outs : list BuiltMessage) : Prop :=
  l.(l_outbound).(ol_next_sequence) = Z.of_nat (length outs) + 1 /\
  l.(l_outbound).(ol_current_commitment)
    = lane_commitment keccak wide_zero (bm_message_id <$> outs) /\
  l.(l_outbound).(ol_lane_id) = l.(l_config).(cf_report_lane_id) /\
  forall i b, outs !! i = Some b ->
    (exists m, encode_message keccak m = Ok (em_as_bytes b.(bm_encoded)) /\
       m.(m_header).(h_sequence) = Z.of_nat i + 1 /\
       m.(m_header).(h_previous_commitment)
         = lane_commitment keccak wide_zero (bm_message_id <$> take i outs)) /\
    b.(bm_message_id) = message_id keccak (em_as_bytes b.(bm_encoded)) /\
    exists r, l.(l_reports) !! (report_address l.(l_key) l.(l_config).(cf_report_lane_id)
                                  (Z.of_nat i + 1)).1 = Some (Owned r) /\
      r.(rr_message_id) = b.(bm_message_id) /\ r.(rr_sequence) = Z.of_nat i + 1.

Lemma outbound_tracks_snoc env l b l' outs t :
  outbound_tracks l outs -> same_identity l l' -> announces l b -> publishes env l t b l' ->
  outbound_tracks l' (outs ++ [b]).
Proof.
  intros (Hn & Hc & Hid & Hall) (Hkey & _ & _ & Hrl & _) (m & Hm & Hseq & Hprev & Hbid & Hnext)
    [Hk Hslot (r & Hrep & _ & _ & Hrs & Hrm & _) Hadv].
  apply advance_Ok in Hadv as (Ha1 & Ha2 & Ha3). unfold outbound_tracks.
  rewrite Ha1, Ha2, Ha3, Hkey, Hrl, length_app, fmap_app, Hrep. split_and!; try done.
  - cbn. lia.
  - unfold lane_commitment. rewrite foldl_app. cbn. by rewrite Hnext, Hc.
  - intros i b' [Hi|[Hi Hb]]%lookup_app_Some.
    + destruct (Hall i b' Hi) as ((m' & ? & ? & Hpre) & ? & r' & Hr' & ? & ?).
      split_and!; [|done|].
      * exists m'. split_and!; try done.
        rewrite take_app_le by (apply lookup_lt_Some in Hi; lia). done.
      * exists r'. split_and!; try done. rewrite lookup_insert_ne; [done|congruence].
    + apply list_lookup_singleton_Some in Hb as [Hi0 <-].
      assert (i = length outs) as -> by lia. split_and!; [|done|].
      * exists m. split_and!; [done|lia|]. rewrite take_app_length. congruence.
      * exists r. rewrite <- Hid, <- Hn, <- Hk, lookup_insert_eq. split_and!; [done|done|lia].
Qed.

Lemma run_outbound l0 ins outs l :
  outbound_tracks l0 [] -> run l0 ins outs l -> outbound_tracks l outs.
Proof.
  intros H0. induction 1 as [|ins outs l env ix l' bs _ IH Ht He|ins outs l w _ IH Hw]; [done|..|done].
  pose proof (exec_identity _ _ _ _ _ Ht He) as Hsame.
  apply exec_outbound in He; [|done]. destruct bs as [|b [|]]; [| |done].
  - rewrite app_nil_r. destruct He as [Ho Hr], Hsame as (Hk & _ & _ & Hl & _).
    unfold outbound_tracks in *. by rewrite Ho, Hr, Hk, Hl.
  - destruct He as [Ha (t & Hp)]. by eapply outbound_tracks_snoc.
Qed.

Lemma launch_outbound se w p c max l : launch se w p c max = Ok l -> outbound_tracks l [].
Proof.
  unfold launch, process_initialize_outbound_state. intros H0. leg_steps. by split_and!.
Qed.

End runs.
