(* ===== verification/RemoteHistory.v ===== *)
(** What a run never undoes: the transfer records move only along the
    transitions of [transfer_step], published notices and consumed records
    stay where they are, the frozen leg only unwinds, and a reported state
    commitment stands for one state. *)

From Stdlib Require Import ZArith Lia.
From stdpp Require Import strings.
From S2P Require Import Prelude ProtocolLayout ProtocolTypes ProtocolCodec ProtocolWire.
From S2P Require Import ProtocolBodies ProtocolMessages RemoteState RemoteMessage.
From S2P Require Import RemotePlatform RemoteLeg RemoteSettle RemoteInit RemoteBooks.
From S2P Require Import RemoteEffects RemotePreserve RemoteRuns.

(** * The life of a transfer *)

(** A recall is complete as soon as the request is sent or lost. *)
Definition settled (r : TransferRecord) (now : Z) : TransferRecord :=
  if r.(tr_assets_sent) + r.(tr_realized_loss) =? r.(tr_requested_recall_amount)
  then r <| tr_status := SComplete |> <| tr_completed_at := now |> else r.

(** What a record looks like when it is created. *)
Definition fresh_transfer (r : TransferRecord) : Prop :=
  r.(tr_assets_withdrawn) = 0 /\ r.(tr_assets_sent) = 0 /\ r.(tr_realized_loss) = 0 /\
  r.(tr_strategy_principal_resolved) = 0 /\
  match r.(tr_transfer_kind) with
  | KAllocate => (r.(tr_status) = SPending \/ r.(tr_status) = SQuarantined) /\
      0 < r.(tr_authorized_amount) /\ r.(tr_attributed_amount) = 0 /\
      r.(tr_custody_principal_reserved) = 0
  | KRecall => 0 < r.(tr_requested_recall_amount) /\ r.(tr_attributed_amount) = 0 /\
      (r.(tr_status) = SPending /\
         0 <= r.(tr_custody_principal_reserved) <= r.(tr_requested_recall_amount) \/
       r.(tr_status) = SQuarantined /\ r.(tr_custody_principal_reserved) = 0)
  | KRecover => r.(tr_status) = SComplete /\ 0 <= r.(tr_attributed_amount) /\
      r.(tr_authorized_amount) = r.(tr_attributed_amount) /\
      r.(tr_custody_principal_reserved) = 0
  | KNone => False
  end.

(** The abstract machine of one transfer. *)
Inductive transfer_step (r : TransferRecord) : TransferRecord -> Prop :=
| step_admit_allocation :
    r.(tr_transfer_kind) = KAllocate -> r.(tr_status) = SQuarantined ->
    transfer_step r (r <| tr_status := SPending |>)
| step_admit_recall n :
    r.(tr_transfer_kind) = KRecall -> r.(tr_status) = SQuarantined ->
    0 <= n <= r.(tr_requested_recall_amount) ->
    transfer_step r ((r <| tr_custody_principal_reserved := n |>) <| tr_status := SPending |>)
| step_attribute n :
    r.(tr_transfer_kind) = KAllocate -> r.(tr_status) = SPending ->
    0 < n -> r.(tr_attributed_amount) + n < r.(tr_authorized_amount) ->
    transfer_step r (attributed_record r n)
| step_attribute_last n now :
    r.(tr_transfer_kind) = KAllocate -> r.(tr_status) = SPending ->
    0 < n -> r.(tr_attributed_amount) + n = r.(tr_authorized_amount) ->
    transfer_step r ((attributed_record r n) <| tr_status := SComplete |>
                       <| tr_completed_at := now |>)
| step_withdraw a b now :
    r.(tr_transfer_kind) = KRecall -> r.(tr_status) = SPending ->
    0 <= b <= a -> 0 < a ->
    r.(tr_custody_principal_reserved) + (r.(tr_strategy_principal_resolved) + a)
      <= r.(tr_requested_recall_amount) ->
    transfer_step r (settled (withdrawn_record r a b) now)
| step_send n now :
    r.(tr_transfer_kind) = KRecall -> r.(tr_status) = SPending -> 0 < n ->
    r.(tr_assets_sent) + n + r.(tr_realized_loss) <= r.(tr_requested_recall_amount) ->
    transfer_step r (settled (sent_record r n) now)
| step_close_pending n now :
    r.(tr_transfer_kind) = KAllocate -> r.(tr_status) = SPending ->
    0 <= n -> r.(tr_attributed_amount) + n <= r.(tr_authorized_amount) ->
    transfer_step r (((attributed_record r n) <| tr_completed_at := now |>)
                       <| tr_status := SClosed |>)
| step_close_quarantined now :
    r.(tr_transfer_kind) = KAllocate -> r.(tr_status) = SQuarantined ->
    r.(tr_attributed_amount) = 0 ->
    transfer_step r ((r <| tr_completed_at := now |>) <| tr_status := SClosed |>)
| step_close_complete :
    r.(tr_transfer_kind) = KAllocate -> r.(tr_status) = SComplete ->
    transfer_step r (r <| tr_status := SClosed |>).

(** What one transition of the store may be. *)
Inductive store_step (ts : Store TransferRecord) : Store TransferRecord -> Prop :=
| store_same : store_step ts ts
| store_create k r : ts !! k = None -> fresh_transfer r -> store_step ts (<[k := Owned r]> ts)
| store_move k r r' :
    ts !! k = Some (Owned r) -> transfer_step r r' -> store_step ts (<[k := Owned r']> ts).

(** The order along which a record moves: identity and terms are fixed, the
    counters only grow, and a settled record keeps its figures. *)
Record advances (r r' : TransferRecord) : Prop := {
  av_id : r'.(tr_transfer_id) = r.(tr_transfer_id);
  av_kind : r'.(tr_transfer_kind) = r.(tr_transfer_kind);
  av_sequence : r'.(tr_message_sequence) = r.(tr_message_sequence);
  av_authorized : r'.(tr_authorized_amount) = r.(tr_authorized_amount);
  av_requested : r'.(tr_requested_recall_amount) = r.(tr_requested_recall_amount);
  av_attributed : r.(tr_attributed_amount) <= r'.(tr_attributed_amount);
  av_withdrawn : r.(tr_assets_withdrawn) <= r'.(tr_assets_withdrawn);
  av_sent : r.(tr_assets_sent) <= r'.(tr_assets_sent);
  av_loss : r.(tr_realized_loss) <= r'.(tr_realized_loss);
  av_complete : r.(tr_status) = SComplete ->
    r' = r \/ r.(tr_transfer_kind) = KAllocate /\ r' = r <| tr_status := SClosed |>;
  av_closed : r.(tr_status) = SClosed -> r' = r;
  av_not_reopened : r'.(tr_status) = SQuarantined -> r.(tr_status) = SQuarantined
}.

Lemma advances_refl r : advances r r.
Proof. split; try done. by left. Qed.

Lemma advances_trans r1 r2 r3 : advances r1 r2 -> advances r2 r3 -> advances r1 r3.
Proof.
  intros [] []. split; try congruence; try lia.
  - intros Hc. destruct av_complete0 as [->|[Hk Hr]]; auto.
    rewrite av_closed1 by (by rewrite Hr). by right.
  - intros Hc. rewrite av_closed0 in * by done. auto.
  - auto.
Qed.

#[global] Instance advances_preorder : PreOrder advances.
Proof. split; [exact advances_refl|exact advances_trans]. Qed.

Lemma settled_other r now :
  (settled r now).(tr_transfer_id) = r.(tr_transfer_id) /\
  (settled r now).(tr_transfer_kind) = r.(tr_transfer_kind) /\
  (settled r now).(tr_message_sequence) = r.(tr_message_sequence) /\
  (settled r now).(tr_authorized_amount) = r.(tr_authorized_amount) /\
  (settled r now).(tr_requested_recall_amount) = r.(tr_requested_recall_amount) /\
  (settled r now).(tr_attributed_amount) = r.(tr_attributed_amount) /\
  (settled r now).(tr_assets_withdrawn) = r.(tr_assets_withdrawn) /\
  (settled r now).(tr_assets_sent) = r.(tr_assets_sent) /\
  (settled r now).(tr_realized_loss) = r.(tr_realized_loss) /\
  ((settled r now).(tr_status) = SQuarantined -> r.(tr_status) = SQuarantined).
Proof. unfold settled. case_match; by split_and!. Qed.

Lemma transfer_step_advances r r' : transfer_step r r' -> advances r r'.
Proof.
  destruct 1; try (split; cbn; try done; try lia; intros; first [congruence|by right]).
  - destruct (settled_other (withdrawn_record r a b) now) as (? & ? & ? & ? & ? & ? & ? & ? & ? & ?).
    cbn in *. split; try congruence; try lia; intros; first [congruence|auto].
  - destruct (settled_other (sent_record r n) now) as (? & ? & ? & ? & ? & ? & ? & ? & ? & ?).
    cbn in *. split; try congruence; try lia; intros; first [congruence|auto].
Qed.

(** Every record of a store is still there in the later one, further on. *)
Definition store_advances (ts ts' : Store TransferRecord) : Prop :=
  forall k r, ts !! k = Some (Owned r) -> exists r', ts' !! k = Some (Owned r') /\ advances r r'.

#[global] Instance store_advances_preorder : PreOrder store_advances.
Proof.
  split; intros ts1 k.
  - intros r Hr. exists r. by split.
  - intros ts3 H12 H23 k' r Hr. destruct (H12 k' r Hr) as (r2 & Hr2 & Ha).
    destruct (H23 k' r2 Hr2) as (r3 & Hr3 & Hb). exists r3. split; [done|by etrans].
Qed.

Lemma store_step_advances ts ts' : store_step ts ts' -> store_advances ts ts'.
Proof.
  destruct 1 as [|k r Hk _|k r r' Hk Hs]; [done| |]; intros k0 r0 Hr0.
  - exists r0. rewrite lookup_insert_ne by congruence. by split.
  - destruct (decide (k = k0)) as [<-|Hne].
    + rewrite Hk in Hr0. injection Hr0 as <-. exists r'. rewrite lookup_insert_eq.
      split; [done|by apply transfer_step_advances].
    + exists r0. rewrite lookup_insert_ne by done. by split.
Qed.

Lemma settle_recall_settled r p now r' p' b :
  settle_recall r p now = Ok (r', p', b) ->
  r' = settled r now /\ r.(tr_assets_sent) + r.(tr_realized_loss) <= r.(tr_requested_recall_amount).
Proof.
  intros [Hle Hb]%settle_Ok. split; [|done]. unfold settled.
  destruct b; destruct Hb as (Hb & -> & _); case_match; bool_to_prop; try done; lia.
Qed.

Section history.
Context `{Chain}.
Implicit Types (l : Leg) (env : Env).

(** * Every instruction follows the machine *)

Lemma settlement_step env l body seq lg l1 lg' st :
  books l -> settles env l body seq lg l1 lg' st ->
  store_step l.(l_transfers) l1.(l_transfers).
Proof.
  intros Hbk [? ? ? Hc|? ? ? Hc].
  - apply close_Ok in Hc as (r & r' & p' & s & Hr & Hk & _ & Hcase & Hle & _ & _ & ->).
    eapply store_move; [done|]. destruct Hcase as [s0 n Hst _ -> Hs ->|now|]; cbn in Hle.
    + destruct (bk_records _ Hbk _ _ Hr) as [_ Hok]. unfold record_ok in Hok.
      rewrite Hk in Hok. destruct Hok as (_ & ? & _).
      destruct (bk_position _ Hbk) as [(_ & _ & _ & ? & _)].
      apply step_close_pending; try done; lia.
    + by apply step_close_quarantined.
    + by apply step_close_complete.
  - apply recover_Ok in Hc as (s & n & _ & Hfree & -> & Hs & Hn & Himp & _ & _ & ->).
    apply store_create; [done|]. destruct (bk_position _ Hbk) as [(_ & _ & _ & ? & _)].
    unfold fresh_transfer. cbn. split_and!; try done. rewrite Hn. unfold saturating_sub, u64_max.
    repeat case_match; bool_to_prop; lia.
Qed.

Lemma attribute_step env l l' :
  books l -> process_attribute_allocation env l = Ok l' ->
  store_step l.(l_transfers) l'.(l_transfers).
Proof.
  intros Hbk (r & s & n & Hr & _ & Hk & Hst & -> & Hs & Hn & Hn0 & Hle & ->)%process_attribute_Ok.
  destruct (bk_position _ Hbk) as [(_ & _ & _ & ? & _)]. cbn.
  eapply store_move; [done|]. case_match; bool_to_prop; cbn in *.
  - apply step_attribute_last; try done; lia.
  - apply step_attribute; try done; lia.
Qed.

Lemma exec_transfers env l ix l' bs :
  books l -> ix_typed ix -> exec env l ix = Ok (l', bs) ->
  store_step l.(l_transfers) l'.(l_transfers).
Proof.
  intros Hbk Ht He. destruct (bk_position _ Hbk) as [(Hp0 & Hp1 & Hp2 & Hp3 & _)].
  pose proof (exec_inv _ _ _ _ _ He) as He0. exec_cases He; try done; try apply store_same.
  - destruct (vm_fresh v); [destruct He as (_ & _ & ->)|subst l']; apply store_same.
  - apply store_create; [done|]. unfold allocation_record, fresh_transfer.
    destruct (is_none q); cbn; split_and!; try done; try lia; auto.
  - by eapply attribute_step.
  - apply store_create; [done|]. unfold recall_record, fresh_transfer.
    destruct (vm_fresh v); cbn; split_and!; try done; try lia; [left; split; [done|lia]|by right].
  - cbn. eapply settlement_step; [done|exact Hset].
  - destruct Had as [->|(r & Hr & Hst & _ & _ & _ & _ & _ & Hadm & ->)]; [apply store_same|].
    cbn. eapply store_move; [done|]. destruct Hadm as [[Hk _]|[Hk Hle]]; rewrite Hk; cbn.
    + by apply step_admit_allocation.
    + destruct (bk_records _ Hbk _ _ Hr) as [_ Hok]. unfold record_ok, recall_ok in Hok.
      rewrite Hk in Hok. apply step_admit_recall; try done. lia.
  - match goal with Hs : settle_recall _ _ _ = _ |- _ =>
      apply settle_recall_settled in Hs as [-> _] end.
    eapply store_move; [done|]. apply step_withdraw; try done; lia.
  - match goal with Hs : settle_recall _ _ _ = _ |- _ =>
      apply settle_recall_settled in Hs as [-> Hle] end. cbn in Ht, Hle.
    eapply store_move; [done|]. destruct Ht. apply step_send; try done; lia.
Qed.

Lemma run_transfers l0 ins outs l :
  books l0 -> run l0 ins outs l -> store_advances l0.(l_transfers) l.(l_transfers).
Proof.
  intros H0. induction 1 as [|ins outs l env ix l' bs Hr IH Ht He|ins outs l w Hr IH Hw]; [done|..|done].
  etrans; [exact IH|]. apply store_step_advances. eapply exec_transfers; [|done..].
  by eapply run_books.
Qed.

Lemma run_identity l0 ins outs l : run l0 ins outs l -> same_identity l0 l.
Proof.
  induction 1 as [|ins outs l env ix l' bs Hr IH Ht He|ins outs l w Hr IH Hw]; [done|..|done].
  apply exec_identity in He; [|done]. unfold same_identity in *. intuition congruence.
Qed.

(** * Published notices *)

Lemma exec_markers env l ix l' bs :
  ix_typed ix -> exec env l ix = Ok (l', bs) ->
  forall k mk, l.(l_markers) !! k = Some (Owned mk) -> l'.(l_markers) !! k = Some (Owned mk).
Proof.
  intros Ht He k mk Hk. exec_cases He; try done.
  - destruct (vm_fresh v); [destruct He as (_ & _ & ->)|subst l']; done.
  - destruct Had as [->|(r & _ & _ & _ & _ & _ & _ & _ & _ & ->)]; done.
  - cbn. rewrite lookup_insert_ne by congruence. done.
Qed.

Lemma run_markers l0 ins outs l k m :
  run l0 ins outs l -> l0.(l_markers) !! k = Some (Owned m) ->
  l.(l_markers) !! k = Some (Owned m).
Proof.
  induction 1 as [|ins outs l env ix l' bs Hr IH Ht He|ins outs l w Hr IH Hw]; [done|..|done].
  intros Hk. eapply exec_markers; eauto.
Qed.

(** * Exposure to the strategy *)

(** Only a deployment adds to the deployed principal. *)
Lemma exec_deployed env l ix l' bs :
  books l -> ix_typed ix -> exec env l ix = Ok (l', bs) ->
  match ix with
  | IxDeploy amount => True
  | _ => l'.(l_position).(po_deployed_principal) <= l.(l_position).(po_deployed_principal)
  end.
Proof.
  intros Hbk Ht He. exec_cases He; try done; cbn; try lia.
  - destruct (vm_fresh v); [destruct He as (_ & _ & ->)|subst l']; done.
  - unfold allocation_position. by destruct (is_none q).
  - by case_match.
  - unfold recall_position. by case_match.
  - destruct Hset as [? ? ? Hc|? ? ? Hc].
    + apply close_Ok in Hc as (r & r' & p' & s & _ & _ & _ & Hcase & _ & _ & _ & ->).
      by destruct Hcase.
    + by apply recover_Ok in Hc as (? & ? & _ & _ & _ & _ & _ & _ & _ & _ & ->).
  - destruct Had as [->|(r & _ & _ & _ & _ & _ & _ & _ & _ & ->)]; [done|].
    cbn. by case_bool_decide.
  - match goal with Hs : settle_recall _ _ _ = _ |- _ => apply settle_Ok in Hs as [_ Hs] end.
    destruct settled; destruct_and!; subst; cbn; lia.
  - match goal with Hs : settle_recall _ _ _ = _ |- _ => apply settle_Ok in Hs as [_ Hs] end.
    destruct settled; destruct_and!; subst; cbn; lia.
Qed.

(** * The frozen leg *)

(** On a frozen leg nothing is deployed and no limit moves, and without the
    guardian the principal the leg answers for cannot grow. *)
Record unwinds env l l' : Prop := {
  uw_frozen : l'.(l_config).(cf_frozen) = true;
  uw_risk : l'.(l_risk) = l.(l_risk);
  uw_version : l'.(l_config).(cf_config_version) = l.(l_config).(cf_config_version);
  uw_deployed : l'.(l_position).(po_deployed_principal) <= l.(l_position).(po_deployed_principal);
  uw_principal : env.(e_guardian) <> Some l.(l_config).(cf_emergency_guardian) ->
    principal l'.(l_position) <= principal l.(l_position)
}.

Lemma exec_frozen env l ix l' bs :
  books l -> l.(l_config).(cf_frozen) = true -> ix_typed ix ->
  exec env l ix = Ok (l', bs) -> unwinds env l l'.
Proof.
  intros Hbk Hz Ht He. pose proof (exec_deployed _ _ _ _ _ Hbk Ht He) as Hd.
  exec_cases He; try done; cbn in Hd; try congruence.
  all: try match goal with Hc : consented _ _ |- _ => specialize (Hc Hz) end.
  all: try (split; try done; fail).
  - split; try done. unfold allocation_position. by destruct (is_none q).
  - destruct Had as [->|(r & _ & _ & _ & _ & _ & Hc & _ & _ & ->)]; [by split|].
    specialize (Hc Hz). by split.
  - split; try done. intros _. cbn. unfold principal.
    match goal with Hs : settle_recall _ _ _ = _ |- _ => apply settle_Ok in Hs as [_ Hs] end.
    destruct settled; destruct_and!; subst; cbn; lia.
  - split; try done. intros _. cbn. unfold principal.
    match goal with Hs : settle_recall _ _ _ = _ |- _ => apply settle_Ok in Hs as [_ Hs] end.
    destruct settled; destruct_and!; subst; cbn; lia.
Qed.

(** * Consumed records and the watermark *)

(** Every sequence from the watermark to the head still has its consumed
    record, the open cycle's among them. *)
Record watermark_ok l : Prop := {
  wo_records : forall s,
    l.(l_lane).(rl_minimum_acceptable_sequence) <= s
      <= l.(l_lane).(rl_highest_consumed_sequence) ->
    exists cr, l.(l_consumed) !! (consumed_address l.(l_key) l.(l_config).(cf_control_lane_id) s).1
                 = Some (Owned cr) /\ cr.(cm_sequence) = s;
  wo_active : l.(l_position).(po_active_transfer_kind) <> KNone ->
    l.(l_lane).(rl_minimum_acceptable_sequence) <= l.(l_position).(po_active_transfer_sequence)
      <= l.(l_lane).(rl_highest_consumed_sequence)
}.

(** An instruction keeps the open cycle, ends it, or opens one at the head. *)
Definition cycle_effect (ix : Ix) l l' : Prop :=
  l'.(l_position).(po_active_transfer_kind) = KNone \/
  (l'.(l_position).(po_active_transfer_kind) = l.(l_position).(po_active_transfer_kind) /\
   l'.(l_position).(po_active_transfer_sequence)
     = l.(l_position).(po_active_transfer_sequence)) \/
  (ix_message ix <> [] /\
   l'.(l_position).(po_active_transfer_sequence) = l'.(l_lane).(rl_highest_consumed_sequence)).

Lemma settle_cycle r p now r' p' b :
  settle_recall r p now = Ok (r', p', b) ->
  p'.(po_active_transfer_kind) = KNone \/ p' = p.
Proof.
  intros [_ Hb]%settle_Ok. destruct b; destruct Hb as (_ & _ & ->); [by left|by right].
Qed.

Lemma exec_cycle env l ix l' bs :
  ix_typed ix -> exec env l ix = Ok (l', bs) -> cycle_effect ix l l'.
Proof.
  intros Ht He. unfold cycle_effect. exec_cases He; try done; try (by right; left).
  - destruct (vm_fresh v); [destruct He as (_ & _ & ->)|subst l']; by right; left.
  - right; right. split; [done|]. cbn. unfold allocation_position. by destruct (is_none q).
  - cbn. case_match; [by left|by right; left].
  - right; right. split; [done|]. cbn. unfold recall_position. by case_match.
  - cbn. destruct Hset as [? ? ? Hc|? ? ? Hc].
    + apply close_Ok in Hc as (r & r' & p' & s & _ & _ & _ & Hcase & _ & _ & _ & ->).
      destruct Hcase; [by left|by left|by right; left].
    + apply recover_Ok in Hc as (? & ? & _ & _ & _ & _ & _ & _ & _ & _ & ->). by right; left.
  - right; left. destruct Had as [->|(r & _ & _ & _ & _ & _ & _ & _ & _ & ->)]; [done|].
    cbn. by case_bool_decide.
  - match goal with Hs : settle_recall _ _ _ = _ |- _ => apply settle_cycle in Hs as [Hs| ->] end;
      [by left|by right; left].
  - match goal with Hs : settle_recall _ _ _ = _ |- _ => apply settle_cycle in Hs as [Hs| ->] end;
      [by left|by right; left].
Qed.

Lemma watermark_consumes env l ix bytes class l' v :
  same_identity l l' -> cycle_effect ix l l' -> watermark_ok l ->
  consumes env l bytes class l' v -> watermark_ok l'.
Proof.
  intros (Hk & _ & Hl & _ & _) Hcy [Hrec Hact] Hcs.
  pose proof (consumes_next _ _ _ _ _ _ Hcs) as (Hs & _ & _ & Hmin).
  destruct Hcs as [_ _ _ _ Hkey Hfree Hnew Hlane].
  split; rewrite Hlane; cbn; rewrite ?Hk, ?Hl, ?Hnew.
  - intros s Hb. destruct (decide (s = h_sequence (m_header (vm_message v)))) as [->|Hne].
    + rewrite Hkey, lookup_insert_eq. by eexists.
    + destruct (Hrec s) as (cr & Hcr & Hseq); [lia|]. exists cr.
      rewrite lookup_insert_ne by congruence. done.
  - intros Hkind. destruct Hcy as [?|[[Hsame Hseq]|[_ Hhead]]]; [done| |].
    + rewrite Hseq. rewrite Hsame in Hkind. specialize (Hact Hkind). lia.
    + rewrite Hlane in Hhead. cbn in Hhead. lia.
Qed.

(** The lane's watermark and the consumed records of an instruction that
    consumes nothing. *)
Definition watermark_effect l l' : Prop :=
  (l'.(l_lane) = l.(l_lane) /\ l'.(l_consumed) = l.(l_consumed)) \/
  (exists n, l' = l <| l_lane, rl_minimum_acceptable_sequence := n |> /\
     l.(l_lane).(rl_minimum_acceptable_sequence) < n /\
     (l.(l_position).(po_active_transfer_kind) <> KNone ->
      n <= l.(l_position).(po_active_transfer_sequence))) \/
  (exists k cr, l' = l <| l_consumed := delete k l.(l_consumed) |> /\
     l.(l_consumed) !! k = Some (Owned cr) /\
     cr.(cm_sequence) < l.(l_lane).(rl_minimum_acceptable_sequence)).

Lemma exec_watermark env l ix l' bs :
  ix_typed ix -> exec env l ix = Ok (l', bs) -> ix_message ix = [] -> watermark_effect l l'.
Proof.
  intros Ht He Hm. unfold watermark_effect.
  exec_cases He; try discriminate Hm; try (by left).
  - right; left. eexists. by split_and!.
  - right; right. eexists _, cr. by split_and!.
Qed.

Lemma watermark_exec env l ix l' bs :
  watermark_ok l -> ix_typed ix -> exec env l ix = Ok (l', bs) -> watermark_ok l'.
Proof.
  intros Hok Ht He. pose proof (exec_identity _ _ _ _ _ Ht He) as Hid.
  pose proof (exec_cycle _ _ _ _ _ Ht He) as Hcy.
  pose proof (exec_lane _ _ _ _ _ Ht He) as Hlane. unfold lane_effect in Hlane.
  destruct (ix_message ix) as [|bytes ms] eqn:Hm.
  2: { destruct Hlane as (class & v & Hcs). by eapply watermark_consumes. }
  destruct (exec_watermark _ _ _ _ _ Ht He Hm)
    as [[Hl Hc]|[(n & -> & Hn & Hact)|(k & cr & -> & Hk & Hlt)]].
  - destruct Hok as [Hrec Hact], Hid as (Hk & _ & Hcl & _).
    split; rewrite Hl, ?Hc, ?Hk, ?Hcl; [done|].
    intros Hkind. destruct Hcy as [?|[[Hsame ->]|[? _]]]; [done|apply Hact; congruence|done].
  - destruct Hok as [Hrec Hact']. split; cbn.
    + intros s Hs. apply Hrec. lia.
    + intros Hkind. specialize (Hact Hkind). specialize (Hact' Hkind). lia.
  - destruct Hok as [Hrec Hact]. split; cbn; [|done].
    intros s Hs. destruct (Hrec s Hs) as (cr' & Hcr' & Hseq). exists cr'.
    rewrite lookup_delete_ne; [done|]. intros ->. rewrite Hk in Hcr'. simplify_eq. lia.
Qed.

Lemma run_watermark l0 ins outs l : watermark_ok l0 -> run l0 ins outs l -> watermark_ok l.
Proof.
  intros H0. induction 1 as [|ins outs l env ix l' bs _ IH Ht He|ins outs l w _ IH Hw]; [done|..].
  - by eapply watermark_exec.
  - by destruct IH.
Qed.

Lemma launch_watermark se w p c max l : launch se w p c max = Ok l -> watermark_ok l.
Proof.
  unfold launch, process_initialize_control_state, process_initialize_strategy_state.
  intros H0. leg_steps. split; cbn; [unfold FIRST_SEQUENCE; lia|done].
Qed.

(** * The open allocation *)

(** What the open allocation attributed is part of the principal. *)
Definition covered l : Prop :=
  forall k r, l.(l_transfers) !! k = Some (Owned r) -> r.(tr_transfer_kind) = KAllocate ->
    r.(tr_status) = SPending -> r.(tr_attributed_amount) <= principal l.(l_position).

Lemma covered_grows l l' :
  covered l -> l'.(l_transfers) = l.(l_transfers) ->
  principal l.(l_position) <= principal l'.(l_position) -> covered l'.
Proof.
  intros Hc Ht Hp k r Hr Hk Hs. rewrite Ht in Hr. specialize (Hc k r Hr Hk Hs). lia.
Qed.

Lemma covered_write l l' k r :
  covered l -> l'.(l_transfers) = <[k := Owned r]> l.(l_transfers) ->
  principal l.(l_position) <= principal l'.(l_position) ->
  (r.(tr_status) = SPending -> r.(tr_attributed_amount) <= principal l'.(l_position)) ->
  covered l'.
Proof.
  intros Hc Ht Hp Hnew k' r' Hr Hk Hs. rewrite Ht in Hr.
  apply lookup_insert_Some in Hr as [[<- [= <-]] | [_ Hr]]; [by apply Hnew|].
  specialize (Hc k' r' Hr Hk Hs). lia.
Qed.

(** Outside an allocation there is nothing to cover. *)
Lemma covered_other l :
  books l -> l.(l_position).(po_active_transfer_kind) <> KAllocate -> covered l.
Proof.
  intros Hbk Hne k r Hr Hk Hs. destruct (bk_cycle _ Hbk) as [Honly _].
  destruct (Honly k r Hr (or_introl Hs)) as [Hkind _]. congruence.
Qed.

Lemma covered_settlement env l body seq lg l1 lg' st l' :
  books l -> covered l -> settles env l body seq lg l1 lg' st ->
  l'.(l_transfers) = l1.(l_transfers) -> l'.(l_position) = l1.(l_position) -> covered l'.
Proof.
  intros Hbk Hc Hset Ht Hp. destruct (bk_position _ Hbk) as [(_ & _ & _ & Hu & _)].
  pose proof (settlement_step _ _ _ _ _ _ _ _ Hbk Hset) as Hstep.
  destruct Hset as [? ? ? Hs|? ? ? Hs].
  - apply close_Ok in Hs as (r & r' & p' & s & Hr & Hk & _ & Hcase & Hle & _ & _ & ->).
    destruct (bk_records _ Hbk _ _ Hr) as [_ Hok]. unfold record_ok, allocation_ok in Hok.
    rewrite Hk in Hok. destruct Hok as (_ & Hrange & _).
    eapply (covered_write l); [done|exact Ht| |done]. rewrite Hp.
    destruct Hcase as [s0 n Hst _ -> Hs ->| |]; unfold principal; cbn; lia.
  - apply recover_Ok in Hs as (s & n & _ & _ & -> & Hs & Hn & Himp & _ & _ & ->).
    eapply (covered_write l); [done|exact Ht| |done]. rewrite Hp.
    revert Hn. unfold saturating_sub, u64_max, principal. cbn. intros ->.
    repeat case_match; bool_to_prop; lia.
Qed.

Lemma covered_attribute env l l' :
  books l -> covered l -> process_attribute_allocation env l = Ok l' -> covered l'.
Proof.
  intros Hbk Hc (r & s & n & Hr & _ & Hk & Hst & -> & Hs & Hn & Hn0 & Hle & ->)%process_attribute_Ok.
  destruct (bk_position _ Hbk) as [(_ & _ & _ & ? & _)].
  assert (Hgrow : forall b : bool, principal (l_position l) + n = principal
    (if b then complete_transfer (attributed (l_position l)
       (tk_amount (w_custody (l_world l)) - custody_buckets (l_position l)) n)
       (tr_transfer_id (attributed_record r n)) (e_unix_timestamp env)
     else attributed (l_position l)
       (tk_amount (w_custody (l_world l)) - custody_buckets (l_position l)) n)).
  { intros []; unfold principal; cbn; lia. }
  specialize (Hc _ _ Hr Hk Hst) as Hcov.
  eapply (covered_write l); [done|reflexivity| |]; cbn; rewrite <- Hgrow; [lia|].
  case_match; [done|]. cbn. lia.
Qed.

Lemma covered_exec env l ix l' bs :
  books l -> covered l -> ix_typed ix -> exec env l ix = Ok (l', bs) -> covered l'.
Proof.
  intros Hbk Hc Ht He. pose proof (books_exec _ _ _ _ _ Ht Hbk He) as Hbk'.
  pose proof (exec_inv _ _ _ _ _ He) as He0.
  destruct (bk_position _ Hbk) as [(Hp0 & Hp1 & _)].
  exec_cases He; try done; try (eapply covered_grows; [done|done|unfold principal; cbn; lia]; fail).
  - destruct (vm_fresh v); [destruct He as (_ & _ & ->)|subst l']; done.
  - eapply covered_write; [done|reflexivity|..]; cbn;
      unfold allocation_position, allocation_record, principal; destruct (is_none q); cbn; lia.
  - eapply covered_attribute; [exact Hbk|exact Hc|exact He0].
  - apply covered_other; [done|]. cbn. unfold recall_position. by destruct (vm_fresh v).
  - eapply covered_settlement; [exact Hbk|exact Hc|exact Hset|reflexivity..].
  - destruct Had as [->|(r & Hr & Hst & Hkind & _ & _ & _ & _ & [[Hk _]|[Hk _]] & ->)]; [done| |].
    + destruct (bk_records _ Hbk _ _ Hr) as [_ Hok]. unfold record_ok, allocation_ok in Hok.
      rewrite Hk, Hst in Hok. destruct Hok as (_ & _ & _ & Hok).
      eapply covered_write; [done|reflexivity|..]; cbn; rewrite Hk;
        unfold principal; case_bool_decide; try done; cbn; lia.
    + apply covered_other; [done|]. cbn. case_bool_decide; cbn; congruence.
  - apply covered_other; [done|]. cbn.
    match goal with Hs : settle_recall _ _ _ = _ |- _ => apply settle_cycle in Hs as [Hend| ->] end;
      [by rewrite Hend|cbn; congruence].
  - apply covered_other; [done|]. cbn.
    match goal with Hs : settle_recall _ _ _ = _ |- _ => apply settle_cycle in Hs as [Hend| ->] end;
      [by rewrite Hend|cbn; congruence].
Qed.

Lemma run_covered l0 ins outs l :
  books l0 -> covered l0 -> run l0 ins outs l -> covered l.
Proof.
  intros Hb Hc. induction 1 as [|ins outs l env ix l' bs Hr IH Ht He|ins outs l w _ IH Hw]; [done|..|done].
  eapply covered_exec; [|done..]. by eapply run_books.
Qed.

Lemma launch_covered se w p c max l : launch se w p c max = Ok l -> covered l.
Proof.
  unfold launch. intros H0. leg_steps. intros k rec Hr. cbn in Hr. by rewrite lookup_empty in Hr.
Qed.

Lemma reachable_covered l : reachable l -> covered l.
Proof.
  intros (se & w & p & c & max & l0 & ins & outs & Hw & Hm & Hl & Hr).
  eapply run_covered; [by eapply books_launch|by eapply launch_covered|done].
Qed.

(** A report sets aside exactly what the open allocation attributed. *)
Lemma in_flight_Ok env l p n :
  books l -> covered l -> p.(po_active_transfer_kind) = l.(l_position).(po_active_transfer_kind) ->
  p.(po_active_transfer_id) = l.(l_position).(po_active_transfer_id) ->
  in_flight_attribution env l p = Ok n ->
  0 <= n <= principal l.(l_position) /\
  if bool_decide (l.(l_position).(po_active_transfer_kind) = KAllocate)
  then exists r, l.(l_transfers) !! record_key l l.(l_position).(po_active_transfer_id)
                   = Some (Owned r) /\ n = r.(tr_attributed_amount)
  else n = 0.
Proof.
  intros Hbk Hcov Hk Hi Hf. destruct (bk_position _ Hbk) as [(? & ? & _)].
  unfold in_flight_attribution in Hf. rewrite Hk, Hi in Hf.
  case_bool_decide as Hd; cbn [negb] in Hf; [|simplify_eq/=; unfold principal; lia].
  leg_steps. bool_to_prop.
  match goal with Hr : l_transfers l !! _ = Some (Owned ?x) |- _ =>
    rename x into r, Hr into Hrec end.
  match goal with He : keys_eq (tr_transfer_id r) _ = true |- _ => apply keys_eq_true in He as Hid end.
  destruct (bk_records _ Hbk _ _ Hrec) as [Hkey Hok].
  rewrite Hid in Hkey. rewrite Hkey in Hrec.
  destruct (co_some _ _ _ (bk_cycle _ Hbk)) as (r0 & Hr0 & Hopen & _); [congruence|].
  assert (r0 = r) as -> by congruence. unfold record_ok, allocation_ok in Hok.
  destruct (tr_transfer_kind r) eqn:Hkr; try done. destruct Hok as (_ & ? & _ & Hst).
  split; [|by exists r]. split; [lia|]. destruct Hopen as [Ho|Ho].
  - by eapply Hcov.
  - rewrite Ho in Hst. unfold principal. lia.
Qed.

(** * Approved deployments *)

(** What a passing authorization check established. *)
Lemma authorization_Ok a key ctx amount now u :
  authorization_check a key ctx amount now = Ok u ->
  let r := a.(au_receipt) in
  r.(dr_amount) = amount /\ r.(dr_consumed_at) = now /\ now < r.(dr_expires_at) /\
  r.(dr_remote_config) = key /\ r.(dr_config) = a.(au_policy).(ap_authorization_config) /\
  r.(dr_deployment_context) = context_commitment ctx /\
  exists i consume, a.(au_introspection).(in_current_index) = S i /\
    a.(au_introspection).(in_instructions) !! i = Some consume /\
    consume.(ix_program_id) = verifier_ID /\
    consume.(ix_data) = consume_discriminator ++ r.(dr_nonce) /\
    named consume CONSUME_RECEIPT_INDEX = Some a.(au_receipt_key).
Proof.
  unfold authorization_check, check_consumed_just_before. intros Ha. leg_steps. bool_to_prop.
  repeat match goal with Hk : keys_eq _ _ = true |- _ => apply keys_eq_true in Hk end.
  cbv zeta. split_and!; try done.
  destruct (in_current_index (au_introspection a)) as [|i] eqn:Hi; [done|].
  match goal with Hc : _ !! i = Some ?c |- _ => exists i, c end. by split_and!.
Qed.

(** What a deployment that succeeded checked of its receipt. *)
Lemma deployment_checked l env ix l' bs :
  reachable l -> ix_typed ix -> exec env l ix = Ok (l', bs) ->
  l.(l_position).(po_deployed_principal) < l'.(l_position).(po_deployed_principal) ->
  let r := env.(e_receipt) in
  exists amount policy,
    ix = IxDeploy amount /\ l.(l_config).(cf_frozen) = false /\
    l'.(l_position).(po_deployed_principal) = l.(l_position).(po_deployed_principal) + amount /\
    l.(l_policy) = Some policy /\ r.(dr_config) = policy.(ap_authorization_config) /\
    r.(dr_remote_config) = l.(l_key) /\ r.(dr_amount) = amount /\
    r.(dr_consumed_at) = env.(e_unix_timestamp) /\ env.(e_unix_timestamp) < r.(dr_expires_at) /\
    r.(dr_deployment_context) = context_commitment (deployment_context l.(l_key) l.(l_config)
      (strategy_config_address l.(l_key)).1 l.(l_strategy) l.(l_position)) /\
    exists i consume, env.(e_introspection).(in_current_index) = S i /\
      env.(e_introspection).(in_instructions) !! i = Some consume /\
      consume.(ix_program_id) = verifier_ID /\
      consume.(ix_data) = consume_discriminator ++ r.(dr_nonce) /\
      named consume CONSUME_RECEIPT_INDEX = Some env.(e_receipt_key).
Proof.
  intros Hl Ht He Hlt. pose proof (exec_deployed _ _ _ _ _ (reachable_books _ Hl) Ht He) as Hd.
  destruct ix; try lia. apply exec_inv in He.
  apply process_deploy_Ok in He as (s & w & Hz & _ & _ & _ & _ & (policy & Hp & Ha) & _ & _ & _ & _ & ->).
  apply authorization_Ok in Ha as (? & ? & ? & ? & ? & ? & ?).
  exists amount, policy. by split_and!.
Qed.

End history.

(** * The state commitment *)

(** The commitment over the reported state ([remote_state.rs]) is the digest
    of fixed-width fields, so it determines every field. *)

(** The widths of the committed fields, in order. *)
Definition FIELD_WIDTHS : list nat := [22; 32; 8; 1; 8; 8; 8; 8; 8; 32; 1; 1; 8; 32; 8; 8; 8]%nat.

(** Fields at their Rust width. *)
Definition view_typed (s : RemoteStateView) : Prop :=
  let p := s.(sv_position) in
  length s.(sv_remote_config) = WIDE /\ is_u64 s.(sv_config_version) /\
  is_u64 p.(po_attributed_principal) /\ is_u64 p.(po_deployed_principal) /\
  is_u64 p.(po_recalled_custody) /\ is_u64 p.(po_unattributed_custody) /\
  is_u64 p.(po_cumulative_realized_loss) /\ length p.(po_active_transfer_id) = WIDE /\
  is_u64 p.(po_active_transfer_sequence) /\ length p.(po_latest_completed_transfer_id) = WIDE /\
  - 2 ^ 63 <= p.(po_latest_completion_at) < 2 ^ 63 /\
  is_u64 s.(sv_custody_balance) /\ is_u64 s.(sv_adapter_principal).

(** Two views that agree on everything the leg reports. *)
Definition same_state (s s' : RemoteStateView) : Prop :=
  let p := s.(sv_position) in let p' := s'.(sv_position) in
  s.(sv_remote_config) = s'.(sv_remote_config) /\
  s.(sv_config_version) = s'.(sv_config_version) /\ s.(sv_frozen) = s'.(sv_frozen) /\
  p.(po_attributed_principal) = p'.(po_attributed_principal) /\
  p.(po_deployed_principal) = p'.(po_deployed_principal) /\
  p.(po_recalled_custody) = p'.(po_recalled_custody) /\
  p.(po_unattributed_custody) = p'.(po_unattributed_custody) /\
  p.(po_cumulative_realized_loss) = p'.(po_cumulative_realized_loss) /\
  p.(po_active_transfer_id) = p'.(po_active_transfer_id) /\
  p.(po_active_transfer_kind) = p'.(po_active_transfer_kind) /\
  p.(po_active_transfer_status) = p'.(po_active_transfer_status) /\
  p.(po_active_transfer_sequence) = p'.(po_active_transfer_sequence) /\
  p.(po_latest_completed_transfer_id) = p'.(po_latest_completed_transfer_id) /\
  p.(po_latest_completion_at) = p'.(po_latest_completion_at) /\
  s.(sv_custody_balance) = s'.(sv_custody_balance) /\
  s.(sv_adapter_principal) = s'.(sv_adapter_principal).

Lemma preimage_widths s : view_typed s -> length <$> preimage_fields s = FIELD_WIDTHS.
Proof.
  intros (H1 & _ & _ & _ & _ & _ & _ & H2 & _ & H3 & _). unfold preimage_fields, i64_to_be.
  cbn [fmap list_fmap]. rewrite !length_to_be, H1, H2, H3. reflexivity.
Qed.

Lemma length_concat (ls : list (list Z)) : length (concat ls) = sum_list (length <$> ls).
Proof. induction ls as [|x ls IH]; [done|]. cbn. by rewrite length_app, IH. Qed.

Lemma preimage_length s :
  view_typed s -> length (concat (preimage_fields s)) = REMOTE_STATE_PREIMAGE_LEN.
Proof. intros Hs. rewrite length_concat, preimage_widths by done. reflexivity. Qed.

(** Writing fields one after the other leaves their concatenation. *)
Lemma put_all fields out off :
  (off + length (concat fields) <= length out)%nat -> Z.of_nat (length out) <= usize_max ->
  try_fold put (out, off) fields
  = Ok (take off out ++ concat fields ++ drop (off + length (concat fields)) out,
        (off + length (concat fields))%nat).
Proof.
  revert out off. induction fields as [|f fields IH]; intros out off Hle Hmax.
  { cbn. rewrite Nat.add_0_r, take_drop. done. }
  cbn [concat try_fold] in *. rewrite length_app in *. unfold put at 1.
  assert (Hc : checked_add usize_max (Z.of_nat off) (Z.of_nat (length f))
               = Some (Z.of_nat (off + length f))).
  { apply checked_add_Some. lia. }
  rewrite Hc. cbn [ok_or]. rewrite (proj2 (Nat.leb_le _ _)) by lia. rewrite Nat2Z.id.
  assert (Hl : length (take off out ++ f ++ drop (off + length f) out) = length out).
  { rewrite !length_app, length_take, length_drop. lia. }
  cbn beta iota. rewrite IH by (rewrite Hl; lia). f_equal. f_equal; [|lia].
  assert (Ht : take (off + length f) (take off out ++ f ++ drop (off + length f) out)
               = take off out ++ f).
  { rewrite (app_assoc (take off out)). apply take_app_length'.
    rewrite length_app, length_take. lia. }
  rewrite Ht, <- !app_assoc. do 3 f_equal.
  rewrite (app_assoc (take off out)), drop_app_ge by (rewrite length_app, length_take; lia).
  rewrite drop_drop, length_app, length_take. f_equal. lia.
Qed.

Section committed.
Context (digest : list Z -> list Z).

(** The commitment is total on typed states, and is one digest. *)
Lemma commitment_digest s :
  view_typed s -> commitment digest s = Ok (digest (concat (preimage_fields s))).
Proof.
  intros Hs. unfold commitment, write_preimage. pose proof (preimage_length s Hs) as Hl.
  rewrite put_all by (rewrite ?Hl, length_replicate; vm_compute; done || lia).
  cbn [take app]. rewrite Nat.add_0_l, drop_ge, app_nil_r by (by rewrite length_replicate, Hl).
  rewrite (proj2 (Nat.leb_le _ _)) by done. unfold hashing_keccak256, hashing_keccak256_parts.
  cbn [concat]. rewrite app_nil_r, take_ge by done. done.
Qed.

End committed.

(** Fields of equal widths can be read back from their concatenation. *)
Lemma concat_inj (ls ls' : list (list Z)) :
  length <$> ls = length <$> ls' -> concat ls = concat ls' -> ls = ls'.
Proof.
  revert ls'. induction ls as [|x ls IH]; intros [|y ls'] Hl Hc; try done.
  cbn in Hl, Hc. injection Hl as Hxy Hl. apply app_inj_1 in Hc as [-> Hc]; [|done].
  f_equal. by apply IH.
Qed.

Lemma to_be_inj n v v' : fits (be_max n) v -> fits (be_max n) v' -> to_be n v = to_be n v' -> v = v'.
Proof. intros Hv Hv' He. rewrite <- (from_to_be n v), <- (from_to_be n v'), He by done. done. Qed.

Lemma i64_to_be_inj v v' :
  - 2 ^ 63 <= v < 2 ^ 63 -> - 2 ^ 63 <= v' < 2 ^ 63 -> i64_to_be v = i64_to_be v' -> v = v'.
Proof.
  intros Hv Hv' He. unfold i64_to_be in He.
  assert (Hm : v mod 2 ^ 64 = v' mod 2 ^ 64).
  { eapply (to_be_inj 8); [..|exact He]; unfold fits, be_max;
      pose proof (Z.mod_pos_bound v (2 ^ 64)); pose proof (Z.mod_pos_bound v' (2 ^ 64));
      change (256 ^ Z.of_nat 8) with (2 ^ 64); lia. }
  pose proof (Z.div_mod v (2 ^ 64)). pose proof (Z.div_mod v' (2 ^ 64)). nia.
Qed.

Lemma kind_u8_inj k k' : transfer_kind_to_u8 k = transfer_kind_to_u8 k' -> k = k'.
Proof. by destruct k, k'. Qed.

Lemma status_u8_inj k k' : transfer_status_to_u8 k = transfer_status_to_u8 k' -> k = k'.
Proof. by destruct k, k'. Qed.

Lemma preimage_inj s s' :
  view_typed s -> view_typed s' ->
  concat (preimage_fields s) = concat (preimage_fields s') -> same_state s s'.
Proof.
  intros Hs Hs' Hc. apply concat_inj in Hc; [|by rewrite !preimage_widths].
  unfold view_typed, same_state in *. cbv zeta in *. unfold preimage_fields in Hc. cbv zeta in Hc.
  assert (Hu := fun v v' => to_be_inj 8 v v'). assert (Hi := i64_to_be_inj).
  change (be_max 8) with u64_max in Hu.
  revert Hc Hu Hi. generalize (to_be 8) i64_to_be. intros u i Hc Hu Hi.
  injection Hc as ? ? Hf ? ? ? ? ? ? Hk Hst ? ? ? ? ?.
  split_and!; destruct_and?; first [assumption | apply kind_u8_inj; assumption
    | apply status_u8_inj; assumption | apply Hu; assumption | apply Hi; [lia|lia|assumption] | idtac].
  by destruct (sv_frozen s), (sv_frozen s').
Qed.
