(* ===== verification/RemoteSample.v ===== *)
(** A concrete remote leg: a chain with an honest token program and an
    adapter that returns nine tenths of what it is asked for, a leg set up
    on it, and scripts of instructions that witnesses evaluate. *)

From Stdlib Require Import ZArith Lia.
From stdpp Require Import strings.
From S2P Require Import Prelude ProtocolLayout ProtocolTypes ProtocolCodec ProtocolWire.
From S2P Require Import ProtocolBodies ProtocolMessages RemoteState RemoteMessage.
From S2P Require Import RemotePlatform RemoteLeg RemoteSettle RemoteInit RemoteBooks.
From S2P Require Import RemoteEffects RemotePreserve RemoteRuns.

(** * The chain *)

(** A digest cheap enough to evaluate often. *)
Definition sample_digest (l : list Z) : list Z :=
  to_be 32 (foldl (fun acc b => Z.land (acc * 257 + b + 1) (2 ^ 61 - 1)) 7 l).

Definition sample_side (s : TokenSide) (w : World) : TokenState :=
  match s with SideCustody => w.(w_custody) | SideVault => w.(w_vault) | SideEscrow => w.(w_escrow) end.

Definition sample_credit (s : TokenSide) (n : Z) (w : World) : World :=
  match s with
  | SideCustody => w <| w_custody := w.(w_custody) <| tk_amount := w.(w_custody).(tk_amount) + n |> |>
  | SideVault => w <| w_vault := w.(w_vault) <| tk_amount := w.(w_vault).(tk_amount) + n |> |>
  | SideEscrow => w <| w_escrow := w.(w_escrow) <| tk_amount := w.(w_escrow).(tk_amount) + n |> |>
  end.

Definition sample_transfer (a b : TokenSide) (n : Z) (w : World) : option World :=
  if n <=? (sample_side a w).(tk_amount) then Some (sample_credit b n (sample_credit a (- n) w))
  else None.

Definition sample_adapter_key : Key := replicate 32 81.

Definition sample_adapter_account (principal : Z) : AccountInfo := {|
  ai_owner := sample_adapter_key;
  ai_data := STATE_DISCRIMINATOR ++ replicate 228 0 ++ to_le 8 principal ++ replicate 18 0
|}.

Definition sample_principal (w : World) : Z :=
  match read_principal w.(w_adapter_state) with Ok p => p | Err _ => 0 end.

(** Deposits book the amount; withdrawals lose a tenth of it. *)
Definition sample_invoke (i : Instruction) (w : World) : option World :=
  let amount := from_le (drop 8 i.(ix_data)) in
  if bool_decide (take 8 i.(ix_data) = DEPOSIT_EXACT) then
    Some (w <| w_adapter_state := sample_adapter_account (sample_principal w + amount) |>)
  else
    (fun w' => w' <| w_adapter_state := sample_adapter_account (sample_principal w - amount) |>)
      <$> sample_transfer SideVault SideCustody (amount - amount / 10) w.

Definition sample_chain : Chain := {|
  crate_ID := replicate 32 201;
  verifier_ID := replicate 32 202;
  keccak := sample_digest;
  sha256 := fun b => sample_digest (7 :: b);
  find_program_address := fun seeds program =>
    (sample_digest (concat (seeds ++ [[255]]) ++ program), 255);
  create_program_address := fun seeds program => Some (sample_digest (concat seeds ++ program));
  consume_discriminator := [1; 2; 3; 4; 5; 6; 7; 8];
  spl_transfer := sample_transfer;
  invoke_signed := sample_invoke
|}.

(** The value of a result that is [Ok]. *)
Definition ok_value {E A} (r : result E A) : is_ok r = true -> A :=
  match r with Ok a => fun _ => a | Err _ => fun H => match Bool.diff_false_true H with end end.

Lemma ok_value_Ok {E A} (r : result E A) (H : is_ok r = true) : r = Ok (ok_value r H).
Proof. by destruct r. Qed.

#[global] Instance ix_typed_dec ix : Decision (ix_typed ix).
Proof. destruct ix; cbn; unfold fits; apply _. Defined.

(** * Scripts *)

Inductive Act :=
| ActArrive (amount : Z)
| ActAdopt
| ActAllocate (id amount lifetime : Z)
| ActAttribute (id : Z)
| ActDeploy (amount : Z)
| ActRecall (id amount : Z)
| ActWithdraw (id amount : Z)
| ActSend (id amount : Z)
| ActReport (epoch : Z)
| ActRecallSent (id : Z)
| ActResolve (action : ResolveAction) (id target : Z)
| ActSettle (action : ResolveAction) (id target : Z)
| ActFreeze
| ActWatermark (n : Z)
| ActCloseConsumed (sequence : Z).

Section scripts.
Context {C : Chain}.

Definition script_address (seeds : list (list Z)) (program : Key) : Key :=
  default [] (create_program_address seeds program).

Definition act_id (n : Z) : Bytes32 := to_be 32 n.

Definition sample_header (l : Leg) (now lifetime : Z) : Header := {|
  h_protocol_version := PROTOCOL_VERSION;
  h_schema_version := SCHEMA_VERSION;
  h_flags := 0;
  h_source_chain := l.(l_config).(cf_source_chain_id);
  h_destination_chain := l.(l_config).(cf_destination_chain_id);
  h_source_application := l.(l_config).(cf_source_application_id);
  h_destination_application := l.(l_config).(cf_local_application_id);
  h_deployment_id := l.(l_config).(cf_deployment_id);
  h_vault_id := l.(l_config).(cf_vault_id);
  h_lane_id := l.(l_lane).(rl_lane_id);
  h_sequence := l.(l_lane).(rl_highest_consumed_sequence) + 1;
  h_previous_commitment := l.(l_lane).(rl_message_commitment);
  h_observed_at := now - 20;
  h_published_at := now - 20;
  h_expires_at := now - 20 + lifetime
|}.

Definition sample_message (l : Leg) (now lifetime : Z) (b : Body) : list Z :=
  match encode_message keccak (mkMessage (sample_header l now lifetime) b) with
  | Ok bytes => bytes
  | Err _ => []
  end.

(** The transfer an action is about. *)
Definition act_transfer (a : Act) : Z :=
  match a with
  | ActAllocate id _ _ | ActAttribute id | ActRecall id _ | ActWithdraw id _ | ActSend id _
  | ActRecallSent id | ActResolve _ id _ | ActSettle _ id _ => id
  | _ => 0
  end.

Definition act_ix (l : Leg) (now : Z) (a : Act) : Ix :=
  let version := l.(l_config).(cf_config_version) in
  match a with
  | ActArrive _ => IxReconcile
  | ActAdopt => IxAdoptPolicy
      (script_address [DEPLOYMENT_AUTHORITY_SEED; crate_ID; l.(l_key); [255]] verifier_ID)
      (mkDeploymentAuthority DEPLOYMENT_PROFILE_VERSION 255 (replicate 32 30) crate_ID l.(l_key)
         (replicate 32 5) 1)
  | ActAllocate id n lifetime => IxAllocate (sample_message l now lifetime
      (BAllocate (mkAllocateBody (act_id id) n 5000 1 (now + 900) version)))
  | ActAttribute _ => IxAttribute
  | ActDeploy n => IxDeploy n
  | ActRecall id n => IxRecall (sample_message l now 600
      (BRecall (mkRecallBody (act_id id) n 1 (now + 900) version)))
  | ActWithdraw _ n => IxWithdraw n
  | ActSend _ n => IxSend n
  | ActReport epoch => IxPublishReport epoch
  | ActRecallSent _ => IxPublishRecallSent
  | ActResolve action id target => IxResolve (sample_message l now 600
      (BResolve (mkResolveBody (act_id id) target action version)))
  | ActSettle action id target => IxSettlement (sample_message l now 600
      (BResolve (mkResolveBody (act_id id) target action version)))
  | ActFreeze => IxFreeze
  | ActWatermark n => IxAdvanceWatermark n
  | ActCloseConsumed _ => IxCloseConsumed l.(l_config).(cf_administrator)
  end.

Definition act_signer (l : Leg) (a : Act) : Key :=
  match a with
  | ActAdopt | ActWatermark _ => l.(l_config).(cf_administrator)
  | ActFreeze => l.(l_config).(cf_emergency_guardian)
  | _ => l.(l_config).(cf_transport_verifier)
  end.

(** The receipt that approves deploying [n] now. *)
Definition sample_receipt (l : Leg) (now n : Z) : DeploymentReceipt :=
  let config := match l.(l_policy) with Some p => p.(ap_authorization_config) | None => [] end in
  {| dr_version := DEPLOYMENT_PROFILE_VERSION;
     dr_bump := 255;
     dr_config := config;
     dr_remote_config := l.(l_key);
     dr_risk_key := replicate 32 9;
     dr_nonce := replicate 16 10;
     dr_deployment_context := context_commitment (deployment_context l.(l_key) l.(l_config)
       (strategy_config_address l.(l_key)).1 l.(l_strategy) l.(l_position));
     dr_amount := n;
     dr_policy_generation := 1;
     dr_issued_at := now - 5;
     dr_expires_at := now + 60;
     dr_consumed_at := now;
     dr_message_hash := replicate 32 11 |}.

Definition sample_receipt_key (l : Leg) (r : DeploymentReceipt) : Key :=
  script_address [DEPLOYMENT_RECEIPT_SEED; r.(dr_config); r.(dr_nonce); [r.(dr_bump)]] verifier_ID.

Definition sample_introspection (l : Leg) (r : DeploymentReceipt) : Introspection := {|
  in_stack_height := TRANSACTION_LEVEL_STACK_HEIGHT;
  in_current_index := 1;
  in_instructions :=
    [ mkInstruction verifier_ID
        [ mkAccountMeta (replicate 32 1) true true; mkAccountMeta r.(dr_config) false false;
          mkAccountMeta (replicate 32 2) false false;
          mkAccountMeta (sample_receipt_key l r) false true ]
        (consume_discriminator ++ r.(dr_nonce));
      mkInstruction crate_ID [] [] ]
|}.

Definition act_env (l : Leg) (now : Z) (a : Act) : Env :=
  let amount := match a with ActDeploy n => n | _ => 0 end in
  let sequence := match a with
    | ActCloseConsumed s => s | _ => l.(l_lane).(rl_highest_consumed_sequence) + 1 end in
  let receipt := sample_receipt l now amount in
  {| e_unix_timestamp := now;
     e_signer := act_signer l a;
     e_guardian := None;
     e_funded := fun _ => true;
     e_transfer_record := record_key l (act_id (act_transfer a));
     e_consumed_message := (consumed_address l.(l_key) l.(l_config).(cf_control_lane_id) sequence).1;
     e_report_record := (report_address l.(l_key) l.(l_outbound).(ol_lane_id)
                           l.(l_outbound).(ol_next_sequence)).1;
     e_recall_sent_marker := (marker_address l.(l_key) (act_id (act_transfer a))).1;
     e_transport_ledger := (ledger_address l.(l_key)).1;
     e_active_transfer_record := Some (record_key l l.(l_position).(po_active_transfer_id));
     e_custody_token_account := l.(l_config).(cf_custody_token_account);
     e_outbound_escrow := l.(l_config).(cf_outbound_escrow);
     e_asset_mint := l.(l_config).(cf_asset_mint);
     e_token_program := l.(l_config).(cf_token_program);
     e_adapter_program := l.(l_strategy).(sc_adapter_program);
     e_adapter_state := l.(l_strategy).(sc_adapter_state);
     e_adapter_authority := l.(l_strategy).(sc_adapter_authority);
     e_adapter_token_vault := l.(l_strategy).(sc_adapter_token_vault);
     e_receipt_key := sample_receipt_key l receipt;
     e_receipt := receipt;
     e_introspection := sample_introspection l receipt |}.

(** One action; the clock moves on by ten. *)
Definition play_act (l : Leg) (now : Z) (a : Act) : Result (Leg * list (list Z) * list BuiltMessage) :=
  match a with
  | ActArrive n =>
      require 0 <=? n or CalleeFailed;
      Ok (l <| l_world := sample_credit SideCustody n l.(l_world) |>, [], [])
  | _ =>
      let ix := act_ix l now a in
      require bool_decide (ix_typed ix) or CalleeFailed;
      let? '(l', bs) := exec (act_env l now a) l ix in
      Ok (l', ix_message ix, bs)
  end.

Fixpoint play (l : Leg) (now : Z) (acts : list Act)
    : Result (Leg * list (list Z) * list BuiltMessage) :=
  match acts with
  | [] => Ok (l, [], [])
  | a :: acts =>
      let? '(l1, i1, o1) := play_act l now a in
      let? '(l2, i2, o2) := play l1 (now + 10) acts in
      Ok (l2, i1 ++ i2, o1 ++ o2)
  end.

Lemma run_trans l0 ins1 outs1 l1 ins2 outs2 l2 :
  run l0 ins1 outs1 l1 -> run l1 ins2 outs2 l2 -> run l0 (ins1 ++ ins2) (outs1 ++ outs2) l2.
Proof.
  intros H1. induction 1 as [|ins outs l env ix l' bs _ IH Ht He|ins outs l w _ IH Hw].
  - by rewrite !app_nil_r.
  - rewrite !app_assoc. by eapply run_ix.
  - by apply run_world.
Qed.

Lemma play_act_run l now a l' ins outs :
  play_act l now a = Ok (l', ins, outs) -> run l ins outs l'.
Proof.
  intros Hp. destruct a; try (unfold play_act in Hp;
    destruct (bool_decide _) eqn:Ht; [apply bool_decide_eq_true in Ht|done];
    destruct (exec _ _ _) as [[l1 bs]|] eqn:He; [|done]; injection Hp as <- <- <-;
    exact (run_ix _ _ _ _ _ _ _ _ (run_start _) Ht He)).
  unfold play_act in Hp. invert_step. bool_to_prop. injection Hp as <- <- <-.
  apply run_world; [apply run_start|]. cbn. lia.
Qed.

Lemma play_run l now acts l' ins outs :
  play l now acts = Ok (l', ins, outs) -> run l ins outs l'.
Proof.
  revert l now ins outs. induction acts as [|a acts IH]; intros l now ins outs Hp.
  { injection Hp as <- <- <-. apply run_start. }
  cbn [play] in Hp. destruct (play_act l now a) as [[[l1 i1] o1]|] eqn:H1; [|done].
  destruct (play l1 (now + 10) acts) as [[[l2 i2] o2]|] eqn:H2; [|done].
  injection Hp as <- <- <-. eapply run_trans; [by eapply play_act_run|by eapply IH].
Qed.

End scripts.

#[local] Existing Instance sample_chain.

(** * The setup *)

Definition sample_params : InitializeParams := {|
  ip_deployment_id := replicate 32 208;
  ip_vault_id := replicate 32 14;
  ip_source_chain_id := 1;
  ip_destination_chain_id := 2;
  ip_source_application_id := replicate 32 161;
  ip_local_application_id := replicate 32 178;
  ip_control_lane_id := 7;
  ip_report_lane_id := 8;
  ip_config_version := 1;
  ip_transport_verifier := replicate 32 31;
  ip_emergency_guardian := replicate 32 32
|}.

Definition sample_control : ControlStateParams := {|
  cp_max_remote_allocation_bps := 5000;
  cp_max_upward_deviation_bps := 100;
  cp_max_downward_deviation_bps := 200;
  cp_max_report_age := 3600;
  cp_config_commitment := replicate 32 99;
  cp_mandatory_watermark_lag := 1
|}.

Definition sample_key : Key := (find_program_address (config_seeds sample_params) crate_ID).1.

Definition sample_adapter_state : Key :=
  (find_program_address [ADAPTER_STATE_SEED; sample_key] sample_adapter_key).1.

Definition sample_adapter_authority : Key :=
  (find_program_address [ADAPTER_AUTHORITY_SEED; sample_adapter_state] sample_adapter_key).1.

Definition sample_setup : SetupEnv := {|
  se_unix_timestamp := 1000;
  se_administrator := replicate 32 30;
  se_upgrade_authority := replicate 32 29;
  se_program_upgrade_authority := Some (replicate 32 29);
  se_asset_mint := replicate 32 61;
  se_mint_decimals := REQUIRED_MINT_DECIMALS;
  se_token_program := replicate 32 62;
  se_custody_token_account := replicate 32 63;
  se_outbound_escrow := replicate 32 64;
  se_adapter_program := sample_adapter_key;
  se_adapter_executable := true;
  se_adapter_state := sample_adapter_state;
  se_adapter_authority := sample_adapter_authority;
  se_adapter_token_vault := replicate 32 65
|}.

Definition sample_token (amount : Z) (owner : Key) : TokenState := {|
  tk_amount := amount;
  tk_owner := owner;
  tk_mint := replicate 32 61;
  tk_delegate := None;
  tk_close_authority := None;
  tk_program := replicate 32 62
|}.

Definition sample_world : World := {|
  w_custody := sample_token 0 (custody_authority sample_key).1;
  w_vault := sample_token 0 sample_adapter_authority;
  w_escrow := sample_token 0 (replicate 32 66);
  w_adapter_state := sample_adapter_account 0
|}.

Definition sample_launch : Result Leg :=
  launch sample_setup sample_world sample_params sample_control 1000000.

Definition sample_play (acts : list Act) : Result (Leg * list (list Z) * list BuiltMessage) :=
  let? l := sample_launch in play l 2000 acts.

(** * The story the witnesses tell *)

Lemma sample_launch_ok : is_ok sample_launch = true.
Proof. vm_compute. reflexivity. Qed.

(** The leg right after setup. *)
Definition sample_leg : Leg := ok_value sample_launch sample_launch_ok.

Lemma sample_leg_launched :
  launch sample_setup sample_world sample_params sample_control 1000000 = Ok sample_leg.
Proof. apply (ok_value_Ok sample_launch). Qed.

(** Allocates, deploys, and recalls with a loss. *)
Definition deployed_story : list Act :=
  [ActAdopt; ActAllocate 1 1000 600; ActArrive 1000; ActAttribute 1; ActDeploy 600].

Definition recalled_story : list Act :=
  deployed_story ++ [ActRecall 2 700; ActWithdraw 2 300; ActSend 2 10000].

(** Publishes the notice and a report, closes a short allocation and
    recovers part of the shortfall. *)
Definition closed_story : list Act :=
  recalled_story ++ [ActRecallSent 2; ActReport 1; ActAllocate 3 500 600; ActArrive 200;
    ActAttribute 3; ActSettle ActClose 3 3; ActArrive 100; ActSettle ActRecover 4 3].

Definition frozen_story : list Act := closed_story ++ [ActFreeze].

Record Story := mkStory {
  sy_leg : Leg;
  sy_ins : list (list Z);
  sy_outs : list BuiltMessage;
  sy_run : run sample_leg sy_ins sy_outs sy_leg
}.

(** The leg a script reaches. *)
Definition told (acts : list Act) : Result (Leg * list (list Z) * list BuiltMessage) :=
  play sample_leg 2000 acts.

Definition tell (acts : list Act) (H : is_ok (told acts) = true) : Story :=
  let v := ok_value (told acts) H in
  mkStory v.1.1 v.1.2 v.2
    (play_run sample_leg 2000 acts v.1.1 v.1.2 v.2
       (eq_trans (ok_value_Ok (told acts) H)
          (f_equal Ok (match v as q return q = (q.1.1, q.1.2, q.2) with (_, _, _) => eq_refl end)))).

Lemma deployed_story_ok : is_ok (told deployed_story) = true.
Proof. vm_compute. reflexivity. Qed.

Lemma recalled_story_ok : is_ok (told recalled_story) = true.
Proof. vm_compute. reflexivity. Qed.

Lemma closed_story_ok : is_ok (told closed_story) = true.
Proof. vm_compute. reflexivity. Qed.

Lemma frozen_story_ok : is_ok (told frozen_story) = true.
Proof. vm_compute. reflexivity. Qed.

Definition deployed_tale : Story := tell deployed_story deployed_story_ok.
Definition recalled_tale : Story := tell recalled_story recalled_story_ok.
Definition closed_tale : Story := tell closed_story closed_story_ok.
Definition frozen_tale : Story := tell frozen_story frozen_story_ok.

Lemma story_reachable (s : Story) : reachable s.(sy_leg).
Proof.
  exists sample_setup, sample_world, sample_params, sample_control, 1000000, sample_leg,
    s.(sy_ins), s.(sy_outs). split_and!; [cbn; lia|lia|exact sample_leg_launched|apply sy_run].
Qed.

(** The deployment of the sample. *)
Definition before_deploy : list Act := take 4 deployed_story.

Lemma before_deploy_ok : is_ok (told before_deploy) = true.
Proof. vm_compute. reflexivity. Qed.

Definition funded_leg : Leg := sy_leg (tell before_deploy before_deploy_ok).

Definition deploy_env : Env := act_env funded_leg 2040 (ActDeploy 600).
