(* ===== verification/RemoteTheorems.v ===== *)
(** The properties of the remote leg ([programs/solevm-remote-leg/src]): its
    books balance after any sequence of instructions, whatever the token
    program and the strategy adapter do; messages are consumed and published
    once and in order; transfers follow one machine; exposure to the strategy
    needs an approval, and a frozen leg only unwinds. *)

From Stdlib Require Import ZArith Lia.
From stdpp Require Import strings.
From S2P Require Import Prelude ProtocolLayout ProtocolTypes ProtocolCodec ProtocolWire.
From S2P Require Import ProtocolBodies ProtocolMessages RemoteState RemoteMessage.
From S2P Require Import RemotePlatform RemoteLeg RemoteSettle RemoteInit RemoteBooks.
From S2P Require Import RemoteEffects RemotePreserve RemoteRuns RemoteHistory.
From S2P Require Import RemoteSample.

#[local] Existing Instance sample_chain.

(** * The books *)



(** C13. A leg never answers for more than its ceiling: the principal it holds
    and deployed, together with what its open allocation may still bring in,
    stays within the strategy's maximum, and nothing is pending between
    cycles. *)
Theorem principal_ceiling (C : Chain) l :
  reachable l ->
  l.(l_position).(po_attributed_principal) + l.(l_position).(po_deployed_principal)
    + total pending_of l.(l_transfers) <= l.(l_strategy).(sc_max_remote_principal) /\
  (l.(l_position).(po_active_transfer_kind) = KNone -> total pending_of l.(l_transfers) = 0).
Proof.
  intros [Hr Hc [] _]%reachable_books. split; [done|]. by eapply pending_none.
Qed.

Lemma principal_ceiling_witness :
  po_attributed_principal (l_position (sy_leg deployed_tale)) = 400 /\
  total pending_of (l_transfers (sy_leg deployed_tale)) = 0.
Proof.
  destruct (principal_ceiling sample_chain (sy_leg deployed_tale)
    (story_reachable deployed_tale)) as [_ Hn].
  split; [vm_compute; reflexivity|]. apply Hn. vm_compute. reflexivity.
Defined.

(** C14. The transport ledger explains every closed allocation: the claims it
    counted are the authorized amounts of the closed records, the credits what
    they attributed, the recoveries what the recovery records credited, and
    the impaired amount is the part of the claims neither credited nor
    recovered. *)
Theorem ledger_explains_closures (C : Chain) l :
  reachable l ->
  let g := leg_ledger l in
  g.(tl_cumulative_closed_claim) = total claim_of l.(l_transfers) /\
  g.(tl_cumulative_closed_credit) = total credit_of l.(l_transfers) /\
  g.(tl_cumulative_recovered) = total recovered_of l.(l_transfers) /\
  g.(tl_impaired_outstanding)
    = total claim_of l.(l_transfers) - total credit_of l.(l_transfers)
      - total recovered_of l.(l_transfers) /\
  0 <= g.(tl_impaired_outstanding).
Proof. intros [_ _ _ []]%reachable_books. cbv zeta. split_and!; try done. lia. Qed.

Lemma ledger_explains_closures_witness :
  tl_impaired_outstanding (leg_ledger (sy_leg closed_tale)) = 200 /\
  tl_cumulative_closed_claim (leg_ledger (sy_leg closed_tale))
    = total claim_of (l_transfers (sy_leg closed_tale)).
Proof.
  destruct (ledger_explains_closures sample_chain (sy_leg closed_tale)
    (story_reachable closed_tale)) as [Hc _]. split; [vm_compute; reflexivity|exact Hc].
Defined.

(** C15. Recalls settle exactly: a completed recall sent or lost precisely
    what was requested, everything it set aside or withdrew went out, and
    between cycles no recalled custody is left behind. *)
Theorem recall_settles_exactly (C : Chain) l :
  reachable l ->
  (forall k r, l.(l_transfers) !! k = Some (Owned r) ->
     r.(tr_transfer_kind) = KRecall -> r.(tr_status) = SComplete ->
     r.(tr_assets_sent) + r.(tr_realized_loss) = r.(tr_requested_recall_amount) /\
     r.(tr_custody_principal_reserved) + r.(tr_assets_withdrawn) = r.(tr_assets_sent) /\
     r.(tr_assets_withdrawn) + r.(tr_realized_loss) = r.(tr_strategy_principal_resolved)) /\
  (l.(l_position).(po_active_transfer_kind) = KNone ->
   l.(l_position).(po_recalled_custody) = 0).
Proof.
  intros [Hr Hc [] _]%reachable_books. split.
  - intros k r Hk Hkind Hst. destruct (Hr k r Hk) as [_ Hok]. unfold record_ok, recall_ok in Hok.
    rewrite Hkind, Hst in Hok. lia.
  - intros Hk. rewrite pk_recalled. by eapply recalled_none.
Qed.

Lemma recall_settles_exactly_witness :
  w_escrow (l_world (sy_leg recalled_tale)) = sample_token 670 (replicate 32 66) /\
  po_recalled_custody (l_position (sy_leg recalled_tale)) = 0.
Proof.
  destruct (recall_settles_exactly sample_chain (sy_leg recalled_tale)
    (story_reachable recalled_tale)) as [_ Hn].
  split; [vm_compute; reflexivity|]. apply Hn. vm_compute. reflexivity.
Defined.

(** * The inbound lane *)

(** C16. Control messages are consumed exactly once and in order: after any
    run the lane's head counts the consumed messages, the i-th of them carries
    sequence i and commits to the ones before it, none of them appears twice,
    and presenting any of them again is refused, whoever presents it. *)
Theorem messages_consumed_once (C : Chain) se w p c max l0 ins outs l :
  launch se w p c max = Ok l0 -> run l0 ins outs l ->
  l.(l_lane).(rl_highest_consumed_sequence) = Z.of_nat (length ins) /\
  l.(l_lane).(rl_message_commitment)
    = lane_commitment keccak wide_zero (message_id keccak <$> ins) /\
  (forall i bytes, ins !! i = Some bytes ->
     exists m, decode_message keccak bytes = Ok m /\ m.(m_header).(h_sequence) = Z.of_nat i + 1 /\
       m.(m_header).(h_previous_commitment)
         = lane_commitment keccak wide_zero (message_id keccak <$> take i ins)) /\
  NoDup ins /\
  (forall env ix bytes, ix_typed ix -> ix_message ix = [bytes] -> bytes ∈ ins ->
     exists e, exec env l ix = Err e).
Proof.
  intros Hl Hr. pose proof (run_lane _ _ _ _ (launch_lane _ _ _ _ _ _ Hl) Hr) as (Hh & Hc & Hall).
  split_and!; try done.
  - apply NoDup_alt. intros i j b Hi Hj. destruct (Hall i b Hi) as (m & Hm & Hs & _).
    destruct (Hall j b Hj) as (m' & Hm' & Hs' & _). assert (m' = m) as -> by congruence. lia.
  - intros env ix bytes Ht Hm [i Hi]%list_elem_of_lookup.
    destruct (exec env l ix) as [[l' bs]|e] eqn:He; [exfalso|by eexists].
    apply exec_lane in He; [|done]. unfold lane_effect in He. rewrite Hm in He.
    destruct He as (class & v & Hcs). pose proof (consumes_next _ _ _ _ _ _ Hcs) as (Hs & _ & _ & _).
    destruct Hcs as [_ _ _ Hv _ _ _ _]. apply validate_inbound_decode in Hv as (Hd & _ & _).
    destruct (Hall i bytes Hi) as (m & Hm' & Hs' & _). rewrite Hd in Hm'. injection Hm' as <-.
    apply lookup_lt_Some in Hi. lia.
Qed.

Lemma messages_consumed_once_witness :
  NoDup (sy_ins closed_tale) /\ length (sy_ins closed_tale) = 5%nat.
Proof.
  split; [|vm_compute; reflexivity].
  destruct (messages_consumed_once sample_chain sample_setup sample_world sample_params
    sample_control 1000000 sample_leg (sy_ins closed_tale) (sy_outs closed_tale)
    (sy_leg closed_tale) sample_leg_launched (sy_run closed_tale)) as (_ & _ & _ & Hn & _).
  exact Hn.
Defined.

(** * Exposure *)

(** C17. Exposure to the strategy needs an approval: an instruction that
    raises the deployed principal is a deployment on an unfrozen leg, of
    exactly the amount of a receipt that the instruction just before it
    consumed at this second, not yet expired, issued under the leg's adopted
    policy and for exactly the leg's current configuration and deployed
    principal. *)
Theorem exposure_needs_approval (C : Chain) l env ix l' bs :
  reachable l -> ix_typed ix -> exec env l ix = Ok (l', bs) ->
  l.(l_position).(po_deployed_principal) < l'.(l_position).(po_deployed_principal) ->
  let r := env.(e_receipt) in
  exists amount policy,
    ix = IxDeploy amount /\ l.(l_config).(cf_frozen) = false /\
    l'.(l_position).(po_deployed_principal) = l.(l_position).(po_deployed_principal) + amount /\
    l.(l_policy) = Some policy /\ r.(dr_config) = policy.(ap_authorization_config) /\
    r.(dr_remote_config) = l.(l_key) /\ r.(dr_amount) = amount /\
    r.(dr_consumed_at) = env.(e_unix_timestamp) /\ env.(e_unix_timestamp) < r.(dr_expires_at) /\
    r.(dr_deployment_context) = context_commitment (deployment_context l.(l_key) l.(l_config)
      (strategy_config_address l.(l_key)).1 l.(l_strategy) l.(l_position)) /\
    exists i consume, env.(e_introspection).(in_current_index) = S i /\
      env.(e_introspection).(in_instructions) !! i = Some consume /\
      consume.(ix_program_id) = verifier_ID /\
      consume.(ix_data) = consume_discriminator ++ r.(dr_nonce) /\
      named consume CONSUME_RECEIPT_INDEX = Some env.(e_receipt_key).
Proof. apply deployment_checked. Qed.

Lemma exposure_needs_approval_witness :
  exists amount, IxDeploy 600 = IxDeploy amount /\ dr_amount (e_receipt deploy_env) = amount.
Proof.
  destruct (exec deploy_env funded_leg (IxDeploy 600)) as [[l' bs]|] eqn:He.
  2: { exfalso. revert He. vm_compute. discriminate. }
  destruct (exposure_needs_approval sample_chain funded_leg deploy_env (IxDeploy 600) l' bs)
    as (amount & policy & Hix & _ & _ & _ & _ & _ & Ha & _).
  - apply story_reachable.
  - split; vm_compute; congruence.
  - exact He.
  - revert He. vm_compute. intros [= <- <-]. reflexivity.
  - exists amount. split; [exact Hix|exact Ha].
Defined.

(** C18. A frozen leg only unwinds: it stays frozen, its risk limits and
    configuration version stand, the deployed principal never grows, and
    without the guardian's own signature the principal the leg answers for
    never grows either. *)
Theorem frozen_leg_only_unwinds (C : Chain) l env ix l' bs :
  reachable l -> l.(l_config).(cf_frozen) = true -> ix_typed ix ->
  exec env l ix = Ok (l', bs) ->
  l'.(l_config).(cf_frozen) = true /\ l'.(l_risk) = l.(l_risk) /\
  l'.(l_config).(cf_config_version) = l.(l_config).(cf_config_version) /\
  l'.(l_position).(po_deployed_principal) <= l.(l_position).(po_deployed_principal) /\
  (env.(e_guardian) <> Some l.(l_config).(cf_emergency_guardian) ->
   l'.(l_position).(po_attributed_principal) + l'.(l_position).(po_deployed_principal)
     <= l.(l_position).(po_attributed_principal) + l.(l_position).(po_deployed_principal)).
Proof.
  intros Hl Hz Ht He. destruct (exec_frozen _ _ _ _ _ (reachable_books _ Hl) Hz Ht He).
  by split_and!.
Qed.

Definition frozen_leg : Leg := sy_leg frozen_tale.

Lemma frozen_leg_only_unwinds_witness :
  exists l' bs, exec (act_env frozen_leg 3000 (ActArrive 0)) frozen_leg IxReconcile = Ok (l', bs) /\
    cf_frozen (l_config l') = true.
Proof.
  destruct (exec (act_env frozen_leg 3000 (ActArrive 0)) frozen_leg IxReconcile)
    as [[l' bs]|] eqn:He.
  2: { exfalso. revert He. vm_compute. discriminate. }
  exists l', bs. split; [reflexivity|].
  apply (frozen_leg_only_unwinds sample_chain frozen_leg
    (act_env frozen_leg 3000 (ActArrive 0)) IxReconcile l' bs).
  - apply story_reachable.
  - vm_compute. reflexivity.
  - exact I.
  - exact He.
Defined.

(** * The outbound lane *)

(** C19. Reports form one unbroken chain: after any run the outbound lane
    points just past the published messages, each of them encodes a message
    with the next sequence that commits to all before it, and each still has
    its own report record with its identifier. *)
Theorem reports_form_one_chain (C : Chain) se w p c max l0 ins outs l :
  launch se w p c max = Ok l0 -> run l0 ins outs l ->
  l.(l_outbound).(ol_next_sequence) = Z.of_nat (length outs) + 1 /\
  l.(l_outbound).(ol_current_commitment)
    = lane_commitment keccak wide_zero (bm_message_id <$> outs) /\
  forall i b, outs !! i = Some b ->
    (exists m, encode_message keccak m = Ok (em_as_bytes b.(bm_encoded)) /\
       m.(m_header).(h_sequence) = Z.of_nat i + 1 /\
       m.(m_header).(h_previous_commitment)
         = lane_commitment keccak wide_zero (bm_message_id <$> take i outs)) /\
    b.(bm_message_id) = message_id keccak (em_as_bytes b.(bm_encoded)) /\
    exists r, l.(l_reports) !! (report_address l.(l_key) l.(l_config).(cf_report_lane_id)
                                  (Z.of_nat i + 1)).1 = Some (Owned r) /\
      r.(rr_message_id) = b.(bm_message_id) /\ r.(rr_sequence) = Z.of_nat i + 1.
Proof.
  intros Hl Hr. pose proof (run_outbound _ _ _ _ (launch_outbound _ _ _ _ _ _ Hl) Hr)
    as (? & ? & _ & ?). by split_and!.
Qed.

Lemma reports_form_one_chain_witness :
  length (sy_outs closed_tale) = 4%nat /\
  ol_next_sequence (l_outbound (sy_leg closed_tale)) = Z.of_nat (length (sy_outs closed_tale)) + 1.
Proof.
  destruct (reports_form_one_chain sample_chain sample_setup sample_world sample_params
    sample_control 1000000 sample_leg (sy_ins closed_tale) (sy_outs closed_tale)
    (sy_leg closed_tale) sample_leg_launched (sy_run closed_tale)) as [Hn _].
  split; [vm_compute; reflexivity|exact Hn].
Defined.

(** The notice of a recall goes out once: after it was published, no
    later state of the leg publishes it again, whatever ran in between. *)
Theorem recall_notice_published_once (C : Chain) l env l' bs ins outs l2 env2 :
  reachable l -> exec env l IxPublishRecallSent = Ok (l', bs) -> run l' ins outs l2 ->
  env2.(e_transfer_record) = env.(e_transfer_record) ->
  exists e, exec env2 l2 IxPublishRecallSent = Err e.
Proof.
  intros Hl He Hr Hk. pose proof (reachable_books _ Hl) as Hbk.
  pose proof (books_exec _ _ IxPublishRecallSent _ _ I Hbk He) as Hbk'.
  apply exec_inv in He as (b & -> & He).
  apply process_recall_sent_Ok in He
    as (r & m & reports & outbound & Hrec & _ & _ & _ & Hmk & _ & _ & _ & _ & ->).
  destruct (run_transfers _ _ _ _ Hbk' Hr _ _ Hrec) as (r2 & Hrec2 & [Hid _ _ _ _ _ _ _ _ _ _ _]).
  pose proof (run_identity _ _ _ _ Hr) as (Hkey & _).
  assert (Hm2 : l_markers l2 !! e_recall_sent_marker env = Some (Owned m)).
  { eapply run_markers; [exact Hr|]. cbn. by rewrite lookup_insert_eq. }
  destruct (exec env2 l2 IxPublishRecallSent) as [[l3 bs3]|e] eqn:He2; [exfalso|by eexists].
  apply exec_inv in He2 as (b2 & -> & He2).
  apply process_recall_sent_Ok in He2
    as (r3 & m3 & ? & ? & Hrec3 & _ & _ & _ & Hmk3 & Hfree & _ & _ & _ & _).
  rewrite Hk, Hrec2 in Hrec3. injection Hrec3 as <-.
  rewrite Hmk3, Hid, Hkey in Hfree. cbn in Hfree. congruence.
Qed.

Lemma recall_notice_published_once_witness :
  exists l' bs e,
    exec (act_env (sy_leg recalled_tale) 2080 (ActRecallSent 2)) (sy_leg recalled_tale)
      IxPublishRecallSent = Ok (l', bs) /\
    exec (act_env l' 2090 (ActRecallSent 2)) l' IxPublishRecallSent = Err e.
Proof.
  destruct (exec (act_env (sy_leg recalled_tale) 2080 (ActRecallSent 2)) (sy_leg recalled_tale)
    IxPublishRecallSent) as [[l' bs]|] eqn:He.
  2: { exfalso. revert He. vm_compute. discriminate. }
  exists l', bs.
  destruct (recall_notice_published_once sample_chain (sy_leg recalled_tale)
    (act_env (sy_leg recalled_tale) 2080 (ActRecallSent 2)) l' bs [] [] l'
    (act_env l' 2090 (ActRecallSent 2))) as [e Hn].
  - apply story_reachable.
  - exact He.
  - apply run_start.
  - apply (exec_identity _ _ IxPublishRecallSent _ _ I) in He as (Hk & _).
    change (record_key l' (act_id 2) = record_key (sy_leg recalled_tale) (act_id 2)).
    unfold record_key. rewrite Hk. reflexivity.
  - exists e. split; [reflexivity|exact Hn].
Defined.

(** * Transfers *)

(** C20. Transfers follow one machine: every instruction leaves the transfer
    records alone, creates one fresh record, or moves one record along one
    transition of [transfer_step]; over a whole run no record disappears, its
    identity and terms stand, its counters only grow, and once it is complete
    or closed its figures are final. *)
Theorem transfers_follow_machine (C : Chain) l ins outs l' :
  reachable l -> run l ins outs l' ->
  rtc store_step l.(l_transfers) l'.(l_transfers) /\
  store_advances l.(l_transfers) l'.(l_transfers).
Proof.
  intros Hl Hr. pose proof (reachable_books _ Hl) as Hbk. split; [|by eapply run_transfers].
  induction Hr as [|ins outs l1 env ix l2 bs Hr IH Ht He|ins outs l1 w Hr IH Hw]; [done|..|done].
  eapply rtc_r; [exact IH|]. eapply exec_transfers; [|done..]. by eapply run_books.
Qed.

Lemma transfers_follow_machine_witness :
  store_advances (l_transfers sample_leg) (l_transfers (sy_leg closed_tale)) /\
  map_size (l_transfers (sy_leg closed_tale)) = 4%nat.
Proof.
  destruct (transfers_follow_machine sample_chain sample_leg (sy_ins closed_tale)
    (sy_outs closed_tale) (sy_leg closed_tale)) as [_ Ha].
  - exists sample_setup, sample_world, sample_params, sample_control, 1000000, sample_leg, [], [].
    split; [cbn; lia|]. split; [lia|]. split; [exact sample_leg_launched|apply run_start].
  - apply sy_run.
  - split; [exact Ha|]. vm_compute. reflexivity.
Defined.

(** The replay watermark never passes an open obligation: every sequence
    from the watermark to the head still has its consumed record, the message
    that opened the transfer in progress is among them, and no instruction
    takes that record away while the transfer is open. *)
Theorem watermark_protects_open_transfer (C : Chain) l :
  reachable l -> l.(l_position).(po_active_transfer_kind) <> KNone ->
  let s := l.(l_position).(po_active_transfer_sequence) in
  l.(l_lane).(rl_minimum_acceptable_sequence) <= s
    <= l.(l_lane).(rl_highest_consumed_sequence) /\
  exists cr,
    l.(l_consumed) !! (consumed_address l.(l_key) l.(l_config).(cf_control_lane_id) s).1
      = Some (Owned cr) /\ cr.(cm_sequence) = s /\
    forall env k l' bs,
      env.(e_consumed_message)
        = (consumed_address l.(l_key) l.(l_config).(cf_control_lane_id) s).1 ->
      exec env l (IxCloseConsumed k) <> Ok (l', bs).
Proof.
  intros (se & w & p & c & max & l0 & ins & outs & _ & _ & Hl & Hr) Hk.
  destruct (run_watermark _ _ _ _ (launch_watermark _ _ _ _ _ _ Hl) Hr) as [Hrec Hact].
  specialize (Hact Hk). cbv zeta. split; [done|]. destruct (Hrec _ Hact) as (cr & Hcr & Hs).
  exists cr. split_and!; try done. intros env k l' bs He Hx. apply exec_inv in Hx.
  apply close_consumed_Ok in Hx as (r & Hlr & Hlt & _ & _).
  rewrite He, Hcr in Hlr. injection Hlr as <-. lia.
Qed.

Lemma open_story_ok : is_ok (told (deployed_story ++ [ActRecall 2 700])) = true.
Proof. vm_compute. reflexivity. Qed.

Definition open_tale : Story := tell (deployed_story ++ [ActRecall 2 700]) open_story_ok.

Lemma watermark_protects_open_transfer_witness :
  po_active_transfer_sequence (l_position (sy_leg open_tale)) = 2 /\
  exists cr, cm_sequence cr = po_active_transfer_sequence (l_position (sy_leg open_tale)).
Proof.
  split; [vm_compute; reflexivity|].
  destruct (watermark_protects_open_transfer sample_chain (sy_leg open_tale)
    (story_reachable open_tale)) as (_ & cr & _ & Hs & _).
  - vm_compute. discriminate.
  - exists cr. exact Hs.
Defined.

(** * Reports *)

(** The reported commitment binds the reported state: it is total on
    typed states, and two typed states with one commitment agree on every
    reported field, or their own preimages are different inputs with one
    digest. *)
Theorem state_commitment_binds (digest : list Z -> list Z) s s' c :
  view_typed s -> view_typed s' ->
  (exists c0, commitment digest s = Ok c0) /\
  (commitment digest s = Ok c -> commitment digest s' = Ok c ->
   same_state s s' \/
   collides digest (concat (preimage_fields s)) (concat (preimage_fields s'))).
Proof.
  intros Hs Hs'. rewrite !commitment_digest by done. split; [by eexists|].
  intros H1 H2.
  destruct (decide (concat (preimage_fields s) = concat (preimage_fields s'))) as [He|Hne].
  - left. by apply preimage_inj.
  - right. split; [done|]. rewrite <- H2 in H1. by injection H1.
Qed.

Definition sample_view : RemoteStateView :=
  state_view (sy_leg deployed_tale) (l_position (sy_leg deployed_tale)) 600.

Lemma state_commitment_binds_witness :
  exists c, commitment sample_digest sample_view = Ok c.
Proof.
  assert (Ht : view_typed sample_view).
  { unfold view_typed, fits. vm_compute. repeat split; congruence. }
  exact (proj1 (state_commitment_binds sample_digest sample_view sample_view [] Ht Ht)).
Defined.

(** C21. A report tells the truth: it says, with no silent rounding, the
    principal the leg holds, deployed and recalled less what its open
    allocation attributed so far, the cumulative loss and the unattributed
    custody; the custody account holds exactly what the buckets claim, the
    adapter confirms the deployed principal, and the commitment it carries is
    that of this very state. *)
Theorem report_is_truthful (C : Chain) l env epoch l' bs :
  reachable l -> is_u64 epoch -> exec env l (IxPublishReport epoch) = Ok (l', bs) ->
  let p := l'.(l_position) in
  exists b m body in_flight,
    bs = [b] /\ encode_message keccak m = Ok (em_as_bytes b.(bm_encoded)) /\
    m.(m_body) = BRemoteReport body /\ body.(rp_epoch_id) = epoch /\
    0 <= in_flight <= p.(po_attributed_principal) + p.(po_deployed_principal) /\
    (if bool_decide (p.(po_active_transfer_kind) = KAllocate)
     then exists r, l.(l_transfers) !! record_key l p.(po_active_transfer_id) = Some (Owned r) /\
            in_flight = r.(tr_attributed_amount)
     else in_flight = 0) /\
    body.(rp_remote_principal) = p.(po_attributed_principal) + p.(po_deployed_principal)
      + p.(po_recalled_custody) - in_flight /\
    body.(rp_realized_loss) = total loss_of l.(l_transfers) /\
    body.(rp_unattributed_balance) = p.(po_unattributed_custody) /\
    l.(l_world).(w_custody).(tk_amount) = custody_buckets p /\
    read_principal l.(l_world).(w_adapter_state) = Ok p.(po_deployed_principal) /\
    commitment keccak (state_view l' p p.(po_deployed_principal))
      = Ok body.(rp_remote_state_commitment).
Proof.
  intros Hl _ He. pose proof (reachable_books _ Hl) as Hbk.
  pose proof (reachable_covered _ Hl) as Hcov.
  apply exec_inv in He as (b & -> & He).
  apply process_report_Ok in He
    as (s & n & c & reports & outbound & Hs & Hs0 & Hread & Hfl & Hc & Hb & _ & ->).
  apply in_flight_Ok in Hfl as [Hn Hfl]; [|done..].
  unfold build_remote_report in Hb. apply build_Ok in Hb as (h & _ & Henc & _).
  destruct (bk_position _ Hbk) as [(? & ? & ? & _) _ _ _ Hloss _].
  cbv zeta. eexists b, _, _, n. split; [done|]. split; [exact Henc|]. split; [reflexivity|].
  cbn [rp_epoch_id rp_remote_principal rp_realized_loss rp_unattributed_balance
    rp_remote_state_commitment rf_epoch_id rf_remote_principal rf_realized_loss
    rf_unattributed_balance rf_remote_state_commitment report_fields].
  split_and!; try done; unfold principal, custody_buckets, saturating_sub in *; cbn in *; lia.
Qed.

Lemma report_is_truthful_witness :
  exists l' b m body, exec (act_env (sy_leg deployed_tale) 2050 (ActReport 1))
      (sy_leg deployed_tale) (IxPublishReport 1) = Ok (l', [b]) /\
    encode_message sample_digest m = Ok (em_as_bytes (bm_encoded b)) /\
    m_body m = BRemoteReport body /\ rp_epoch_id body = 1.
Proof.
  destruct (exec (act_env (sy_leg deployed_tale) 2050 (ActReport 1)) (sy_leg deployed_tale)
    (IxPublishReport 1)) as [[l' bs]|] eqn:He.
  2: { exfalso. revert He. vm_compute. discriminate. }
  destruct (report_is_truthful sample_chain (sy_leg deployed_tale)
    (act_env (sy_leg deployed_tale) 2050 (ActReport 1)) 1 l' bs
    (story_reachable deployed_tale)) as (b & m & body & n & Hbs & Hm & Hb & Hep & _).
  - split; vm_compute; congruence.
  - exact He.
  - exists l', b, m, body. rewrite Hbs. split; [reflexivity|]. split; [exact Hm|].
    split; [exact Hb|exact Hep].
Defined.

(** * Assets *)

(** C22. Assets move exactly, whatever the token program and the adapter do:
    a deployment that succeeds took precisely its amount out of custody and
    into the vault and the adapter books it; a withdrawal wrote off no more
    principal than asked for and books every missing unit as a loss; a send
    put precisely what left custody into the escrow; and each leaves the
    custody balance equal to the buckets. *)
Theorem assets_move_exactly (C : Chain) l env ix l' bs :
  ix_typed ix -> exec env l ix = Ok (l', bs) ->
  let w := l.(l_world) in let w' := l'.(l_world) in
  let p := l.(l_position) in let p' := l'.(l_position) in
  match ix with
  | IxDeploy n =>
      w'.(w_custody).(tk_amount) = w.(w_custody).(tk_amount) - n /\
      w'.(w_vault).(tk_amount) = w.(w_vault).(tk_amount) + n /\
      read_principal w'.(w_adapter_state) = Ok p'.(po_deployed_principal) /\
      p'.(po_deployed_principal) = p.(po_deployed_principal) + n /\
      w'.(w_custody).(tk_amount) = custody_buckets p'
  | IxWithdraw maximum =>
      exists principal returned, 0 <= returned <= principal /\ 0 < principal <= maximum /\
      w'.(w_custody).(tk_amount) = w.(w_custody).(tk_amount) + returned /\
      read_principal w'.(w_adapter_state) = Ok p'.(po_deployed_principal) /\
      p'.(po_deployed_principal) = p.(po_deployed_principal) - principal /\
      p'.(po_cumulative_realized_loss)
        = p.(po_cumulative_realized_loss) + (principal - returned) /\
      w'.(w_custody).(tk_amount) = custody_buckets p'
  | IxSend maximum =>
      exists sent, sent <> 0 /\ sent <= maximum /\
      w'.(w_custody).(tk_amount) = w.(w_custody).(tk_amount) - sent /\
      w'.(w_escrow).(tk_amount) = w.(w_escrow).(tk_amount) + sent /\
      p'.(po_recalled_custody) = p.(po_recalled_custody) - sent /\
      w'.(w_custody).(tk_amount) = custody_buckets p'
  | _ => w' = w
  end.
Proof.
  intros Ht He. cbv zeta. exec_cases He; try done; cbn [l_world l_position].
  - destruct (vm_fresh v); [destruct He as (_ & _ & ->)|subst l']; done.
  - unfold custody_buckets in *. cbn in *. split_and!; try done; lia.
  - destruct Had as [->|(r & _ & _ & _ & _ & _ & _ & _ & _ & ->)]; done.
  - match goal with Hs : settle_recall _ _ _ = _ |- _ =>
      apply settle_buckets in Hs as (Hbk & Hd & Hrc & Hl) end.
    exists a, b. cbn. rewrite Hbk, Hd, Hl. unfold custody_buckets in *. cbn in *.
    split_and!; try done; lia.
  - match goal with Hs : settle_recall _ _ _ = _ |- _ =>
      apply settle_buckets in Hs as (Hbk & Hd & Hrc & Hl) end.
    exists n. cbn. rewrite Hbk, Hrc. unfold custody_buckets in *. cbn in *.
    split_and!; try done; lia.
Qed.

Lemma assets_move_exactly_witness :
  exists l' bs, exec deploy_env funded_leg (IxDeploy 600) = Ok (l', bs) /\
    tk_amount (w_custody (l_world l')) = tk_amount (w_custody (l_world funded_leg)) - 600 /\
    tk_amount (w_custody (l_world funded_leg)) = 1000.
Proof.
  destruct (exec deploy_env funded_leg (IxDeploy 600)) as [[l' bs]|] eqn:He.
  2: { exfalso. revert He. vm_compute. discriminate. }
  destruct (assets_move_exactly sample_chain funded_leg deploy_env (IxDeploy 600) l' bs)
    as [Hc _].
  - split; vm_compute; congruence.
  - exact He.
  - exists l', bs. split; [reflexivity|]. split; [exact Hc|vm_compute; reflexivity].
Defined.
