(* ===== verification/StrategyProgram.v ===== *)
(** The strategy program ([programs/solevm-remote-leg/test-strategy]): the
    adapter the remote leg deploys into.  It keeps principal in one token
    vault and returns it on request less a configured loss.

    The program runs on a [Bank], the accounts of the chain it can be
    handed: token accounts, mints and data accounts by address.  An
    instruction is what the leg's [adapter.rs] sends, a program, account
    metas and bytes; the account framework's loading and constraints, the
    dispatch on the selector and the write-back are part of the model.  The
    token program and program addresses are other code: [TokenProgram] and
    [ProgramAddresses].  The build feature [hostile] is an argument. *)

From Stdlib Require Import ZArith Lia.
From stdpp Require Import strings.
From S2P Require Import Prelude ProtocolLayout ProtocolTypes ProtocolCodec RemoteState.
From S2P Require Import RemoteMessage RemotePlatform.

(** * Errors *)

(** A refusal of the program, [Ad] before the source's name. *)
Inductive AdapterError : Set :=
| AdUnauthorized | AdInvalidStateVersion | AdInvalidRemoteLeg | AdInvalidBasisPoints
| AdInvalidMint | AdInvalidTokenProgram | AdInvalidAdapterVault | AdInvalidAdapterAuthority
| AdInvalidRemoteCustody | AdDepositsPaused | AdInsufficientLiquidity | AdInvalidBalanceDelta
| AdNothingToDo | AdArithmeticOverflow.

#[global] Instance AdapterError_eq_dec : EqDecision AdapterError.
Proof. solve_decision. Defined.

(** What an instruction fails with: a rule of the program, a check of the
    account framework, or the token or system program it called. *)
Inductive AdapterFault : Set :=
| AdapterRefused (e : AdapterError)
| AdapterAccount
| AdapterCallee.

#[global] Instance AdapterFault_eq_dec : EqDecision AdapterFault.
Proof. solve_decision. Defined.

Abbreviation AResult := (result AdapterFault).

(** * The accounts of the chain *)

Record Bank := mkBank {
  bk_tokens : gmap (list Z) TokenState;
  bk_mints : gset (list Z);
  bk_data : gmap (list Z) AccountInfo
}.

#[global] Instance Bank_eta : Eta Bank := fun s => mkBank (bk_tokens s) (bk_mints s) (bk_data s).
#[global] Instance AccountInfo_eta : Eta AccountInfo :=
  fun s => mkAccountInfo (ai_owner s) (ai_data s).

(** Program addresses and the programs' own. *)
Class ProgramAddresses := {
  strategy_ID : Key;
  token_ID : Key;
  system_ID : Key;
  rt_find_program_address : list (list Z) -> Key -> Key * Z;
  rt_create_program_address : list (list Z) -> Key -> option Key
}.

Inductive AuthorityType : Set := AccountOwner | CloseAccount.

(** The token program: each operation names its accounts and the authority,
    and is told whether the runtime saw that authority's signature. *)
Class TokenProgram := {
  token_transfer (from to authority : Key) (signed : bool) (amount : Z) : Bank -> option Bank;
  token_approve (account delegate owner : Key) (signed : bool) (amount : Z) : Bank -> option Bank;
  token_set_authority (account current : Key) (signed : bool) (kind : AuthorityType)
    (new_authority : option Key) : Bank -> option Bank
}.

Definition token_call {A} (o : option A) : AResult A :=
  match o with Some a => Ok a | None => Err AdapterCallee end.

(** * State *)

Definition ADAPTER_STATE_SEED : list Z := byte_string "adapter-state".
Definition ADAPTER_AUTHORITY_SEED : list Z := byte_string "adapter-authority".
Definition REMOTE_CUSTODY_AUTHORITY_SEED : list Z := byte_string "custody-authority".
Definition REMOTE_CALLER_SEED : list Z := byte_string "adapter-caller".

Definition APPROVE_DELEGATE : Z := 1001.
Definition TAKE_OWNERSHIP : Z := 1002.
Definition SET_CLOSE_AUTHORITY : Z := 1003.
Definition DRAIN_CUSTODY : Z := 1004.
Definition OVERPAY : Z := 1005.
Definition OVERSTATE_PRINCIPAL : Z := 1006.

Definition ADAPTER_STATE_VERSION : Z := 1.
Definition MAX_BASIS_POINTS : Z := 10000.

Record AdapterState := mkAdapterState {
  as_state_version : Z;
  as_bump : Z;
  as_authority_bump : Z;
  as_deposits_paused : bool;
  as_remote_leg_program : Key;
  as_remote_config : Key;
  as_mint : Key;
  as_token_program : Key;
  as_adapter_authority : Key;
  as_adapter_token_vault : Key;
  as_test_authority : Key;
  as_principal : Z;
  as_max_liquid_principal : Z;
  as_loss_bps : Z;
  as_initialized_at : Z
}.

#[global] Instance AdapterState_eta : Eta AdapterState := fun s => mkAdapterState
  (as_state_version s) (as_bump s) (as_authority_bump s) (as_deposits_paused s)
  (as_remote_leg_program s) (as_remote_config s) (as_mint s) (as_token_program s)
  (as_adapter_authority s) (as_adapter_token_vault s) (as_test_authority s) (as_principal s)
  (as_max_liquid_principal s) (as_loss_bps s) (as_initialized_at s).

Record AdapterParams := mkAdapterParams {
  ap_remote_leg_program : Key;
  ap_remote_config : Key;
  ap_test_authority : Key;
  ap_max_liquid_principal : Z;
  ap_loss_bps : Z
}.

Record TestConditions := mkTestConditions {
  tc_max_liquid_principal : Z;
  tc_loss_bps : Z;
  tc_deposits_paused : bool
}.

(** * Account bytes *)

Definition bool_byte (b : bool) : Z := if b then 1 else 0.

(** The account's bytes: its tag and its fields in order, as [#[account]]
    derives them. *)
Definition adapter_state_bytes (s : AdapterState) : list Z :=
  STATE_DISCRIMINATOR ++
  [s.(as_state_version); s.(as_bump); s.(as_authority_bump); bool_byte s.(as_deposits_paused)] ++
  s.(as_remote_leg_program) ++ s.(as_remote_config) ++ s.(as_mint) ++ s.(as_token_program) ++
  s.(as_adapter_authority) ++ s.(as_adapter_token_vault) ++ s.(as_test_authority) ++
  to_le 8 s.(as_principal) ++ to_le 8 s.(as_max_liquid_principal) ++
  to_le 2 s.(as_loss_bps) ++ i64_to_le s.(as_initialized_at).

#[global] Arguments adapter_state_bytes : simpl never.

(** [AdapterState::LEN]. *)
Definition ADAPTER_STATE_LEN : nat := 8 + 254.

#[global] Arguments ADAPTER_STATE_LEN : simpl never.

(** Borsh readers: a value and the bytes behind it. *)
Definition take_bytes (n : nat) (l : list Z) : option (list Z * list Z) :=
  if (n <=? length l)%nat then Some (take n l, drop n l) else None.

Definition take_bool (l : list Z) : option (bool * list Z) :=
  match l with
  | 0 :: l' => Some (false, l')
  | 1 :: l' => Some (true, l')
  | _ => None
  end.

Definition take_u8 (l : list Z) : option (Z * list Z) :=
  match l with b :: l' => Some (b, l') | [] => None end.

Definition take_le (n : nat) (l : list Z) : option (Z * list Z) :=
  '(w, l') ← take_bytes n l; Some (from_le w, l').

Definition take_key : list Z -> option (Key * list Z) := take_bytes 32.

(** [try_deserialize]: the tag, then the fields; bytes behind them are
    ignored. *)
Definition adapter_state_parse (data : list Z) : option AdapterState :=
  '(tag, l) ← take_bytes 8 data;
  if bool_decide (tag = STATE_DISCRIMINATOR) then
    '(version, l) ← take_u8 l; '(bump, l) ← take_u8 l; '(authority_bump, l) ← take_u8 l;
    '(paused, l) ← take_bool l;
    '(remote_leg, l) ← take_key l; '(config, l) ← take_key l; '(mint, l) ← take_key l;
    '(token_program, l) ← take_key l; '(authority, l) ← take_key l; '(vault, l) ← take_key l;
    '(tester, l) ← take_key l;
    '(principal, l) ← take_le 8 l; '(liquid, l) ← take_le 8 l; '(loss, l) ← take_le 2 l;
    '(at_, _) ← take_bytes 8 l;
    Some (mkAdapterState version bump authority_bump paused remote_leg config mint token_program
            authority vault tester principal liquid loss (i64_from_le at_))
  else None.

Section strategy.
Context `{ProgramAddresses} `{TokenProgram}.
Implicit Types (s : AdapterState) (b : Bank) (hostile : bool).

Definition adapter_seeds (remote_config : Key) : list (list Z) :=
  [ADAPTER_STATE_SEED; remote_config].

Definition adapter_authority_of (adapter_state : Key) : Key * Z :=
  rt_find_program_address [ADAPTER_AUTHORITY_SEED; adapter_state] strategy_ID.

Definition remote_custody_authority s : Key :=
  (rt_find_program_address [REMOTE_CUSTODY_AUTHORITY_SEED; s.(as_remote_config)]
     s.(as_remote_leg_program)).1.

Definition remote_caller s : Key :=
  (rt_find_program_address [REMOTE_CALLER_SEED; s.(as_remote_config)]
     s.(as_remote_leg_program)).1.

(** * Loading accounts *)

(** [Account<AdapterState>]. *)
Definition load_state b (k : Key) : AResult AdapterState :=
  let? info := ok_or (b.(bk_data) !! k) AdapterAccount in
  require keys_eq info.(ai_owner) strategy_ID or AdapterAccount;
  ok_or (adapter_state_parse info.(ai_data)) AdapterAccount.

(** [Account<TokenAccount>]. *)
Definition load_token b (k : Key) : AResult TokenState :=
  let? t := ok_or (b.(bk_tokens) !! k) AdapterAccount in
  require keys_eq t.(tk_program) token_ID or AdapterAccount;
  Ok t.

(** [Account<Mint>]. *)
Definition load_mint b (k : Key) : AResult unit :=
  require bool_decide (k ∈ b.(bk_mints)) or AdapterAccount; Ok tt.

Definition signer (m : AccountMeta) : AResult unit :=
  require m.(am_is_signer) or AdapterAccount; Ok tt.

Definition program_account (m : AccountMeta) (id : Key) : AResult unit :=
  require keys_eq m.(am_pubkey) id or AdapterAccount; Ok tt.

(** [mut, seeds = .., bump = adapter_state.bump]. *)
Definition check_state_account (m : AccountMeta) s : AResult unit :=
  require bool_decide (rt_create_program_address
      (adapter_seeds s.(as_remote_config) ++ [[s.(as_bump)]]) strategy_ID = Some m.(am_pubkey))
    or AdapterAccount;
  require m.(am_is_writable) or AdapterAccount;
  Ok tt.

(** The write-back of a loaded state when its instruction ends. *)
Definition write_state b (k : Key) s : Bank :=
  b <| bk_data ::= alter (fun info =>
         info <| ai_data := adapter_state_bytes s ++ drop ADAPTER_STATE_LEN info.(ai_data) |>) k |>.

(** * Contexts *)

(** The accounts of an instruction once the framework checked them. *)
Record InitializeAdapter := mkInitializeAdapter {
  ia_adapter_state : Key;
  ia_bump : Z;
  ia_mint : Key;
  ia_adapter_token_vault : Key;
  ia_vault : TokenState;
  ia_token_program : Key
}.

Record ConfigureAdapter := mkConfigureAdapter {
  ca_adapter_state : Key;
  ca_state : AdapterState
}.

Record DepositExact := mkDepositExact {
  de_adapter_state : Key;
  de_state : AdapterState;
  de_adapter_token_vault : Key;
  de_vault : TokenState;
  de_mint : Key;
  de_token_program : Key
}.

Record WithdrawForRemoteLeg := mkWithdrawForRemoteLeg {
  wf_remote_caller : AccountMeta;
  wf_adapter_state : Key;
  wf_state : AdapterState;
  wf_adapter_authority : AccountMeta;
  wf_remote_custody : Key;
  wf_custody : TokenState;
  wf_adapter_token_vault : Key;
  wf_vault : TokenState;
  wf_mint : Key;
  wf_token_program : Key
}.

(** What the runtime tells an instruction: the clock, and whether an
    account can pay the rent of a new one. *)
Record AdapterEnv := mkAdapterEnv {
  ae_unix_timestamp : Z;
  ae_funded : Key -> bool
}.

(** An address no account uses. *)
Definition unused b (k : Key) : bool :=
  is_none (b.(bk_data) !! k) && is_none (b.(bk_tokens) !! k) && negb (bool_decide (k ∈ b.(bk_mints))).

Definition initialize_accounts (env : AdapterEnv) b (metas : list AccountMeta) (p : AdapterParams)
    : AResult InitializeAdapter :=
  match metas with
  | payer :: state :: mint :: vault :: token_program :: system_program :: _ =>
      let? _ := signer payer in
      let '(address, bump) :=
        rt_find_program_address (adapter_seeds p.(ap_remote_config)) strategy_ID in
      require keys_eq state.(am_pubkey) address or AdapterAccount;
      require state.(am_is_writable) && payer.(am_is_writable) or AdapterAccount;
      require unused b state.(am_pubkey) or AdapterCallee;
      require env.(ae_funded) payer.(am_pubkey) or AdapterCallee;
      let? _ := load_mint b mint.(am_pubkey) in
      let? v := load_token b vault.(am_pubkey) in
      let? _ := program_account token_program token_ID in
      let? _ := program_account system_program system_ID in
      Ok (mkInitializeAdapter state.(am_pubkey) bump mint.(am_pubkey) vault.(am_pubkey) v
            token_program.(am_pubkey))
  | _ => Err AdapterAccount
  end.

Definition configure_accounts b (metas : list AccountMeta) : AResult ConfigureAdapter :=
  match metas with
  | tester :: state :: _ =>
      let? _ := signer tester in
      let? s := load_state b state.(am_pubkey) in
      require keys_eq tester.(am_pubkey) s.(as_test_authority) or AdapterRefused AdUnauthorized;
      let? _ := check_state_account state s in
      Ok (mkConfigureAdapter state.(am_pubkey) s)
  | _ => Err AdapterAccount
  end.

Definition deposit_accounts b (metas : list AccountMeta) : AResult DepositExact :=
  match metas with
  | caller :: state :: vault :: mint :: token_program :: _ =>
      let? _ := signer caller in
      let? s := load_state b state.(am_pubkey) in
      let? v := load_token b vault.(am_pubkey) in
      let? _ := load_mint b mint.(am_pubkey) in
      let? _ := program_account token_program token_ID in
      require keys_eq caller.(am_pubkey) (remote_caller s) or AdapterRefused AdUnauthorized;
      let? _ := check_state_account state s in
      Ok (mkDepositExact state.(am_pubkey) s vault.(am_pubkey) v mint.(am_pubkey)
            token_program.(am_pubkey))
  | _ => Err AdapterAccount
  end.

Definition withdraw_accounts b (metas : list AccountMeta) : AResult WithdrawForRemoteLeg :=
  match metas with
  | caller :: state :: authority :: custody :: vault :: mint :: token_program :: _ =>
      let? _ := signer caller in
      let? s := load_state b state.(am_pubkey) in
      let? c := load_token b custody.(am_pubkey) in
      let? v := load_token b vault.(am_pubkey) in
      let? _ := load_mint b mint.(am_pubkey) in
      let? _ := program_account token_program token_ID in
      require keys_eq caller.(am_pubkey) (remote_caller s) or AdapterRefused AdUnauthorized;
      let? _ := check_state_account state s in
      require bool_decide (rt_create_program_address
          [ADAPTER_AUTHORITY_SEED; state.(am_pubkey); [s.(as_authority_bump)]] strategy_ID
          = Some authority.(am_pubkey))
        or AdapterAccount;
      require custody.(am_is_writable) or AdapterAccount;
      require vault.(am_is_writable) or AdapterAccount;
      Ok (mkWithdrawForRemoteLeg caller state.(am_pubkey) s authority custody.(am_pubkey) c
            vault.(am_pubkey) v mint.(am_pubkey) token_program.(am_pubkey))
  | _ => Err AdapterAccount
  end.

(** * The hostile build *)

(** Acts on remote custody with the only signature it holds. *)
Definition attack_custody (ctx : WithdrawForRemoteLeg) (requested : Z) b : AResult Bank :=
  let custody := ctx.(wf_remote_custody) in
  let caller := ctx.(wf_remote_caller) in
  let thief := ctx.(wf_adapter_authority).(am_pubkey) in
  if requested =? APPROVE_DELEGATE then
    token_call (token_approve custody thief caller.(am_pubkey) caller.(am_is_signer) u64_max b)
  else if (requested =? TAKE_OWNERSHIP) || (requested =? SET_CLOSE_AUTHORITY) then
    token_call (token_set_authority custody caller.(am_pubkey) caller.(am_is_signer)
      (if requested =? TAKE_OWNERSHIP then AccountOwner else CloseAccount) (Some thief) b)
  else if requested =? DRAIN_CUSTODY then
    token_call (token_transfer custody ctx.(wf_adapter_token_vault) caller.(am_pubkey)
      caller.(am_is_signer) requested b)
  else Ok b.

Definition hostile_returned (honest reduction requested : Z) : Z :=
  if requested =? OVERPAY then saturating_add u64_max reduction 1 else honest.

Definition hostile_credited (honest amount : Z) : Z :=
  if amount =? OVERSTATE_PRINCIPAL then saturating_add u64_max honest 1 else honest.

(** * Instructions *)

Definition loss_on (reduction loss_bps : Z) : AResult Z :=
  let? scaled := ok_or (if reduction * loss_bps <=? u128_max then Some (reduction * loss_bps)
                        else None) (AdapterRefused AdArithmeticOverflow) in
  let loss := scaled / MAX_BASIS_POINTS in
  require loss <=? u64_max or AdapterRefused AdArithmeticOverflow;
  Ok loss.

Definition check_common s (token_program mint : Key) : AResult unit :=
  require s.(as_state_version) =? ADAPTER_STATE_VERSION or AdapterRefused AdInvalidStateVersion;
  require keys_eq token_program s.(as_token_program) or AdapterRefused AdInvalidTokenProgram;
  require keys_eq mint s.(as_mint) or AdapterRefused AdInvalidMint;
  Ok tt.

Definition initialize_adapter (env : AdapterEnv) (ctx : InitializeAdapter) (p : AdapterParams)
    : AResult AdapterState :=
  fail_if keys_eq p.(ap_remote_leg_program) default_key with AdapterRefused AdInvalidRemoteLeg;
  fail_if keys_eq p.(ap_remote_config) default_key with AdapterRefused AdInvalidRemoteLeg;
  fail_if keys_eq p.(ap_test_authority) default_key with AdapterRefused AdUnauthorized;
  require p.(ap_loss_bps) <=? MAX_BASIS_POINTS or AdapterRefused AdInvalidBasisPoints;
  let '(authority, authority_bump) := adapter_authority_of ctx.(ia_adapter_state) in
  let vault := ctx.(ia_vault) in
  require keys_eq vault.(tk_owner) authority or AdapterRefused AdInvalidAdapterVault;
  require keys_eq vault.(tk_mint) ctx.(ia_mint) or AdapterRefused AdInvalidMint;
  require is_none vault.(tk_delegate) or AdapterRefused AdInvalidAdapterVault;
  require is_none vault.(tk_close_authority) or AdapterRefused AdInvalidAdapterVault;
  Ok {| as_state_version := ADAPTER_STATE_VERSION;
        as_bump := ctx.(ia_bump);
        as_authority_bump := authority_bump;
        as_deposits_paused := false;
        as_remote_leg_program := p.(ap_remote_leg_program);
        as_remote_config := p.(ap_remote_config);
        as_mint := ctx.(ia_mint);
        as_token_program := ctx.(ia_token_program);
        as_adapter_authority := authority;
        as_adapter_token_vault := ctx.(ia_adapter_token_vault);
        as_test_authority := p.(ap_test_authority);
        as_principal := 0;
        as_max_liquid_principal := p.(ap_max_liquid_principal);
        as_loss_bps := p.(ap_loss_bps);
        as_initialized_at := env.(ae_unix_timestamp) |}.

Definition configure_adapter_test_conditions s (c : TestConditions) : AResult AdapterState :=
  require c.(tc_loss_bps) <=? MAX_BASIS_POINTS or AdapterRefused AdInvalidBasisPoints;
  Ok (s <| as_max_liquid_principal := c.(tc_max_liquid_principal) |>
        <| as_loss_bps := c.(tc_loss_bps) |>
        <| as_deposits_paused := c.(tc_deposits_paused) |>).

Definition deposit_exact hostile (ctx : DepositExact) (amount : Z) : AResult AdapterState :=
  let s := ctx.(de_state) in
  fail_if s.(as_deposits_paused) with AdapterRefused AdDepositsPaused;
  fail_if amount =? 0 with AdapterRefused AdNothingToDo;
  let? _ := check_common s ctx.(de_token_program) ctx.(de_mint) in
  require keys_eq ctx.(de_adapter_token_vault) s.(as_adapter_token_vault)
    or AdapterRefused AdInvalidAdapterVault;
  let? principal := ok_or (checked_add u64_max s.(as_principal) amount)
    (AdapterRefused AdArithmeticOverflow) in
  require principal <=? ctx.(de_vault).(tk_amount) or AdapterRefused AdInvalidBalanceDelta;
  let principal := if hostile then hostile_credited principal amount else principal in
  Ok (s <| as_principal := principal |>).

(** A transfer out of the vault, signed with the authority's seeds. *)
Definition return_principal (ctx : WithdrawForRemoteLeg) (returned : Z) b : AResult Bank :=
  let s := ctx.(wf_state) in
  if 0 <? returned then
    let authority := ctx.(wf_adapter_authority) in
    let signed := authority.(am_is_signer) ||
      bool_decide (rt_create_program_address
        [ADAPTER_AUTHORITY_SEED; ctx.(wf_adapter_state); [s.(as_authority_bump)]] strategy_ID
        = Some authority.(am_pubkey)) in
    token_call (token_transfer ctx.(wf_adapter_token_vault) ctx.(wf_remote_custody)
      authority.(am_pubkey) signed returned b)
  else Ok b.

Definition withdraw_for_remote_leg hostile (ctx : WithdrawForRemoteLeg) (requested : Z) b
    : AResult (AdapterState * Bank) :=
  let s := ctx.(wf_state) in
  let? _ := check_common s ctx.(wf_token_program) ctx.(wf_mint) in
  require keys_eq ctx.(wf_adapter_token_vault) s.(as_adapter_token_vault)
    or AdapterRefused AdInvalidAdapterVault;
  require keys_eq ctx.(wf_adapter_authority).(am_pubkey) s.(as_adapter_authority)
    or AdapterRefused AdInvalidAdapterAuthority;
  require keys_eq ctx.(wf_custody).(tk_owner) (remote_custody_authority s)
    or AdapterRefused AdInvalidRemoteCustody;
  require keys_eq ctx.(wf_custody).(tk_mint) s.(as_mint) or AdapterRefused AdInvalidMint;
  let? b := if hostile then attack_custody ctx requested b else Ok b in
  let reduction := Z.min (Z.min requested s.(as_principal)) s.(as_max_liquid_principal) in
  fail_if reduction =? 0 with AdapterRefused AdInsufficientLiquidity;
  let? loss := loss_on reduction s.(as_loss_bps) in
  let? returned := ok_or (checked_sub reduction loss) (AdapterRefused AdArithmeticOverflow) in
  let returned := if hostile then hostile_returned returned reduction requested else returned in
  let? b := return_principal ctx returned b in
  let? principal := ok_or (checked_sub s.(as_principal) reduction)
    (AdapterRefused AdArithmeticOverflow) in
  Ok (s <| as_principal := principal |>, b).

(** * Dispatch *)

Definition INITIALIZE_ADAPTER : list Z := [220; 38; 219; 51; 46; 10; 185; 59].
Definition CONFIGURE_ADAPTER : list Z := [162; 173; 31; 134; 231; 124; 19; 95].

Inductive AdapterIx :=
| AxInitialize (params : AdapterParams)
| AxConfigure (conditions : TestConditions)
| AxDeposit (amount : Z)
| AxWithdraw (requested_principal : Z).

Definition params_parse (l : list Z) : option AdapterParams :=
  '(leg, l) ← take_key l; '(config, l) ← take_key l; '(tester, l) ← take_key l;
  '(liquid, l) ← take_le 8 l; '(loss, _) ← take_le 2 l;
  Some (mkAdapterParams leg config tester liquid loss).

Definition conditions_parse (l : list Z) : option TestConditions :=
  '(liquid, l) ← take_le 8 l; '(loss, l) ← take_le 2 l; '(paused, _) ← take_bool l;
  Some (mkTestConditions liquid loss paused).

(** The selector of the first eight bytes, then the arguments. *)
Definition adapter_ix_parse (data : list Z) : option AdapterIx :=
  '(selector, l) ← take_bytes 8 data;
  if bool_decide (selector = INITIALIZE_ADAPTER) then AxInitialize <$> params_parse l
  else if bool_decide (selector = CONFIGURE_ADAPTER) then AxConfigure <$> conditions_parse l
  else if bool_decide (selector = DEPOSIT_EXACT) then AxDeposit ∘ fst <$> take_le 8 l
  else if bool_decide (selector = WITHDRAW_FOR_REMOTE_LEG) then AxWithdraw ∘ fst <$> take_le 8 l
  else None.

(** One call of the program: a failed one changes nothing. *)
Definition solevm_test_strategy hostile (env : AdapterEnv) (ix : Instruction) b : AResult Bank :=
  require keys_eq ix.(ix_program_id) strategy_ID or AdapterAccount;
  let? call := ok_or (adapter_ix_parse ix.(ix_data)) AdapterAccount in
  let metas := ix.(ix_accounts) in
  match call with
  | AxInitialize p =>
      let? ctx := initialize_accounts env b metas p in
      let? s := initialize_adapter env ctx p in
      Ok (b <| bk_data ::= insert ctx.(ia_adapter_state)
                 (mkAccountInfo strategy_ID (adapter_state_bytes s)) |>)
  | AxConfigure c =>
      let? ctx := configure_accounts b metas in
      let? s := configure_adapter_test_conditions ctx.(ca_state) c in
      Ok (write_state b ctx.(ca_adapter_state) s)
  | AxDeposit amount =>
      let? ctx := deposit_accounts b metas in
      let? s := deposit_exact hostile ctx amount in
      Ok (write_state b ctx.(de_adapter_state) s)
  | AxWithdraw requested =>
      let? ctx := withdraw_accounts b metas in
      let? '(s, b') := withdraw_for_remote_leg hostile ctx requested b in
      Ok (write_state b' ctx.(wf_adapter_state) s)
  end.

End strategy.
