(* ===== verification/StrategyFacts.v ===== *)
(** What the strategy program's parts guarantee: its account bytes are the
    layout the remote leg reads, its loss stays within what it is taken on,
    and the platform's documented laws ([AddressLaws], [TokenLaws]) under
    which its instructions have exact effects. *)

From Stdlib Require Import ZArith Lia.
From stdpp Require Import strings.
From S2P Require Import Prelude ProtocolLayout ProtocolTypes ProtocolCodec ProtocolWire.
From S2P Require Import RemoteState RemoteMessage RemotePlatform RemoteBooks.
From S2P Require Import StrategyProgram.

(** * Account bytes *)

Record adapter_typed (s : AdapterState) : Prop := {
  at_version : is_u8 s.(as_state_version);
  at_bump : is_u8 s.(as_bump);
  at_authority_bump : is_u8 s.(as_authority_bump);
  at_remote_leg : is_wide s.(as_remote_leg_program);
  at_config : is_wide s.(as_remote_config);
  at_mint : is_wide s.(as_mint);
  at_token_program : is_wide s.(as_token_program);
  at_authority : is_wide s.(as_adapter_authority);
  at_vault : is_wide s.(as_adapter_token_vault);
  at_tester : is_wide s.(as_test_authority);
  at_principal : is_u64 s.(as_principal);
  at_liquid : is_u64 s.(as_max_liquid_principal);
  at_loss : is_u16 s.(as_loss_bps);
  at_time : is_i64 s.(as_initialized_at)
}.

Lemma take_bytes_app n w r : length w = n -> take_bytes n (w ++ r) = Some (w, r).
Proof.
  intros <-. unfold take_bytes. rewrite (proj2 (Nat.leb_le _ _)) by (rewrite length_app; lia).
  by rewrite take_app_length, drop_app_length.
Qed.

Lemma take_bytes_Some n l w r : take_bytes n l = Some (w, r) -> l = w ++ r /\ length w = n.
Proof.
  unfold take_bytes. destruct (Nat.leb_spec n (length l)); [|done]. intros [= <- <-].
  rewrite take_drop, length_take. split; [done|lia].
Qed.

Lemma take_le_app n v r : fits (be_max n) v -> take_le n (to_le n v ++ r) = Some (v, r).
Proof.
  intros Hv. unfold take_le. rewrite take_bytes_app by apply length_to_le. cbn.
  by rewrite from_to_le.
Qed.

Lemma take_le_Some n l v r :
  is_bytes l -> take_le n l = Some (v, r) -> fits (be_max n) v /\ is_bytes r.
Proof.
  unfold take_le. intros Hl Ht. destruct (take_bytes n l) as [[w r']|] eqn:E; [|done].
  apply take_bytes_Some in E as [-> <-]. injection Ht as <- <-.
  apply Forall_app in Hl as [Hw Hr]. by destruct (to_from_le w Hw).
Qed.

Lemma take_key_Some l k r : is_bytes l -> take_key l = Some (k, r) -> is_wide k /\ is_bytes r.
Proof.
  intros Hl [-> Hk]%take_bytes_Some. apply Forall_app in Hl as [Hw Hr]. by split_and!.
Qed.

Lemma length_adapter_state_bytes s :
  adapter_typed s -> length (adapter_state_bytes s) = ADAPTER_STATE_LEN.
Proof.
  intros [_ _ _ [H1 _] [H2 _] [H3 _] [H4 _] [H5 _] [H6 _] [H7 _] _ _ _ _].
  unfold adapter_state_bytes.
  rewrite !length_app, H1, H2, H3, H4, H5, H6, H7, !length_to_le, length_i64_to_le. reflexivity.
Qed.

(** What was written is read back, whatever lies behind it. *)
Lemma adapter_state_round_trip s rest :
  adapter_typed s -> adapter_state_parse (adapter_state_bytes s ++ rest) = Some s.
Proof.
  intros [_ _ _ [H1 _] [H2 _] [H3 _] [H4 _] [H5 _] [H6 _] [H7 _] Hp Hl Hb Ht].
  unfold adapter_state_bytes, adapter_state_parse, take_key. rewrite <-!app_assoc.
  rewrite (take_bytes_app 8) by reflexivity. cbn [mbind option_bind].
  rewrite bool_decide_true by reflexivity.
  assert (Hpaused : forall p l, take_bool (bool_byte p :: l) = Some (p, l)) by (by intros []).
  cbn [app take_u8 mbind option_bind]. rewrite Hpaused. cbn [mbind option_bind].
  repeat (rewrite take_bytes_app by assumption; cbn [mbind option_bind]).
  rewrite (take_le_app 8 _ _ Hp). cbn [mbind option_bind].
  rewrite (take_le_app 8 _ _ Hl). cbn [mbind option_bind].
  rewrite (take_le_app 2 _ _ Hb). cbn [mbind option_bind].
  rewrite take_bytes_app by apply length_i64_to_le. cbn [mbind option_bind].
  rewrite i64_from_to_le by done. by destruct s.
Qed.

(** The account the remote leg finds: it has the layout the leg checks and
    the leg reads exactly the strategy's principal. *)
Lemma adapter_state_readable s program :
  adapter_typed s ->
  let info := mkAccountInfo program (adapter_state_bytes s) in
  check_layout info program = Ok tt /\ read_principal info = Ok s.(as_principal).
Proof.
  intros Hs. pose proof (length_adapter_state_bytes s Hs) as Hn. cbv zeta. split.
  - unfold check_layout. cbn [ai_owner ai_data]. rewrite Hn.
    unfold keys_eq. by rewrite !bool_decide_true.
  - unfold read_principal. cbn [ai_data]. rewrite Hn. cbn [Nat.leb].
    f_equal. destruct Hs as [_ _ _ [H1 _] [H2 _] [H3 _] [H4 _] [H5 _] [H6 _] [H7 _] Hp _ _ _].
    set (front := STATE_DISCRIMINATOR ++ [as_state_version s; as_bump s; as_authority_bump s;
      bool_byte (as_deposits_paused s)] ++ as_remote_leg_program s ++ as_remote_config s ++
      as_mint s ++ as_token_program s ++ as_adapter_authority s ++ as_adapter_token_vault s ++
      as_test_authority s).
    assert (Hf : length front = PRINCIPAL_OFFSET)
      by (unfold front; rewrite !length_app, H1, H2, H3, H4, H5, H6, H7; reflexivity).
    assert (exists rest, adapter_state_bytes s = front ++ to_le 8 (as_principal s) ++ rest)
      as [rest ->] by (eexists; unfold adapter_state_bytes, front; by rewrite <-!app_assoc).
    unfold slice. rewrite <-Hf, drop_app_length.
    rewrite (take_app_length' _ _ PRINCIPAL_LEN) by (by rewrite length_to_le).
    exact (u64_from_to_le _ Hp).
Qed.

(** * The loss *)

(** The loss of a reduction, the basis point share rounded down. *)
Definition loss_of_reduction (reduction loss_bps : Z) : Z := reduction * loss_bps / MAX_BASIS_POINTS.

Lemma loss_on_exact reduction loss_bps :
  is_u64 reduction -> 0 <= loss_bps <= MAX_BASIS_POINTS ->
  loss_on reduction loss_bps = Ok (loss_of_reduction reduction loss_bps) /\
  0 <= loss_of_reduction reduction loss_bps <= reduction.
Proof.
  unfold loss_on, loss_of_reduction, MAX_BASIS_POINTS, fits, u64_max, u128_max. intros Hr Hl.
  assert (0 <= reduction * loss_bps <= reduction * 10000) as Hm by nia.
  assert (0 <= reduction * loss_bps / 10000 <= reduction) as Hd.
  { split; [apply Z.div_pos; lia|]. apply Z.div_le_upper_bound; lia. }
  rewrite (proj2 (Z.leb_le _ (2 ^ 128 - 1))) by lia. cbn [ok_or].
  rewrite (proj2 (Z.leb_le _ _)) by lia. done.
Qed.

(** * Laws of the platform *)

(** Program addresses: 32 bytes with the bump that completes their seeds,
    and two adapter states have different authorities. *)
Class AddressLaws `{ProgramAddresses} : Prop := {
  find_wide seeds program : is_wide (rt_find_program_address seeds program).1;
  find_bump seeds program : is_u8 (rt_find_program_address seeds program).2;
  find_create seeds program :
    rt_create_program_address (seeds ++ [[(rt_find_program_address seeds program).2]]) program
    = Some (rt_find_program_address seeds program).1;
  authority_distinct k k' :
    is_wide k -> is_wide k' ->
    (adapter_authority_of k).1 = (adapter_authority_of k').1 -> k = k'
}.

(** The bank after [n] tokens went from one account to another. *)
Definition moved (from to : Key) (n : Z) (b : Bank) : Bank :=
  b <| bk_tokens := alter (fun t => t <| tk_amount ::= Z.add n |>) to
         (alter (fun t => t <| tk_amount ::= Z.add (- n) |>) from b.(bk_tokens)) |>.

#[global] Arguments moved : simpl never.

(** What an account gains when [n] tokens move. *)
Definition gain (from to : Key) (n : Z) (k : Key) : Z :=
  (if decide (k = to) then n else 0) - (if decide (k = from) then n else 0).

Lemma moved_lookup from to n b k :
  (moved from to n b).(bk_tokens) !! k
  = (fun t => t <| tk_amount ::= Z.add (gain from to n k) |>) <$> b.(bk_tokens) !! k.
Proof.
  unfold moved, gain, set_field. cbn.
  destruct (decide (k = to)) as [Hto|Hto], (decide (k = from)) as [Hfrom|Hfrom]; subst;
    rewrite ?lookup_alter_eq, ?lookup_alter_ne, ?lookup_alter_eq by done;
    destruct (bk_tokens b !! _) as [[]|]; try done; cbn; unfold set_field; cbn; do 2 f_equal; lia.
Qed.

Lemma moved_zero from to b : moved from to 0 b = b.
Proof.
  pose proof (moved_lookup from to 0 b) as Hk. destruct b as [ts ms ds].
  unfold moved, set_field, gain in *. cbn in *. f_equal. apply map_eq. intros k. rewrite Hk.
  by repeat destruct (decide _); destruct (ts !! k) as [[]|].
Qed.

(** The token program: whoever acts on an account signed and is its owner,
    its delegate where a transfer is concerned, or its close authority
    where that is to change; the owner moves exactly what it says, and may
    move what is there to an account of the same mint (no account here is
    frozen, and a mint's supply fits its width). *)
Class TokenLaws `{TokenProgram} : Prop := {
  transfer_needs from to authority signed n b b' :
    token_transfer from to authority signed n b = Some b' ->
    signed = true /\
    exists f t, b.(bk_tokens) !! from = Some f /\ b.(bk_tokens) !! to = Some t /\
      n <= f.(tk_amount) /\ (authority = f.(tk_owner) \/ f.(tk_delegate) = Some authority) /\
      (authority = f.(tk_owner) -> b' = moved from to n b);
  transfer_runs from to authority n b f t :
    b.(bk_tokens) !! from = Some f -> b.(bk_tokens) !! to = Some t ->
    authority = f.(tk_owner) -> f.(tk_mint) = t.(tk_mint) -> 0 <= n <= f.(tk_amount) ->
    is_Some (token_transfer from to authority true n b);
  approve_needs account delegate owner signed n b b' :
    token_approve account delegate owner signed n b = Some b' ->
    signed = true /\ exists a, b.(bk_tokens) !! account = Some a /\ owner = a.(tk_owner);
  set_authority_needs account current signed kind new b b' :
    token_set_authority account current signed kind new b = Some b' ->
    signed = true /\ exists a, b.(bk_tokens) !! account = Some a /\
      (current = a.(tk_owner) \/
       (kind = CloseAccount /\ a.(tk_close_authority) = Some current))
}.
