(* ===== verification/StrategyBank.v ===== *)
(** The strategy program's invariant: every adapter account on the chain
    holds well-formed settings at its own address, and its vault, which
    only the program can take from, holds at least the principal it books.
    The chain moves by calls of the program and by whatever others do to
    accounts they hold no signature for. *)

From Stdlib Require Import ZArith Lia.
From stdpp Require Import strings.
From S2P Require Import Prelude ProtocolLayout ProtocolTypes ProtocolCodec ProtocolWire.
From S2P Require Import RemoteState RemoteMessage RemotePlatform RemoteBooks.
From S2P Require Import StrategyProgram StrategyFacts.

(** Unfolds an instruction that succeeded down to its checks. *)
Ltac adapter_step :=
  match goal with
  | Hm : match ?l with [] => _ | _ :: _ => _ end = Ok _ |- _ =>
      destruct l as [|? ?]; [discriminate Hm|]
  | Hc : token_call ?o = Ok _ |- _ =>
      let E := fresh "Ecall" in destruct o eqn:E; [|discriminate Hc]; injection Hc as <-
  | _ => leg_step
  end.

Ltac adapter_inv := repeat (adapter_step; cbv beta zeta in * ); bool_to_prop.

Section bank.
Context `{ProgramAddresses} `{TokenProgram} `{!AddressLaws} `{!TokenLaws}.
Implicit Types (s : AdapterState) (b : Bank) (ts : gmap (list Z) TokenState).

(** * The invariant *)

(** The vault of an adapter: only the adapter's authority controls it. *)
Record vault_sound s (v : TokenState) : Prop := {
  vs_owner : v.(tk_owner) = s.(as_adapter_authority);
  vs_mint : v.(tk_mint) = s.(as_mint);
  vs_delegate : v.(tk_delegate) = None;
  vs_close : v.(tk_close_authority) = None;
  vs_program : v.(tk_program) = token_ID;
  vs_covers : s.(as_principal) <= v.(tk_amount)
}.

Record adapter_sound ts (k : Key) s : Prop := {
  an_typed : adapter_typed s;
  an_version : s.(as_state_version) = ADAPTER_STATE_VERSION;
  an_loss : s.(as_loss_bps) <= MAX_BASIS_POINTS;
  an_token_program : s.(as_token_program) = token_ID;
  an_address : (k, s.(as_bump))
    = rt_find_program_address (adapter_seeds s.(as_remote_config)) strategy_ID;
  an_authority : (s.(as_adapter_authority), s.(as_authority_bump)) = adapter_authority_of k;
  an_vault : exists v, ts !! s.(as_adapter_token_vault) = Some v /\ vault_sound s v
}.

(** Token balances are not negative. *)
Definition balances ts : Prop := forall k t, ts !! k = Some t -> 0 <= t.(tk_amount).

Record sound b : Prop := {
  so_balances : balances b.(bk_tokens);
  so_adapters k info : b.(bk_data) !! k = Some info -> info.(ai_owner) = strategy_ID ->
    exists s, info.(ai_data) = adapter_state_bytes s /\ adapter_sound b.(bk_tokens) k s
}.

Lemma an_key ts k s : adapter_sound ts k s -> is_wide k.
Proof. intros Ha. pose proof (find_wide (adapter_seeds (as_remote_config s)) strategy_ID) as Hw.
  by rewrite <-(an_address _ _ _ Ha) in Hw. Qed.

(** Two adapters never share a vault. *)
Lemma vaults_disjoint ts k s k' s' :
  adapter_sound ts k s -> adapter_sound ts k' s' ->
  s.(as_adapter_token_vault) = s'.(as_adapter_token_vault) -> k = k'.
Proof.
  intros Ha Ha' Heq. destruct (an_vault _ _ _ Ha) as (v & Hv & [Ho _ _ _ _ _]).
  destruct (an_vault _ _ _ Ha') as (v' & Hv' & [Ho' _ _ _ _ _]).
  rewrite <-Heq, Hv in Hv'. injection Hv' as <-.
  apply authority_distinct; [by eapply an_key..|].
  rewrite <-(an_authority _ _ _ Ha), <-(an_authority _ _ _ Ha'). cbn. congruence.
Qed.

(** An adapter is sound wherever its vault kept its terms and enough. *)
Lemma adapter_sound_ext ts ts' k s :
  adapter_sound ts k s ->
  (forall v, ts !! s.(as_adapter_token_vault) = Some v -> vault_sound s v ->
     exists v', ts' !! s.(as_adapter_token_vault) = Some v' /\ vault_sound s v') ->
  adapter_sound ts' k s.
Proof.
  intros [? ? ? ? ? ? (v & Hv & Hs)] Hext. split; try done. by apply (Hext v).
Qed.

Lemma load_state_sound b k s :
  sound b -> load_state b k = Ok s ->
  exists info, b.(bk_data) !! k = Some info /\ info.(ai_owner) = strategy_ID /\
    info.(ai_data) = adapter_state_bytes s /\ adapter_sound b.(bk_tokens) k s.
Proof.
  unfold load_state. intros Hb Hl. leg_inv.
  destruct (so_adapters b Hb _ _ E E0) as (s' & Hd & Hs).
  pose proof (adapter_state_round_trip s' [] (an_typed _ _ _ Hs)) as Hr.
  rewrite app_nil_r, <-Hd, Hl in Hr. injection Hr as ->. eauto 6.
Qed.

(** Writing a state back keeps the invariant when the state and the other
    adapters' vaults stay sound under the new token accounts. *)
Lemma write_state_sound b b' k info s s' :
  sound b -> balances b'.(bk_tokens) -> b'.(bk_data) = b.(bk_data) ->
  b.(bk_data) !! k = Some info -> info.(ai_data) = adapter_state_bytes s -> adapter_typed s ->
  (forall k' s2, k' <> k -> adapter_sound b.(bk_tokens) k' s2 ->
     adapter_sound b'.(bk_tokens) k' s2) ->
  adapter_sound b'.(bk_tokens) k s' -> sound (write_state b' k s').
Proof.
  intros Hb Hbal Hdata Hk Hd Ht Hothers Hs'. split; [done|]. intros k' info' Hk' Ho. unfold write_state in *. cbn in *.
  rewrite Hdata in Hk'. destruct (decide (k' = k)) as [->|Hne].
  - rewrite lookup_alter_eq, Hk in Hk'. injection Hk' as <-. exists s'. split; [|done].
    cbn. rewrite Hd, drop_ge by (by rewrite length_adapter_state_bytes). by rewrite app_nil_r.
  - rewrite lookup_alter_ne in Hk' by done. destruct (so_adapters b Hb _ _ Hk' Ho) as (s2 & ? & ?).
    exists s2. eauto.
Qed.

(** * The instructions *)

(** What an instruction brings: 32-byte account keys and bytes. *)
Definition instruction_typed (ix : Instruction) : Prop :=
  is_bytes ix.(ix_data) /\ Forall (fun m => is_wide m.(am_pubkey)) ix.(ix_accounts).

(** Reads the next field of a parsed argument list. *)
Ltac take_next Hp :=
  let E := fresh "E" in
  match type of Hp with
  | (?o ≫= _) = Some _ => destruct o as [[? ?]|] eqn:E; [|discriminate Hp]; cbn in Hp
  end;
  first [apply take_key_Some in E as [? E] | apply take_le_Some in E as [? E] | idtac];
  [|assumption..].

Lemma params_parse_typed l p :
  is_bytes l -> params_parse l = Some p ->
  is_wide p.(ap_remote_leg_program) /\ is_wide p.(ap_remote_config) /\
  is_wide p.(ap_test_authority) /\ is_u64 p.(ap_max_liquid_principal) /\ is_u16 p.(ap_loss_bps).
Proof. unfold params_parse. intros Hl Hp. repeat take_next Hp. by injection Hp as <-. Qed.

Lemma conditions_parse_typed l c :
  is_bytes l -> conditions_parse l = Some c ->
  is_u64 c.(tc_max_liquid_principal) /\ is_u16 c.(tc_loss_bps).
Proof. unfold conditions_parse. intros Hl Hp. repeat take_next Hp. by injection Hp as <-. Qed.

Lemma load_token_Ok b k t :
  load_token b k = Ok t -> b.(bk_tokens) !! k = Some t /\ t.(tk_program) = token_ID.
Proof. unfold load_token. intros Hl. by leg_inv. Qed.

Lemma initialize_sound env b metas p ctx s :
  sound b -> is_i64 env.(ae_unix_timestamp) -> Forall (fun m => is_wide m.(am_pubkey)) metas ->
  is_wide p.(ap_remote_leg_program) -> is_wide p.(ap_remote_config) ->
  is_wide p.(ap_test_authority) -> is_u64 p.(ap_max_liquid_principal) -> is_u16 p.(ap_loss_bps) ->
  initialize_accounts env b metas p = Ok ctx -> initialize_adapter env ctx p = Ok s ->
  b.(bk_data) !! ctx.(ia_adapter_state) = None /\
  adapter_sound b.(bk_tokens) ctx.(ia_adapter_state) s.
Proof.
  intros Hb Ht Hm Hp1 Hp2 Hp3 Hp4 Hp5 Hctx Hs.
  unfold initialize_accounts, program_account in Hctx. adapter_inv.
  unfold initialize_adapter in Hs. cbn in Hs. adapter_inv. cbn [ia_adapter_state].
  match goal with Hu : unused _ _ = true |- _ => unfold unused in Hu; bool_to_prop end.
  pose proof (find_bump (adapter_seeds (ap_remote_config p)) strategy_ID) as Hbump.
  pose proof (find_bump [ADAPTER_AUTHORITY_SEED; am_pubkey a0] strategy_ID) as Habump.
  pose proof (find_wide [ADAPTER_AUTHORITY_SEED; am_pubkey a0] strategy_ID) as Haw.
  fold (adapter_authority_of (am_pubkey a0)) in Habump, Haw.
  rewrite Ep in Hbump. rewrite Ep0 in Habump, Haw. rewrite !Forall_cons in Hm. destruct_and!.
  apply load_token_Ok in E5 as [Hv Hvp].
  split; [by destruct (bk_data b !! am_pubkey a0)|].
  split; cbn; try done. exists a7. split; [done|].
  split; cbn; try done; [by destruct (tk_delegate a7)|by destruct (tk_close_authority a7)|].
  by apply (so_balances b Hb) in Hv.
Qed.

(** New conditions leave the principal and the identity alone. *)
Lemma configure_sound ts k s c s' :
  adapter_sound ts k s -> is_u64 c.(tc_max_liquid_principal) -> is_u16 c.(tc_loss_bps) ->
  configure_adapter_test_conditions s c = Ok s' -> adapter_sound ts k s'.
Proof.
  intros [[] ? ? ? ? ? (v & Hv & [])] Hl Hb Hc.
  unfold configure_adapter_test_conditions in Hc. adapter_inv.
  split; cbn; try done. exists v. by split.
Qed.

(** An adapter with another principal its vault covers. *)
Lemma principal_sound ts k s n v :
  adapter_sound ts k s -> ts !! s.(as_adapter_token_vault) = Some v -> is_u64 n ->
  n <= v.(tk_amount) -> adapter_sound ts k (s <| as_principal := n |>).
Proof.
  intros [[] ? ? ? ? ? (v' & Hv' & [])] Hv Hn Hle. rewrite Hv in Hv'. injection Hv' as <-.
  split; cbn; try done. exists v. by split.
Qed.

Lemma deposit_Ok b metas ctx amount s' :
  sound b -> is_u64 amount ->
  deposit_accounts b metas = Ok ctx -> deposit_exact false ctx amount = Ok s' ->
  load_state b ctx.(de_adapter_state) = Ok ctx.(de_state) /\
  adapter_sound b.(bk_tokens) ctx.(de_adapter_state) s'.
Proof.
  intros Hb Ha Hctx Hs. unfold deposit_accounts in Hctx. adapter_inv.
  unfold deposit_exact in Hs. cbn in Hs. adapter_inv. cbn [de_adapter_state de_state].
  match goal with Hl : load_state _ _ = Ok _ |- _ =>
    pose proof Hl as Hl'; apply load_state_sound in Hl' as (_ & _ & _ & _ & Hs); [|done] end.
  match goal with Hv : load_token _ _ = Ok _ |- _ => apply load_token_Ok in Hv as [Hv _] end.
  match goal with Hk : _ = as_adapter_token_vault _ |- _ => rewrite Hk in * end.
  split; [done|]. eapply principal_sound; [done..| |done].
  pose proof (at_principal _ (an_typed _ _ _ Hs)). unfold fits in *. lia.
Qed.

(** What a withdrawal takes off the principal, and what of it comes back. *)
Definition reduction_of s (requested : Z) : Z :=
  Z.min (Z.min requested s.(as_principal)) s.(as_max_liquid_principal).

Definition returned_of s (requested : Z) : Z :=
  let reduction := reduction_of s requested in
  reduction - loss_of_reduction reduction s.(as_loss_bps).

Lemma returned_bounds ts k s requested :
  adapter_sound ts k s -> is_u64 requested ->
  is_u64 (reduction_of s requested) /\ reduction_of s requested <= s.(as_principal) /\
  0 <= returned_of s requested <= reduction_of s requested /\
  loss_on (reduction_of s requested) s.(as_loss_bps)
    = Ok (loss_of_reduction (reduction_of s requested) s.(as_loss_bps)).
Proof.
  intros Ha Hr. pose proof (an_typed _ _ _ Ha) as [_ _ _ _ _ _ _ _ _ _ Hp Hl Hb _].
  pose proof (an_loss _ _ _ Ha) as Hloss. unfold returned_of.
  assert (Hred : is_u64 (reduction_of s requested) /\ reduction_of s requested <= as_principal s)
    by (unfold reduction_of, fits in *; lia).
  destruct Hred as [Hu Hle].
  destruct (loss_on_exact (reduction_of s requested) (as_loss_bps s)) as [-> ?];
    [done|unfold fits in Hb; lia|]. split_and!; try done; lia.
Qed.

Lemma return_principal_Ok ctx returned b b' :
  return_principal ctx returned b = Ok b' -> 0 <= returned ->
  ctx.(wf_adapter_authority).(am_pubkey) = ctx.(wf_vault).(tk_owner) ->
  b.(bk_tokens) !! ctx.(wf_adapter_token_vault) = Some ctx.(wf_vault) ->
  0 <= ctx.(wf_vault).(tk_amount) ->
  returned <= ctx.(wf_vault).(tk_amount) /\
  b' = moved ctx.(wf_adapter_token_vault) ctx.(wf_remote_custody) returned b.
Proof.
  unfold return_principal. intros Hr Hn Ho Hv Hv0. destruct (Z.ltb_spec 0 returned).
  - adapter_inv. apply transfer_needs in Ecall as (_ & f & t & Hf & _ & Hle & _ & Hm).
    rewrite Hv in Hf. injection Hf as <-. auto.
  - injection Hr as ->. assert (returned = 0) as -> by lia. by rewrite moved_zero.
Qed.

Lemma withdraw_Ok b metas ctx requested s' b' :
  sound b -> is_u64 requested ->
  withdraw_accounts b metas = Ok ctx ->
  withdraw_for_remote_leg false ctx requested b = Ok (s', b') ->
  let s := ctx.(wf_state) in
  load_state b ctx.(wf_adapter_state) = Ok s /\ 0 < reduction_of s requested /\
  s' = s <| as_principal := s.(as_principal) - reduction_of s requested |> /\
  exists v, b.(bk_tokens) !! s.(as_adapter_token_vault) = Some v /\
  returned_of s requested <= v.(tk_amount) /\
  b' = moved s.(as_adapter_token_vault) ctx.(wf_remote_custody) (returned_of s requested) b.
Proof.
  intros Hb Hq Hctx Hw. unfold withdraw_accounts in Hctx. adapter_inv.
  unfold withdraw_for_remote_leg in Hw. cbn in Hw.
  match goal with Hl : load_state _ _ = Ok ?s0 |- _ =>
    pose proof Hl as Hl'; apply load_state_sound in Hl' as (_ & _ & _ & _ & Hs); [|done];
    fold (reduction_of s0 requested) in Hw;
    destruct (returned_bounds _ _ _ requested Hs Hq) as (Hu & Hle & Hret & Hloss)
  end.
  rewrite Hloss in Hw. adapter_inv. cbn [wf_state wf_adapter_state wf_remote_custody].
  match goal with Hv : load_token _ (am_pubkey a3) = Ok _ |- _ =>
    apply load_token_Ok in Hv as [Hv _] end.
  match goal with Hk : _ = as_adapter_token_vault _ |- _ => rewrite Hk in * end.
  destruct (an_vault _ _ _ Hs) as (v & Hv & [Ho _ _ _ _ Hcov]).
  match goal with Hr : return_principal _ _ _ = Ok _ |- _ =>
    apply return_principal_Ok in Hr as [Hr ->]; cbn in Hr |- *; try congruence end;
    [|fold (returned_of a7 requested)..].
  - split_and!; try done; [unfold fits in Hu; lia|]. eauto.
  - lia.
  - by apply (so_balances b Hb) in E2.
Qed.

(** A transfer out of an adapter's vault leaves every other adapter, and
    the balances, as sound as they were. *)
Lemma moved_balances b vault custody n v :
  balances b.(bk_tokens) -> b.(bk_tokens) !! vault = Some v -> 0 <= n <= v.(tk_amount) ->
  balances (moved vault custody n b).(bk_tokens).
Proof.
  intros Hb Hv Hn k t. rewrite moved_lookup. destruct (bk_tokens b !! k) as [t0|] eqn:Hk; [|done].
  intros [= <-]. cbn. pose proof (Hb _ _ Hk). unfold gain.
  repeat destruct (decide _); subst; simplify_eq; lia.
Qed.

Lemma moved_others b k s k' s' custody n :
  adapter_sound b.(bk_tokens) k s -> adapter_sound b.(bk_tokens) k' s' -> k' <> k -> 0 <= n ->
  adapter_sound (moved s.(as_adapter_token_vault) custody n b).(bk_tokens) k' s'.
Proof.
  intros Hs Hs' Hne Hn. eapply adapter_sound_ext; [exact Hs'|]. intros v Hv [].
  rewrite moved_lookup, Hv. eexists. split; [reflexivity|]. split; cbn; try done.
  assert (as_adapter_token_vault s' <> as_adapter_token_vault s)
    by (intros Heq; by apply Hne, (vaults_disjoint _ _ _ _ _ Hs' Hs)).
  unfold gain. repeat destruct (decide _); try done; lia.
Qed.

Lemma moved_own b k s v custody n p :
  adapter_sound b.(bk_tokens) k s -> b.(bk_tokens) !! s.(as_adapter_token_vault) = Some v ->
  0 <= n -> is_u64 p -> p + n <= v.(tk_amount) ->
  adapter_sound (moved s.(as_adapter_token_vault) custody n b).(bk_tokens) k
    (s <| as_principal := p |>).
Proof.
  intros [[] ? ? ? ? ? (v' & Hv' & [])] Hv Hn Hp Hle. rewrite Hv in Hv'. injection Hv' as <-.
  split; cbn; try done. rewrite moved_lookup, Hv. eexists. split; [reflexivity|].
  split; cbn; try done. unfold gain. repeat destruct (decide _); try done; lia.
Qed.

(** * Runs *)

(** What everyone else can do: nothing to an adapter's account, and to a
    token account whose owner is an adapter's authority and which has no
    delegate nor close authority, only add to it. *)
Record others_respect b b' : Prop := {
  or_balances : balances b'.(bk_tokens);
  or_data k info : b'.(bk_data) !! k = Some info -> info.(ai_owner) = strategy_ID ->
    b.(bk_data) !! k = Some info;
  or_vaults k t a : b.(bk_tokens) !! k = Some t -> t.(tk_owner) = (adapter_authority_of a).1 ->
    t.(tk_delegate) = None -> t.(tk_close_authority) = None ->
    exists more, 0 <= more /\ b'.(bk_tokens) !! k = Some (t <| tk_amount ::= Z.add more |>)
}.

Inductive bank_step b : Bank -> Prop :=
| step_strategy env ix b' :
    is_i64 env.(ae_unix_timestamp) -> instruction_typed ix ->
    solevm_test_strategy false env ix b = Ok b' -> bank_step b b'
| step_others b' : others_respect b b' -> bank_step b b'.

(** A chain on which the program has no account yet. *)
Definition fresh_bank b : Prop :=
  balances b.(bk_tokens) /\
  forall k info, b.(bk_data) !! k = Some info -> info.(ai_owner) <> strategy_ID.

Definition bank_reachable b : Prop := exists b0, fresh_bank b0 /\ rtc bank_step b0 b.

Lemma adapter_ix_typed data call :
  is_bytes data -> adapter_ix_parse data = Some call ->
  match call with
  | AxInitialize p => exists l, is_bytes l /\ params_parse l = Some p
  | AxConfigure c => exists l, is_bytes l /\ conditions_parse l = Some c
  | AxDeposit n | AxWithdraw n => is_u64 n
  end.
Proof.
  unfold adapter_ix_parse. intros Hd Hp.
  destruct (take_bytes 8 data) as [[sel l]|] eqn:E; [|done]. cbn in Hp.
  apply take_bytes_Some in E as [-> _]. apply Forall_app in Hd as [_ Hl].
  assert (Hle : forall n r, take_le 8 l = Some (n, r) -> is_u64 n)
    by (intros n r Ht; by apply take_le_Some in Ht as [? _]).
  repeat case_bool_decide; [| | | |done];
    apply fmap_Some in Hp as ([] & Hp & ->); cbn; eauto.
Qed.

Lemma strategy_sound env ix b b' :
  sound b -> is_i64 env.(ae_unix_timestamp) -> instruction_typed ix ->
  solevm_test_strategy false env ix b = Ok b' -> sound b'.
Proof.
  intros Hb Ht [Hd Hm] He. unfold solevm_test_strategy in He. adapter_inv.
  match goal with Hc : adapter_ix_parse _ = Some ?c |- _ =>
    apply adapter_ix_typed in Hc; [|done]; destruct c end; adapter_inv.
  - destruct E0 as (l & Hl & Hp). apply params_parse_typed in Hp as (? & ? & ? & ? & ?); [|done].
    edestruct initialize_sound as [Hnone Hs]; [exact Hb|done..|].
    split; [by destruct Hb|]. cbn. intros k info Hk Ho.
    destruct (decide (k = ia_adapter_state a)) as [->|Hne].
    + rewrite lookup_insert_eq in Hk. injection Hk as <-. eauto.
    + rewrite lookup_insert_ne in Hk by done. by apply (so_adapters b Hb).
  - destruct E0 as (l & Hl & Hp). apply conditions_parse_typed in Hp as [? ?]; [|done].
    unfold configure_accounts in *. adapter_inv. cbn in *.
    match goal with Hs : load_state _ _ = Ok _ |- _ =>
      apply load_state_sound in Hs as (info & Hk & _ & Hi & Hs); [|done] end.
    eapply write_state_sound; [done|by destruct Hb|done|done|done|by eapply an_typed|done|].
    by eapply configure_sound.
  - edestruct deposit_Ok as [Hs Hs']; [exact Hb|done..|].
    apply load_state_sound in Hs as (info & Hk & _ & Hi & Hs); [|done].
    by eapply write_state_sound; [done|by destruct Hb|done|done|done|by eapply an_typed|done|].
  - destruct (withdraw_Ok b _ _ _ _ _ Hb E0 E1 E2) as (Hs & Hpos & -> & v & Hv & Hle & ->).
    apply load_state_sound in Hs as (info & Hk & _ & Hi & Hs); [|done].
    destruct (returned_bounds _ _ _ requested_principal Hs ltac:(done)) as (Hu & Hred & Hret & _).
    destruct (an_vault _ _ _ Hs) as (v' & Hv' & Hvs). rewrite Hv in Hv'. injection Hv' as <-.
    pose proof (vs_covers _ _ Hvs). pose proof (at_principal _ (an_typed _ _ _ Hs)).
    unfold fits in *.
    eapply write_state_sound; [done| |done|done|done|by eapply an_typed| |].
    + eapply moved_balances; [by destruct Hb|done|lia].
    + intros k' s2 Hne Hs2. eapply moved_others; [done..|lia].
    + eapply moved_own; [done..|lia| |lia]. unfold fits. lia.
Qed.

Lemma others_sound b b' : sound b -> others_respect b b' -> sound b'.
Proof.
  intros Hb [Hbal Hdata Hvaults]. split; [done|]. intros k info Hk Ho.
  destruct (so_adapters b Hb k info (Hdata _ _ Hk Ho) Ho) as (s & Hi & Hs).
  exists s. split; [done|]. eapply adapter_sound_ext; [exact Hs|].
  intros v Hv []. destruct (Hvaults _ v k Hv) as (more & Hm & Hv'); [|done..|].
  - by rewrite <-(an_authority _ _ _ Hs).
  - eexists. split; [exact Hv'|]. split; cbn; try done; lia.
Qed.

Lemma bank_sound b : bank_reachable b -> sound b.
Proof.
  intros (b0 & [Hbal Hfresh] & Hr).
  assert (H0s : sound b0) by (split; [done|]; intros k info Hk Ho; by destruct (Hfresh k info Hk)).
  clear Hfresh. induction Hr as [|b1 b2 b3 Hstep _ IH]; [done|].
  assert (sound b2) by (destruct Hstep; [by eapply strategy_sound|by eapply others_sound]).
  apply IH; [by apply so_balances|done].
Qed.

End bank.
