(* ===== verification/StrategyCalls.v ===== *)
(** The calls the remote leg makes, run by the strategy program: the chain
    the two programs share, and what a deposit and a withdrawal built by
    the leg's [adapter.rs] do to its accounts, on every branch. *)

From Stdlib Require Import ZArith Lia.
From stdpp Require Import strings.
From S2P Require Import Prelude ProtocolLayout ProtocolTypes ProtocolCodec ProtocolWire.
From S2P Require Import RemoteState RemoteMessage RemotePlatform RemoteLeg RemoteBooks.
From S2P Require Import StrategyProgram StrategyFacts StrategyBank.

(** Where the accounts of one leg and its adapter sit. *)
Record Places := mkPlaces {
  pl_custody : Key;
  pl_vault : Key;
  pl_escrow : Key;
  pl_adapter_state : Key;
  pl_mint : Key;
  pl_custody_authority : Key
}.

Definition place (pl : Places) (side : TokenSide) : Key :=
  match side with
  | SideCustody => pl.(pl_custody)
  | SideVault => pl.(pl_vault)
  | SideEscrow => pl.(pl_escrow)
  end.

(** The leg's three token accounts are three accounts; it refuses to be set
    up otherwise. *)
Definition places_distinct (pl : Places) : Prop :=
  pl.(pl_custody) <> pl.(pl_vault) /\ pl.(pl_custody) <> pl.(pl_escrow) /\
  pl.(pl_vault) <> pl.(pl_escrow).

(** The leg's world as accounts of the chain, and back. *)
Definition bank_of (pl : Places) (w : World) : Bank := {|
  bk_tokens := <[pl.(pl_custody) := w.(w_custody)]>
    (<[pl.(pl_vault) := w.(w_vault)]> {[pl.(pl_escrow) := w.(w_escrow)]});
  bk_mints := {[pl.(pl_mint)]};
  bk_data := {[pl.(pl_adapter_state) := w.(w_adapter_state)]}
|}.

Definition world_of (pl : Places) (b : Bank) : option World :=
  c ← b.(bk_tokens) !! pl.(pl_custody);
  v ← b.(bk_tokens) !! pl.(pl_vault);
  e ← b.(bk_tokens) !! pl.(pl_escrow);
  a ← b.(bk_data) !! pl.(pl_adapter_state);
  Some (mkWorld c v e a).

(** The rest of the leg's platform: its own address and the verifier's, the
    digests and the verifier's selector. *)
Record LegSide := mkLegSide {
  ls_crate_ID : Key;
  ls_verifier_ID : Key;
  ls_keccak : list Z -> list Z;
  ls_sha256 : list Z -> list Z;
  ls_consume_discriminator : list Z
}.

(** The leg's chain with the strategy program as its adapter: a transfer
    out of custody is signed by the custody authority, a call goes to the
    program. *)
Definition pair_chain (side : LegSide) `{ProgramAddresses} `{TokenProgram} (pl : Places) (hostile : bool)
    (aenv : AdapterEnv) : Chain := {|
  crate_ID := side.(ls_crate_ID);
  verifier_ID := side.(ls_verifier_ID);
  keccak := side.(ls_keccak);
  sha256 := side.(ls_sha256);
  find_program_address := rt_find_program_address;
  create_program_address := rt_create_program_address;
  consume_discriminator := side.(ls_consume_discriminator);
  spl_transfer from to n w :=
    token_transfer (place pl from) (place pl to) pl.(pl_custody_authority) true n (bank_of pl w)
      ≫= world_of pl;
  invoke_signed ix w :=
    match solevm_test_strategy hostile aenv ix (bank_of pl w) with
    | Ok b => world_of pl b
    | Err _ => None
    end
|}.

Section calls.
Context `{ProgramAddresses} `{TokenProgram} `{!AddressLaws} `{!TokenLaws}.
Context (pl : Places) (Hpl : places_distinct pl).
Implicit Types (s : AdapterState) (w : World) (c : AdapterCall).

Lemma bank_of_place w side :
  (bank_of pl w).(bk_tokens) !! place pl side
  = Some (match side with SideCustody => w.(w_custody) | SideVault => w.(w_vault)
          | SideEscrow => w.(w_escrow) end).
Proof.
  destruct Hpl as (Hcv & Hce & Hve). unfold bank_of. cbn. destruct side; cbn.
  - by rewrite lookup_insert_eq.
  - by rewrite lookup_insert_ne, lookup_insert_eq.
  - by rewrite !lookup_insert_ne, lookup_singleton_eq.
Qed.

(** The world after [n] tokens moved between two of its accounts. *)
Definition world_moved w (from to : TokenSide) (n : Z) : World :=
  let g side := gain (place pl from) (place pl to) n (place pl side) in
  w <| w_custody, tk_amount := g SideCustody + w.(w_custody).(tk_amount) |>
    <| w_vault, tk_amount := g SideVault + w.(w_vault).(tk_amount) |>
    <| w_escrow, tk_amount := g SideEscrow + w.(w_escrow).(tk_amount) |>.

#[global] Arguments world_moved : simpl never.

Lemma world_of_moved w from to n :
  world_of pl (moved (place pl from) (place pl to) n (bank_of pl w)) = Some (world_moved w from to n).
Proof.
  unfold world_of.
  change pl.(pl_custody) with (place pl SideCustody) at 1.
  change pl.(pl_vault) with (place pl SideVault) at 1.
  change pl.(pl_escrow) with (place pl SideEscrow) at 1.
  rewrite !moved_lookup, !bank_of_place. cbn [fmap option_fmap option_map mbind option_bind].
  unfold moved, set_field. cbn. by rewrite lookup_singleton_eq.
Qed.

Lemma world_of_bank w : world_of pl (bank_of pl w) = Some w.
Proof.
  rewrite <-(moved_zero (place pl SideCustody) (place pl SideCustody) (bank_of pl w)).
  rewrite world_of_moved. unfold world_moved, gain, set_field.
  destruct w as [[] [] [] ?]. cbn. by repeat destruct (decide _).
Qed.

Lemma world_of_write b w s :
  world_of pl b = Some w ->
  world_of pl (write_state b pl.(pl_adapter_state) s)
  = Some (w <| w_adapter_state, ai_data := adapter_state_bytes s ++
                 drop ADAPTER_STATE_LEN w.(w_adapter_state).(ai_data) |>).
Proof.
  unfold world_of, write_state. cbn. rewrite lookup_alter_eq.
  destruct (bk_tokens b !! pl_custody pl); cbn; [|done].
  destruct (bk_tokens b !! pl_vault pl); cbn; [|done].
  destruct (bk_tokens b !! pl_escrow pl); cbn; [|done].
  destruct (bk_data b !! _); cbn; [|done]. by intros [= <-].
Qed.

(** * A call of the leg *)

Definition adapter_account s : AccountInfo := mkAccountInfo strategy_ID (adapter_state_bytes s).

(** The adapter state [s] stands in the world [w], sound and set up for the
    leg that owns the custody account, and the call names its accounts. *)
Record staged w s c : Prop := {
  sg_account : w.(w_adapter_state) = adapter_account s;
  sg_sound : adapter_sound (bank_of pl w).(bk_tokens) pl.(pl_adapter_state) s;
  sg_vault : s.(as_adapter_token_vault) = pl.(pl_vault);
  sg_mint : s.(as_mint) = pl.(pl_mint);
  sg_custody_owner : w.(w_custody).(tk_owner) = remote_custody_authority s;
  sg_custody_mint : w.(w_custody).(tk_mint) = pl.(pl_mint);
  sg_custody_program : w.(w_custody).(tk_program) = token_ID;
  sg_call : c = mkAdapterCall strategy_ID pl.(pl_adapter_state) s.(as_adapter_authority)
    pl.(pl_vault) (remote_caller s) pl.(pl_custody) pl.(pl_mint) token_ID
}.

Lemma staged_vault w s c : staged w s c -> vault_sound s w.(w_vault).
Proof.
  intros [_ [_ _ _ _ _ _ (v & Hv & Hs)] Heq _ _ _ _ _]. rewrite Heq in Hv.
  pose proof (bank_of_place w SideVault) as Hw. cbn [place] in Hw. rewrite Hv in Hw.
  by injection Hw as ->.
Qed.

Lemma staged_load w s c : staged w s c -> load_state (bank_of pl w) pl.(pl_adapter_state) = Ok s.
Proof.
  intros Hst. unfold load_state, bank_of. cbn.
  rewrite lookup_singleton_eq, (sg_account _ _ _ Hst). cbn.
  unfold keys_eq. rewrite bool_decide_true by done.
  pose proof (adapter_state_round_trip s [] (an_typed _ _ _ (sg_sound _ _ _ Hst))) as Hr.
  by rewrite app_nil_r in Hr; rewrite Hr.
Qed.

Lemma staged_tokens w s c :
  staged w s c ->
  load_token (bank_of pl w) pl.(pl_vault) = Ok w.(w_vault) /\
  load_token (bank_of pl w) pl.(pl_custody) = Ok w.(w_custody).
Proof.
  intros Hst. pose proof (bank_of_place w SideVault) as Hv.
  pose proof (bank_of_place w SideCustody) as Hc. cbn [place] in Hv, Hc.
  unfold load_token, keys_eq. rewrite Hv, Hc. cbn.
  rewrite (vs_program _ _ (staged_vault _ _ _ Hst)), (sg_custody_program _ _ _ Hst).
  by rewrite !bool_decide_true.
Qed.

Lemma staged_address w s c writable signer_flag :
  staged w s c ->
  check_state_account (mkAccountMeta pl.(pl_adapter_state) signer_flag writable) s
  = if writable then Ok tt else Err AdapterAccount.
Proof.
  intros Hst. unfold check_state_account. cbn.
  pose proof (find_create (adapter_seeds (as_remote_config s)) strategy_ID) as Hc.
  rewrite <-(an_address _ _ _ (sg_sound _ _ _ Hst)) in Hc. cbn in Hc. by rewrite bool_decide_true.
Qed.

Lemma staged_authority w s c :
  staged w s c ->
  rt_create_program_address
    [ADAPTER_AUTHORITY_SEED; pl.(pl_adapter_state); [s.(as_authority_bump)]] strategy_ID
  = Some s.(as_adapter_authority).
Proof.
  intros Hst.
  pose proof (find_create [ADAPTER_AUTHORITY_SEED; pl.(pl_adapter_state)] strategy_ID) as Hc.
  fold (adapter_authority_of pl.(pl_adapter_state)) in Hc.
  by rewrite <-(an_authority _ _ _ (sg_sound _ _ _ Hst)) in Hc.
Qed.

Lemma staged_common w s c :
  staged w s c -> check_common s token_ID pl.(pl_mint) = Ok tt.
Proof.
  intros Hst. unfold check_common, keys_eq. destruct (sg_sound _ _ _ Hst) as [_ -> _ -> _ _ _].
  rewrite (sg_mint _ _ _ Hst). by rewrite Z.eqb_refl, !bool_decide_true.
Qed.

Lemma adapter_ix_deposit c n :
  is_u64 n -> adapter_ix_parse (deposit_exact_ix c n).(ix_data) = Some (AxDeposit n).
Proof.
  intros Hn. unfold adapter_ix_parse. cbn [deposit_exact_ix adapter_instruction ix_data].
  rewrite take_bytes_app by done. cbn [mbind option_bind].
  rewrite !bool_decide_false, bool_decide_true by done.
  rewrite <-(app_nil_r (to_le 8 n)), (take_le_app 8 n [] Hn). done.
Qed.

Lemma adapter_ix_withdraw c n :
  is_u64 n -> adapter_ix_parse (withdraw_ix c n).(ix_data) = Some (AxWithdraw n).
Proof.
  intros Hn. unfold adapter_ix_parse. cbn [withdraw_ix adapter_instruction ix_data].
  rewrite take_bytes_app by done. cbn [mbind option_bind].
  rewrite !bool_decide_false, bool_decide_true by done.
  rewrite <-(app_nil_r (to_le 8 n)), (take_le_app 8 n [] Hn). done.
Qed.

(** Every outcome of a deposit the leg asks for. *)
Lemma deposit_call hostile aenv w s c n :
  staged w s c -> is_u64 n ->
  solevm_test_strategy hostile aenv (deposit_exact_ix c n) (bank_of pl w) =
    if s.(as_deposits_paused) then Err (AdapterRefused AdDepositsPaused)
    else if n =? 0 then Err (AdapterRefused AdNothingToDo)
    else if negb (s.(as_principal) + n <=? u64_max) then Err (AdapterRefused AdArithmeticOverflow)
    else if negb (s.(as_principal) + n <=? w.(w_vault).(tk_amount))
      then Err (AdapterRefused AdInvalidBalanceDelta)
    else Ok (write_state (bank_of pl w) pl.(pl_adapter_state)
               (s <| as_principal := if hostile then hostile_credited (s.(as_principal) + n) n
                                     else s.(as_principal) + n |>)).
Proof.
  intros Hst Hn. unfold solevm_test_strategy. rewrite adapter_ix_deposit by done.
  rewrite (sg_call _ _ _ Hst). cbn [deposit_exact_ix adapter_instruction ix_program_id ix_accounts
    ac_adapter_program ac_caller ac_adapter_state ac_adapter_token_vault ac_asset_mint
    ac_token_program ok_or].
  unfold keys_eq at 1. rewrite bool_decide_true by done.
  unfold deposit_accounts, signer, program_account, load_mint. cbn [am_pubkey am_is_signer].
  rewrite (staged_load _ _ _ Hst).
  destruct (staged_tokens _ _ _ Hst) as [-> _].
  rewrite bool_decide_true by (cbn; set_solver). unfold keys_eq. rewrite !bool_decide_true by done.
  rewrite (staged_address _ _ _ _ _ Hst). unfold deposit_exact.
  cbn [de_state de_token_program de_mint de_adapter_token_vault de_vault de_adapter_state].
  rewrite (staged_common _ _ _ Hst). unfold keys_eq. rewrite (sg_vault _ _ _ Hst).
  unfold checked_add. rewrite bool_decide_true by done.
  destruct (as_deposits_paused s); [done|]. destruct (n =? 0); [done|].
  destruct (as_principal s + n <=? u64_max); cbn [ok_or negb]; [|done].
  by destruct (as_principal s + n <=? tk_amount (w_vault w)).
Qed.

(** Nobody but the owner has a say over the custody account, and the
    address the leg signs its calls with is not its owner. *)
Definition custody_guarded w s : Prop :=
  w.(w_custody).(tk_delegate) = None /\ w.(w_custody).(tk_close_authority) = None /\
  remote_caller s <> remote_custody_authority s.

(** A request that attacks the custody account. *)
Definition is_attack (n : Z) : bool :=
  (n =? APPROVE_DELEGATE) || (n =? TAKE_OWNERSHIP) || (n =? SET_CLOSE_AUTHORITY)
  || (n =? DRAIN_CUSTODY).

Lemma attack_refused w s c ctx n :
  staged w s c -> custody_guarded w s ->
  ctx.(wf_remote_custody) = pl.(pl_custody) ->
  ctx.(wf_remote_caller).(am_pubkey) = remote_caller s ->
  attack_custody ctx n (bank_of pl w)
  = if is_attack n then Err AdapterCallee else Ok (bank_of pl w).
Proof.
  intros Hst (Hd & Hcl & Hne) Hctx Hcaller.
  pose proof (bank_of_place w SideCustody) as Hc. cbn [place] in Hc.
  pose proof (sg_custody_owner _ _ _ Hst) as Ho.
  unfold attack_custody, is_attack. rewrite Hctx, Hcaller.
  destruct (n =? APPROVE_DELEGATE); cbn [orb].
  { destruct (token_approve _ _ _ _ _ _) eqn:E; [|done].
    apply approve_needs in E as (_ & a & Ha & Hown). congruence. }
  destruct ((n =? TAKE_OWNERSHIP) || (n =? SET_CLOSE_AUTHORITY)) eqn:E1; cbn [orb].
  { destruct (token_set_authority _ _ _ _ _ _) eqn:E; [|done].
    apply set_authority_needs in E as (_ & a & Ha & [Hown|[_ Hown]]); congruence. }
  destruct (n =? DRAIN_CUSTODY); [|done].
  destruct (token_transfer _ _ _ _ _ _) eqn:E; [|done].
  apply transfer_needs in E as (_ & f & t & Hf & _ & _ & [Hown|Hown] & _); congruence.
Qed.

(** What a withdrawal pays out in either build. *)
Definition paid_of (hostile : bool) s (n : Z) : Z :=
  if hostile then hostile_returned (returned_of s n) (reduction_of s n) n else returned_of s n.

Lemma return_call w s c ctx n :
  staged w s c -> 0 <= n -> 0 <= w.(w_vault).(tk_amount) ->
  ctx.(wf_state) = s -> ctx.(wf_adapter_state) = pl.(pl_adapter_state) ->
  ctx.(wf_adapter_authority).(am_pubkey) = s.(as_adapter_authority) ->
  ctx.(wf_adapter_token_vault) = pl.(pl_vault) -> ctx.(wf_remote_custody) = pl.(pl_custody) ->
  return_principal ctx n (bank_of pl w)
  = if n <=? w.(w_vault).(tk_amount)
    then Ok (moved pl.(pl_vault) pl.(pl_custody) n (bank_of pl w)) else Err AdapterCallee.
Proof.
  intros Hst Hn Hv0 Hs Hk Ha Hvk Hck. unfold return_principal. rewrite Hs, Hk, Ha, Hvk, Hck.
  pose proof (bank_of_place w SideVault) as Hv. pose proof (bank_of_place w SideCustody) as Hc.
  cbn [place] in Hv, Hc. pose proof (staged_vault _ _ _ Hst) as [Ho Hm _ _ _ _].
  rewrite bool_decide_true by (by eapply staged_authority). rewrite orb_true_r.
  destruct (Z.ltb_spec 0 n) as [Hpos|Hzero].
  - destruct (token_transfer _ _ _ _ _ _) as [b'|] eqn:E; destruct (Z.leb_spec n (tk_amount (w_vault w)));
      cbn [token_call]; try done.
    + apply transfer_needs in E as (_ & f & t & Hf & _ & _ & _ & Hb). rewrite Hv in Hf.
      injection Hf as <-. by rewrite Hb.
    + apply transfer_needs in E as (_ & f & t & Hf & _ & ? & _). simplify_eq. lia.
    + edestruct (transfer_runs (pl_vault pl) (pl_custody pl) (as_adapter_authority s) n
        (bank_of pl w)) as [? Hr]; [exact Hv|exact Hc|done| |done|congruence].
      by rewrite Hm, (sg_mint _ _ _ Hst), (sg_custody_mint _ _ _ Hst).
  - assert (n = 0) as -> by lia. by rewrite moved_zero, (proj2 (Z.leb_le _ _)).
Qed.

(** The handler of a withdrawal on the accounts the leg names. *)
Lemma withdraw_handler hostile w s c n caller authority :
  staged w s c -> (hostile = true -> custody_guarded w s) -> is_u64 n ->
  caller.(am_pubkey) = remote_caller s -> authority.(am_pubkey) = s.(as_adapter_authority) ->
  withdraw_for_remote_leg hostile
    (mkWithdrawForRemoteLeg caller pl.(pl_adapter_state) s authority pl.(pl_custody) w.(w_custody)
       pl.(pl_vault) w.(w_vault) pl.(pl_mint) token_ID) n (bank_of pl w) =
    if hostile && is_attack n then Err AdapterCallee
    else if reduction_of s n =? 0 then Err (AdapterRefused AdInsufficientLiquidity)
    else if paid_of hostile s n <=? w.(w_vault).(tk_amount)
    then Ok (s <| as_principal := s.(as_principal) - reduction_of s n |>,
             moved pl.(pl_vault) pl.(pl_custody) (paid_of hostile s n) (bank_of pl w))
    else Err AdapterCallee.
Proof.
  intros Hst Hg Hn Hcaller Hauth. pose proof (sg_sound _ _ _ Hst) as Hs.
  destruct (returned_bounds _ _ _ n Hs Hn) as (Hu & Hred & Hret & Hloss).
  pose proof (vs_covers _ _ (staged_vault _ _ _ Hst)) as Hcov.
  pose proof (at_principal _ (an_typed _ _ _ Hs)) as Hp. unfold fits in *.
  unfold withdraw_for_remote_leg.
  match goal with |- context [attack_custody ?x] => set (ctx := x) end.
  cbn [ctx wf_state wf_token_program wf_mint wf_adapter_token_vault wf_adapter_authority
    wf_custody].
  rewrite (staged_common _ _ _ Hst), Hauth, (sg_vault _ _ _ Hst), (sg_custody_owner _ _ _ Hst),
    (sg_custody_mint _ _ _ Hst), (sg_mint _ _ _ Hst).
  unfold keys_eq. rewrite !bool_decide_true by done.
  assert ((if hostile then attack_custody ctx n (bank_of pl w) else Ok (bank_of pl w))
    = if hostile && is_attack n then Err AdapterCallee else Ok (bank_of pl w)) as ->
    by (destruct hostile; [apply (attack_refused w s c); auto|done]).
  destruct (hostile && is_attack n); [done|]. fold (reduction_of s n).
  destruct (reduction_of s n =? 0); [done|]. rewrite Hloss. fold (returned_of s n) in Hret.
  rewrite (proj2 (checked_sub_Some _ _ (returned_of s n))) by (unfold returned_of in *; lia).
  cbn [ok_or]. fold (paid_of hostile s n).
  rewrite (return_call w s c) by
    first [done | unfold paid_of, hostile_returned, saturating_add, u64_max; repeat case_match; lia | lia].
  destruct (paid_of hostile s n <=? tk_amount (w_vault w)); [|done].
  by rewrite (proj2 (checked_sub_Some _ _ (as_principal s - reduction_of s n))) by lia.
Qed.

(** Every outcome of a withdrawal the leg asks for. *)
Lemma withdraw_call hostile aenv w s c n :
  staged w s c -> (hostile = true -> custody_guarded w s) -> is_u64 n ->
  solevm_test_strategy hostile aenv (withdraw_ix c n) (bank_of pl w) =
    if hostile && is_attack n then Err AdapterCallee
    else if reduction_of s n =? 0 then Err (AdapterRefused AdInsufficientLiquidity)
    else if paid_of hostile s n <=? w.(w_vault).(tk_amount)
    then Ok (write_state (moved pl.(pl_vault) pl.(pl_custody) (paid_of hostile s n) (bank_of pl w))
               pl.(pl_adapter_state)
               (s <| as_principal := s.(as_principal) - reduction_of s n |>))
    else Err AdapterCallee.
Proof.
  intros Hst Hg Hn. unfold solevm_test_strategy. rewrite adapter_ix_withdraw by done.
  rewrite (sg_call _ _ _ Hst). cbn [withdraw_ix adapter_instruction ix_program_id ix_accounts
    ac_adapter_program ac_caller ac_adapter_state ac_adapter_token_vault ac_asset_mint
    ac_adapter_authority ac_custody_token_account ac_token_program ok_or].
  unfold keys_eq at 1. rewrite bool_decide_true by done.
  unfold withdraw_accounts, signer, program_account, load_mint.
  cbn [am_pubkey am_is_signer am_is_writable].
  rewrite (staged_load _ _ _ Hst). destruct (staged_tokens _ _ _ Hst) as [-> ->].
  rewrite bool_decide_true by (cbn; set_solver). unfold keys_eq. rewrite !bool_decide_true by done.
  rewrite (staged_address _ _ _ _ _ Hst), (staged_authority _ _ _ Hst), bool_decide_true by done.
  rewrite (withdraw_handler hostile w s c) by done.
  destruct (hostile && is_attack n); [done|]. destruct (reduction_of s n =? 0); [done|].
  by destruct (paid_of hostile s n <=? tk_amount (w_vault w)).
Qed.

End calls.
