(* ===== verification/StrategyPair.v ===== *)
(** The remote leg and the strategy program as one system: the leg runs on
    a chain whose adapter is the strategy program, in its normal or its
    hostile build, and the two programs' books stay paired. *)

From Stdlib Require Import ZArith Lia.
From stdpp Require Import strings.
From S2P Require Import Prelude ProtocolLayout ProtocolTypes ProtocolCodec ProtocolWire.
From S2P Require Import ProtocolBodies ProtocolMessages RemoteState RemoteMessage.
From S2P Require Import RemotePlatform RemoteLeg RemoteSettle RemoteInit RemoteBooks.
From S2P Require Import RemoteEffects RemotePreserve RemoteRuns.
From S2P Require Import StrategyProgram StrategyFacts StrategyBank StrategyCalls.

(** * The leg's side of a call *)

Section one_leg.
Context {C : Chain}.
Implicit Types (l : Leg) (env : Env).

(** A deployment that succeeded made these calls. *)
Lemma deploy_calls env l n l' :
  process_deploy_to_strategy env l n = Ok l' ->
  exists w1, spl_transfer SideCustody SideVault n l.(l_world) = Some w1 /\
    invoke_signed (deposit_exact_ix (adapter_call env l) n) w1 = Some l'.(l_world) /\
    require_adapter_accounts env l = Ok tt /\
    env.(e_token_program) = l.(l_config).(cf_token_program).
Proof.
  unfold process_deploy_to_strategy. intros Hd. destruct (require_adapter_accounts env l) as [[]|]; [|done].
  leg_inv. eauto 6.
Qed.

Lemma withdraw_calls env l n l' :
  process_withdraw_for_recall env l n = Ok l' ->
  0 <= n -> 0 <= l.(l_position).(po_deployed_principal) ->
  exists request, 0 < request <= n /\
    invoke_signed (withdraw_ix (adapter_call env l) request) l.(l_world) = Some l'.(l_world) /\
    require_adapter_accounts env l = Ok tt /\
    env.(e_token_program) = l.(l_config).(cf_token_program).
Proof.
  unfold process_withdraw_for_recall. intros Hd Hn Hdep.
  destruct (require_adapter_accounts env l) as [[]|]; [|done]. leg_steps. bool_to_prop.
  cbn in *. eexists. split; [|eauto]. lia.
Qed.

Lemma send_calls env l n l' :
  process_send_recall env l n = Ok l' ->
  0 <= n -> 0 <= l.(l_position).(po_recalled_custody) ->
  exists amount, 0 <= amount /\
    spl_transfer SideCustody SideEscrow amount l.(l_world) = Some l'.(l_world).
Proof.
  unfold process_send_recall. intros Hd Hn Hrec. leg_steps. bool_to_prop. cbn in *.
  eexists. split; [|eauto]. lia.
Qed.

(** What no instruction changes, and what only the asset ones do. *)
Definition same_accounts l l' : Prop :=
  l'.(l_config).(cf_custody_token_account) = l.(l_config).(cf_custody_token_account) /\
  l'.(l_config).(cf_asset_mint) = l.(l_config).(cf_asset_mint) /\
  l'.(l_config).(cf_token_program) = l.(l_config).(cf_token_program).

Definition moves_assets (ix : Ix) : bool :=
  match ix with IxDeploy _ | IxWithdraw _ | IxSend _ => true | _ => false end.

Lemma exec_accounts env l ix l' bs :
  ix_typed ix -> exec env l ix = Ok (l', bs) -> same_accounts l l'.
Proof.
  intros Ht He. exec_cases He; try done.
  - destruct (vm_fresh v); [destruct He as (_ & _ & ->)|subst l']; done.
  - destruct Had as [->|(? & _ & _ & _ & _ & _ & _ & _ & _ & ->)]; done.
Qed.

Lemma exec_keeps_world env l ix l' bs :
  ix_typed ix -> exec env l ix = Ok (l', bs) -> moves_assets ix = false ->
  l'.(l_world) = l.(l_world) /\
  l'.(l_position).(po_deployed_principal) = l.(l_position).(po_deployed_principal).
Proof.
  intros Ht He Hm. exec_cases He; try done.
  - destruct (vm_fresh v); [destruct He as (_ & _ & ->)|subst l']; done.
  - unfold allocation_position. cbn. by destruct (is_none q).
  - cbn. by destruct (_ =? _).
  - unfold recall_position. cbn. by destruct (vm_fresh v).
  - destruct Hset as [? ? ? Hc|? ? ? Hc].
    + apply close_Ok in Hc as (? & ? & ? & ? & _ & _ & _ & Hc & _ & _ & _ & ->). by destruct Hc.
    + apply recover_Ok in Hc as (? & ? & _ & _ & _ & _ & _ & _ & _ & _ & ->). done.
  - destruct Had as [->|(r & _ & _ & _ & _ & _ & _ & _ & _ & ->)]; [done|].
    unfold admitted_leg. cbn. by destruct (tr_transfer_kind r).
Qed.

(** What setting a leg up fixes and checks. *)
Record launched (se : SetupEnv) (w : World) l : Prop := {
  la_world : l.(l_world) = w;
  la_custody_key : l.(l_config).(cf_custody_token_account) = se.(se_custody_token_account);
  la_mint : l.(l_config).(cf_asset_mint) = se.(se_asset_mint);
  la_token_program : l.(l_config).(cf_token_program) = se.(se_token_program);
  la_program : l.(l_strategy).(sc_adapter_program) = se.(se_adapter_program);
  la_state : l.(l_strategy).(sc_adapter_state) = se.(se_adapter_state);
  la_authority : l.(l_strategy).(sc_adapter_authority)
    = (find_program_address [RemoteInit.ADAPTER_AUTHORITY_SEED; se.(se_adapter_state)]
         se.(se_adapter_program)).1;
  la_vault : l.(l_strategy).(sc_adapter_token_vault) = se.(se_adapter_token_vault);
  la_deployed : l.(l_position).(po_deployed_principal) = 0;
  la_custody_program : w.(w_custody).(tk_program) = se.(se_token_program);
  la_custody_mint : w.(w_custody).(tk_mint) = se.(se_asset_mint);
  la_custody_owner : w.(w_custody).(tk_owner) = (custody_authority l.(l_key)).1;
  la_custody_delegate : w.(w_custody).(tk_delegate) = None;
  la_custody_close : w.(w_custody).(tk_close_authority) = None;
  la_vault_mint : w.(w_vault).(tk_mint) = se.(se_asset_mint)
}.

Lemma is_none_true {A} (o : option A) : is_none o = true -> o = None.
Proof. by destruct o. Qed.

Lemma launch_Ok se w p c max l : launch se w p c max = Ok l -> launched se w l.
Proof.
  unfold launch. intros Hl. leg_inv.
  match goal with Hi : process_initialize _ _ _ = Ok _ |- _ =>
    unfold process_initialize, check_custody in Hi; leg_inv end.
  match goal with Hi : process_initialize_strategy_state _ _ _ _ _ _ = Ok _ |- _ =>
    unfold process_initialize_strategy_state, check_adapter_vault in Hi; leg_inv end.
  repeat match goal with Hn : is_none _ = true |- _ => apply is_none_true in Hn end.
  split; try done; cbn [l_key].
  by match goal with Hc : custody_authority _ = _ |- _ => rewrite Hc end.
Qed.

End one_leg.

(** * The pair *)

Section pair.
Context `{ProgramAddresses} `{TokenProgram} `{!AddressLaws} `{!TokenLaws}.
Context (leg : LegSide) (pl : Places) (Hpl : places_distinct pl) (hostile : bool) (aenv : AdapterEnv).
Implicit Types (l : Leg) (env : Env) (s : AdapterState) (w : World).

#[local] Instance shared_chain : Chain := pair_chain leg pl hostile aenv.

(** The call a leg makes when it names the accounts it was set up with. *)
Definition leg_call s : AdapterCall :=
  mkAdapterCall strategy_ID pl.(pl_adapter_state) s.(as_adapter_authority) pl.(pl_vault)
    (remote_caller s) pl.(pl_custody) pl.(pl_mint) token_ID.

(** The leg [l] and the adapter state [s] belong together and agree. *)
Record paired l s : Prop := {
  pd_staged : staged pl l.(l_world) s (leg_call s);
  pd_leg : s.(as_remote_leg_program) = crate_ID;
  pd_config : s.(as_remote_config) = l.(l_key);
  pd_program : l.(l_strategy).(sc_adapter_program) = strategy_ID;
  pd_state : l.(l_strategy).(sc_adapter_state) = pl.(pl_adapter_state);
  pd_authority : l.(l_strategy).(sc_adapter_authority) = s.(as_adapter_authority);
  pd_vault : l.(l_strategy).(sc_adapter_token_vault) = pl.(pl_vault);
  pd_custody : l.(l_config).(cf_custody_token_account) = pl.(pl_custody);
  pd_mint : l.(l_config).(cf_asset_mint) = pl.(pl_mint);
  pd_token_program : l.(l_config).(cf_token_program) = token_ID;
  pd_signer : pl.(pl_custody_authority) = remote_custody_authority s;
  pd_guarded : custody_guarded l.(l_world) s;
  pd_balances : balances (bank_of pl l.(l_world)).(bk_tokens);
  pd_books : s.(as_principal) = l.(l_position).(po_deployed_principal)
}.

Lemma paired_call env l s :
  paired l s -> require_adapter_accounts env l = Ok tt ->
  env.(e_token_program) = l.(l_config).(cf_token_program) -> adapter_call env l = leg_call s.
Proof.
  intros Hp Hr Ht. unfold require_adapter_accounts, require_custody_account, require_asset_mint in Hr.
  destruct Hp as [_ Hleg Hcfg ? ? ? ? ? ? ? _ _ _ _]. leg_inv.
  unfold adapter_call, leg_call, remote_caller, adapter_caller. rewrite Hleg, Hcfg.
  f_equal; congruence.
Qed.

Lemma balances_world w :
  0 <= w.(w_custody).(tk_amount) -> 0 <= w.(w_vault).(tk_amount) ->
  0 <= w.(w_escrow).(tk_amount) -> balances (bank_of pl w).(bk_tokens).
Proof.
  intros Hc Hv He k t Ht. unfold bank_of in Ht. cbn in Ht.
  apply lookup_insert_Some in Ht as [[_ <-]|[_ Ht]]; [done|].
  apply lookup_insert_Some in Ht as [[_ <-]|[_ Ht]]; [done|].
  by apply lookup_singleton_Some in Ht as [_ <-].
Qed.

Lemma world_balances w side :
  balances (bank_of pl w).(bk_tokens) ->
  0 <= (match side with SideCustody => w.(w_custody) | SideVault => w.(w_vault)
        | SideEscrow => w.(w_escrow) end).(tk_amount).
Proof. intros Hb. exact (Hb _ _ (bank_of_place pl Hpl w side)). Qed.

(** The worlds a pair goes through differ in balances and in the adapter's
    figures only. *)
Lemma staged_world w w' s s' :
  staged pl w s (leg_call s) -> custody_guarded w s ->
  (exists n, w'.(w_custody) = w.(w_custody) <| tk_amount := n |>) ->
  (exists n, w'.(w_vault) = w.(w_vault) <| tk_amount := n |>) ->
  w'.(w_adapter_state) = adapter_account s' ->
  adapter_typed s' -> s'.(as_loss_bps) <= MAX_BASIS_POINTS ->
  (exists paused liquid loss p, s' = s <| as_deposits_paused := paused |>
     <| as_max_liquid_principal := liquid |> <| as_loss_bps := loss |> <| as_principal := p |>) ->
  s'.(as_principal) <= w'.(w_vault).(tk_amount) ->
  staged pl w' s' (leg_call s') /\ custody_guarded w' s'.
Proof.
  intros Hst (Hd & Hcl & Hne) [nc Hc] [nv Hv] Ha Ht Hl (pa & li & lo & p & Hs') Hcov.
  pose proof (staged_vault pl Hpl _ _ _ Hst) as [].
  destruct Hst as [_ [_ ? _ ? ? ? _] ? ? ? ? ? _].
  split; [|unfold custody_guarded; rewrite Hc, Hs'; done].
  assert (Hvault : as_adapter_token_vault s' = pl_vault pl) by (by rewrite Hs').
  split; try (rewrite ?Hc, ?Hs'; done); try done.
  split; try done; try (rewrite ?Hs'; done).
  exists (w_vault w'). rewrite Hvault. split; [apply (bank_of_place pl Hpl w' SideVault)|].
  split; try done; rewrite ?Hv, ?Hs'; done.
Qed.

(** A step keeps the pair when the worlds are staged and the books agree. *)
Lemma paired_step l l' s s' :
  paired l s -> same_identity l l' -> same_accounts l l' ->
  staged pl l'.(l_world) s' (leg_call s') -> custody_guarded l'.(l_world) s' ->
  balances (bank_of pl l'.(l_world)).(bk_tokens) ->
  s'.(as_remote_leg_program) = s.(as_remote_leg_program) ->
  s'.(as_remote_config) = s.(as_remote_config) ->
  s'.(as_adapter_authority) = s.(as_adapter_authority) ->
  s'.(as_principal) = l'.(l_position).(po_deployed_principal) -> paired l' s'.
Proof.
  intros [] (Hk & Hs & _) (Hc & Hm & Ht) Hst Hg Hb Hl Hcf Ha Hp.
  split; try done; rewrite ?Hs, ?Hc, ?Hm, ?Ht, ?Ha, ?Hl, ?Hcf, ?Hk; try done.
  unfold remote_custody_authority in *. by rewrite Hl, Hcf.
Qed.

Lemma custody_transfer w w' s to n :
  staged pl w s (leg_call s) -> pl.(pl_custody_authority) = remote_custody_authority s ->
  spl_transfer SideCustody to n w = Some w' ->
  n <= w.(w_custody).(tk_amount) /\ w' = world_moved pl w SideCustody to n.
Proof.
  intros Hst Hsig Ht. unfold spl_transfer, shared_chain, pair_chain in Ht.
  apply bind_Some in Ht as (b & Ht & Hw).
  apply transfer_needs in Ht as (_ & f & t & Hf & _ & Hle & _ & Hb).
  rewrite (bank_of_place pl Hpl w SideCustody) in Hf. injection Hf as <-.
  rewrite Hb, (world_of_moved pl Hpl) in Hw; [by injection Hw as <-|].
  by rewrite (sg_custody_owner _ _ _ _ Hst).
Qed.

(** What one side gains when [n] tokens go from one to another. *)
Definition shift (from to : TokenSide) (n : Z) (side : TokenSide) : Z :=
  let same a b := match a, b with
    | SideCustody, SideCustody | SideVault, SideVault | SideEscrow, SideEscrow => true
    | _, _ => false
    end in
  if same side to then n else if same side from then - n else 0.

(** The balances of the world after tokens left custody, or came back. *)
Lemma gain_place from to n side :
  from <> to -> gain (place pl from) (place pl to) n (place pl side)
  = shift from to n side.
Proof using Hpl.
  destruct Hpl as (? & ? & ?). unfold gain. intros Hne.
  destruct from, to, side; cbn; repeat destruct (decide _); try done; try congruence; lia.
Qed.

Lemma moved_amounts w from to n :
  from <> to ->
  let g := shift from to n in
  let w' := world_moved pl w from to n in
  w'.(w_custody).(tk_amount) = g SideCustody + w.(w_custody).(tk_amount) /\
  w'.(w_vault).(tk_amount) = g SideVault + w.(w_vault).(tk_amount) /\
  w'.(w_escrow).(tk_amount) = g SideEscrow + w.(w_escrow).(tk_amount).
Proof using Hpl.
  intros Hne. cbv zeta. split_and!.
  - by rewrite <-(gain_place from to n SideCustody Hne).
  - by rewrite <-(gain_place from to n SideVault Hne).
  - by rewrite <-(gain_place from to n SideEscrow Hne).
Qed.

(** Balances after a transfer stay balances. *)
Lemma moved_world_balances w w' from to n :
  balances (bank_of pl w).(bk_tokens) -> from <> to -> 0 <= n ->
  n <= (match from with SideCustody => w.(w_custody) | SideVault => w.(w_vault)
        | SideEscrow => w.(w_escrow) end).(tk_amount) ->
  w'.(w_custody) = (world_moved pl w from to n).(w_custody) ->
  w'.(w_vault) = (world_moved pl w from to n).(w_vault) ->
  w'.(w_escrow) = (world_moved pl w from to n).(w_escrow) ->
  balances (bank_of pl w').(bk_tokens).
Proof.
  intros Hb Hne Hn Hle Hc Hv He. destruct (moved_amounts w from to n Hne) as (Ac & Av & Ae).
  pose proof (world_balances w SideCustody Hb). pose proof (world_balances w SideVault Hb).
  pose proof (world_balances w SideEscrow Hb).
  apply balances_world; rewrite ?Hc, ?Hv, ?He, ?Ac, ?Av, ?Ae;
    destruct from, to; cbn in *; done || lia.
Qed.

Lemma typed_principal s n :
  adapter_typed s -> is_u64 n -> adapter_typed (s <| as_principal := n |>).
Proof. by intros [] Hn. Qed.

(** The write-back of a new principal, seen in the world. *)
Lemma world_written w s p :
  w.(w_adapter_state) = adapter_account s -> adapter_typed s ->
  w <| w_adapter_state, ai_data := adapter_state_bytes (s <| as_principal := p |>) ++
         drop ADAPTER_STATE_LEN w.(w_adapter_state).(ai_data) |>
  = w <| w_adapter_state := adapter_account (s <| as_principal := p |>) |>.
Proof.
  intros Ha Ht. unfold set_field at 1 3. cbn. rewrite Ha. unfold adapter_account. cbn.
  rewrite drop_ge by (by rewrite length_adapter_state_bytes). by rewrite app_nil_r.
Qed.

(** What the adapter's bytes say is what its state says. *)
Lemma adapter_account_principal s p :
  adapter_typed s -> read_principal (adapter_account s) = Ok p -> s.(as_principal) = p.
Proof.
  intros Ht Hr. destruct (adapter_state_readable s strategy_ID Ht) as [_ Hr'].
  unfold adapter_account in Hr. congruence.
Qed.

(** The pair after a principal of [p] is booked in a world [w1] that
    differs from the leg's in balances. *)
Lemma staged_principal w w1 s p :
  staged pl w s (leg_call s) -> custody_guarded w s -> is_u64 p ->
  (exists n, w1.(w_custody) = w.(w_custody) <| tk_amount := n |>) ->
  (exists n, w1.(w_vault) = w.(w_vault) <| tk_amount := n |>) ->
  p <= w1.(w_vault).(tk_amount) ->
  let w' := w1 <| w_adapter_state := adapter_account (s <| as_principal := p |>) |> in
  staged pl w' (s <| as_principal := p |>) (leg_call (s <| as_principal := p |>)) /\
  custody_guarded w' (s <| as_principal := p |>).
Proof.
  intros Hst Hg Hp Hc Hv Hle. pose proof (sg_sound _ _ _ _ Hst) as [Ht _ Hl _ _ _ _].
  apply (staged_world w _ s); try done; [by apply typed_principal|].
  exists (as_deposits_paused s), (as_max_liquid_principal s), (as_loss_bps s), p. by destruct s.
Qed.

Lemma staged_moved w s from to n :
  staged pl w s (leg_call s) -> custody_guarded w s -> from <> SideVault -> from <> to -> 0 <= n ->
  staged pl (world_moved pl w from to n) s (leg_call s) /\
  custody_guarded (world_moved pl w from to n) s.
Proof.
  intros Hst Hg Hv Hne Hn. pose proof (sg_sound _ _ _ _ Hst) as [Ht _ Hl _ _ _ _].
  pose proof (vs_covers _ _ (staged_vault pl Hpl _ _ _ Hst)).
  apply (staged_world w _ s); try done; [by eexists..| | |].
  - exact (sg_account _ _ _ _ Hst).
  - exists (as_deposits_paused s), (as_max_liquid_principal s), (as_loss_bps s), (as_principal s).
    by destruct s.
  - destruct (moved_amounts w from to n Hne) as (_ & -> & _). destruct from, to; cbn; done || lia.
Qed.

(** A deposit the adapter took. *)
Lemma deposit_invoked w s n w' :
  staged pl w s (leg_call s) -> is_u64 n ->
  invoke_signed (deposit_exact_ix (leg_call s) n) w = Some w' ->
  exists p, is_u64 p /\ (hostile = false -> p = s.(as_principal) + n) /\
    s.(as_principal) + n <= w.(w_vault).(tk_amount) /\
    w' = w <| w_adapter_state := adapter_account (s <| as_principal := p |>) |>.
Proof.
  intros Hst Hn Hi. pose proof (an_typed _ _ _ (sg_sound _ _ _ _ Hst)) as Ht.
  pose proof (at_principal _ Ht) as Hp. unfold invoke_signed, shared_chain, pair_chain in Hi.
  rewrite (deposit_call pl Hpl _ _ _ s) in Hi by done.
  destruct (as_deposits_paused s), (n =? 0); try done.
  destruct (Z.leb_spec (as_principal s + n) u64_max); cbn [negb] in Hi; [|done].
  destruct (Z.leb_spec (as_principal s + n) (tk_amount (w_vault w))); cbn [negb] in Hi; [|done].
  rewrite (world_of_write pl _ w) in Hi by (by apply world_of_bank).
  injection Hi as <-. eexists. split; [|split; [|split; [done|]]].
  3: { apply world_written; [by destruct Hst|done]. }
  - unfold fits, hostile_credited, saturating_add in *. repeat case_match; lia.
  - by intros ->.
Qed.

(** A withdrawal the adapter served. *)
Lemma withdraw_invoked w s n w' :
  staged pl w s (leg_call s) -> custody_guarded w s -> is_u64 n ->
  invoke_signed (withdraw_ix (leg_call s) n) w = Some w' ->
  reduction_of s n <> 0 /\ paid_of hostile s n <= w.(w_vault).(tk_amount) /\
  w' = (world_moved pl w SideVault SideCustody (paid_of hostile s n))
         <| w_adapter_state := adapter_account
              (s <| as_principal := s.(as_principal) - reduction_of s n |>) |>.
Proof.
  intros Hst Hg Hn Hi. pose proof (an_typed _ _ _ (sg_sound _ _ _ _ Hst)) as Ht.
  unfold invoke_signed, shared_chain, pair_chain in Hi.
  rewrite (withdraw_call pl Hpl _ _ _ s) in Hi by done.
  destruct (hostile && is_attack n); [done|].
  destruct (Z.eqb_spec (reduction_of s n) 0); [done|].
  destruct (Z.leb_spec (paid_of hostile s n) (tk_amount (w_vault w))); [|done].
  rewrite (world_of_write pl _ _ _ (world_of_moved pl Hpl w SideVault SideCustody _)) in Hi.
  injection Hi as <-. split_and!; try done.
  apply (world_written (world_moved pl w SideVault SideCustody _)); [by destruct Hst|done].
Qed.

Lemma deploy_paired env l s n l' :
  paired l s -> is_u64 n -> process_deploy_to_strategy env l n = Ok l' ->
  same_identity l l' -> same_accounts l l' -> exists s', paired l' s'.
Proof.
  intros Hp Hn Hd Hid Hac. destruct (process_deploy_Ok _ _ _ _ Hd)
    as (sur & w & _ & _ & _ & _ & _ & _ & _ & _ & _ & Hread & Hl').
  assert (Hw' : l_world l' = w) by (by rewrite Hl').
  assert (Hdep : po_deployed_principal (l_position l') = po_deployed_principal (l_position l) + n)
    by (by rewrite Hl').
  clear Hl'. apply deploy_calls in Hd as (w1 & Hspl & Hinv & Hreq & Htp). rewrite Hw' in Hinv.
  rewrite (paired_call _ _ _ Hp Hreq Htp) in Hinv. pose proof (pd_staged _ _ Hp) as Hst.
  apply (custody_transfer _ _ _ _ _ Hst (pd_signer _ _ Hp)) in Hspl as [Hle ->].
  destruct (staged_moved _ s SideCustody SideVault n Hst (pd_guarded _ _ Hp)) as [Hst1 Hg1];
    [done..|unfold fits in Hn; lia|].
  apply deposit_invoked in Hinv as (p & Hpu & _ & Hcov & ->); [|done..].
  assert (Heq : p = po_deployed_principal (l_position l) + n).
  { refine (adapter_account_principal (s <| as_principal := p |>) _ _ Hread).
    apply typed_principal; [|done]. by destruct (sg_sound _ _ _ _ Hst). }
  pose proof (pd_books _ _ Hp) as Hbk. exists (s <| as_principal := p |>).
  destruct (staged_principal _ (world_moved pl (l_world l) SideCustody SideVault n) s p Hst1 Hg1)
    as [Hst2 Hg2]; [done|by eexists..|lia|].
  apply (paired_step l l' s); rewrite ?Hw'; try done; [|cbn; lia].
  unfold fits in Hn.
  by apply (moved_world_balances (l_world l) _ SideCustody SideVault n); destruct Hp; try lia.
Qed.

Lemma withdraw_paired env l s n l' :
  paired l s -> is_u64 n -> process_withdraw_for_recall env l n = Ok l' ->
  same_identity l l' -> same_accounts l l' -> exists s', paired l' s'.
Proof.
  intros Hp Hn Hd Hid Hac. pose proof (pd_staged _ _ Hp) as Hst.
  pose proof (pd_books _ _ Hp) as Hbk. pose proof (sg_sound _ _ _ _ Hst) as Hs.
  pose proof (at_principal _ (an_typed _ _ _ Hs)) as Hpu.
  destruct (process_withdraw_Ok _ _ _ _ Hd) as (r & sur & w & a & b & r' & p' & settled & _ & _ & _
    & _ & _ & Hsur & _ & Hb & _ & _ & _ & _ & Hcust & _ & Hread & Hset & Hl').
  assert (Hw' : l_world l' = w) by (by rewrite Hl').
  assert (Hdep : po_deployed_principal (l_position l') = po_deployed_principal (l_position l) - a).
  { apply settle_buckets in Hset as (_ & Hdp & _). rewrite Hl'. exact Hdp. }
  clear Hl' Hset. unfold fits in *. apply withdraw_calls in Hd as (q & Hq & Hinv & Hreq & Htp); [|lia..].
  rewrite Hw', (paired_call _ _ _ Hp Hreq Htp) in Hinv.
  apply withdraw_invoked in Hinv as (Hred & Hpaid & ->); [|done|apply Hp|unfold fits; lia].
  destruct (returned_bounds _ _ _ q Hs ltac:(unfold fits; lia)) as (Hu & Hrp & Hret & _).
  destruct (moved_amounts (l_world l) SideVault SideCustody (paid_of hostile s q) ltac:(done))
    as (Ac & Av & _). cbn in Ac, Av, Hread, Hcust. unfold fits in *.
  assert (Heq : as_principal s - reduction_of s q = po_deployed_principal (l_position l) - a).
  { refine (adapter_account_principal (s <| as_principal := _ |>) _ _ Hread).
    apply typed_principal; [apply Hs|unfold fits; lia]. }
  assert (Hpb : paid_of hostile s q = b)
    by (unfold withdrawn_position, reconciled, custody_buckets in *; cbn in *; lia).
  eexists. pose proof (vs_covers _ _ (staged_vault pl Hpl _ _ _ Hst)) as Hcov.
  destruct (staged_principal _ (world_moved pl (l_world l) SideVault SideCustody (paid_of hostile s q))
    s (as_principal s - reduction_of s q) Hst (pd_guarded _ _ Hp)) as [Hst2 Hg2];
    [unfold fits; lia|by eexists..|lia|].
  apply (paired_step l l' s); rewrite ?Hw'; try done; [|cbn; lia].
  by apply (moved_world_balances (l_world l) _ SideVault SideCustody (paid_of hostile s q));
    destruct Hp; try lia.
Qed.

Lemma send_paired env l s n l' :
  paired l s -> is_u64 n -> 0 <= l.(l_position).(po_recalled_custody) ->
  process_send_recall env l n = Ok l' ->
  same_identity l l' -> same_accounts l l' -> paired l' s.
Proof.
  intros Hp Hn Hrec Hd Hid Hac. pose proof (pd_staged _ _ Hp) as Hst.
  assert (Hdep : po_deployed_principal (l_position l') = po_deployed_principal (l_position l)).
  { destruct (process_send_Ok _ _ _ _ Hd) as (r & sur & w & a & r' & p' & settled & _ & _ & _
      & _ & _ & _ & _ & _ & _ & _ & _ & Hset & ->).
    by apply settle_buckets in Hset as (_ & Hdp & _). }
  unfold fits in Hn. apply send_calls in Hd as (a & Ha & Hspl); [|lia..].
  apply (custody_transfer _ _ _ _ _ Hst (pd_signer _ _ Hp)) in Hspl as [Hle Hw'].
  destruct (staged_moved _ s SideCustody SideEscrow a Hst (pd_guarded _ _ Hp)) as [Hst1 Hg1];
    [done..|].
  pose proof (pd_books _ _ Hp). apply (paired_step l l' s); rewrite ?Hw'; try done; [|lia].
  by apply (moved_world_balances (l_world l) _ SideCustody SideEscrow a); destruct Hp; try lia.
Qed.

(** * Preservation *)

Lemma exec_paired env l s ix l' bs :
  paired l s -> books l -> ix_typed ix -> exec env l ix = Ok (l', bs) -> exists s', paired l' s'.
Proof.
  intros Hp Hb Ht He. pose proof (exec_identity _ _ _ _ _ Ht He) as Hid.
  pose proof (exec_accounts _ _ _ _ _ Ht He) as Hac.
  destruct (moves_assets ix) eqn:Hm.
  - apply exec_inv in He. destruct ix; try done.
    + by eapply deploy_paired.
    + by eapply withdraw_paired.
    + exists s. eapply send_paired; [done..| |done|done|done].
      by destruct (bk_position _ Hb) as [(? & ? & ? & _) _ _ _ _ _].
  - destruct (exec_keeps_world _ _ _ _ _ Ht He Hm) as [Hw Hd]. exists s.
    apply (paired_step l l' s); rewrite ?Hw, ?Hd; by destruct Hp.
Qed.

(** * Runs of the pair *)

(** No meta claims the signature the leg signs its calls with: only the leg
    can give it. *)
Definition unsigned_by_leg l (ix : Instruction) : Prop :=
  Forall (fun m => m.(am_is_signer) = true -> m.(am_pubkey) <> (adapter_caller l.(l_key)).1)
    ix.(ix_accounts).

(** Tokens anyone sent to the three accounts. *)
Definition given w (c v e : Z) : World :=
  w <| w_custody ::= set_field tk_amount (Z.add c) |>
    <| w_vault ::= set_field tk_amount (Z.add v) |>
    <| w_escrow ::= set_field tk_amount (Z.add e) |>.

(** Instructions of the leg, tokens anyone sends to the three accounts, and
    calls of the strategy program by anyone but the leg. *)
Inductive pair_run (l0 : Leg) : Leg -> Prop :=
| pair_start : pair_run l0 l0
| pair_ix l env ix l' bs :
    pair_run l0 l -> ix_typed ix -> exec env l ix = Ok (l', bs) -> pair_run l0 l'
| pair_gift l c v e :
    pair_run l0 l -> 0 <= c -> 0 <= v -> 0 <= e ->
    pair_run l0 (l <| l_world := given l.(l_world) c v e |>)
| pair_call l ix b w :
    pair_run l0 l -> instruction_typed ix -> unsigned_by_leg l ix ->
    solevm_test_strategy hostile aenv ix (bank_of pl l.(l_world)) = Ok b ->
    world_of pl b = Some w -> pair_run l0 (l <| l_world := w |>).

Lemma gift_paired l s c v e :
  paired l s -> 0 <= c -> 0 <= v -> 0 <= e ->
  paired (l <| l_world := given l.(l_world) c v e |>) s.
Proof.
  intros Hp Hc Hv He. pose proof (pd_staged _ _ Hp) as Hst.
  pose proof (sg_sound _ _ _ _ Hst) as [Ht _ Hl _ _ _ _].
  pose proof (vs_covers _ _ (staged_vault pl Hpl _ _ _ Hst)).
  match goal with |- paired ?l1 _ => set (l' := l1) end.
  destruct (staged_world (l_world l) (l_world l') s s Hst (pd_guarded _ _ Hp)) as [Hst' Hg'];
    try done; [by eexists..|by destruct Hst| |cbn; lia|].
  { exists (as_deposits_paused s), (as_max_liquid_principal s), (as_loss_bps s), (as_principal s).
    by destruct s. }
  apply (paired_step l l' s); try done; [|by destruct Hp].
  pose proof (world_balances _ SideCustody (pd_balances _ _ Hp)).
  pose proof (world_balances _ SideVault (pd_balances _ _ Hp)).
  pose proof (world_balances _ SideEscrow (pd_balances _ _ Hp)).
  apply balances_world; cbn; lia.
Qed.

(** The only adapter account in the leg's world is its own. *)
Lemma load_own l s k s' :
  paired l s -> load_state (bank_of pl l.(l_world)) k = Ok s' -> k = pl.(pl_adapter_state) /\ s' = s.
Proof.
  intros Hp Hl. destruct (decide (k = pl_adapter_state pl)) as [->|Hne].
  - split; [done|]. rewrite (staged_load pl _ _ _ (pd_staged _ _ Hp)) in Hl. congruence.
  - unfold load_state, bank_of in Hl. cbn in Hl. by rewrite lookup_singleton_ne in Hl.
Qed.

Lemma world_of_insert b k info :
  pl.(pl_adapter_state) <> k -> world_of pl (b <| bk_data ::= insert k info |>) = world_of pl b.
Proof. intros Hne. unfold world_of. cbn. by rewrite lookup_insert_ne. Qed.

(** The accounts of an instruction that was let in. *)
Lemma initialize_unused e b metas p ctx :
  initialize_accounts e b metas p = Ok ctx -> b.(bk_data) !! ctx.(ia_adapter_state) = None.
Proof.
  unfold initialize_accounts. intros Hc. adapter_inv. cbn.
  match goal with Hu : unused _ _ = true |- _ => unfold unused in Hu; bool_to_prop end.
  by destruct (bk_data b !! am_pubkey a0).
Qed.

Lemma deposit_signed b metas ctx :
  deposit_accounts b metas = Ok ctx ->
  load_state b ctx.(de_adapter_state) = Ok ctx.(de_state) /\
  Exists (fun m => m.(am_is_signer) = true /\ m.(am_pubkey) = remote_caller ctx.(de_state)) metas.
Proof.
  unfold deposit_accounts, signer. intros Hc. adapter_inv. cbn. split; [done|]. by left.
Qed.

Lemma withdraw_signed b metas ctx :
  withdraw_accounts b metas = Ok ctx ->
  load_state b ctx.(wf_adapter_state) = Ok ctx.(wf_state) /\
  Exists (fun m => m.(am_is_signer) = true /\ m.(am_pubkey) = remote_caller ctx.(wf_state)) metas.
Proof.
  unfold withdraw_accounts, signer. intros Hc. adapter_inv. cbn. split; [done|]. by left.
Qed.

Lemma unsigned_excluded l s ix s' :
  paired l s -> unsigned_by_leg l ix -> s' = s ->
  ~ Exists (fun m => m.(am_is_signer) = true /\ m.(am_pubkey) = remote_caller s') ix.(ix_accounts).
Proof.
  intros Hp Hu -> (m & Hm & Hsig & Hk)%Exists_exists.
  apply (proj1 (Forall_forall _ _) Hu m Hm Hsig). rewrite Hk.
  unfold remote_caller, adapter_caller. by destruct Hp as [_ -> -> _ _ _ _ _ _ _ _ _ _ _].
Qed.

Lemma token_same (t : TokenState) : t = t <| tk_amount := t.(tk_amount) |>.
Proof. by destruct t. Qed.

(** The conditions of the adapter changed. *)
Lemma configured_paired l s c s' w :
  paired l s -> is_u64 c.(tc_max_liquid_principal) -> is_u16 c.(tc_loss_bps) ->
  configure_adapter_test_conditions s c = Ok s' ->
  world_of pl (write_state (bank_of pl l.(l_world)) pl.(pl_adapter_state) s') = Some w ->
  paired (l <| l_world := w |>) s'.
Proof.
  intros Hp Hl Hb Hc Hw. pose proof (pd_staged _ _ Hp) as Hst. pose proof (sg_sound _ _ _ _ Hst) as Hs.
  pose proof (configure_sound _ _ _ _ _ Hs Hl Hb Hc) as [Ht _ Hloss _ _ _ _].
  rewrite (world_of_write pl _ _ _ (world_of_bank pl Hpl _)) in Hw. injection Hw as <-.
  assert (Hcfg : s' = s <| as_deposits_paused := tc_deposits_paused c |>
    <| as_max_liquid_principal := tc_max_liquid_principal c |> <| as_loss_bps := tc_loss_bps c |>
    <| as_principal := as_principal s |>).
  { unfold configure_adapter_test_conditions in Hc. adapter_inv. by destruct s. }
  match goal with |- paired ?l1 _ => set (l' := l1) end.
  destruct (staged_world (l_world l) (l_world l') s s' Hst (pd_guarded _ _ Hp)) as [Hst' Hg'];
    try done; [eexists; apply token_same..| |by eauto| |].
  - cbn. rewrite (sg_account _ _ _ _ Hst). unfold adapter_account, set_field. cbn.
    rewrite drop_ge by (rewrite length_adapter_state_bytes; [done|apply Hs]). by rewrite app_nil_r.
  - rewrite Hcfg. exact (vs_covers _ _ (staged_vault pl Hpl _ _ _ Hst)).
  - apply (paired_step l l' s); try done; try (by rewrite Hcfg); destruct Hp; [done|].
    by rewrite Hcfg.
Qed.

(** A call the leg did not sign changes the adapter's conditions at most. *)
Lemma call_paired l s ix b w :
  paired l s -> instruction_typed ix -> unsigned_by_leg l ix ->
  solevm_test_strategy hostile aenv ix (bank_of pl l.(l_world)) = Ok b ->
  world_of pl b = Some w ->
  w.(w_custody) = l.(l_world).(w_custody) /\ exists s', paired (l <| l_world := w |>) s'.
Proof.
  intros Hp [Hd Hm] Hu He Hw. unfold solevm_test_strategy in He. adapter_inv.
  match goal with Hc : adapter_ix_parse _ = Some ?c |- _ =>
    apply adapter_ix_typed in Hc; [|done]; destruct c end; adapter_inv.
  - match goal with Hi : initialize_accounts _ _ _ _ = Ok _ |- _ => apply initialize_unused in Hi end.
    assert (w = l_world l) as ->.
    { rewrite world_of_insert in Hw; [|unfold bank_of in E1; cbn in E1;
        by apply lookup_singleton_None in E1].
      rewrite world_of_bank in Hw by done. by injection Hw. }
    split; [done|]. exists s. by destruct l.
  - destruct E0 as (data & Hdata & Hc). apply conditions_parse_typed in Hc as [? ?]; [|done].
    unfold configure_accounts in *. adapter_inv. cbn in *.
    match goal with Hl : load_state _ _ = Ok _ |- _ => apply (load_own _ _ _ _ Hp) in Hl as [Hk ->] end.
    rewrite Hk in *. split; [|exists a0; by eapply configured_paired].
    rewrite (world_of_write pl _ _ _ (world_of_bank pl Hpl _)) in Hw. by injection Hw as <-.
  - apply deposit_signed in E1 as [Hl Hx]. apply (load_own _ _ _ _ Hp) in Hl as [_ Hl].
    by destruct (unsigned_excluded _ _ _ _ Hp Hu Hl).
  - apply withdraw_signed in E1 as [Hl Hx]. apply (load_own _ _ _ _ Hp) in Hl as [_ Hl].
    by destruct (unsigned_excluded _ _ _ _ Hp Hu Hl).
Qed.

(** * The setup *)

(** A leg is set up on the adapter state [s], which is new and names it. *)
Record setup_matches (se : SetupEnv) w s : Prop := {
  sm_program : se.(se_adapter_program) = strategy_ID;
  sm_state : se.(se_adapter_state) = pl.(pl_adapter_state);
  sm_vault : se.(se_adapter_token_vault) = pl.(pl_vault);
  sm_custody : se.(se_custody_token_account) = pl.(pl_custody);
  sm_mint : se.(se_asset_mint) = pl.(pl_mint);
  sm_token_program : se.(se_token_program) = token_ID;
  sm_account : w.(w_adapter_state) = adapter_account s;
  sm_sound : adapter_sound (bank_of pl w).(bk_tokens) pl.(pl_adapter_state) s;
  sm_balances : balances (bank_of pl w).(bk_tokens);
  sm_own_vault : s.(as_adapter_token_vault) = pl.(pl_vault);
  sm_leg : s.(as_remote_leg_program) = crate_ID;
  sm_principal : s.(as_principal) = 0;
  sm_signer : pl.(pl_custody_authority) = remote_custody_authority s;
  sm_caller : remote_caller s <> remote_custody_authority s
}.

Lemma launch_paired se w p c max l s :
  launch se w p c max = Ok l -> setup_matches se w s -> s.(as_remote_config) = l.(l_key) ->
  paired l s.
Proof.
  intros Hl Hm Hk. apply launch_Ok in Hl. pose proof (la_world _ _ _ Hl) as <-.
  assert (Hauth : remote_custody_authority s = (custody_authority (l_key l)).1)
    by (unfold remote_custody_authority; by rewrite Hk, (sm_leg _ _ _ Hm)).
  assert (Hmint : as_mint s = pl_mint pl).
  { destruct (an_vault _ _ _ (sm_sound _ _ _ Hm)) as (v & Hv & Hvs).
    rewrite (sm_own_vault _ _ _ Hm) in Hv.
    pose proof (bank_of_place pl Hpl (l_world l) SideVault) as Hw. cbn [place] in Hw.
    rewrite Hw in Hv. injection Hv as <-. rewrite <-(vs_mint _ _ Hvs).
    by rewrite (la_vault_mint _ _ _ Hl), (sm_mint _ _ _ Hm). }
  assert (Had : l.(l_strategy).(sc_adapter_authority) = as_adapter_authority s).
  { rewrite (la_authority _ _ _ Hl), (sm_state _ _ _ Hm), (sm_program _ _ _ Hm).
    exact (eq_sym (f_equal fst (an_authority _ _ _ (sm_sound _ _ _ Hm)))). }
  destruct Hl, Hm. split; try done; try congruence. split; try done; congruence.
Qed.

(** Every run of a pair that was set up keeps it. *)
Lemma run_paired l0 s0 l :
  books l0 -> paired l0 s0 -> pair_run l0 l -> books l /\ exists s, paired l s.
Proof.
  intros Hb0 Hp0. induction 1 as [|l env ix l' bs _ [Hb [s Hp]] Ht He|l c v e _ [Hb [s Hp]] Hc Hv He
    |l ix b w _ [Hb [s Hp]] Ht Hu He Hw].
  - eauto.
  - split; [by eapply books_exec|by eapply exec_paired].
  - split; [|eexists; by apply gift_paired]. apply (books_ext l); try done. cbn. lia.
  - destruct (call_paired _ _ _ _ _ Hp Ht Hu He Hw) as (Hc & s' & Hp').
    split; [|by eauto]. apply (books_ext l); try done. cbn. by rewrite Hc.
Qed.

Lemma launched_run_paired se w p c max l0 s0 l :
  0 <= max -> launch se w p c max = Ok l0 -> setup_matches se w s0 ->
  s0.(as_remote_config) = l0.(l_key) -> pair_run l0 l -> books l /\ exists s, paired l s.
Proof.
  intros Hmax Hl Hm Hk. apply (run_paired l0 s0).
  - eapply books_launch; [|done|exact Hl].
    apply (world_balances w SideCustody), (sm_balances _ _ _ Hm).
  - by eapply launch_paired.
Qed.

End pair.
