(* ===== verification/StrategyOutcomes.v ===== *)
(** What the leg's asset instructions can fail with when the adapter is the
    strategy program's normal build: never with one of the checks that
    guard against an adapter's misbehaviour. *)

From Stdlib Require Import ZArith Lia.
From stdpp Require Import strings.
From S2P Require Import Prelude ProtocolLayout ProtocolTypes ProtocolCodec ProtocolWire.
From S2P Require Import ProtocolBodies ProtocolMessages RemoteState RemoteMessage.
From S2P Require Import RemotePlatform RemoteLeg RemoteSettle RemoteInit RemoteBooks.
From S2P Require Import RemoteEffects RemotePreserve RemoteRuns.
From S2P Require Import StrategyProgram StrategyFacts StrategyBank StrategyCalls StrategyPair.

(** * Errors that blame the adapter *)

(** The refusals that say an adapter moved what it should not have. *)
Definition blames (e : Error) : bool :=
  match e with
  | Refused CustodyControlChanged | Refused InvalidBalanceDelta | Refused InvalidPrincipalDelta
  | Refused InvalidRealizedLoss | Refused AccountingDeficit => true
  | _ => false
  end.

(** A computation that never blames the adapter, and whose callee fails
    only when [P]. *)
Definition tame (P : Prop) {A} (r : Result A) : Prop :=
  forall e, r = Err e -> blames e = false /\ (e = CalleeFailed -> P).

Section tame.
Context {A : Type}.
Implicit Types (P : Prop) (r : Result A).

Lemma tame_Ok P (a : A) : tame P (Ok a).
Proof. by intros e. Qed.

Lemma tame_Err P e : blames e = false -> (e = CalleeFailed -> P) -> tame P (@Err _ A e).
Proof. by intros Hb Hp e' [= <-]. Qed.

Lemma tame_bind {B} P (m : Result B) (k : B -> Result A) :
  tame P m -> (forall b, m = Ok b -> tame P (k b)) -> tame P (let? b := m in k b).
Proof. intros Hm Hk. destruct m; [by apply Hk|]. intros e' [= <-]. by apply (Hm e). Qed.

Lemma tame_weaken P Q r : (P -> Q) -> tame P r -> tame Q r.
Proof. intros HPQ Hr e He. destruct (Hr e He). auto. Qed.
End tame.

(** Splits a computation at its guards and steps; a guard that blames
    nobody and a step known to be tame are done with. *)
Ltac tame_step :=
  lazymatch goal with
  | |- tame _ (Ok _) => apply tame_Ok
  | |- tame _ (Err _) => apply tame_Err; [reflexivity|discriminate]
  | |- tame _ (if ?c then _ else _) => let E := fresh "E" in destruct c eqn:E
  | |- tame _ (match ?m with Ok _ => _ | Err _ => _ end) => apply tame_bind; [|intros ? ?]
  | |- tame _ (match ?m with Some _ => _ | None => _ end) => let E := fresh "E" in destruct m eqn:E
  end.

Lemma tame_u64_add P a b : tame P (u64_add a b).
Proof. unfold u64_add, ok_or. by repeat tame_step. Qed.

Lemma tame_ok_or {A} P (o : option A) e :
  blames e = false -> e <> CalleeFailed -> tame P (ok_or o e).
Proof. intros Hb Hc. destruct o; [apply tame_Ok|by apply tame_Err]. Qed.

Section leg.
Context {C : Chain}.
Implicit Types (l : Leg) (env : Env).

Lemma tame_accounts P env l : tame P (require_adapter_accounts env l).
Proof.
  unfold require_adapter_accounts, require_custody_account, require_asset_mint. repeat tame_step.
Qed.

Lemma tame_versions P vs : tame P (check_versions_of vs).
Proof.
  unfold check_versions_of, check_version. induction vs as [|v vs IH]; [apply tame_Ok|].
  cbn [try_fold]. destruct (v =? STATE_VERSION); [exact IH|by apply tame_Err].
Qed.

Lemma tame_record P env l : tame P (typed_transfer_record env l).
Proof.
  unfold typed_transfer_record. destruct (l_transfers l !! _) as [[]|]; repeat tame_step.
Qed.

Lemma tame_active P r k p : tame P (check_active r k p).
Proof. unfold check_active. repeat tame_step. Qed.

Lemma tame_shape P r : tame P (check_recall_shape r).
Proof. unfold check_recall_shape. repeat tame_step. Qed.

Lemma tame_authorization P a k ctx n now :
  is_Some (a.(au_introspection).(in_instructions) !! a.(au_introspection).(in_current_index)) ->
  tame P (authorization_check a k ctx n now).
Proof.
  intros [i Hi]. unfold authorization_check, check_consumed_just_before. rewrite Hi. cbn [callee].
  repeat tame_step. apply tame_ok_or; done.
Qed.

(** A leg whose custody covers its buckets reconciles. *)
Lemma tame_reconcile P p c : custody_buckets p <= c -> tame P (reconcile p c).
Proof.
  intros Hc. unfold reconcile. apply tame_bind.
  { unfold accounted_custody. repeat first [apply tame_u64_add|tame_step]. }
  intros a [-> _]%accounted_Ok. rewrite (proj2 (Z.leb_le _ _)) by done.
  unfold u64_sub. rewrite (proj2 (checked_sub_Some c _ _)) by done. cbn [ok_or].
  repeat first [apply tame_u64_add|tame_step].
Qed.

Lemma tame_unresolved P r : tame P (unresolved_recall_principal r).
Proof.
  unfold unresolved_recall_principal. apply tame_bind; [apply tame_u64_add|]. intros a _.
  by apply tame_ok_or.
Qed.

Lemma tame_settle P r p now : tame P (settle_recall r p now).
Proof. unfold settle_recall. repeat first [apply tame_u64_add|tame_step]. Qed.

Lemma u64_sub_exact a b e : b <= a -> u64_sub a b e = Ok (a - b).
Proof. intros Hb. unfold u64_sub. by rewrite (proj2 (checked_sub_Some a b (a - b))). Qed.

Lemma tame_identity P p c : c = custody_buckets p -> tame P (check_identity p c).
Proof.
  intros ->. unfold check_identity. apply tame_bind.
  { unfold accounted_custody. repeat first [apply tame_u64_add|tame_step]. }
  intros a [-> _]%accounted_Ok. rewrite Z.eqb_refl. apply tame_Ok.
Qed.

Lemma check_deployed_exact p n : n = p.(po_deployed_principal) -> check_deployed p n = Ok tt.
Proof. intros ->. unfold check_deployed. by rewrite Z.eqb_refl. Qed.

End leg.

(** * The normal build *)

Section honest.
Context `{ProgramAddresses} `{TokenProgram} `{!AddressLaws} `{!TokenLaws}.
Context (side : LegSide) (pl : Places) (Hpl : places_distinct pl) (aenv : AdapterEnv).
Implicit Types (l : Leg) (env : Env) (s : AdapterState) (w : World).

#[local] Instance honest_chain : Chain := pair_chain side pl false aenv.

Abbreviation pair_ok := (paired side pl false aenv).

(** The leg reads the adapter's principal. *)
Lemma paired_read l s :
  pair_ok l s -> read_principal l.(l_world).(w_adapter_state) = Ok s.(as_principal).
Proof.
  intros Hp. pose proof (pd_staged _ _ _ _ _ _ Hp) as Hst. rewrite (sg_account _ _ _ _ Hst).
  apply adapter_state_readable, (sg_sound _ _ _ _ Hst).
Qed.

(** The world after an honest withdrawal of [q]. *)
Definition withdrawn_world w s (q : Z) : World :=
  (world_moved pl w SideVault SideCustody (returned_of s q))
    <| w_adapter_state := adapter_account
         (s <| as_principal := s.(as_principal) - reduction_of s q |>) |>.

Lemma honest_withdraw l s q :
  pair_ok l s -> is_u64 q ->
  invoke_signed (withdraw_ix (leg_call pl s) q) l.(l_world)
  = if reduction_of s q =? 0 then None else Some (withdrawn_world l.(l_world) s q).
Proof.
  intros Hp Hq. pose proof (pd_staged _ _ _ _ _ _ Hp) as Hst. pose proof (sg_sound _ _ _ _ Hst) as Hs.
  destruct (returned_bounds _ _ _ q Hs Hq) as (_ & Hrp & Hret & _).
  pose proof (vs_covers _ _ (staged_vault pl Hpl _ _ _ Hst)) as Hcov.
  unfold invoke_signed, honest_chain, pair_chain.
  rewrite (withdraw_call pl Hpl _ _ _ s) by done. cbn [andb].
  destruct (Z.eqb_spec (reduction_of s q) 0); [done|]. unfold paid_of.
  rewrite (proj2 (Z.leb_le _ _)) by lia.
  rewrite (world_of_write pl _ _ _ (world_of_moved pl Hpl _ SideVault SideCustody _)).
  f_equal. apply (world_written (world_moved pl _ SideVault SideCustody _)); [by destruct Hst|apply Hs].
Qed.

(** Custody whose balance alone changed is under the same control. *)
Lemma paired_control l s w' :
  pair_ok l s -> (exists n, w'.(w_custody) = l.(l_world).(w_custody) <| tk_amount := n |>) ->
  check_control w'.(w_custody) (custody_authority l.(l_key)).1 = Ok tt.
Proof.
  intros Hp [n ->]. destruct (pd_guarded _ _ _ _ _ _ Hp) as (Hd & Hcl & _).
  pose proof (sg_custody_owner _ _ _ _ (pd_staged _ _ _ _ _ _ Hp)) as Ho.
  unfold remote_custody_authority in Ho.
  rewrite (pd_leg _ _ _ _ _ _ Hp), (pd_config _ _ _ _ _ _ Hp) in Ho.
  unfold check_control, keys_eq, set_field. cbn [tk_owner tk_delegate tk_close_authority].
  rewrite Hd, Hcl. by rewrite bool_decide_true.
Qed.

(** What the leg reads in it. *)
Lemma withdrawn_world_reads l s q :
  pair_ok l s -> is_u64 q ->
  let w := l.(l_world) in let w' := withdrawn_world w s q in
  check_control w'.(w_custody) (custody_authority l.(l_key)).1 = Ok tt /\
  read_principal w'.(w_adapter_state) = Ok (s.(as_principal) - reduction_of s q) /\
  w'.(w_custody).(tk_amount) = returned_of s q + w.(w_custody).(tk_amount) /\
  w'.(w_vault).(tk_amount) = - returned_of s q + w.(w_vault).(tk_amount).
Proof.
  intros Hp Hq. pose proof (pd_staged _ _ _ _ _ _ Hp) as Hst. pose proof (sg_sound _ _ _ _ Hst) as Hs.
  destruct (returned_bounds _ _ _ q Hs Hq) as (Hu & Hrp & Hret & _).
  pose proof (at_principal _ (an_typed _ _ _ Hs)) as Hpu. unfold fits in *.
  destruct (moved_amounts pl Hpl l.(l_world) SideVault SideCustody (returned_of s q) ltac:(done))
    as (Ac & Av & _).
  cbv zeta. split_and!; [| |exact Ac|exact Av].
  - apply (paired_control l s); [done|by eexists].
  - apply adapter_state_readable. apply typed_principal; [apply Hs|unfold fits; lia].
Qed.

Lemma withdraw_tame env l s n :
  pair_ok l s -> custody_buckets l.(l_position) <= l.(l_world).(w_custody).(tk_amount) ->
  is_u64 n -> tame (s.(as_max_liquid_principal) = 0) (process_withdraw_for_recall env l n).
Proof.
  intros Hp Hcov Hn. pose proof (pd_books _ _ _ _ _ _ Hp) as Hbk.
  pose proof (pd_staged _ _ _ _ _ _ Hp) as Hst. pose proof (sg_sound _ _ _ _ Hst) as Hs.
  unfold process_withdraw_for_recall.
  apply tame_bind; [apply tame_accounts|intros [] Hreq].
  apply tame_bind; [apply tame_record|intros r _].
  apply tame_bind; [apply tame_versions|intros [] _].
  destruct (keys_eq (e_token_program env) _) eqn:Htp; [apply keys_eq_true in Htp|by tame_step].
  destruct (keys_eq (tk_mint _) _); [|by tame_step].
  apply tame_bind; [apply tame_active|intros [] _].
  apply tame_bind; [apply tame_shape|intros [] _].
  apply tame_bind; [by apply tame_reconcile|intros [p sur] (Hsur & Hsd & ->)%reconcile_Ok].
  apply tame_bind; [apply tame_unresolved|intros u [_ Hu]%unresolved_Ok].
  set (p1 := (l_position l) <| po_unattributed_custody := _ |>).
  assert (Hd1 : as_principal s = po_deployed_principal p1) by done.
  set (q := Z.min (Z.min n u) (po_deployed_principal p1)). cbv zeta.
  destruct (Z.eqb_spec q 0) as [|Hq0]; [by tame_step|].
  pose proof (at_principal _ (an_typed _ _ _ Hs)) as Hpu. unfold fits in *.
  assert (Hq : is_u64 q /\ q <= as_principal s) by (unfold fits; lia). destruct Hq as [Hq Hqp].
  rewrite (paired_read _ _ Hp), (check_deployed_exact p1) by done.
  assert (Hcall : adapter_call env l = leg_call pl s) by exact (paired_call _ _ _ _ _ _ _ Hp Hreq Htp).
  rewrite Hcall, (honest_withdraw l s q Hp Hq).
  destruct (Z.eqb_spec (reduction_of s q) 0) as [Hz|Hnz]; cbn [callee].
  { apply tame_Err; [done|]. intros _. unfold reduction_of, fits in *.
    pose proof (at_liquid _ (an_typed _ _ _ Hs)) as Hlq. unfold fits in Hlq. lia. }
  destruct (withdrawn_world_reads l s q Hp Hq) as (-> & -> & -> & ->).
  destruct (returned_bounds _ _ _ q Hs Hq) as (Hur & Hrp & Hret & _). unfold fits in *.
  assert (Hrq : reduction_of s q <= q) by (unfold reduction_of; lia).
  rewrite !u64_sub_exact by lia. cbv beta iota.
  replace (as_principal s - (as_principal s - reduction_of s q)) with (reduction_of s q) by lia.
  replace (returned_of s q + tk_amount (w_custody (l_world l)) - tk_amount (w_custody (l_world l)))
    with (returned_of s q) by lia.
  replace (tk_amount (w_vault (l_world l)) - (- returned_of s q + tk_amount (w_vault (l_world l))))
    with (returned_of s q) by lia.
  rewrite Z.eqb_refl, (proj2 (Z.leb_le _ _) Hrq), (proj2 (Z.eqb_neq _ _) Hnz).
  repeat (apply tame_bind; [apply tame_u64_add|intros ? [-> _]%u64_add_Ok]).
  tame_step; [|by tame_step].
  apply tame_bind; [apply tame_identity; unfold p1, custody_buckets in *; cbn in *; lia|intros [] _].
  rewrite check_deployed_exact by (cbn in *; lia).
  apply tame_bind; [apply tame_settle|intros [[] ] _]. apply tame_Ok.
Qed.

(** What a withdrawal that succeeded did: the request went to the adapter,
    which took its reduction off the principal and returned it less the
    loss, and the leg booked exactly that. *)
Lemma withdraw_exact env l s n l' :
  pair_ok l s -> is_u64 n -> process_withdraw_for_recall env l n = Ok l' ->
  exists q, 0 < q <= n /\ l'.(l_world) = withdrawn_world l.(l_world) s q /\
    l'.(l_position).(po_deployed_principal)
      = l.(l_position).(po_deployed_principal) - reduction_of s q /\
    l'.(l_position).(po_recalled_custody)
      = l.(l_position).(po_recalled_custody) + returned_of s q /\
    l'.(l_position).(po_cumulative_realized_loss)
      = l.(l_position).(po_cumulative_realized_loss) + (reduction_of s q - returned_of s q).
Proof.
  intros Hp Hn Hw. pose proof (pd_books _ _ _ _ _ _ Hp) as Hbk.
  pose proof (sg_sound _ _ _ _ (pd_staged _ _ _ _ _ _ Hp)) as Hs.
  pose proof (at_principal _ (an_typed _ _ _ Hs)) as Hpu. unfold fits in *.
  destruct (process_withdraw_Ok _ _ _ _ Hw) as (r & sur & w & a & b & r' & p' & settled & _ & _ & _
    & _ & _ & Hsur & _ & _ & _ & _ & _ & _ & Hcust & _ & Hread & Hset & Hl').
  apply settle_buckets in Hset as (_ & Hdep & Hrec & Hloss).
  apply withdraw_calls in Hw as (q & Hq & Hinv & Hreq & Htp); [|lia..].
  assert (Hcall : adapter_call env l = leg_call pl s) by exact (paired_call _ _ _ _ _ _ _ Hp Hreq Htp).
  assert (Hqu : is_u64 q) by (unfold fits; lia).
  rewrite Hcall, (honest_withdraw l s q Hp Hqu) in Hinv. destruct (reduction_of s q =? 0); [done|].
  rewrite Hl' in Hinv. cbn in Hinv. injection Hinv as <-.
  destruct (withdrawn_world_reads l s q Hp Hqu) as (_ & Hr & Hc & _).
  exists q. rewrite Hl'. cbn [l_world l_position].
  assert (a = reduction_of s q) as -> by (rewrite Hr in Hread; injection Hread; lia).
  assert (b = returned_of s q) as ->
    by (unfold withdrawn_position, reconciled, custody_buckets in *; cbn in *; lia).
  split_and!; [lia..|done|done|done|done].
Qed.

(** The transfer a deployment starts with, and the deposit after it. *)
Lemma honest_transfer l s n :
  pair_ok l s -> 0 <= n <= l.(l_world).(w_custody).(tk_amount) ->
  spl_transfer SideCustody SideVault n l.(l_world)
  = Some (world_moved pl l.(l_world) SideCustody SideVault n).
Proof.
  intros Hp Hn. pose proof (pd_staged _ _ _ _ _ _ Hp) as Hst.
  destruct (spl_transfer SideCustody SideVault n (l_world l)) as [w'|] eqn:E.
  - apply (custody_transfer side pl Hpl false aenv _ _ _ _ _ Hst (pd_signer _ _ _ _ _ _ Hp)) in E
      as [_ ->]. done.
  - exfalso. unfold spl_transfer, honest_chain, pair_chain in E. cbn [place] in E.
    pose proof (bank_of_place pl Hpl l.(l_world) SideCustody) as Hc.
    pose proof (bank_of_place pl Hpl l.(l_world) SideVault) as Hv. cbn [place] in Hc, Hv.
    destruct (transfer_runs _ _ (pl_custody_authority pl) n _ _ _ Hc Hv) as [b Hb]; [| |done|].
    + by rewrite (pd_signer _ _ _ _ _ _ Hp), (sg_custody_owner _ _ _ _ Hst).
    + rewrite (vs_mint _ _ (staged_vault pl Hpl _ _ _ Hst)).
      by rewrite (sg_mint _ _ _ _ Hst), (sg_custody_mint _ _ _ _ Hst).
    + rewrite Hb in E. apply transfer_needs in Hb as (_ & f & t & Hf & _ & _ & _ & Hm).
      rewrite Hc in Hf. injection Hf as <-.
      rewrite Hm in E by (by rewrite (pd_signer _ _ _ _ _ _ Hp), (sg_custody_owner _ _ _ _ Hst)).
      cbn in E. by rewrite (world_of_moved pl Hpl _ SideCustody SideVault) in E.
Qed.

Definition deployed_world w s (n : Z) : World :=
  (world_moved pl w SideCustody SideVault n)
    <| w_adapter_state := adapter_account (s <| as_principal := s.(as_principal) + n |>) |>.

Lemma honest_deposit l s n :
  pair_ok l s -> is_u64 n -> n <> 0 ->
  invoke_signed (deposit_exact_ix (leg_call pl s) n) (world_moved pl l.(l_world) SideCustody SideVault n)
  = if s.(as_deposits_paused) || negb (s.(as_principal) + n <=? u64_max) then None
    else Some (deployed_world l.(l_world) s n).
Proof.
  intros Hp Hn Hn0. pose proof (pd_staged _ _ _ _ _ _ Hp) as Hst.
  pose proof (vs_covers _ _ (staged_vault pl Hpl _ _ _ Hst)) as Hcov.
  destruct (staged_moved pl Hpl _ s SideCustody SideVault n Hst (pd_guarded _ _ _ _ _ _ Hp))
    as [Hst1 _]; [done..|unfold fits in Hn; lia|].
  destruct (moved_amounts pl Hpl l.(l_world) SideCustody SideVault n ltac:(done)) as (_ & Av & _).
  unfold invoke_signed, honest_chain, pair_chain. rewrite (deposit_call pl Hpl _ _ _ s) by done.
  rewrite Av. cbn [shift]. destruct (as_deposits_paused s); [done|]. cbn [orb].
  rewrite (proj2 (Z.eqb_neq _ _) Hn0). destruct (as_principal s + n <=? u64_max); [|done].
  cbn [negb]. rewrite (proj2 (Z.leb_le _ _)) by lia. cbn [negb].
  rewrite (world_of_write pl _ _ _ (world_of_bank pl Hpl _)).
  f_equal. apply (world_written (world_moved pl _ SideCustody SideVault _)); [by destruct Hst|].
  apply (sg_sound _ _ _ _ Hst).
Qed.

Lemma deployed_world_reads l s n :
  pair_ok l s -> is_u64 n -> s.(as_principal) + n <= u64_max ->
  let w := l.(l_world) in let w' := deployed_world w s n in
  check_control w'.(w_custody) (custody_authority l.(l_key)).1 = Ok tt /\
  read_principal w'.(w_adapter_state) = Ok (s.(as_principal) + n) /\
  w'.(w_custody).(tk_amount) = - n + w.(w_custody).(tk_amount) /\
  w'.(w_vault).(tk_amount) = n + w.(w_vault).(tk_amount).
Proof.
  intros Hp Hn Hle. pose proof (sg_sound _ _ _ _ (pd_staged _ _ _ _ _ _ Hp)) as Hs.
  pose proof (at_principal _ (an_typed _ _ _ Hs)) as Hpu. unfold fits in *.
  destruct (moved_amounts pl Hpl l.(l_world) SideCustody SideVault n ltac:(done)) as (Ac & Av & _).
  cbv zeta. split_and!; [| |exact Ac|exact Av].
  - apply (paired_control l s); [done|by eexists].
  - apply adapter_state_readable. apply typed_principal; [apply Hs|unfold fits; lia].
Qed.

Lemma deploy_tame env l s n :
  pair_ok l s -> custody_buckets l.(l_position) <= l.(l_world).(w_custody).(tk_amount) ->
  buckets_nonneg l.(l_position) -> is_u64 n ->
  is_Some (env.(e_introspection).(in_instructions) !! env.(e_introspection).(in_current_index)) ->
  tame (s.(as_deposits_paused) = true \/ u64_max < s.(as_principal) + n)
    (process_deploy_to_strategy env l n).
Proof.
  intros Hp Hcov Hnn Hn Hix. pose proof (pd_books _ _ _ _ _ _ Hp) as Hbk.
  pose proof (pd_staged _ _ _ _ _ _ Hp) as Hst. pose proof (sg_sound _ _ _ _ Hst) as Hs.
  unfold process_deploy_to_strategy.
  apply tame_bind; [apply tame_accounts|intros [] Hreq].
  apply tame_bind; [by apply tame_ok_or|intros policy _].
  apply tame_bind; [apply tame_versions|intros [] _].
  destruct (cf_frozen _); [by tame_step|].
  destruct (keys_eq (e_token_program env) _) eqn:Htp; [apply keys_eq_true in Htp|by tame_step].
  destruct (keys_eq (tk_mint _) _); [|by tame_step].
  apply tame_bind; [by apply tame_reconcile|intros [p sur] (Hsur & Hsd & ->)%reconcile_Ok].
  set (p1 := (l_position l) <| po_unattributed_custody := _ |>).
  assert (Hd1 : as_principal s = po_deployed_principal p1) by done.
  destruct (negb (n =? 0) && _) eqn:Hguard; [|by tame_step]. bool_to_prop.
  rewrite (paired_read _ _ Hp), (check_deployed_exact p1) by done. cbv zeta.
  apply tame_bind; [by apply tame_authorization|intros [] _].
  assert (Hcall : adapter_call env l = leg_call pl s) by exact (paired_call _ _ _ _ _ _ _ Hp Hreq Htp).
  pose proof (at_principal _ (an_typed _ _ _ Hs)) as Hpu.
  assert (Hle : 0 <= n <= tk_amount (w_custody (l_world l)))
    by (unfold fits, buckets_nonneg, custody_buckets, p1 in *; cbn in *; lia).
  rewrite (honest_transfer l s n Hp Hle), Hcall. cbn [callee]. rewrite (honest_deposit l s n Hp) by done.
  destruct (as_deposits_paused s); cbn [orb callee]; [apply tame_Err; auto|].
  destruct (Z.leb_spec (as_principal s + n) u64_max) as [Hmax|]; cbn [negb callee];
    [|apply tame_Err; auto].
  destruct (deployed_world_reads l s n Hp Hn Hmax) as (-> & -> & -> & ->).
  rewrite !u64_sub_exact by lia. cbv beta iota.
  rewrite !(proj2 (Z.eqb_eq _ _)) by lia.
  apply tame_bind; [apply tame_u64_add|intros ? [-> _]%u64_add_Ok].
  apply tame_bind; [apply tame_identity; unfold p1, custody_buckets in *; cbn in *; lia|intros [] _].
  rewrite check_deployed_exact by (cbn in *; lia). apply tame_Ok.
Qed.

End honest.
