(* ===== verification/StrategySample.v ===== *)
(** A concrete pair: a runtime and a token program that satisfy the laws, an
    adapter the program itself initialized, a remote leg set up on it, and
    scripts that witnesses evaluate. *)

From Stdlib Require Import ZArith Lia.
From stdpp Require Import strings.
From S2P Require Import Prelude ProtocolLayout ProtocolTypes ProtocolCodec ProtocolWire.
From S2P Require Import ProtocolBodies ProtocolMessages RemoteState RemoteMessage.
From S2P Require Import RemotePlatform RemoteLeg RemoteSettle RemoteInit RemoteBooks.
From S2P Require Import RemoteEffects RemotePreserve RemoteRuns RemoteSample.
From S2P Require Import StrategyProgram StrategyFacts StrategyBank StrategyCalls StrategyPair.

(** * The platform *)

Definition wide_bytes (k : Key) : bool :=
  (length k =? WIDE)%nat && forallb (fun b => (0 <=? b) && (b <=? 255)) k.

(** Addresses are digests; an adapter's authority mirrors its key. *)
Definition pair_find (seeds : list (list Z)) (program : Key) : Key * Z :=
  match seeds with
  | [tag; k] =>
      if bool_decide (tag = ADAPTER_AUTHORITY_SEED) && wide_bytes k
      then (map (Z.sub 255) k, 255)
      else (sample_digest (concat seeds ++ program), 255)
  | _ => (sample_digest (concat seeds ++ program), 255)
  end.

#[export] Instance pair_runtime : ProgramAddresses := {|
  strategy_ID := replicate 32 81;
  token_ID := replicate 32 62;
  system_ID := replicate 32 0;
  rt_find_program_address := pair_find;
  rt_create_program_address seeds program := Some (pair_find (removelast seeds) program).1
|}.

Definition owner_signed (b : Bank) (account authority : Key) (signed : bool) : bool :=
  match b.(bk_tokens) !! account with
  | Some a => signed && bool_decide (authority = a.(tk_owner))
  | None => false
  end.

(** Only owners act, and they act exactly. *)
#[export] Instance pair_tokens : TokenProgram := {|
  token_transfer from to authority signed n b :=
    match b.(bk_tokens) !! from, b.(bk_tokens) !! to with
    | Some f, Some t =>
        if owner_signed b from authority signed && bool_decide (f.(tk_mint) = t.(tk_mint))
           && (0 <=? n) && (n <=? f.(tk_amount))
        then Some (moved from to n b) else None
    | _, _ => None
    end;
  token_approve account delegate owner signed n b :=
    if owner_signed b account owner signed
    then Some (b <| bk_tokens ::= alter (fun a => a <| tk_delegate := Some delegate |>) account |>)
    else None;
  token_set_authority account current signed kind new b :=
    if owner_signed b account current signed
    then Some (b <| bk_tokens ::= alter (fun a => match kind with
                 | AccountOwner => a <| tk_owner := default [] new |>
                 | CloseAccount => a <| tk_close_authority := new |>
                 end) account |>)
    else None
|}.

Lemma owner_signed_true b account authority signed :
  owner_signed b account authority signed = true ->
  signed = true /\ exists a, b.(bk_tokens) !! account = Some a /\ authority = a.(tk_owner).
Proof.
  unfold owner_signed. destruct (bk_tokens b !! account); [|done]. intros Ho. bool_to_prop. eauto.
Qed.

#[export] Instance pair_token_laws : TokenLaws.
Proof.
  split.
  - intros from to authority signed n b b' Ht. cbn in Ht.
    destruct (bk_tokens b !! from) as [f|] eqn:Hf; [|done].
    destruct (bk_tokens b !! to) as [t|] eqn:Hto; [|done].
    destruct (_ && _) eqn:Hc in Ht; [|done]. injection Ht as <-. bool_to_prop.
    match goal with Ho : owner_signed _ _ _ _ = true |- _ =>
      apply owner_signed_true in Ho as (Hs & a & Ha & Ho) end.
    rewrite Hf in Ha. injection Ha as <-. split; [done|]. exists f, t. split_and!; auto.
  - intros from to authority n b f t Hf Ht Ho Hm Hn. cbn. rewrite Hf, Ht.
    unfold owner_signed. rewrite Hf. cbn [andb]. rewrite !bool_decide_true by done.
    rewrite (proj2 (Z.leb_le 0 n)), (proj2 (Z.leb_le n _)) by lia. by eexists.
  - intros account delegate owner signed n b b' Ha. cbn in Ha.
    destruct (owner_signed b account owner signed) eqn:Ho; [|done]. by apply owner_signed_true.
  - intros account current signed kind new b b' Ha. cbn in Ha.
    destruct (owner_signed b account current signed) eqn:Ho; [|done].
    apply owner_signed_true in Ho as (? & a & ? & ?). split; [done|]. exists a. auto.
Qed.

Lemma wide_bytes_wide k : is_wide k <-> wide_bytes k = true.
Proof.
  unfold is_wide, wide_bytes, is_bytes, is_byte. rewrite andb_true_iff, Nat.eqb_eq, forallb_forall.
  rewrite Forall_forall. setoid_rewrite andb_true_iff. setoid_rewrite Z.leb_le.
  setoid_rewrite list_elem_of_In. split; intros [? Hk]; (split; [done|]); intros x Hx; specialize (Hk x Hx); lia.
Qed.

Lemma pair_find_wide seeds program : is_wide (pair_find seeds program).1.
Proof.
  assert (Hd : forall l, is_wide (sample_digest l))
    by (intros l; split; [apply length_to_be|apply to_be_is_bytes]).
  unfold pair_find. destruct seeds as [|tag [|k [|]]]; try apply Hd.
  destruct (bool_decide _ && wide_bytes k) eqn:E; [|apply Hd].
  apply andb_true_iff in E as [_ [Hl Hb]%wide_bytes_wide]. split; cbn; [by rewrite length_map|].
  apply Forall_map. eapply Forall_impl; [exact Hb|]. unfold is_byte. cbn. lia.
Qed.

#[export] Instance pair_runtime_laws : AddressLaws.
Proof.
  split.
  - exact pair_find_wide.
  - intros seeds program. cbn. unfold pair_find, fits, u8_max.
    destruct seeds as [|tag [|k [|]]]; try (cbn; lia). destruct (_ && _); cbn; lia.
  - intros seeds program. cbn. by rewrite removelast_last.
  - intros k k' Hk Hk'. unfold adapter_authority_of. cbn. unfold pair_find.
    apply wide_bytes_wide in Hk, Hk'. rewrite bool_decide_true, Hk, Hk' by done. cbn.
    clear Hk Hk'. revert k'. induction k as [|a k IH]; intros [|a' k'] He; cbn in He; try done.
    injection He as Ha He. f_equal; [lia|by apply IH].
Qed.

(** * The adapter *)

Definition pair_side : LegSide := {|
  ls_crate_ID := replicate 32 201;
  ls_verifier_ID := replicate 32 202;
  ls_keccak := sample_digest;
  ls_sha256 := fun b => sample_digest (7 :: b);
  ls_consume_discriminator := [1; 2; 3; 4; 5; 6; 7; 8]
|}.

Definition pair_key : Key := (pair_find (config_seeds sample_params) pair_side.(ls_crate_ID)).1.

Definition pair_places : Places := {|
  pl_custody := replicate 32 63;
  pl_vault := replicate 32 65;
  pl_escrow := replicate 32 64;
  pl_adapter_state := (pair_find [ADAPTER_STATE_SEED; pair_key] (replicate 32 81)).1;
  pl_mint := replicate 32 61;
  pl_custody_authority := (pair_find [CUSTODY_AUTHORITY_SEED; pair_key] pair_side.(ls_crate_ID)).1
|}.

Definition pair_adapter_env : AdapterEnv := mkAdapterEnv 900 (fun _ => true).

(** Before the adapter exists. *)
Definition bare_bank : Bank := {|
  bk_tokens := <[pair_places.(pl_custody) :=
      sample_token 0 pair_places.(pl_custody_authority)]>
    (<[pair_places.(pl_vault) :=
      sample_token 0 (adapter_authority_of pair_places.(pl_adapter_state)).1]>
    {[pair_places.(pl_escrow) := sample_token 0 (replicate 32 66)]});
  bk_mints := {[pair_places.(pl_mint)]};
  bk_data := ∅
|}.

(** Initializes an adapter with a liquidity of 500 and a loss of 2.5%. *)
Definition pair_initialize : Instruction := {|
  ix_program_id := strategy_ID;
  ix_accounts :=
    [ mkAccountMeta (replicate 32 30) true true;
      mkAccountMeta pair_places.(pl_adapter_state) false true;
      mkAccountMeta pair_places.(pl_mint) false false;
      mkAccountMeta pair_places.(pl_vault) false false;
      mkAccountMeta token_ID false false;
      mkAccountMeta system_ID false false ];
  ix_data := INITIALIZE_ADAPTER ++ pair_side.(ls_crate_ID) ++ pair_key ++ replicate 32 30
    ++ to_le 8 500 ++ to_le 2 250
|}.

Lemma pair_bank_ok : is_ok (solevm_test_strategy false pair_adapter_env pair_initialize bare_bank) = true.
Proof. vm_compute. reflexivity. Qed.

Definition pair_bank : Bank :=
  ok_value (solevm_test_strategy false pair_adapter_env pair_initialize bare_bank) pair_bank_ok.

#[global] Instance instruction_typed_dec ix : Decision (instruction_typed ix).
Proof. unfold instruction_typed, is_wide, is_bytes, is_byte. apply _. Defined.

Lemma bare_bank_fresh : fresh_bank bare_bank.
Proof.
  split; [|by intros k info]. intros k t Ht. unfold bare_bank in Ht. cbn [bk_tokens] in Ht.
  apply lookup_insert_Some in Ht as [[_ <-]|[_ Ht]]; [done|].
  apply lookup_insert_Some in Ht as [[_ <-]|[_ Ht]]; [done|].
  by apply lookup_singleton_Some in Ht as [_ <-].
Qed.

Lemma pair_bank_reachable : bank_reachable pair_bank.
Proof.
  exists bare_bank. split; [exact bare_bank_fresh|]. apply rtc_once.
  apply (step_strategy _ pair_adapter_env pair_initialize).
  - split; vm_compute; congruence.
  - apply (bool_decide_eq_true_1 _). vm_compute. reflexivity.
  - apply (ok_value_Ok _ pair_bank_ok).
Qed.

Lemma pair_state_ok : is_ok (load_state pair_bank pair_places.(pl_adapter_state)) = true.
Proof. vm_compute. reflexivity. Qed.

Definition pair_state : AdapterState :=
  ok_value (load_state pair_bank pair_places.(pl_adapter_state)) pair_state_ok.

(** * The leg *)

Definition pair_world : World := {|
  w_custody := sample_token 0 pair_places.(pl_custody_authority);
  w_vault := sample_token 0 (adapter_authority_of pair_places.(pl_adapter_state)).1;
  w_escrow := sample_token 0 (replicate 32 66);
  w_adapter_state := adapter_account pair_state
|}.

Definition pair_setup : SetupEnv := {|
  se_unix_timestamp := 1000;
  se_administrator := replicate 32 30;
  se_upgrade_authority := replicate 32 29;
  se_program_upgrade_authority := Some (replicate 32 29);
  se_asset_mint := pair_places.(pl_mint);
  se_mint_decimals := REQUIRED_MINT_DECIMALS;
  se_token_program := token_ID;
  se_custody_token_account := pair_places.(pl_custody);
  se_outbound_escrow := pair_places.(pl_escrow);
  se_adapter_program := strategy_ID;
  se_adapter_executable := true;
  se_adapter_state := pair_places.(pl_adapter_state);
  se_adapter_authority := (adapter_authority_of pair_places.(pl_adapter_state)).1;
  se_adapter_token_vault := pair_places.(pl_vault)
|}.

Abbreviation chain_of hostile := (shared_chain pair_side pair_places hostile pair_adapter_env).

Definition pair_launch (hostile : bool) : Result Leg :=
  @launch (chain_of hostile) pair_setup pair_world sample_params sample_control 1000000.

Lemma pair_launch_ok hostile : is_ok (pair_launch hostile) = true.
Proof. destruct hostile; vm_compute; reflexivity. Qed.

(** The leg right after setup, on the chain of either build. *)
Definition pair_leg (hostile : bool) : Leg := ok_value (pair_launch hostile) (pair_launch_ok hostile).

Lemma pair_leg_launched hostile :
  @launch (chain_of hostile) pair_setup pair_world sample_params sample_control 1000000
  = Ok (pair_leg hostile).
Proof. apply (ok_value_Ok (pair_launch hostile)). Qed.

Lemma pair_places_distinct : places_distinct pair_places.
Proof. split_and!; vm_compute; discriminate. Qed.

Lemma pair_sound :
  adapter_sound (bank_of pair_places pair_world).(bk_tokens) pair_places.(pl_adapter_state) pair_state.
Proof.
  assert ((bank_of pair_places pair_world).(bk_tokens) = pair_bank.(bk_tokens)) as ->
    by (vm_compute; reflexivity).
  destruct (load_state_sound pair_bank pair_places.(pl_adapter_state) pair_state
    (bank_sound _ pair_bank_reachable) (ok_value_Ok _ pair_state_ok)) as (_ & _ & _ & _ & Hs).
  exact Hs.
Qed.

Lemma pair_matches hostile :
  setup_matches pair_side pair_places hostile pair_adapter_env pair_setup pair_world pair_state.
Proof.
  split.
  8: exact pair_sound.
  8: apply balances_world; cbn; lia.
  12: vm_compute; discriminate.
  all: vm_compute; reflexivity.
Qed.

Lemma pair_config hostile : pair_state.(as_remote_config) = (pair_leg hostile).(l_key).
Proof. destruct hostile; vm_compute; reflexivity. Qed.

(** * Scripts *)

Abbreviation pair_run_of hostile := (pair_run pair_side pair_places hostile pair_adapter_env).

Lemma credit_given n w : sample_credit SideCustody n w = given w n 0 0.
Proof.
  destruct w as [[] [] [] ?]. unfold given, sample_credit, set_field. cbn.
  f_equal; f_equal; lia.
Qed.

Lemma play_pair_run hostile l0 l now acts l' ins outs :
  @play (chain_of hostile) l now acts = Ok (l', ins, outs) -> pair_run_of hostile l0 l ->
  pair_run_of hostile l0 l'.
Proof.
  revert l now ins outs. induction acts as [|a acts IH]; intros l now ins outs Hp Hr.
  { injection Hp as <- _ _. done. }
  cbn [play] in Hp. destruct (play_act l now a) as [[[l1 i1] o1]|] eqn:H1; [|done].
  destruct (play l1 (now + 10) acts) as [[[l2 i2] o2]|] eqn:H2; [|done].
  injection Hp as <- _ _. apply (IH _ _ _ _ H2). clear H2 IH.
  destruct a; try (unfold play_act in H1;
    destruct (bool_decide _) eqn:Ht; [apply bool_decide_eq_true in Ht|done];
    destruct (exec _ _ _) as [[l3 bs]|] eqn:He; [|done]; injection H1 as <- _ _;
    exact (pair_ix _ _ _ _ _ _ _ _ _ _ Hr Ht He)).
  unfold play_act in H1. destruct (Z.leb_spec 0 amount); [|done].
  rewrite credit_given in H1. injection H1 as <- _ _. by apply pair_gift.
Qed.

(** The leg a script reaches on the chain of a build. *)
Definition pair_told (hostile : bool) (acts : list Act) :=
  @play (chain_of hostile) (pair_leg hostile) 2000 acts.

Definition pair_tale (hostile : bool) (acts : list Act) (H : is_ok (pair_told hostile acts) = true)
    : Leg := (ok_value (pair_told hostile acts) H).1.1.

Lemma pair_tale_run hostile acts H :
  pair_run_of hostile (pair_leg hostile) (pair_tale hostile acts H).
Proof.
  pose proof (ok_value_Ok _ H) as Hv. unfold pair_tale.
  destruct (ok_value (pair_told hostile acts) H) as [[l' ins] outs].
  eapply play_pair_run; [exact Hv|apply pair_start].
Qed.

(** Deploys 600, in the hostile build. *)
Lemma hostile_deployed_ok : is_ok (pair_told true deployed_story) = true.
Proof. vm_compute. reflexivity. Qed.

(** Deploys 600 and opens a recall of 700. *)
Definition recalling_story : list Act := deployed_story ++ [ActRecall 2 700].

Lemma honest_recalling_ok : is_ok (pair_told false recalling_story) = true.
Proof. vm_compute. reflexivity. Qed.

Definition hostile_deployed : Leg := pair_tale true deployed_story hostile_deployed_ok.
Definition honest_recalling : Leg := pair_tale false recalling_story honest_recalling_ok.
