(* ===== verification/StrategyTheorems.v ===== *)
(** The strategy program and the remote leg that deploys into it: the
    adapter's vault always covers its principal, the two programs' books
    stay paired in either build of the adapter, and the leg never blames an
    honest adapter. *)

From Stdlib Require Import ZArith Lia.
From stdpp Require Import strings.
From S2P Require Import Prelude ProtocolLayout ProtocolTypes ProtocolCodec ProtocolWire.
From S2P Require Import ProtocolBodies ProtocolMessages RemoteState RemoteMessage.
From S2P Require Import RemotePlatform RemoteLeg RemoteSettle RemoteInit RemoteBooks.
From S2P Require Import RemoteEffects RemotePreserve RemoteRuns RemoteSample.
From S2P Require Import StrategyProgram StrategyFacts StrategyBank StrategyCalls StrategyPair.
From S2P Require Import StrategyOutcomes StrategySample.

(** On every chain reached by calls of the strategy program and by whatever
    others do to accounts they cannot sign for, each account of the program
    has the layout the remote leg checks, the leg reads from it exactly the
    principal, the settings are well formed and at their own address, and
    the vault, which nobody but the adapter's authority controls, holds at
    least the principal. *)
Theorem vault_covers_principal (R : ProgramAddresses) (T : TokenProgram) (RL : AddressLaws) (TL : TokenLaws)
    b k info :
  bank_reachable b -> b.(bk_data) !! k = Some info -> info.(ai_owner) = strategy_ID ->
  exists s v,
    check_layout info strategy_ID = Ok tt /\ read_principal info = Ok s.(as_principal) /\
    adapter_state_parse info.(ai_data) = Some s /\ adapter_typed s /\
    s.(as_loss_bps) <= MAX_BASIS_POINTS /\
    k = (rt_find_program_address (adapter_seeds s.(as_remote_config)) strategy_ID).1 /\
    b.(bk_tokens) !! s.(as_adapter_token_vault) = Some v /\
    v.(tk_owner) = (adapter_authority_of k).1 /\ v.(tk_mint) = s.(as_mint) /\
    v.(tk_delegate) = None /\ v.(tk_close_authority) = None /\
    0 <= s.(as_principal) <= v.(tk_amount).
Proof.
  intros Hb Hk Ho. destruct (so_adapters b (bank_sound b Hb) k info Hk Ho) as (s & Hd & Hs).
  destruct (an_vault _ _ _ Hs) as (v & Hv & [Hvo Hvm Hvd Hvc _ Hcov]). exists s, v.
  pose proof (an_typed _ _ _ Hs) as Ht. pose proof (at_principal _ Ht) as [? _].
  assert (info = mkAccountInfo strategy_ID (adapter_state_bytes s)) as ->
    by (destruct info; cbn in *; congruence).
  destruct (adapter_state_readable s strategy_ID Ht) as [Hl Hr].
  pose proof (adapter_state_round_trip s [] Ht) as Hp. rewrite app_nil_r in Hp.
  split_and!; try done; [by destruct Hs|by rewrite <-(an_address _ _ _ Hs)|].
  by rewrite Hvo, <-(an_authority _ _ _ Hs).
Qed.

Lemma vault_covers_principal_witness :
  exists info s v, pair_bank.(bk_data) !! pair_places.(pl_adapter_state) = Some info /\
    check_layout info strategy_ID = Ok tt /\ read_principal info = Ok s.(as_principal) /\
    pair_bank.(bk_tokens) !! s.(as_adapter_token_vault) = Some v /\
    s.(as_principal) <= v.(tk_amount).
Proof.
  destruct (pair_bank.(bk_data) !! pair_places.(pl_adapter_state)) as [info|] eqn:E.
  2: { exfalso. revert E. vm_compute. discriminate. }
  destruct (vault_covers_principal pair_runtime pair_tokens pair_runtime_laws pair_token_laws
    pair_bank pair_places.(pl_adapter_state) info pair_bank_reachable E) as (s & v & Hs).
  - assert (Ho : ai_owner <$> (pair_bank.(bk_data) !! pair_places.(pl_adapter_state))
      = Some strategy_ID) by (vm_compute; reflexivity).
    rewrite E in Ho. injection Ho as Ho. exact Ho.
  - exists info, s, v. destruct Hs as (H1 & H2 & _ & _ & _ & _ & H3 & _ & _ & _ & _ & _ & H4).
    split; [reflexivity|]. split; [exact H1|]. split; [exact H2|]. split; [exact H3|exact H4].
Defined.

(** C30. A leg set up on a fresh adapter and the strategy program, in its
    normal or its hostile build, stay paired through every run of leg
    instructions, gifts of tokens and calls by others: the principal the
    leg booked as deployed is the adapter's own figure and lies in the
    vault, and custody answers to the leg's authority alone. *)
Theorem books_stay_paired (R : ProgramAddresses) (T : TokenProgram) (RL : AddressLaws) (TL : TokenLaws)
    side pl hostile aenv se w p c max l0 s0 l :
  places_distinct pl -> 0 <= max ->
  @launch (shared_chain side pl hostile aenv) se w p c max = Ok l0 ->
  setup_matches side pl hostile aenv se w s0 -> s0.(as_remote_config) = l0.(l_key) ->
  pair_run side pl hostile aenv l0 l ->
  let world := l.(l_world) in
  exists s, world.(w_adapter_state) = adapter_account s /\
    read_principal world.(w_adapter_state) = Ok l.(l_position).(po_deployed_principal) /\
    s.(as_principal) = l.(l_position).(po_deployed_principal) /\
    0 <= s.(as_principal) <= world.(w_vault).(tk_amount) /\
    world.(w_vault).(tk_owner) = (adapter_authority_of pl.(pl_adapter_state)).1 /\
    custody_buckets l.(l_position) <= world.(w_custody).(tk_amount) /\
    world.(w_custody).(tk_owner) = remote_custody_authority s /\
    world.(w_custody).(tk_delegate) = None /\ world.(w_custody).(tk_close_authority) = None.
Proof.
  intros Hpl Hmax Hl Hm Hc Hr. cbv zeta.
  destruct (launched_run_paired side pl Hpl hostile aenv _ _ _ _ _ _ _ _ Hmax Hl Hm Hc Hr)
    as [Hb [s Hp]].
  exists s. pose proof (pd_staged _ _ _ _ _ _ Hp) as Hst. pose proof (sg_sound _ _ _ _ Hst) as Hs.
  pose proof (staged_vault pl Hpl _ _ _ Hst) as [Ho _ _ _ _ Hcov].
  destruct (pd_guarded _ _ _ _ _ _ Hp) as (Hd & Hcl & _).
  pose proof (at_principal _ (an_typed _ _ _ Hs)) as [? _].
  destruct (adapter_state_readable s strategy_ID (an_typed _ _ _ Hs)) as [_ Hread].
  rewrite <-(pd_books _ _ _ _ _ _ Hp). rewrite (sg_account _ _ _ _ Hst).
  split_and!; try done.
  - by rewrite Ho, <-(an_authority _ _ _ Hs).
  - apply Hb.
  - apply Hst.
Qed.

Lemma books_stay_paired_witness :
  exists s, w_adapter_state (l_world hostile_deployed) = adapter_account s /\
    read_principal (w_adapter_state (l_world hostile_deployed)) = Ok 600 /\
    s.(as_principal) = 600 /\ s.(as_principal) <= tk_amount (w_vault (l_world hostile_deployed)) /\
    tk_delegate (w_custody (l_world hostile_deployed)) = None.
Proof.
  destruct (books_stay_paired pair_runtime pair_tokens pair_runtime_laws pair_token_laws
    pair_side pair_places true pair_adapter_env pair_setup pair_world sample_params sample_control
    1000000 (pair_leg true) pair_state hostile_deployed) as (s & H1 & H2 & H3 & [_ H4] & _ & _ & _ & H5 & _).
  - exact pair_places_distinct.
  - lia.
  - exact (pair_leg_launched true).
  - exact (pair_matches true).
  - exact (pair_config true).
  - exact (pair_tale_run true deployed_story hostile_deployed_ok).
  - exists s.
    assert (Hd : po_deployed_principal (l_position hostile_deployed) = 600)
      by (vm_compute; reflexivity).
    rewrite Hd in H2, H3.
    split; [exact H1|]. split; [exact H2|]. split; [exact H3|]. split; [exact H4|exact H5].
Defined.

(** C31. A leg never blames the normal build of the strategy program: whatever
    the leg and its adapter went through, a withdrawal that fails does not
    fail on the checks of what the adapter did, and its call fails only
    when the adapter has no liquidity; one that succeeds took the smallest
    of the request, the principal and the liquidity off the principal,
    returned it less the configured loss rounded down, and the leg booked
    exactly that; a deployment likewise fails in its call only when
    deposits are paused or the principal would overflow. *)
Theorem honest_adapter_never_blamed (R : ProgramAddresses) (T : TokenProgram) (RL : AddressLaws)
    (TL : TokenLaws) side pl aenv se w p c max l0 s0 l env n :
  places_distinct pl -> 0 <= max ->
  @launch (shared_chain side pl false aenv) se w p c max = Ok l0 ->
  setup_matches side pl false aenv se w s0 -> s0.(as_remote_config) = l0.(l_key) ->
  pair_run side pl false aenv l0 l -> is_u64 n ->
  let run := @exec (shared_chain side pl false aenv) env l in
  exists s, l.(l_world).(w_adapter_state) = adapter_account s /\
    match run (IxWithdraw n) with
    | Ok (l', _) =>
        exists q, 0 < q <= n /\
          let reduction := Z.min (Z.min q s.(as_principal)) s.(as_max_liquid_principal) in
          let returned := reduction - reduction * s.(as_loss_bps) / MAX_BASIS_POINTS in
          0 <= returned <= reduction /\
          l'.(l_world).(w_custody).(tk_amount) = l.(l_world).(w_custody).(tk_amount) + returned /\
          l'.(l_world).(w_vault).(tk_amount) = l.(l_world).(w_vault).(tk_amount) - returned /\
          l'.(l_position).(po_deployed_principal)
            = l.(l_position).(po_deployed_principal) - reduction /\
          l'.(l_position).(po_recalled_custody)
            = l.(l_position).(po_recalled_custody) + returned /\
          l'.(l_position).(po_cumulative_realized_loss)
            = l.(l_position).(po_cumulative_realized_loss) + (reduction - returned)
    | Err e => blames e = false /\ (e = CalleeFailed -> s.(as_max_liquid_principal) = 0)
    end /\
    match run (IxDeploy n) with
    | Ok _ => True
    | Err e =>
        is_Some (env.(e_introspection).(in_instructions) !! env.(e_introspection).(in_current_index)) ->
        blames e = false /\
        (e = CalleeFailed -> s.(as_deposits_paused) = true \/ u64_max < s.(as_principal) + n)
    end.
Proof.
  intros Hpl Hmax Hl Hm Hc Hr Hn. cbv zeta.
  destruct (launched_run_paired side pl Hpl false aenv _ _ _ _ _ _ _ _ Hmax Hl Hm Hc Hr)
    as [Hb [s Hp]].
  exists s. pose proof (pd_staged _ _ _ _ _ _ Hp) as Hst. pose proof (sg_sound _ _ _ _ Hst) as Hs.
  split; [by destruct Hst|].
  destruct (bk_position _ Hb) as [Hnn Hcov _ _ _ _]. split.
  - unfold exec. destruct (process_withdraw_for_recall env l n) as [l'|e] eqn:He; cbn [result_map].
    + destruct (withdraw_exact side pl Hpl aenv env l s n l' Hp Hn He)
        as (q & Hq & Hw & Hd & Hrec & Hloss). exists q. split; [done|].
      assert (Hqu : is_u64 q) by (unfold fits in *; lia).
      destruct (returned_bounds _ _ _ q Hs Hqu) as (_ & _ & Hret & _).
      destruct (withdrawn_world_reads side pl Hpl aenv l s q Hp Hqu) as (_ & _ & Hcu & Hv).
      rewrite Hw, Hcu, Hv. fold (reduction_of s q) in *. unfold returned_of, loss_of_reduction in *.
      split_and!; try done; lia.
    + exact (withdraw_tame side pl Hpl aenv env l s n Hp Hcov Hn e He).
  - unfold exec. destruct (process_deploy_to_strategy env l n) as [l'|e] eqn:He; cbn [result_map]; [done|].
    intros Hix. exact (deploy_tame side pl Hpl aenv env l s n Hp Hcov Hnn Hn Hix e He).
Qed.

Lemma honest_adapter_never_blamed_witness :
  let env := @act_env (chain_of false) honest_recalling 2060 (ActWithdraw 2 300) in
  exists l' bs q, @exec (chain_of false) env honest_recalling (IxWithdraw 300) = Ok (l', bs) /\
    0 < q <= 300 /\
    l'.(l_position).(po_recalled_custody) + l'.(l_position).(po_cumulative_realized_loss)
      = honest_recalling.(l_position).(po_recalled_custody)
        + honest_recalling.(l_position).(po_cumulative_realized_loss)
        + (honest_recalling.(l_position).(po_deployed_principal)
           - l'.(l_position).(po_deployed_principal)) /\
    l'.(l_position).(po_cumulative_realized_loss) = 7.
Proof.
  cbv zeta.
  destruct (honest_adapter_never_blamed pair_runtime pair_tokens pair_runtime_laws pair_token_laws
    pair_side pair_places pair_adapter_env pair_setup pair_world sample_params sample_control
    1000000 (pair_leg false) pair_state honest_recalling
    (@act_env (chain_of false) honest_recalling 2060 (ActWithdraw 2 300)) 300) as (s & _ & Hw & _).
  - exact pair_places_distinct.
  - lia.
  - exact (pair_leg_launched false).
  - exact (pair_matches false).
  - exact (pair_config false).
  - exact (pair_tale_run false recalling_story honest_recalling_ok).
  - split; vm_compute; congruence.
  - assert (Hok : (fun r : Result (Leg * list BuiltMessage) =>
        match r with Ok (l', _) => po_cumulative_realized_loss (l_position l') | Err _ => -1 end)
      (@exec (chain_of false) (@act_env (chain_of false) honest_recalling 2060 (ActWithdraw 2 300))
        honest_recalling (IxWithdraw 300)) = 7) by (vm_compute; reflexivity).
    cbv beta in Hok. revert Hw Hok.
    destruct (@exec _ _ honest_recalling (IxWithdraw 300)) as [[l' bs]|]; [|discriminate 2].
    intros (q & Hq & _ & _ & _ & Hd & Hr & Hl) Hok.
    exists l', bs, q. split; [reflexivity|]. split; [exact Hq|]. split; [|exact Hok].
    rewrite Hd, Hr, Hl. lia.
Defined.

(** * The hostile build *)

Definition refusal (acts : list Act) : option Error :=
  match pair_told true acts with Ok _ => None | Err e => Some e end.

Definition hostile_prelude : list Act :=
  [ActAdopt; ActAllocate 1 2500 600; ActArrive 2500; ActAttribute 1].

(** Crediting more principal than arrived, returning more than the
    reduction, and each attack on the custody account end the instruction. *)
Theorem hostile_attacks_refused :
  refusal (hostile_prelude ++ [ActDeploy OVERSTATE_PRINCIPAL])
    = Some (Refused InvalidPrincipalDelta) /\
  (let recall n := hostile_prelude ++ [ActDeploy 2500; ActRecall 2 2000; ActWithdraw 2 n] in
   refusal (recall OVERPAY) = Some (Refused InvalidRealizedLoss) /\
   refusal (recall APPROVE_DELEGATE) = Some CalleeFailed /\
   refusal (recall TAKE_OWNERSHIP) = Some CalleeFailed /\
   refusal (recall SET_CLOSE_AUTHORITY) = Some CalleeFailed /\
   refusal (recall DRAIN_CUSTODY) = Some CalleeFailed /\
   refusal (recall 1000) = None).
Proof. vm_compute. repeat split. Qed.
