(* ===== verification/VerifierState.v ===== *)
(** The authorization verifier: its errors, accounts and profile
    ([programs/authorization-verifier/src/errors.rs] and [state.rs]).  Text
    is its bytes; every string field of an account is the bytes of the
    Rust [String]. *)

From Stdlib Require Import ZArith Lia.
From stdpp Require Import strings.
From S2P Require Import Prelude ProtocolLayout ProtocolTypes RemoteState RemoteMessage.
From S2P Require Import RemotePlatform RemoteInit.

(** A refusal of the program, [Ve] before the source's name. *)
Inductive VerifierError : Set :=
| VeUnauthorized
| VeInvalidRoles
| VeInvalidKeyId
| VeInvalidPublicKey
| VeInvalidKeyWindow
| VeInvalidMandate
| VeMandateHashMismatch
| VeAlreadyRevoked
| VeNotTopLevel
| VeInvalidInstructionOrder
| VeMissingPrecompile
| VeInvalidPrecompileInstruction
| VeInvalidSigningInputLength
| VeMalformedSigningInput
| VeInvalidBase64Url
| VeMalformedJson
| VeUnsupportedJsonValue
| VeDuplicateField
| VeUnknownField
| VeUnsupportedClaim
| VeMissingField
| VeInvalidFieldLength
| VeInvalidNumber
| VeUnsupportedAlgorithm
| VeUnsupportedType
| VeKeyIdMismatch
| VePublicKeyMismatch
| VeKeyRevoked
| VeOutsideKeyWindow
| VeIssuerMismatch
| VeVerdictNotAllow
| VeInvalidLifetime
| VeIssuedInFuture
| VeExpired
| VeMandateRevoked
| VeMandateMismatch
| VeAmountMismatch
| VeCurrencyMismatch
| VeRecipientMismatch
| VePolicyMismatch
| VeAgentMismatch
| VeCategoryMismatch
| VeNonceHashMismatch
| VeInvalidDeploymentAuthority
| VeInvalidAuthorizationMessage
| VeUnsupportedOperation
| VeAuthorityMismatch
| VeNetworkDomainMismatch
| VePolicyGenerationMismatch
| VeInvalidAuthorizationLifetime
| VeInvalidAuthorizationAmount
| VeNonceMismatch
| VeMissingDeploymentInstruction
| VeInvalidDeploymentInstruction
| VePolicyGenerationExhausted.

(** Why an instruction failed: a refusal, an account constraint of the
    framework, or a call of the runtime or the system program. *)
Inductive VFault : Set :=
| VRefused (e : VerifierError)
| VConstraint
| VCallee.

Abbreviation VResult := (result VFault).

(** * The profile *)

Definition CONFIG_SEED : list Z := byte_string "config".
Definition TRUSTED_KEY_SEED : list Z := byte_string "trusted_key".
Definition MANDATE_SEED : list Z := byte_string "mandate".
Definition RECEIPT_SEED : list Z := byte_string "consumed".
Definition RISK_KEY_SEED : list Z := byte_string "solevm-risk-key".

Definition NONCE_DOMAIN : list Z := byte_string "es256-authorization-verifier:nonce:v1".
Definition MANDATE_DOMAIN : list Z := byte_string "es256-authorization-verifier:mandate:v1".
Definition JTI_DOMAIN : list Z := byte_string "es256-authorization-verifier:jti:v1".

Definition ISSUER : list Z := byte_string "https://verdicts.saifuro.com".
Definition ALLOW_VERDICT : list Z := byte_string "allow".
Definition SANDBOX_KID_PREFIX : list Z := byte_string "sandbox-".
Definition VERDICT_LIFETIME_SECONDS : Z := 300.
Definition MAX_ISSUED_AT_SKEW_SECONDS : Z := 60.

Definition MAX_KID_LEN : nat := 32.
Definition MAX_JTI_LEN : nat := 64.
Definition MAX_MANDATE_LEN : nat := 64.
Definition MAX_POLICY_LEN : nat := 64.
Definition MAX_NONCE_LEN : nat := 64.
Definition MAX_AGENT_LEN : nat := 64.
Definition MAX_CURRENCY_LEN : nat := 16.
Definition MAX_RECIPIENT_LEN : nat := 128.
Definition MAX_CATEGORY_LEN : nat := 32.
Definition COMPRESSED_PUBLIC_KEY_LEN : nat := 33.
Definition DEPLOYMENT_NONCE_LEN : nat := 16.

Inductive Environment : Set := Production | Sandbox.

Definition environment_seed (e : Environment) : list Z :=
  match e with Production => [0] | Sandbox => [1] end.

Definition starts_with (prefix l : list Z) : bool :=
  bool_decide (take (length prefix) l = prefix).

Definition accepts_kid (e : Environment) (kid : list Z) : bool :=
  let sandbox := starts_with SANDBOX_KID_PREFIX kid in
  match e with Production => negb sandbox | Sandbox => sandbox end.

(** Printable ASCII without quote or backslash. *)
Definition is_profile_byte (b : Z) : bool :=
  (32 <=? b) && (b <=? 126) && negb (b =? 34) && negb (b =? 92).

Definition is_profile_text (value : list Z) (max_len : nat) : bool :=
  negb (length value =? 0)%nat && (length value <=? max_len)%nat && forallb is_profile_byte value.

(** The address seed of a key id: an id too long for a seed maps to the
    empty one, which no valid id occupies. *)
Definition kid_seed (kid : list Z) : list Z :=
  if (MAX_KID_LEN <? length kid)%nat then [] else kid.

Definition public_key_parity_seed (public_key : list Z) : list Z := take 1 public_key.
Definition public_key_x_seed (public_key : list Z) : list Z := drop 1 public_key.

(** * Accounts *)

Record VerifierConfig := mkVerifierConfig {
  vc_administrator : Key;
  vc_consumer : Key;
  vc_environment : Environment;
  vc_bump : Z
}.

Record TrustedKey := mkTrustedKey {
  tk_config : Key;
  tk_kid : list Z;
  tk_public_key : list Z;
  tk_not_before : Z;
  tk_not_after : Z;
  tk_revoked : bool;
  tk_bump : Z
}.

#[global] Instance TrustedKey_eta : Eta TrustedKey := fun s => mkTrustedKey
  (tk_config s) (tk_kid s) (tk_public_key s) (tk_not_before s) (tk_not_after s)
  (tk_revoked s) (tk_bump s).

Record Mandate := mkMandate {
  md_config : Key;
  md_mandate_hash : Bytes32;
  md_mandate_id : list Z;
  md_amount_micros : Z;
  md_currency : list Z;
  md_recipient : list Z;
  md_policy_version : list Z;
  md_agent : list Z;
  md_category : list Z;
  md_revoked : bool;
  md_bump : Z
}.

#[global] Instance Mandate_eta : Eta Mandate := fun s => mkMandate
  (md_config s) (md_mandate_hash s) (md_mandate_id s) (md_amount_micros s) (md_currency s)
  (md_recipient s) (md_policy_version s) (md_agent s) (md_category s) (md_revoked s)
  (md_bump s).

Record ConsumedAuthorization := mkConsumedAuthorization {
  ca_config : Key;
  ca_nonce_hash : Bytes32;
  ca_signing_input_hash : Bytes32;
  ca_jti_hash : Bytes32;
  ca_mandate : Key;
  ca_consumed_at : Z;
  ca_expires_at : Z;
  ca_bump : Z
}.

#[global] Instance DeploymentAuthority_eta : Eta DeploymentAuthority := fun s =>
  mkDeploymentAuthority (da_version s) (da_bump s) (da_administrator s)
    (da_remote_leg_program s) (da_remote_config s) (da_network_domain s)
    (da_policy_generation s).

Record RiskKey := mkRiskKey {
  rk_config : Key;
  rk_public_key : list Z;
  rk_not_before : Z;
  rk_not_after : Z;
  rk_revoked : bool;
  rk_key_bump : Z
}.

#[global] Instance RiskKey_eta : Eta RiskKey := fun s => mkRiskKey
  (rk_config s) (rk_public_key s) (rk_not_before s) (rk_not_after s) (rk_revoked s)
  (rk_key_bump s).

(** * Signed 64-bit times *)

(** [checked_add] of an [i64]. *)
Definition i64_checked_add (a b : Z) : option Z :=
  if (i64_min <=? a + b) && (a + b <=? i64_max) then Some (a + b) else None.

Section hashes.
Context `{Chain}.

Definition domain_hash (domain value : list Z) : Bytes32 := sha256 (concat [domain; value]).

Definition nonce_hash (nonce : list Z) : Bytes32 := domain_hash NONCE_DOMAIN nonce.

Definition mandate_hash (mandate_id : list Z) : Bytes32 := domain_hash MANDATE_DOMAIN mandate_id.

End hashes.
