(* ===== verification/VerifierJwt.v ===== *)
(** The strict verdict parser ([programs/authorization-verifier/src/jwt.rs]):
    unpadded Base64URL, and the subset of JSON the profile accepts.

    The parser's loops run with fuel, one more than the bytes of the
    document; [Diverges] marks a loop that ran out of it, and
    [VerifierParse] shows that none ever does. *)

From Stdlib Require Import ZArith Lia.
From stdpp Require Import strings.
From S2P Require Import Prelude AccountingMath ProtocolLayout ProtocolTypes ProtocolCodec.
From S2P Require Import RemoteState.
From S2P Require Import VerifierState.

Inductive ParseFault : Set :=
| Fails (e : VerifierError)
| Diverges.

Abbreviation ParseResult := (result ParseFault).

Definition MAX_TIMESTAMP : Z := 253402300799.
Definition AMOUNT_SCALE_DIGITS : nat := 6.
Definition AMOUNT_SCALE : Z := 1000000.
Definition MAX_AMOUNT_INTEGER_DIGITS : nat := 13.
Definition MAX_TIMESTAMP_DIGITS : nat := 12.

(** * Documents *)

Record JwtHeader := mkJwtHeader { jh_kid : list Z }.

Record Request := mkRequest {
  rq_agent : list Z;
  rq_amount_micros : Z;
  rq_currency : list Z;
  rq_recipient : list Z;
  rq_category : list Z
}.

Record Claims := mkClaims {
  cl_iss : list Z;
  cl_jti : list Z;
  cl_iat : Z;
  cl_exp : Z;
  cl_verdict : list Z;
  cl_mandate : list Z;
  cl_policy_version : list Z;
  cl_nonce : list Z;
  cl_request : Request
}.

Record DecodedSigningInput := mkDecodedSigningInput {
  ds_header_json : list Z;
  ds_payload_json : list Z
}.

(** * Base64URL *)

(** [slice::split]: the segments between the bytes that match. *)
Fixpoint split_on (sep : Z) (l : list Z) : list (list Z) :=
  match l with
  | [] => [[]]
  | b :: l' =>
      if b =? sep then [] :: split_on sep l'
      else match split_on sep l' with
           | segment :: rest => (b :: segment) :: rest
           | [] => [[b]]
           end
  end.

Definition sextet (symbol : Z) : ParseResult Z :=
  if (65 <=? symbol) && (symbol <=? 90) then Ok (symbol - 65)
  else if (97 <=? symbol) && (symbol <=? 122) then Ok (symbol - 97 + 26)
  else if (48 <=? symbol) && (symbol <=? 57) then Ok (symbol - 48 + 52)
  else if symbol =? 45 then Ok 62
  else if symbol =? 95 then Ok 63
  else Err (Fails VeInvalidBase64Url).

(** The 24-bit word of up to four symbols. *)
Definition chunk_word (chunk : list Z) : ParseResult Z :=
  try_fold (fun word '(symbol, shift) =>
      let? value := sextet symbol in
      Ok (Z.lor word (Z.land (Z.shiftl value shift) u32_max)))
    0 (zip chunk [18; 12; 6; 0]).

(** [word.to_be_bytes()] without its first byte. *)
Definition word_bytes (word : Z) : Z * Z * Z :=
  (Z.land (Z.shiftr word 16) 255, Z.land (Z.shiftr word 8) 255, Z.land word 255).

Definition decode_chunk (chunk : list Z) : ParseResult (list Z) :=
  let? word := chunk_word chunk in
  let '(first, second, third) := word_bytes word in
  match length chunk with
  | 4%nat => Ok [first; second; third]
  | 3%nat => require third =? 0 or Fails VeInvalidBase64Url; Ok [first; second]
  | 2%nat => require (second =? 0) && (third =? 0) or Fails VeInvalidBase64Url; Ok [first]
  | _ => Err (Fails VeInvalidBase64Url)
  end.

(** [slice::chunks(n)]; a slice has at most as many chunks as bytes. *)
Fixpoint chunks_loop (fuel n : nat) (l : list Z) : list (list Z) :=
  match fuel, l with
  | O, _ | _, [] => []
  | S fuel', _ => take n l :: chunks_loop fuel' n (drop n l)
  end.

Definition chunks (n : nat) (l : list Z) : list (list Z) := chunks_loop (length l) n l.

Definition decode_base64url (input : list Z) : ParseResult (list Z) :=
  fail_if (length input mod 4 =? 1)%nat with Fails VeInvalidBase64Url;
  try_fold (fun output chunk =>
      let? bytes := decode_chunk chunk in Ok (output ++ bytes))
    [] (chunks 4 input).

Definition decode_signing_input (signing_input : list Z) : ParseResult DecodedSigningInput :=
  match split_on 46 signing_input with
  | [header; payload] =>
      fail_if (length header =? 0)%nat || (length payload =? 0)%nat
        with Fails VeMalformedSigningInput;
      let? header_json := decode_base64url header in
      let? payload_json := decode_base64url payload in
      Ok (mkDecodedSigningInput header_json payload_json)
  | _ => Err (Fails VeMalformedSigningInput)
  end.

(** * Numbers *)

Definition is_ascii_digit (b : Z) : bool := (48 <=? b) && (b <=? 57).

Definition parse_digits (digits : list Z) : ParseResult Z :=
  fail_if (length digits =? 0)%nat with Fails VeInvalidNumber;
  try_fold (fun value digit =>
      fail_if negb (is_ascii_digit digit) with Fails VeInvalidNumber;
      let? scaled := ok_or (checked_mul u64_max value 10) (Fails VeInvalidNumber) in
      ok_or (checked_add u64_max scaled (digit - 48)) (Fails VeInvalidNumber))
    0 digits.

Definition parse_timestamp (token : list Z) : ParseResult Z :=
  fail_if (MAX_TIMESTAMP_DIGITS <? length token)%nat || bool_decide (head token = Some 48)
    with Fails VeInvalidNumber;
  let? value := parse_digits token in
  require value <=? i64_max or Fails VeInvalidNumber;
  fail_if (value =? 0) || (MAX_TIMESTAMP <? value) with Fails VeInvalidNumber;
  Ok value.

Definition checked_pow (m base : Z) (exponent : nat) : option Z :=
  if base ^ Z.of_nat exponent <=? m then Some (base ^ Z.of_nat exponent) else None.

(** [splitn(2, '.')]: the bytes before the first dot, and those after it. *)
Fixpoint split_once (sep : Z) (l : list Z) : list Z * option (list Z) :=
  match l with
  | [] => ([], None)
  | b :: l' =>
      if b =? sep then ([], Some l')
      else let '(before, after) := split_once sep l' in (b :: before, after)
  end.

Definition parse_amount_micros (token : list Z) : ParseResult Z :=
  let '(integer, fraction) := split_once 46 token in
  let leading_zero := (1 <? length integer)%nat && bool_decide (head integer = Some 48) in
  fail_if (MAX_AMOUNT_INTEGER_DIGITS <? length integer)%nat || leading_zero
    with Fails VeInvalidNumber;
  let? digits := parse_digits integer in
  let? whole := ok_or (checked_mul u64_max digits AMOUNT_SCALE) (Fails VeInvalidNumber) in
  let? micros :=
    match fraction with
    | None => Ok 0
    | Some digits =>
        fail_if (AMOUNT_SCALE_DIGITS <? length digits)%nat with Fails VeInvalidNumber;
        let padding := (AMOUNT_SCALE_DIGITS - length digits)%nat in
        let? scale := ok_or (checked_pow u64_max 10 padding) (Fails VeInvalidNumber) in
        let? value := parse_digits digits in
        ok_or (checked_mul u64_max value scale) (Fails VeInvalidNumber)
    end in
  ok_or (checked_add u64_max whole micros) (Fails VeInvalidNumber).

(** * The cursor *)

Record Cursor := mkCursor {
  cu_bytes : list Z;
  cu_position : nat
}.

Definition cursor_new (bytes : list Z) : Cursor := mkCursor bytes 0.

Definition peek (c : Cursor) : option Z := c.(cu_bytes) !! c.(cu_position).

Definition at_position (c : Cursor) (p : nat) : Cursor := mkCursor c.(cu_bytes) p.

Definition cursor_advance (c : Cursor) : ParseResult (Z * Cursor) :=
  let? byte := ok_or (peek c) (Fails VeMalformedJson) in
  let? position := ok_or (checked_add usize_max (Z.of_nat c.(cu_position)) 1)
    (Fails VeMalformedJson) in
  Ok (byte, at_position c (Z.to_nat position)).

(** The fuel of every loop over this document. *)
Definition fuel_of (c : Cursor) : nat := S (length c.(cu_bytes)).

Definition is_whitespace (b : Z) : bool := (b =? 32) || (b =? 9) || (b =? 10) || (b =? 13).

Fixpoint skip_whitespace_loop (fuel : nat) (c : Cursor) : ParseResult Cursor :=
  match fuel with
  | O => Err Diverges
  | S fuel' =>
      match peek c with
      | Some b =>
          if is_whitespace b then
            skip_whitespace_loop fuel'
              (at_position c (Z.to_nat (saturating_add usize_max (Z.of_nat c.(cu_position)) 1)))
          else Ok c
      | None => Ok c
      end
  end.

Definition skip_whitespace (c : Cursor) : ParseResult Cursor :=
  skip_whitespace_loop (fuel_of c) c.

Definition cursor_expect (expected : Z) (c : Cursor) : ParseResult Cursor :=
  let? '(byte, c) := cursor_advance c in
  require byte =? expected or Fails VeMalformedJson;
  Ok c.

(** Reads to the closing quote; the cursor then stands just past it. *)
Fixpoint string_loop (fuel : nat) (c : Cursor) : ParseResult Cursor :=
  match fuel with
  | O => Err Diverges
  | S fuel' =>
      let? '(byte, c) := cursor_advance c in
      if byte =? 34 then Ok c
      else if byte =? 92 then Err (Fails VeMalformedJson)
      else if (32 <=? byte) && (byte <=? 126) then string_loop fuel' c
      else Err (Fails VeMalformedJson)
  end.

(** [bytes.get(start..end)]. *)
Definition get_range (bytes : list Z) (start stop : nat) : ParseResult (list Z) :=
  require (start <=? stop)%nat && (stop <=? length bytes)%nat or Fails VeMalformedJson;
  Ok (slice bytes start (stop - start)).

Definition cursor_string (c : Cursor) : ParseResult (list Z * Cursor) :=
  require bool_decide (peek c = Some 34) or Fails VeUnsupportedJsonValue;
  let? '(_, c) := cursor_advance c in
  let start := c.(cu_position) in
  let? c := string_loop (fuel_of c) c in
  let stop := (c.(cu_position) - 1)%nat in
  let? text := get_range c.(cu_bytes) start stop in
  Ok (text, c).

Definition is_number_byte (b : Z) : bool :=
  is_ascii_digit b || (b =? 46) || (b =? 45) || (b =? 43) || (b =? 101) || (b =? 69).

Fixpoint number_loop (fuel : nat) (c : Cursor) : ParseResult Cursor :=
  match fuel with
  | O => Err Diverges
  | S fuel' =>
      match peek c with
      | Some b =>
          if is_number_byte b then let? '(_, c) := cursor_advance c in number_loop fuel' c
          else Ok c
      | None => Ok c
      end
  end.

Definition cursor_number (c : Cursor) : ParseResult (list Z * Cursor) :=
  let start := c.(cu_position) in
  let? c := number_loop (fuel_of c) c in
  let? token := get_range c.(cu_bytes) start c.(cu_position) in
  fail_if (length token =? 0)%nat with Fails VeUnsupportedJsonValue;
  Ok (token, c).

Definition cursor_finish (c : Cursor) : ParseResult unit :=
  let? c := skip_whitespace c in
  require (c.(cu_position) =? length c.(cu_bytes))%nat or Fails VeMalformedJson;
  Ok tt.

(** * Objects *)

Section object.
Context {S : Type} (visit : S -> Cursor -> list Z -> ParseResult (S * Cursor)).

(** One field: its key, and whatever [visit] reads as its value. *)
Definition object_field (s : S) (c : Cursor) : ParseResult (S * Cursor) :=
  let? c := skip_whitespace c in
  require bool_decide (peek c = Some 34) or Fails VeMalformedJson;
  let? '(key, c) := cursor_string c in
  let? c := skip_whitespace c in
  let? c := cursor_expect 58 c in
  let? c := skip_whitespace c in
  let? '(s, c) := visit s c key in
  let? c := skip_whitespace c in
  Ok (s, c).

Fixpoint object_loop (fuel : nat) (s : S) (c : Cursor) : ParseResult (S * Cursor) :=
  match fuel with
  | O => Err Diverges
  | Datatypes.S fuel' =>
      let? '(s, c) := object_field s c in
      let? '(byte, c) := cursor_advance c in
      if byte =? 44 then object_loop fuel' s c
      else if byte =? 125 then Ok (s, c)
      else Err (Fails VeMalformedJson)
  end.

Definition cursor_object (s : S) (c : Cursor) : ParseResult (S * Cursor) :=
  let? c := skip_whitespace c in
  let? c := cursor_expect 123 c in
  let? c := skip_whitespace c in
  if bool_decide (peek c = Some 125) then
    let? '(_, c) := cursor_advance c in Ok (s, c)
  else object_loop (fuel_of c) s c.

End object.

(** * Fields *)

(** [fill]: refuses a repeated field before it reads the value. *)
Definition fill {A} (slot : option A) (read : ParseResult (A * Cursor))
    : ParseResult (option A * Cursor) :=
  match slot with
  | Some _ => Err (Fails VeDuplicateField)
  | None => let? '(value, c) := read in Ok (Some value, c)
  end.

Definition required {A} (slot : option A) : ParseResult A := ok_or slot (Fails VeMissingField).

Definition bounded (value : list Z) (max_len : nat) : ParseResult (list Z) :=
  fail_if (length value =? 0)%nat || (max_len <? length value)%nat
    with Fails VeInvalidFieldLength;
  Ok value.

(** A number, read and converted. *)
Definition converted (parse : list Z -> ParseResult Z) (c : Cursor) : ParseResult (Z * Cursor) :=
  let? '(token, c) := cursor_number c in
  let? value := parse token in
  Ok (value, c).

(** * The header *)

Record HeaderSlots := mkHeaderSlots {
  hs_alg : option (list Z);
  hs_kid : option (list Z);
  hs_typ : option (list Z)
}.

Definition key_is (key : list Z) (name : string) : bool := keys_eq key (byte_string name).

Definition key_in (key : list Z) (names : list string) : bool := existsb (key_is key) names.

Definition visit_header (s : HeaderSlots) (c : Cursor) (key : list Z)
    : ParseResult (HeaderSlots * Cursor) :=
  let '(mkHeaderSlots alg kid typ) := s in
  if key_is key "alg" then
    let? '(alg, c) := fill alg (cursor_string c) in Ok (mkHeaderSlots alg kid typ, c)
  else if key_is key "kid" then
    let? '(kid, c) := fill kid (cursor_string c) in Ok (mkHeaderSlots alg kid typ, c)
  else if key_is key "typ" then
    let? '(typ, c) := fill typ (cursor_string c) in Ok (mkHeaderSlots alg kid typ, c)
  else if key_in key ["jwk"; "jku"; "x5c"; "x5u"; "x5t"; "x5t#S256"; "crit"; "b64"]%string
  then Err (Fails VeUnsupportedClaim)
  else Err (Fails VeUnknownField).

(** The required fields of the header, checked in this order. *)
Definition header_from (s : HeaderSlots) : ParseResult JwtHeader :=
  let? alg := required s.(hs_alg) in
  require key_is alg "ES256" or Fails VeUnsupportedAlgorithm;
  fail_if match s.(hs_typ) with Some value => negb (key_is value "JWT") | None => false end
    with Fails VeUnsupportedType;
  let? kid := required s.(hs_kid) in
  let? kid := bounded kid MAX_KID_LEN in
  Ok (mkJwtHeader kid).

Definition parse_header (json : list Z) : ParseResult JwtHeader :=
  let? '(s, c) := cursor_object visit_header (mkHeaderSlots None None None)
    (cursor_new json) in
  let? _ := cursor_finish c in
  header_from s.

(** * The request *)

Record RequestSlots := mkRequestSlots {
  qs_agent : option (list Z);
  qs_amount : option Z;
  qs_currency : option (list Z);
  qs_recipient : option (list Z);
  qs_category : option (list Z)
}.

Definition visit_request (s : RequestSlots) (c : Cursor) (key : list Z)
    : ParseResult (RequestSlots * Cursor) :=
  let '(mkRequestSlots agent amount currency recipient category) := s in
  if key_is key "agent" then
    let? '(agent, c) := fill agent (cursor_string c) in
    Ok (mkRequestSlots agent amount currency recipient category, c)
  else if key_is key "amount" then
    let? '(amount, c) := fill amount (converted parse_amount_micros c) in
    Ok (mkRequestSlots agent amount currency recipient category, c)
  else if key_is key "currency" then
    let? '(currency, c) := fill currency (cursor_string c) in
    Ok (mkRequestSlots agent amount currency recipient category, c)
  else if key_is key "recipient" then
    let? '(recipient, c) := fill recipient (cursor_string c) in
    Ok (mkRequestSlots agent amount currency recipient category, c)
  else if key_is key "category" then
    let? '(category, c) := fill category (cursor_string c) in
    Ok (mkRequestSlots agent amount currency recipient category, c)
  else Err (Fails VeUnknownField).

Definition request_from (s : RequestSlots) : ParseResult Request :=
  let? agent := required s.(qs_agent) in
  let? agent := bounded agent MAX_AGENT_LEN in
  let? amount := required s.(qs_amount) in
  let? currency := required s.(qs_currency) in
  let? currency := bounded currency MAX_CURRENCY_LEN in
  let? recipient := required s.(qs_recipient) in
  let? recipient := bounded recipient MAX_RECIPIENT_LEN in
  let? category := required s.(qs_category) in
  let? category := bounded category MAX_CATEGORY_LEN in
  Ok (mkRequest agent amount currency recipient category).

Definition parse_request (c : Cursor) : ParseResult (Request * Cursor) :=
  let? '(s, c) := cursor_object visit_request (mkRequestSlots None None None None None) c in
  let? request := request_from s in
  Ok (request, c).

(** * The claims *)

Record ClaimSlots := mkClaimSlots {
  ks_iss : option (list Z);
  ks_jti : option (list Z);
  ks_iat : option Z;
  ks_exp : option Z;
  ks_verdict : option (list Z);
  ks_mandate : option (list Z);
  ks_policy_version : option (list Z);
  ks_nonce : option (list Z);
  ks_request : option Request
}.

#[global] Instance ClaimSlots_eta : Eta ClaimSlots := fun s => mkClaimSlots
  (ks_iss s) (ks_jti s) (ks_iat s) (ks_exp s) (ks_verdict s) (ks_mandate s)
  (ks_policy_version s) (ks_nonce s) (ks_request s).

Definition empty_claims : ClaimSlots :=
  mkClaimSlots None None None None None None None None None.

Definition visit_claim (s : ClaimSlots) (c : Cursor) (key : list Z)
    : ParseResult (ClaimSlots * Cursor) :=
  if key_is key "iss" then
    let? '(v, c) := fill s.(ks_iss) (cursor_string c) in Ok (s <| ks_iss := v |>, c)
  else if key_is key "jti" then
    let? '(v, c) := fill s.(ks_jti) (cursor_string c) in Ok (s <| ks_jti := v |>, c)
  else if key_is key "iat" then
    let? '(v, c) := fill s.(ks_iat) (converted parse_timestamp c) in Ok (s <| ks_iat := v |>, c)
  else if key_is key "exp" then
    let? '(v, c) := fill s.(ks_exp) (converted parse_timestamp c) in Ok (s <| ks_exp := v |>, c)
  else if key_is key "verdict" then
    let? '(v, c) := fill s.(ks_verdict) (cursor_string c) in Ok (s <| ks_verdict := v |>, c)
  else if key_is key "mandate" then
    let? '(v, c) := fill s.(ks_mandate) (cursor_string c) in Ok (s <| ks_mandate := v |>, c)
  else if key_is key "policy_version" then
    let? '(v, c) := fill s.(ks_policy_version) (cursor_string c) in
    Ok (s <| ks_policy_version := v |>, c)
  else if key_is key "nonce" then
    let? '(v, c) := fill s.(ks_nonce) (cursor_string c) in Ok (s <| ks_nonce := v |>, c)
  else if key_is key "request" then
    let? '(v, c) := fill s.(ks_request) (parse_request c) in Ok (s <| ks_request := v |>, c)
  else if key_in key ["aud"; "nbf"; "supersedes"]%string then Err (Fails VeUnsupportedClaim)
  else Err (Fails VeUnknownField).

Definition claims_from (s : ClaimSlots) : ParseResult Claims :=
  let? iss := required s.(ks_iss) in
  let? jti := required s.(ks_jti) in
  let? jti := bounded jti MAX_JTI_LEN in
  let? iat := required s.(ks_iat) in
  let? exp := required s.(ks_exp) in
  let? verdict := required s.(ks_verdict) in
  let? mandate := required s.(ks_mandate) in
  let? mandate := bounded mandate MAX_MANDATE_LEN in
  let? policy_version := required s.(ks_policy_version) in
  let? policy_version := bounded policy_version MAX_POLICY_LEN in
  let? nonce := required s.(ks_nonce) in
  let? nonce := bounded nonce MAX_NONCE_LEN in
  let? request := required s.(ks_request) in
  Ok (mkClaims iss jti iat exp verdict mandate policy_version nonce request).

Definition parse_claims (json : list Z) : ParseResult Claims :=
  let? '(s, c) := cursor_object visit_claim empty_claims (cursor_new json) in
  let? _ := cursor_finish c in
  claims_from s.
