(* ===== verification/VerifierGrammar.v ===== *)
(** The language of the verdict parser: a grammar of the JSON subset, and
    what each scanning loop of [jwt.rs] does to the text it stands on.

    A cursor is read as the bytes that remain ([rest]); [reads c t c'] says
    that the parser went from [c] to [c'] over exactly the bytes [t]. *)

From Stdlib Require Import ZArith Lia.
From stdpp Require Import strings.
From S2P Require Import Prelude AccountingMath ProtocolLayout ProtocolTypes ProtocolCodec ProtocolWire.
From S2P Require Import RemoteState.
From S2P Require Import VerifierState VerifierJwt.

(** * The grammar *)

Inductive Value :=
| Text (s : list Z)
| Number (token : list Z)
| Object (fields : list (list Z * Value)).

Abbreviation Fields := (list (list Z * Value)).

(** Insignificant whitespace. *)
Definition blank (w : list Z) : Prop := Forall (fun b => is_whitespace b = true) w.

(** Printable ASCII without quotes and escapes. *)
Definition plain (s : list Z) : Prop := Forall (fun b => is_profile_byte b = true) s.

Definition quoted (s : list Z) : list Z := 34 :: s ++ [34].

Inductive value_text : Value -> list Z -> Prop :=
| text_value s : plain s -> value_text (Text s) (quoted s)
| number_value token :
    token <> [] -> Forall (fun b => is_number_byte b = true) token ->
    value_text (Number token) token
| object_value fields t : object_text fields t -> value_text (Object fields) t
with object_text : Fields -> list Z -> Prop :=
| empty_object w : blank w -> object_text [] ([123] ++ w ++ [125])
| full_object fields t :
    members_text fields t -> object_text fields ([123] ++ t ++ [125])
with members_text : Fields -> list Z -> Prop :=
| last_member key v t : member_text key v t -> members_text [(key, v)] t
| next_member key v t fields u :
    member_text key v t -> members_text fields u ->
    members_text ((key, v) :: fields) (t ++ [44] ++ u)
with member_text : list Z -> Value -> list Z -> Prop :=
| member key v w1 w2 w3 w4 t :
    blank w1 -> blank w2 -> blank w3 -> blank w4 -> plain key -> value_text v t ->
    member_text key v (w1 ++ quoted key ++ w2 ++ [58] ++ w3 ++ t ++ w4).

(** A whole document: one object, and whitespace around it. *)
Definition document (fields : Fields) (json : list Z) : Prop :=
  exists w1 t w2, blank w1 /\ object_text fields t /\ blank w2 /\ json = w1 ++ t ++ w2.

(** * Cursors *)

Definition rest (c : Cursor) : list Z := drop c.(cu_position) c.(cu_bytes).

(** The cursor [n] bytes further. *)
Definition move (c : Cursor) (n : nat) : Cursor := at_position c (c.(cu_position) + n).

(** A cursor within a document of a length [usize] can hold. *)
Definition standing (c : Cursor) : Prop :=
  (c.(cu_position) <= length c.(cu_bytes))%nat /\ addressable c.(cu_bytes).

Definition reads (c : Cursor) (t : list Z) (c' : Cursor) : Prop :=
  c' = move c (length t) /\ rest c = t ++ rest c'.

Lemma move_0 c : move c 0 = c.
Proof. unfold move, at_position. rewrite Nat.add_0_r. by destruct c. Qed.

Lemma move_move c n m : move (move c n) m = move c (n + m).
Proof. unfold move, at_position. simpl. by rewrite Nat.add_assoc. Qed.

Lemma rest_move c n : rest (move c n) = drop n (rest c).
Proof. unfold rest, move. simpl. by rewrite drop_drop, Nat.add_comm. Qed.

Lemma length_rest c : length (rest c) = (length c.(cu_bytes) - c.(cu_position))%nat.
Proof. apply length_drop. Qed.

Lemma fuel_of_rest c : (length (rest c) < fuel_of c)%nat.
Proof. rewrite length_rest. unfold fuel_of. lia. Qed.

Lemma fuel_of_move c n : fuel_of (move c n) = fuel_of c.
Proof. done. Qed.

Lemma reads_nil c : reads c [] c.
Proof. split; [by rewrite move_0|done]. Qed.

Lemma reads_app c1 c2 c3 t u : reads c1 t c2 -> reads c2 u c3 -> reads c1 (t ++ u) c3.
Proof.
  intros [-> Hr1] [-> Hr2]. split; [by rewrite move_move, length_app|].
  by rewrite Hr1, Hr2, app_assoc.
Qed.

(** The cursor after [t], when the text starts with it. *)
Lemma reads_prefix c t u : rest c = t ++ u -> reads c t (move c (length t)) /\ rest (move c (length t)) = u.
Proof.
  intros Hr. assert (Hu : rest (move c (length t)) = u) by (by rewrite rest_move, Hr, drop_app_length).
  split; [split; [done|by rewrite Hu]|done].
Qed.

Lemma reads_standing c t c' : standing c -> reads c t c' -> standing c'.
Proof.
  intros [Hp Ha] [-> Hr]. split; [|done]. simpl.
  assert (Hl : length (rest c) = length (t ++ rest (move c (length t)))) by by rewrite <-Hr.
  rewrite length_app, length_rest in Hl. lia.
Qed.

Lemma reads_length c t c' : reads c t c' -> (length (rest c) = length t + length (rest c'))%nat.
Proof. intros [_ ->]. apply length_app. Qed.

Lemma peek_rest c : peek c = head (rest c).
Proof.
  unfold peek, rest. rewrite <-(Nat.add_0_r (cu_position c)) at 1.
  rewrite <-lookup_drop. by destruct (drop _ _).
Qed.

(** * Scanning *)

Lemma advance_rest c :
  standing c ->
  cursor_advance c =
    match rest c with b :: _ => Ok (b, move c 1) | [] => Err (Fails VeMalformedJson) end.
Proof.
  intros [Hp Ha]. unfold cursor_advance. rewrite peek_rest.
  destruct (rest c) as [|b l] eqn:Hr; simpl; [done|].
  assert (Hl : (length (rest c) = S (length l))%nat) by by rewrite Hr.
  rewrite length_rest in Hl. unfold addressable in Ha.
  assert (Hc : checked_add usize_max (Z.of_nat (cu_position c)) 1
               = Some (Z.of_nat (cu_position c) + 1)) by (apply checked_add_Some; lia).
  rewrite Hc. simpl. unfold move. do 3 f_equal. lia.
Qed.

Lemma expect_iff b c c' :
  standing c -> cursor_expect b c = Ok c' <-> reads c [b] c'.
Proof.
  intros Hc. unfold cursor_expect. rewrite (advance_rest c Hc).
  destruct (rest c) as [|x l] eqn:Hr; [split; [done|intros [_ Hx]; rewrite Hr in Hx; discriminate]|].
  assert (Hm : rest (move c 1) = l) by by rewrite rest_move, Hr.
  destruct (Z.eqb_spec x b) as [->|Hne].
  - split; [intros [= <-]; split; [done|]; by rewrite Hm|by intros [-> _]].
  - split; [done|]. intros [_ Hx]. rewrite Hr in Hx. injection Hx as Hx _. congruence.
Qed.

(** The longest prefix whose bytes satisfy [f]. *)
Fixpoint prefix_while (f : Z -> bool) (l : list Z) : list Z :=
  match l with
  | b :: l' => if f b then b :: prefix_while f l' else []
  | [] => []
  end.

(** The text does not start with a byte that satisfies [f]. *)
Definition stops (f : Z -> bool) (l : list Z) : Prop :=
  forall b, head l = Some b -> f b = false.

Lemma prefix_while_spec f l :
  exists u, l = prefix_while f l ++ u /\ Forall (fun b => f b = true) (prefix_while f l) /\ stops f u.
Proof.
  induction l as [|b l (u & Hl & Hf & Hs)]; [by exists []|]. simpl.
  destruct (f b) eqn:Hb; [|exists (b :: l); split; [done|split; [done|by intros ? [= <-]]]].
  exists u. rewrite Hl at 1. split; [done|]. split; [by constructor|done].
Qed.

Lemma prefix_while_app f t u :
  Forall (fun b => f b = true) t -> stops f u -> prefix_while f (t ++ u) = t.
Proof.
  intros Ht Hu. induction Ht as [|b t Hb Ht IH]; simpl; [|by rewrite Hb, IH].
  destruct u as [|b u]; [done|]. simpl. by rewrite (Hu b).
Qed.

Lemma prefix_while_length f l : (length (prefix_while f l) <= length l)%nat.
Proof. induction l as [|b l IH]; simpl; [lia|]. destruct (f b); simpl; lia. Qed.

Lemma skip_loop_exact fuel c :
  standing c -> (length (rest c) < fuel)%nat ->
  skip_whitespace_loop fuel c = Ok (move c (length (prefix_while is_whitespace (rest c)))).
Proof.
  revert c. induction fuel as [|fuel IH]; intros c Hc Hf; [lia|]. simpl.
  rewrite peek_rest. destruct (rest c) as [|b l] eqn:Hr; simpl; [by rewrite move_0|].
  destruct (is_whitespace b); [|by rewrite move_0].
  assert (Hc1 : reads c [b] (move c 1)) by (split; [done|by rewrite rest_move, Hr]).
  assert (Hs1 := reads_standing _ _ _ Hc Hc1).
  assert (Hm : at_position c
            (Z.to_nat (saturating_add usize_max (Z.of_nat (cu_position c)) 1)) = move c 1).
  { unfold move, saturating_add. f_equal. destruct Hs1 as [Hp Ha].
    unfold addressable in Ha. simpl in Hp, Ha. lia. }
  rewrite Hm, (IH _ Hs1); rewrite rest_move, Hr; simpl in *; [|rewrite drop_0; lia].
  by rewrite drop_0, move_move.
Qed.

Lemma skip_whitespace_exact c :
  standing c ->
  skip_whitespace c = Ok (move c (length (prefix_while is_whitespace (rest c)))).
Proof. intros Hc. apply skip_loop_exact; [done|apply fuel_of_rest]. Qed.

(** Soundness of the whitespace loop: it reads blanks, and stops at none. *)
Lemma skip_whitespace_Ok c c' :
  standing c -> skip_whitespace c = Ok c' ->
  exists w, blank w /\ reads c w c' /\ stops is_whitespace (rest c').
Proof.
  intros Hc. rewrite (skip_whitespace_exact c Hc). intros [= <-].
  destruct (prefix_while_spec is_whitespace (rest c)) as (u & Hl & Hb & Hs).
  destruct (reads_prefix c _ _ Hl) as [Hr Hu].
  exists (prefix_while is_whitespace (rest c)). by rewrite Hu.
Qed.

(** Completeness: over blanks, up to the first other byte. *)
Lemma skip_whitespace_blank c w u :
  standing c -> rest c = w ++ u -> blank w -> stops is_whitespace u ->
  skip_whitespace c = Ok (move c (length w)).
Proof.
  intros Hc Hr Hw Hu. rewrite (skip_whitespace_exact c Hc), Hr.
  by rewrite prefix_while_app.
Qed.

(** * Strings *)

Lemma string_byte b :
  (b =? 34) = false -> (b =? 92) = false -> (32 <=? b) && (b <=? 126) = true ->
  is_profile_byte b = true.
Proof. unfold is_profile_byte. intros -> -> ->. done. Qed.

Lemma string_loop_Ok fuel c c' :
  standing c -> string_loop fuel c = Ok c' ->
  exists s, plain s /\ reads c (s ++ [34]) c'.
Proof.
  revert c. induction fuel as [|fuel IH]; intros c Hc; [done|]. simpl.
  rewrite (advance_rest c Hc). destruct (rest c) as [|b l] eqn:Hr; [done|].
  assert (Hc1 : reads c [b] (move c 1)) by (split; [done|by rewrite rest_move, Hr]).
  destruct (b =? 34) eqn:H34.
  { intros [= <-]. exists []. apply Z.eqb_eq in H34 as ->. split; [constructor|done]. }
  destruct (b =? 92) eqn:H92; [done|].
  destruct ((32 <=? b) && (b <=? 126)) eqn:Hb; [|done]. intros Hl.
  destruct (IH _ (reads_standing _ _ _ Hc Hc1) Hl) as (s & Hs & Hrs).
  exists (b :: s). split; [constructor; [by apply string_byte|done]|].
  exact (reads_app _ _ _ [b] _ Hc1 Hrs).
Qed.

Lemma string_loop_plain fuel c s u :
  standing c -> rest c = (s ++ [34]) ++ u -> plain s -> (length s < fuel)%nat ->
  string_loop fuel c = Ok (move c (S (length s))).
Proof.
  revert fuel c. induction s as [|b s IH]; intros [|fuel] c Hc Hr Hs Hf; simpl in *; try lia.
  - by rewrite (advance_rest c Hc), Hr.
  - rewrite (advance_rest c Hc), Hr. inversion Hs as [|? ? Hb Hs']; subst.
    unfold is_profile_byte in Hb.
    destruct (b =? 34) eqn:H34; [rewrite andb_false_r in Hb; done|].
    destruct (b =? 92) eqn:H92; [rewrite andb_false_r in Hb; done|].
    rewrite !andb_true_r in Hb. rewrite Hb.
    assert (Hc1 : reads c [b] (move c 1)) by (split; [done|by rewrite rest_move, Hr]).
    rewrite (IH fuel _ (reads_standing _ _ _ Hc Hc1)); [by rewrite move_move| |done|lia].
    by rewrite rest_move, Hr.
Qed.

Lemma string_loop_halts fuel c :
  standing c -> (length (rest c) < fuel)%nat -> string_loop fuel c <> Err Diverges.
Proof.
  revert c. induction fuel as [|fuel IH]; intros c Hc Hf; [lia|]. simpl.
  rewrite (advance_rest c Hc). destruct (rest c) as [|b l] eqn:Hr; [done|].
  assert (Hc1 : reads c [b] (move c 1)) by (split; [done|by rewrite rest_move, Hr]).
  repeat case_match; try done. apply IH; [by eapply reads_standing|].
  rewrite rest_move, Hr. simpl in *. rewrite drop_0. lia.
Qed.

(** The bytes between two positions of a document. *)
Lemma get_range_reads c t c' n :
  standing c -> reads c t c' -> (n <= length t)%nat ->
  get_range c.(cu_bytes) c.(cu_position) (c.(cu_position) + n) = Ok (take n t).
Proof.
  intros Hc Hr Hn. pose proof (reads_standing _ _ _ Hc Hr) as [Hp _].
  destruct Hr as [-> Hr]. simpl in Hp. unfold get_range.
  rewrite (proj2 (Nat.leb_le _ _)) by lia. rewrite (proj2 (Nat.leb_le _ _)) by lia. simpl.
  unfold slice. fold (rest c). rewrite Hr.
  replace (cu_position c + n - cu_position c)%nat with n by lia.
  by rewrite take_app_le.
Qed.

Lemma cursor_string_Ok c s c' :
  standing c -> cursor_string c = Ok (s, c') -> plain s /\ reads c (quoted s) c'.
Proof.
  intros Hc. unfold cursor_string. case_bool_decide as Hq; [|done].
  rewrite (advance_rest c Hc). rewrite peek_rest in Hq.
  destruct (rest c) as [|b l] eqn:Hr; [done|]. injection Hq as ->.
  assert (Hc1 : reads c [34] (move c 1)) by (split; [done|by rewrite rest_move, Hr]).
  pose proof (reads_standing _ _ _ Hc Hc1) as Hs1.
  destruct (string_loop _ _) as [c2|] eqn:Hl; [|done].
  destruct (string_loop_Ok _ _ _ Hs1 Hl) as (t & Ht & Hrt).
  assert (Hg : get_range (cu_bytes c2) (cu_position (move c 1)) (cu_position c2 - 1) = Ok t).
  { rewrite (proj1 Hrt). cbn [cu_bytes cu_position move at_position].
    rewrite length_app. simpl length.
    replace (cu_position c + 1 + (length t + 1) - 1)%nat
      with (cu_position (move c 1) + length t)%nat by (simpl; lia).
    change (cu_bytes c) with (cu_bytes (move c 1)).
    rewrite (get_range_reads _ _ _ _ Hs1 Hrt); [|rewrite length_app; lia].
    by rewrite take_app_length. }
  rewrite Hg. intros [= <- <-]. split; [done|].
  exact (reads_app _ _ _ [34] _ Hc1 Hrt).
Qed.

Lemma cursor_string_quoted c s u :
  standing c -> rest c = quoted s ++ u -> plain s ->
  cursor_string c = Ok (s, move c (length (quoted s))).
Proof.
  intros Hc Hr Hs. unfold cursor_string. rewrite peek_rest, bool_decide_true by by rewrite Hr.
  rewrite (advance_rest c Hc), Hr. unfold quoted at 1. cbn [app].
  assert (Hc1 : reads c [34] (move c 1)) by (split; [done|by rewrite rest_move, Hr]).
  pose proof (reads_standing _ _ _ Hc Hc1) as Hs1.
  assert (Hr1 : rest (move c 1) = (s ++ [34]) ++ u) by (rewrite rest_move, Hr; done).
  rewrite (string_loop_plain _ _ s u Hs1 Hr1 Hs).
  2:{ pose proof (fuel_of_rest (move c 1)) as Hf. rewrite Hr1, !length_app in Hf. lia. }
  destruct (reads_prefix _ _ _ Hr1) as [Hrd _].
  assert (Hg := get_range_reads _ _ _ (length s) Hs1 Hrd).
  rewrite take_app_length, length_app in Hg. specialize (Hg ltac:(lia)).
  cbn [cu_bytes cu_position move at_position] in *.
  replace (cu_position c + 1 + S (length s) - 1)%nat
    with (cu_position c + 1 + length s)%nat by lia.
  rewrite Hg. unfold quoted, move, at_position. simpl. rewrite length_app. simpl.
  do 3 f_equal. lia.
Qed.

Lemma cursor_string_halts c : standing c -> cursor_string c <> Err Diverges.
Proof.
  intros Hc. unfold cursor_string. case_match; [|done].
  rewrite (advance_rest c Hc). destruct (rest c) as [|b l] eqn:Hr; [done|].
  assert (Hc1 : reads c [b] (move c 1)) by (split; [done|by rewrite rest_move, Hr]).
  pose proof (string_loop_halts _ _ (reads_standing _ _ _ Hc Hc1) (fuel_of_rest _)) as Hh.
  destruct (string_loop _ _) as [c2|[]]; [|done|done].
  unfold get_range. repeat case_match; congruence.
Qed.

(** * Numbers *)

Lemma number_loop_exact fuel c :
  standing c -> (length (rest c) < fuel)%nat ->
  number_loop fuel c = Ok (move c (length (prefix_while is_number_byte (rest c)))).
Proof.
  revert c. induction fuel as [|fuel IH]; intros c Hc Hf; [lia|]. simpl.
  rewrite peek_rest, (advance_rest c Hc).
  destruct (rest c) as [|b l] eqn:Hr; simpl; [by rewrite move_0|].
  destruct (is_number_byte b); [|by rewrite move_0].
  assert (Hc1 : reads c [b] (move c 1)) by (split; [done|by rewrite rest_move, Hr]).
  rewrite (IH _ (reads_standing _ _ _ Hc Hc1)); rewrite rest_move, Hr; simpl in *;
    [|rewrite drop_0; lia]. by rewrite drop_0, move_move.
Qed.

Lemma cursor_number_exact c :
  standing c ->
  cursor_number c =
    let token := prefix_while is_number_byte (rest c) in
    if (length token =? 0)%nat then Err (Fails VeUnsupportedJsonValue)
    else Ok (token, move c (length token)).
Proof.
  intros Hc. unfold cursor_number. rewrite (number_loop_exact _ _ Hc (fuel_of_rest c)).
  destruct (prefix_while_spec is_number_byte (rest c)) as (u & Hl & _ & _).
  destruct (reads_prefix c _ _ Hl) as [Hr _].
  pose proof (get_range_reads _ _ _ _ Hc Hr (Nat.le_refl _)) as Hg.
  cbn [cu_bytes cu_position move at_position] in *.
  by rewrite Hg, firstn_all.
Qed.

Lemma cursor_number_Ok c token c' :
  standing c -> cursor_number c = Ok (token, c') ->
  value_text (Number token) token /\ reads c token c' /\ stops is_number_byte (rest c').
Proof.
  intros Hc. rewrite (cursor_number_exact c Hc). simpl.
  destruct (prefix_while_spec is_number_byte (rest c)) as (u & Hl & Hb & Hs).
  destruct (reads_prefix c _ _ Hl) as [Hr Hu].
  destruct (Nat.eqb_spec (length (prefix_while is_number_byte (rest c))) 0) as [|Hne]; [done|].
  intros [= <- <-]. rewrite Hu. split; [|done]. constructor; [|done].
  intros He. by rewrite He in Hne.
Qed.

Lemma cursor_number_token c token u :
  standing c -> rest c = token ++ u -> value_text (Number token) token ->
  stops is_number_byte u -> cursor_number c = Ok (token, move c (length token)).
Proof.
  intros Hc Hr Ht Hu. inversion Ht as [|? Hne Hb|]; subst.
  rewrite (cursor_number_exact c Hc), Hr. simpl. rewrite prefix_while_app by done.
  by destruct token.
Qed.

Lemma cursor_number_halts c : standing c -> cursor_number c <> Err Diverges.
Proof. intros Hc. rewrite (cursor_number_exact c Hc). simpl. by case_match. Qed.

(** * The end of the document *)

Lemma cursor_finish_iff c :
  standing c -> cursor_finish c = Ok tt <-> blank (rest c).
Proof.
  intros Hc. unfold cursor_finish. rewrite (skip_whitespace_exact c Hc).
  destruct (prefix_while_spec is_whitespace (rest c)) as (u & Hl & Hb & Hs).
  destruct (reads_prefix c _ _ Hl) as [Hr Hu].
  pose proof (reads_standing _ _ _ Hc Hr) as [Hp _].
  set (c' := move c _) in *. pose proof (length_rest c') as Hlen.
  change (cu_bytes c') with (cu_bytes c) in *. rewrite Hu in Hlen.
  destruct (Nat.eqb_spec (cu_position c') (length (cu_bytes c))) as [He|Hne].
  - split; [|done]. intros _. destruct u; [|simpl in *; lia].
    rewrite app_nil_r in Hl. by rewrite Hl.
  - split; [done|]. intros Hall. exfalso. destruct u as [|b u]; [simpl in *; lia|].
    assert (Hbb : is_whitespace b = true).
    { unfold blank in Hall. rewrite Hl, Forall_app in Hall.
      by destruct Hall as [_ [? ?]%Forall_cons]. }
    by rewrite (Hs b) in Hbb.
Qed.

Lemma cursor_finish_halts c : standing c -> cursor_finish c <> Err Diverges.
Proof. intros Hc. unfold cursor_finish. rewrite (skip_whitespace_exact c Hc). by case_match. Qed.
