(* ===== verification/VerifierParse.v ===== *)
(** Objects of the verdict parser: [cursor_object] accepts exactly the
    object texts of the grammar whose fields the schema of [visit] takes,
    and no loop over a document runs out of fuel. *)

From Stdlib Require Import ZArith Lia.
From stdpp Require Import strings.
From S2P Require Import Prelude AccountingMath ProtocolLayout ProtocolTypes ProtocolCodec ProtocolWire.
From S2P Require Import RemoteState.
From S2P Require Import VerifierState VerifierJwt VerifierGrammar.

(** * Texts *)

Lemma blank_app w1 w2 : blank w1 -> blank w2 -> blank (w1 ++ w2).
Proof. apply Forall_app_2. Qed.

Lemma member_prepend w key v t : blank w -> member_text key v t -> member_text key v (w ++ t).
Proof.
  intros Hw Ht. inversion Ht; subst. rewrite app_assoc.
  constructor; by try apply blank_app.
Qed.

Lemma members_prepend w fs t : blank w -> members_text fs t -> members_text fs (w ++ t).
Proof.
  intros Hw Ht. inversion Ht; subst; rewrite ?app_assoc; rewrite <-?app_assoc.
  - constructor. by apply member_prepend.
  - rewrite app_assoc. constructor; [by apply member_prepend|done].
Qed.

(** A member text is its leading whitespace, then a quote. *)
Lemma member_lead key v t :
  member_text key v t -> exists w t', blank w /\ t = w ++ 34 :: t' /\ member_text key v (34 :: t').
Proof.
  inversion 1; subst. eexists w1, _. split; [done|]. split; [done|].
  apply (member key v []); [constructor|done..].
Qed.

Lemma members_lead fs t :
  members_text fs t -> exists w t', blank w /\ t = w ++ 34 :: t' /\ members_text fs (34 :: t').
Proof.
  inversion 1 as [key v ? Hm|key v ? fs' u Hm Hu]; subst;
    apply member_lead in Hm as (w & t' & Hw & -> & Hm).
  - exists w, t'. split; [done|]. split; [done|]. by constructor.
  - exists w, (t' ++ [44] ++ u). split; [done|]. split; [by rewrite <-app_assoc|].
    by apply (next_member key v (34 :: t')).
Qed.

Lemma value_lead v t :
  value_text v t -> exists b t', t = b :: t' /\ is_whitespace b = false.
Proof.
  intros [s|token Hne Hb|fs t' Ho].
  - by eexists _, _.
  - destruct token as [|b token]; [done|]. exists b, token. split; [done|].
    inversion Hb as [|? ? Hb' _]; subst. unfold is_number_byte, is_ascii_digit in Hb'.
    unfold is_whitespace. bool_to_prop. lia.
  - by inversion Ho; subst; eexists _, _.
Qed.

Lemma stops_head f b l : f b = false -> stops f (b :: l).
Proof. by intros Hb ? [= <-]. Qed.

Lemma stops_value v t u : value_text v t -> stops is_whitespace (t ++ u).
Proof. intros (b & t' & -> & Hb)%value_lead. by apply stops_head. Qed.

Lemma stops_blank w u : blank w -> stops is_number_byte u -> stops is_number_byte (w ++ u).
Proof.
  intros [|b w' Hb _] Hu; [done|]. apply stops_head.
  unfold is_whitespace in Hb. unfold is_number_byte, is_ascii_digit.
  bool_to_prop; lia.
Qed.

(** * Schemas *)

(** One field of a schema: its name, the slot it fills and how a value is
    read into it. *)
Record Slotted (S : Type) := mkSlotted {
  f_name : list Z;
  f_type : Type;
  f_get : S -> option f_type;
  f_reads : Value -> f_type -> Prop
}.

Arguments mkSlotted {S} _ _ _ _.
Arguments f_name {S} _.
Arguments f_type {S} _.
Arguments f_get {S} _ _.
Arguments f_reads {S} _ _ _.

(** The value of a key, the first that names it. *)
Fixpoint found (fs : Fields) (k : list Z) : option Value :=
  match fs with
  | (k', v) :: fs' => if decide (k' = k) then Some v else found fs' k
  | [] => None
  end.

Lemma found_member fs k v : NoDup fs.*1 -> found fs k = Some v <-> (k, v) ∈ fs.
Proof.
  induction fs as [|[k' v'] fs IH]; simpl; intros Hnd; [set_solver|].
  apply NoDup_cons in Hnd as [Hk Hnd]. rewrite elem_of_cons.
  destruct (decide (k' = k)) as [->|Hne].
  - split; [intros [= ->]; by left|]. intros [[= ->]|Hin]; [done|].
    exfalso. apply Hk. apply list_elem_of_fmap. by exists (k, v).
  - rewrite (IH Hnd). split; [by right|]. intros [[= -> ->]|]; done.
Qed.

Section schema.
Context {S : Type} (schema : list (Slotted S)).

(** The fields may be placed into [s]: distinct keys of the schema, into
    empty slots, each value readable. *)
Definition placeable (s : S) (fs : Fields) : Prop :=
  NoDup fs.*1 /\
  forall k v, (k, v) ∈ fs ->
    exists f, f ∈ schema /\ k = f_name f /\ f_get f s = None /\ exists a, f_reads f v a.

(** [s'] is [s] with the fields placed. *)
Definition placed (s : S) (fs : Fields) (s' : S) : Prop :=
  forall f, f ∈ schema ->
    match found fs (f_name f) with
    | Some v => exists a, f_get f s' = Some a /\ f_reads f v a
    | None => f_get f s' = f_get f s
    end.

Definition distinct_names : Prop :=
  forall f g, f ∈ schema -> g ∈ schema -> f_name f = f_name g -> f = g.

Context (Hnames : distinct_names).

Lemma placeable_nil s : placeable s [].
Proof. split; [constructor|]. set_solver. Qed.

Lemma placed_nil s : placed s [] s.
Proof. done. Qed.

Lemma placed_other s k v s1 f :
  placed s [(k, v)] s1 -> f ∈ schema -> k <> f_name f -> f_get f s1 = f_get f s.
Proof. intros Hp Hf Hne. specialize (Hp f Hf). simpl in Hp. by rewrite decide_False in Hp. Qed.

Lemma placed_same s k v s1 f :
  placed s [(k, v)] s1 -> f ∈ schema -> k = f_name f ->
  exists a, f_get f s1 = Some a /\ f_reads f v a.
Proof. intros Hp Hf ->. specialize (Hp f Hf). simpl in Hp. by rewrite decide_True in Hp. Qed.

Lemma placed_cons s k v s1 fs s' :
  k ∉ fs.*1 -> placed s [(k, v)] s1 -> placed s1 fs s' -> placed s ((k, v) :: fs) s'.
Proof.
  intros Hk H1 H2 f Hf. specialize (H2 f Hf). simpl.
  destruct (decide (k = f_name f)) as [->|Hne].
  - destruct (found fs (f_name f)) as [v'|] eqn:Hv; [|rewrite H2; by eapply placed_same].
    exfalso. apply Hk. clear -Hv. induction fs as [|[k' v2] fs IH]; simpl in *; [done|].
    rewrite elem_of_cons. destruct (decide (k' = f_name f)); [by left|right; auto].
  - destruct (found fs (f_name f)); [done|]. rewrite H2. by eapply placed_other.
Qed.

(** Placing a field leaves exactly the other slots open. *)
Lemma placeable_cons s k v s1 fs :
  placed s [(k, v)] s1 ->
  placeable s ((k, v) :: fs) <-> placeable s [(k, v)] /\ placeable s1 fs.
Proof.
  intros Hp. split.
  - intros [Hnd Hall]. simpl in Hnd. apply NoDup_cons in Hnd as [Hk Hnd]. split.
    { split; [apply NoDup_singleton|]. intros k' v' Hin. apply Hall. set_solver. }
    split; [done|]. intros k' v' Hin.
    destruct (Hall k' v') as (f & Hf & -> & Hg & Hr); [set_solver|].
    exists f. split; [done|]. split; [done|]. split; [|done].
    rewrite (placed_other s k v s1 f); [done|done|done|]. intros ->. apply Hk.
    apply list_elem_of_fmap. by exists (f_name f, v').
  - intros [[_ H1] [Hnd Hall]].
    destruct (H1 k v) as (f0 & Hf0 & Hn0 & Hg0 & Hr0); [set_solver|].
    assert (Hk : forall k' v', (k', v') ∈ fs -> k' <> k).
    { intros k' v' Hin ->. destruct (Hall k v' Hin) as (f & Hf & Hn & Hg & _).
      destruct (placed_same s k v s1 f Hp Hf Hn) as (a & Ha & _). congruence. }
    split.
    + simpl. apply NoDup_cons. split; [|done].
      intros [[k' v'] [-> Hin]]%list_elem_of_fmap. by eapply Hk.
    + intros k' v' [[= -> ->]|Hin]%elem_of_cons; [by exists f0|].
      destruct (Hall k' v' Hin) as (f & Hf & -> & Hg & Hr). exists f.
      split; [done|]. split; [done|]. split; [|done].
      rewrite <-Hg. symmetry. apply (placed_other s k v s1); [done|done|].
      intros ->. by eapply Hk.
Qed.

(** One field placed, as a visitor places it. *)
Lemma placed_one s k v s1 f a :
  f ∈ schema -> k = f_name f -> f_get f s = None -> f_reads f v a -> f_get f s1 = Some a ->
  Forall (fun g => k <> f_name g -> f_get g s1 = f_get g s) schema ->
  placeable s [(k, v)] /\ placed s [(k, v)] s1.
Proof.
  intros Hf Hk Hg Hr Hs1 Hother. split.
  - split; [apply NoDup_singleton|]. intros k' v' [= -> ->]%list_elem_of_singleton.
    exists f. repeat (split; [done|]). by exists a.
  - intros g Hg'. simpl. destruct (decide (k = f_name g)) as [He|Hne].
    + assert (g = f) as -> by (apply Hnames; congruence). by exists a.
    + rewrite Forall_forall in Hother. by apply Hother.
Qed.

Lemma placeable_one s k v :
  placeable s [(k, v)] ->
  exists f, f ∈ schema /\ k = f_name f /\ f_get f s = None /\ exists a, f_reads f v a.
Proof. intros [_ Hp]. apply Hp. by apply list_elem_of_singleton. Qed.

(** * Visitors *)

Abbreviation Visitor := (S -> Cursor -> list Z -> ParseResult (S * Cursor)).

(** What an object asks of its visitor: that it reads one value of the
    grammar into the slot of its key, whenever that is possible, and never
    runs out of fuel. *)
Class Visits (visit : Visitor) : Prop := {
  visits_Ok s c key s' c' :
    standing c -> stops is_whitespace (rest c) -> visit s c key = Ok (s', c') ->
    exists v t, value_text v t /\ reads c t c' /\ placeable s [(key, v)] /\ placed s [(key, v)] s';
  visits_complete s c key v t u :
    standing c -> rest c = t ++ u -> value_text v t -> stops is_number_byte u ->
    placeable s [(key, v)] ->
    exists s', visit s c key = Ok (s', move c (length t)) /\ placed s [(key, v)] s';
  visits_halts s c key : standing c -> visit s c key <> Err Diverges
}.

Context (visit : Visitor) `{Hvisits : !Visits visit}.

(** Runs the next call of a parser that succeeded. *)
Ltac parsed H :=
  lazymatch type of H with
  | (match ?m with _ => _ end = Ok _) =>
      let E := fresh "E" in destruct m as [|] eqn:E; [|done]
  end.

Lemma object_field_Ok s c s' c' :
  standing c -> object_field visit s c = Ok (s', c') ->
  exists key v t, member_text key v t /\ reads c t c'
    /\ placeable s [(key, v)] /\ placed s [(key, v)] s'.
Proof.
  intros Hc H. unfold object_field in H. parsed H.
  apply skip_whitespace_Ok in E as (w1 & Hw1 & R1 & _); [|done].
  pose proof (reads_standing _ _ _ Hc R1) as S1. destruct (bool_decide _); [|done].
  parsed H. destruct a0 as [key c2]. apply cursor_string_Ok in E as [Hkey R2]; [|done].
  pose proof (reads_standing _ _ _ S1 R2) as S2. parsed H.
  apply skip_whitespace_Ok in E as (w2 & Hw2 & R3 & _); [|done].
  pose proof (reads_standing _ _ _ S2 R3) as S3. parsed H.
  apply expect_iff in E as R4; [|done]. pose proof (reads_standing _ _ _ S3 R4) as S4. parsed H.
  apply skip_whitespace_Ok in E0 as (w3 & Hw3 & R5 & St5); [|done].
  pose proof (reads_standing _ _ _ S4 R5) as S5. parsed H. destruct a3 as [s1 c5].
  apply visits_Ok in E0 as (v & t & Hv & R6 & Hpl & Hp); [|done..].
  pose proof (reads_standing _ _ _ S5 R6) as S6. parsed H. injection H as <- <-.
  apply skip_whitespace_Ok in E0 as (w4 & Hw4 & R7 & _); [|done].
  exists key, v, (w1 ++ quoted key ++ w2 ++ [58] ++ w3 ++ t ++ w4).
  split; [by constructor|]. split; [|done]. repeat (eapply reads_app; [eassumption|]). done.
Qed.

(** One step of a successful parse over known text. *)
Lemma reads_step c t u :
  standing c -> rest c = t ++ u ->
  standing (move c (length t)) /\ rest (move c (length t)) = u.
Proof.
  intros Hc Hr. destruct (reads_prefix c t u Hr) as [Hrd Hu].
  split; [by eapply reads_standing|done].
Qed.

Lemma expect_step b c u :
  standing c -> rest c = [b] ++ u -> cursor_expect b c = Ok (move c (length [b])).
Proof. intros Hc Hr. apply expect_iff; [done|]. by apply (reads_prefix c [b] u). Qed.

Lemma object_field_complete s c key v t u :
  standing c -> rest c = t ++ u -> member_text key v t ->
  stops is_whitespace u -> stops is_number_byte u -> placeable s [(key, v)] ->
  exists s', object_field visit s c = Ok (s', move c (length t)) /\ placed s [(key, v)] s'.
Proof.
  intros Hc Hr Ht Hws Hnum Hp.
  inversion Ht as [? ? w1 w2 w3 w4 tv Hw1 Hw2 Hw3 Hw4 Hkey Hv]; subst.
  rewrite <-!app_assoc in Hr. unfold object_field.
  rewrite (skip_whitespace_blank _ _ _ Hc Hr Hw1) by by apply stops_head.
  destruct (reads_step _ _ _ Hc Hr) as [S1 R1].
  rewrite peek_rest, bool_decide_true by by rewrite R1.
  rewrite (cursor_string_quoted _ _ _ S1 R1 Hkey).
  destruct (reads_step _ _ _ S1 R1) as [S2 R2].
  rewrite (skip_whitespace_blank _ _ _ S2 R2 Hw2) by by apply stops_head.
  destruct (reads_step _ _ _ S2 R2) as [S3 R3]. rewrite (expect_step _ _ _ S3 R3).
  destruct (reads_step _ _ _ S3 R3) as [S4 R4].
  rewrite (skip_whitespace_blank _ _ _ S4 R4 Hw3) by by eapply stops_value.
  destruct (reads_step _ _ _ S4 R4) as [S5 R5].
  destruct (visits_complete s _ key v tv _ S5 R5 Hv) as (s' & Hvis & Hs');
    [by apply stops_blank|done|].
  rewrite Hvis. destruct (reads_step _ _ _ S5 R5) as [S6 R6].
  rewrite (skip_whitespace_blank _ _ _ S6 R6 Hw4) by done.
  exists s'. split; [|done]. rewrite !move_move. do 3 f_equal.
  rewrite !length_app. simpl. lia.
Qed.

Lemma object_field_halts s c : standing c -> object_field visit s c <> Err Diverges.
Proof.
  intros Hc. unfold object_field. rewrite (skip_whitespace_exact c Hc).
  destruct (skip_whitespace_Ok c _ Hc (skip_whitespace_exact c Hc)) as (w & _ & R1 & _).
  pose proof (reads_standing _ _ _ Hc R1) as S1. set (c1 := move c _) in *.
  destruct (bool_decide _); [|done].
  pose proof (cursor_string_halts c1 S1) as Hh.
  destruct (cursor_string c1) as [[key c2]|[]] eqn:E; [|done|done].
  apply cursor_string_Ok in E as [_ R2]; [|done].
  pose proof (reads_standing _ _ _ S1 R2) as S2. rewrite (skip_whitespace_exact c2 S2).
  destruct (skip_whitespace_Ok c2 _ S2 (skip_whitespace_exact c2 S2)) as (w2 & _ & R3 & _).
  pose proof (reads_standing _ _ _ S2 R3) as S3. set (c3 := move c2 _) in *.
  unfold cursor_expect. rewrite (advance_rest c3 S3).
  destruct (rest c3) as [|b l] eqn:Hb; [done|].
  assert (R4 : reads c3 [b] (move c3 1)) by (split; [done|by rewrite rest_move, Hb]).
  destruct (b =? 58); [|done]. pose proof (reads_standing _ _ _ S3 R4) as S4.
  rewrite (skip_whitespace_exact _ S4).
  destruct (skip_whitespace_Ok _ _ S4 (skip_whitespace_exact _ S4)) as (w4 & _ & R5 & St5).
  pose proof (reads_standing _ _ _ S4 R5) as S5. set (c5 := move (move c3 1) _) in *.
  pose proof (visits_halts s c5 key S5) as Hv.
  destruct (visit s c5 key) as [[s' c6]|[]] eqn:E; [|done|done].
  apply visits_Ok in E as (v & t & _ & R6 & _); [|done..].
  by rewrite (skip_whitespace_exact _ (reads_standing _ _ _ S5 R6)).
Qed.

(** * The loop over the members *)

Lemma object_loop_Ok fuel s c s' c' :
  standing c -> object_loop visit fuel s c = Ok (s', c') ->
  exists fs t, members_text fs t /\ reads c (t ++ [125]) c' /\ placeable s fs /\ placed s fs s'.
Proof.
  revert s c. induction fuel as [|fuel IH]; intros s c Hc H; [done|]. simpl in H.
  destruct (object_field visit s c) as [[s1 c1]|] eqn:E; [|done].
  apply object_field_Ok in E as (key & v & t & Ht & R1 & Hpl & Hp); [|done].
  pose proof (reads_standing _ _ _ Hc R1) as S1. rewrite (advance_rest c1 S1) in H.
  destruct (rest c1) as [|b l] eqn:Hb; [done|].
  assert (R2 : reads c1 [b] (move c1 1)) by (split; [done|by rewrite rest_move, Hb]).
  destruct (b =? 44) eqn:H44.
  - apply Z.eqb_eq in H44 as ->.
    destruct (IH _ _ (reads_standing _ _ _ S1 R2) H) as (fs & u & Hu & R3 & Hpl' & Hp').
    exists ((key, v) :: fs), (t ++ [44] ++ u). split; [by constructor|].
    assert (Hall : placeable s ((key, v) :: fs)) by (by eapply placeable_cons).
    split; [|split; [done|]].
    + rewrite <-!app_assoc. by repeat (eapply reads_app; [eassumption|]).
    + destruct Hall as [Hnd _]. simpl in Hnd. apply NoDup_cons in Hnd as [Hk _].
      by eapply placed_cons.
  - destruct (b =? 125) eqn:H125; [|done]. apply Z.eqb_eq in H125 as ->.
    injection H as <- <-. exists [(key, v)], t. split; [by constructor|].
    split; [by eapply reads_app|done].
Qed.

Lemma object_loop_complete fs fuel s c t u :
  standing c -> rest c = t ++ [125] ++ u -> members_text fs t -> (length t < fuel)%nat ->
  placeable s fs ->
  exists s', object_loop visit fuel s c = Ok (s', move c (length t + 1)) /\ placed s fs s'.
Proof.
  revert fuel s c t. induction fs as [|[key v] fs IH]; intros fuel s c t Hc Hr Ht Hf Hp;
    [inversion Ht|]. destruct fuel as [|fuel]; [lia|]. simpl.
  inversion Ht as [? ? ? Hm|? ? t1 ? t2 Hm Hms]; subst.
  - destruct (object_field_complete s c key v t _ Hc Hr Hm) as (s' & E & Hs');
      [by apply stops_head|by apply stops_head|done|].
    rewrite E. destruct (reads_step _ _ _ Hc Hr) as [S1 R1].
    rewrite (advance_rest _ S1), R1. exists s'. by rewrite move_move.
  - rewrite <-!app_assoc in Hr.
    assert (Hp1 : placeable s [(key, v)]).
    { destruct Hp as [_ Hall]. split; [apply NoDup_singleton|]. intros. apply Hall. set_solver. }
    destruct (object_field_complete s c key v t1 _ Hc Hr Hm) as (s1 & E & Hs1);
      [by apply stops_head|by apply stops_head|done|].
    rewrite E. destruct (reads_step _ _ _ Hc Hr) as [S1 R1].
    rewrite (advance_rest _ S1), R1. destruct (reads_step _ _ _ S1 R1) as [S2 R2].
    rewrite !length_app in Hf. simpl in Hf.
    apply (placeable_cons _ _ _ _ _ Hs1) in Hp as Hp'. destruct Hp' as [_ Hp'].
    destruct (IH fuel s1 _ t2 S2 R2 Hms ltac:(lia) Hp') as (s' & E' & Hs').
    cbn [app length] in E' |- *. change (44 =? 44) with true. cbv iota.
    rewrite E'. exists s'. split.
    + rewrite !move_move, !length_app. simpl. do 3 f_equal. lia.
    + destruct Hp as [Hnd _]. simpl in Hnd. apply NoDup_cons in Hnd as [Hk _].
      by eapply placed_cons.
Qed.

Lemma object_loop_halts fuel s c :
  standing c -> (length (rest c) < fuel)%nat -> object_loop visit fuel s c <> Err Diverges.
Proof.
  revert s c. induction fuel as [|fuel IH]; intros s c Hc Hf; [lia|]. simpl.
  pose proof (object_field_halts s c Hc) as Hh.
  destruct (object_field visit s c) as [[s1 c1]|[]] eqn:E; [|done|done].
  apply object_field_Ok in E as (key & v & t & Ht & R1 & _); [|done].
  pose proof (reads_standing _ _ _ Hc R1) as S1. rewrite (advance_rest c1 S1).
  destruct (rest c1) as [|b l] eqn:Hb; [done|].
  assert (R2 : reads c1 [b] (move c1 1)) by (split; [done|by rewrite rest_move, Hb]).
  repeat case_match; try done. apply IH; [by eapply reads_standing|].
  apply reads_length in R1, R2. simpl in *. lia.
Qed.

(** * Objects *)

Lemma cursor_object_Ok s c s' c' :
  standing c -> cursor_object visit s c = Ok (s', c') ->
  exists w fs t, blank w /\ object_text fs t /\ reads c (w ++ t) c'
    /\ placeable s fs /\ placed s fs s'.
Proof.
  intros Hc H. unfold cursor_object in H. parsed H.
  apply skip_whitespace_Ok in E as (w & Hw & R1 & _); [|done].
  pose proof (reads_standing _ _ _ Hc R1) as S1. parsed H.
  apply expect_iff in E as R2; [|done]. pose proof (reads_standing _ _ _ S1 R2) as S2. parsed H.
  apply skip_whitespace_Ok in E0 as (w2 & Hw2 & R3 & _); [|done].
  pose proof (reads_standing _ _ _ S2 R3) as S3. case_bool_decide as Hq.
  - rewrite (advance_rest _ S3) in H. rewrite peek_rest in Hq.
    destruct (rest a1) as [|b l] eqn:Hb; [done|]. injection Hq as ->. injection H as <- <-.
    exists w, [], ([123] ++ w2 ++ [125]). split; [done|]. split; [by constructor|].
    split; [|split; [apply placeable_nil|done]].
    repeat (eapply reads_app; [eassumption|]). split; [done|by rewrite rest_move, Hb].
  - apply object_loop_Ok in H as (fs & t & Ht & R4 & Hpl); [|done].
    exists w, fs, ([123] ++ (w2 ++ t) ++ [125]). split; [done|].
    split; [constructor; by apply members_prepend|]. split; [|done].
    rewrite <-!app_assoc. by repeat (eapply reads_app; [eassumption|]).
Qed.

Lemma cursor_object_complete s c w fs t u :
  standing c -> rest c = w ++ t ++ u -> blank w -> object_text fs t -> placeable s fs ->
  exists s', cursor_object visit s c = Ok (s', move c (length w + length t)) /\ placed s fs s'.
Proof.
  intros Hc Hr Hw Ht Hp. unfold cursor_object.
  rewrite (skip_whitespace_blank _ _ _ Hc Hr Hw).
  2:{ inversion Ht; by apply stops_head. }
  destruct (reads_step _ _ _ Hc Hr) as [S1 R1].
  inversion Ht as [w2 Hw2|fs' t2 Hms]; subst; rewrite <-!app_assoc in R1;
    rewrite (expect_step _ _ _ S1 R1); destruct (reads_step _ _ _ S1 R1) as [S2 R2].
  - rewrite (skip_whitespace_blank _ _ _ S2 R2 Hw2) by by apply stops_head.
    destruct (reads_step _ _ _ S2 R2) as [S3 R3].
    rewrite peek_rest, R3, (advance_rest _ S3), R3. simpl.
    exists s. split; [|done]. rewrite !move_move, length_app. simpl. do 3 f_equal; lia.
  - apply members_lead in Hms as (w2 & t3 & Hw2 & -> & Hms).
    rewrite <-app_assoc in R2.
    rewrite (skip_whitespace_blank _ _ _ S2 R2 Hw2) by by apply stops_head.
    destruct (reads_step _ _ _ S2 R2) as [S3 R3].
    rewrite peek_rest, bool_decide_false by by rewrite R3.
    set (c3 := move _ (length w2)) in *.
    destruct (object_loop_complete fs (fuel_of c3) s _ _ u S3 R3 Hms) as (s' & E & Hs');
      [pose proof (fuel_of_rest c3) as Hf; rewrite R3, !length_app in Hf; lia|done|].
    rewrite E. exists s'. split; [|done]. unfold c3.
    rewrite !move_move. simpl. rewrite !length_app. simpl. rewrite ?length_app. simpl. do 3 f_equal. lia.
Qed.

Lemma cursor_object_halts s c : standing c -> cursor_object visit s c <> Err Diverges.
Proof.
  intros Hc. unfold cursor_object. rewrite (skip_whitespace_exact c Hc).
  destruct (skip_whitespace_Ok c _ Hc (skip_whitespace_exact c Hc)) as (w & _ & R1 & _).
  pose proof (reads_standing _ _ _ Hc R1) as S1. set (c1 := move c _) in *.
  unfold cursor_expect. rewrite (advance_rest c1 S1).
  destruct (rest c1) as [|b l] eqn:Hb; [done|].
  assert (R2 : reads c1 [b] (move c1 1)) by (split; [done|by rewrite rest_move, Hb]).
  pose proof (reads_standing _ _ _ S1 R2) as S2. destruct (b =? 123); [|done].
  rewrite (skip_whitespace_exact _ S2).
  destruct (skip_whitespace_Ok _ _ S2 (skip_whitespace_exact _ S2)) as (w2 & _ & R3 & _).
  pose proof (reads_standing _ _ _ S2 R3) as S3. set (c3 := move (move c1 1) _) in *.
  case_match.
  - rewrite (advance_rest _ S3). by destruct (rest c3).
  - apply object_loop_halts; [done|apply fuel_of_rest].
Qed.

End schema.
