(* ===== verification/VerifierNumbers.v ===== *)
(** The numbers of a verdict: the timestamp and the amount parsers of
    [jwt.rs] read exactly the decimal numerals of the profile. *)

From Stdlib Require Import ZArith Lia.
From stdpp Require Import strings.
From S2P Require Import Prelude AccountingMath ProtocolLayout ProtocolTypes ProtocolCodec ProtocolWire.
From S2P Require Import RemoteState.
From S2P Require Import VerifierState VerifierJwt.

(** * Reference numerals *)

(** The number a numeral denotes. *)
Definition decimal (digits : list Z) : Z :=
  foldl (fun value digit => 10 * value + (digit - 48)) 0 digits.

Definition digits_of (l : list Z) : Prop :=
  l <> [] /\ Forall (fun b => is_ascii_digit b = true) l.

(** A positive integer, no sign, no leading zero, up to year 9999. *)
Definition timestamp_text (token : list Z) (v : Z) : Prop :=
  digits_of token /\ head token <> Some 48 /\ (length token <= MAX_TIMESTAMP_DIGITS)%nat
  /\ v = decimal token /\ v <= MAX_TIMESTAMP.

(** A decimal of at most six fractional digits, in millionths. *)
Definition amount_text (token : list Z) (v : Z) : Prop :=
  exists integer, digits_of integer
    /\ (length integer <= MAX_AMOUNT_INTEGER_DIGITS)%nat
    /\ (head integer = Some 48 -> length integer = 1%nat)
    /\ ((token = integer /\ v = decimal integer * AMOUNT_SCALE)
        \/ exists fraction, token = integer ++ [46] ++ fraction /\ digits_of fraction
             /\ (length fraction <= AMOUNT_SCALE_DIGITS)%nat
             /\ v = decimal integer * AMOUNT_SCALE
                    + decimal fraction * 10 ^ Z.of_nat (AMOUNT_SCALE_DIGITS - length fraction)).

(** * Digits *)

Lemma digit_range b : is_ascii_digit b = true -> 48 <= b <= 57.
Proof. unfold is_ascii_digit. intros. bool_to_prop. lia. Qed.

Definition decimal_from (acc : Z) (digits : list Z) : Z :=
  foldl (fun value digit => 10 * value + (digit - 48)) acc digits.

Lemma decimal_from_bounds acc l :
  0 <= acc -> Forall (fun b => is_ascii_digit b = true) l ->
  acc * 10 ^ Z.of_nat (length l) <= decimal_from acc l < (acc + 1) * 10 ^ Z.of_nat (length l).
Proof.
  intros Hacc Hl. revert acc Hacc. unfold decimal_from.
  induction Hl as [|b l Hb Hl IH]; intros acc Hacc; cbn [foldl length]; [simpl; lia|].
  apply digit_range in Hb.
  specialize (IH (10 * acc + (b - 48)) ltac:(lia)).
  rewrite Nat2Z.inj_succ, Z.pow_succ_r by lia.
  assert (0 < 10 ^ Z.of_nat (length l)) by (apply Z.pow_pos_nonneg; lia). nia.
Qed.

Lemma decimal_bounds l n :
  Forall (fun b => is_ascii_digit b = true) l -> (length l <= n)%nat ->
  0 <= decimal l < 10 ^ Z.of_nat n.
Proof.
  intros Hl Hn. pose proof (decimal_from_bounds 0 l ltac:(lia) Hl) as Hb.
  unfold decimal_from in Hb. fold (decimal l) in Hb.
  assert (10 ^ Z.of_nat (length l) <= 10 ^ Z.of_nat n) by (apply Z.pow_le_mono_r; lia). lia.
Qed.

Lemma digit_step acc b v :
  0 <= acc ->
  (fail_if negb (is_ascii_digit b) with Fails VeInvalidNumber;
   let? scaled := ok_or (checked_mul u64_max acc 10) (Fails VeInvalidNumber) in
   ok_or (checked_add u64_max scaled (b - 48)) (Fails VeInvalidNumber)) = Ok v <->
  is_ascii_digit b = true /\ v = 10 * acc + (b - 48) /\ v <= u64_max.
Proof.
  intros Hacc. destruct (is_ascii_digit b) eqn:Hb; simpl; [|naive_solver].
  apply digit_range in Hb. unfold checked_mul.
  destruct (Z.leb_spec (acc * 10) u64_max); simpl.
  - rewrite ok_or_Ok, checked_add_Some. split; intros; naive_solver lia.
  - split; [done|]. intros (_ & -> & Hle). lia.
Qed.

Lemma digits_fold_iff l acc v :
  0 <= acc <= u64_max ->
  try_fold (fun value digit =>
      fail_if negb (is_ascii_digit digit) with Fails VeInvalidNumber;
      let? scaled := ok_or (checked_mul u64_max value 10) (Fails VeInvalidNumber) in
      ok_or (checked_add u64_max scaled (digit - 48)) (Fails VeInvalidNumber)) acc l = Ok v <->
  Forall (fun b => is_ascii_digit b = true) l /\ v = decimal_from acc l /\ v <= u64_max.
Proof.
  revert acc. induction l as [|b l IH]; intros acc Hacc.
  { cbn. split; [intros [= <-]; split; [constructor|split; [done|lia]]|]. by intros (_ & -> & _). }
  cbn [try_fold]. rewrite Forall_cons. split.
  - intros H. match type of H with (match ?m with _ => _ end = _) => destruct m as [w|] eqn:E end;
      [|done]. apply digit_step in E as (Hb & Hw & Hle); [|lia].
    pose proof (digit_range b Hb).
    apply IH in H as (Hl & -> & Hv); [|lia]. by subst w.
  - intros ([Hb Hl] & -> & Hv).
    assert (Hr := decimal_from_bounds (10 * acc + (b - 48)) l).
    pose proof (digit_range b Hb). specialize (Hr ltac:(lia) Hl). unfold decimal_from in Hv, Hr. cbn [foldl] in Hv.
    assert (0 < 10 ^ Z.of_nat (length l)) by (apply Z.pow_pos_nonneg; lia).
    rewrite (proj2 (digit_step acc b (10 * acc + (b - 48)) ltac:(lia))); [|split; [done|split; [done|nia]]].
    apply IH; [nia|]. done.
Qed.

Lemma parse_digits_iff l v :
  parse_digits l = Ok v <-> digits_of l /\ v = decimal l /\ v <= u64_max.
Proof.
  unfold parse_digits, digits_of. destruct l as [|b l]; [simpl; naive_solver|].
  cbn [length Nat.eqb]. rewrite digits_fold_iff by (unfold u64_max; lia).
  unfold decimal_from. fold (decimal (b :: l)). naive_solver.
Qed.

(** A numeral short enough for [u64] always parses. *)
Lemma parse_digits_short l n :
  digits_of l -> (length l <= n)%nat -> 10 ^ Z.of_nat n <= u64_max -> parse_digits l = Ok (decimal l).
Proof.
  intros Hd Hn Hm. apply parse_digits_iff. split; [done|]. split; [done|].
  destruct Hd as [_ Hl]. pose proof (decimal_bounds l n Hl Hn). lia.
Qed.

Lemma parse_digits_halts l : parse_digits l <> Err Diverges.
Proof.
  unfold parse_digits. destruct (length l =? 0)%nat; [done|]. generalize 0.
  induction l as [|b l IH]; intros acc; cbn [try_fold]; [done|].
  destruct (negb _); [done|]. destruct (checked_mul _ _ _); [|done]. simpl.
  destruct (checked_add _ _ _); [apply IH|done].
Qed.

(** * Timestamps *)

Lemma parse_timestamp_iff token v : parse_timestamp token = Ok v <-> timestamp_text token v.
Proof.
  unfold parse_timestamp, timestamp_text. split.
  - intros H.
    destruct (_ || _) eqn:E1 in H; [done|].
    destruct (parse_digits token) as [w|] eqn:E2; [|done].
    destruct (w <=? i64_max) eqn:E3; [|done].
    destruct (_ || _) eqn:E4 in H; [done|]. injection H as <-.
    apply parse_digits_iff in E2 as (Hd & -> & _).
    apply orb_false_iff in E1 as [Hl%Nat.ltb_ge Hh]. bool_to_prop. done.
  - intros (Hd & Hh & Hl & -> & Hm).
    rewrite (proj2 (Nat.ltb_ge _ _)) by done. rewrite bool_decide_false by done. simpl.
    rewrite (parse_digits_short token 12) by (done || (unfold u64_max; lia)).
    unfold MAX_TIMESTAMP in *. rewrite (proj2 (Z.leb_le _ _)) by (unfold i64_max; lia).
    assert (0 < decimal token).
    { destruct Hd as [Hne Hd]. destruct token as [|b token]; [done|].
      apply Forall_cons in Hd as [Hb Hd]. apply digit_range in Hb.
      assert (b <> 48) by (intros ->; done).
      pose proof (decimal_from_bounds (b - 48) token ltac:(lia) Hd) as Hb'.
      assert (He : decimal (b :: token) = decimal_from (b - 48) token) by done. rewrite He.
      assert (0 < 10 ^ Z.of_nat (length token)) by (apply Z.pow_pos_nonneg; lia). nia. }
    rewrite (proj2 (Z.eqb_neq _ _)) by lia. rewrite (proj2 (Z.ltb_ge _ _)) by lia. done.
Qed.

Lemma parse_timestamp_halts token : parse_timestamp token <> Err Diverges.
Proof.
  unfold parse_timestamp. pose proof (parse_digits_halts token).
  repeat case_match; congruence.
Qed.

(** * Amounts *)

Lemma split_once_spec sep l :
  match split_once sep l with
  | (before, None) => before = l
  | (before, Some after) => l = before ++ [sep] ++ after
  end.
Proof.
  induction l as [|b l IH]; simpl; [done|]. destruct (Z.eqb_spec b sep) as [->|Hne]; [done|].
  destruct (split_once sep l) as [before [after|]]; simpl in *; by subst.
Qed.

Lemma split_once_none sep l : Forall (fun b => b <> sep) l -> split_once sep l = (l, None).
Proof.
  induction 1 as [|b l Hb Hl IH]; simpl; [done|]. by rewrite (proj2 (Z.eqb_neq _ _)), IH.
Qed.

Lemma split_once_some sep l r :
  Forall (fun b => b <> sep) l -> split_once sep (l ++ [sep] ++ r) = (l, Some r).
Proof.
  induction 1 as [|b l Hb Hl IH]; simpl in *; [by rewrite Z.eqb_refl|].
  by rewrite (proj2 (Z.eqb_neq _ _)), IH.
Qed.

Lemma digits_no_dot l : Forall (fun b => is_ascii_digit b = true) l -> Forall (fun b => b <> 46) l.
Proof.
  intros Hl. eapply Forall_impl; [exact Hl|]. intros b Hb. simpl in Hb. apply digit_range in Hb. lia.
Qed.

(** The part after the dot, in millionths; none at all is zero. *)
Definition fraction_micros (fraction : option (list Z)) : ParseResult Z :=
  match fraction with
  | None => Ok 0
  | Some digits =>
      fail_if (AMOUNT_SCALE_DIGITS <? length digits)%nat with Fails VeInvalidNumber;
      let padding := (AMOUNT_SCALE_DIGITS - length digits)%nat in
      let? scale := ok_or (checked_pow u64_max 10 padding) (Fails VeInvalidNumber) in
      let? value := parse_digits digits in
      ok_or (checked_mul u64_max value scale) (Fails VeInvalidNumber)
  end.

Lemma fraction_micros_iff f v :
  fraction_micros f = Ok v <->
  match f with
  | None => v = 0
  | Some digits => digits_of digits /\ (length digits <= AMOUNT_SCALE_DIGITS)%nat
      /\ v = decimal digits * 10 ^ Z.of_nat (AMOUNT_SCALE_DIGITS - length digits)
  end.
Proof.
  destruct f as [l|]; simpl; [|naive_solver]. unfold AMOUNT_SCALE_DIGITS.
  destruct (Nat.ltb_spec 6 (length l)) as [Hlt|Hle]; [split; [done|intros (_ & ? & _); lia]|].
  assert (Hp : checked_pow u64_max 10 (6 - length l) = Some (10 ^ Z.of_nat (6 - length l))).
  { unfold checked_pow. rewrite (proj2 (Z.leb_le _ _)); [done|].
    assert (10 ^ Z.of_nat (6 - length l) <= 10 ^ 6) by (apply Z.pow_le_mono_r; lia).
    unfold u64_max. lia. }
  rewrite Hp. cbn [ok_or].
  assert (Hm : forall w, digits_of l -> w = decimal l ->
    checked_mul u64_max w (10 ^ Z.of_nat (6 - length l)) = Some (w * 10 ^ Z.of_nat (6 - length l))).
  { intros w [_ Hl] ->. unfold checked_mul. rewrite (proj2 (Z.leb_le _ _)); [done|].
    pose proof (decimal_bounds l 6 Hl Hle).
    assert (0 < 10 ^ Z.of_nat (6 - length l) <= 10 ^ 6)
      by (split; [apply Z.pow_pos_nonneg|apply Z.pow_le_mono_r]; lia).
    unfold u64_max. nia. }
  split.
  - intros H. destruct (parse_digits l) as [w|] eqn:E; [|done].
    apply parse_digits_iff in E as (Hd & Hw & _). rewrite (Hm w Hd Hw) in H.
    injection H as <-. by subst w.
  - intros (Hd & _ & ->).
    rewrite (parse_digits_short l 6) by (done || (unfold u64_max; lia)). by rewrite Hm.
Qed.

Lemma amount_unfold token :
  parse_amount_micros token =
  let '(integer, fraction) := split_once 46 token in
  let leading_zero := (1 <? length integer)%nat && bool_decide (head integer = Some 48) in
  fail_if (MAX_AMOUNT_INTEGER_DIGITS <? length integer)%nat || leading_zero
    with Fails VeInvalidNumber;
  let? digits := parse_digits integer in
  let? whole := ok_or (checked_mul u64_max digits AMOUNT_SCALE) (Fails VeInvalidNumber) in
  let? micros := fraction_micros fraction in
  ok_or (checked_add u64_max whole micros) (Fails VeInvalidNumber).
Proof. done. Qed.

(** What the split parts must be, and the value they give. *)
Lemma parse_amount_parts token integer fraction v :
  split_once 46 token = (integer, fraction) ->
  parse_amount_micros token = Ok v <->
  digits_of integer /\ (length integer <= MAX_AMOUNT_INTEGER_DIGITS)%nat
  /\ (head integer = Some 48 -> length integer = 1%nat)
  /\ exists micros, fraction_micros fraction = Ok micros
     /\ v = decimal integer * AMOUNT_SCALE + micros.
Proof.
  intros Hs. rewrite amount_unfold, Hs. cbv zeta beta iota.
  destruct (Nat.ltb_spec MAX_AMOUNT_INTEGER_DIGITS (length integer)) as [Hlt|Hle];
    simpl; [split; [done|lia]|].
  destruct (parse_digits integer) as [w|] eqn:E.
  2:{ split; [by repeat case_match|]. intros (Hd & Hl & _).
      rewrite (parse_digits_short integer 13) in E
        by (done || (unfold MAX_AMOUNT_INTEGER_DIGITS, u64_max in *; lia)). done. }
  apply parse_digits_iff in E as (Hd & -> & _).
  pose proof (decimal_bounds integer 13 (proj2 Hd) Hle) as Hb.
  unfold checked_mul, AMOUNT_SCALE. rewrite (proj2 (Z.leb_le (decimal integer * 1000000) _)) by (unfold u64_max; lia).
  cbn [ok_or].
  assert (Hz : (1 <? length integer)%nat && bool_decide (head integer = Some 48) = false <->
               (head integer = Some 48 -> length integer = 1%nat)).
  { rewrite andb_false_iff, Nat.ltb_ge, bool_decide_eq_false.
    destruct Hd as [Hne _]. destruct integer as [|b l]; [done|]. simpl. split; [naive_solver lia|].
    intros Hi. destruct (decide (b = 48)) as [->|]; [left; rewrite Hi; auto|right; congruence]. }
  destruct ((1 <? length integer)%nat && bool_decide _).
  { split; [done|]. intros (_ & _ & Hh & _). by apply Hz in Hh. }
  assert (Hh := proj1 Hz eq_refl).
  destruct (fraction_micros fraction) as [micros|] eqn:Hf; [|split; [done|naive_solver]].
  assert (Hmic : 0 <= micros <= 10 ^ 12).
  { apply fraction_micros_iff in Hf. destruct fraction as [l|]; [|lia].
    destruct Hf as ([_ Hl] & Hlen & ->). pose proof (decimal_bounds l 6 Hl Hlen).
    assert (0 < 10 ^ Z.of_nat (AMOUNT_SCALE_DIGITS - length l) <= 10 ^ 6)
      by (split; [apply Z.pow_pos_nonneg|apply Z.pow_le_mono_r]; unfold AMOUNT_SCALE_DIGITS; lia).
    nia. }
  rewrite ok_or_Ok, checked_add_Some. split.
  - intros [-> _]. do 3 (split; [done|]). by eexists.
  - intros (_ & _ & _ & m & [= <-] & ->). split; [done|].
    change (10 ^ Z.of_nat 13) with 10000000000000 in Hb. unfold u64_max. lia.
Qed.

Lemma parse_amount_iff token v : parse_amount_micros token = Ok v <-> amount_text token v.
Proof.
  destruct (split_once 46 token) as [integer fraction] eqn:Hs.
  pose proof (split_once_spec 46 token) as Ht. rewrite Hs in Ht.
  rewrite (parse_amount_parts _ _ _ _ Hs). unfold amount_text. split.
  - intros (Hd & Hl & Hh & micros & Hf & ->). exists integer. do 3 (split; [done|]).
    apply fraction_micros_iff in Hf. destruct fraction as [l|]; subst.
    + right. exists l. destruct Hf as (? & ? & ->). done.
    + left. split; [done|lia].
  - intros (i & Hd & Hl & Hh & Hcases).
    assert (Hnd := digits_no_dot _ (proj2 Hd)).
    destruct Hcases as [[-> ->]|(l & -> & Hdl & Hll & ->)].
    + rewrite (split_once_none _ _ Hnd) in Hs. injection Hs as <- <-.
      do 3 (split; [done|]). exists 0. split; [done|lia].
    + rewrite (split_once_some _ _ _ Hnd) in Hs. injection Hs as <- <-.
      do 3 (split; [done|]). eexists. split; [by apply fraction_micros_iff|done].
Qed.

Lemma parse_amount_halts token : parse_amount_micros token <> Err Diverges.
Proof.
  rewrite amount_unfold. destruct (split_once 46 token) as [integer fraction].
  pose proof (parse_digits_halts integer).
  assert (fraction_micros fraction <> Err Diverges).
  { destruct fraction as [l|]; simpl; [|done]. pose proof (parse_digits_halts l).
    unfold ok_or. repeat case_match; congruence. }
  unfold ok_or. repeat case_match; congruence.
Qed.
