(* ===== verification/VerifierClaims.v ===== *)
(** Headers and claims: [parse_header] and [parse_claims] accept exactly the
    documents that spell them, and always halt. *)

From Stdlib Require Import ZArith Lia.
From stdpp Require Import strings.
From S2P Require Import Prelude AccountingMath ProtocolLayout ProtocolTypes ProtocolCodec ProtocolWire.
From S2P Require Import RemoteState.
From S2P Require Import VerifierState VerifierJwt VerifierGrammar VerifierParse VerifierNumbers.

(** * What a document spells *)

Definition text_is (v : Value) (s : list Z) : Prop := v = Text s.

Definition timestamp_is (v : Value) (x : Z) : Prop :=
  exists token, v = Number token /\ timestamp_text token x.

Definition amount_is (v : Value) (x : Z) : Prop :=
  exists token, v = Number token /\ amount_text token x.

(** The fields give the key [name] a value that means [a]. *)
Definition spells {A} (fs : Fields) (name : string) (means : Value -> A -> Prop) (a : A) : Prop :=
  exists v, (byte_string name, v) ∈ fs /\ means v a.

(** Each key at most once, and no other than these. *)
Definition keyed (fs : Fields) (names : list string) : Prop :=
  NoDup fs.*1 /\ forall key, key ∈ fs.*1 -> key ∈ byte_string <$> names.

Definition within (max : nat) (s : list Z) : Prop := s <> [] /\ (length s <= max)%nat.

Definition request_keys : list string :=
  ["agent"; "amount"; "currency"; "recipient"; "category"]%string.

Definition request_spelled (fs : Fields) (r : Request) : Prop :=
  keyed fs request_keys
  /\ spells fs "agent" text_is r.(rq_agent) /\ within MAX_AGENT_LEN r.(rq_agent)
  /\ spells fs "amount" amount_is r.(rq_amount_micros)
  /\ spells fs "currency" text_is r.(rq_currency) /\ within MAX_CURRENCY_LEN r.(rq_currency)
  /\ spells fs "recipient" text_is r.(rq_recipient) /\ within MAX_RECIPIENT_LEN r.(rq_recipient)
  /\ spells fs "category" text_is r.(rq_category) /\ within MAX_CATEGORY_LEN r.(rq_category).

Definition request_is (v : Value) (r : Request) : Prop :=
  exists fs, v = Object fs /\ request_spelled fs r.

Definition claim_keys : list string :=
  ["iss"; "jti"; "iat"; "exp"; "verdict"; "mandate"; "policy_version"; "nonce"; "request"]%string.

Definition claims_spelled (fs : Fields) (c : Claims) : Prop :=
  keyed fs claim_keys
  /\ spells fs "iss" text_is c.(cl_iss)
  /\ spells fs "jti" text_is c.(cl_jti) /\ within MAX_JTI_LEN c.(cl_jti)
  /\ spells fs "iat" timestamp_is c.(cl_iat)
  /\ spells fs "exp" timestamp_is c.(cl_exp)
  /\ spells fs "verdict" text_is c.(cl_verdict)
  /\ spells fs "mandate" text_is c.(cl_mandate) /\ within MAX_MANDATE_LEN c.(cl_mandate)
  /\ spells fs "policy_version" text_is c.(cl_policy_version)
  /\ within MAX_POLICY_LEN c.(cl_policy_version)
  /\ spells fs "nonce" text_is c.(cl_nonce) /\ within MAX_NONCE_LEN c.(cl_nonce)
  /\ spells fs "request" request_is c.(cl_request).

Definition header_keys : list string := ["alg"; "kid"; "typ"]%string.

Definition header_spelled (fs : Fields) (h : JwtHeader) : Prop :=
  keyed fs header_keys
  /\ spells fs "alg" text_is (byte_string "ES256")
  /\ spells fs "kid" text_is h.(jh_kid) /\ within MAX_KID_LEN h.(jh_kid)
  /\ forall v, (byte_string "typ", v) ∈ fs -> text_is v (byte_string "JWT").

(** * Readers *)

(** A routine that reads one value of the grammar, by its meaning. *)
Class Reader {A} (read : Cursor -> ParseResult (A * Cursor)) (means : Value -> A -> Prop) : Prop := {
  reader_Ok c a c' :
    standing c -> stops is_whitespace (rest c) -> read c = Ok (a, c') ->
    exists v t, value_text v t /\ reads c t c' /\ means v a;
  reader_complete c v t u a :
    standing c -> rest c = t ++ u -> value_text v t -> stops is_number_byte u -> means v a ->
    read c = Ok (a, move c (length t));
  reader_halts c : standing c -> read c <> Err Diverges
}.

#[global] Instance string_reader : Reader cursor_string text_is.
Proof.
  split.
  - intros c a c' Hc _ H. apply cursor_string_Ok in H as [Ha Hr]; [|done].
    exists (Text a), (quoted a). split; [by constructor|done].
  - intros c v t u a Hc Hr Hv _ ->. inversion Hv; subst. by eapply cursor_string_quoted.
  - apply cursor_string_halts.
Qed.

Lemma converted_reader parse (means : list Z -> Z -> Prop) :
  (forall token v, parse token = Ok v <-> means token v) ->
  (forall token, parse token <> Err Diverges) ->
  Reader (converted parse) (fun v x => exists token, v = Number token /\ means token x).
Proof.
  intros Hp Hh. split.
  - intros c a c' Hc _ H. unfold converted in H.
    destruct (cursor_number c) as [[token c1]|] eqn:E; [|done].
    destruct (parse token) as [x|] eqn:Ep; [|done]. injection H as <- <-.
    apply cursor_number_Ok in E as (Hv & Hr & _); [|done].
    exists (Number token), token. split; [done|]. split; [done|].
    exists token. split; [done|]. by apply Hp.
  - intros c v t u a Hc Hr Hv Hu (token & -> & Hm). inversion Hv; subst.
    unfold converted. rewrite (cursor_number_token c _ u Hc Hr Hv Hu).
    by rewrite (proj2 (Hp _ _) Hm).
  - intros c Hc. unfold converted. pose proof (cursor_number_halts c Hc).
    destruct (cursor_number c) as [[token c1]|]; [|congruence].
    specialize (Hh token). destruct (parse token); congruence.
Qed.

#[global] Instance timestamp_reader : Reader (converted parse_timestamp) timestamp_is.
Proof. exact (converted_reader _ _ parse_timestamp_iff parse_timestamp_halts). Qed.

#[global] Instance amount_reader : Reader (converted parse_amount_micros) amount_is.
Proof. exact (converted_reader _ _ parse_amount_iff parse_amount_halts). Qed.

(** * Slots *)

Section fill.
Context {A} (read : Cursor -> ParseResult (A * Cursor)) (means : Value -> A -> Prop).
Context `{!Reader read means}.

Lemma fill_Ok slot c slot' c' :
  standing c -> stops is_whitespace (rest c) -> fill slot (read c) = Ok (slot', c') ->
  slot = None /\ exists a v t, slot' = Some a /\ value_text v t /\ reads c t c' /\ means v a.
Proof.
  intros Hc Hs H. destruct slot; [done|]. split; [done|]. simpl in H.
  destruct (read c) as [[a c1]|] eqn:E; [|done]. injection H as <- <-.
  apply reader_Ok in E as (v & t & ? & ? & ?); [|done..]. by exists a, v, t.
Qed.

Lemma fill_complete c v t u a :
  standing c -> rest c = t ++ u -> value_text v t -> stops is_number_byte u -> means v a ->
  fill None (read c) = Ok (Some a, move c (length t)).
Proof. intros Hc Hr Hv Hu Hm. simpl. by rewrite (reader_complete c v t u a). Qed.

Lemma fill_halts slot c : standing c -> fill slot (read c) <> Err Diverges.
Proof.
  intros Hc. destruct slot; [done|]. simpl. pose proof (reader_halts c Hc).
  destruct (read c) as [[a c1]|]; congruence.
Qed.

End fill.

Lemma key_is_true key name : key_is key name = true <-> key = byte_string name.
Proof. unfold key_is, keys_eq. apply bool_decide_eq_true. Qed.

Lemma required_Ok {A} (slot : option A) a : required slot = Ok a <-> slot = Some a.
Proof. apply ok_or_Ok. Qed.

Lemma bounded_Ok s n a : bounded s n = Ok a <-> a = s /\ within n s.
Proof.
  unfold bounded, within. destruct s as [|b s]; simpl; [naive_solver|].
  destruct (Nat.ltb_spec n (S (length s))); simpl; split; naive_solver lia.
Qed.

Lemma required_halts {A} (slot : option A) : required slot <> Err Diverges.
Proof. by destruct slot. Qed.

Lemma bounded_halts s n : bounded s n <> Err Diverges.
Proof. unfold bounded. by case_match. Qed.

Lemma bind_halts {A B} (m : ParseResult A) (k : A -> ParseResult B) :
  m <> Err Diverges -> (forall a, k a <> Err Diverges) -> (let? a := m in k a) <> Err Diverges.
Proof. intros Hm Hk. destruct m; [apply Hk|congruence]. Qed.

(** A chain of requirements on slots never diverges. *)
Ltac requirements_halt :=
  repeat (apply bind_halts; [solve [apply required_halts | apply bounded_halts]|intros ?]).

(** The branch of a visitor that the key selects. *)
Ltac branch H :=
  lazymatch type of H with
  | (if key_is ?k ?n then _ else _) = Ok _ =>
      let E := fresh "Ek" in destruct (key_is k n) eqn:E; [apply key_is_true in E; subst k|]
  end.

(** The field that the branch fills. *)
Ltac filled H :=
  let E := fresh "Ef" in
  lazymatch type of H with
  | (match ?m with _ => _ end = Ok _) => destruct m as [[? ?]|] eqn:E; [|done]
  end;
  injection H as <- <-;
  lazymatch type of E with
  | fill _ (?read ?c) = _ =>
      lazymatch goal with
      | Hc : standing c, Hs : stops is_whitespace (rest c) |- _ =>
          destruct (fill_Ok read _ _ _ _ _ Hc Hs E) as (? & ? & ? & ? & -> & ? & ? & ?)
      end
  end.

(** The field at one position of a literal schema fits the key. *)
Ltac slot_at names i :=
  eapply (placed_one _ names) with (f := _);
  [ apply (list_elem_of_lookup_2 _ i); reflexivity | reflexivity | done | eassumption
  | reflexivity | repeat constructor; simpl; congruence ].

Ltac one_slot names :=
  first [ slot_at names 0%nat | slot_at names 1%nat | slot_at names 2%nat | slot_at names 3%nat
        | slot_at names 4%nat | slot_at names 5%nat | slot_at names 6%nat | slot_at names 7%nat
        | slot_at names 8%nat ].

(** Soundness of a visitor, one branch of its [match] after the other. *)
Ltac visit_sound names H :=
  repeat (branch H;
    [filled H; do 2 eexists; split; [eassumption|]; split; [eassumption|]; one_slot names|]);
  repeat case_match; done.

(** Tells literal keys apart. *)
Ltac literal_keys :=
  repeat match goal with
  | |- context [key_is (byte_string ?k) ?n] =>
      let b := eval vm_compute in (key_is (byte_string k) n) in
      change (key_is (byte_string k) n) with b
  end; cbv iota.

(** Completeness: the key of the field found selects its branch. *)
Ltac visit_complete names Hc Hr Hv Hu Hp :=
  let f := fresh "f" in let Hf := fresh "Hf" in let Hg := fresh "Hg" in
  let a := fresh "a" in let Ha := fresh "Ha" in
  apply placeable_one in Hp as (f & Hf & -> & Hg & a & Ha);
  repeat (apply elem_of_cons in Hf as [->|Hf];
    [ simpl in Hg, Ha; simpl f_name; literal_keys;
      rewrite Hg, (fill_complete _ _ _ _ _ _ _ Hc Hr Hv Hu Ha);
      eexists; split; [reflexivity|]; one_slot names | ]);
  by apply not_elem_of_nil in Hf.

(** * The header *)

Definition header_schema : list (Slotted HeaderSlots) :=
  [ mkSlotted (byte_string "alg") _ hs_alg text_is;
    mkSlotted (byte_string "kid") _ hs_kid text_is;
    mkSlotted (byte_string "typ") _ hs_typ text_is ].

(** Names of a literal schema are told apart by computation. *)
Lemma distinct_by_NoDup {S} (schema : list (Slotted S)) :
  NoDup (f_name <$> schema) -> distinct_names schema.
Proof.
  intros Hnd f g [i Hi]%list_elem_of_lookup [j Hj]%list_elem_of_lookup He.
  assert (i = j) as ->; [|congruence].
  apply (NoDup_lookup (f_name <$> schema) i j (f_name f)); [done| |];
    rewrite list_lookup_fmap; [by rewrite Hi|by rewrite Hj, He].
Qed.

(** Every branch of a visitor fills one slot, or fails. *)
Ltac visit_halts Hc :=
  cbv beta iota;
  repeat match goal with |- (if ?b then _ else _) <> _ => destruct b end;
  try match goal with
  | |- context [fill ?slot (?read ?c)] =>
      let Hh := fresh "Hh" in
      pose proof (fill_halts read _ slot c Hc) as Hh;
      destruct (fill slot (read c)) as [[? ?]|]
  end; congruence.

Ltac literal_names := apply distinct_by_NoDup; apply (bool_decide_unpack _); vm_compute; exact I.

Lemma header_names : distinct_names header_schema.
Proof. literal_names. Qed.

#[global] Instance header_visits : Visits header_schema visit_header.
Proof.
  split.
  - intros [alg kid typ] c key s' c' Hc Hst H. unfold visit_header in H. visit_sound header_names H.
  - intros [alg kid typ] c key v t u Hc Hr Hv Hu Hp. unfold visit_header.
    visit_complete header_names Hc Hr Hv Hu Hp.
  - intros [alg kid typ] c key Hc. unfold visit_header. visit_halts Hc.
Qed.

(** * The request *)

Definition request_schema : list (Slotted RequestSlots) :=
  [ mkSlotted (byte_string "agent") _ qs_agent text_is;
    mkSlotted (byte_string "amount") _ qs_amount amount_is;
    mkSlotted (byte_string "currency") _ qs_currency text_is;
    mkSlotted (byte_string "recipient") _ qs_recipient text_is;
    mkSlotted (byte_string "category") _ qs_category text_is ].

Lemma request_names : distinct_names request_schema.
Proof. literal_names. Qed.

#[global] Instance request_visits : Visits request_schema visit_request.
Proof.
  split.
  - intros [] c key s' c' Hc Hst H. unfold visit_request in H. visit_sound request_names H.
  - intros [] c key v t u Hc Hr Hv Hu Hp. unfold visit_request.
    visit_complete request_names Hc Hr Hv Hu Hp.
  - intros [] c key Hc. unfold visit_request. visit_halts Hc.
Qed.

(** * From slots to spelled fields *)

(** A meaning that fixes the value. *)
Class Functional {A} (means : Value -> A -> Prop) : Prop :=
  functional v a b : means v a -> means v b -> a = b.

#[global] Instance text_functional : Functional text_is.
Proof. intros v a b -> [=]. done. Qed.

#[global] Instance timestamp_functional : Functional timestamp_is.
Proof.
  intros v a b (t & -> & Ha) (t' & [= <-] & Hb).
  apply parse_timestamp_iff in Ha, Hb. congruence.
Qed.

#[global] Instance amount_functional : Functional amount_is.
Proof.
  intros v a b (t & -> & Ha) (t' & [= <-] & Hb). apply parse_amount_iff in Ha, Hb. congruence.
Qed.

Lemma spells_functional {A} (means : Value -> A -> Prop) `{!Functional means} fs name a b :
  NoDup fs.*1 -> spells fs name means a -> spells fs name means b -> a = b.
Proof.
  intros Hnd (v & Hv & Ha) (w & Hw & Hb). apply (found_member _ _ _ Hnd) in Hv, Hw.
  apply (functional v); [done|]. by simplify_eq.
Qed.

Section slots.
Context {S : Type} (schema : list (Slotted S)) (s s' : S) (fs : Fields).
Context (Hpl : placeable schema s fs) (Hp : placed schema s fs s').

(** A slot that was filled was filled by its field. *)
Lemma slot_spelled f a :
  f ∈ schema -> f_get f s = None -> f_get f s' = Some a ->
  exists v, (f_name f, v) ∈ fs /\ f_reads f v a.
Proof using Hp Hpl.
  intros Hf Hs Ha. specialize (Hp f Hf). destruct Hpl as [Hnd _].
  destruct (found fs (f_name f)) as [v|] eqn:Hv; [|congruence].
  destruct Hp as (b & Hb & Hr). exists v. split; [by apply found_member|congruence].
Qed.

(** A field that was there filled its slot. *)
Lemma spelled_slot f v a :
  Functional (f_reads f) -> f ∈ schema -> (f_name f, v) ∈ fs -> f_reads f v a ->
  f_get f s' = Some a.
Proof using Hp Hpl.
  intros Hfun Hf Hv Ha. specialize (Hp f Hf). destruct Hpl as [Hnd _].
  apply (found_member _ _ _ Hnd) in Hv. rewrite Hv in Hp. destruct Hp as (b & Hb & Hr).
  by rewrite Hb, (Hfun v a b Ha Hr).
Qed.

(** A slot that stayed empty has no field. *)
Lemma empty_slot f v : f ∈ schema -> (f_name f, v) ∈ fs -> f_get f s' <> None.
Proof using Hp Hpl.
  intros Hf Hv. specialize (Hp f Hf). destruct Hpl as [Hnd _].
  apply (found_member _ _ _ Hnd) in Hv. rewrite Hv in Hp. destruct Hp as (b & Hb & _).
  congruence.
Qed.

Lemma placeable_keys key : key ∈ fs.*1 -> key ∈ f_name <$> schema.
Proof using Hpl.
  intros ([k v] & -> & Hin)%list_elem_of_fmap. destruct Hpl as [_ Hall].
  destruct (Hall k v Hin) as (f & Hf & -> & _). simpl.
  apply list_elem_of_fmap. by exists f.
Qed.

End slots.

(** Fields that spell each key they have are placeable into empty slots. *)
Lemma placeable_spelled {S} (schema : list (Slotted S)) s fs :
  NoDup fs.*1 -> (forall key, key ∈ fs.*1 -> key ∈ f_name <$> schema) ->
  Forall (fun f => f_get f s = None
    /\ forall v, (f_name f, v) ∈ fs -> exists a, f_reads f v a) schema ->
  placeable schema s fs.
Proof.
  intros Hnd Hkeys Hall. split; [done|]. intros k v Hin.
  destruct (proj1 (list_elem_of_fmap _ _ _) (Hkeys k ltac:(apply list_elem_of_fmap; by exists (k, v))))
    as (f & -> & Hf).
  rewrite Forall_forall in Hall. destruct (Hall f Hf) as [Hg Hr]. exists f. by eauto.
Qed.

(** The value that a spelled key has is the one that was spelled. *)
Lemma spelled_readable {A} (means : Value -> A -> Prop) fs name a v :
  NoDup fs.*1 -> spells fs name means a -> (byte_string name, v) ∈ fs -> exists b, means v b.
Proof.
  intros Hnd (w & Hw & Ha) Hv. apply (found_member _ _ _ Hnd) in Hw, Hv. exists a.
  by simplify_eq.
Qed.

(** Reads every slot of a record that a chain of requirements accepted. *)
Ltac requirements H :=
  repeat match type of H with
  | (match ?m with _ => _ end) = Ok _ =>
      let E := fresh "Er" in destruct m as [?|] eqn:E; [|discriminate H];
      first [apply required_Ok in E | apply bounded_Ok in E as [-> ?]]
  end; injection H as <-.

(** Tries a tactic on the fields of a literal schema, by position. *)
Ltac with_field schema i tac :=
  lazymatch eval hnf in (schema !! i) with Some ?f => tac f i end.

Ltac some_field schema tac :=
  first [ with_field schema 0%nat tac | with_field schema 1%nat tac | with_field schema 2%nat tac
        | with_field schema 3%nat tac | with_field schema 4%nat tac | with_field schema 5%nat tac
        | with_field schema 6%nat tac | with_field schema 7%nat tac | with_field schema 8%nat tac ].

(** A filled slot, as the field that was spelled. *)
Ltac by_slot :=
  lazymatch goal with
  | Hpl : placeable ?schema _ _, Hp : placed ?schema _ _ _ |- spells _ _ _ _ =>
      some_field schema ltac:(fun f i =>
        apply (slot_spelled _ _ _ _ Hpl Hp f);
        [apply (list_elem_of_lookup_2 _ i); reflexivity|reflexivity|eassumption])
  end.

(** A spelled field, as the slot it filled. *)
Ltac by_spelling H :=
  lazymatch goal with
  | Hpl : placeable ?schema _ _, Hp : placed ?schema _ _ _ |- _ =>
      let v := fresh "v" in let Hv := fresh "Hv" in let Ha := fresh "Ha" in
      destruct H as (v & Hv & Ha);
      some_field schema ltac:(fun f i =>
        let Hs := fresh "Hs" in
        assert (Hs := spelled_slot _ _ _ _ Hpl Hp f v _ ltac:(cbn [f_reads]; apply _)
          (list_elem_of_lookup_2 schema i f eq_refl) Hv Ha);
        simpl f_get in Hs; rewrite Hs; clear Hs)
  end.

Ltac spelled_bounded H W :=
  by_spelling H; cbn [required ok_or]; rewrite (proj2 (bounded_Ok _ _ _) (conj eq_refl W)).

Definition no_request : RequestSlots := mkRequestSlots None None None None None.

Lemma request_from_spelled fs s r :
  placeable request_schema no_request fs -> placed request_schema no_request fs s ->
  request_from s = Ok r <-> request_spelled fs r.
Proof.
  intros Hpl Hp. unfold request_from, request_spelled. split.
  - intros H. requirements H. cbn [rq_agent rq_amount_micros rq_currency rq_recipient rq_category].
    split; [split; [apply Hpl|exact (placeable_keys _ _ _ Hpl)]|].
    split_and!; by try by_slot.
  - intros (_ & H1 & W1 & H2 & H3 & W3 & H4 & W4 & H5 & W5).
    spelled_bounded H1 W1. by_spelling H2. spelled_bounded H3 W3. spelled_bounded H4 W4.
    spelled_bounded H5 W5. by destruct r.
Qed.

(** Fields that spell a request can be placed. *)
Ltac readable Hnd :=
  apply placeable_spelled;
  [ exact Hnd | assumption
  | repeat apply Forall_cons_2; try apply Forall_nil_2;
    (split; [reflexivity|cbn [f_name f_reads f_type]; intros;
      eapply spelled_readable; [exact Hnd| |eassumption]; eassumption]) ].

Lemma request_placeable fs r : request_spelled fs r -> placeable request_schema no_request fs.
Proof. intros ([Hnd Hkeys] & ? & _ & ? & ? & _ & ? & _ & ? & _). readable Hnd. Qed.

#[global] Instance request_functional : Functional request_is.
Proof.
  intros v a b (fs & -> & Ha) (fs' & [= <-] & Hb). destruct a, b.
  destruct Ha as ([Hnd _] & A1 & _ & A2 & A3 & _ & A4 & _ & A5 & _).
  destruct Hb as (_ & B1 & _ & B2 & B3 & _ & B4 & _ & B5 & _). simpl in *.
  f_equal; by eapply spells_functional; try apply _.
Qed.

(** A text that starts with no blank has no leading blanks. *)
Lemma no_blanks w t : blank w -> stops is_whitespace (w ++ t) -> w = [].
Proof.
  intros [|b w' Hb _]; [done|]. intros Hs. specialize (Hs b eq_refl). simpl in Hb. congruence.
Qed.

#[global] Instance request_reader : Reader parse_request request_is.
Proof.
  split.
  - intros c r c' Hc Hst H. unfold parse_request in H.
    destruct (cursor_object _ _ c) as [[s c1]|] eqn:E; [|done].
    destruct (request_from s) as [r'|] eqn:Er; [|done]. injection H as <- <-.
    apply (cursor_object_Ok request_schema request_names visit_request) in E
      as (w & fs & t & Hw & Ht & Hr & Hpl & Hp); [|done].
    assert (w = []) as -> by (eapply no_blanks; [done|]; rewrite (proj2 Hr), <-app_assoc in Hst; done).
    exists (Object fs), t. split; [by constructor|]. split; [done|].
    exists fs. split; [done|]. by eapply request_from_spelled.
  - intros c v t u r Hc Hr Hv Hu (fs & -> & Hsp). inversion Hv; subst.
    pose proof (request_placeable _ _ Hsp) as Hpl. unfold parse_request.
    destruct (cursor_object_complete request_schema request_names visit_request no_request c
      [] fs t u) as (s & E & Hs); [done|done|constructor|done|done|].
    unfold no_request in E. rewrite E.
    by rewrite (proj2 (request_from_spelled _ _ _ Hpl Hs) Hsp).
  - intros c Hc. unfold parse_request.
    pose proof (cursor_object_halts request_schema visit_request no_request c Hc) as Hh.
    unfold no_request in Hh. destruct (cursor_object _ _ c) as [[s c1]|]; [|congruence].
    assert (Hr : request_from s <> Err Diverges); [|destruct (request_from s); congruence].
    unfold request_from. by requirements_halt.
Qed.

(** * The claims *)

Definition claim_schema : list (Slotted ClaimSlots) :=
  [ mkSlotted (byte_string "iss") _ ks_iss text_is;
    mkSlotted (byte_string "jti") _ ks_jti text_is;
    mkSlotted (byte_string "iat") _ ks_iat timestamp_is;
    mkSlotted (byte_string "exp") _ ks_exp timestamp_is;
    mkSlotted (byte_string "verdict") _ ks_verdict text_is;
    mkSlotted (byte_string "mandate") _ ks_mandate text_is;
    mkSlotted (byte_string "policy_version") _ ks_policy_version text_is;
    mkSlotted (byte_string "nonce") _ ks_nonce text_is;
    mkSlotted (byte_string "request") _ ks_request request_is ].

Lemma claim_names : distinct_names claim_schema.
Proof. literal_names. Qed.

#[global] Instance claim_visits : Visits claim_schema visit_claim.
Proof.
  split.
  - intros s c key s' c' Hc Hst H. unfold visit_claim in H. visit_sound claim_names H.
  - intros s c key v t u Hc Hr Hv Hu Hp. unfold visit_claim.
    visit_complete claim_names Hc Hr Hv Hu Hp.
  - intros s c key Hc. unfold visit_claim. visit_halts Hc.
Qed.

Lemma claims_from_spelled fs s c :
  placeable claim_schema empty_claims fs -> placed claim_schema empty_claims fs s ->
  claims_from s = Ok c <-> claims_spelled fs c.
Proof.
  intros Hpl Hp. unfold claims_from, claims_spelled. split.
  - intros H. requirements H.
    cbn [cl_iss cl_jti cl_iat cl_exp cl_verdict cl_mandate cl_policy_version cl_nonce cl_request].
    split; [split; [apply Hpl|exact (placeable_keys _ _ _ Hpl)]|].
    split_and!; by try by_slot.
  - intros (_ & H1 & H2 & W2 & H3 & H4 & H5 & H6 & W6 & H7 & W7 & H8 & W8 & H9).
    by_spelling H1. spelled_bounded H2 W2. by_spelling H3. by_spelling H4. by_spelling H5.
    spelled_bounded H6 W6. spelled_bounded H7 W7. spelled_bounded H8 W8. by_spelling H9.
    by destruct c.
Qed.

Lemma claims_placeable fs c : claims_spelled fs c -> placeable claim_schema empty_claims fs.
Proof.
  intros ([Hnd Hkeys] & ? & ? & _ & ? & ? & ? & ? & _ & ? & _ & ? & _ & ?). readable Hnd.
Qed.

Lemma header_from_spelled fs s h :
  let empty := mkHeaderSlots None None None in
  placeable header_schema empty fs -> placed header_schema empty fs s ->
  header_from s = Ok h <-> header_spelled fs h.
Proof.
  intros empty Hpl Hp. unfold header_from, header_spelled. split.
  - intros H. destruct (required (hs_alg s)) as [alg|] eqn:E1; [|done].
    apply required_Ok in E1. destruct (key_is alg "ES256") eqn:E2; [|done].
    apply key_is_true in E2 as ->.
    destruct (match hs_typ s with Some value => negb (key_is value "JWT") | None => false end)
      eqn:E3; [done|].
    requirements H. cbn [jh_kid].
    split; [split; [apply Hpl|exact (placeable_keys _ _ _ Hpl)]|].
    split; [by_slot|]. split; [by_slot|]. split; [done|]. intros v Hv.
    pose proof (empty_slot _ _ _ _ Hpl Hp
      (mkSlotted (byte_string "typ") _ hs_typ text_is) v ltac:(by apply (list_elem_of_lookup_2 _ 2)) Hv)
      as Hne. simpl in Hne. destruct (hs_typ s) as [typ|] eqn:Et; [|done].
    apply negb_false_iff, key_is_true in E3 as ->.
    assert (Hsp : spells fs "typ" text_is (byte_string "JWT")) by by_slot.
    destruct Hsp as (v' & Hv' & Hm). destruct Hpl as [Hnd _].
    apply (found_member _ _ _ Hnd) in Hv, Hv'. by simplify_eq.
  - intros (_ & H1 & H2 & W2 & H3). by_spelling H1. cbn [required ok_or]. literal_keys.
    assert (Ht : match hs_typ s with Some value => negb (key_is value "JWT") | None => false end = false).
    { destruct (hs_typ s) as [typ|] eqn:Et; [|done].
      assert (Hsp : spells fs "typ" text_is typ) by by_slot.
      destruct Hsp as (v2 & Hv2 & ->). specialize (H3 _ Hv2). injection H3 as ->. done. }
    rewrite Ht. spelled_bounded H2 W2. by destruct h.
Qed.

Lemma header_placeable fs h :
  header_spelled fs h -> placeable header_schema (mkHeaderSlots None None None) fs.
Proof.
  intros ([Hnd Hkeys] & H1 & H2 & _ & H3).
  apply placeable_spelled; [done|done|]. repeat apply Forall_cons_2; try apply Forall_nil_2;
    (split; [reflexivity|cbn [f_name f_reads]; intros]); [eapply spelled_readable; [done| |eassumption]; eassumption..|].
  eexists. by apply H3.
Qed.

(** * Whole documents *)

Section documents.
Context {S B : Type} (schema : list (Slotted S)) (Hnames : distinct_names schema).
Context (visit : S -> Cursor -> list Z -> ParseResult (S * Cursor)) `{!Visits schema visit}.
Context (s0 : S) (from : S -> ParseResult B) (spelled : Fields -> B -> Prop).
Context (Hfrom : forall fs s b, placeable schema s0 fs -> placed schema s0 fs s ->
  from s = Ok b <-> spelled fs b).
Context (Hspelled : forall fs b, spelled fs b -> placeable schema s0 fs).

(** One object, the whole document, and the checks on its slots. *)
Definition parse_document (json : list Z) : ParseResult B :=
  let? '(s, c) := cursor_object visit s0 (cursor_new json) in
  let? _ := cursor_finish c in
  from s.

Lemma cursor_new_standing json : addressable json -> standing (cursor_new json).
Proof. intros Ha. split; [simpl; lia|done]. Qed.

Lemma parse_document_iff json b :
  addressable json -> parse_document json = Ok b <-> exists fs, document fs json /\ spelled fs b.
Proof using Hfrom Hspelled Hnames Visits0.
  intros Ha. pose proof (cursor_new_standing json Ha) as Hc. unfold parse_document. split.
  - intros H. destruct (cursor_object _ _ _) as [[s c]|] eqn:E; [|done].
    apply (cursor_object_Ok schema Hnames visit) in E
      as (w & fs & t & Hw & Ht & Hr & Hpl & Hp); [|done].
    destruct (cursor_finish c) as [[]|] eqn:Ef; [|done].
    apply cursor_finish_iff in Ef; [|by eapply reads_standing].
    exists fs. split; [|by eapply Hfrom]. exists w, t, (rest c).
    split; [done|]. split; [done|]. split; [done|].
    destruct Hr as [_ Hr]. unfold rest at 1 in Hr. simpl in Hr.
    rewrite drop_0, <-app_assoc in Hr. exact Hr.
  - intros (fs & (w1 & t & w2 & Hw1 & Ht & Hw2 & Hj) & Hsp).
    pose proof (Hspelled _ _ Hsp) as Hpl.
    assert (Hr : rest (cursor_new json) = w1 ++ t ++ w2) by by unfold rest; simpl; rewrite drop_0.
    destruct (cursor_object_complete schema Hnames visit s0 _ w1 fs t w2 Hc Hr Hw1 Ht Hpl)
      as (s & E & Hs). rewrite E. rewrite app_assoc in Hr.
    destruct (reads_prefix _ _ _ Hr) as [Hrd Hrest]. rewrite length_app in Hrd, Hrest.
    rewrite (proj2 (cursor_finish_iff _ (reads_standing _ _ _ Hc Hrd))); [|by rewrite Hrest].
    by apply (Hfrom fs).
Qed.

Lemma parse_document_halts json :
  addressable json -> (forall s, from s <> Err Diverges) -> parse_document json <> Err Diverges.
Proof using Hnames Visits0.
  intros Ha Hf. pose proof (cursor_new_standing json Ha) as Hc. unfold parse_document.
  pose proof (cursor_object_halts schema visit s0 _ Hc) as Hh.
  destruct (cursor_object _ _ _) as [[s c]|] eqn:E; [|congruence].
  apply (cursor_object_Ok schema Hnames visit) in E as (w & fs & t & _ & _ & Hr & _); [|done].
  pose proof (cursor_finish_halts c (reads_standing _ _ _ Hc Hr)) as Hh'.
  destruct (cursor_finish c) as [[]|]; [apply Hf|congruence].
Qed.

End documents.

Lemma parse_claims_iff json c :
  addressable json ->
  parse_claims json = Ok c <-> exists fs, document fs json /\ claims_spelled fs c.
Proof.
  exact (parse_document_iff claim_schema claim_names visit_claim empty_claims claims_from
    claims_spelled claims_from_spelled claims_placeable json c).
Qed.

Lemma parse_header_iff json h :
  addressable json ->
  parse_header json = Ok h <-> exists fs, document fs json /\ header_spelled fs h.
Proof.
  exact (parse_document_iff header_schema header_names visit_header (mkHeaderSlots None None None)
    header_from header_spelled header_from_spelled header_placeable json h).
Qed.

Lemma parse_claims_halts json : addressable json -> parse_claims json <> Err Diverges.
Proof.
  intros Ha.
  apply (parse_document_halts claim_schema claim_names visit_claim empty_claims claims_from json Ha).
  intros s. unfold claims_from. by requirements_halt.
Qed.

Lemma parse_header_halts json : addressable json -> parse_header json <> Err Diverges.
Proof.
  intros Ha.
  apply (parse_document_halts header_schema header_names visit_header _ header_from json Ha).
  intros s. unfold header_from. requirements_halt. destruct (key_is _ "ES256"); [|done].
  destruct (match hs_typ s with Some value => _ | None => _ end); [done|]. by requirements_halt.
Qed.
