(* ===== verification/VerifierBase64.v ===== *)
(** Unpadded Base64URL: [decode_base64url] of [jwt.rs] inverts the encoding
    of RFC 4648, and accepts no text but the encoding of what it returns. *)

From Stdlib Require Import ZArith Lia.
From stdpp Require Import strings.
From S2P Require Import Prelude AccountingMath ProtocolLayout ProtocolTypes ProtocolCodec ProtocolWire.
From S2P Require Import RemoteState.
From S2P Require Import VerifierState VerifierJwt.

(** * The reference encoder *)

(** The symbol of a six-bit value. *)
Definition symbol (v : Z) : Z :=
  if v <? 26 then v + 65
  else if v <? 52 then v - 26 + 97
  else if v <? 62 then v - 52 + 48
  else if v =? 62 then 45 else 95.

Fixpoint base64url (bytes : list Z) : list Z :=
  match bytes with
  | [] => []
  | [a] => [symbol (a / 4); symbol (a mod 4 * 16)]
  | [a; b] => [symbol (a / 4); symbol (a mod 4 * 16 + b / 16); symbol (b mod 16 * 4)]
  | a :: b :: c :: rest =>
      symbol (a / 4) :: symbol (a mod 4 * 16 + b / 16) :: symbol (b mod 16 * 4 + c / 64)
        :: symbol (c mod 64) :: base64url rest
  end.

(** * Symbols *)

Definition is_sextet (v : Z) : Prop := 0 <= v < 64.

Lemma sextet_symbol v : is_sextet v -> sextet (symbol v) = Ok v.
Proof.
  unfold is_sextet, sextet, symbol. intros Hv.
  repeat match goal with
  | |- context [?a <? ?b] => destruct (Z.ltb_spec a b)
  | |- context [?a <=? ?b] => destruct (Z.leb_spec a b)
  | |- context [?a =? ?b] => destruct (Z.eqb_spec a b)
  end; simpl; first [lia | f_equal; lia].
Qed.

Lemma sextet_Ok b v : sextet b = Ok v -> is_sextet v /\ b = symbol v.
Proof.
  unfold is_sextet, sextet, symbol. intros H.
  repeat match type of H with
  | context [?a <=? ?b] => destruct (Z.leb_spec a b)
  | context [?a =? ?b] => destruct (Z.eqb_spec a b)
  end; simpl in H; try discriminate; injection H as <-; (split; [lia|]);
  repeat match goal with
  | |- context [?a <? ?b] => destruct (Z.ltb_spec a b)
  | |- context [?a =? ?b] => destruct (Z.eqb_spec a b)
  end; lia.
Qed.

(** * Words *)

(** Or-ing in bits below the lowest set one is an addition. *)
Lemma lor_low a b n : 0 <= n -> 0 <= b < 2 ^ n -> Z.lor (a * 2 ^ n) b = a * 2 ^ n + b.
Proof.
  intros Hn Hb. symmetry. apply Z.add_nocarry_lor. apply Z.bits_inj'. intros i Hi.
  rewrite Z.land_spec, Z.bits_0. destruct (Z.lt_ge_cases i n) as [Hlt|Hge].
  - by rewrite Z.mul_pow2_bits_low.
  - destruct (Z.eq_dec b 0) as [->|Hne]; [by rewrite Z.bits_0, andb_false_r|].
    rewrite (Z.bits_above_log2 b i), andb_false_r; [done|lia|].
    apply Z.log2_lt_pow2; [lia|].
    apply Z.lt_le_trans with (2 ^ n); [lia|]. apply Z.pow_le_mono_r; lia.
Qed.

(** One more symbol into the word. *)
Lemma word_step word v shift high :
  is_sextet v -> 0 <= shift <= 18 -> high = shift + 6 ->
  Z.lor (word * 2 ^ high) (Z.land (Z.shiftl v shift) u32_max)
  = (word * 64 + v) * 2 ^ shift.
Proof.
  unfold is_sextet. intros Hv Hs ->. rewrite Z.shiftl_mul_pow2 by lia.
  assert (Hp : 0 < 2 ^ shift <= 2 ^ 18)
    by (split; [apply Z.pow_pos_nonneg|apply Z.pow_le_mono_r]; lia).
  change u32_max with (Z.ones 32). rewrite Z.land_ones by lia.
  rewrite Z.mod_small by (split; [nia|]; change (2 ^ 18) with 262144 in Hp; change (2 ^ 32) with 4294967296; nia).
  assert (He : 2 ^ (shift + 6) = 64 * 2 ^ shift) by (rewrite Z.pow_add_r by lia; ring).
  rewrite lor_low by (lia || (rewrite He; nia)). rewrite He. ring.
Qed.

Lemma word_first v :
  is_sextet v -> Z.lor 0 (Z.land (Z.shiftl v 18) u32_max) = v * 2 ^ 18.
Proof. intros Hv. exact (word_step 0 v 18 24 Hv ltac:(lia) eq_refl). Qed.

Lemma chunk_word_2 v1 v2 :
  is_sextet v1 -> is_sextet v2 ->
  chunk_word [symbol v1; symbol v2] = Ok ((v1 * 64 + v2) * 2 ^ 12).
Proof.
  intros H1 H2. unfold chunk_word. cbn [zip zip_with try_fold].
  rewrite !sextet_symbol by done.
  by rewrite word_first, (word_step _ _ 12 18) by (done || lia).
Qed.

Lemma chunk_word_3 v1 v2 v3 :
  is_sextet v1 -> is_sextet v2 -> is_sextet v3 ->
  chunk_word [symbol v1; symbol v2; symbol v3] = Ok (((v1 * 64 + v2) * 64 + v3) * 2 ^ 6).
Proof.
  intros H1 H2 H3. unfold chunk_word. cbn [zip zip_with try_fold].
  rewrite !sextet_symbol by done.
  by rewrite word_first, (word_step _ _ 12 18), (word_step _ _ 6 12) by (done || lia).
Qed.

Lemma chunk_word_4 v1 v2 v3 v4 :
  is_sextet v1 -> is_sextet v2 -> is_sextet v3 -> is_sextet v4 ->
  chunk_word [symbol v1; symbol v2; symbol v3; symbol v4]
  = Ok (((v1 * 64 + v2) * 64 + v3) * 64 + v4).
Proof.
  intros H1 H2 H3 H4. unfold chunk_word. cbn [zip zip_with try_fold].
  rewrite !sextet_symbol by done.
  rewrite word_first, !(word_step _ _ 12 18), !(word_step _ _ 6 12), (word_step _ _ 0 6)
    by (done || lia). by rewrite Z.mul_1_r.
Qed.

(** Symbols that were read came from six-bit values. *)
Lemma symbols_Ok l shifts acc w :
  (length l <= length shifts)%nat ->
  try_fold (fun word '(symbol, shift) =>
      let? value := sextet symbol in
      Ok (Z.lor word (Z.land (Z.shiftl value shift) u32_max))) acc (zip l shifts) = Ok w ->
  exists vs, Forall is_sextet vs /\ l = symbol <$> vs.
Proof.
  revert shifts acc. induction l as [|b l IH]; intros [|shift shifts] acc Hz H;
    [by exists []..|simpl in Hz; lia|]. cbn [zip zip_with try_fold] in H.
  destruct (sextet b) as [v|] eqn:E; [|done]. apply sextet_Ok in E as [Hv ->].
  apply IH in H as (vs & Hvs & ->); [|simpl in Hz; lia].
  exists (v :: vs). split; [by constructor|done].
Qed.

Lemma chunk_word_Ok l w :
  (length l <= 4)%nat -> chunk_word l = Ok w ->
  exists vs, Forall is_sextet vs /\ l = symbol <$> vs.
Proof. apply (symbols_Ok l [18; 12; 6; 0]). Qed.

Lemma word_bytes_div w :
  word_bytes w = (w / 65536 mod 256, w / 256 mod 256, w mod 256).
Proof.
  unfold word_bytes. rewrite !Z.shiftr_div_pow2 by lia.
  change 255 with (Z.ones 8). by rewrite !Z.land_ones by lia.
Qed.

(** * Chunks *)

(** A full chunk, either way. *)
Lemma decode_quad a b c :
  is_byte a -> is_byte b -> is_byte c ->
  decode_chunk [symbol (a / 4); symbol (a mod 4 * 16 + b / 16); symbol (b mod 16 * 4 + c / 64);
                symbol (c mod 64)] = Ok [a; b; c].
Proof.
  unfold is_byte. intros Ha Hb Hc. unfold decode_chunk.
  rewrite chunk_word_4 by (unfold is_sextet; euclid). rewrite word_bytes_div. cbn [length].
  do 2 f_equal; [euclid|f_equal; [euclid|f_equal; euclid]].
Qed.

Lemma decode_three a b :
  is_byte a -> is_byte b ->
  decode_chunk [symbol (a / 4); symbol (a mod 4 * 16 + b / 16); symbol (b mod 16 * 4)] = Ok [a; b].
Proof.
  unfold is_byte. intros Ha Hb. unfold decode_chunk.
  rewrite chunk_word_3 by (unfold is_sextet; euclid). rewrite word_bytes_div. cbn [length].
  rewrite (proj2 (Z.eqb_eq _ _)) by euclid. do 2 f_equal; [euclid|f_equal; euclid].
Qed.

Lemma decode_two a :
  is_byte a -> decode_chunk [symbol (a / 4); symbol (a mod 4 * 16)] = Ok [a].
Proof.
  unfold is_byte. intros Ha. unfold decode_chunk.
  rewrite chunk_word_2 by (unfold is_sextet; euclid). rewrite word_bytes_div. cbn [length].
  rewrite !(proj2 (Z.eqb_eq _ _)) by euclid. do 2 f_equal; euclid.
Qed.

(** What a chunk decodes to is what it encodes. *)
Lemma decode_chunk_Ok l out :
  (length l <= 4)%nat -> decode_chunk l = Ok out ->
  is_bytes out /\ l = base64url out /\ (length l = 4%nat -> length out = 3%nat).
Proof.
  intros Hl H. unfold decode_chunk in H. destruct (chunk_word l) as [w|] eqn:E; [|done].
  destruct (chunk_word_Ok l w Hl E) as (vs & Hvs & ->). rewrite word_bytes_div in H.
  rewrite length_fmap in *.
  destruct vs as [|v1 [|v2 [|v3 [|v4 [|]]]]]; try discriminate H;
    repeat (apply Forall_cons in Hvs as [? Hvs]); cbn [length fmap list_fmap] in *.
  - rewrite chunk_word_2 in E by done. injection E as <-. unfold is_sextet in *.
    destruct (_ && _) eqn:Hz in H; [|done]. injection H as <-. bool_to_prop.
    split; [repeat constructor; unfold is_byte; euclid|]. split; [|done].
    cbn [base64url]. f_equal; [f_equal; euclid|]. do 2 f_equal; euclid.
  - rewrite chunk_word_3 in E by done. injection E as <-. unfold is_sextet in *.
    destruct (_ =? 0) eqn:Hz in H; [|done]. injection H as <-. bool_to_prop.
    split; [repeat constructor; unfold is_byte; euclid|]. split; [|done].
    cbn [base64url]. f_equal; [f_equal; euclid|]. f_equal; [f_equal; euclid|].
    do 2 f_equal; euclid.
  - rewrite chunk_word_4 in E by done. injection E as <-. unfold is_sextet in *.
    injection H as <-. split; [repeat constructor; unfold is_byte; euclid|]. split; [|done].
    cbn [base64url]. f_equal; [f_equal; euclid|]. f_equal; [f_equal; euclid|].
    f_equal; [f_equal; euclid|]. do 2 f_equal; euclid.
Qed.

(** * Whole texts *)

Definition decode_step (output chunk : list Z) : ParseResult (list Z) :=
  let? bytes := decode_chunk chunk in Ok (output ++ bytes).

Lemma base64url_app o1 o : length o1 = 3%nat -> base64url (o1 ++ o) = base64url o1 ++ base64url o.
Proof. by destruct o1 as [|a [|b [|c [|]]]]. Qed.

Lemma decode_chunks_Ok fuel l acc out :
  (length l <= fuel)%nat -> try_fold decode_step acc (chunks_loop fuel 4 l) = Ok out ->
  exists o, out = acc ++ o /\ is_bytes o /\ l = base64url o.
Proof.
  revert l acc. induction fuel as [|fuel IH]; intros [|x l] acc Hf H;
    try (injection H as <-; exists []; rewrite app_nil_r; split; [done|split; [constructor|done]]);
    [simpl in Hf; lia|]. cbn [chunks_loop try_fold] in H. unfold decode_step at 1 in H.
  destruct (decode_chunk _) as [o1|] eqn:E; [|done].
  apply decode_chunk_Ok in E as (Hb1 & He1 & Hlen); [|rewrite length_take; lia].
  apply IH in H as (o & -> & Hb & He); [|rewrite length_drop; simpl in *; lia].
  exists (o1 ++ o). split; [by rewrite app_assoc|]. split; [by apply Forall_app|].
  rewrite <-(take_drop 4 (x :: l)), He1, He.
  destruct (Nat.le_gt_cases 4 (length (x :: l))) as [Hge|Hlt].
  - symmetry. apply base64url_app, Hlen. rewrite length_take. lia.
  - rewrite drop_ge in He by lia. destruct o as [|a [|b [|c o]]]; [|done..].
    by rewrite !app_nil_r.
Qed.

Lemma decode_chunks_complete n : forall o fuel acc,
  (length o <= n)%nat -> is_bytes o -> (length (base64url o) <= fuel)%nat ->
  try_fold decode_step acc (chunks_loop fuel 4 (base64url o)) = Ok (acc ++ o).
Proof.
  induction n as [|n IH]; intros o fuel acc Hn Hb Hf.
  { destruct o; [|simpl in Hn; lia]. rewrite app_nil_r. by destruct fuel. }
  destruct o as [|a [|b [|c o]]]; cbn [base64url length] in *;
    [rewrite app_nil_r; by destruct fuel|..]; destruct fuel as [|fuel]; try lia;
    repeat (apply Forall_cons in Hb as [? Hb]); cbn [chunks_loop try_fold take drop];
    unfold decode_step at 1.
  - rewrite decode_two by done. by destruct fuel.
  - rewrite decode_three by done. by destruct fuel.
  - rewrite decode_quad by done. cbv beta iota.
    rewrite drop_0, IH by (done || lia). by rewrite <-app_assoc.
Qed.

Lemma base64url_length n : forall o,
  (length o <= n)%nat -> (length (base64url o) mod 4 <> 1)%nat.
Proof.
  induction n as [|n IH]; intros o Hn;
    [destruct o; [intros H; discriminate H|simpl in Hn; lia]|].
  destruct o as [|a [|b [|c o]]]; cbn [base64url length] in *;
    [intros H; discriminate H..|].
  specialize (IH o ltac:(lia)). intros Hm. apply IH. etransitivity; [|exact Hm].
  rewrite <-(Nat.Div0.mod_add (length (base64url o)) 1 4). f_equal. lia.
Qed.

(** The decoder accepts exactly the encodings. *)
Lemma decode_base64url_iff s b :
  decode_base64url s = Ok b <-> is_bytes b /\ s = base64url b.
Proof.
  unfold decode_base64url. fold decode_step. split.
  - destruct (length s mod 4 =? 1)%nat; [done|]. intros H.
    apply decode_chunks_Ok in H as (o & -> & Hb & He); done.
  - intros [Hb ->]. pose proof (base64url_length _ b (Nat.le_refl _)) as Hl.
    rewrite (proj2 (Nat.eqb_neq _ _) Hl).
    by apply (decode_chunks_complete (length b) b _ [] (Nat.le_refl _) Hb).
Qed.

(** No symbol is a dot, so the split of a signing input is the one made. *)
Lemma split_on_segments sep a b :
  Forall (fun x => x <> sep) a -> Forall (fun x => x <> sep) b ->
  split_on sep (a ++ [sep] ++ b) = [a; b].
Proof.
  intros Ha Hb. assert (Hone : split_on sep b = [b]).
  { induction Hb as [|x b Hx Hb IH]; simpl; [done|].
    by rewrite (proj2 (Z.eqb_neq _ _)), IH. }
  induction Ha as [|x a Hx Ha IH]; simpl; [by rewrite Z.eqb_refl, Hone|].
  rewrite (proj2 (Z.eqb_neq _ _)) by done. simpl in IH. by rewrite IH.
Qed.

Lemma split_on_join sep l a b : split_on sep l = [a; b] -> l = a ++ [sep] ++ b.
Proof.
  revert a b. induction l as [|x l IH]; intros a b H; simpl in H; [done|].
  destruct (Z.eqb_spec x sep) as [->|Hne].
  - injection H as <- H. simpl. f_equal.
    clear IH. revert b H. induction l as [|y l IH]; intros b H; simpl in H; [by injection H|].
    destruct (y =? sep); [destruct l; simpl in H; repeat case_match; discriminate|].
    destruct (split_on sep l) as [|s r] eqn:E; injection H; intros; subst; [by destruct l; simpl in E; repeat case_match|].
    by rewrite (IH s).
  - destruct (split_on sep l) as [|s r] eqn:E; [by injection H|]. injection H as <- ->.
    by rewrite (IH s b).
Qed.

(** What holds of every symbol holds of an encoding. *)
Lemma base64url_Forall (P : Z -> Prop) b :
  (forall v, is_sextet v -> P (symbol v)) -> is_bytes b -> Forall P (base64url b).
Proof.
  intros H6 Hb. remember (length b) as n eqn:Hn.
  assert (Hle : (length b <= n)%nat) by lia. clear Hn.
  revert b Hb Hle. induction n as [|n IH]; intros b Hb Hle.
  { destruct b; [constructor|simpl in Hle; lia]. }
  destruct b as [|x [|y [|z b]]]; cbn [base64url length] in *; [constructor|..];
    repeat (apply Forall_cons in Hb as [? Hb]); unfold is_byte in *;
    repeat (apply Forall_cons_2; [apply H6; unfold is_sextet; euclid|]); try apply Forall_nil_2.
  apply IH; [done|lia].
Qed.

Lemma symbol_ascii v : is_sextet v -> symbol v <> 46 /\ 0 <= symbol v <= 127.
Proof.
  unfold symbol, is_sextet. intros Hv. case_ltb; try destruct (_ =? 62); lia.
Qed.

Lemma base64url_no_dot s b : decode_base64url s = Ok b -> Forall (fun x => x <> 46) s.
Proof.
  intros [Hb ->]%decode_base64url_iff. apply base64url_Forall; [|done].
  intros v Hv. by apply symbol_ascii.
Qed.

Lemma base64url_nil b : base64url b = [] <-> b = [].
Proof. by destruct b as [|x [|y [|z b]]]. Qed.

(** A signing input is two non-empty encoded documents around one dot. *)
Lemma decode_signing_input_iff si d :
  decode_signing_input si = Ok d <->
  is_bytes d.(ds_header_json) /\ is_bytes d.(ds_payload_json)
  /\ d.(ds_header_json) <> [] /\ d.(ds_payload_json) <> []
  /\ si = base64url d.(ds_header_json) ++ [46] ++ base64url d.(ds_payload_json).
Proof.
  unfold decode_signing_input. split.
  - intros H. destruct (split_on 46 si) as [|h [|p [|]]] eqn:E; try discriminate H.
    apply split_on_join in E as ->. destruct (_ || _) eqn:Hne in H; [done|].
    apply orb_false_iff in Hne as [Hh%Nat.eqb_neq Hp%Nat.eqb_neq].
    destruct (decode_base64url h) as [hj|] eqn:Eh; [|done].
    destruct (decode_base64url p) as [pj|] eqn:Ep; [|done]. injection H as <-. simpl.
    apply decode_base64url_iff in Eh as [? ->]. apply decode_base64url_iff in Ep as [? ->].
    split_and!; try done; intros ->; done.
  - intros (Hh & Hp & Hhn & Hpn & ->). destruct d as [hj pj].
    cbn [ds_header_json ds_payload_json] in *.
    assert (Eh : decode_base64url (base64url hj) = Ok hj) by by apply decode_base64url_iff.
    assert (Ep : decode_base64url (base64url pj) = Ok pj) by by apply decode_base64url_iff.
    rewrite (split_on_segments _ _ _ (base64url_no_dot _ _ Eh) (base64url_no_dot _ _ Ep)).
    rewrite Eh, Ep. rewrite <-base64url_nil in Hhn, Hpn.
    by destruct (base64url hj), (base64url pj).
Qed.

Lemma decode_base64url_halts s : decode_base64url s <> Err Diverges.
Proof.
  unfold decode_base64url. destruct (_ =? 1)%nat; [done|]. generalize (@nil Z).
  induction (chunks 4 s) as [|l ls IH]; intros acc; cbn [try_fold]; [done|].
  assert (Hw : chunk_word l <> Err Diverges).
  { unfold chunk_word. generalize (zip l [18; 12; 6; 0]). intros zs. generalize 0.
    induction zs as [|[b k] zs IHz]; intros w; cbn [try_fold]; [done|].
    destruct (sextet b) as [v|e] eqn:E; [apply IHz|]. unfold sextet in E.
    repeat case_match; congruence. }
  assert (Hc : decode_chunk l <> Err Diverges).
  { unfold decode_chunk. destruct (chunk_word l) as [w|]; [|congruence].
    destruct (word_bytes w) as [[? ?] ?]. repeat case_match; congruence. }
  destruct (decode_chunk l); [apply IH|congruence].
Qed.

Lemma decode_signing_input_halts si : decode_signing_input si <> Err Diverges.
Proof.
  unfold decode_signing_input. destruct (split_on 46 si) as [|h [|p [|]]]; try done.
  destruct (_ || _); [done|].
  pose proof (decode_base64url_halts h). destruct (decode_base64url h); [|congruence].
  pose proof (decode_base64url_halts p). destruct (decode_base64url p); congruence.
Qed.
