(* ===== verification/VerifierProgram.v ===== *)
(** The instructions of the authorization verifier: the transaction checks
    ([precompile.rs]), the deployment approval ([deployment.rs]) and the
    handlers ([instructions/*.rs], dispatched by [lib.rs]).

    The native secp256r1 program verifies signatures before any of this
    runs; the model sees it as the instruction it is, in the transaction the
    runtime describes. *)

From Stdlib Require Import ZArith Lia.
From stdpp Require Import strings.
From S2P Require Import Prelude AccountingMath ProtocolLayout ProtocolTypes ProtocolCodec.
From S2P Require Import RemoteState RemoteMessage RemotePlatform RemoteInit.
From S2P Require Import VerifierState VerifierJwt.

(** The platform, and the native programs a transaction may name. *)
Class Runtime := {
  runtime_chain :: Chain;
  compute_budget_ID : Key;
  secp256r1_ID : Key
}.

(** * The precompile *)

Definition CURRENT_INSTRUCTION : Z := u16_max.
Definition SIGNATURE_LEN : nat := 64.
Definition PUBLIC_KEY_OFFSET : nat := 16.
Definition SIGNATURE_OFFSET : nat := PUBLIC_KEY_OFFSET + COMPRESSED_PUBLIC_KEY_LEN.
Definition MESSAGE_OFFSET : nat := SIGNATURE_OFFSET + SIGNATURE_LEN.
Definition MAX_SIGNING_INPUT_LEN : nat := 512.

Record VerifiedSignature := mkVerifiedSignature {
  vs_public_key : list Z;
  vs_signing_input : list Z
}.

Definition canonical_header (signing_input_len : Z) : list Z :=
  [1; 0] ++ concat (to_le 2 <$>
    [Z.of_nat SIGNATURE_OFFSET; CURRENT_INSTRUCTION; Z.of_nat PUBLIC_KEY_OFFSET;
     CURRENT_INSTRUCTION; Z.of_nat MESSAGE_OFFSET; signing_input_len; CURRENT_INSTRUCTION]).

(** [data.get(from..)]. *)
Definition get_from (data : list Z) (from : nat) : option (list Z) :=
  if (from <=? length data)%nat then Some (drop from data) else None.

Definition parse_precompile_data (data : list Z) : VResult VerifiedSignature :=
  let? signing_input := ok_or (get_from data MESSAGE_OFFSET)
    (VRefused VeInvalidPrecompileInstruction) in
  require negb (length signing_input =? 0)%nat
      && (length signing_input <=? MAX_SIGNING_INPUT_LEN)%nat
    or VRefused VeInvalidSigningInputLength;
  let signing_input_len := Z.of_nat (length signing_input) in
  require signing_input_len <=? u16_max or VRefused VeInvalidSigningInputLength;
  require (PUBLIC_KEY_OFFSET <=? length data)%nat or VRefused VeInvalidPrecompileInstruction;
  require bool_decide (take PUBLIC_KEY_OFFSET data = canonical_header signing_input_len)
    or VRefused VeInvalidPrecompileInstruction;
  require (SIGNATURE_OFFSET <=? length data)%nat or VRefused VeInvalidPrecompileInstruction;
  Ok (mkVerifiedSignature
        (slice data PUBLIC_KEY_OFFSET (SIGNATURE_OFFSET - PUBLIC_KEY_OFFSET)) signing_input).

Section precompile.
Context `{Runtime}.

(** [load_instruction_at_checked]. *)
Definition instruction_at (t : Introspection) (index : nat) : VResult Instruction :=
  ok_or (t.(in_instructions) !! index) VCallee.

Definition load_verified_precompile (t : Introspection) : VResult Instruction :=
  require t.(in_stack_height) =? TRANSACTION_LEVEL_STACK_HEIGHT or VRefused VeNotTopLevel;
  let current := t.(in_current_index) in
  let? this := instruction_at t current in
  require keys_eq this.(ix_program_id) verifier_ID or VRefused VeNotTopLevel;
  let? precompile_index := ok_or (match current with O => None | S i => Some i end)
    (VRefused VeMissingPrecompile) in
  let? _ := try_fold (fun _ index =>
      if (index =? precompile_index)%nat || (index =? current)%nat then Ok tt
      else
        let? i := instruction_at t index in
        let allowed :=
          if (index <? precompile_index)%nat then keys_eq i.(ix_program_id) compute_budget_ID
          else negb (keys_eq i.(ix_program_id) verifier_ID)
               && negb (keys_eq i.(ix_program_id) secp256r1_ID) in
        require allowed or VRefused VeInvalidInstructionOrder; Ok tt)
    tt (seq 0 (length t.(in_instructions))) in
  let? precompile := instruction_at t precompile_index in
  require keys_eq precompile.(ix_program_id) secp256r1_ID or VRefused VeMissingPrecompile;
  require (length precompile.(ix_accounts) =? 0)%nat or VRefused VeInvalidPrecompileInstruction;
  Ok precompile.

End precompile.

(** * Deployment approvals *)

Definition DEPLOYMENT_MAGIC : list Z := byte_string "SOLEVMAZ".
Definition OPERATION_DEPLOY_TO_STRATEGY : Z := 1.
Definition DEPLOYMENT_MESSAGE_LEN : nat := 154.
Definition MAX_LIFETIME_SECONDS : Z := 300.
Definition DEPLOY_TO_STRATEGY_DISCRIMINATOR : list Z := [215; 49; 61; 222; 180; 60; 9; 118].
Definition DEPLOY_ACCOUNT_COUNT : nat := 15.
Definition DEPLOY_REMOTE_CONFIG_INDEX : nat := 0.
Definition DEPLOY_RECEIPT_INDEX : nat := 13.

Record DeploymentAuthorization := mkDeploymentAuthorization {
  dz_authority : Key;
  dz_network_domain : Bytes32;
  dz_policy_generation : Z;
  dz_deployment_context : Bytes32;
  dz_amount : Z;
  dz_nonce : list Z;
  dz_issued_at : Z;
  dz_expires_at : Z
}.

(** [Reader::take]: the next [n] bytes. *)
Definition reader_take (n : nat) (bytes : list Z) : VResult (list Z * list Z) :=
  require (n <=? length bytes)%nat or VRefused VeInvalidAuthorizationMessage;
  Ok (take n bytes, drop n bytes).

Definition decode_deployment (bytes : list Z) : VResult DeploymentAuthorization :=
  require (length bytes =? DEPLOYMENT_MESSAGE_LEN)%nat or VRefused VeInvalidAuthorizationMessage;
  let? '(magic, bytes) := reader_take 8 bytes in
  require bool_decide (magic = DEPLOYMENT_MAGIC) or VRefused VeInvalidAuthorizationMessage;
  let? '(version, bytes) := reader_take 1 bytes in
  require bool_decide (version = [DEPLOYMENT_PROFILE_VERSION])
    or VRefused VeInvalidAuthorizationMessage;
  let? '(operation, bytes) := reader_take 1 bytes in
  require bool_decide (operation = [OPERATION_DEPLOY_TO_STRATEGY])
    or VRefused VeUnsupportedOperation;
  let? '(authority, bytes) := reader_take 32 bytes in
  let? '(network_domain, bytes) := reader_take 32 bytes in
  let? '(policy_generation, bytes) := reader_take 8 bytes in
  let? '(deployment_context, bytes) := reader_take 32 bytes in
  let? '(amount, bytes) := reader_take 8 bytes in
  let? '(nonce, bytes) := reader_take DEPLOYMENT_NONCE_LEN bytes in
  let? '(issued_at, bytes) := reader_take 8 bytes in
  let? '(expires_at, _) := reader_take 8 bytes in
  Ok {| dz_authority := authority;
        dz_network_domain := network_domain;
        dz_policy_generation := from_le policy_generation;
        dz_deployment_context := deployment_context;
        dz_amount := from_le amount;
        dz_nonce := nonce;
        dz_issued_at := i64_from_le issued_at;
        dz_expires_at := i64_from_le expires_at |}.

Definition encode_deployment (m : DeploymentAuthorization) : list Z :=
  concat [ DEPLOYMENT_MAGIC; [DEPLOYMENT_PROFILE_VERSION]; [OPERATION_DEPLOY_TO_STRATEGY];
           m.(dz_authority); m.(dz_network_domain); to_le 8 m.(dz_policy_generation);
           m.(dz_deployment_context); to_le 8 m.(dz_amount); m.(dz_nonce);
           i64_to_le m.(dz_issued_at); i64_to_le m.(dz_expires_at) ].

Definition check_deployment_follows (t : Introspection) (authority : DeploymentAuthority)
    (receipt : Key) (amount : Z) : VResult unit :=
  let? next := ok_or (t.(in_instructions) !! Datatypes.S t.(in_current_index))
    (VRefused VeMissingDeploymentInstruction) in
  let expected_data := DEPLOY_TO_STRATEGY_DISCRIMINATOR ++ to_le 8 amount in
  require keys_eq next.(ix_program_id) authority.(da_remote_leg_program)
      && bool_decide (next.(ix_data) = expected_data)
      && (length next.(ix_accounts) =? DEPLOY_ACCOUNT_COUNT)%nat
      && bool_decide (named next DEPLOY_REMOTE_CONFIG_INDEX = Some authority.(da_remote_config))
      && bool_decide (named next DEPLOY_RECEIPT_INDEX = Some receipt)
    or VRefused VeInvalidDeploymentInstruction;
  Ok tt.

Definition check_times (m : DeploymentAuthorization) (now : Z) : VResult unit :=
  let? latest_expiry := ok_or (i64_checked_add m.(dz_issued_at) MAX_LIFETIME_SECONDS)
    (VRefused VeInvalidAuthorizationLifetime) in
  require (m.(dz_issued_at) <? m.(dz_expires_at)) && (m.(dz_expires_at) <=? latest_expiry)
    or VRefused VeInvalidAuthorizationLifetime;
  let? latest_issue := ok_or (i64_checked_add now MAX_ISSUED_AT_SKEW_SECONDS)
    (VRefused VeIssuedInFuture) in
  require m.(dz_issued_at) <=? latest_issue or VRefused VeIssuedInFuture;
  require now <? m.(dz_expires_at) or VRefused VeExpired;
  Ok tt.

(** * Verdicts *)

Definition check_claims (claims : Claims) (now : Z) : VResult unit :=
  require keys_eq claims.(cl_iss) ISSUER or VRefused VeIssuerMismatch;
  require keys_eq claims.(cl_verdict) ALLOW_VERDICT or VRefused VeVerdictNotAllow;
  require bool_decide (i64_checked_add claims.(cl_iat) VERDICT_LIFETIME_SECONDS
                       = Some claims.(cl_exp))
    or VRefused VeInvalidLifetime;
  let? latest_issue := ok_or (i64_checked_add now MAX_ISSUED_AT_SKEW_SECONDS)
    (VRefused VeIssuedInFuture) in
  require claims.(cl_iat) <=? latest_issue or VRefused VeIssuedInFuture;
  require now <? claims.(cl_exp) or VRefused VeExpired;
  Ok tt.

Definition check_mandate (mandate : Mandate) (claims : Claims) : VResult unit :=
  let request := claims.(cl_request) in
  fail_if mandate.(md_revoked) with VRefused VeMandateRevoked;
  require keys_eq claims.(cl_mandate) mandate.(md_mandate_id) or VRefused VeMandateMismatch;
  require request.(rq_amount_micros) =? mandate.(md_amount_micros) or VRefused VeAmountMismatch;
  require keys_eq request.(rq_currency) mandate.(md_currency) or VRefused VeCurrencyMismatch;
  require keys_eq request.(rq_recipient) mandate.(md_recipient) or VRefused VeRecipientMismatch;
  require keys_eq claims.(cl_policy_version) mandate.(md_policy_version)
    or VRefused VePolicyMismatch;
  require keys_eq request.(rq_agent) mandate.(md_agent) or VRefused VeAgentMismatch;
  require keys_eq request.(rq_category) mandate.(md_category) or VRefused VeCategoryMismatch;
  Ok tt.

(** * Parameters *)

Record InitializeConfigParams := mkInitializeConfigParams {
  icp_environment : Environment;
  icp_administrator : Key;
  icp_consumer : Key
}.

Record RegisterTrustedKeyParams := mkRegisterTrustedKeyParams {
  rtk_kid : list Z;
  rtk_public_key : list Z;
  rtk_not_before : Z;
  rtk_not_after : Z
}.

Record RegisterMandateParams := mkRegisterMandateParams {
  rmp_mandate_hash : Bytes32;
  rmp_mandate_id : list Z;
  rmp_amount_micros : Z;
  rmp_currency : list Z;
  rmp_recipient : list Z;
  rmp_policy_version : list Z;
  rmp_agent : list Z;
  rmp_category : list Z
}.

Definition mandate_params_valid (p : RegisterMandateParams) : bool :=
  (0 <? p.(rmp_amount_micros))
  && is_profile_text p.(rmp_mandate_id) MAX_MANDATE_LEN
  && is_profile_text p.(rmp_currency) MAX_CURRENCY_LEN
  && is_profile_text p.(rmp_recipient) MAX_RECIPIENT_LEN
  && is_profile_text p.(rmp_policy_version) MAX_POLICY_LEN
  && is_profile_text p.(rmp_agent) MAX_AGENT_LEN
  && is_profile_text p.(rmp_category) MAX_CATEGORY_LEN.

Record InitializeDeploymentAuthorityParams := mkInitializeDeploymentAuthorityParams {
  idp_administrator : Key;
  idp_network_domain : Bytes32
}.

Record RegisterRiskKeyParams := mkRegisterRiskKeyParams {
  rkp_public_key : list Z;
  rkp_not_before : Z;
  rkp_not_after : Z
}.

(** The checks a registered P-256 key passes. *)
Definition check_public_key (public_key : list Z) : VResult unit :=
  require bool_decide (head public_key = Some 2) || bool_decide (head public_key = Some 3)
    or VRefused VeInvalidPublicKey;
  Ok tt.

Definition check_key_window (not_before not_after : Z) : VResult unit :=
  require (0 <=? not_before) && (not_before <? not_after) or VRefused VeInvalidKeyWindow;
  Ok tt.

(** * State and calls *)

(** The accounts of the program, each store keyed by address. *)
Record Verifier := mkVerifier {
  v_configs : Store VerifierConfig;
  v_trusted_keys : Store TrustedKey;
  v_mandates : Store Mandate;
  v_receipts : Store ConsumedAuthorization;
  v_authorities : Store DeploymentAuthority;
  v_risk_keys : Store RiskKey;
  v_deployment_receipts : Store DeploymentReceipt
}.

#[global] Instance Verifier_eta : Eta Verifier := fun s => mkVerifier
  (v_configs s) (v_trusted_keys s) (v_mandates s) (v_receipts s) (v_authorities s)
  (v_risk_keys s) (v_deployment_receipts s).

(** Accounts, signer and runtime values of one call; an instruction reads
    only the entries its account list names. *)
Record VEnv := mkVEnv {
  ve_unix_timestamp : Z;
  ve_signer : Key;
  ve_program_upgrade_authority : option Key;
  ve_funded : Key -> bool;
  ve_config : Key;
  ve_trusted_key : Key;
  ve_mandate : Key;
  ve_risk_key : Key;
  ve_receipt : Key;
  ve_remote_leg_program : Key;
  ve_remote_leg_executable : bool;
  ve_remote_config : Key;
  ve_remote_config_owner : Key;
  ve_remote_config_empty : bool;
  ve_introspection : Introspection
}.

(** A typed account of the program. *)
Definition account_of {A} (m : Store A) (k : Key) : VResult A :=
  match m !! k with Some (Owned a) => Ok a | _ => Err VConstraint end.

Section handlers.
Context `{Runtime}.
Implicit Types (env : VEnv) (v : Verifier).

(** The [init] constraint: the account is at its derived address, is not in
    use, and the payer has its rent.  Returns the bump. *)
Definition check_init {A} env (m : Store A) (k : Key) (seeds : list (list Z)) : VResult Z :=
  let '(address, bump) := find_program_address seeds verifier_ID in
  require keys_eq k address or VConstraint;
  require env.(ve_funded) k or VCallee;
  require is_none (m !! k) or VCallee;
  Ok bump.

Definition require_upgrade_authority env : VResult unit :=
  require bool_decide (env.(ve_program_upgrade_authority) = Some env.(ve_signer))
    or VRefused VeUnauthorized; Ok tt.

(** [has_one = config]. *)
Definition belongs_to (owner config : Key) : VResult unit :=
  require keys_eq owner config or VRefused VeUnauthorized; Ok tt.

(** [has_one = administrator] of the verifier's configuration. *)
Definition administered_config env v : VResult VerifierConfig :=
  let? config := account_of v.(v_configs) env.(ve_config) in
  require keys_eq env.(ve_signer) config.(vc_administrator) or VRefused VeUnauthorized;
  Ok config.

(** [has_one = administrator] of a deployment authority. *)
Definition administered_authority env v : VResult DeploymentAuthority :=
  let? config := account_of v.(v_authorities) env.(ve_config) in
  require keys_eq env.(ve_signer) config.(da_administrator) or VRefused VeUnauthorized;
  Ok config.

(** * Administration of verdicts *)

Definition process_initialize_config env v (p : InitializeConfigParams) : VResult Verifier :=
  let? _ := require_upgrade_authority env in
  let? bump := check_init env v.(v_configs) env.(ve_config)
    [CONFIG_SEED; environment_seed p.(icp_environment)] in
  require negb (keys_eq p.(icp_administrator) default_key)
      && negb (keys_eq p.(icp_consumer) default_key)
      && negb (keys_eq p.(icp_administrator) p.(icp_consumer))
    or VRefused VeInvalidRoles;
  Ok (v <| v_configs := store v.(v_configs) env.(ve_config) {|
    vc_administrator := p.(icp_administrator);
    vc_consumer := p.(icp_consumer);
    vc_environment := p.(icp_environment);
    vc_bump := bump |} |>).

Definition process_register_trusted_key env v (p : RegisterTrustedKeyParams) : VResult Verifier :=
  let? config := administered_config env v in
  let? bump := check_init env v.(v_trusted_keys) env.(ve_trusted_key)
    [TRUSTED_KEY_SEED; env.(ve_config); kid_seed p.(rtk_kid)] in
  require is_profile_text p.(rtk_kid) MAX_KID_LEN
      && accepts_kid config.(vc_environment) p.(rtk_kid)
    or VRefused VeInvalidKeyId;
  let? _ := check_public_key p.(rtk_public_key) in
  let? _ := check_key_window p.(rtk_not_before) p.(rtk_not_after) in
  Ok (v <| v_trusted_keys := store v.(v_trusted_keys) env.(ve_trusted_key) {|
    tk_config := env.(ve_config);
    tk_kid := p.(rtk_kid);
    tk_public_key := p.(rtk_public_key);
    tk_not_before := p.(rtk_not_before);
    tk_not_after := p.(rtk_not_after);
    tk_revoked := false;
    tk_bump := bump |} |>).

Definition process_revoke_trusted_key env v : VResult Verifier :=
  let? _ := administered_config env v in
  let? key := account_of v.(v_trusted_keys) env.(ve_trusted_key) in
  let? _ := belongs_to key.(tk_config) env.(ve_config) in
  fail_if key.(tk_revoked) with VRefused VeAlreadyRevoked;
  Ok (v <| v_trusted_keys := store v.(v_trusted_keys) env.(ve_trusted_key)
             (key <| tk_revoked := true |>) |>).

Definition process_register_mandate env v (p : RegisterMandateParams) : VResult Verifier :=
  let? _ := administered_config env v in
  let? bump := check_init env v.(v_mandates) env.(ve_mandate)
    [MANDATE_SEED; env.(ve_config); p.(rmp_mandate_hash)] in
  require mandate_params_valid p or VRefused VeInvalidMandate;
  require keys_eq p.(rmp_mandate_hash) (mandate_hash p.(rmp_mandate_id))
    or VRefused VeMandateHashMismatch;
  Ok (v <| v_mandates := store v.(v_mandates) env.(ve_mandate) {|
    md_config := env.(ve_config);
    md_mandate_hash := p.(rmp_mandate_hash);
    md_mandate_id := p.(rmp_mandate_id);
    md_amount_micros := p.(rmp_amount_micros);
    md_currency := p.(rmp_currency);
    md_recipient := p.(rmp_recipient);
    md_policy_version := p.(rmp_policy_version);
    md_agent := p.(rmp_agent);
    md_category := p.(rmp_category);
    md_revoked := false;
    md_bump := bump |} |>).

Definition process_revoke_mandate env v : VResult Verifier :=
  let? _ := administered_config env v in
  let? mandate := account_of v.(v_mandates) env.(ve_mandate) in
  let? _ := belongs_to mandate.(md_config) env.(ve_config) in
  fail_if mandate.(md_revoked) with VRefused VeAlreadyRevoked;
  Ok (v <| v_mandates := store v.(v_mandates) env.(ve_mandate)
             (mandate <| md_revoked := true |>) |>).

(** * Consuming a verdict *)

(** A parser fault as the instruction reports it. *)
Definition lift_parse {A} (r : ParseResult A) : VResult A :=
  match r with
  | Ok a => Ok a
  | Err (Fails e) => Err (VRefused e)
  | Err Diverges => Err VCallee
  end.

Definition process_consume_authorization env v (nonce_hash_argument : Bytes32)
    : VResult Verifier :=
  let? config := account_of v.(v_configs) env.(ve_config) in
  require bool_decide (create_program_address
      [CONFIG_SEED; environment_seed config.(vc_environment); [config.(vc_bump)]] verifier_ID
      = Some env.(ve_config)) or VConstraint;
  require keys_eq env.(ve_signer) config.(vc_consumer) or VRefused VeUnauthorized;
  let? trusted_key := account_of v.(v_trusted_keys) env.(ve_trusted_key) in
  let? _ := belongs_to trusted_key.(tk_config) env.(ve_config) in
  let? mandate := account_of v.(v_mandates) env.(ve_mandate) in
  let? _ := belongs_to mandate.(md_config) env.(ve_config) in
  let? bump := check_init env v.(v_receipts) env.(ve_receipt)
    [RECEIPT_SEED; env.(ve_config); nonce_hash_argument] in
  let? precompile := load_verified_precompile env.(ve_introspection) in
  let? verified := parse_precompile_data precompile.(ix_data) in
  let? decoded := lift_parse (decode_signing_input verified.(vs_signing_input)) in
  let? header := lift_parse (parse_header decoded.(ds_header_json)) in
  let? claims := lift_parse (parse_claims decoded.(ds_payload_json)) in
  require keys_eq header.(jh_kid) trusted_key.(tk_kid) or VRefused VeKeyIdMismatch;
  require accepts_kid config.(vc_environment) header.(jh_kid) or VRefused VeInvalidKeyId;
  fail_if trusted_key.(tk_revoked) with VRefused VeKeyRevoked;
  require keys_eq verified.(vs_public_key) trusted_key.(tk_public_key)
    or VRefused VePublicKeyMismatch;
  let now := env.(ve_unix_timestamp) in
  let? _ := check_claims claims now in
  require (trusted_key.(tk_not_before) <=? now)
      && (trusted_key.(tk_not_before) <=? claims.(cl_iat))
      && (claims.(cl_exp) <=? trusted_key.(tk_not_after))
    or VRefused VeOutsideKeyWindow;
  let? _ := check_mandate mandate claims in
  require keys_eq (nonce_hash claims.(cl_nonce)) nonce_hash_argument
    or VRefused VeNonceHashMismatch;
  Ok (v <| v_receipts := store v.(v_receipts) env.(ve_receipt) {|
    ca_config := env.(ve_config);
    ca_nonce_hash := nonce_hash_argument;
    ca_signing_input_hash := sha256 verified.(vs_signing_input);
    ca_jti_hash := domain_hash JTI_DOMAIN claims.(cl_jti);
    ca_mandate := env.(ve_mandate);
    ca_consumed_at := now;
    ca_expires_at := claims.(cl_exp);
    ca_bump := bump |} |>).

(** * Deployment authorities *)

Definition authority_seeds (remote_leg_program remote_config : Key) : list (list Z) :=
  [DEPLOYMENT_AUTHORITY_SEED; remote_leg_program; remote_config].

Definition process_initialize_deployment_authority env v
    (p : InitializeDeploymentAuthorityParams) : VResult Verifier :=
  let? _ := require_upgrade_authority env in
  require env.(ve_remote_leg_executable)
      && negb (keys_eq env.(ve_remote_leg_program) verifier_ID)
    or VRefused VeInvalidDeploymentAuthority;
  require keys_eq env.(ve_remote_config_owner) env.(ve_remote_leg_program)
    or VRefused VeInvalidDeploymentAuthority;
  fail_if env.(ve_remote_config_empty) with VRefused VeInvalidDeploymentAuthority;
  let? bump := check_init env v.(v_authorities) env.(ve_config)
    (authority_seeds env.(ve_remote_leg_program) env.(ve_remote_config)) in
  require negb (keys_eq p.(idp_administrator) default_key)
      && negb (keys_eq p.(idp_network_domain) wide_zero)
    or VRefused VeInvalidDeploymentAuthority;
  Ok (v <| v_authorities := store v.(v_authorities) env.(ve_config) {|
    da_version := DEPLOYMENT_PROFILE_VERSION;
    da_bump := bump;
    da_administrator := p.(idp_administrator);
    da_remote_leg_program := env.(ve_remote_leg_program);
    da_remote_config := env.(ve_remote_config);
    da_network_domain := p.(idp_network_domain);
    da_policy_generation := 0 |} |>).

Definition process_register_risk_key env v (p : RegisterRiskKeyParams) : VResult Verifier :=
  let? _ := administered_authority env v in
  let? bump := check_init env v.(v_risk_keys) env.(ve_risk_key)
    [RISK_KEY_SEED; env.(ve_config); public_key_parity_seed p.(rkp_public_key);
     public_key_x_seed p.(rkp_public_key)] in
  let? _ := check_public_key p.(rkp_public_key) in
  let? _ := check_key_window p.(rkp_not_before) p.(rkp_not_after) in
  Ok (v <| v_risk_keys := store v.(v_risk_keys) env.(ve_risk_key) {|
    rk_config := env.(ve_config);
    rk_public_key := p.(rkp_public_key);
    rk_not_before := p.(rkp_not_before);
    rk_not_after := p.(rkp_not_after);
    rk_revoked := false;
    rk_key_bump := bump |} |>).

Definition process_revoke_risk_key env v : VResult Verifier :=
  let? _ := administered_authority env v in
  let? key := account_of v.(v_risk_keys) env.(ve_risk_key) in
  let? _ := belongs_to key.(rk_config) env.(ve_config) in
  fail_if key.(rk_revoked) with VRefused VeAlreadyRevoked;
  Ok (v <| v_risk_keys := store v.(v_risk_keys) env.(ve_risk_key)
             (key <| rk_revoked := true |>) |>).

Definition process_advance_policy_generation env v : VResult Verifier :=
  let? config := administered_authority env v in
  let? generation := ok_or (checked_add u64_max config.(da_policy_generation) 1)
    (VRefused VePolicyGenerationExhausted) in
  Ok (v <| v_authorities := store v.(v_authorities) env.(ve_config)
             (config <| da_policy_generation := generation |>) |>).

(** * Consuming a deployment approval *)

Definition process_consume_deployment_authorization env v (nonce : list Z) : VResult Verifier :=
  let? config := account_of v.(v_authorities) env.(ve_config) in
  require bool_decide (create_program_address
      (authority_seeds config.(da_remote_leg_program) config.(da_remote_config)
         ++ [[config.(da_bump)]]) verifier_ID = Some env.(ve_config)) or VConstraint;
  let? risk_key := account_of v.(v_risk_keys) env.(ve_risk_key) in
  let? _ := belongs_to risk_key.(rk_config) env.(ve_config) in
  let? bump := check_init env v.(v_deployment_receipts) env.(ve_receipt)
    [DEPLOYMENT_RECEIPT_SEED; env.(ve_config); nonce] in
  let? precompile := load_verified_precompile env.(ve_introspection) in
  let? verified := parse_precompile_data precompile.(ix_data) in
  let? message := decode_deployment verified.(vs_signing_input) in
  fail_if risk_key.(rk_revoked) with VRefused VeKeyRevoked;
  require keys_eq verified.(vs_public_key) risk_key.(rk_public_key)
    or VRefused VePublicKeyMismatch;
  require keys_eq message.(dz_authority) env.(ve_config) or VRefused VeAuthorityMismatch;
  require keys_eq message.(dz_network_domain) config.(da_network_domain)
    or VRefused VeNetworkDomainMismatch;
  require message.(dz_policy_generation) =? config.(da_policy_generation)
    or VRefused VePolicyGenerationMismatch;
  require 0 <? message.(dz_amount) or VRefused VeInvalidAuthorizationAmount;
  require keys_eq message.(dz_nonce) nonce or VRefused VeNonceMismatch;
  let now := env.(ve_unix_timestamp) in
  let? _ := check_times message now in
  require (risk_key.(rk_not_before) <=? now)
      && (risk_key.(rk_not_before) <=? message.(dz_issued_at))
      && (message.(dz_expires_at) <=? risk_key.(rk_not_after))
    or VRefused VeOutsideKeyWindow;
  let? _ := check_deployment_follows env.(ve_introspection) config env.(ve_receipt)
    message.(dz_amount) in
  Ok (v <| v_deployment_receipts := store v.(v_deployment_receipts) env.(ve_receipt) {|
    dr_version := DEPLOYMENT_PROFILE_VERSION;
    dr_bump := bump;
    dr_config := env.(ve_config);
    dr_remote_config := config.(da_remote_config);
    dr_risk_key := env.(ve_risk_key);
    dr_nonce := nonce;
    dr_deployment_context := message.(dz_deployment_context);
    dr_amount := message.(dz_amount);
    dr_policy_generation := message.(dz_policy_generation);
    dr_issued_at := message.(dz_issued_at);
    dr_expires_at := message.(dz_expires_at);
    dr_consumed_at := now;
    dr_message_hash := sha256 verified.(vs_signing_input) |} |>).

(** * Instructions *)

Inductive VIx :=
| VInitializeConfig (p : InitializeConfigParams)
| VRegisterTrustedKey (p : RegisterTrustedKeyParams)
| VRevokeTrustedKey
| VRegisterMandate (p : RegisterMandateParams)
| VRevokeMandate
| VConsumeAuthorization (nonce_hash : Bytes32)
| VInitializeDeploymentAuthority (p : InitializeDeploymentAuthorityParams)
| VRegisterRiskKey (p : RegisterRiskKeyParams)
| VRevokeRiskKey
| VAdvancePolicyGeneration
| VConsumeDeploymentAuthorization (nonce : list Z).

Definition vexec env v (ix : VIx) : VResult Verifier :=
  match ix with
  | VInitializeConfig p => process_initialize_config env v p
  | VRegisterTrustedKey p => process_register_trusted_key env v p
  | VRevokeTrustedKey => process_revoke_trusted_key env v
  | VRegisterMandate p => process_register_mandate env v p
  | VRevokeMandate => process_revoke_mandate env v
  | VConsumeAuthorization n => process_consume_authorization env v n
  | VInitializeDeploymentAuthority p => process_initialize_deployment_authority env v p
  | VRegisterRiskKey p => process_register_risk_key env v p
  | VRevokeRiskKey => process_revoke_risk_key env v
  | VAdvancePolicyGeneration => process_advance_policy_generation env v
  | VConsumeDeploymentAuthorization n => process_consume_deployment_authorization env v n
  end.

End handlers.
