(* ===== verification/VerifierRuns.v ===== *)
(** Runs of the verifier: what each instruction that succeeds checked and
    wrote, which accounts are well formed, and how they may change. *)

From Stdlib Require Import ZArith Lia Relations.
From stdpp Require Import strings relations.
From S2P Require Import Prelude AccountingMath ProtocolLayout ProtocolTypes ProtocolCodec ProtocolWire.
From S2P Require Import RemoteState RemoteMessage RemotePlatform RemoteInit RemoteBooks.
From S2P Require Import VerifierState VerifierJwt VerifierProgram.

Section runs.
Context `{Runtime}.
Implicit Types (env : VEnv) (v : Verifier).

(** * Checks *)

Lemma account_of_Ok {A} (m : Store A) k a : account_of m k = Ok a <-> m !! k = Some (Owned a).
Proof. unfold account_of. destruct (m !! k) as [[]|]; naive_solver. Qed.

(** The address is derived from the seeds, and was free. *)
Definition fresh {A} (m : Store A) (k : Key) (seeds : list (list Z)) (bump : Z) : Prop :=
  find_program_address seeds verifier_ID = (k, bump) /\ m !! k = None.

Lemma check_init_Ok {A} env (m : Store A) k seeds bump :
  check_init env m k seeds = Ok bump -> fresh m k seeds bump.
Proof.
  unfold check_init, fresh. destruct (find_program_address seeds verifier_ID) as [address b].
  intros Hi. invert_ok. apply keys_eq_true in E. destruct (m !! k); [done|]. by subst.
Qed.

Lemma administered_config_Ok env v c :
  administered_config env v = Ok c ->
  v.(v_configs) !! env.(ve_config) = Some (Owned c) /\ env.(ve_signer) = c.(vc_administrator).
Proof.
  unfold administered_config. intros Hc. invert_ok.
  by rewrite account_of_Ok in E; rewrite keys_eq_true in E0.
Qed.

Lemma administered_authority_Ok env v c :
  administered_authority env v = Ok c ->
  v.(v_authorities) !! env.(ve_config) = Some (Owned c) /\ env.(ve_signer) = c.(da_administrator).
Proof.
  unfold administered_authority. intros Hc. invert_ok.
  by rewrite account_of_Ok in E; rewrite keys_eq_true in E0.
Qed.

Lemma belongs_to_Ok owner config u : belongs_to owner config = Ok u -> owner = config.
Proof. unfold belongs_to. intros Hb. invert_ok. by apply keys_eq_true. Qed.

Lemma check_public_key_Ok key u :
  check_public_key key = Ok u -> head key = Some 2 \/ head key = Some 3.
Proof.
  unfold check_public_key. intros Hk. invert_ok. apply orb_true_iff in E as [E|E];
    apply bool_decide_eq_true in E; auto.
Qed.

Lemma check_key_window_Ok a b u : check_key_window a b = Ok u -> 0 <= a < b.
Proof. unfold check_key_window. intros Hk. invert_ok. lia. Qed.

(** * Effects *)

(** What an instruction that succeeded wrote, with the facts about the
    accounts involved that later arguments need. *)
Inductive VEffect env v : VIx -> Verifier -> Prop :=
| EffConfig p bump :
    env.(ve_program_upgrade_authority) = Some env.(ve_signer) ->
    fresh v.(v_configs) env.(ve_config) [CONFIG_SEED; environment_seed p.(icp_environment)] bump ->
    p.(icp_administrator) <> default_key -> p.(icp_consumer) <> default_key ->
    p.(icp_administrator) <> p.(icp_consumer) ->
    VEffect env v (VInitializeConfig p) (v <| v_configs := store v.(v_configs) env.(ve_config)
      (mkVerifierConfig p.(icp_administrator) p.(icp_consumer) p.(icp_environment) bump) |>)
| EffTrustedKey p c bump :
    v.(v_configs) !! env.(ve_config) = Some (Owned c) -> env.(ve_signer) = c.(vc_administrator) ->
    fresh v.(v_trusted_keys) env.(ve_trusted_key)
      [TRUSTED_KEY_SEED; env.(ve_config); kid_seed p.(rtk_kid)] bump ->
    is_profile_text p.(rtk_kid) MAX_KID_LEN = true -> accepts_kid c.(vc_environment) p.(rtk_kid) = true ->
    head p.(rtk_public_key) = Some 2 \/ head p.(rtk_public_key) = Some 3 ->
    0 <= p.(rtk_not_before) < p.(rtk_not_after) ->
    VEffect env v (VRegisterTrustedKey p)
      (v <| v_trusted_keys := store v.(v_trusted_keys) env.(ve_trusted_key)
        (mkTrustedKey env.(ve_config) p.(rtk_kid) p.(rtk_public_key) p.(rtk_not_before)
           p.(rtk_not_after) false bump) |>)
| EffRevokeTrustedKey c key :
    v.(v_configs) !! env.(ve_config) = Some (Owned c) -> env.(ve_signer) = c.(vc_administrator) ->
    v.(v_trusted_keys) !! env.(ve_trusted_key) = Some (Owned key) ->
    key.(tk_config) = env.(ve_config) -> key.(tk_revoked) = false ->
    VEffect env v VRevokeTrustedKey
      (v <| v_trusted_keys := store v.(v_trusted_keys) env.(ve_trusted_key)
        (key <| tk_revoked := true |>) |>)
| EffMandate p c bump :
    v.(v_configs) !! env.(ve_config) = Some (Owned c) -> env.(ve_signer) = c.(vc_administrator) ->
    fresh v.(v_mandates) env.(ve_mandate)
      [MANDATE_SEED; env.(ve_config); p.(rmp_mandate_hash)] bump ->
    mandate_params_valid p = true -> p.(rmp_mandate_hash) = mandate_hash p.(rmp_mandate_id) ->
    VEffect env v (VRegisterMandate p) (v <| v_mandates := store v.(v_mandates) env.(ve_mandate)
      (mkMandate env.(ve_config) p.(rmp_mandate_hash) p.(rmp_mandate_id) p.(rmp_amount_micros)
         p.(rmp_currency) p.(rmp_recipient) p.(rmp_policy_version) p.(rmp_agent)
         p.(rmp_category) false bump) |>)
| EffRevokeMandate c m :
    v.(v_configs) !! env.(ve_config) = Some (Owned c) -> env.(ve_signer) = c.(vc_administrator) ->
    v.(v_mandates) !! env.(ve_mandate) = Some (Owned m) ->
    m.(md_config) = env.(ve_config) -> m.(md_revoked) = false ->
    VEffect env v VRevokeMandate (v <| v_mandates := store v.(v_mandates) env.(ve_mandate)
      (m <| md_revoked := true |>) |>)
| EffConsume nonce_hash r :
    process_consume_authorization env v nonce_hash
      = Ok (v <| v_receipts := store v.(v_receipts) env.(ve_receipt) r |>) ->
    fresh v.(v_receipts) env.(ve_receipt) [RECEIPT_SEED; env.(ve_config); nonce_hash] r.(ca_bump) ->
    r.(ca_config) = env.(ve_config) -> r.(ca_nonce_hash) = nonce_hash ->
    VEffect env v (VConsumeAuthorization nonce_hash)
      (v <| v_receipts := store v.(v_receipts) env.(ve_receipt) r |>)
| EffAuthority p bump :
    env.(ve_program_upgrade_authority) = Some env.(ve_signer) ->
    env.(ve_remote_config_owner) = env.(ve_remote_leg_program) ->
    fresh v.(v_authorities) env.(ve_config)
      (authority_seeds env.(ve_remote_leg_program) env.(ve_remote_config)) bump ->
    p.(idp_administrator) <> default_key -> p.(idp_network_domain) <> wide_zero ->
    VEffect env v (VInitializeDeploymentAuthority p)
      (v <| v_authorities := store v.(v_authorities) env.(ve_config)
        (mkDeploymentAuthority DEPLOYMENT_PROFILE_VERSION bump p.(idp_administrator)
           env.(ve_remote_leg_program) env.(ve_remote_config) p.(idp_network_domain) 0) |>)
| EffRiskKey p c bump :
    v.(v_authorities) !! env.(ve_config) = Some (Owned c) ->
    env.(ve_signer) = c.(da_administrator) ->
    fresh v.(v_risk_keys) env.(ve_risk_key)
      [RISK_KEY_SEED; env.(ve_config); public_key_parity_seed p.(rkp_public_key);
       public_key_x_seed p.(rkp_public_key)] bump ->
    head p.(rkp_public_key) = Some 2 \/ head p.(rkp_public_key) = Some 3 ->
    0 <= p.(rkp_not_before) < p.(rkp_not_after) ->
    VEffect env v (VRegisterRiskKey p) (v <| v_risk_keys := store v.(v_risk_keys) env.(ve_risk_key)
      (mkRiskKey env.(ve_config) p.(rkp_public_key) p.(rkp_not_before) p.(rkp_not_after)
         false bump) |>)
| EffRevokeRiskKey c key :
    v.(v_authorities) !! env.(ve_config) = Some (Owned c) ->
    env.(ve_signer) = c.(da_administrator) ->
    v.(v_risk_keys) !! env.(ve_risk_key) = Some (Owned key) ->
    key.(rk_config) = env.(ve_config) -> key.(rk_revoked) = false ->
    VEffect env v VRevokeRiskKey (v <| v_risk_keys := store v.(v_risk_keys) env.(ve_risk_key)
      (key <| rk_revoked := true |>) |>)
| EffAdvance c :
    v.(v_authorities) !! env.(ve_config) = Some (Owned c) ->
    env.(ve_signer) = c.(da_administrator) -> c.(da_policy_generation) + 1 <= u64_max ->
    VEffect env v VAdvancePolicyGeneration
      (v <| v_authorities := store v.(v_authorities) env.(ve_config)
        (c <| da_policy_generation := c.(da_policy_generation) + 1 |>) |>)
| EffConsumeDeployment nonce r :
    process_consume_deployment_authorization env v nonce
      = Ok (v <| v_deployment_receipts := store v.(v_deployment_receipts) env.(ve_receipt) r |>) ->
    fresh v.(v_deployment_receipts) env.(ve_receipt)
      [DEPLOYMENT_RECEIPT_SEED; env.(ve_config); nonce] r.(dr_bump) ->
    r.(dr_config) = env.(ve_config) -> r.(dr_nonce) = nonce ->
    VEffect env v (VConsumeDeploymentAuthorization nonce)
      (v <| v_deployment_receipts := store v.(v_deployment_receipts) env.(ve_receipt) r |>).

(** Turns the checks that passed into what they mean. *)
Ltac checked :=
  repeat match goal with
  | Hc : account_of _ _ = Ok _ |- _ => apply account_of_Ok in Hc
  | Hc : check_init _ _ _ _ = Ok _ |- _ => apply check_init_Ok in Hc
  | Hc : administered_config _ _ = Ok _ |- _ => apply administered_config_Ok in Hc as [? ?]
  | Hc : administered_authority _ _ = Ok _ |- _ => apply administered_authority_Ok in Hc as [? ?]
  | Hc : belongs_to _ _ = Ok _ |- _ => apply belongs_to_Ok in Hc
  | Hc : check_public_key _ = Ok _ |- _ => apply check_public_key_Ok in Hc
  | Hc : check_key_window _ _ = Ok _ |- _ => apply check_key_window_Ok in Hc
  | Hc : keys_eq _ _ = true |- _ => apply keys_eq_true in Hc
  | Hc : keys_eq _ _ = false |- _ => apply keys_eq_false in Hc
  | Hc : require_upgrade_authority _ = Ok _ |- _ =>
      unfold require_upgrade_authority in Hc; invert_step; bool_to_prop
  end.

Lemma consume_effect env v n v' :
  process_consume_authorization env v n = Ok v' -> VEffect env v (VConsumeAuthorization n) v'.
Proof.
  intros He. pose proof He as Hi. unfold process_consume_authorization in Hi. invert_ok. checked.
  by apply EffConsume.
Qed.

Lemma consume_deployment_effect env v n v' :
  process_consume_deployment_authorization env v n = Ok v' ->
  VEffect env v (VConsumeDeploymentAuthorization n) v'.
Proof.
  intros He. pose proof He as Hi. unfold process_consume_deployment_authorization in Hi.
  invert_ok. checked. by apply EffConsumeDeployment.
Qed.

(** Every accepted instruction is one of these effects. *)
Lemma vexec_effect env v ix v' : vexec env v ix = Ok v' -> VEffect env v ix v'.
Proof.
  destruct ix; simpl; intros He;
    [| | | | |by apply consume_effect| | | | |by apply consume_deployment_effect].
  - unfold process_initialize_config in He. invert_ok. checked. by constructor.
  - unfold process_register_trusted_key in He. invert_ok. checked. by econstructor.
  - unfold process_revoke_trusted_key in He. invert_ok. checked. by econstructor.
  - unfold process_register_mandate in He. invert_ok. checked. by econstructor.
  - unfold process_revoke_mandate in He. invert_ok. checked. by econstructor.
  - unfold process_initialize_deployment_authority in He. invert_ok. checked. by constructor.
  - unfold process_register_risk_key in He. invert_ok. checked. by econstructor.
  - unfold process_revoke_risk_key in He. invert_ok. checked. by econstructor.
  - unfold process_advance_policy_generation in He. invert_ok. checked. by econstructor.
Qed.

(** * Runs *)

(** The data of a transaction are bytes. *)
Definition transaction_bytes (t : Introspection) : Prop :=
  Forall (fun i => is_bytes i.(ix_data)) t.(in_instructions).

#[global] Instance transaction_bytes_dec t : Decision (transaction_bytes t).
Proof. unfold transaction_bytes. apply _. Defined.

Definition vstep v v' : Prop :=
  exists env ix, transaction_bytes env.(ve_introspection) /\ vexec env v ix = Ok v'.

Definition vruns : Verifier -> Verifier -> Prop := rtc vstep.

(** Before any instruction the program owns no account. *)
Definition no_accounts {A} (m : Store A) : Prop := forall k a, m !! k <> Some (Owned a).

Definition vgenesis v : Prop :=
  no_accounts v.(v_configs) /\ no_accounts v.(v_trusted_keys) /\ no_accounts v.(v_mandates)
  /\ no_accounts v.(v_receipts) /\ no_accounts v.(v_authorities) /\ no_accounts v.(v_risk_keys)
  /\ no_accounts v.(v_deployment_receipts).

Definition vreachable v : Prop := exists v0, vgenesis v0 /\ vruns v0 v.

(** * Well-formed accounts *)

Definition at_address (k : Key) (seeds : list (list Z)) (bump : Z) : Prop :=
  find_program_address seeds verifier_ID = (k, bump).

Definition config_ok (k : Key) (c : VerifierConfig) : Prop :=
  at_address k [CONFIG_SEED; environment_seed c.(vc_environment)] c.(vc_bump)
  /\ c.(vc_administrator) <> default_key /\ c.(vc_consumer) <> default_key
  /\ c.(vc_administrator) <> c.(vc_consumer).

Definition key_ok (public_key : list Z) (not_before not_after : Z) : Prop :=
  (head public_key = Some 2 \/ head public_key = Some 3) /\ 0 <= not_before < not_after.

(** A trusted key is filed under a configuration that accepts its id. *)
Definition trusted_key_ok v (k : Key) (t : TrustedKey) : Prop :=
  at_address k [TRUSTED_KEY_SEED; t.(tk_config); kid_seed t.(tk_kid)] t.(tk_bump)
  /\ is_profile_text t.(tk_kid) MAX_KID_LEN = true
  /\ key_ok t.(tk_public_key) t.(tk_not_before) t.(tk_not_after)
  /\ exists c, v.(v_configs) !! t.(tk_config) = Some (Owned c)
       /\ accepts_kid c.(vc_environment) t.(tk_kid) = true.

Definition mandate_ok v (k : Key) (m : Mandate) : Prop :=
  at_address k [MANDATE_SEED; m.(md_config); mandate_hash m.(md_mandate_id)] m.(md_bump)
  /\ m.(md_mandate_hash) = mandate_hash m.(md_mandate_id)
  /\ mandate_params_valid (mkRegisterMandateParams m.(md_mandate_hash) m.(md_mandate_id)
       m.(md_amount_micros) m.(md_currency) m.(md_recipient) m.(md_policy_version)
       m.(md_agent) m.(md_category)) = true
  /\ exists c, v.(v_configs) !! m.(md_config) = Some (Owned c).

Definition receipt_ok (k : Key) (r : ConsumedAuthorization) : Prop :=
  at_address k [RECEIPT_SEED; r.(ca_config); r.(ca_nonce_hash)] r.(ca_bump).

Definition authority_ok (k : Key) (a : DeploymentAuthority) : Prop :=
  at_address k (authority_seeds a.(da_remote_leg_program) a.(da_remote_config)) a.(da_bump)
  /\ a.(da_version) = DEPLOYMENT_PROFILE_VERSION /\ a.(da_administrator) <> default_key
  /\ a.(da_network_domain) <> wide_zero /\ is_u64 a.(da_policy_generation).

Definition risk_key_ok v (k : Key) (r : RiskKey) : Prop :=
  at_address k [RISK_KEY_SEED; r.(rk_config); public_key_parity_seed r.(rk_public_key);
    public_key_x_seed r.(rk_public_key)] r.(rk_key_bump)
  /\ key_ok r.(rk_public_key) r.(rk_not_before) r.(rk_not_after)
  /\ exists a, v.(v_authorities) !! r.(rk_config) = Some (Owned a).

Definition deployment_receipt_ok (k : Key) (r : DeploymentReceipt) : Prop :=
  at_address k [DEPLOYMENT_RECEIPT_SEED; r.(dr_config); r.(dr_nonce)] r.(dr_bump).

Definition all_accounts {A} (m : Store A) (P : Key -> A -> Prop) : Prop :=
  forall k a, m !! k = Some (Owned a) -> P k a.

Record well_formed v : Prop := {
  wf_configs : all_accounts v.(v_configs) config_ok;
  wf_trusted_keys : all_accounts v.(v_trusted_keys) (trusted_key_ok v);
  wf_mandates : all_accounts v.(v_mandates) (mandate_ok v);
  wf_receipts : all_accounts v.(v_receipts) receipt_ok;
  wf_authorities : all_accounts v.(v_authorities) authority_ok;
  wf_risk_keys : all_accounts v.(v_risk_keys) (risk_key_ok v);
  wf_deployment_receipts : all_accounts v.(v_deployment_receipts) deployment_receipt_ok
}.

(** * Histories *)

(** How the accounts of one store may change: none disappears, and each
    moves along [R]. *)
Definition grows {A} (R : A -> A -> Prop) (m m' : Store A) : Prop :=
  forall k a, m !! k = Some (Owned a) -> exists a', m' !! k = Some (Owned a') /\ R a a'.

(** Revocation is the one change a key or a mandate knows. *)
Definition key_moves (t t' : TrustedKey) : Prop :=
  t' = t \/ t.(tk_revoked) = false /\ t' = t <| tk_revoked := true |>.

Definition mandate_moves (m m' : Mandate) : Prop :=
  m' = m \/ m.(md_revoked) = false /\ m' = m <| md_revoked := true |>.

Definition risk_key_moves (r r' : RiskKey) : Prop :=
  r' = r \/ r.(rk_revoked) = false /\ r' = r <| rk_revoked := true |>.

(** An authority only ever moves to later policy generations. *)
Definition authority_moves (a a' : DeploymentAuthority) : Prop :=
  exists g, a.(da_policy_generation) <= g /\ a' = a <| da_policy_generation := g |>.

Record advances v v' : Prop := {
  adv_configs : grows eq v.(v_configs) v'.(v_configs);
  adv_trusted_keys : grows key_moves v.(v_trusted_keys) v'.(v_trusted_keys);
  adv_mandates : grows mandate_moves v.(v_mandates) v'.(v_mandates);
  adv_receipts : grows eq v.(v_receipts) v'.(v_receipts);
  adv_authorities : grows authority_moves v.(v_authorities) v'.(v_authorities);
  adv_risk_keys : grows risk_key_moves v.(v_risk_keys) v'.(v_risk_keys);
  adv_deployment_receipts : grows eq v.(v_deployment_receipts) v'.(v_deployment_receipts)
}.

#[global] Instance key_moves_preorder : PreOrder key_moves.
Proof. split; [by left|]. unfold key_moves. intros ? ? ?. naive_solver. Qed.

#[global] Instance mandate_moves_preorder : PreOrder mandate_moves.
Proof. split; [by left|]. unfold mandate_moves. intros ? ? ?. naive_solver. Qed.

#[global] Instance risk_key_moves_preorder : PreOrder risk_key_moves.
Proof. split; [by left|]. unfold risk_key_moves. intros ? ? ?. naive_solver. Qed.

#[global] Instance authority_moves_preorder : PreOrder authority_moves.
Proof.
  split; [intros a; exists a.(da_policy_generation); split; [lia|by destruct a]|].
  intros a ? ? (g & Hg & ->) (g' & Hg' & ->). exists g'. split; [simpl in *; lia|done].
Qed.

Section grows.
Context {A} (R : A -> A -> Prop) `{!PreOrder R}.

#[global] Instance grows_preorder : PreOrder (grows R).
Proof using PreOrder0.
  split; [intros m k a Ha; by exists a|].
  intros m1 m2 m3 H12 H23 k a Ha. destruct (H12 k a Ha) as (b & Hb & Hab).
  destruct (H23 k b Hb) as (c & Hc & Hbc). exists c. split; [done|by transitivity b].
Qed.

Lemma grows_fresh m k a : m !! k = None -> grows R m (store m k a).
Proof using PreOrder0.
  intros Hk j b Hb. exists b. split; [|done]. unfold store.
  rewrite lookup_insert_ne; [done|congruence].
Qed.

Lemma grows_update m k a b : m !! k = Some (Owned a) -> R a b -> grows R m (store m k b).
Proof using PreOrder0.
  intros Hk Hab j c Hc. unfold store. destruct (decide (j = k)) as [->|Hne].
  - rewrite lookup_insert_eq. exists b. split; [done|congruence].
  - rewrite lookup_insert_ne by congruence. by exists c.
Qed.

End grows.

#[global] Instance advances_preorder : PreOrder advances.
Proof.
  split; [by split|]. intros v1 v2 v3 [] []. split; by etransitivity.
Qed.

(** One instruction changes one account of one store. *)
Lemma effect_advances env v ix v' : VEffect env v ix v' -> advances v v'.
Proof.
  intros He. destruct He; unfold fresh in *; repeat match goal with H : _ /\ _ |- _ => destruct H end;
    (split; simpl; try reflexivity);
    first [by apply grows_fresh; try apply _ | eapply grows_update; try apply _; [eassumption|]].
  - by right.
  - by right.
  - by right.
  - exists (da_policy_generation c + 1). split; [lia|done].
Qed.

Lemma vstep_advances v v' : vstep v v' -> advances v v'.
Proof. intros (env & ix & _ & He). by eapply effect_advances, vexec_effect. Qed.

Lemma vruns_advances v v' : vruns v v' -> advances v v'.
Proof. induction 1; [done|]. etransitivity; [by apply vstep_advances|done]. Qed.

(** * Well-formedness is kept *)

Lemma all_accounts_store {A} (m : Store A) (P : Key -> A -> Prop) k a :
  all_accounts m P -> P k a -> all_accounts (store m k a) P.
Proof.
  intros Hm Hk j b Hb. unfold store in Hb. destruct (decide (j = k)) as [->|Hne].
  - rewrite lookup_insert_eq in Hb. by simplify_eq.
  - rewrite lookup_insert_ne in Hb by congruence. by apply Hm.
Qed.

Lemma all_accounts_impl {A} (m : Store A) (P Q : Key -> A -> Prop) :
  all_accounts m P -> (forall k a, P k a -> Q k a) -> all_accounts m Q.
Proof. intros Hm Himp k a Ha. by apply Himp, Hm. Qed.

Lemma trusted_key_ok_advances v v' k t :
  advances v v' -> trusted_key_ok v k t -> trusted_key_ok v' k t.
Proof.
  intros Ha (? & ? & ? & c & Hc & ?). do 3 (split; [done|]).
  destruct (adv_configs _ _ Ha _ _ Hc) as (? & ? & <-). eauto.
Qed.

Lemma mandate_ok_advances v v' k m : advances v v' -> mandate_ok v k m -> mandate_ok v' k m.
Proof.
  intros Ha (? & ? & ? & c & Hc). do 3 (split; [done|]).
  destruct (adv_configs _ _ Ha _ _ Hc) as (? & ? & <-). eauto.
Qed.

Lemma risk_key_ok_advances v v' k r : advances v v' -> risk_key_ok v k r -> risk_key_ok v' k r.
Proof.
  intros Ha (? & ? & c & Hc). do 2 (split; [done|]).
  destruct (adv_authorities _ _ Ha _ _ Hc) as (? & ? & _). eauto.
Qed.

(** The accounts that were there stay well formed in a later state. *)
Lemma well_formed_later v v' :
  advances v v' -> well_formed v ->
  all_accounts v.(v_trusted_keys) (trusted_key_ok v')
  /\ all_accounts v.(v_mandates) (mandate_ok v') /\ all_accounts v.(v_risk_keys) (risk_key_ok v').
Proof.
  intros Ha Hw. split_and!; (eapply all_accounts_impl; [by apply Hw|]); intros.
  - by eapply trusted_key_ok_advances.
  - by eapply mandate_ok_advances.
  - by eapply risk_key_ok_advances.
Qed.

Lemma effect_well_formed env v ix v' : VEffect env v ix v' -> well_formed v -> well_formed v'.
Proof.
  intros He Hw. pose proof (effect_advances _ _ _ _ He) as Ha.
  destruct (well_formed_later _ _ Ha Hw) as (Ht & Hm & Hr). destruct Hw.
  destruct He; unfold fresh in *; repeat match goal with H : _ /\ _ |- _ => destruct H end;
    (split; simpl; try done); apply all_accounts_store; try done.
  - repeat split; try done. simpl. eauto.
  - match goal with Hk : _ !! _ = Some (Owned key) |- _ => exact (Ht _ _ Hk) end.
  - repeat split; try done; simpl; [congruence|eauto].
  - match goal with Hk : _ !! _ = Some (Owned m) |- _ => exact (Hm _ _ Hk) end.
  - unfold receipt_ok, at_address. congruence.
  - repeat split; try done. simpl. eauto.
  - match goal with Hk : _ !! _ = Some (Owned key) |- _ => exact (Hr _ _ Hk) end.
  - match goal with Hk : _ !! _ = Some (Owned c) |- _ =>
      destruct (wf_authorities0 _ _ Hk) as (? & ? & ? & ? & Hg) end.
    unfold fits in *. repeat split; try done; simpl; lia.
  - unfold deployment_receipt_ok, at_address. congruence.
Qed.

Lemma vgenesis_well_formed v : vgenesis v -> well_formed v.
Proof.
  intros (H1 & H2 & H3 & H4 & H5 & H6 & H7). split; intros k a Ha; exfalso.
  - by eapply H1.
  - by eapply H2.
  - by eapply H3.
  - by eapply H4.
  - by eapply H5.
  - by eapply H6.
  - by eapply H7.
Qed.

Lemma vruns_well_formed v v' : vruns v v' -> well_formed v -> well_formed v'.
Proof.
  induction 1 as [|? ? ? (env & ix & _ & He) _ IH]; [done|]. intros Hw.
  apply IH. by eapply effect_well_formed; [apply vexec_effect|].
Qed.

Lemma vreachable_well_formed v : vreachable v -> well_formed v.
Proof. intros (v0 & Hg & Hr). by eapply vruns_well_formed, vgenesis_well_formed. Qed.

Lemma vreachable_step v v' : vreachable v -> vstep v v' -> vreachable v'.
Proof. intros (v0 & Hg & Hr) Hs. exists v0. split; [done|]. by eapply rtc_r. Qed.

(** * Provenance *)

(** Every deployment receipt was written by an instruction that consumed
    an approval, at a state the run passed through. *)
Definition receipt_written v (k : Key) (r : DeploymentReceipt) : Prop :=
  exists env v0, vreachable v0 /\ transaction_bytes env.(ve_introspection) /\
    env.(ve_receipt) = k /\
    let v1 := v0 <| v_deployment_receipts := store v0.(v_deployment_receipts) k r |> in
    process_consume_deployment_authorization env v0 r.(dr_nonce) = Ok v1 /\ vruns v1 v.

Lemma receipt_written_step v v' k r : vstep v v' -> receipt_written v k r -> receipt_written v' k r.
Proof.
  intros Hs (env & v0 & Hv0 & Hb & Hk & He & Hr). exists env, v0. do 4 (split; [done|]).
  by eapply rtc_r.
Qed.

Lemma effect_receipts env v ix v' k r :
  VEffect env v ix v' -> v'.(v_deployment_receipts) !! k = Some (Owned r) ->
  v.(v_deployment_receipts) !! k = Some (Owned r) \/
  env.(ve_receipt) = k /\
  v' = v <| v_deployment_receipts := store v.(v_deployment_receipts) k r |> /\
  process_consume_deployment_authorization env v r.(dr_nonce) = Ok v'.
Proof.
  intros He Hk. destruct He as [| | | | | | | | | |nonce r' Hp _ _ Hn]; auto.
  simpl in Hk. unfold store in Hk. destruct (decide (k = ve_receipt env)) as [->|Hne].
  - rewrite lookup_insert_eq in Hk. injection Hk as ->. right. by rewrite Hn.
  - rewrite lookup_insert_ne in Hk by congruence. by left.
Qed.

Lemma receipt_origin v k r :
  vreachable v -> v.(v_deployment_receipts) !! k = Some (Owned r) -> receipt_written v k r.
Proof.
  intros (vg & Hg & Hr). revert v Hr k r.
  refine (rtc_ind_r (fun v => forall k r,
    v.(v_deployment_receipts) !! k = Some (Owned r) -> receipt_written v k r) vg _ _).
  { intros k r Hk. destruct Hg as (_ & _ & _ & _ & _ & _ & Hno). by destruct (Hno k r). }
  intros v v' Hr [env [ix [Hb He]]] IH k r Hk.
  assert (Hs : vstep v v') by (by exists env, ix).
  destruct (effect_receipts _ _ _ _ _ _ (vexec_effect _ _ _ _ He) Hk) as [Hold|(Hk' & Hv' & Hp)].
  - by eapply receipt_written_step, IH.
  - exists env, v. split; [by exists vg|]. do 2 (split; [done|]). rewrite <-Hv'. split; [done|].
    apply rtc_refl.
Qed.

End runs.
