(* ===== verification/VerifierApprovals.v ===== *)
(** Approvals: what a consumed verdict or deployment approval proves about
    the transaction that carried it, and what a whole run never undoes. *)

From Stdlib Require Import ZArith Lia.
From stdpp Require Import strings.
From S2P Require Import Prelude AccountingMath ProtocolLayout ProtocolTypes ProtocolCodec ProtocolWire.
From S2P Require Import RemoteState RemoteMessage RemotePlatform RemoteInit RemoteBooks.
From S2P Require Import VerifierState VerifierJwt VerifierProgram VerifierRuns VerifierBase64.

(** * Deployment messages *)

Record deployment_typed (m : DeploymentAuthorization) : Prop := {
  dt_authority : is_wide m.(dz_authority);
  dt_network_domain : is_wide m.(dz_network_domain);
  dt_policy_generation : is_u64 m.(dz_policy_generation);
  dt_deployment_context : is_wide m.(dz_deployment_context);
  dt_amount : is_u64 m.(dz_amount);
  dt_nonce : length m.(dz_nonce) = DEPLOYMENT_NONCE_LEN /\ is_bytes m.(dz_nonce);
  dt_issued_at : is_i64 m.(dz_issued_at);
  dt_expires_at : is_i64 m.(dz_expires_at)
}.

Lemma reader_take_Ok n b t r : reader_take n b = Ok (t, r) -> b = t ++ r /\ length t = n.
Proof.
  unfold reader_take. destruct (Nat.leb_spec n (length b)); [|done]. intros [= <- <-].
  rewrite take_drop, length_take. split; [done|lia].
Qed.

Lemma reader_take_app n t r : length t = n -> reader_take n (t ++ r) = Ok (t, r).
Proof.
  intros <-. unfold reader_take. rewrite (proj2 (Nat.leb_le _ _)) by (rewrite length_app; lia).
  by rewrite take_app_length, drop_app_length.
Qed.

(** Peels the reads of a decoder that succeeded. *)
Ltac taken :=
  repeat match goal with
  | Hr : reader_take _ _ = Ok (_, _) |- _ => apply reader_take_Ok in Hr as [-> ?]
  end.

Lemma decode_deployment_canonical b m :
  is_bytes b -> decode_deployment b = Ok m -> deployment_typed m /\ b = encode_deployment m.
Proof.
  intros Hb H. unfold decode_deployment in H.
  repeat match type of H with
  | (if ?c then _ else _) = Ok _ => let E := fresh "E" in destruct c eqn:E; [|done]
  | (match reader_take ?n ?l with _ => _ end) = Ok _ =>
      let E := fresh "E" in destruct (reader_take n l) as [[? ?]|] eqn:E; [|done]
  end.
  taken. injection H as <-. apply Nat.eqb_eq in E. rewrite !length_app in E.
  repeat match goal with Hd : bool_decide _ = true |- _ => apply bool_decide_eq_true in Hd as -> end.
  unfold is_bytes in Hb. rewrite !Forall_app in Hb. destruct_and!.
  repeat match goal with Hn : length ?l = _ |- _ => rewrite Hn in E end.
  unfold DEPLOYMENT_MESSAGE_LEN, DEPLOYMENT_NONCE_LEN in E.
  match type of E with context [length ?l] => is_var l; assert (l = []) as ->
    by (apply length_zero_iff_nil; lia) end.
  repeat match goal with
  | Hw : Forall is_byte ?l, Hn : length ?l = 8%nat |- _ =>
      destruct (u64_to_from_le l Hw Hn); destruct (i64_to_from_le l Hw Hn); clear Hw
  end.
  split; [split; first [assumption | split; assumption]|]. unfold encode_deployment.
  cbn [dz_authority dz_network_domain dz_policy_generation dz_deployment_context dz_amount
       dz_nonce dz_issued_at dz_expires_at concat].
  repeat match goal with Ht : _ = ?l |- context [from_le ?l] => rewrite Ht end.
  repeat match goal with Ht : _ = ?l |- context [i64_from_le ?l] => rewrite Ht end.
  done.
Qed.

Lemma length_encode_deployment m :
  deployment_typed m -> length (encode_deployment m) = DEPLOYMENT_MESSAGE_LEN.
Proof.
  intros [[Ha _] [Hd _] _ [Hc _] _ [Hn _] _ _]. unfold encode_deployment. cbn [concat].
  rewrite !length_app, Ha, Hd, Hc, Hn, !length_i64_to_le, !(length_to_le 8). reflexivity.
Qed.

Lemma decode_encode_deployment m :
  deployment_typed m -> decode_deployment (encode_deployment m) = Ok m.
Proof.
  intros Ht. unfold decode_deployment. rewrite (length_encode_deployment m Ht), Nat.eqb_refl.
  destruct Ht as [[Ha _] [Hd _] Hg [Hc _] Hm [Hn _] Hi He]. unfold encode_deployment. cbn [concat].
  rewrite (reader_take_app 8 DEPLOYMENT_MAGIC) by done. rewrite bool_decide_true by done.
  do 2 (rewrite (reader_take_app 1 [_]) by done; rewrite bool_decide_true by done).
  rewrite (reader_take_app 32 (dz_authority m)) by exact Ha.
  rewrite (reader_take_app 32 (dz_network_domain m)) by exact Hd.
  rewrite (reader_take_app 8 (to_le 8 _)) by apply length_to_le.
  rewrite (reader_take_app 32 (dz_deployment_context m)) by exact Hc.
  rewrite (reader_take_app 8 (to_le 8 _)) by apply length_to_le.
  rewrite (reader_take_app _ (dz_nonce m)) by exact Hn.
  rewrite !(reader_take_app 8 (i64_to_le _)) by apply length_i64_to_le.
  rewrite (u64_from_to_le _ Hg), (u64_from_to_le _ Hm), (i64_from_to_le _ Hi), (i64_from_to_le _ He).
  by destruct m.
Qed.

(** * Signed instructions *)

Section approvals.
Context `{Runtime}.
Implicit Types (env : VEnv) (v : Verifier).

(** An instruction of the native secp256r1 program that verifies one
    signature of [message] by [public_key], with every operand inline. *)
Definition signed_by (i : Instruction) (public_key message : list Z) : Prop :=
  i.(ix_program_id) = secp256r1_ID /\ i.(ix_accounts) = [] /\
  exists signature, length public_key = COMPRESSED_PUBLIC_KEY_LEN
    /\ length signature = SIGNATURE_LEN
    /\ message <> [] /\ (length message <= MAX_SIGNING_INPUT_LEN)%nat
    /\ i.(ix_data) = canonical_header (Z.of_nat (length message)) ++ public_key ++ signature ++ message.

Lemma parse_precompile_Ok data s :
  parse_precompile_data data = Ok s ->
  exists signature, length s.(vs_public_key) = COMPRESSED_PUBLIC_KEY_LEN
    /\ length signature = SIGNATURE_LEN /\ s.(vs_signing_input) <> []
    /\ (length s.(vs_signing_input) <= MAX_SIGNING_INPUT_LEN)%nat
    /\ data = canonical_header (Z.of_nat (length s.(vs_signing_input)))
              ++ s.(vs_public_key) ++ signature ++ s.(vs_signing_input).
Proof.
  intros Hp. unfold parse_precompile_data, get_from in Hp.
  destruct (Nat.leb_spec MESSAGE_OFFSET (length data)) as [Hlen|]; [|done]. cbn [ok_or] in Hp.
  invert_ok.
  match goal with Hn : (length (drop _ _) =? 0)%nat = false |- _ => apply Nat.eqb_neq in Hn as Hne end.
  exists (slice data SIGNATURE_OFFSET SIGNATURE_LEN). cbn [vs_public_key vs_signing_input].
  assert (Hm : (113 <= length data)%nat) by exact Hlen.
  split; [apply (length_slice data 16 33); lia|].
  split; [apply (length_slice data 49 64); lia|].
  split; [intros He; apply Hne; by rewrite He|]. split; [by apply Nat.leb_le|].
  rewrite <-E2. unfold slice. rewrite <-(take_drop PUBLIC_KEY_OFFSET data) at 1. f_equal.
  rewrite <-(take_drop 33 (drop PUBLIC_KEY_OFFSET data)) at 1. f_equal. rewrite drop_drop.
  change (PUBLIC_KEY_OFFSET + 33)%nat with SIGNATURE_OFFSET.
  rewrite <-(take_drop SIGNATURE_LEN (drop SIGNATURE_OFFSET data)) at 1. f_equal.
  by rewrite drop_drop.
Qed.

Lemma try_fold_all {A} (f : A -> VResult unit) l u :
  try_fold (fun _ x => f x) u l = Ok tt -> forall x, x ∈ l -> f x = Ok tt.
Proof.
  revert u. induction l as [|y l IH]; intros u Hf x Hx; [by apply not_elem_of_nil in Hx|].
  cbn [try_fold] in Hf. destruct (f y) as [[]|] eqn:E; [|done].
  apply elem_of_cons in Hx as [->|Hx]; [done|by eapply IH].
Qed.

(** The shape a transaction must have around a consumption. *)
Record signed_transaction (t : Introspection) (i : nat) (pre : Instruction) : Prop := {
  st_top_level : t.(in_stack_height) = TRANSACTION_LEVEL_STACK_HEIGHT;
  st_current : t.(in_current_index) = S i;
  st_precompile : t.(in_instructions) !! i = Some pre;
  st_program : pre.(ix_program_id) = secp256r1_ID;
  st_accounts : pre.(ix_accounts) = [];
  st_before : forall j x, (j < i)%nat -> t.(in_instructions) !! j = Some x ->
    x.(ix_program_id) = compute_budget_ID;
  st_after : forall j x, (S i < j)%nat -> t.(in_instructions) !! j = Some x ->
    x.(ix_program_id) <> verifier_ID /\ x.(ix_program_id) <> secp256r1_ID
}.

Lemma load_verified_precompile_Ok t pre :
  load_verified_precompile t = Ok pre -> exists i, signed_transaction t i pre.
Proof.
  intros Hl. unfold load_verified_precompile, instruction_at in Hl. invert_ok.
  apply keys_eq_true in E5. apply Nat.eqb_eq, length_zero_iff_nil in E6.
  rename E2 into Hi, E3 into Hall.
  destruct (in_current_index t) as [|i] eqn:Hc; [done|]. injection Hi as <-. exists i.
  destruct a1 as []. pose proof (try_fold_all _ _ _ Hall) as Hj. clear Hall.
  assert (Hseq : forall j x, in_instructions t !! j = Some x -> j ∈ seq 0 (length (in_instructions t))).
  { intros j x Hx. apply elem_of_seq. apply lookup_lt_Some in Hx. lia. }
  split; try done.
  - intros j x Hlt Hx. specialize (Hj j (Hseq _ _ Hx)). simpl in Hj.
    rewrite (proj2 (Nat.eqb_neq j i)), (proj2 (Nat.eqb_neq j (S i))) in Hj by lia. simpl in Hj.
    rewrite Hx in Hj. simpl in Hj. rewrite (proj2 (Nat.ltb_lt j i) Hlt) in Hj.
    destruct (keys_eq _ _) eqn:Ek in Hj; [|done]. by apply keys_eq_true in Ek.
  - intros j x Hlt Hx. specialize (Hj j (Hseq _ _ Hx)). simpl in Hj.
    rewrite (proj2 (Nat.eqb_neq j i)), (proj2 (Nat.eqb_neq j (S i))) in Hj by lia. simpl in Hj.
    rewrite Hx in Hj. simpl in Hj. rewrite (proj2 (Nat.ltb_ge j i)) in Hj by lia.
    destruct (_ && _) eqn:Ek in Hj; [|done].
    apply andb_true_iff in Ek as [Ha%negb_true_iff Hb%negb_true_iff].
    by apply keys_eq_false in Ha; apply keys_eq_false in Hb.
Qed.

(** * Deployment approvals *)

(** The instruction after the consumption deploys the approved amount on
    the remote leg of the authority, under this receipt. *)
Definition deployment_follows (t : Introspection) (a : DeploymentAuthority) (receipt : Key)
    (amount : Z) : Prop :=
  exists next, t.(in_instructions) !! S t.(in_current_index) = Some next
    /\ next.(ix_program_id) = a.(da_remote_leg_program)
    /\ next.(ix_data) = DEPLOY_TO_STRATEGY_DISCRIMINATOR ++ to_le 8 amount
    /\ named next DEPLOY_REMOTE_CONFIG_INDEX = Some a.(da_remote_config)
    /\ named next DEPLOY_RECEIPT_INDEX = Some receipt.

(** What a consumed deployment approval proves: a risk key of the authority,
    registered, unrevoked and inside its window, signed a message that names
    this authority, its network and its current policy generation; the
    receipt repeats the message. *)
Record deployment_approved env v (r : DeploymentReceipt) (a : DeploymentAuthority) (key : RiskKey)
    (m : DeploymentAuthorization) (i : nat) (pre : Instruction) : Prop := {
  da_known : v.(v_authorities) !! r.(dr_config) = Some (Owned a);
  da_key_known : v.(v_risk_keys) !! r.(dr_risk_key) = Some (Owned key);
  da_key_config : key.(rk_config) = r.(dr_config);
  da_key_live : key.(rk_revoked) = false;
  da_transaction : signed_transaction env.(ve_introspection) i pre;
  da_signed : signed_by pre key.(rk_public_key) (encode_deployment m);
  da_typed : deployment_typed m;
  da_authority_named : m.(dz_authority) = r.(dr_config);
  da_network : m.(dz_network_domain) = a.(da_network_domain);
  da_generation : m.(dz_policy_generation) = a.(da_policy_generation);
  da_amount : m.(dz_amount) = r.(dr_amount) /\ 0 < r.(dr_amount);
  da_nonce : m.(dz_nonce) = r.(dr_nonce);
  da_context : m.(dz_deployment_context) = r.(dr_deployment_context);
  da_lifetime : m.(dz_issued_at) < m.(dz_expires_at) <= m.(dz_issued_at) + MAX_LIFETIME_SECONDS;
  da_expiry : m.(dz_expires_at) = r.(dr_expires_at);
  da_fresh : m.(dz_issued_at) <= r.(dr_consumed_at) + MAX_ISSUED_AT_SKEW_SECONDS
    /\ r.(dr_consumed_at) < m.(dz_expires_at);
  da_window : key.(rk_not_before) <= r.(dr_consumed_at) /\ key.(rk_not_before) <= m.(dz_issued_at)
    /\ m.(dz_expires_at) <= key.(rk_not_after);
  da_remote : r.(dr_remote_config) = a.(da_remote_config);
  da_follows : deployment_follows env.(ve_introspection) a env.(ve_receipt) r.(dr_amount)
}.

Lemma check_times_Ok m now u :
  check_times m now = Ok u ->
  (m.(dz_issued_at) < m.(dz_expires_at) <= m.(dz_issued_at) + MAX_LIFETIME_SECONDS)
  /\ m.(dz_issued_at) <= now + MAX_ISSUED_AT_SKEW_SECONDS /\ now < m.(dz_expires_at).
Proof.
  unfold check_times, i64_checked_add. intros Ht. invert_ok.
  repeat match goal with Hi : (if ?c then Some _ else None) = Some _ |- _ =>
    destruct c; [injection Hi as <-|discriminate Hi] end. lia.
Qed.

Lemma check_deployment_follows_Ok t a receipt amount u :
  check_deployment_follows t a receipt amount = Ok u -> deployment_follows t a receipt amount.
Proof.
  unfold check_deployment_follows, deployment_follows. intros Hf. invert_ok.
  match goal with Hk : keys_eq _ _ = true |- _ => apply keys_eq_true in Hk end. eauto 10.
Qed.

(** Turns the checks of a consumption into what they mean. *)
Ltac approval_checks :=
  repeat match goal with
  | Hc : account_of _ _ = Ok _ |- _ => apply account_of_Ok in Hc
  | Hc : belongs_to _ _ = Ok _ |- _ => apply belongs_to_Ok in Hc
  | Hc : keys_eq _ _ = true |- _ => apply keys_eq_true in Hc
  | Hc : check_times _ _ = Ok _ |- _ => apply check_times_Ok in Hc as (? & ? & ?)
  | Hc : check_deployment_follows _ _ _ _ = Ok _ |- _ => apply check_deployment_follows_Ok in Hc
  | Hc : load_verified_precompile _ = Ok _ |- _ =>
      let i := fresh "i" in let Ht := fresh "Ht" in
      apply load_verified_precompile_Ok in Hc as (i & Ht)
  end.

(** The signature that a precompile instruction carries. *)
Lemma precompile_signed t i pre s :
  transaction_bytes t -> signed_transaction t i pre -> parse_precompile_data pre.(ix_data) = Ok s ->
  signed_by pre s.(vs_public_key) s.(vs_signing_input) /\ is_bytes s.(vs_signing_input).
Proof.
  intros Hb [] Hp. apply parse_precompile_Ok in Hp as (signature & Hpk & Hsig & Hne & Hmax & Hd).
  split; [by repeat (split; [done|]); exists signature|].
  pose proof (Forall_lookup_1 _ _ _ _ Hb st_precompile0) as Hx. simpl in Hx.
  unfold is_bytes in Hx. rewrite Hd, !Forall_app in Hx. apply Hx.
Qed.

Lemma consume_deployment_Ok env v nonce v' :
  transaction_bytes env.(ve_introspection) ->
  process_consume_deployment_authorization env v nonce = Ok v' ->
  exists r a key m i pre, deployment_approved env v r a key m i pre
    /\ v' = v <| v_deployment_receipts := store v.(v_deployment_receipts) env.(ve_receipt) r |>
    /\ r.(dr_consumed_at) = env.(ve_unix_timestamp) /\ r.(dr_nonce) = nonce
    /\ r.(dr_config) = env.(ve_config)
    /\ r.(dr_message_hash) = sha256 (encode_deployment m).
Proof.
  intros Hb He. unfold process_consume_deployment_authorization in He. invert_ok. approval_checks.
  match goal with Hp : parse_precompile_data _ = Ok ?s, Ht : signed_transaction _ _ _ |- _ =>
    destruct (precompile_signed _ _ _ _ Hb Ht Hp) as [Hs Hbytes] end.
  match goal with Hd : decode_deployment _ = Ok ?m |- _ =>
    destruct (decode_deployment_canonical _ _ Hbytes Hd) as [Htyped Hmsg] end.
  rewrite Hmsg in Hs |- *. do 6 eexists. split; [|split; [reflexivity|done]].
  split; simpl; try eassumption; try done; congruence.
Qed.

(** * Verdicts *)

(** What a consumed verdict proves: a trusted key of the configuration,
    unrevoked and inside its window, signed a token whose documents spell
    these claims, and the claims are those of the mandate. *)
Record verdict_approved env v (r : ConsumedAuthorization) (c : VerifierConfig) (key : TrustedKey)
    (m : Mandate) (d : DecodedSigningInput) (h : JwtHeader) (claims : Claims) (i : nat)
    (pre : Instruction) (si : list Z) : Prop := {
  vd_config : v.(v_configs) !! r.(ca_config) = Some (Owned c);
  vd_consumer : env.(ve_signer) = c.(vc_consumer);
  vd_key : v.(v_trusted_keys) !! env.(ve_trusted_key) = Some (Owned key)
    /\ key.(tk_config) = r.(ca_config) /\ key.(tk_revoked) = false;
  vd_mandate : v.(v_mandates) !! r.(ca_mandate) = Some (Owned m)
    /\ m.(md_config) = r.(ca_config) /\ m.(md_revoked) = false;
  vd_transaction : signed_transaction env.(ve_introspection) i pre;
  vd_signed : signed_by pre key.(tk_public_key) si;
  vd_bytes : is_bytes si;
  vd_decoded : decode_signing_input si = Ok d;
  vd_header : parse_header d.(ds_header_json) = Ok h;
  vd_claims : parse_claims d.(ds_payload_json) = Ok claims;
  vd_kid : h.(jh_kid) = key.(tk_kid) /\ accepts_kid c.(vc_environment) h.(jh_kid) = true;
  vd_verdict : claims.(cl_iss) = ISSUER /\ claims.(cl_verdict) = ALLOW_VERDICT;
  vd_lifetime : claims.(cl_exp) = claims.(cl_iat) + VERDICT_LIFETIME_SECONDS
    /\ claims.(cl_iat) <= r.(ca_consumed_at) + MAX_ISSUED_AT_SKEW_SECONDS
    /\ r.(ca_consumed_at) < claims.(cl_exp);
  vd_window : key.(tk_not_before) <= r.(ca_consumed_at) /\ key.(tk_not_before) <= claims.(cl_iat)
    /\ claims.(cl_exp) <= key.(tk_not_after);
  vd_matches : claims.(cl_mandate) = m.(md_mandate_id)
    /\ claims.(cl_request).(rq_amount_micros) = m.(md_amount_micros)
    /\ claims.(cl_request).(rq_currency) = m.(md_currency)
    /\ claims.(cl_request).(rq_recipient) = m.(md_recipient)
    /\ claims.(cl_policy_version) = m.(md_policy_version)
    /\ claims.(cl_request).(rq_agent) = m.(md_agent)
    /\ claims.(cl_request).(rq_category) = m.(md_category);
  vd_nonce : r.(ca_nonce_hash) = nonce_hash claims.(cl_nonce)
}.

Lemma check_claims_Ok claims now u :
  check_claims claims now = Ok u ->
  claims.(cl_iss) = ISSUER /\ claims.(cl_verdict) = ALLOW_VERDICT
  /\ claims.(cl_exp) = claims.(cl_iat) + VERDICT_LIFETIME_SECONDS
  /\ claims.(cl_iat) <= now + MAX_ISSUED_AT_SKEW_SECONDS /\ now < claims.(cl_exp).
Proof.
  unfold check_claims, i64_checked_add. intros Hc. invert_ok.
  repeat match goal with Hi : (if ?c then Some _ else None) = Some _ |- _ =>
    destruct c; [injection Hi as Hi|discriminate Hi] end.
  repeat match goal with Hk : keys_eq _ _ = true |- _ => apply keys_eq_true in Hk end.
  split_and!; done || lia.
Qed.

Lemma check_mandate_Ok m claims u :
  check_mandate m claims = Ok u ->
  m.(md_revoked) = false /\ claims.(cl_mandate) = m.(md_mandate_id)
  /\ claims.(cl_request).(rq_amount_micros) = m.(md_amount_micros)
  /\ claims.(cl_request).(rq_currency) = m.(md_currency)
  /\ claims.(cl_request).(rq_recipient) = m.(md_recipient)
  /\ claims.(cl_policy_version) = m.(md_policy_version)
  /\ claims.(cl_request).(rq_agent) = m.(md_agent)
  /\ claims.(cl_request).(rq_category) = m.(md_category).
Proof.
  unfold check_mandate. intros Hc. invert_ok.
  repeat match goal with Hk : keys_eq _ _ = true |- _ => apply keys_eq_true in Hk end. done.
Qed.

Lemma lift_parse_Ok {A} (r : ParseResult A) a : lift_parse r = Ok a <-> r = Ok a.
Proof. destruct r as [|[]]; simpl; naive_solver. Qed.

Lemma consume_authorization_Ok env v n v' :
  transaction_bytes env.(ve_introspection) ->
  process_consume_authorization env v n = Ok v' ->
  exists r c key m d h claims i pre si, verdict_approved env v r c key m d h claims i pre si
    /\ v' = v <| v_receipts := store v.(v_receipts) env.(ve_receipt) r |>
    /\ r.(ca_nonce_hash) = n /\ r.(ca_config) = env.(ve_config)
    /\ r.(ca_consumed_at) = env.(ve_unix_timestamp)
    /\ r.(ca_expires_at) = claims.(cl_exp) /\ r.(ca_signing_input_hash) = sha256 si.
Proof.
  intros Hb He. unfold process_consume_authorization in He. invert_ok. approval_checks.
  repeat match goal with
  | Hl : lift_parse _ = Ok _ |- _ => apply lift_parse_Ok in Hl
  | Hc : check_claims _ _ = Ok _ |- _ => apply check_claims_Ok in Hc as (? & ? & ? & ? & ?)
  | Hc : check_mandate _ _ = Ok _ |- _ => apply check_mandate_Ok in Hc as (? & ?)
  end.
  match goal with Hp : parse_precompile_data _ = Ok ?s, Ht : signed_transaction _ _ _ |- _ =>
    destruct (precompile_signed _ _ _ _ Hb Ht Hp) as [Hs Hbytes] end.
  do 10 eexists. split; [|split; [reflexivity|done]].
  split; simpl; try eassumption; try done; try congruence; split_and?; try done; congruence.
Qed.

End approvals.

(** * Safety over whole runs *)

(** Spent nonces, revoked keys and mandates, policy generations, and the
    receipts a remote leg relies on. *)

Section safety.
Context `{Runtime}.
Implicit Types (env : VEnv) (v : Verifier).

(** * Documents *)

Lemma base64url_longer b : (length b <= length (base64url b))%nat.
Proof.
  remember (length b) as n eqn:Hn. revert b Hn. induction n as [n IH] using lt_wf_ind.
  intros b ->. destruct b as [|x [|y [|z b]]]; cbn [base64url length]; try lia.
  specialize (IH (length b) ltac:(simpl; lia) b eq_refl). lia.
Qed.

(** The documents of a signed token are short. *)
Lemma documents_addressable pre key si d :
  signed_by pre key si -> decode_signing_input si = Ok d ->
  addressable d.(ds_header_json) /\ addressable d.(ds_payload_json).
Proof.
  intros (_ & _ & _ & _ & _ & _ & Hmax & _) (_ & _ & _ & _ & ->)%decode_signing_input_iff.
  rewrite !length_app in Hmax. pose proof (base64url_longer d.(ds_header_json)).
  pose proof (base64url_longer d.(ds_payload_json)).
  unfold MAX_SIGNING_INPUT_LEN in Hmax. unfold addressable, u64_max. lia.
Qed.

(** * Spent nonces *)

(** An address in use cannot be initialized again. *)
Lemma address_taken {A} (m : Store A) k k' seeds bump bump' a :
  at_address k seeds bump -> m !! k = Some (Owned a) -> ~ fresh m k' seeds bump'.
Proof. unfold at_address, fresh. intros H1 Hk [H2 Hn]. congruence. Qed.

Lemma consume_fresh env v n v' :
  process_consume_authorization env v n = Ok v' ->
  exists bump, fresh v.(v_receipts) env.(ve_receipt) [RECEIPT_SEED; env.(ve_config); n] bump.
Proof. intros He. apply consume_effect in He. inversion He; subst. eauto. Qed.

Lemma consume_deployment_fresh env v n v' :
  process_consume_deployment_authorization env v n = Ok v' ->
  exists bump, fresh v.(v_deployment_receipts) env.(ve_receipt)
    [DEPLOYMENT_RECEIPT_SEED; env.(ve_config); n] bump.
Proof. intros He. apply consume_deployment_effect in He. inversion He; subst. eauto. Qed.

Lemma nonce_spent v v' env k r v2 :
  vreachable v -> advances v v' -> v.(v_receipts) !! k = Some (Owned r) ->
  env.(ve_config) = r.(ca_config) ->
  process_consume_authorization env v' r.(ca_nonce_hash) <> Ok v2.
Proof.
  intros Hv Ha Hk Hc He. pose proof (wf_receipts _ (vreachable_well_formed _ Hv) _ _ Hk) as Hok.
  destruct (adv_receipts _ _ Ha _ _ Hk) as (r' & Hk' & <-).
  destruct (consume_fresh _ _ _ _ He) as [bump Hf]. rewrite Hc in Hf.
  by eapply address_taken.
Qed.

Lemma deployment_nonce_spent v v' env k r v2 :
  vreachable v -> advances v v' -> v.(v_deployment_receipts) !! k = Some (Owned r) ->
  env.(ve_config) = r.(dr_config) ->
  process_consume_deployment_authorization env v' r.(dr_nonce) <> Ok v2.
Proof.
  intros Hv Ha Hk Hc He.
  pose proof (wf_deployment_receipts _ (vreachable_well_formed _ Hv) _ _ Hk) as Hok.
  destruct (adv_deployment_receipts _ _ Ha _ _ Hk) as (r' & Hk' & <-).
  destruct (consume_deployment_fresh _ _ _ _ He) as [bump Hf]. rewrite Hc in Hf.
  by eapply address_taken.
Qed.

(** A key id that was registered can never be registered again. *)
Lemma kid_registered_once v v' env k t p v2 :
  vreachable v -> advances v v' -> v.(v_trusted_keys) !! k = Some (Owned t) ->
  env.(ve_config) = t.(tk_config) -> p.(rtk_kid) = t.(tk_kid) ->
  process_register_trusted_key env v' p <> Ok v2.
Proof.
  intros Hv Ha Hk Hc Hkid He.
  destruct (wf_trusted_keys _ (vreachable_well_formed _ Hv) _ _ Hk) as [Hok _].
  destruct (adv_trusted_keys _ _ Ha _ _ Hk) as (t' & Hk' & _).
  pose proof (vexec_effect env v' (VRegisterTrustedKey p) v2 He) as Hf.
  inversion Hf as [|? ? ? ? ? Hfresh| | | | | | | | | ]; subst. rewrite Hc, Hkid in Hfresh.
  by eapply address_taken.
Qed.

(** * Revocations *)

(** The accounts a consumption used were live. *)
Lemma consume_live env v n v' :
  process_consume_authorization env v n = Ok v' ->
  (exists t, v.(v_trusted_keys) !! env.(ve_trusted_key) = Some (Owned t) /\ t.(tk_revoked) = false)
  /\ (exists m, v.(v_mandates) !! env.(ve_mandate) = Some (Owned m) /\ m.(md_revoked) = false).
Proof.
  unfold process_consume_authorization. intros He. invert_ok.
  repeat match goal with
  | Hc : account_of _ _ = Ok _ |- _ => apply account_of_Ok in Hc
  | Hc : check_mandate _ _ = Ok _ |- _ => apply check_mandate_Ok in Hc as (? & _)
  end. eauto 10.
Qed.

(** The authority and the risk key a deployment consumption used. *)
Lemma consume_deployment_live env v n v' :
  process_consume_deployment_authorization env v n = Ok v' ->
  (exists key, v.(v_risk_keys) !! env.(ve_risk_key) = Some (Owned key) /\ key.(rk_revoked) = false)
  /\ exists a r, v.(v_authorities) !! env.(ve_config) = Some (Owned a)
       /\ v' = v <| v_deployment_receipts := store v.(v_deployment_receipts) env.(ve_receipt) r |>
       /\ r.(dr_policy_generation) = a.(da_policy_generation).
Proof.
  unfold process_consume_deployment_authorization. intros He. invert_ok.
  repeat match goal with Hc : account_of _ _ = Ok _ |- _ => apply account_of_Ok in Hc end.
  split; [eauto|]. do 2 eexists. split; [eassumption|]. split; [reflexivity|done].
Qed.

Lemma revoked_key_refused v v' env t n v2 :
  advances v v' -> v.(v_trusted_keys) !! env.(ve_trusted_key) = Some (Owned t) ->
  t.(tk_revoked) = true -> process_consume_authorization env v' n <> Ok v2.
Proof.
  intros Ha Ht Hr He. destruct (adv_trusted_keys _ _ Ha _ _ Ht) as (t' & Ht' & Hm).
  destruct (consume_live _ _ _ _ He) as [(t2 & Ht2 & Hl) _].
  destruct Hm as [->|[? _]]; congruence.
Qed.

Lemma revoked_mandate_refused v v' env m n v2 :
  advances v v' -> v.(v_mandates) !! env.(ve_mandate) = Some (Owned m) ->
  m.(md_revoked) = true -> process_consume_authorization env v' n <> Ok v2.
Proof.
  intros Ha Ht Hr He. destruct (adv_mandates _ _ Ha _ _ Ht) as (m' & Ht' & Hm).
  destruct (consume_live _ _ _ _ He) as [_ (m2 & Hm2 & Hl)].
  destruct Hm as [->|[? _]]; congruence.
Qed.

Lemma revoked_risk_key_refused v v' env key n v2 :
  advances v v' -> v.(v_risk_keys) !! env.(ve_risk_key) = Some (Owned key) ->
  key.(rk_revoked) = true -> process_consume_deployment_authorization env v' n <> Ok v2.
Proof.
  intros Ha Ht Hr He. destruct (adv_risk_keys _ _ Ha _ _ Ht) as (k' & Hk' & Hm).
  destruct (consume_deployment_live _ _ _ _ He) as [(k2 & Hk2 & Hl) _].
  destruct Hm as [->|[? _]]; congruence.
Qed.

Lemma generation_current v v' env a n r v2 :
  advances v v' -> v.(v_authorities) !! env.(ve_config) = Some (Owned a) ->
  process_consume_deployment_authorization env v' n = Ok v2 ->
  v2.(v_deployment_receipts) !! env.(ve_receipt) = Some (Owned r) ->
  a.(da_policy_generation) <= r.(dr_policy_generation).
Proof.
  intros Ha Hk He Hr. destruct (adv_authorities _ _ Ha _ _ Hk) as (a' & Hk' & g & Hg & ->).
  destruct (consume_deployment_live _ _ _ _ He) as [_ (a2 & r2 & Ha2 & -> & Hgen)].
  simpl in Hr. unfold store in Hr. rewrite lookup_insert_eq in Hr. simplify_eq.
  simpl in Hgen. lia.
Qed.

(** * Receipts *)

(** Behind every deployment receipt stands the approval that it records. *)
Lemma receipt_approved v k r :
  vreachable v -> v.(v_deployment_receipts) !! k = Some (Owned r) ->
  exists env v0 a key m i pre, vreachable v0 /\ deployment_approved env v0 r a key m i pre.
Proof.
  intros Hv Hk. destruct (receipt_origin _ _ _ Hv Hk) as (env & v0 & Hv0 & Hb & <- & He & _).
  destruct (consume_deployment_Ok _ _ _ _ Hb He)
    as (r' & a & key & m & i & pre & Ha & Hv' & _).
  apply (f_equal v_deployment_receipts) in Hv'. simpl in Hv'.
  assert (Hr : store (v_deployment_receipts v0) (ve_receipt env) r !! ve_receipt env
               = store (v_deployment_receipts v0) (ve_receipt env) r' !! ve_receipt env)
    by by rewrite Hv'.
  unfold store in Hr. rewrite !lookup_insert_eq in Hr. injection Hr as <-.
  exists env, v0, a, key, m, i, pre. done.
Qed.

End safety.
