(* ===== verification/VerifierSample.v ===== *)
(** A sample of the verifier: a platform, a verdict and a deployment approval
    that pass every check, and the runs that consume them. *)

From Stdlib Require Import ZArith Lia Ascii.
From stdpp Require Import strings relations.
From S2P Require Import Prelude AccountingMath ProtocolLayout ProtocolTypes ProtocolCodec ProtocolWire.
From S2P Require Import RemoteState RemoteMessage RemotePlatform RemoteLeg RemoteInit RemoteSample.
From S2P Require Import VerifierState VerifierJwt VerifierGrammar VerifierBase64 VerifierProgram VerifierRuns.

Definition sample_runtime : Runtime := {|
  runtime_chain := sample_chain;
  compute_budget_ID := replicate 32 203;
  secp256r1_ID := replicate 32 204
|}.

#[local] Existing Instance sample_runtime.
#[local] Existing Instance sample_chain.

(** * Playing instructions *)

Fixpoint vplay (v : Verifier) (acts : list (VEnv * VIx)) : VResult Verifier :=
  match acts with
  | [] => Ok v
  | (env, ix) :: acts' =>
      require bool_decide (transaction_bytes env.(ve_introspection)) or VCallee;
      let? v' := vexec env v ix in vplay v' acts'
  end.

Lemma vplay_runs acts : forall v v', vplay v acts = Ok v' -> vruns v v'.
Proof.
  induction acts as [|[env ix] acts IH]; intros v v' Hp; simpl in Hp.
  - injection Hp as <-. apply rtc_refl.
  - case_bool_decide as Hb; [|done]. destruct (vexec env v ix) as [v1|] eqn:E; [|done].
    eapply rtc_l; [by exists env, ix|by apply IH].
Qed.

(** * The documents *)

(** Text with backquotes for double quotes. *)
Definition json (s : string) : list Z := (fun b => if b =? 96 then 34 else b) <$> byte_string s.

Definition sample_header : list Z := json "{`alg`:`ES256`,`typ`:`JWT`,`kid`:`verdict-2026-09`}".

Definition sample_payload : list Z := json
  "{`iss`:`https://verdicts.saifuro.com`,`jti`:`dec_5b2e`,`iat`:1788424980,`exp`:1788425280,`verdict`:`allow`,`mandate`:`mnd_7f3a`,`policy_version`:`pol_2026-08-12.1`,`nonce`:`n_9d02c6e4`,`request`:{`agent`:`agt_procurement_01`,`amount`:340,`currency`:`USD`,`recipient`:`vendor:acme_saas`,`category`:`saas`}}".

Definition sample_token : list Z := base64url sample_header ++ [46] ++ base64url sample_payload.

(** * The transaction *)

Definition sample_public_key : list Z := 2 :: replicate 32 77.
Definition sample_signature : list Z := replicate 64 88.

Definition sample_precompile (message : list Z) : Instruction :=
  mkInstruction secp256r1_ID []
    (canonical_header (Z.of_nat (length message)) ++ sample_public_key ++ sample_signature ++ message).

(** Accounts of the sample, at their derived addresses. *)
Definition derived (seeds : list (list Z)) : Key := (find_program_address seeds verifier_ID).1.

Definition upgrade_key : Key := replicate 32 20.
Definition administrator_key : Key := replicate 32 21.
Definition consumer_key : Key := replicate 32 22.
Definition verdict_config : Key := derived [CONFIG_SEED; environment_seed Production].
Definition verdict_key : Key := derived [TRUSTED_KEY_SEED; verdict_config; byte_string "verdict-2026-09"].
Definition verdict_mandate : Key := derived [MANDATE_SEED; verdict_config; mandate_hash (byte_string "mnd_7f3a")].
Definition verdict_nonce : Bytes32 := nonce_hash (byte_string "n_9d02c6e4").
Definition verdict_receipt : Key := derived [RECEIPT_SEED; verdict_config; verdict_nonce].

(** A call on the accounts of the sample; [leg] is the remote leg's key. *)
Definition sample_call (signer config receipt leg : Key) (risk_key : Key) (now : Z)
    (t : Introspection) : VEnv := {|
  ve_unix_timestamp := now;
  ve_signer := signer;
  ve_program_upgrade_authority := Some upgrade_key;
  ve_funded := fun _ => true;
  ve_config := config;
  ve_trusted_key := verdict_key;
  ve_mandate := verdict_mandate;
  ve_risk_key := risk_key;
  ve_receipt := receipt;
  ve_remote_leg_program := crate_ID;
  ve_remote_leg_executable := true;
  ve_remote_config := leg;
  ve_remote_config_owner := crate_ID;
  ve_remote_config_empty := false;
  ve_introspection := t
|}.

Definition no_transaction : Introspection := mkIntrospection 1 0 [].

Definition token_transaction : Introspection :=
  mkIntrospection 1 1 [sample_precompile sample_token; mkInstruction verifier_ID [] []].

Definition verdict_env (signer : Key) (t : Introspection) : VEnv :=
  sample_call signer verdict_config verdict_receipt [] [] 1788425000 t.

(** * A verdict *)

Definition empty_verifier : Verifier := mkVerifier ∅ ∅ ∅ ∅ ∅ ∅ ∅.

Definition verdict_setup : list (VEnv * VIx) :=
  [ (verdict_env upgrade_key no_transaction,
      VInitializeConfig (mkInitializeConfigParams Production administrator_key consumer_key));
    (verdict_env administrator_key no_transaction,
      VRegisterTrustedKey (mkRegisterTrustedKeyParams (byte_string "verdict-2026-09")
        sample_public_key 1000 2000000000));
    (verdict_env administrator_key no_transaction,
      VRegisterMandate (mkRegisterMandateParams (mandate_hash (byte_string "mnd_7f3a"))
        (byte_string "mnd_7f3a") 340000000 (byte_string "USD") (byte_string "vendor:acme_saas")
        (byte_string "pol_2026-08-12.1") (byte_string "agt_procurement_01") (byte_string "saas"))) ].

Definition verdict_consumption : VEnv * VIx :=
  (verdict_env consumer_key token_transaction, VConsumeAuthorization verdict_nonce).

Definition played (acts : list (VEnv * VIx)) : Verifier :=
  match vplay empty_verifier acts with Ok v => v | Err _ => empty_verifier end.

Lemma empty_genesis : vgenesis empty_verifier.
Proof. repeat split; intros k a; simpl; by rewrite lookup_empty. Qed.

Lemma played_reachable acts :
  is_ok (vplay empty_verifier acts) = true -> vreachable (played acts).
Proof.
  intros Hok. unfold played. destruct (vplay empty_verifier acts) as [v|] eqn:E; [|done].
  exists empty_verifier. split; [apply empty_genesis|by eapply vplay_runs].
Qed.

Lemma verdict_setup_ok : is_ok (vplay empty_verifier verdict_setup) = true.
Proof. vm_compute. reflexivity. Qed.

Lemma verdict_consumed_ok :
  is_ok (vplay empty_verifier (verdict_setup ++ [verdict_consumption])) = true.
Proof. vm_compute. reflexivity. Qed.

(** * A deployment approval *)

(** The sample remote leg just before it deploys, and the authority that
    approves its deployments. *)
Definition approval_leg : Key := funded_leg.(l_key).
Definition approval_config : Key := derived (authority_seeds crate_ID approval_leg).
Definition approval_risk_key : Key :=
  derived [RISK_KEY_SEED; approval_config; public_key_parity_seed sample_public_key;
           public_key_x_seed sample_public_key].
Definition approval_nonce : list Z := replicate 16 10.
Definition approval_receipt : Key := derived [DEPLOYMENT_RECEIPT_SEED; approval_config; approval_nonce].

Definition approval_message : DeploymentAuthorization := {|
  dz_authority := approval_config;
  dz_network_domain := replicate 32 5;
  dz_policy_generation := 1;
  dz_deployment_context := context_commitment (deployment_context funded_leg.(l_key)
    funded_leg.(l_config) (strategy_config_address funded_leg.(l_key)).1 funded_leg.(l_strategy)
    funded_leg.(l_position));
  dz_amount := 600;
  dz_nonce := approval_nonce;
  dz_issued_at := 2035;
  dz_expires_at := 2100
|}.

(** Signature, consumption, deployment. *)
Definition approval_transaction (current : nat) : Introspection :=
  mkIntrospection 1 current
    [ sample_precompile (encode_deployment approval_message);
      mkInstruction verifier_ID
        [ mkAccountMeta (replicate 32 1) true true; mkAccountMeta approval_config false false;
          mkAccountMeta approval_risk_key false false; mkAccountMeta approval_receipt false true ]
        (consume_discriminator ++ approval_nonce);
      mkInstruction crate_ID
        ([mkAccountMeta approval_leg false true] ++ replicate 12 (mkAccountMeta [] false false)
           ++ [mkAccountMeta approval_receipt false false; mkAccountMeta [] false false])
        (DEPLOY_TO_STRATEGY_DISCRIMINATOR ++ to_le 8 600) ].

Definition approval_env (signer : Key) (t : Introspection) : VEnv :=
  sample_call signer approval_config approval_receipt approval_leg approval_risk_key 2040 t.

Definition approval_setup : list (VEnv * VIx) :=
  [ (approval_env upgrade_key no_transaction,
      VInitializeDeploymentAuthority
        (mkInitializeDeploymentAuthorityParams administrator_key (replicate 32 5)));
    (approval_env administrator_key no_transaction, VAdvancePolicyGeneration);
    (approval_env administrator_key no_transaction,
      VRegisterRiskKey (mkRegisterRiskKeyParams sample_public_key 1000 2000000000)) ].

Definition approval_consumption : VEnv * VIx :=
  (approval_env consumer_key (approval_transaction 1),
   VConsumeDeploymentAuthorization approval_nonce).

Lemma approval_setup_ok : is_ok (vplay empty_verifier approval_setup) = true.
Proof. vm_compute. reflexivity. Qed.

Lemma approval_consumed_ok :
  is_ok (vplay empty_verifier (approval_setup ++ [approval_consumption])) = true.
Proof. vm_compute. reflexivity. Qed.
