(* ===== verification/VerifierTheorems.v ===== *)
(** The theorems of the authorization verifier, each with a concrete run that
    meets its hypotheses. *)

From Stdlib Require Import ZArith Lia.
From stdpp Require Import strings relations.
From S2P Require Import Prelude AccountingMath ProtocolLayout ProtocolTypes ProtocolCodec ProtocolWire.
From S2P Require Import RemoteState RemoteMessage RemotePlatform RemoteLeg RemoteSettle RemoteInit RemoteBooks.
From S2P Require Import RemoteEffects RemotePreserve RemoteRuns RemoteHistory RemoteSample.
From S2P Require Import VerifierState VerifierJwt VerifierGrammar VerifierParse VerifierNumbers VerifierClaims VerifierBase64.
From S2P Require Import VerifierProgram VerifierRuns VerifierApprovals VerifierSample.

(** * The parser *)

(** C28. A signing input decodes exactly when it is the unpadded Base64URL
    encoding, as RFC 4648 writes it, of two non-empty byte strings around one
    dot: every pair of documents has one spelling that is accepted, and no
    other text (padding, stray bits, another alphabet, a missing or a second
    dot) is. *)
Theorem signing_input_canonical si d :
  decode_signing_input si = Ok d <->
  is_bytes d.(ds_header_json) /\ is_bytes d.(ds_payload_json)
  /\ d.(ds_header_json) <> [] /\ d.(ds_payload_json) <> []
  /\ si = base64url d.(ds_header_json) ++ [46] ++ base64url d.(ds_payload_json).
Proof. apply decode_signing_input_iff. Qed.

(** C27. The parser is the grammar: a document of addressable length is read as
    a header or as claims exactly when it is an object of the profile's JSON
    subset whose fields, each key once and none unknown, spell that header or
    those claims. Numbers denote the decimal value written, in seconds or in
    millionths. *)
Theorem parser_accepts_grammar json :
  addressable json ->
  (forall c, parse_claims json = Ok c <-> exists fs, document fs json /\ claims_spelled fs c)
  /\ (forall h, parse_header json = Ok h <-> exists fs, document fs json /\ header_spelled fs h).
Proof. intros Ha. split; intros; [by apply parse_claims_iff|by apply parse_header_iff]. Qed.

Definition sample_claims : Claims := {|
  cl_iss := byte_string "https://verdicts.saifuro.com";
  cl_jti := byte_string "dec_5b2e";
  cl_iat := 1788424980;
  cl_exp := 1788425280;
  cl_verdict := byte_string "allow";
  cl_mandate := byte_string "mnd_7f3a";
  cl_policy_version := byte_string "pol_2026-08-12.1";
  cl_nonce := byte_string "n_9d02c6e4";
  cl_request := {| rq_agent := byte_string "agt_procurement_01";
                   rq_amount_micros := 340000000;
                   rq_currency := byte_string "USD";
                   rq_recipient := byte_string "vendor:acme_saas";
                   rq_category := byte_string "saas" |}
|}.

Lemma parser_accepts_grammar_witness :
  exists fs, document fs sample_payload /\ claims_spelled fs sample_claims.
Proof.
  refine (proj1 (proj1 (parser_accepts_grammar sample_payload _) sample_claims) _).
  - vm_compute. discriminate.
  - vm_compute. reflexivity.
Defined.

(** Parsing terminates: on every signing input and on every document of
    addressable length the loops of the parser stop within the bytes they
    have, so a consumption never fails for lack of them. *)
Theorem parser_terminates si json :
  addressable json ->
  decode_signing_input si <> Err Diverges
  /\ parse_header json <> Err Diverges /\ parse_claims json <> Err Diverges.
Proof.
  intros Ha. split; [apply decode_signing_input_halts|].
  split; [by apply parse_header_halts|by apply parse_claims_halts].
Qed.

Lemma parser_terminates_witness :
  parse_claims (replicate 200 32) <> Err Diverges.
Proof.
  destruct (parser_terminates [] (replicate 200 32)) as (_ & _ & Hc).
  - vm_compute. discriminate.
  - exact Hc.
Defined.

(** * Accounts *)

(** C26. Every account of a reachable verifier is well formed: it sits at the
    address derived from its own contents, roles are distinct and assigned,
    keys are P-256 points with an open validity window, key ids belong to the
    environment of their configuration, mandates are profile text under the
    hash of their id, and every key and mandate names a configuration that
    exists. *)
Theorem accounts_well_formed (R : Runtime) v : vreachable v -> well_formed v.
Proof. apply vreachable_well_formed. Qed.

Lemma accounts_well_formed_witness :
  mandate_ok (H := sample_runtime) (played verdict_setup) verdict_mandate
    (mkMandate verdict_config (mandate_hash (H := sample_chain) (byte_string "mnd_7f3a"))
       (byte_string "mnd_7f3a") 340000000 (byte_string "USD") (byte_string "vendor:acme_saas")
       (byte_string "pol_2026-08-12.1") (byte_string "agt_procurement_01") (byte_string "saas")
       false 255).
Proof.
  apply (wf_mandates _ (accounts_well_formed sample_runtime (played verdict_setup)
    (played_reachable verdict_setup verdict_setup_ok))).
  vm_compute. reflexivity.
Defined.

(** * Consumption *)

(** C24. A verdict is consumed only against a signed token: if the instruction
    succeeds, the instruction just before it verified a signature of a
    trusted key of this configuration, unrevoked and inside its window, over
    a token that decodes to a header with that key's id and to claims that
    allow, are alive, last exactly five minutes and equal the unrevoked
    mandate field by field; the receipt records the token's hash, its nonce
    and its expiry, and sits where only that nonce leads. *)
Theorem verdict_needs_signed_token (R : Runtime) env v n v' :
  transaction_bytes env.(ve_introspection) ->
  process_consume_authorization env v n = Ok v' ->
  exists r c key m d h claims i pre si,
    verdict_approved env v r c key m d h claims i pre si
    /\ (exists fs, document fs d.(ds_header_json) /\ header_spelled fs h)
    /\ (exists fs, document fs d.(ds_payload_json) /\ claims_spelled fs claims)
    /\ v' = v <| v_receipts := store v.(v_receipts) env.(ve_receipt) r |>
    /\ r.(ca_nonce_hash) = n /\ r.(ca_config) = env.(ve_config)
    /\ r.(ca_consumed_at) = env.(ve_unix_timestamp)
    /\ r.(ca_expires_at) = claims.(cl_exp) /\ r.(ca_signing_input_hash) = sha256 si.
Proof.
  intros Hb He.
  destruct (consume_authorization_Ok _ _ _ _ Hb He)
    as (r & c & key & m & d & h & claims & i & pre & si & Ha & Hv' & Hfields).
  exists r, c, key, m, d, h, claims, i, pre, si. split; [done|].
  destruct (documents_addressable _ _ _ _ (vd_signed _ _ _ _ _ _ _ _ _ _ _ _ Ha)
    (vd_decoded _ _ _ _ _ _ _ _ _ _ _ _ Ha)) as [Hh Hp].
  split; [apply parse_header_iff; [done|by eapply vd_header]|].
  split; [apply parse_claims_iff; [done|by eapply vd_claims]|done].
Qed.

Lemma verdict_needs_signed_token_witness :
  exists r c key m d h claims i pre si,
    verdict_approved (H := sample_runtime) (fst verdict_consumption) (played verdict_setup)
      r c key m d h claims i pre si.
Proof.
  destruct (process_consume_authorization (H := sample_runtime) (fst verdict_consumption)
    (played verdict_setup) verdict_nonce) as [v'|] eqn:He.
  2: { exfalso. revert He. vm_compute. discriminate. }
  destruct (verdict_needs_signed_token sample_runtime (fst verdict_consumption)
    (played verdict_setup) verdict_nonce v')
    as (r & c & key & m & d & h & claims & i & pre & si & Ha & _).
  - apply (bool_decide_unpack _). vm_compute. exact I.
  - exact He.
  - exists r, c, key, m, d, h, claims, i, pre, si. exact Ha.
Defined.

(** C25. What is spent or revoked stays so: along any run receipts remain as
    written, revocations stand and policy generations never fall; a nonce
    that was consumed under a configuration can never be consumed there
    again, a key id that was registered can never be registered again, and
    nothing signed by a revoked key, under a revoked mandate or
    for an earlier policy generation is ever consumed. *)
Theorem spent_and_revoked_for_good (R : Runtime) v v' env :
  vreachable v -> vruns v v' ->
  advances v v'
  /\ (forall k r v2, v.(v_receipts) !! k = Some (Owned r) -> env.(ve_config) = r.(ca_config) ->
      process_consume_authorization env v' r.(ca_nonce_hash) <> Ok v2)
  /\ (forall k r v2, v.(v_deployment_receipts) !! k = Some (Owned r) ->
      env.(ve_config) = r.(dr_config) ->
      process_consume_deployment_authorization env v' r.(dr_nonce) <> Ok v2)
  /\ (forall k t p v2, v.(v_trusted_keys) !! k = Some (Owned t) ->
      env.(ve_config) = t.(tk_config) -> p.(rtk_kid) = t.(tk_kid) ->
      process_register_trusted_key env v' p <> Ok v2)
  /\ (forall t n v2, v.(v_trusted_keys) !! env.(ve_trusted_key) = Some (Owned t) ->
      t.(tk_revoked) = true -> process_consume_authorization env v' n <> Ok v2)
  /\ (forall m n v2, v.(v_mandates) !! env.(ve_mandate) = Some (Owned m) ->
      m.(md_revoked) = true -> process_consume_authorization env v' n <> Ok v2)
  /\ (forall key n v2, v.(v_risk_keys) !! env.(ve_risk_key) = Some (Owned key) ->
      key.(rk_revoked) = true -> process_consume_deployment_authorization env v' n <> Ok v2)
  /\ (forall a n r v2, v.(v_authorities) !! env.(ve_config) = Some (Owned a) ->
      process_consume_deployment_authorization env v' n = Ok v2 ->
      v2.(v_deployment_receipts) !! env.(ve_receipt) = Some (Owned r) ->
      a.(da_policy_generation) <= r.(dr_policy_generation)).
Proof.
  intros Hv Hr. pose proof (vruns_advances _ _ Hr) as Ha.
  split; [done|]. split; [intros; by eapply nonce_spent|].
  split; [intros; by eapply deployment_nonce_spent|].
  split; [intros; by eapply kid_registered_once|]. split; [intros; by eapply revoked_key_refused|].
  split; [intros; by eapply revoked_mandate_refused|].
  split; [intros; by eapply revoked_risk_key_refused|]. intros; by eapply generation_current.
Qed.

Definition consumed_verifier : Verifier := played (verdict_setup ++ [verdict_consumption]).

Lemma spent_and_revoked_for_good_witness :
  exists k r, (v_receipts consumed_verifier) !! k = Some (Owned r) /\
    forall v2, process_consume_authorization (H := sample_runtime) (fst verdict_consumption)
      consumed_verifier r.(ca_nonce_hash) <> Ok v2.
Proof.
  destruct (spent_and_revoked_for_good sample_runtime consumed_verifier consumed_verifier
    (fst verdict_consumption)) as (_ & Hspent & _).
  - exact (played_reachable _ verdict_consumed_ok).
  - apply rtc_refl.
  - destruct (v_receipts consumed_verifier !! verdict_receipt) as [[r|]|] eqn:Hk.
    + exists verdict_receipt, r. split; [exact Hk|]. intros v2.
      apply (Hspent verdict_receipt r v2 Hk). revert Hk. vm_compute. intros [= <-]. reflexivity.
    + exfalso. revert Hk. vm_compute. discriminate.
    + exfalso. revert Hk. vm_compute. discriminate.
Defined.

(** * The remote leg and its approvals *)





