(* ===== verification/HostAdapter.v ===== *)
(** The host side of the verifier
    ([programs/authorization-verifier/adapter/src/lib.rs]): it turns an ES256
    compact JWS into the secp256r1 instruction the program expects.

    The crates it calls are the interfaces [Base64Crate], [Secp256r1Sdk] and
    [OpenSsl].  A call of OpenSSL that draws randomness takes the drawn value
    as an argument.  Text is its bytes. *)

From Stdlib Require Import ZArith Lia.
From stdpp Require Import strings.
From S2P Require Import Prelude ProtocolLayout ProtocolTypes ProtocolCodec.
From S2P Require Import RemoteState RemotePlatform VerifierState VerifierJwt VerifierProgram.

Module Host.

(** * The crates *)

(** [URL_SAFE_NO_PAD] of the crate [base64]. *)
Class Base64Crate := {
  engine_encode : list Z -> list Z;
  engine_decode : list Z -> option (list Z)
}.

(** The constants of [solana_secp256r1_program]. *)
Class Secp256r1Sdk := {
  COMPRESSED_PUBKEY_SERIALIZED_SIZE : nat;
  DATA_START : nat;
  FIELD_SIZE : nat;
  SIGNATURE_SERIALIZED_SIZE : nat;
  SECP256R1_ORDER : list Z;
  SECP256R1_HALF_ORDER : list Z
}.

(** What the adapter calls of OpenSSL; [None] is an error stack. *)
Class OpenSsl := {
  BigNum : Type;
  bn_new : option BigNum;
  bn_from_slice : list Z -> option BigNum;
  bn_from_u32 : Z -> option BigNum;
  bn_cmp : BigNum -> BigNum -> comparison;
  bn_sub : BigNum -> BigNum -> option BigNum;
  bn_to_vec_padded : BigNum -> Z -> option (list Z);
  BigNumContext : Type;
  new_context : option BigNumContext;
  EcGroup : Type;
  prime256v1 : option EcGroup;
  EcPoint : Type;
  point_new : EcGroup -> option EcPoint;
  point_from_bytes : EcGroup -> list Z -> BigNumContext -> option EcPoint;
  point_is_on_curve : EcPoint -> EcGroup -> BigNumContext -> option bool;
  point_to_compressed : EcPoint -> EcGroup -> BigNumContext -> option (list Z);
  point_mul_generator : EcGroup -> BigNum -> BigNumContext -> option EcPoint;
  EcKey : Type;
  Entropy : Type;
  key_generate : EcGroup -> Entropy -> option EcKey;
  key_from_private_components : EcGroup -> BigNum -> EcPoint -> option EcKey;
  key_check : EcKey -> option unit;
  key_public : EcKey -> EcPoint;
  openssl_sha256 : list Z -> list Z;
  ecdsa_sign : list Z -> EcKey -> Entropy -> option (BigNum * BigNum)
}.

(** * Errors *)

Inductive AdapterError : Set :=
| InvalidBase64Url
| InvalidCompactJws
| UnsupportedKeyType
| UnsupportedCurve
| InvalidCoordinate
| PointNotOnCurve
| ScalarOutOfRange
| InvalidSigningInputLength
| Crypto.

Abbreviation AdapterResult := (result AdapterError).

(** [From<ErrorStack>], which [?] applies. *)
Definition crypto {A} (o : option A) : AdapterResult A := ok_or o Crypto.

(** [<[u8; N]>::try_from] of a vector. *)
Definition into_array (n : nat) (l : list Z) (e : AdapterError) : AdapterResult (list Z) :=
  require (length l =? n)%nat or e; Ok l.

(** [a < b] and [a <= b] of big numbers. *)
Definition bn_ltb `{OpenSsl} (a b : BigNum) : bool := match bn_cmp a b with Lt => true | _ => false end.
Definition bn_leb `{OpenSsl} (a b : BigNum) : bool := match bn_cmp a b with Gt => false | _ => true end.

(** * Text *)

(** [str::rsplit_once] at a one-byte separator. *)
Fixpoint rsplit_once (sep : Z) (l : list Z) : option (list Z * list Z) :=
  match l with
  | [] => None
  | b :: l' =>
      match rsplit_once sep l' with
      | Some (before, after) => Some (b :: before, after)
      | None => if b =? sep then Some ([], l') else None
      end
  end.

(** [matches(sep).count()]. *)
Definition count_of (sep : Z) (l : list Z) : nat := length (filter (fun b => b = sep) l).

(** A continuation byte of UTF-8 within bounds. *)
Definition utf8_tail (lo hi b : Z) : bool := (lo <=? b) && (b <=? hi).

(** [String::from_utf8]: the well-formed byte sequences of Unicode. *)
Fixpoint is_utf8 (l : list Z) : bool :=
  match l with
  | [] => true
  | a :: l1 =>
      if a <=? 127 then is_utf8 l1
      else match l1 with
      | [] => false
      | b :: l2 =>
          if (194 <=? a) && (a <=? 223) then utf8_tail 128 191 b && is_utf8 l2
          else match l2 with
          | [] => false
          | c :: l3 =>
              if (224 <=? a) && (a <=? 239) then
                utf8_tail (if a =? 224 then 160 else 128) (if a =? 237 then 159 else 191) b
                && utf8_tail 128 191 c && is_utf8 l3
              else match l3 with
              | [] => false
              | d :: l4 =>
                  (240 <=? a) && (a <=? 244)
                  && utf8_tail (if a =? 240 then 144 else 128) (if a =? 244 then 143 else 191) b
                  && utf8_tail 128 191 c && utf8_tail 128 191 d && is_utf8 l4
              end
          end
      end
  end.

Section adapter.
Context `{Runtime, Base64Crate, Secp256r1Sdk, OpenSsl}.

(** * Layout *)

Definition COMPRESSED_PUBLIC_KEY_LEN : nat := COMPRESSED_PUBKEY_SERIALIZED_SIZE.
Definition SIGNATURE_LEN : nat := SIGNATURE_SERIALIZED_SIZE.
Definition PUBLIC_KEY_OFFSET : nat := DATA_START.
Definition SIGNATURE_OFFSET : nat := PUBLIC_KEY_OFFSET + COMPRESSED_PUBLIC_KEY_LEN.
Definition MESSAGE_OFFSET : nat := SIGNATURE_OFFSET + SIGNATURE_LEN.
Definition MAX_SIGNING_INPUT_LEN : nat := 512.
Definition CURRENT_INSTRUCTION : Z := u16_max.

(** [as u16] of a [usize]. *)
Definition as_u16 (n : nat) : Z := Z.of_nat n mod 2 ^ 16.

(** * Tokens *)

Definition base64url_encode (bytes : list Z) : list Z := engine_encode bytes.

Definition base64url_decode (text : list Z) : AdapterResult (list Z) :=
  ok_or (engine_decode text) InvalidBase64Url.

Definition signing_input (header_json payload_json : list Z) : list Z :=
  base64url_encode header_json ++ byte_string "." ++ base64url_encode payload_json.

Definition split_compact_jws (token : list Z) : AdapterResult (list Z * list Z) :=
  let? '(signing_input, signature) := ok_or (rsplit_once 46 token) InvalidCompactJws in
  require (count_of 46 signing_input =? 1)%nat or InvalidCompactJws;
  let? signature := base64url_decode signature in
  let? signature := into_array SIGNATURE_LEN signature InvalidCompactJws in
  Ok (signing_input, signature).

(** * Keys *)

Definition p256_group : AdapterResult EcGroup := crypto prime256v1.

Definition compressed (group : EcGroup) (point : EcPoint) : AdapterResult (list Z) :=
  let? context := crypto new_context in
  let? bytes := crypto (point_to_compressed point group context) in
  into_array COMPRESSED_PUBLIC_KEY_LEN bytes PointNotOnCurve.

Definition compress_jwk_public_key (x y : list Z) : AdapterResult (list Z) :=
  let? x := base64url_decode x in
  let? y := base64url_decode y in
  require (length x =? FIELD_SIZE)%nat && (length y =? FIELD_SIZE)%nat or InvalidCoordinate;
  let uncompressed := [4] ++ x ++ y in
  let? group := p256_group in
  let? context := crypto new_context in
  let? point := ok_or (point_from_bytes group uncompressed context) PointNotOnCurve in
  let? on_curve := crypto (point_is_on_curve point group context) in
  require on_curve or PointNotOnCurve;
  compressed group point.

Definition compress_p256_jwk (kty crv x y : list Z) : AdapterResult (list Z) :=
  require bool_decide (kty = byte_string "EC") or UnsupportedKeyType;
  require bool_decide (crv = byte_string "P-256") or UnsupportedCurve;
  compress_jwk_public_key x y.

(** * Signatures *)

Definition raw_signature (r s : BigNum) : AdapterResult (list Z) :=
  require Z.of_nat FIELD_SIZE <=? 2 ^ 31 - 1 or Crypto;
  let field := Z.of_nat FIELD_SIZE in
  let? signature := crypto (bn_to_vec_padded r field) in
  let? tail := crypto (bn_to_vec_padded s field) in
  into_array SIGNATURE_LEN (signature ++ tail) ScalarOutOfRange.

(** [split_at] of a signature, an array that is long enough. *)
Definition split_signature (signature : list Z) : list Z * list Z :=
  (take FIELD_SIZE signature, drop FIELD_SIZE signature).

Definition normalize_signature (signature : list Z) : AdapterResult (list Z) :=
  let '(r, s) := split_signature signature in
  let? r := crypto (bn_from_slice r) in
  let? s := crypto (bn_from_slice s) in
  let? order := crypto (bn_from_slice SECP256R1_ORDER) in
  let? half_order := crypto (bn_from_slice SECP256R1_HALF_ORDER) in
  let? one := crypto (bn_from_u32 1) in
  fail_if bn_ltb r one || bn_leb order r || bn_ltb s one || bn_leb order s
    with ScalarOutOfRange;
  if bn_leb s half_order then Ok signature
  else
    let? _ := crypto bn_new in
    let? low_s := crypto (bn_sub order s) in
    raw_signature r low_s.

Definition is_low_s (signature : list Z) : AdapterResult bool :=
  let '(_, s) := split_signature signature in
  let? s := crypto (bn_from_slice s) in
  let? half_order := crypto (bn_from_slice SECP256R1_HALF_ORDER) in
  Ok (bn_leb s half_order).

Definition high_s_twin (signature : list Z) : AdapterResult (list Z) :=
  let '(r, s) := split_signature signature in
  let? r := crypto (bn_from_slice r) in
  let? s := crypto (bn_from_slice s) in
  let? order := crypto (bn_from_slice SECP256R1_ORDER) in
  let? _ := crypto bn_new in
  let? twin := crypto (bn_sub order s) in
  raw_signature r twin.

(** * The instruction *)

Definition secp256r1_instruction (public_key signature signing_input : list Z) :
    AdapterResult Instruction :=
  fail_if (length signing_input =? 0)%nat || (MAX_SIGNING_INPUT_LEN <? length signing_input)%nat
    with InvalidSigningInputLength;
  require Z.of_nat (length signing_input) <=? u16_max or InvalidSigningInputLength;
  let signing_input_len := Z.of_nat (length signing_input) in
  let offsets := [as_u16 SIGNATURE_OFFSET; CURRENT_INSTRUCTION; as_u16 PUBLIC_KEY_OFFSET;
                  CURRENT_INSTRUCTION; as_u16 MESSAGE_OFFSET; signing_input_len;
                  CURRENT_INSTRUCTION] in
  let data := [1; 0] in
  let data := foldl (fun data field => data ++ to_le 2 field) data offsets in
  let data := data ++ public_key in
  let data := data ++ signature in
  let data := data ++ signing_input in
  Ok (mkInstruction secp256r1_ID [] data).

(** * The synthetic signer *)

Record SyntheticSigner := mkSyntheticSigner { key : EcKey }.

Definition generate (entropy : Entropy) : AdapterResult SyntheticSigner :=
  let? group := p256_group in
  let? key := crypto (key_generate group entropy) in
  Ok (mkSyntheticSigner key).

Definition from_secret (secret : list Z) : AdapterResult SyntheticSigner :=
  let? group := p256_group in
  let? private := crypto (bn_from_slice secret) in
  let? order := crypto (bn_from_slice SECP256R1_ORDER) in
  let? one := crypto (bn_from_u32 1) in
  fail_if bn_ltb private one || bn_leb order private with ScalarOutOfRange;
  let? context := crypto new_context in
  let? _ := crypto (point_new group) in
  let? public := crypto (point_mul_generator group private context) in
  let? key := crypto (key_from_private_components group private public) in
  let? _ := crypto (key_check key) in
  Ok (mkSyntheticSigner key).

Definition public_key (self : SyntheticSigner) : AdapterResult (list Z) :=
  let? group := p256_group in
  compressed group (key_public self.(key)).

Definition sign (self : SyntheticSigner) (signing_input : list Z) (entropy : Entropy) :
    AdapterResult (list Z) :=
  let digest := openssl_sha256 signing_input in
  let? '(r, s) := crypto (ecdsa_sign digest self.(key) entropy) in
  raw_signature r s.

Definition compact_jws (self : SyntheticSigner) (header_json payload_json : list Z)
    (entropy : Entropy) : AdapterResult (list Z) :=
  let input := signing_input header_json payload_json in
  let? signature := sign self input entropy in
  let? signature := normalize_signature signature in
  require is_utf8 input or InvalidCompactJws;
  Ok (input ++ byte_string "." ++ base64url_encode signature).

End adapter.
End Host.
