(* ===== verification/HostFacts.v ===== *)
(** What the crates of the host adapter promise ([HostLaws]), and what the
    adapter's operations compute from it. *)

From Stdlib Require Import ZArith Lia.
From stdpp Require Import strings.
From S2P Require Import Prelude AccountingMath ProtocolLayout ProtocolTypes ProtocolCodec ProtocolWire.
From S2P Require Import RemoteState RemotePlatform.
From S2P Require Import VerifierState VerifierJwt VerifierBase64 VerifierProgram VerifierApprovals.
From S2P Require Import HostAdapter.

(** The documented behaviour of the crates.  The engine is RFC 4648 without
    padding and refuses every other spelling; the sizes and the order are
    those of P-256; a big number is an integer and its operations succeed
    unless a value does not fit the bytes asked for; a point read from its
    uncompressed form compresses to the parity of [y] before [x]; and an
    ECDSA signature has both scalars below the order and stays valid when
    [s] is replaced by [n - s]. *)
Class HostLaws `{Host.Base64Crate, Host.Secp256r1Sdk, Host.OpenSsl} := {
  encode_law b : is_bytes b -> Host.engine_encode b = base64url b;
  decode_law s b : Host.engine_decode s = Some b <-> is_bytes b /\ s = base64url b;
  key_size_law : Host.COMPRESSED_PUBKEY_SERIALIZED_SIZE = 33%nat;
  data_start_law : Host.DATA_START = 16%nat;
  field_size_law : Host.FIELD_SIZE = 32%nat;
  signature_size_law : Host.SIGNATURE_SERIALIZED_SIZE = 64%nat;
  order_law : is_bytes Host.SECP256R1_ORDER /\ length Host.SECP256R1_ORDER = 32%nat;
  half_order_law : is_bytes Host.SECP256R1_HALF_ORDER /\
    from_be Host.SECP256R1_ORDER = 2 * from_be Host.SECP256R1_HALF_ORDER + 1;
  bn_value : Host.BigNum -> Z;
  bn_new_law : is_Some Host.bn_new;
  bn_from_slice_law l : is_bytes l ->
    exists a, Host.bn_from_slice l = Some a /\ bn_value a = from_be l;
  bn_from_u32_law v : 0 <= v < 2 ^ 32 -> exists a, Host.bn_from_u32 v = Some a /\ bn_value a = v;
  bn_cmp_law a b : Host.bn_cmp a b = Z.compare (bn_value a) (bn_value b);
  bn_sub_law a b : exists c, Host.bn_sub a b = Some c /\ bn_value c = bn_value a - bn_value b;
  bn_to_vec_law a n : fits (be_max n) (bn_value a) ->
    Host.bn_to_vec_padded a (Z.of_nat n) = Some (to_be n (bn_value a));
  context_law : is_Some Host.new_context;
  group_law : is_Some Host.prime256v1;
  on_curve_law p g c : is_Some (Host.point_is_on_curve p g c);
  compressed_law g c x y p : is_bytes x -> is_bytes y -> length x = 32%nat -> length y = 32%nat ->
    Host.point_from_bytes g ([4] ++ x ++ y) c = Some p ->
    Host.point_to_compressed p g c = Some ((2 + from_be y mod 2) :: x);
  key_public_law k g c : exists parity x, Host.point_to_compressed (Host.key_public k) g c
    = Some (parity :: x) /\ (parity = 2 \/ parity = 3) /\ length x = 32%nat;
  ecdsa_valid : list Z -> Host.EcPoint -> Z -> Z -> Prop;
  ecdsa_sign_law d k e r s : Host.ecdsa_sign d k e = Some (r, s) ->
    1 <= bn_value r < from_be Host.SECP256R1_ORDER /\ 1 <= bn_value s < from_be Host.SECP256R1_ORDER
    /\ ecdsa_valid d (Host.key_public k) (bn_value r) (bn_value s);
  ecdsa_twin_law d p r s :
    ecdsa_valid d p r s -> ecdsa_valid d p r (from_be Host.SECP256R1_ORDER - s)
}.

(** * Text *)

Lemma rsplit_once_Some sep l a b :
  Host.rsplit_once sep l = Some (a, b) <-> l = a ++ [sep] ++ b /\ Forall (fun x => x <> sep) b.
Proof.
  assert (Hnone : forall l, Host.rsplit_once sep l = None <-> Forall (fun x => x <> sep) l).
  { clear. induction l as [|x l IH]; simpl; [done|]. rewrite Forall_cons, <-IH.
    destruct (Host.rsplit_once sep l) as [[]|]; [naive_solver|].
    destruct (Z.eqb_spec x sep); naive_solver. }
  revert a. induction l as [|x l IH]; intros a; simpl; [by destruct a; naive_solver|].
  destruct (Host.rsplit_once sep l) as [[a' b']|] eqn:E.
  - split.
    + intros [= <- <-]. destruct (proj1 (IH a')) as [-> Hb]; done.
    + intros [Hl Hb]. destruct a as [|y a]; simpl in Hl; injection Hl as -> Hl; subst l.
      { by rewrite (proj2 (Hnone _) Hb) in E. }
      by injection (proj2 (IH a) (conj eq_refl Hb)) as -> ->.
  - apply Hnone in E as Hall. split.
    + destruct (Z.eqb_spec x sep) as [->|]; [by intros [= <- <-]|done].
    + intros [Hl Hb]. destruct a as [|y a]; simplify_eq/=; [by rewrite Z.eqb_refl|].
      discriminate (proj2 (IH a) (conj eq_refl Hb)).
Qed.

Lemma count_of_none sep l : Forall (fun x => x <> sep) l -> Host.count_of sep l = 0%nat.
Proof.
  unfold Host.count_of. induction 1 as [|x l Hx Hl IH]; [done|].
  by rewrite filter_cons_False.
Qed.

Lemma count_of_app sep a b :
  Host.count_of sep (a ++ b) = (Host.count_of sep a + Host.count_of sep b)%nat.
Proof. unfold Host.count_of. by rewrite filter_app, length_app. Qed.

Lemma is_utf8_ascii l : Forall (fun b => 0 <= b <= 127) l -> Host.is_utf8 l = true.
Proof.
  induction 1 as [|b l Hb Hl IH]; [done|]. simpl.
  by rewrite (proj2 (Z.leb_le b 127)) by lia.
Qed.

(** * Arithmetic of the curve order *)

Section facts.
Context {H0 : Runtime} `{HostLaws}.

Abbreviation n := (from_be Host.SECP256R1_ORDER) (only parsing).
Abbreviation half := (from_be Host.SECP256R1_HALF_ORDER) (only parsing).

(** The scalars of a raw signature, and the signature they make. *)
Definition sig_r (signature : list Z) : Z := from_be (take 32 signature).
Definition sig_s (signature : list Z) : Z := from_be (drop 32 signature).
Definition sig_of (r s : Z) : list Z := to_be 32 r ++ to_be 32 s.

Definition is_signature (signature : list Z) : Prop :=
  is_bytes signature /\ length signature = 64%nat.

(** A scalar of the group, [1..n]. *)
Definition is_scalar (v : Z) : Prop := 1 <= v < n.

#[global] Instance is_scalar_dec v : Decision (is_scalar v).
Proof. unfold is_scalar. apply _. Defined.

(** The low one of [s] and [n - s]. *)
Definition low_form (s : Z) : Z := if s <=? half then s else n - s.

Lemma order_fits : n <= be_max 32.
Proof.
  destruct order_law as [Hb Hl]. destruct (to_from_be _ Hb) as [_ [_ Hf]]. by rewrite Hl in Hf.
Qed.

Lemma half_nonneg : 0 <= half.
Proof.
  destruct half_order_law as [Hb _]. by destruct (to_from_be _ Hb) as [_ [? _]].
Qed.

Lemma low_form_spec s : is_scalar s -> is_scalar (low_form s) /\ low_form s <= half.
Proof.
  unfold is_scalar, low_form. destruct half_order_law as [_ Hn]. intros Hs.
  destruct (Z.leb_spec s half); lia.
Qed.

Lemma low_form_idempotent s : is_scalar s -> low_form (low_form s) = low_form s.
Proof.
  intros [_ Hl]%low_form_spec. unfold low_form at 1. by rewrite (proj2 (Z.leb_le _ _) Hl).
Qed.

Lemma low_form_twin s : is_scalar s -> low_form (n - s) = low_form s.
Proof.
  unfold is_scalar, low_form. destruct half_order_law as [_ Hn]. intros Hs.
  destruct (Z.leb_spec s half), (Z.leb_spec (n - s) half); lia.
Qed.

Lemma is_scalar_fits v : is_scalar v -> fits (be_max 32) v.
Proof. pose proof order_fits. unfold is_scalar, fits. lia. Qed.

(** * Raw signatures *)

Lemma sig_of_is_signature r s : is_signature (sig_of r s).
Proof.
  split; [apply Forall_app; split; apply to_be_is_bytes|].
  unfold sig_of. by rewrite length_app, !length_to_be.
Qed.

Lemma sig_of_scalars r s : is_scalar r -> is_scalar s ->
  sig_r (sig_of r s) = r /\ sig_s (sig_of r s) = s.
Proof.
  intros Hr%is_scalar_fits Hs%is_scalar_fits. unfold sig_r, sig_s, sig_of.
  rewrite take_app_length', drop_app_length' by (by rewrite length_to_be).
  split; by apply from_to_be.
Qed.

Lemma sig_of_split signature : is_signature signature ->
  sig_of (sig_r signature) (sig_s signature) = signature.
Proof.
  intros [Hb Hl]. unfold sig_of, sig_r, sig_s.
  assert (Ht : is_bytes (take 32 signature)) by by apply Forall_take.
  assert (Hd : is_bytes (drop 32 signature)) by by apply Forall_drop.
  pose proof (to_from_be _ Ht) as [Et _]. pose proof (to_from_be _ Hd) as [Ed _].
  rewrite length_take_le in Et by lia. rewrite length_drop, Hl in Ed.
  change (64 - 32)%nat with 32%nat in Ed. by rewrite Et, Ed, take_drop.
Qed.

Lemma raw_signature_Ok r s : fits (be_max 32) (bn_value r) -> fits (be_max 32) (bn_value s) ->
  Host.raw_signature r s = Ok (sig_of (bn_value r) (bn_value s)).
Proof.
  intros Hr Hs. unfold Host.raw_signature, Host.SIGNATURE_LEN.
  rewrite field_size_law, signature_size_law. cbn [Z.leb Z.of_nat]. cbn.
  change 32 with (Z.of_nat 32). rewrite !bn_to_vec_law by done. cbn.
  unfold Host.into_array. fold (sig_of (bn_value r) (bn_value s)).
  by rewrite (proj2 (sig_of_is_signature _ _)).
Qed.

(** * Normalization *)

(** Runs a call of the big number library and keeps its value. *)
Ltac bn_call :=
  match goal with
  | |- context [Host.bn_from_slice ?l] =>
      let a := fresh "a" in let E := fresh "E" in let V := fresh "V" in
      destruct (bn_from_slice_law l) as (a & E & V); [done|rewrite E; cbn [Host.crypto ok_or]]
  | |- context [Host.bn_from_u32 ?v] =>
      let a := fresh "a" in let E := fresh "E" in let V := fresh "V" in
      destruct (bn_from_u32_law v) as (a & E & V); [lia|rewrite E; cbn [Host.crypto ok_or]]
  | |- context [Host.bn_sub ?x ?y] =>
      let a := fresh "a" in let E := fresh "E" in let V := fresh "V" in
      destruct (bn_sub_law x y) as (a & E & V); rewrite E; cbn [Host.crypto ok_or]
  | |- context [Host.bn_new] =>
      let E := fresh "E" in destruct bn_new_law as [? E]; rewrite E; cbn [Host.crypto ok_or]
  end.

Lemma bn_leb_value a b : Host.bn_leb a b = (bn_value a <=? bn_value b).
Proof. unfold Host.bn_leb, Z.leb. by rewrite bn_cmp_law. Qed.

Lemma bn_ltb_value a b : Host.bn_ltb a b = (bn_value a <? bn_value b).
Proof. unfold Host.bn_ltb, Z.ltb. by rewrite bn_cmp_law. Qed.

Lemma split_signature_eq signature :
  Host.split_signature signature = (take 32 signature, drop 32 signature).
Proof. unfold Host.split_signature. by rewrite field_size_law. Qed.

(** Normalization is the low form, on every signature. *)
Lemma normalize_signature_eq signature : is_signature signature ->
  Host.normalize_signature signature =
    if decide (is_scalar (sig_r signature) /\ is_scalar (sig_s signature))
    then Ok (sig_of (sig_r signature) (low_form (sig_s signature)))
    else Err Host.ScalarOutOfRange.
Proof.
  intros Hsig. pose proof Hsig as [Hb Hl]. unfold Host.normalize_signature.
  rewrite split_signature_eq.
  assert (is_bytes (take 32 signature)) by by apply Forall_take.
  assert (is_bytes (drop 32 signature)) by by apply Forall_drop.
  pose proof order_law as [? _]. pose proof half_order_law as [? Hn].
  do 5 bn_call. rewrite !bn_ltb_value, !bn_leb_value. rewrite V, V0, V1, V2, V3.
  fold (sig_r signature) (sig_s signature). unfold is_scalar, low_form.
  case_decide as Hd.
  - destruct Hd as [Hr Hs]. rewrite !(proj2 (Z.ltb_ge _ _)), !(proj2 (Z.leb_gt _ _)) by lia.
    cbn [orb]. destruct (Z.leb_spec (sig_s signature) half) as [|Hhi].
    + by rewrite sig_of_split.
    + do 2 bn_call. rewrite raw_signature_Ok; rewrite ?V4, ?V, ?V0, ?V1; [done|..].
      * by apply is_scalar_fits.
      * apply is_scalar_fits. unfold is_scalar. unfold sig_s in *. lia.
  - destruct (_ || _ || _ || _) eqn:Ho; [done|]. exfalso. apply Hd. bool_to_prop. lia.
Qed.

Lemma high_s_twin_eq signature : is_signature signature -> is_scalar (sig_s signature) ->
  Host.high_s_twin signature = Ok (sig_of (sig_r signature) (n - sig_s signature)).
Proof.
  intros Hsig Hs. pose proof Hsig as [Hb Hl]. unfold Host.high_s_twin.
  rewrite split_signature_eq.
  assert (Ht : is_bytes (take 32 signature)) by by apply Forall_take.
  assert (is_bytes (drop 32 signature)) by by apply Forall_drop.
  pose proof order_law as [? _]. do 5 bn_call.
  rewrite raw_signature_Ok; rewrite ?V2, ?V, ?V0, ?V1; [done|..].
  - destruct (to_from_be _ Ht) as [_ Hf]. by rewrite length_take_le in Hf by lia.
  - apply is_scalar_fits. unfold is_scalar in *. unfold sig_s in *. lia.
Qed.

Lemma is_low_s_eq signature : is_signature signature ->
  Host.is_low_s signature = Ok (sig_s signature <=? half).
Proof.
  intros [Hb Hl]. unfold Host.is_low_s. rewrite split_signature_eq.
  assert (is_bytes (drop 32 signature)) by by apply Forall_drop.
  pose proof half_order_law as [? _]. do 2 bn_call. by rewrite bn_leb_value, V, V0.
Qed.

(** * Tokens *)

Lemma signing_input_eq header payload : is_bytes header -> is_bytes payload ->
  Host.signing_input header payload = base64url header ++ [46] ++ base64url payload.
Proof.
  intros Hh Hp. unfold Host.signing_input, Host.base64url_encode. by rewrite !encode_law.
Qed.

(** A token is accepted exactly when it is a signing input with one dot, a
    dot, and the encoding of sixty-four bytes. *)
Lemma split_compact_jws_iff token si signature :
  Host.split_compact_jws token = Ok (si, signature) <->
  is_signature signature /\ Host.count_of 46 si = 1%nat
  /\ token = si ++ [46] ++ base64url signature.
Proof.
  unfold Host.split_compact_jws, Host.base64url_decode, Host.into_array, Host.SIGNATURE_LEN.
  rewrite signature_size_law. split.
  - intros Hs. destruct (Host.rsplit_once 46 token) as [[a b]|] eqn:E; [|done]. cbn [ok_or] in Hs.
    apply rsplit_once_Some in E as [-> _].
    destruct (Nat.eqb_spec (Host.count_of 46 a) 1) as [Hc|]; [|done].
    destruct (Host.engine_decode b) as [sig|] eqn:Ed; [|done]. apply decode_law in Ed as [Hb ->].
    cbn [ok_or] in Hs. destruct (Nat.eqb_spec (length sig) 64); [|done]. by injection Hs as <- <-.
  - intros ([Hb Hl] & Hc & ->).
    rewrite (proj2 (rsplit_once_Some 46 _ si (base64url signature))).
    2: { split; [done|]. apply base64url_Forall; [|done]. intros v Hv. by apply symbol_ascii. }
    cbn [ok_or]. rewrite Hc. cbn.
    rewrite (proj2 (decode_law (base64url signature) signature)) by done. cbn [ok_or]. by rewrite Hl.
Qed.

Lemma signing_input_one_dot header payload : is_bytes header -> is_bytes payload ->
  Host.count_of 46 (base64url header ++ [46] ++ base64url payload) = 1%nat.
Proof.
  intros Hh Hp. rewrite !count_of_app, !(count_of_none _ (base64url _)); [done|..];
    (apply base64url_Forall; [|done]); intros v Hv; by apply symbol_ascii.
Qed.

Lemma signing_input_utf8 header payload : is_bytes header -> is_bytes payload ->
  Host.is_utf8 (base64url header ++ [46] ++ base64url payload) = true.
Proof.
  intros Hh Hp. apply is_utf8_ascii. apply Forall_app; split; [|apply Forall_cons; split; [lia|]];
    (apply base64url_Forall; [|done]); intros v Hv; by apply symbol_ascii.
Qed.

(** * The instruction *)

Lemma secp256r1_instruction_eq public_key signature si :
  Host.secp256r1_instruction public_key signature si =
    if decide (si <> [] /\ (length si <= MAX_SIGNING_INPUT_LEN)%nat)
    then Ok (mkInstruction secp256r1_ID []
      (canonical_header (Z.of_nat (length si)) ++ public_key ++ signature ++ si))
    else Err Host.InvalidSigningInputLength.
Proof.
  unfold Host.secp256r1_instruction, Host.SIGNATURE_OFFSET, Host.MESSAGE_OFFSET,
    Host.SIGNATURE_OFFSET, Host.PUBLIC_KEY_OFFSET, Host.COMPRESSED_PUBLIC_KEY_LEN,
    Host.SIGNATURE_LEN.
  rewrite data_start_law, key_size_law, signature_size_law.
  change Host.MAX_SIGNING_INPUT_LEN with MAX_SIGNING_INPUT_LEN.
  assert (Hm : MAX_SIGNING_INPUT_LEN = 512%nat) by done. case_decide as Hd.
  - destruct Hd as [Hne Hle]. rewrite (proj2 (Nat.eqb_neq _ _)) by by destruct si.
    rewrite (proj2 (Nat.ltb_ge _ _)) by done. cbn [orb].
    rewrite (proj2 (Z.leb_le _ _)) by (unfold u16_max; lia).
    do 2 f_equal. rewrite <-!app_assoc. reflexivity.
  - destruct (_ || _) eqn:E; [done|]. exfalso. apply Hd. apply orb_false_iff in E as [E1 E2].
    apply Nat.eqb_neq in E1. apply Nat.ltb_ge in E2. split; [by destruct si|done].
Qed.

(** The canonical layout is read back. *)
Lemma parse_canonical public_key signature si :
  length public_key = 33%nat -> length signature = 64%nat ->
  si <> [] -> (length si <= MAX_SIGNING_INPUT_LEN)%nat ->
  parse_precompile_data (canonical_header (Z.of_nat (length si)) ++ public_key ++ signature ++ si)
    = Ok (mkVerifiedSignature public_key si).
Proof.
  intros Hk Hs Hne Hle. set (header := canonical_header (Z.of_nat (length si))).
  assert (Hh : length header = 16%nat) by (unfold header, canonical_header; cbn; by rewrite !length_app, !length_to_le).
  set (data := header ++ public_key ++ signature ++ si).
  assert (Hlen : length data = (113 + length si)%nat) by (unfold data; rewrite !length_app; lia).
  assert (Hd : drop MESSAGE_OFFSET data = si).
  { unfold data. rewrite !app_assoc. apply drop_app_length'.
    rewrite !length_app, Hh, Hk, Hs. done. }
  assert (Hp : slice data PUBLIC_KEY_OFFSET 33 = public_key).
  { unfold slice, data. rewrite drop_app_length' by done. by apply take_app_length'. }
  unfold parse_precompile_data, get_from. rewrite Hlen, Hd.
  change MESSAGE_OFFSET with 113%nat. rewrite (proj2 (Nat.leb_le _ _)) by lia. cbn [ok_or].
  rewrite (proj2 (Nat.eqb_neq _ _)) by by destruct si.
  rewrite (proj2 (Nat.leb_le _ _)) by done. cbn [negb andb].
  rewrite (proj2 (Z.leb_le _ _)) by (unfold MAX_SIGNING_INPUT_LEN, u16_max in *; lia).
  rewrite (proj2 (Nat.leb_le PUBLIC_KEY_OFFSET _)) by (unfold PUBLIC_KEY_OFFSET; lia).
  rewrite bool_decide_eq_true_2.
  2: { by apply take_app_length'. }
  rewrite (proj2 (Nat.leb_le SIGNATURE_OFFSET _)) by (change SIGNATURE_OFFSET with 49%nat; lia).
  change (SIGNATURE_OFFSET - PUBLIC_KEY_OFFSET)%nat with 33%nat. by rewrite Hp.
Qed.

(** * Keys and the signer *)

Lemma check_public_key_parity parity x :
  parity = 2 \/ parity = 3 -> check_public_key (parity :: x) = Ok tt.
Proof. by intros [->| ->]. Qed.

Lemma public_key_Ok signer : exists pk, Host.public_key signer = Ok pk
  /\ check_public_key pk = Ok tt /\ length pk = 33%nat.
Proof.
  unfold Host.public_key, Host.p256_group. destruct group_law as [g ->]. cbn [Host.crypto ok_or].
  unfold Host.compressed. destruct context_law as [c ->]. cbn [Host.crypto ok_or].
  destruct (key_public_law signer.(Host.key) g c) as (parity & x & E & Hpar & Hl).
  rewrite E. cbn [Host.crypto ok_or]. exists (parity :: x).
  unfold Host.into_array, Host.COMPRESSED_PUBLIC_KEY_LEN. rewrite key_size_law. cbn [length].
  rewrite Hl. split; [done|]. split; [by apply check_public_key_parity|done].
Qed.

Lemma compress_jwk_Ok x y pk : Host.compress_jwk_public_key x y = Ok pk ->
  exists bx by_, x = base64url bx /\ y = base64url by_ /\ length bx = 32%nat /\ length by_ = 32%nat
    /\ pk = (2 + from_be by_ mod 2) :: bx /\ check_public_key pk = Ok tt.
Proof.
  unfold Host.compress_jwk_public_key, Host.base64url_decode. intros Hc.
  destruct (Host.engine_decode x) as [bx|] eqn:Ex; [|done].
  destruct (Host.engine_decode y) as [by_|] eqn:Ey; [|done]. cbn [ok_or] in Hc.
  apply decode_law in Ex as [Hbx ->]. apply decode_law in Ey as [Hby ->].
  rewrite field_size_law in Hc. destruct (_ && _) eqn:El in Hc; [|done].
  apply andb_true_iff in El as [Lx%Nat.eqb_eq Ly%Nat.eqb_eq].
  destruct Host.p256_group as [g|]; [|done]. destruct Host.new_context as [c|] eqn:Ec; [|done].
  cbn [Host.crypto ok_or] in Hc.
  destruct (Host.point_from_bytes g _ c) as [p|] eqn:Ep; [|done]. cbn [ok_or] in Hc.
  destruct (Host.point_is_on_curve p g c) as [[]|]; cbn in Hc; [|done..].
  pose proof (compressed_law _ _ _ _ _ Hbx Hby Lx Ly Ep) as Ecomp.
  unfold Host.compressed in Hc. rewrite Ec in Hc. cbn [Host.crypto ok_or] in Hc.
  rewrite Ecomp in Hc. cbn [Host.crypto ok_or] in Hc.
  unfold Host.into_array in Hc. case_match; [|done]. injection Hc as <-.
  exists bx, by_. split_and!; try done. apply check_public_key_parity.
  pose proof (Z.mod_pos_bound (from_be by_) 2). lia.
Qed.

Lemma low_form_valid digest point r s :
  ecdsa_valid digest point r s -> ecdsa_valid digest point r (low_form s).
Proof. intros Hv. unfold low_form. case_match; [done|by apply ecdsa_twin_law]. Qed.

Lemma compact_jws_Ok signer header payload entropy rs :
  is_bytes header -> is_bytes payload ->
  Host.ecdsa_sign (Host.openssl_sha256 (Host.signing_input header payload))
    signer.(Host.key) entropy = Some rs ->
  Host.compact_jws signer header payload entropy =
    Ok (Host.signing_input header payload ++ [46]
        ++ base64url (sig_of (bn_value rs.1) (low_form (bn_value rs.2)))).
Proof.
  intros Hh Hp Hsign. destruct rs as [r s].
  destruct (ecdsa_sign_law _ _ _ _ _ Hsign) as (Hr & Hs & _).
  destruct (sig_of_scalars _ _ Hr Hs) as [Er Es].
  unfold Host.compact_jws, Host.sign. rewrite Hsign. cbn [Host.crypto ok_or].
  rewrite raw_signature_Ok by by apply is_scalar_fits.
  rewrite normalize_signature_eq by apply sig_of_is_signature.
  rewrite Er, Es, decide_True by done. rewrite signing_input_eq by done.
  rewrite signing_input_utf8 by done. unfold Host.base64url_encode.
  rewrite encode_law by apply sig_of_is_signature. done.
Qed.
End facts.
