(* ===== verification/HostTheorems.v ===== *)
(** The theorems of the host adapter: the token it signs is the token the
    program reads, its instruction is the only layout the program accepts, and
    the signature it submits is the low form of the one it was given.  The
    sample crates compute P-256's curve equation and order; their signing is a
    stand-in that meets the laws. *)

From Stdlib Require Import ZArith Lia.
From stdpp Require Import strings relations.
From S2P Require Import Prelude AccountingMath ProtocolLayout ProtocolTypes ProtocolCodec ProtocolWire.
From S2P Require Import RemoteState RemoteMessage RemotePlatform RemoteLeg RemoteInit RemoteSample.
From S2P Require Import VerifierState VerifierJwt VerifierBase64 VerifierProgram VerifierRuns.
From S2P Require Import VerifierApprovals VerifierSample HostAdapter HostFacts.

Section theorems.
Context {R : Runtime} `{L : HostLaws}.

(** * The instruction *)

(** The layout the adapter builds is the only one the program accepts: data
    parse to a key and a signing input exactly when they are the data of the
    instruction the adapter builds for that key, that signing input and some
    signature. *)
Theorem adapter_layout_is_the_only_one data s :
  parse_precompile_data data = Ok s <->
  exists signature ix, length s.(vs_public_key) = 33%nat /\ length signature = 64%nat
    /\ Host.secp256r1_instruction s.(vs_public_key) signature s.(vs_signing_input) = Ok ix
    /\ ix.(ix_data) = data.
Proof.
  split.
  - intros (signature & Hk & Hs & Hne & Hle & ->)%parse_precompile_Ok. eexists signature, _.
    split; [done|]. split; [done|]. by rewrite secp256r1_instruction_eq, decide_True.
  - intros (signature & ix & Hk & Hs & Hi & <-). rewrite secp256r1_instruction_eq in Hi.
    case_decide as Hd; [|done]. destruct Hd. match type of Hi with Ok ?i = _ => replace ix with i by congruence end.
    cbn [ix_data]. rewrite parse_canonical by done. by destruct s.
Qed.

(** * Signatures *)

(** Normalization on every sixty-four bytes: scalars outside [1..n] are
    refused, and nothing else is.  What is returned is low, keeps [r], has
    [s] or [n - s], verifies whatever the input verified, is its own
    normalization, and is the normalization of its own high twin. *)
Theorem normalization_is_low_form signature : is_signature signature ->
  (~ (is_scalar (sig_r signature) /\ is_scalar (sig_s signature)) ->
    Host.normalize_signature signature = Err Host.ScalarOutOfRange)
  /\ (is_scalar (sig_r signature) /\ is_scalar (sig_s signature) -> exists low twin,
    Host.normalize_signature signature = Ok low
    /\ is_signature low /\ Host.is_low_s low = Ok true
    /\ sig_r low = sig_r signature
    /\ (sig_s low = sig_s signature
        \/ sig_s low = from_be Host.SECP256R1_ORDER - sig_s signature)
    /\ (forall digest point, ecdsa_valid digest point (sig_r signature) (sig_s signature) ->
          ecdsa_valid digest point (sig_r low) (sig_s low))
    /\ Host.normalize_signature low = Ok low
    /\ Host.high_s_twin low = Ok twin /\ Host.is_low_s twin = Ok false
    /\ Host.normalize_signature twin = Ok low).
Proof.
  intros Hsig. rewrite (normalize_signature_eq signature Hsig). split; intros Hd.
  { by rewrite decide_False. }
  rewrite decide_True by done. destruct Hd as [Hr Hs].
  destruct (low_form_spec _ Hs) as [Hls Hlow]. set (s' := low_form (sig_s signature)) in *.
  destruct (sig_of_scalars _ _ Hr Hls) as [Er Es].
  assert (Htw : is_scalar (from_be Host.SECP256R1_ORDER - s')) by (unfold is_scalar in *; lia).
  destruct (sig_of_scalars _ _ Hr Htw) as [Ertw Estw].
  exists (sig_of (sig_r signature) s'), (sig_of (sig_r signature) (from_be Host.SECP256R1_ORDER - s')).
  split; [done|]. split; [apply sig_of_is_signature|].
  rewrite !is_low_s_eq, !normalize_signature_eq by apply sig_of_is_signature.
  rewrite high_s_twin_eq by (by rewrite ?Es || apply sig_of_is_signature).
  rewrite Er, Es, Ertw, Estw, !decide_True by done.
  assert (Hlf : low_form s' = s') by by apply low_form_idempotent.
  rewrite (low_form_twin _ Hls), Hlf. destruct half_order_law as [_ Hn].
  rewrite (proj2 (Z.leb_le _ _)) by done. rewrite (proj2 (Z.leb_gt _ _)) by lia.
  assert (Hcase : s' = sig_s signature \/ s' = from_be Host.SECP256R1_ORDER - sig_s signature).
  { unfold s', low_form. case_match; auto. }
  split_and!; try done. intros digest point Hv.
  destruct Hcase as [->| ->]; [done|by apply ecdsa_twin_law].
Qed.

(** * Tokens *)

(** C29. What the signer signs the program reads: for any two non-empty documents
    whose signing input is within the limit, whenever the signer produces a
    signature the adapter's compact token splits back into that signing input
    and a low signature valid for the signer's key, and the instruction built
    from them is accepted by the program, which reads that key, that signing
    input and from it the two documents. *)
Theorem signed_token_reaches_program signer header payload entropy rs :
  is_bytes header -> is_bytes payload -> header <> [] -> payload <> [] ->
  (length (Host.signing_input header payload) <= MAX_SIGNING_INPUT_LEN)%nat ->
  Host.ecdsa_sign (Host.openssl_sha256 (Host.signing_input header payload))
    signer.(Host.key) entropy = Some rs ->
  let si := Host.signing_input header payload in
  exists public_key token signature ix,
    Host.public_key signer = Ok public_key
    /\ check_public_key public_key = Ok tt
    /\ Host.compact_jws signer header payload entropy = Ok token
    /\ Host.split_compact_jws token = Ok (si, signature)
    /\ Host.is_low_s signature = Ok true
    /\ ecdsa_valid (Host.openssl_sha256 si) (Host.key_public signer.(Host.key))
         (sig_r signature) (sig_s signature)
    /\ Host.secp256r1_instruction public_key signature si = Ok ix
    /\ signed_by ix public_key si
    /\ parse_precompile_data ix.(ix_data) = Ok (mkVerifiedSignature public_key si)
    /\ decode_signing_input si = Ok (mkDecodedSigningInput header payload).
Proof.
  intros Hh Hp Hhn Hpn Hlen Hsign si. destruct rs as [r s].
  destruct (ecdsa_sign_law _ _ _ _ _ Hsign) as (Hr & Hs & Hv).
  destruct (public_key_Ok signer) as (pk & Hpk & Hcheck & Hpl).
  destruct (sig_of_scalars _ _ Hr Hs) as [Er Es].
  destruct (low_form_spec _ Hs) as [Hls Hlow]. destruct (sig_of_scalars _ _ Hr Hls) as [Er' Es'].
  set (low := sig_of (bn_value r) (low_form (bn_value s))) in *.
  assert (Esi : si = base64url header ++ [46] ++ base64url payload) by by apply signing_input_eq.
  assert (Hne : si <> []) by (rewrite Esi; by destruct (base64url header)).
  exists pk, (si ++ [46] ++ base64url low), low, (mkInstruction secp256r1_ID []
    (canonical_header (Z.of_nat (length si)) ++ pk ++ low ++ si)).
  pose proof (sig_of_is_signature (bn_value r) (low_form (bn_value s))) as Hsig. fold low in Hsig.
  split; [done|]. split; [done|]. split.
  { apply (compact_jws_Ok _ _ _ _ (r, s)); done. }
  split. { apply split_compact_jws_iff. rewrite Esi. split; [done|]. split; [|done].
    by apply signing_input_one_dot. }
  rewrite is_low_s_eq, Es', Er' by done. split; [by rewrite (proj2 (Z.leb_le _ _))|].
  split; [by apply low_form_valid|].
  split; [by rewrite secp256r1_instruction_eq, decide_True|].
  split; [by repeat split; exists low|]. split; [destruct Hsig; by apply parse_canonical|].
  apply decode_signing_input_iff. by rewrite Esi.
Qed.

(** A token from elsewhere is split only where it was joined. *)
Theorem foreign_token_split token si signature :
  Host.split_compact_jws token = Ok (si, signature) <->
  is_signature signature /\ Host.count_of 46 si = 1%nat
  /\ token = si ++ [46] ++ base64url signature.
Proof. apply split_compact_jws_iff. Qed.

(** * Keys *)

(** A JWK becomes a key the program registers: only an [EC] key on [P-256]
    whose coordinates are canonical encodings of thirty-two bytes of a point
    on the curve is converted, and the result is the parity of [y] before
    [x], which [check_public_key] accepts. *)
Theorem registered_key_is_the_jwk kty crv x y pk :
  Host.compress_p256_jwk kty crv x y = Ok pk ->
  exists bx by_, kty = byte_string "EC" /\ crv = byte_string "P-256"
    /\ x = base64url bx /\ y = base64url by_ /\ length bx = 32%nat /\ length by_ = 32%nat
    /\ pk = (2 + from_be by_ mod 2) :: bx /\ check_public_key pk = Ok tt.
Proof.
  unfold Host.compress_p256_jwk. intros Hc. invert_ok.
  apply compress_jwk_Ok in Hc as (bx & by_ & Hx & Hy & Lx & Ly & -> & Hpk).
  exists bx, by_. split_and!; done.
Qed.

End theorems.

(** * Sample crates *)

Definition sample_base64 : Host.Base64Crate := {|
  Host.engine_encode := base64url;
  Host.engine_decode := fun s => match decode_base64url s with Ok b => Some b | Err _ => None end
|}.

(** The order and the field of P-256, and its curve y^2 = x^3 - 3x + b. *)
Definition p256_order : Z := 0xffffffff00000000ffffffffffffffffbce6faada7179e84f3b9cac2fc632551.
Definition p256_field : Z := 0xffffffff00000001000000000000000000000000ffffffffffffffffffffffff.
Definition p256_b : Z := 0x5ac635d8aa3a93e7b3ebbd55769886bc651d06b0cc53b0f63bce3c3e27d2604b.
Definition p256_generator : Z * Z :=
  (0x6b17d1f2e12c4247f8bce6e563a440f277037d812deb33a0f4a13945d898c296,
   0x4fe342e2fe1a7f9b8ee7eb4a7c0f9e162bce33576b315ececbb6406837bf51f5).

Definition sample_sdk : Host.Secp256r1Sdk := {|
  Host.COMPRESSED_PUBKEY_SERIALIZED_SIZE := 33;
  Host.DATA_START := 16;
  Host.FIELD_SIZE := 32;
  Host.SIGNATURE_SERIALIZED_SIZE := 64;
  Host.SECP256R1_ORDER := to_be 32 p256_order;
  Host.SECP256R1_HALF_ORDER := to_be 32 (p256_order / 2)
|}.

Definition p256_on_curve (p : Z * Z) : bool :=
  (p.1 <? p256_field) && (p.2 <? p256_field)
  && ((p.2 * p.2) mod p256_field =? (p.1 * p.1 * p.1 - 3 * p.1 + p256_b) mod p256_field).

(** Scalars of the stand-in signature, the second one high. *)
Definition sample_scalars (digest : list Z) : Z * Z :=
  (1 + from_be digest mod 2 ^ 64, p256_order - 1 - from_be digest mod 2 ^ 64).

Definition sample_openssl : Host.OpenSsl := {|
  Host.BigNum := Z;
  Host.bn_new := Some 0;
  Host.bn_from_slice := fun l => Some (from_be l);
  Host.bn_from_u32 := Some;
  Host.bn_cmp := Z.compare;
  Host.bn_sub := fun a b => Some (a - b);
  Host.bn_to_vec_padded := fun a n =>
    if a <? 256 ^ n then Some (to_be (Z.to_nat n) a) else None;
  Host.BigNumContext := unit;
  Host.new_context := Some tt;
  Host.EcGroup := unit;
  Host.prime256v1 := Some tt;
  Host.EcPoint := Z * Z;
  Host.point_new := fun _ => Some p256_generator;
  Host.point_from_bytes := fun _ l _ =>
    let p := (from_be (slice l 1 32), from_be (drop 33 l)) in
    if (length l =? 65)%nat && bool_decide (head l = Some 4) && p256_on_curve p
    then Some p else None;
  Host.point_is_on_curve := fun p _ _ => Some (p256_on_curve p);
  Host.point_to_compressed := fun p _ _ => Some ((2 + p.2 mod 2) :: to_be 32 p.1);
  Host.point_mul_generator := fun _ k _ => if k =? 1 then Some p256_generator else None;
  Host.EcKey := Z * (Z * Z);
  Host.Entropy := unit;
  Host.key_generate := fun _ _ => Some (1, p256_generator);
  Host.key_from_private_components := fun _ k p => Some (k, p);
  Host.key_check := fun _ => Some tt;
  Host.key_public := snd;
  Host.openssl_sha256 := sha256 (Chain := sample_chain);
  Host.ecdsa_sign := fun d _ _ => Some (sample_scalars d)
|}.

#[local] Existing Instances sample_base64 sample_sdk sample_openssl.

Lemma sample_order : from_be (to_be 32 p256_order) = p256_order.
Proof. apply from_to_be. by split. Qed.

Lemma sample_compressed (x y : list Z) p : is_bytes x -> is_bytes y ->
  length x = 32%nat -> length y = 32%nat ->
  Host.point_from_bytes tt ([4] ++ x ++ y) tt = Some p ->
  Some ((2 + p.2 mod 2) :: to_be 32 p.1) = Some ((2 + from_be y mod 2) :: x).
Proof.
  intros Hx Hy Lx Ly. cbn -[p256_on_curve from_be to_be slice]. case_match; [|done].
  intros [= <-]. cbn [fst snd].
  assert (Ex : slice (4 :: x ++ y) 1 32 = x) by (unfold slice; cbn [drop]; by apply take_app_length').
  assert (Ey : drop 32 (x ++ y) = y) by by apply drop_app_length'.
  rewrite Ex, Ey. rewrite <-Lx at 1. by rewrite (proj1 (to_from_be x Hx)).
Qed.

Definition sample_host_laws : HostLaws.
Proof.
  refine {| bn_value := (fun a : Host.BigNum => a : Z);
            ecdsa_valid := fun d p r s =>
              s = (sample_scalars d).2 \/ s = p256_order - (sample_scalars d).2 |}; try done.
  - intros s b. cbn. rewrite <-decode_base64url_iff. destruct (decode_base64url s); naive_solver.
  - split; [apply to_be_is_bytes|apply length_to_be].
  - split; [apply to_be_is_bytes|by vm_compute].
  - intros l _. by exists (from_be l).
  - intros v _. by exists v.
  - intros a b. by eexists.
  - intros a n [_ Hf]. cbn. unfold be_max in Hf. rewrite (proj2 (Z.ltb_lt _ _)) by lia.
    by rewrite Nat2Z.id.
  - intros [] [] x y p. apply sample_compressed.
  - intros [k [x y]] g c. exists (2 + y mod 2), (to_be 32 x). split; [done|].
    split; [pose proof (Z.mod_pos_bound y 2); lia|apply length_to_be].
  - intros d k e r s [= <- <-]. cbn [Host.SECP256R1_ORDER sample_sdk]. rewrite sample_order.
    cbn [sample_scalars fst snd]. pose proof (Z.mod_pos_bound (from_be d) (2 ^ 64)) as Hm.
    unfold p256_order. split_and!; lia.
  - intros d p r s. cbn [Host.SECP256R1_ORDER sample_sdk]. rewrite sample_order. lia.
Defined.

(** * Witnesses *)

#[local] Existing Instances sample_runtime sample_host_laws.

Definition sample_signer : Host.SyntheticSigner := Host.mkSyntheticSigner (1, p256_generator).

Lemma sample_signer_made :
  Host.from_secret (replicate 31 0 ++ [1]) = Ok sample_signer.
Proof.
  unfold Host.from_secret. replace (Host.bn_from_slice _) with (Some (1 : Host.BigNum)) by done.
  cbn [Host.SECP256R1_ORDER sample_sdk Host.bn_from_slice sample_openssl]. by rewrite sample_order.
Qed.

Lemma sample_sign d k e : Host.ecdsa_sign d k e = Some (sample_scalars d).
Proof. done. Qed.

(** The signer's token over the sample documents, and its instruction. *)
Lemma signed_token_reaches_program_witness :
  exists token signature ix,
    Host.compact_jws sample_signer sample_header (json "{`jti`:`dec_5b2e`}") tt = Ok token
    /\ Host.split_compact_jws token
       = Ok (Host.signing_input sample_header (json "{`jti`:`dec_5b2e`}"), signature)
    /\ exists public_key, parse_precompile_data ix.(ix_data) = Ok (mkVerifiedSignature public_key
         (Host.signing_input sample_header (json "{`jti`:`dec_5b2e`}"))).
Proof.
  destruct (signed_token_reaches_program sample_signer sample_header (json "{`jti`:`dec_5b2e`}") tt
    (sample_scalars (Host.openssl_sha256
      (Host.signing_input sample_header (json "{`jti`:`dec_5b2e`}")))))
    as (pk & token & signature & ix & _ & _ & Ht & Hs & _ & _ & _ & _ & Hp & _).
  - apply (bool_decide_unpack _). vm_compute. exact I.
  - apply (bool_decide_unpack _). vm_compute. exact I.
  - vm_compute. discriminate.
  - vm_compute. discriminate.
  - apply Nat.leb_le. vm_compute. reflexivity.
  - apply sample_sign.
  - exists token, signature, ix. split; [exact Ht|]. split; [exact Hs|]. exists pk. exact Hp.
Defined.

(** A signature with [s = n - 1], which normalizes to [s = 1]. *)
Lemma normalization_is_low_form_witness :
  exists low, Host.normalize_signature (sig_of 7 (p256_order - 1)) = Ok low
    /\ Host.is_low_s low = Ok true.
Proof.
  destruct (normalization_is_low_form (sig_of 7 (p256_order - 1))) as [_ Hok].
  - apply sig_of_is_signature.
  - destruct Hok as (low & twin & Hn & _ & Hl & _).
    + apply (bool_decide_unpack _). vm_compute. exact I.
    + exists low. split; [exact Hn|exact Hl].
Defined.

Lemma adapter_layout_is_the_only_one_witness :
  exists signature ix, Host.secp256r1_instruction sample_public_key signature sample_token = Ok ix
    /\ ix.(ix_data) = (sample_precompile sample_token).(ix_data).
Proof.
  destruct (proj1 (adapter_layout_is_the_only_one (sample_precompile sample_token).(ix_data)
    (mkVerifiedSignature sample_public_key sample_token))) as (signature & ix & _ & _ & Hi & Hd).
  - vm_compute. reflexivity.
  - exists signature, ix. split; [exact Hi|exact Hd].
Defined.

(** The generator of the curve as a JWK. *)
Lemma registered_key_is_the_jwk_witness :
  exists bx, Host.compress_p256_jwk (byte_string "EC") (byte_string "P-256")
    (base64url (to_be 32 p256_generator.1)) (base64url (to_be 32 p256_generator.2)) = Ok (3 :: bx)
    /\ check_public_key (3 :: bx) = Ok tt.
Proof.
  destruct (registered_key_is_the_jwk (byte_string "EC") (byte_string "P-256")
    (base64url (to_be 32 p256_generator.1)) (base64url (to_be 32 p256_generator.2))
    (3 :: to_be 32 p256_generator.1)) as (bx & by_ & _ & _ & _ & _ & _ & _ & _ & Hk).
  - vm_compute. reflexivity.
  - exists (to_be 32 p256_generator.1). split; [vm_compute; reflexivity|exact Hk].
Defined.
