(* ===== verification/SimState.v ===== *)
(** Data of the transport simulator ([crates/xchain-sim/src]): lanes
    ([lane.rs]), endpoints and their inboxes ([endpoint.rs]), scheduled
    events ([event.rs]), faults and fault plans ([fault.rs]), the queue of
    pending deliveries ([queue.rs]), the trace ([trace.rs]) and the errors
    ([error.rs]).

    Ticks ([time.rs]), event, endpoint and fault numbers and amounts are [Z]
    at their Rust width.  A [BTreeMap] is a [gmap] iterated in key order and
    a [BTreeSet] a [gset] iterated in element order. *)

From Stdlib Require Import ZArith Lia.
From S2P Require Import Prelude ProtocolTypes.

Abbreviation Tick := Z (only parsing).
Abbreviation EventId := Z (only parsing).
Abbreviation EndpointId := Z (only parsing).
Abbreviation FaultId := Z (only parsing).
Abbreviation AssetAmount := Z (only parsing).
Abbreviation MessageId := (list Z) (only parsing).
Abbreviation TransferId := (list Z) (only parsing).

(** [Tick::checked_add]. *)
Definition tick_checked_add (t : Tick) (ticks : Z) : option Tick := checked_add u64_max t ticks.

(** * Lanes *)

Inductive Lane : Set := LaneControl | LaneAsset.

#[global] Instance Lane_eq_dec : EqDecision Lane.
Proof. solve_decision. Defined.

#[global] Instance Lane_countable : Countable Lane.
Proof.
  apply (inj_countable' (fun l => match l with LaneControl => true | LaneAsset => false end)
    (fun b : bool => if b then LaneControl else LaneAsset)). by intros [].
Defined.

Definition LANE_ALL : list Lane := [LaneControl; LaneAsset].

Definition lane_priority (l : Lane) : Z :=
  match l with LaneControl => 0 | LaneAsset => 1 end.

Inductive LaneState : Set := Running | Paused.

#[global] Instance LaneState_eq_dec : EqDecision LaneState.
Proof. solve_decision. Defined.

Definition is_paused (s : LaneState) : bool :=
  match s with Paused => true | Running => false end.

(** * Events *)

Inductive EventStatus : Set :=
| Scheduled | Ready | Delivered | Dropped | Blocked | Expired | RejectedBySimulator.

#[global] Instance EventStatus_eq_dec : EqDecision EventStatus.
Proof. solve_decision. Defined.

Definition is_terminal (s : EventStatus) : bool :=
  match s with
  | Delivered | Dropped | Expired | RejectedBySimulator => true
  | Scheduled | Ready | Blocked => false
  end.

Definition status_code (s : EventStatus) : Z :=
  match s with
  | Scheduled => 0
  | Ready => 1
  | Delivered => 2
  | Dropped => 3
  | Blocked => 4
  | Expired => 5
  | RejectedBySimulator => 6
  end.

Record ByteMutation := mkByteMutation {
  bm_offset : Z;
  bm_from : Z;
  bm_to : Z;
  bm_original_message_id : MessageId
}.

#[global] Instance ByteMutation_eq_dec : EqDecision ByteMutation.
Proof. solve_decision. Defined.

Record ControlEvent := mkControlEvent {
  ce_id : EventId;
  ce_source : EndpointId;
  ce_destination : EndpointId;
  ce_intended_destination : EndpointId;
  ce_bytes : list Z;
  ce_message_id : MessageId;
  ce_deliver_at : Tick;
  ce_attempts : Z;
  ce_duplicate_of : option EventId;
  ce_mutation : option ByteMutation;
  ce_expires_at : option Tick;
  ce_from_fault : bool;
  ce_status : EventStatus
}.

#[global] Instance ControlEvent_eta : Eta ControlEvent := fun e => mkControlEvent
  (ce_id e) (ce_source e) (ce_destination e) (ce_intended_destination e) (ce_bytes e)
  (ce_message_id e) (ce_deliver_at e) (ce_attempts e) (ce_duplicate_of e) (ce_mutation e)
  (ce_expires_at e) (ce_from_fault e) (ce_status e).

#[global] Instance ControlEvent_eq_dec : EqDecision ControlEvent.
Proof. solve_decision. Defined.

Record AssetEvent := mkAssetEvent {
  ae_id : EventId;
  ae_transfer : TransferId;
  ae_source : EndpointId;
  ae_destination : EndpointId;
  ae_intended_destination : EndpointId;
  ae_requested : AssetAmount;
  ae_delivered : AssetAmount;
  ae_deliver_at : Tick;
  ae_attempts : Z;
  ae_duplicate_of : option EventId;
  ae_piece : option Z;
  ae_over_delivered : bool;
  ae_timeout_at : option Tick;
  ae_from_fault : bool;
  ae_status : EventStatus
}.

#[global] Instance AssetEvent_eta : Eta AssetEvent := fun e => mkAssetEvent
  (ae_id e) (ae_transfer e) (ae_source e) (ae_destination e) (ae_intended_destination e)
  (ae_requested e) (ae_delivered e) (ae_deliver_at e) (ae_attempts e) (ae_duplicate_of e)
  (ae_piece e) (ae_over_delivered e) (ae_timeout_at e) (ae_from_fault e) (ae_status e).

#[global] Instance AssetEvent_eq_dec : EqDecision AssetEvent.
Proof. solve_decision. Defined.

Inductive Event : Set :=
| EvControl (c : ControlEvent)
| EvAsset (a : AssetEvent).

#[global] Instance Event_eq_dec : EqDecision Event.
Proof. solve_decision. Defined.

Definition event_id (e : Event) : EventId :=
  match e with EvControl c => c.(ce_id) | EvAsset a => a.(ae_id) end.

Definition event_lane (e : Event) : Lane :=
  match e with EvControl _ => LaneControl | EvAsset _ => LaneAsset end.

Definition event_source (e : Event) : EndpointId :=
  match e with EvControl c => c.(ce_source) | EvAsset a => a.(ae_source) end.

Definition event_destination (e : Event) : EndpointId :=
  match e with EvControl c => c.(ce_destination) | EvAsset a => a.(ae_destination) end.

Definition event_intended_destination (e : Event) : EndpointId :=
  match e with
  | EvControl c => c.(ce_intended_destination)
  | EvAsset a => a.(ae_intended_destination)
  end.

Definition event_deliver_at (e : Event) : Tick :=
  match e with EvControl c => c.(ce_deliver_at) | EvAsset a => a.(ae_deliver_at) end.

Definition event_status (e : Event) : EventStatus :=
  match e with EvControl c => c.(ce_status) | EvAsset a => a.(ae_status) end.

Definition event_attempts (e : Event) : Z :=
  match e with EvControl c => c.(ce_attempts) | EvAsset a => a.(ae_attempts) end.

Definition event_duplicate_of (e : Event) : option EventId :=
  match e with EvControl c => c.(ce_duplicate_of) | EvAsset a => a.(ae_duplicate_of) end.

Definition made_by_fault (e : Event) : bool :=
  match e with EvControl c => c.(ce_from_fault) | EvAsset a => a.(ae_from_fault) end.

Definition event_deadline (e : Event) : option Tick :=
  match e with EvControl c => c.(ce_expires_at) | EvAsset a => a.(ae_timeout_at) end.

Definition event_message_id (e : Event) : option MessageId :=
  match e with EvControl c => Some c.(ce_message_id) | EvAsset _ => None end.

Definition event_transfer_id (e : Event) : option TransferId :=
  match e with EvControl _ => None | EvAsset a => Some a.(ae_transfer) end.

Definition event_control (e : Event) : option ControlEvent :=
  match e with EvControl c => Some c | EvAsset _ => None end.

Definition event_asset (e : Event) : option AssetEvent :=
  match e with EvControl _ => None | EvAsset a => Some a end.

Definition set_status (status : EventStatus) (e : Event) : Event :=
  match e with
  | EvControl c => EvControl (c <| ce_status := status |>)
  | EvAsset a => EvAsset (a <| ae_status := status |>)
  end.

Definition set_deliver_at (tick : Tick) (e : Event) : Event :=
  match e with
  | EvControl c => EvControl (c <| ce_deliver_at := tick |>)
  | EvAsset a => EvAsset (a <| ae_deliver_at := tick |>)
  end.

Definition set_destination (endpoint : EndpointId) (e : Event) : Event :=
  match e with
  | EvControl c => EvControl (c <| ce_destination := endpoint |>)
  | EvAsset a => EvAsset (a <| ae_destination := endpoint |>)
  end.

Definition bump_attempts (e : Event) : Event :=
  match e with
  | EvControl c => EvControl (c <| ce_attempts ::= (fun n => saturating_add u32_max n 1) |>)
  | EvAsset a => EvAsset (a <| ae_attempts ::= (fun n => saturating_add u32_max n 1) |>)
  end.

(** * Endpoints *)

Inductive EndpointState : Set := Active | Halted.

#[global] Instance EndpointState_eq_dec : EqDecision EndpointState.
Proof. solve_decision. Defined.

Definition endpoint_state_is_halted (s : EndpointState) : bool :=
  match s with Halted => true | Active => false end.

Record DeliveredControl := mkDeliveredControl {
  dc_event : EventId;
  dc_source : EndpointId;
  dc_intended_destination : EndpointId;
  dc_bytes : list Z;
  dc_message_id : MessageId;
  dc_delivered_at : Tick;
  dc_duplicate_of : option EventId;
  dc_mutation : option ByteMutation;
  dc_after_deadline : bool
}.

#[global] Instance DeliveredControl_eq_dec : EqDecision DeliveredControl.
Proof. solve_decision. Defined.

Record DeliveredAsset := mkDeliveredAsset {
  da_event : EventId;
  da_transfer : TransferId;
  da_source : EndpointId;
  da_intended_destination : EndpointId;
  da_requested : AssetAmount;
  da_delivered : AssetAmount;
  da_delivered_at : Tick;
  da_duplicate_of : option EventId;
  da_piece : option Z;
  da_over_delivered : bool;
  da_after_timeout : bool
}.

#[global] Instance DeliveredAsset_eq_dec : EqDecision DeliveredAsset.
Proof. solve_decision. Defined.

Record Endpoint := mkEndpoint {
  ep_id : EndpointId;
  ep_state : EndpointState;
  ep_control_inbox : list DeliveredControl;
  ep_asset_inbox : list DeliveredAsset
}.

#[global] Instance Endpoint_eta : Eta Endpoint := fun p =>
  mkEndpoint (ep_id p) (ep_state p) (ep_control_inbox p) (ep_asset_inbox p).

#[global] Instance Endpoint_eq_dec : EqDecision Endpoint.
Proof. solve_decision. Defined.

Definition endpoint_new (id : EndpointId) : Endpoint := mkEndpoint id Active [] [].

Definition is_halted (p : Endpoint) : bool := endpoint_state_is_halted p.(ep_state).

Definition set_state (state : EndpointState) (p : Endpoint) : Endpoint := p <| ep_state := state |>.

Definition push_control (d : DeliveredControl) (p : Endpoint) : Endpoint :=
  p <| ep_control_inbox ::= (fun l => l ++ [d]) |>.

Definition push_asset (d : DeliveredAsset) (p : Endpoint) : Endpoint :=
  p <| ep_asset_inbox ::= (fun l => l ++ [d]) |>.

(** [is_misrouted] of a delivered control message and of an asset movement. *)
Definition control_is_misrouted (d : DeliveredControl) (inbox_owner : EndpointId) : bool :=
  negb (d.(dc_intended_destination) =? inbox_owner).

Definition asset_is_misrouted (d : DeliveredAsset) (inbox_owner : EndpointId) : bool :=
  negb (d.(da_intended_destination) =? inbox_owner).

(** * Faults *)

Inductive FaultTarget : Set :=
| TargetEvent (id : EventId)
| TargetMessage (id : MessageId)
| TargetTransfer (id : TransferId)
| TargetRoute (source destination : EndpointId) (lane : Lane)
| TargetLane (lane : Lane).

#[global] Instance FaultTarget_eq_dec : EqDecision FaultTarget.
Proof. solve_decision. Defined.

Definition lane_hint (t : FaultTarget) : option Lane :=
  match t with
  | TargetEvent _ => None
  | TargetMessage _ => Some LaneControl
  | TargetTransfer _ => Some LaneAsset
  | TargetRoute _ _ lane | TargetLane lane => Some lane
  end.

(** [FaultTarget::matches]. *)
Definition target_matches (t : FaultTarget) (e : Event) : bool :=
  match t with
  | TargetEvent id => event_id e =? id
  | TargetMessage id => bool_decide (event_message_id e = Some id)
  | TargetTransfer id => bool_decide (event_transfer_id e = Some id)
  | TargetRoute source destination lane =>
      bool_decide (event_lane e = lane)
      && (event_source e =? source)
      && (event_intended_destination e =? destination)
  | TargetLane lane => bool_decide (event_lane e = lane)
  end.

Inductive FaultAction : Set :=
| Delay (ticks : Z)
| Drop
| Duplicate (copies spacing : Z)
| ReplaceDestination (to : EndpointId)
| CorruptByte (offset mask : Z)
| Partial (amount : AssetAmount)
| Split (pieces : list AssetAmount) (spacing : Z)
| OverDeliver (amount : AssetAmount).

#[global] Instance FaultAction_eq_dec : EqDecision FaultAction.
Proof. solve_decision. Defined.

Inductive FaultStage : Set := StageReroute | StageContent | StageFanout | StageDelay | StageDrop.

(** The derived order of [FaultStage]: its declaration order. *)
Definition stage_rank (s : FaultStage) : Z :=
  match s with
  | StageReroute => 0 | StageContent => 1 | StageFanout => 2 | StageDelay => 3 | StageDrop => 4
  end.

Inductive ExclusionGroup : Set :=
| GroupDestination | GroupContent | GroupFanout | GroupTiming | GroupRemoval.

#[global] Instance ExclusionGroup_eq_dec : EqDecision ExclusionGroup.
Proof. solve_decision. Defined.

Definition action_stage (a : FaultAction) : FaultStage :=
  match a with
  | ReplaceDestination _ => StageReroute
  | CorruptByte _ _ | Partial _ | Split _ _ | OverDeliver _ => StageContent
  | Duplicate _ _ => StageFanout
  | Delay _ => StageDelay
  | Drop => StageDrop
  end.

Definition action_group (a : FaultAction) : ExclusionGroup :=
  match a with
  | ReplaceDestination _ => GroupDestination
  | CorruptByte _ _ | Partial _ | Split _ _ | OverDeliver _ => GroupContent
  | Duplicate _ _ => GroupFanout
  | Delay _ => GroupTiming
  | Drop => GroupRemoval
  end.

Definition creates_events (a : FaultAction) : bool :=
  match a with Duplicate _ _ | Split _ _ => true | _ => false end.

Definition required_lane (a : FaultAction) : option Lane :=
  match a with
  | CorruptByte _ _ => Some LaneControl
  | Partial _ | Split _ _ | OverDeliver _ => Some LaneAsset
  | Delay _ | Drop | Duplicate _ _ | ReplaceDestination _ => None
  end.

Record Fault := mkFault {
  f_id : FaultId;
  f_target : FaultTarget;
  f_action : FaultAction
}.

#[global] Instance Fault_eq_dec : EqDecision Fault.
Proof. solve_decision. Defined.

(** Lexicographic order on [order_key], the pair of stage and identifier. *)
Definition order_key (f : Fault) : Z * Z := (stage_rank (action_stage f.(f_action)), f.(f_id)).

Definition fault_before (f g : Fault) : Prop :=
  (order_key f).1 < (order_key g).1 \/
  (order_key f).1 = (order_key g).1 /\ (order_key f).2 <= (order_key g).2.

#[global] Instance fault_before_dec : RelDecision fault_before.
Proof. intros f g. unfold fault_before. apply _. Defined.

#[global] Instance fault_before_total : Total fault_before.
Proof. intros f g. unfold fault_before. lia. Qed.

#[global] Instance fault_before_trans : Transitive fault_before.
Proof. intros f g h. unfold fault_before. lia. Qed.

Abbreviation FaultPlan := (gmap Z Fault) (only parsing).

(** [FaultPlan::iter]: the faults by identifier. *)
Definition plan_iter (p : FaultPlan) : list Fault := (btree_iter Z.le p).*2.

Definition plan_insert (f : Fault) (p : FaultPlan) : FaultPlan := <[f.(f_id) := f]> p.

(** [FaultPlan::matching]. *)
Definition plan_matching (p : FaultPlan) (e : Event) : list Fault :=
  merge_sort fault_before (filter (fun f => target_matches f.(f_target) e) (plan_iter p)).

(** [PlanSeed::next]: the mixer and its next state, modulo [2^64]. *)
Definition seed_next (state : Z) : Z * Z :=
  let state := (state + 11400714819323198485) mod 2 ^ 64 in
  let value := state in
  let value := (Z.lxor value (Z.shiftr value 30) * 13787848793156543929) mod 2 ^ 64 in
  let value := (Z.lxor value (Z.shiftr value 27) * 10723151780598845931) mod 2 ^ 64 in
  (Z.lxor value (Z.shiftr value 31), state).

(** [PlanSeed::below]. *)
Definition seed_below (limit : Z) (state : Z) : Z * Z :=
  let '(value, state) := seed_next state in
  (if limit =? 0 then 0 else value mod limit, state).

Definition seeded_action (lane : Lane) (state : Z) : FaultAction * Z :=
  let '(choice, state) := seed_below 4 state in
  if choice =? 0 then
    let '(n, state) := seed_below 8 state in
    (Delay (saturating_add u64_max n 1), state)
  else if choice =? 1 then (Drop, state)
  else if choice =? 2 then
    let '(n, state) := seed_below 4 state in (Duplicate 1 n, state)
  else match lane with
  | LaneControl =>
      let '(offset, state) := seed_below 64 state in
      let '(n, state) := seed_below 255 state in
      let mask := saturating_add u64_max n 1 in
      (CorruptByte offset (if mask <=? u8_max then mask else 1), state)
  | LaneAsset =>
      let '(n, state) := seed_below 16 state in
      (Partial (saturating_add u64_max n 1), state)
  end.

(** The loop of [seeded_plan], stopped where the position leaves [u32]. *)
Fixpoint seeded_loop (targets : list (EventId * Lane)) (index state : Z) (plan : FaultPlan)
    : FaultPlan :=
  match targets with
  | [] => plan
  | (event, lane) :: rest =>
      if u32_max <? index then plan
      else
        let '(action, state) := seeded_action lane state in
        seeded_loop rest (index + 1) state
          (plan_insert (mkFault index (TargetEvent event) action) plan)
  end.

Definition seeded_plan (seed : Z) (targets : list (EventId * Lane)) : FaultPlan :=
  seeded_loop targets 0 seed ∅.

(** * The queue *)

Record QueueKey := mkQueueKey {
  qk_deliver_at : Tick;
  qk_lane_priority : Z;
  qk_event : EventId
}.

#[global] Instance QueueKey_eq_dec : EqDecision QueueKey.
Proof. solve_decision. Defined.

#[global] Instance QueueKey_countable : Countable QueueKey.
Proof.
  apply (inj_countable' (fun k => (qk_deliver_at k, qk_lane_priority k, qk_event k))
    (fun t => mkQueueKey t.1.1 t.1.2 t.2)). by intros [].
Defined.

(** The derived order of [QueueKey]: tick, then lane, then event. *)
Definition key_before (k k' : QueueKey) : Prop :=
  k.(qk_deliver_at) < k'.(qk_deliver_at) \/
  k.(qk_deliver_at) = k'.(qk_deliver_at) /\
  (k.(qk_lane_priority) < k'.(qk_lane_priority) \/
   k.(qk_lane_priority) = k'.(qk_lane_priority) /\ k.(qk_event) <= k'.(qk_event)).

#[global] Instance key_before_dec : RelDecision key_before.
Proof. intros k k'. unfold key_before. apply _. Defined.

#[global] Instance key_before_total : Total key_before.
Proof. intros k k'. unfold key_before. lia. Qed.

#[global] Instance key_before_trans : Transitive key_before.
Proof. intros k k' k''. unfold key_before. lia. Qed.

#[global] Instance key_before_refl : Reflexive key_before.
Proof. intros k. unfold key_before. lia. Qed.

#[global] Instance key_before_antisymm : AntiSymm (=) key_before.
Proof. intros [] []. unfold key_before. simpl. intros. f_equal; lia. Qed.

Definition queue_key_new (deliver_at : Tick) (lane : Lane) (event : EventId) : QueueKey :=
  mkQueueKey deliver_at (lane_priority lane) event.

Abbreviation EventQueue := (gset QueueKey) (only parsing).

(** The elements of a [BTreeSet] in order. *)
Definition btree_set_iter {A} `{Countable A} (R : relation A) `{!RelDecision R} (s : gset A)
    : list A := merge_sort R (elements s).

Definition queue_iter (q : EventQueue) : list QueueKey := btree_set_iter key_before q.

Definition queue_peek (q : EventQueue) : option QueueKey := head (queue_iter q).

Definition queue_pop (q : EventQueue) : EventQueue :=
  match queue_peek q with Some k => q ∖ {[ k ]} | None => q end.

Definition queue_find (event : EventId) (q : EventQueue) : option QueueKey :=
  head (filter (fun k => k.(qk_event) = event) (queue_iter q)).

Definition next_tick (q : EventQueue) : option Tick := qk_deliver_at <$> queue_peek q.

(** * The trace *)

Inductive Subject : Set :=
| SubjectMessage (id : MessageId)
| SubjectTransfer (id : TransferId).

#[global] Instance Subject_eq_dec : EqDecision Subject.
Proof. solve_decision. Defined.

Inductive BlockReason : Set := ReasonEndpointHalted | ReasonLanePaused.

#[global] Instance BlockReason_eq_dec : EqDecision BlockReason.
Proof. solve_decision. Defined.

Inductive RejectReason : Set :=
| CorruptOffsetOutOfRange | CorruptMaskIsZero | AlreadyCorrupted | SplitExceedsRequest
| SplitPieceIsZero | SplitHasNoPieces | AmountIsZero | AmountExceedsRequest
| OverDeliveryNotAboveRequest | DuplicateCopiesIsZero | ConflictingGroup
| RejectUnknownEndpoint.

#[global] Instance RejectReason_eq_dec : EqDecision RejectReason.
Proof. solve_decision. Defined.

Inductive FaultEffect : Set :=
| EffDelayed (to : Tick)
| EffDropped
| EffDuplicated (copies : Z)
| EffRerouted (to : EndpointId)
| EffCorrupted (offset from to : Z)
| EffAmountSet (to : AssetAmount)
| EffSplitInto (pieces : Z).

#[global] Instance FaultEffect_eq_dec : EqDecision FaultEffect.
Proof. solve_decision. Defined.

Inductive TraceAction : Set :=
| TrEventScheduled (event : EventId) (lane : Lane) (source destination : EndpointId)
    (subject : Subject) (deliver_at : Tick)
| TrFaultApplied (fault : FaultId) (event : EventId) (effect : FaultEffect)
| TrFaultRejected (fault : FaultId) (event : EventId) (reason : RejectReason)
| TrTickAdvanced (from to : Tick)
| TrEndpointHalted (endpoint : EndpointId)
| TrEndpointResumed (endpoint : EndpointId) (released : Z)
| TrDeliveryAttempted (event : EventId) (destination : EndpointId) (attempt : Z)
| TrDeliveryBlocked (event : EventId) (destination : EndpointId) (reason : BlockReason)
| TrEventDelivered (event : EventId) (destination : EndpointId) (subject : Subject)
    (after_deadline : bool)
| TrEventDropped (event : EventId) (fault : option FaultId)
| TrEventExpired (event : EventId) (deadline : Tick)
| TrEventRejected (event : EventId) (reason : RejectReason)
| TrDuplicateCreated (original duplicate : EventId) (deliver_at : Tick)
| TrPartialDeliveryCreated (original piece_event : EventId) (transfer : TransferId)
    (amount : AssetAmount) (piece : Z)
| TrEventReordered (event : EventId) (from to : Tick)
| TrLanePaused (lane : Lane)
| TrLaneResumed (lane : Lane) (released : Z).

#[global] Instance TraceAction_eq_dec : EqDecision TraceAction.
Proof. solve_decision. Defined.

(** The event a record is about, [TraceAction::event]. *)
Definition action_event (a : TraceAction) : option EventId :=
  match a with
  | TrEventScheduled event _ _ _ _ _ | TrFaultApplied _ event _ | TrFaultRejected _ event _
  | TrDeliveryAttempted event _ _ | TrDeliveryBlocked event _ _ | TrEventDelivered event _ _ _
  | TrEventDropped event _ | TrEventExpired event _ | TrEventRejected event _
  | TrEventReordered event _ _ => Some event
  | TrDuplicateCreated original _ _ | TrPartialDeliveryCreated original _ _ _ _ => Some original
  | TrTickAdvanced _ _ | TrEndpointHalted _ | TrEndpointResumed _ _ | TrLanePaused _
  | TrLaneResumed _ _ => None
  end.

(** The message or transfer a record is about, [TraceAction::subject]. *)
Definition action_subject (a : TraceAction) : option Subject :=
  match a with
  | TrEventScheduled _ _ _ _ subject _ | TrEventDelivered _ _ subject _ => Some subject
  | TrPartialDeliveryCreated _ _ transfer _ _ => Some (SubjectTransfer transfer)
  | _ => None
  end.

Record TraceRecord := mkTraceRecord {
  tr_index : Z;
  tr_tick : Tick;
  tr_action : TraceAction
}.

#[global] Instance TraceRecord_eq_dec : EqDecision TraceRecord.
Proof. solve_decision. Defined.

Abbreviation Trace := (list TraceRecord) (only parsing).

(** [Trace::push]; the index saturates at the top of [u32]. *)
Definition trace_push (tick : Tick) (action : TraceAction) (t : Trace) : Trace :=
  t ++ [mkTraceRecord (Z.min u32_max (Z.of_nat (length t))) tick action].

Definition trace_for_event (event : EventId) (t : Trace) : list TraceRecord :=
  filter (fun r => action_event r.(tr_action) = Some event) t.

Definition trace_since (start : nat) (t : Trace) : Trace := drop start t.

Definition indices_are_contiguous (t : Trace) : bool :=
  forallb (fun pr => Z.of_nat pr.1 =? pr.2.(tr_index))
    (imap (fun position record => (position, record)) t).

(** * Errors *)

Inductive ConfigProblem : Set :=
| EmptyMessage | ActionLaneMismatch | SameEndpointRoute | NoDuplicateCopies | NoEndpoints
| ProblemCorruptOffsetOutOfRange | NoByteChange.

#[global] Instance ConfigProblem_eq_dec : EqDecision ConfigProblem.
Proof. solve_decision. Defined.

Inductive SimError : Set :=
| DuplicateEndpoint (id : EndpointId)
| UnknownEndpoint (id : EndpointId)
| DuplicateEventId (id : EventId)
| UnknownEvent (id : EventId)
| DuplicateFaultId (id : FaultId)
| UnknownFaultTarget (id : FaultId)
| TimeMovesBackwards (now requested : Tick)
| DeliveryTickInPast (now requested : Tick)
| ZeroAssetAmount
| InvalidPartialSplit
| PartialSumExceedsRequest (requested offered : Z)
| ConflictingFaults (first second : FaultId)
| EndpointHalted (id : EndpointId)
| LanePaused (lane : Lane)
| SimDecode (e : DecodeError)
| ArithmeticOverflow
| InvalidConfiguration (p : ConfigProblem)
| EventAlreadyTerminal (id : EventId)
| FaultsAlreadyBound (id : EventId).

#[global] Instance SimError_eq_dec : EqDecision SimError.
Proof. solve_decision. Defined.

(** * Widths *)

(** The values the Rust types admit. *)
Definition maybe (P : Z -> Prop) (o : option Z) : Prop :=
  match o with Some x => P x | None => True end.

Definition target_typed (t : FaultTarget) : Prop :=
  match t with
  | TargetEvent id => is_u64 id
  | TargetMessage id | TargetTransfer id => is_wide id
  | TargetRoute source destination _ => is_u32 source /\ is_u32 destination
  | TargetLane _ => True
  end.

Definition action_typed (a : FaultAction) : Prop :=
  match a with
  | Delay ticks => is_u64 ticks
  | Drop => True
  | Duplicate copies spacing => is_u16 copies /\ is_u64 spacing
  | ReplaceDestination to => is_u32 to
  | CorruptByte offset mask => is_u64 offset /\ is_u8 mask
  | Partial amount | OverDeliver amount => is_u128 amount
  | Split pieces spacing => Forall is_u128 pieces /\ is_u64 spacing
  end.

Definition fault_typed (f : Fault) : Prop :=
  is_u32 f.(f_id) /\ target_typed f.(f_target) /\ action_typed f.(f_action).

Definition control_event_typed (c : ControlEvent) : Prop :=
  is_u64 c.(ce_id) /\ is_u32 c.(ce_source) /\ is_u32 c.(ce_destination) /\
  is_u32 c.(ce_intended_destination) /\ is_bytes c.(ce_bytes) /\ is_u64 c.(ce_deliver_at) /\
  is_u32 c.(ce_attempts) /\ maybe is_u64 c.(ce_duplicate_of) /\
  match c.(ce_mutation) with
  | Some m => is_u64 m.(bm_offset) /\ is_u8 m.(bm_from) /\ is_u8 m.(bm_to)
  | None => True
  end /\ maybe is_u64 c.(ce_expires_at).

Definition asset_event_typed (a : AssetEvent) : Prop :=
  is_u64 a.(ae_id) /\ is_wide a.(ae_transfer) /\ is_u32 a.(ae_source) /\
  is_u32 a.(ae_destination) /\ is_u32 a.(ae_intended_destination) /\ is_u128 a.(ae_requested) /\
  is_u128 a.(ae_delivered) /\ is_u64 a.(ae_deliver_at) /\ is_u32 a.(ae_attempts) /\
  maybe is_u64 a.(ae_duplicate_of) /\ maybe is_u16 a.(ae_piece) /\
  maybe is_u64 a.(ae_timeout_at).

Definition event_typed (e : Event) : Prop :=
  match e with EvControl c => control_event_typed c | EvAsset a => asset_event_typed a end.
