(* ===== verification/SimEngine.v ===== *)
(** The transport engine of the simulator
    ([crates/xchain-sim/src/simulator.rs], [operation.rs], [inspect.rs]):
    scheduling, fault registration, the clock, delivery attempts with fault
    composition, halts and pauses, and reordering.

    A [&mut self] method is a function from the simulator to its result and
    the simulator it leaves behind, on the error paths too.  A [while] or
    [loop] is a function of a step budget that returns [None] when the
    budget runs out; [SimRuns] proves that the budgets given here are
    enough.  Keccak-256 is the parameter [digest]. *)

From Stdlib Require Import ZArith Lia.
From S2P Require Import Prelude ProtocolTypes ProtocolCodec SimState.

(** * Configuration and requests *)

Inductive LatePolicy : Set := DeliverWithMarker | Expire.

#[global] Instance LatePolicy_eq_dec : EqDecision LatePolicy.
Proof. solve_decision. Defined.

Record SimulatorConfig := mkSimulatorConfig {
  sc_control_late_policy : LatePolicy;
  sc_asset_late_policy : LatePolicy
}.

#[global] Instance SimulatorConfig_eq_dec : EqDecision SimulatorConfig.
Proof. solve_decision. Defined.

Definition config_default : SimulatorConfig := mkSimulatorConfig DeliverWithMarker DeliverWithMarker.

Definition config_expiring : SimulatorConfig := mkSimulatorConfig Expire Expire.

Definition config_policy (c : SimulatorConfig) (lane : Lane) : LatePolicy :=
  match lane with
  | LaneControl => c.(sc_control_late_policy)
  | LaneAsset => c.(sc_asset_late_policy)
  end.

Record ControlRequest := mkControlRequest {
  cr_id : option EventId;
  cr_source : EndpointId;
  cr_destination : EndpointId;
  cr_bytes : list Z;
  cr_deliver_at : Tick;
  cr_expires_at : option Tick
}.

#[global] Instance ControlRequest_eta : Eta ControlRequest := fun r => mkControlRequest
  (cr_id r) (cr_source r) (cr_destination r) (cr_bytes r) (cr_deliver_at r) (cr_expires_at r).

Definition control_request_new (source destination : EndpointId) (bytes : list Z)
    (deliver_at : Tick) : ControlRequest :=
  mkControlRequest None source destination bytes deliver_at None.

Definition control_with_id (id : EventId) (r : ControlRequest) : ControlRequest :=
  r <| cr_id := Some id |>.

Definition control_expiring_at (tick : Tick) (r : ControlRequest) : ControlRequest :=
  r <| cr_expires_at := Some tick |>.

Record AssetRequest := mkAssetRequest {
  ar_id : option EventId;
  ar_transfer : TransferId;
  ar_source : EndpointId;
  ar_destination : EndpointId;
  ar_amount : AssetAmount;
  ar_deliver_at : Tick;
  ar_timeout_at : option Tick
}.

#[global] Instance AssetRequest_eta : Eta AssetRequest := fun r => mkAssetRequest
  (ar_id r) (ar_transfer r) (ar_source r) (ar_destination r) (ar_amount r) (ar_deliver_at r)
  (ar_timeout_at r).

Definition asset_request_new (transfer : TransferId) (source destination : EndpointId)
    (amount : AssetAmount) (deliver_at : Tick) : AssetRequest :=
  mkAssetRequest None transfer source destination amount deliver_at None.

Definition asset_with_id (id : EventId) (r : AssetRequest) : AssetRequest :=
  r <| ar_id := Some id |>.

Definition asset_timing_out_at (tick : Tick) (r : AssetRequest) : AssetRequest :=
  r <| ar_timeout_at := Some tick |>.

Inductive Outcome : Set :=
| Proceed
| OutDelayed (to : Tick)
| OutDropped (fault : FaultId)
| OutRejected (reason : RejectReason).

(** * The network *)

Record Simulator := mkSimulator {
  sim_config : SimulatorConfig;
  sim_now : Tick;
  sim_endpoints : gmap Z Endpoint;
  sim_events : gmap Z Event;
  sim_queue : gset QueueKey;
  sim_held : gset Z;
  sim_lanes : gmap Lane LaneState;
  sim_plan : gmap Z Fault;
  sim_resolved : gset Z;
  sim_trace : list TraceRecord;
  sim_next_event : Z
}.

#[global] Instance Simulator_eta : Eta Simulator := fun s => mkSimulator
  (sim_config s) (sim_now s) (sim_endpoints s) (sim_events s) (sim_queue s) (sim_held s)
  (sim_lanes s) (sim_plan s) (sim_resolved s) (sim_trace s) (sim_next_event s).

(** [?] in a method that may already have written: the error keeps the
    state reached. *)
#[local] Notation "'check' x := m 'on' s ; k" :=
  (match m with Ok x => k | Err e => (Err e, s) end)
  (at level 10, x name, m at level 100, s at level 100, k at level 200) : rust_scope.

#[local] Notation "'run' x ',' s := m ; k" :=
  (match m with (Ok x, s) => k | (Err e, s) => (Err e, s) end)
  (at level 10, x name, s name, m at level 100, k at level 200) : rust_scope.

(** The loop of [with_config] that registers the endpoints. *)
Definition register_endpoint (map : gmap Z Endpoint) (id : EndpointId)
    : result SimError (gmap Z Endpoint) :=
  match map !! id with
  | Some _ => Err (DuplicateEndpoint id)
  | None => Ok (<[id := endpoint_new id]> map)
  end.

Definition with_config (config : SimulatorConfig) (endpoints : list EndpointId)
    : result SimError Simulator :=
  fail_if bool_decide (endpoints = []) with InvalidConfiguration NoEndpoints;
  let? map := try_fold register_endpoint ∅ endpoints in
  let lanes := foldl (fun lanes lane => <[lane := Running]> lanes) ∅ LANE_ALL in
  Ok (mkSimulator config 0 map ∅ ∅ ∅ lanes ∅ ∅ [] 1).

Definition simulator_new (endpoints : list EndpointId) : result SimError Simulator :=
  with_config config_default endpoints.

Definition add_endpoint (id : EndpointId) (sim : Simulator) : result SimError unit * Simulator :=
  match sim.(sim_endpoints) !! id with
  | Some _ => (Err (DuplicateEndpoint id), sim)
  | None => (Ok tt, sim <| sim_endpoints ::= <[id := endpoint_new id]> |>)
  end.

Definition lane_state (sim : Simulator) (lane : Lane) : LaneState :=
  default Running (sim.(sim_lanes) !! lane).

(** [self.trace.push(self.now, action)]. *)
Definition log (action : TraceAction) (sim : Simulator) : Simulator :=
  sim <| sim_trace ::= trace_push sim.(sim_now) action |>.

(** [self.events.insert(id, event)] and [self.queue.insert(key)]. *)
Definition store (id : EventId) (event : Event) (sim : Simulator) : Simulator :=
  sim <| sim_events ::= <[id := event]> |>.

Definition enqueue (key : QueueKey) (sim : Simulator) : Simulator :=
  sim <| sim_queue ::= union {[ key ]} |>.

(** * Scheduling *)

Definition require_endpoint (sim : Simulator) (id : EndpointId) : result SimError unit :=
  match sim.(sim_endpoints) !! id with
  | Some _ => Ok tt
  | None => Err (UnknownEndpoint id)
  end.

Definition check_route (sim : Simulator) (source destination : EndpointId)
    : result SimError unit :=
  let? _ := require_endpoint sim source in
  let? _ := require_endpoint sim destination in
  fail_if source =? destination with InvalidConfiguration SameEndpointRoute;
  Ok tt.

Definition check_delivery_tick (sim : Simulator) (tick : Tick) : result SimError unit :=
  fail_if tick <? sim.(sim_now) with DeliveryTickInPast sim.(sim_now) tick;
  Ok tt.

Definition reserve_event_id (wanted : option EventId) (sim : Simulator)
    : result SimError EventId * Simulator :=
  let id := default sim.(sim_next_event) wanted in
  match sim.(sim_events) !! id with
  | Some _ => (Err (DuplicateEventId id), sim)
  | None =>
      check next := ok_or (checked_add u64_max id 1) ArithmeticOverflow on sim;
      (Ok id, sim <| sim_next_event := Z.max next sim.(sim_next_event) |>)
  end.

Definition insert_scheduled (event : Event) (subject : Subject) (sim : Simulator) : Simulator :=
  let key := queue_key_new (event_deliver_at event) (event_lane event) (event_id event) in
  let sim := log (TrEventScheduled (event_id event) (event_lane event) (event_source event)
    (event_destination event) subject (event_deliver_at event)) sim in
  enqueue key (store (event_id event) event sim).

(** The loop of [take_generated_id]; an identifier that is taken is one of
    the known events, so as many steps as there are events pass them all. *)
Fixpoint generated_loop (fuel : nat) (candidate : Z) (sim : Simulator)
    : option (EventId * Simulator) :=
  match fuel with
  | O => None
  | S fuel =>
      match sim.(sim_events) !! candidate with
      | None =>
          match checked_add u64_max candidate 1 with
          | Some next => Some (candidate, sim <| sim_next_event := next |>)
          | None => None
          end
      | Some _ =>
          match checked_add u64_max candidate 1 with
          | Some next => generated_loop fuel next sim
          | None => None
          end
      end
  end.

Definition take_generated_id (sim : Simulator) : option (EventId * Simulator) :=
  generated_loop (S (size sim.(sim_events))) sim.(sim_next_event) sim.

(** * The clock *)

Definition advance_to (target : Tick) (sim : Simulator) : result SimError unit * Simulator :=
  if target <? sim.(sim_now) then (Err (TimeMovesBackwards sim.(sim_now) target), sim)
  else if target =? sim.(sim_now) then (Ok tt, sim)
  else (Ok tt, log (TrTickAdvanced sim.(sim_now) target) (sim <| sim_now := target |>)).

Definition advance_by (ticks : Z) (sim : Simulator) : result SimError unit * Simulator :=
  check target := ok_or (tick_checked_add sim.(sim_now) ticks) ArithmeticOverflow on sim;
  advance_to target sim.

(** * Registering faults *)

(** [sum_pieces]: [None] past [u128]. *)
Fixpoint sum_pieces_from (total : Z) (pieces : list AssetAmount) : option Z :=
  match pieces with
  | [] => Some total
  | piece :: rest =>
      match checked_add u128_max total piece with
      | Some total => sum_pieces_from total rest
      | None => None
      end
  end.

Definition sum_pieces (pieces : list AssetAmount) : option Z := sum_pieces_from 0 pieces.

Definition has_zero_piece (pieces : list AssetAmount) : bool :=
  existsb (fun piece => piece =? 0) pieces.

Definition check_action_shape (action : FaultAction) : result SimError unit :=
  match action with
  | Duplicate copies _ =>
      fail_if copies =? 0 with InvalidConfiguration NoDuplicateCopies; Ok tt
  | CorruptByte _ mask =>
      fail_if mask =? 0 with InvalidConfiguration NoByteChange; Ok tt
  | Partial amount | OverDeliver amount =>
      fail_if amount =? 0 with ZeroAssetAmount; Ok tt
  | Split pieces _ =>
      fail_if bool_decide (pieces = []) || has_zero_piece pieces with InvalidPartialSplit;
      let? _ := ok_or (sum_pieces pieces) ArithmeticOverflow in
      Ok tt
  | _ => Ok tt
  end.

Definition target_lane (sim : Simulator) (fault : Fault) : result SimError Lane :=
  match fault.(f_target) with
  | TargetEvent id => ok_or (event_lane <$> sim.(sim_events) !! id) (UnknownEvent id)
  | other => ok_or (lane_hint other) (UnknownFaultTarget fault.(f_id))
  end.

Definition check_target_endpoints (sim : Simulator) (fault : Fault) : result SimError unit :=
  let? _ :=
    match fault.(f_target) with
    | TargetRoute source destination _ =>
        let? _ := require_endpoint sim source in require_endpoint sim destination
    | _ => Ok tt
    end in
  match fault.(f_action) with
  | ReplaceDestination to => require_endpoint sim to
  | _ => Ok tt
  end.

(** [event.asset().map_or(0, |asset| asset.requested.get())]. *)
Definition requested_of (event : Event) : Z :=
  match event_asset event with Some asset => asset.(ae_requested) | None => 0 end.

Definition check_against_named_event (sim : Simulator) (id : EventId) (action : FaultAction)
    : result SimError unit :=
  let? event := ok_or (sim.(sim_events) !! id) (UnknownEvent id) in
  fail_if is_terminal (event_status event) with EventAlreadyTerminal id;
  fail_if bool_decide (id ∈ sim.(sim_resolved)) with FaultsAlreadyBound id;
  match action with
  | CorruptByte offset _ =>
      let width :=
        match event_control event with
        | Some control => Z.of_nat (length control.(ce_bytes))
        | None => 0
        end in
      fail_if width <=? offset with InvalidConfiguration ProblemCorruptOffsetOutOfRange;
      Ok tt
  | Partial amount =>
      fail_if requested_of event <? amount
        with PartialSumExceedsRequest (requested_of event) amount;
      Ok tt
  | Split pieces _ =>
      let? offered := ok_or (sum_pieces pieces) ArithmeticOverflow in
      fail_if requested_of event <? offered
        with PartialSumExceedsRequest (requested_of event) offered;
      Ok tt
  | _ => Ok tt
  end.

Definition same_group_on_same_target (sim : Simulator) (fault : Fault) : option FaultId :=
  f_id <$> head (filter (fun existing =>
    existing.(f_target) = fault.(f_target) /\
    action_group existing.(f_action) = action_group fault.(f_action)) (plan_iter sim.(sim_plan))).

(** The checks of [add_fault], in order. *)
Definition check_fault (sim : Simulator) (fault : Fault) : result SimError unit :=
  fail_if bool_decide (is_Some (sim.(sim_plan) !! fault.(f_id))) with DuplicateFaultId fault.(f_id);
  let? lane := target_lane sim fault in
  fail_if match required_lane fault.(f_action) with
          | Some required => negb (bool_decide (required = lane))
          | None => false
          end with InvalidConfiguration ActionLaneMismatch;
  let? _ := check_target_endpoints sim fault in
  let? _ := check_action_shape fault.(f_action) in
  let? _ :=
    match fault.(f_target) with
    | TargetEvent id => check_against_named_event sim id fault.(f_action)
    | _ => Ok tt
    end in
  match same_group_on_same_target sim fault with
  | Some first => Err (ConflictingFaults first fault.(f_id))
  | None => Ok tt
  end.

Definition add_fault (fault : Fault) (sim : Simulator) : result SimError unit * Simulator :=
  check _ := check_fault sim fault on sim;
  (Ok tt, sim <| sim_plan ::= plan_insert fault |>).

(** * Fault composition *)

Definition pending_faults (sim : Simulator) (event : Event) : list Fault :=
  filter (fun fault => negb (made_by_fault event && creates_events fault.(f_action)))
    (plan_matching sim.(sim_plan) event).

(** [c.then_some(r)]. *)
Definition then_some {A} (c : bool) (a : A) : option A := if c then Some a else None.

Definition check_action (sim : Simulator) (action : FaultAction) (event : Event)
    : option RejectReason :=
  match action with
  | ReplaceDestination to =>
      then_some (bool_decide (sim.(sim_endpoints) !! to = None)) RejectUnknownEndpoint
  | Duplicate copies _ => then_some (copies =? 0) DuplicateCopiesIsZero
  | CorruptByte offset mask =>
      match event_control event with
      | None => None
      | Some control =>
          if mask =? 0 then Some CorruptMaskIsZero
          else if bool_decide (is_Some control.(ce_mutation)) then Some AlreadyCorrupted
          else then_some (Z.of_nat (length control.(ce_bytes)) <=? offset) CorruptOffsetOutOfRange
      end
  | Partial amount =>
      match event_asset event with
      | None => None
      | Some asset =>
          if amount =? 0 then Some AmountIsZero
          else then_some (asset.(ae_requested) <? amount) AmountExceedsRequest
      end
  | OverDeliver amount =>
      match event_asset event with
      | None => None
      | Some asset => then_some (amount <=? asset.(ae_requested)) OverDeliveryNotAboveRequest
      end
  | Split pieces _ =>
      match event_asset event with
      | None => None
      | Some asset =>
          if bool_decide (pieces = []) then Some SplitHasNoPieces
          else if has_zero_piece pieces then Some SplitPieceIsZero
          else match sum_pieces pieces with
               | None => Some SplitExceedsRequest
               | Some total => then_some (asset.(ae_requested) <? total) SplitExceedsRequest
               end
      end
  | Delay _ | Drop => None
  end.

(** The loop of [check_batch] with the groups seen so far. *)
Fixpoint check_batch_from (sim : Simulator) (event : Event) (groups : list ExclusionGroup)
    (batch : list Fault) : option (FaultId * RejectReason) :=
  match batch with
  | [] => None
  | fault :: rest =>
      let group := action_group fault.(f_action) in
      if bool_decide (group ∈ groups) then Some (fault.(f_id), ConflictingGroup)
      else match check_action sim fault.(f_action) event with
           | Some reason => Some (fault.(f_id), reason)
           | None => check_batch_from sim event (groups ++ [group]) rest
           end
  end.

Definition check_batch (sim : Simulator) (batch : list Fault) (event : Event)
    : option (FaultId * RejectReason) := check_batch_from sim event [] batch.

Definition record_effect (fault : FaultId) (event : EventId) (effect : FaultEffect)
    (sim : Simulator) : Simulator := log (TrFaultApplied fault event effect) sim.

Definition set_delivered (amount : AssetAmount) (over : bool) (event : Event) : Event :=
  match event with
  | EvAsset asset => EvAsset (asset <| ae_delivered := amount |> <| ae_over_delivered := over |>)
  | EvControl _ => event
  end.

(** Makes an exact copy of one event under a new identifier. *)
Definition clone_for_duplicate (event : Event) (id : EventId) (deliver_at : Tick) : Event :=
  match event with
  | EvControl control =>
      EvControl (mkControlEvent id control.(ce_source) control.(ce_destination)
        control.(ce_intended_destination) control.(ce_bytes) control.(ce_message_id) deliver_at 0
        (Some control.(ce_id)) control.(ce_mutation) control.(ce_expires_at) true Scheduled)
  | EvAsset asset =>
      EvAsset (asset <| ae_id := id |> <| ae_deliver_at := deliver_at |> <| ae_attempts := 0 |>
        <| ae_duplicate_of := Some asset.(ae_id) |> <| ae_from_fault := true |>
        <| ae_status := Scheduled |>)
  end.

(** The tick of the made event at position [index]. *)
Definition spaced_tick (sim : Simulator) (spacing index : Z) : Tick :=
  default u64_max (tick_checked_add sim.(sim_now) (Z.min u64_max (spacing * index))).

(** The loop of [split] over the pieces after the first. *)
Fixpoint split_loop (origin : AssetEvent) (spacing : Z) (position : Z)
    (pieces : list AssetAmount) (sim : Simulator) : Simulator :=
  match pieces with
  | [] => sim
  | amount :: rest =>
      match take_generated_id sim with
      | None => sim
      | Some (id, sim) =>
          let index := Z.min u16_max position in
          let deliver_at := spaced_tick sim spacing index in
          let piece := origin <| ae_id := id |> <| ae_deliver_at := deliver_at |>
            <| ae_attempts := 0 |> <| ae_delivered := amount |> <| ae_piece := Some index |>
            <| ae_from_fault := true |> <| ae_status := Scheduled |> in
          let sim := enqueue (queue_key_new deliver_at LaneAsset id)
            (store id (EvAsset piece) sim) in
          let sim := log (TrPartialDeliveryCreated origin.(ae_id) id origin.(ae_transfer)
            amount index) sim in
          split_loop origin spacing (position + 1) rest sim
      end
  end.

Definition split (fault : FaultId) (event : Event) (pieces : list AssetAmount) (spacing : Z)
    (sim : Simulator) : Event * Simulator :=
  match event, pieces with
  | EvAsset asset, first :: rest =>
      let asset := asset <| ae_delivered := first |> <| ae_piece := Some 0 |> in
      let count := Z.min u16_max (Z.of_nat (length pieces)) in
      let sim := record_effect fault asset.(ae_id) (EffSplitInto count) sim in
      (EvAsset asset, split_loop asset spacing 1 rest sim)
  | _, _ => (event, sim)
  end.

(** The loop of [duplicate] over the copies. *)
Fixpoint duplicate_loop (event : Event) (spacing : Z) (indices : list Z) (sim : Simulator)
    : Simulator :=
  match indices with
  | [] => sim
  | index :: rest =>
      match take_generated_id sim with
      | None => sim
      | Some (id, sim) =>
          let deliver_at := spaced_tick sim spacing index in
          let copy := clone_for_duplicate event id deliver_at in
          let sim := enqueue (queue_key_new deliver_at (event_lane copy) id) (store id copy sim) in
          let sim := log (TrDuplicateCreated (event_id event) id deliver_at) sim in
          duplicate_loop event spacing rest sim
      end
  end.

Definition duplicate (fault : FaultId) (event : Event) (copies spacing : Z) (sim : Simulator)
    : Simulator :=
  duplicate_loop event spacing (seqZ 1 copies)
    (record_effect fault (event_id event) (EffDuplicated copies) sim).

Section hashed.
Context (digest : list Z -> list Z).

(** [inspect.rs]: the identity of any byte string on the control lane. *)
Definition message_identity (bytes : list Z) : MessageId :=
  keccak256 digest (MESSAGE_ID_DOMAIN ++ bytes).

(** [inspect.rs]: [decode] and [expiration]. *)
Definition inspect_decode (bytes : list Z) : result SimError Message :=
  match decode_message digest bytes with Ok m => Ok m | Err e => Err (SimDecode e) end.

Definition inspect_expiration (bytes : list Z) : result SimError Z :=
  let? message := inspect_decode bytes in Ok message.(m_header).(h_expires_at).

Definition schedule_control (request : ControlRequest) (sim : Simulator)
    : result SimError EventId * Simulator :=
  check _ := check_route sim request.(cr_source) request.(cr_destination) on sim;
  if bool_decide (request.(cr_bytes) = []) then (Err (InvalidConfiguration EmptyMessage), sim)
  else
    check _ := check_delivery_tick sim request.(cr_deliver_at) on sim;
    run id, sim := reserve_event_id request.(cr_id) sim;
    let message_id := message_identity request.(cr_bytes) in
    let event := EvControl (mkControlEvent id request.(cr_source) request.(cr_destination)
      request.(cr_destination) request.(cr_bytes) message_id request.(cr_deliver_at) 0 None None
      request.(cr_expires_at) false Scheduled) in
    (Ok id, insert_scheduled event (SubjectMessage message_id) sim).

Definition schedule_asset (request : AssetRequest) (sim : Simulator)
    : result SimError EventId * Simulator :=
  check _ := check_route sim request.(ar_source) request.(ar_destination) on sim;
  if request.(ar_amount) =? 0 then (Err ZeroAssetAmount, sim)
  else
    check _ := check_delivery_tick sim request.(ar_deliver_at) on sim;
    run id, sim := reserve_event_id request.(ar_id) sim;
    let event := EvAsset (mkAssetEvent id request.(ar_transfer) request.(ar_source)
      request.(ar_destination) request.(ar_destination) request.(ar_amount) request.(ar_amount)
      request.(ar_deliver_at) 0 None None false request.(ar_timeout_at) false Scheduled) in
    (Ok id, insert_scheduled event (SubjectTransfer request.(ar_transfer)) sim).

Definition corrupt (fault : FaultId) (event : Event) (offset mask : Z) (sim : Simulator)
    : Event * Simulator :=
  match event with
  | EvAsset _ => (event, sim)
  | EvControl control =>
      match control.(ce_bytes) !! Z.to_nat offset with
      | None => (event, sim)
      | Some from =>
          let to := Z.lxor from mask in
          let bytes := <[Z.to_nat offset := to]> control.(ce_bytes) in
          let original_message_id :=
            match control.(ce_mutation) with
            | Some previous => previous.(bm_original_message_id)
            | None => control.(ce_message_id)
            end in
          let control := control <| ce_bytes := bytes |>
            <| ce_message_id := message_identity bytes |>
            <| ce_mutation := Some (mkByteMutation offset from to original_message_id) |> in
          (EvControl control,
           record_effect fault control.(ce_id) (EffCorrupted offset from to) sim)
      end
  end.

(** What the fault passes carry along: the event being bent, the network,
    and the delay and the drop decided so far. *)
Record Passing := mkPassing {
  ps_event : Event;
  ps_sim : Simulator;
  ps_delayed : option Tick;
  ps_dropped : option FaultId
}.

(** One turn of the loop of [compose]. *)
Definition apply_fault (p : Passing) (fault : Fault) : Passing :=
  let '(mkPassing event sim delayed dropped) := p in
  match fault.(f_action) with
  | ReplaceDestination to =>
      let event := set_destination to event in
      mkPassing event (record_effect fault.(f_id) (event_id event) (EffRerouted to) sim)
        delayed dropped
  | CorruptByte offset mask =>
      let '(event, sim) := corrupt fault.(f_id) event offset mask sim in
      mkPassing event sim delayed dropped
  | Partial amount =>
      let event := set_delivered amount false event in
      mkPassing event (record_effect fault.(f_id) (event_id event) (EffAmountSet amount) sim)
        delayed dropped
  | OverDeliver amount =>
      let event := set_delivered amount true event in
      mkPassing event (record_effect fault.(f_id) (event_id event) (EffAmountSet amount) sim)
        delayed dropped
  | Split pieces spacing =>
      let '(event, sim) := split fault.(f_id) event pieces spacing sim in
      mkPassing event sim delayed dropped
  | Duplicate copies spacing =>
      mkPassing event (duplicate fault.(f_id) event copies spacing sim) delayed dropped
  | Delay ticks =>
      let to := default u64_max (tick_checked_add sim.(sim_now) ticks) in
      mkPassing event (record_effect fault.(f_id) (event_id event) (EffDelayed to) sim)
        (Some to) dropped
  | Drop =>
      mkPassing event (record_effect fault.(f_id) (event_id event) EffDropped sim)
        delayed (Some fault.(f_id))
  end.

Definition compose (event : Event) (sim : Simulator) : Outcome * Event * Simulator :=
  if bool_decide (event_id event ∈ sim.(sim_resolved)) then (Proceed, event, sim)
  else
    let sim := sim <| sim_resolved ::= union {[ event_id event ]} |> in
    let batch := pending_faults sim event in
    if bool_decide (batch = []) then (Proceed, event, sim)
    else match check_batch sim batch event with
    | Some (fault, reason) =>
        (OutRejected reason, event, log (TrFaultRejected fault (event_id event) reason) sim)
    | None =>
        let p := foldl apply_fault (mkPassing event sim None None) batch in
        match p.(ps_dropped), p.(ps_delayed) with
        | Some fault, _ => (OutDropped fault, p.(ps_event), p.(ps_sim))
        | None, Some tick => (OutDelayed tick, p.(ps_event), p.(ps_sim))
        | None, None => (Proceed, p.(ps_event), p.(ps_sim))
        end
    end.

(** * Delivery *)

Definition block (event : Event) (reason : BlockReason) (sim : Simulator) : Simulator :=
  let id := event_id event in
  let destination := event_destination event in
  let sim := store id (set_status Blocked event) sim in
  let sim := sim <| sim_held ::= union {[ id ]} |> in
  log (TrDeliveryBlocked id destination reason) sim.

Definition delivered_control (c : ControlEvent) (now : Tick) (late : bool) : DeliveredControl :=
  mkDeliveredControl c.(ce_id) c.(ce_source) c.(ce_intended_destination) c.(ce_bytes)
    c.(ce_message_id) now c.(ce_duplicate_of) c.(ce_mutation) late.

Definition delivered_asset (a : AssetEvent) (now : Tick) (late : bool) : DeliveredAsset :=
  mkDeliveredAsset a.(ae_id) a.(ae_transfer) a.(ae_source) a.(ae_intended_destination)
    a.(ae_requested) a.(ae_delivered) now a.(ae_duplicate_of) a.(ae_piece)
    a.(ae_over_delivered) late.

(** The delivery record pushed into the inbox of an endpoint. *)
Definition push_delivery (event : Event) (now : Tick) (late : bool) (p : Endpoint) : Endpoint :=
  match event with
  | EvControl control => push_control (delivered_control control now late) p
  | EvAsset asset => push_asset (delivered_asset asset now late) p
  end.

Definition event_subject (event : Event) : Subject :=
  match event with
  | EvControl control => SubjectMessage control.(ce_message_id)
  | EvAsset asset => SubjectTransfer asset.(ae_transfer)
  end.

(** [endpoints.get_mut] of a missing endpoint does nothing, as [alter] does. *)
Definition hand_over (event : Event) (late : bool) (sim : Simulator) : Simulator :=
  let id := event_id event in
  let destination := event_destination event in
  let event := set_status Delivered event in
  let sim := sim <| sim_endpoints ::= alter (push_delivery event sim.(sim_now) late) destination |> in
  let sim := store id event sim in
  log (TrEventDelivered id destination (event_subject event) late) sim.

(** What is left of an attempt once the faults let it proceed. *)
Definition finish_attempt (id : EventId) (event : Event) (sim : Simulator) : Simulator :=
  let lane := event_lane event in
  if is_paused (lane_state sim lane) then block event ReasonLanePaused sim
  else match sim.(sim_endpoints) !! event_destination event with
  | None =>
      log (TrEventRejected id RejectUnknownEndpoint)
        (store id (set_status RejectedBySimulator event) sim)
  | Some endpoint =>
      if is_halted endpoint then block event ReasonEndpointHalted sim
      else
        match event_deadline event with
        | Some deadline =>
            if deadline <? sim.(sim_now) then
              match config_policy sim.(sim_config) lane with
              | Expire =>
                  log (TrEventExpired id deadline) (store id (set_status Expired event) sim)
              | DeliverWithMarker => hand_over event true sim
              end
            else hand_over event false sim
        | None => hand_over event false sim
        end
  end.

Definition attempt (id : EventId) (sim : Simulator) : Simulator :=
  match sim.(sim_events) !! id with
  | None => sim
  | Some event =>
      if is_terminal (event_status event) then sim
      else
        let event := set_status Ready (bump_attempts event) in
        let sim := log (TrDeliveryAttempted id (event_destination event) (event_attempts event))
          sim in
        let '(outcome, event, sim) := compose event sim in
        match outcome with
        | OutRejected reason =>
            log (TrEventRejected id reason) (store id (set_status RejectedBySimulator event) sim)
        | OutDropped fault =>
            log (TrEventDropped id (Some fault)) (store id (set_status Dropped event) sim)
        | OutDelayed to =>
            enqueue (queue_key_new to (event_lane event) id)
              (store id (set_deliver_at to (set_status Scheduled event)) sim)
        | Proceed => finish_attempt id event sim
        end
  end.

Definition deliver_next (sim : Simulator) : option EventId * Simulator :=
  match queue_peek sim.(sim_queue) with
  | None => (None, sim)
  | Some key =>
      if sim.(sim_now) <? key.(qk_deliver_at) then (None, sim)
      else (Some key.(qk_event), attempt key.(qk_event) (sim <| sim_queue ::= queue_pop |>))
  end.

(** ** Step budgets of the delivery loops *)

(** How many events one fault can add to the queue. *)
Definition action_fanout (action : FaultAction) : Z :=
  match action with
  | Duplicate copies _ => Z.of_nat (length (seqZ 1 copies))
  | Split pieces _ => Z.of_nat (length pieces)
  | _ => 0
  end.

Definition plan_fanout (plan : gmap Z Fault) : Z :=
  lsum (fun fault => action_fanout fault.(f_action)) (plan_iter plan).

(** The attempts one queued event can still lead to: one, one more while a
    fault may delay it, and two for each event a fault may make from it. *)
Definition attempts_left (sim : Simulator) (id : EventId) : Z :=
  match sim.(sim_events) !! id with
  | Some event =>
      if bool_decide (id ∈ sim.(sim_resolved)) then 1
      else if made_by_fault event then 2
      else 2 + 2 * plan_fanout sim.(sim_plan)
  | None => 1
  end.

Definition work (sim : Simulator) : Z :=
  lsum (fun key => attempts_left sim key.(qk_event)) (elements sim.(sim_queue)).

Fixpoint deliver_ready_loop (fuel : nat) (count : Z) (sim : Simulator)
    : option (Z * Simulator) :=
  match fuel with
  | O => None
  | S fuel =>
      match deliver_next sim with
      | (Some _, sim) => deliver_ready_loop fuel (saturating_add u32_max count 1) sim
      | (None, sim) => Some (count, sim)
      end
  end.

Definition deliver_ready (sim : Simulator) : option (Z * Simulator) :=
  deliver_ready_loop (S (Z.to_nat (work sim))) 0 sim.

Fixpoint run_until_idle_loop (fuel : nat) (count : Z) (sim : Simulator)
    : option (Z * Simulator) :=
  match fuel with
  | O => None
  | S fuel =>
      match next_tick sim.(sim_queue) with
      | None => Some (count, sim)
      | Some tick =>
          match advance_to (Z.max tick sim.(sim_now)) sim with
          | (Err _, sim) => Some (count, sim)
          | (Ok _, sim) =>
              match deliver_ready sim with
              | None => None
              | Some (n, sim) => run_until_idle_loop fuel (saturating_add u32_max count n) sim
              end
          end
      end
  end.

Definition run_until_idle (sim : Simulator) : option (Z * Simulator) :=
  run_until_idle_loop (S (Z.to_nat (work sim))) 0 sim.

Fixpoint run_until_loop (fuel : nat) (target : Tick) (count : Z) (sim : Simulator)
    : option (result SimError Z * Simulator) :=
  match fuel with
  | O => None
  | S fuel =>
      let stop :=
        run _, sim := advance_to target sim;
        (Ok count, sim) in
      match next_tick sim.(sim_queue) with
      | None => Some stop
      | Some tick =>
          if target <? tick then Some stop
          else match advance_to (Z.max tick sim.(sim_now)) sim with
          | (Err e, sim) => Some (Err e, sim)
          | (Ok _, sim) =>
              match deliver_ready sim with
              | None => None
              | Some (n, sim) => run_until_loop fuel target (saturating_add u32_max count n) sim
              end
          end
      end
  end.

Definition run_until (target : Tick) (sim : Simulator)
    : option (result SimError Z * Simulator) :=
  if target <? sim.(sim_now) then Some (Err (TimeMovesBackwards sim.(sim_now) target), sim)
  else run_until_loop (S (Z.to_nat (work sim))) target 0 sim.

(** * Halts, pauses and reordering *)

Definition path_is_clear (sim : Simulator) (id : EventId) : bool :=
  match sim.(sim_events) !! id with
  | None => false
  | Some event =>
      if is_paused (lane_state sim (event_lane event)) then false
      else match sim.(sim_endpoints) !! event_destination event with
           | Some endpoint => negb (is_halted endpoint)
           | None => false
           end
  end.

(** One turn of the loop of [release_held]. *)
Definition release_one (acc : Z * Simulator) (id : EventId) : Z * Simulator :=
  let '(released, sim) := acc in
  let sim := sim <| sim_held ::= (fun held => held ∖ {[ id ]}) |> in
  match sim.(sim_events) !! id with
  | None => (released, sim)
  | Some event =>
      let tick := Z.max sim.(sim_now) (event_deliver_at event) in
      let event := set_deliver_at tick (set_status Scheduled event) in
      (saturating_add u32_max released 1,
       enqueue (queue_key_new tick (event_lane event) id) (store id event sim))
  end.

Definition release_held (sim : Simulator) : Z * Simulator :=
  let ready := filter (fun id => path_is_clear sim id) (btree_set_iter Z.le sim.(sim_held)) in
  foldl release_one (0, sim) ready.

Definition halt_endpoint (id : EndpointId) (sim : Simulator) : result SimError unit * Simulator :=
  match sim.(sim_endpoints) !! id with
  | None => (Err (UnknownEndpoint id), sim)
  | Some endpoint =>
      let sim := sim <| sim_endpoints ::= <[id := set_state Halted endpoint]> |> in
      (Ok tt, log (TrEndpointHalted id) sim)
  end.

Definition resume_endpoint (id : EndpointId) (sim : Simulator) : result SimError unit * Simulator :=
  match sim.(sim_endpoints) !! id with
  | None => (Err (UnknownEndpoint id), sim)
  | Some endpoint =>
      let sim := sim <| sim_endpoints ::= <[id := set_state Active endpoint]> |> in
      let '(released, sim) := release_held sim in
      (Ok tt, log (TrEndpointResumed id released) sim)
  end.

Definition pause_lane (lane : Lane) (sim : Simulator) : Simulator :=
  log (TrLanePaused lane) (sim <| sim_lanes ::= <[lane := Paused]> |>).

Definition resume_lane (lane : Lane) (sim : Simulator) : Simulator :=
  let sim := sim <| sim_lanes ::= <[lane := Running]> |> in
  let '(released, sim) := release_held sim in
  log (TrLaneResumed lane released) sim.

Definition pending_key (sim : Simulator) (event : EventId) : result SimError QueueKey :=
  match sim.(sim_events) !! event with
  | None => Err (UnknownEvent event)
  | Some _ => ok_or (queue_find event sim.(sim_queue)) (EventAlreadyTerminal event)
  end.

Definition move_to (key : QueueKey) (target : Tick) (sim : Simulator) : Simulator :=
  if key.(qk_deliver_at) =? target then sim
  else
    let sim := sim <| sim_queue ::= (fun queue => queue ∖ {[ key ]}) |> in
    match sim.(sim_events) !! key.(qk_event) with
    | None => sim
    | Some event =>
        let event := set_deliver_at target event in
        let sim := store key.(qk_event) event sim in
        let sim := enqueue (queue_key_new target (event_lane event) key.(qk_event)) sim in
        log (TrEventReordered key.(qk_event) key.(qk_deliver_at) target) sim
    end.

Definition swap_delivery_ticks (left right : EventId) (sim : Simulator)
    : result SimError unit * Simulator :=
  check left_key := pending_key sim left on sim;
  check right_key := pending_key sim right on sim;
  let sim := move_to left_key right_key.(qk_deliver_at) sim in
  (Ok tt, move_to right_key left_key.(qk_deliver_at) sim).

Definition move_before (event other : EventId) (sim : Simulator)
    : result SimError unit * Simulator :=
  check key := pending_key sim event on sim;
  check anchor := pending_key sim other on sim;
  let target := Z.max (saturating_sub anchor.(qk_deliver_at) 1) sim.(sim_now) in
  (Ok tt, move_to key target sim).

Definition move_after (event other : EventId) (sim : Simulator)
    : result SimError unit * Simulator :=
  check key := pending_key sim event on sim;
  check anchor := pending_key sim other on sim;
  check target := ok_or (tick_checked_add anchor.(qk_deliver_at) 1) ArithmeticOverflow on sim;
  (Ok tt, move_to key target sim).

(** * Operations *)

Inductive Operation : Set :=
| ScheduleControl (request : ControlRequest)
| ScheduleAsset (request : AssetRequest)
| AddFault (fault : Fault)
| AdvanceBy (ticks : Z)
| AdvanceTo (tick : Tick)
| DeliverNext
| DeliverReady
| RunUntilIdle
| RunUntil (tick : Tick)
| HaltEndpoint (id : EndpointId)
| ResumeEndpoint (id : EndpointId)
| PauseLane (lane : Lane)
| ResumeLane (lane : Lane)
| SwapDeliveryTicks (left right : EventId)
| MoveBefore (event other : EventId)
| MoveAfter (event other : EventId).

(** [result.map(|_| ())] of a step that leaves a state behind. *)
Definition forget {A} (out : result SimError A * Simulator) : result SimError unit * Simulator :=
  (result_map (fun _ => tt) out.1, out.2).

Definition apply (operation : Operation) (sim : Simulator)
    : option (result SimError unit * Simulator) :=
  match operation with
  | ScheduleControl request => Some (forget (schedule_control request sim))
  | ScheduleAsset request => Some (forget (schedule_asset request sim))
  | AddFault fault => Some (add_fault fault sim)
  | AdvanceBy ticks => Some (advance_by ticks sim)
  | AdvanceTo tick => Some (advance_to tick sim)
  | DeliverNext => Some (Ok tt, (deliver_next sim).2)
  | DeliverReady => (fun out => (Ok tt, out.2)) <$> deliver_ready sim
  | RunUntilIdle => (fun out => (Ok tt, out.2)) <$> run_until_idle sim
  | RunUntil tick => forget <$> run_until tick sim
  | HaltEndpoint id => Some (halt_endpoint id sim)
  | ResumeEndpoint id => Some (resume_endpoint id sim)
  | PauseLane lane => Some (Ok tt, pause_lane lane sim)
  | ResumeLane lane => Some (Ok tt, resume_lane lane sim)
  | SwapDeliveryTicks first second => Some (swap_delivery_ticks first second sim)
  | MoveBefore event other => Some (move_before event other sim)
  | MoveAfter event other => Some (move_after event other sim)
  end.

Fixpoint apply_all (operations : list Operation) (sim : Simulator)
    : option (result SimError unit * Simulator) :=
  match operations with
  | [] => Some (Ok tt, sim)
  | operation :: rest =>
      match apply operation sim with
      | None => None
      | Some (Err e, sim) => Some (Err e, sim)
      | Some (Ok _, sim) => apply_all rest sim
      end
  end.

Fixpoint apply_best_effort (operations : list Operation) (sim : Simulator)
    : option (list (result SimError unit) * Simulator) :=
  match operations with
  | [] => Some ([], sim)
  | operation :: rest =>
      match apply operation sim with
      | None => None
      | Some (r, sim) =>
          (fun out => (r :: out.1, out.2)) <$> apply_best_effort rest sim
      end
  end.
End hashed.

(** * Views over delivered content *)

Definition control_inbox (sim : Simulator) (endpoint : EndpointId) : list DeliveredControl :=
  default [] (ep_control_inbox <$> sim.(sim_endpoints) !! endpoint).

Definition asset_inbox (sim : Simulator) (endpoint : EndpointId) : list DeliveredAsset :=
  default [] (ep_asset_inbox <$> sim.(sim_endpoints) !! endpoint).

(** [self.endpoints.values()]: the endpoints by identifier. *)
Definition endpoints_iter (sim : Simulator) : list Endpoint :=
  (btree_iter Z.le sim.(sim_endpoints)).*2.

Definition delivered_for_transfer (sim : Simulator) (transfer : TransferId) : Z :=
  foldl (fun total entry => saturating_add u128_max total entry.(da_delivered)) 0
    (filter (fun entry => entry.(da_transfer) = transfer)
      (endpoints_iter sim ≫= ep_asset_inbox)).

Definition deliveries_of_message (sim : Simulator) (message : MessageId) : list DeliveredControl :=
  filter (fun entry => entry.(dc_message_id) = message)
    (endpoints_iter sim ≫= ep_control_inbox).
