(* ===== verification/SimSteps.v ===== *)
(** The engine as a small-step machine.  An attempt takes an event out of
    the queue, bends it while it is nowhere but in a local variable, and
    puts it back; [Hand] is that local variable with what the fault passes
    have done so far.  Every method of the engine is a sequence of the steps
    of [mstep] ([SimRuns]), so an invariant is proved once per step. *)

From Stdlib Require Import ZArith Lia.
From S2P Require Import Prelude ProtocolTypes ProtocolCodec SimState SimEngine.

(** * Events under their setters *)

(** What no step ever changes in an event. *)
Definition event_core (e : Event) : Z * Lane * (Z * Z) * option Z * bool * option Z * option (list Z * Z) :=
  (event_id e, event_lane e, (event_source e, event_intended_destination e),
   event_duplicate_of e, made_by_fault e, event_deadline e,
   (fun a => (ae_transfer a, ae_requested a)) <$> event_asset e).

Lemma core_id e e' : event_core e = event_core e' -> event_id e = event_id e'.
Proof. by unfold event_core; intros [= -> _ _ _ _ _]. Qed.

Lemma core_lane e e' : event_core e = event_core e' -> event_lane e = event_lane e'.
Proof. unfold event_core. by intros [= ?]. Qed.

Lemma core_made e e' : event_core e = event_core e' -> made_by_fault e = made_by_fault e'.
Proof. unfold event_core. by intros [= ?]. Qed.

Lemma core_deadline e e' : event_core e = event_core e' -> event_deadline e = event_deadline e'.
Proof. unfold event_core. by intros [= ?]. Qed.

Section setters.
Implicit Types e : Event.

Lemma core_set_status s e : event_core (set_status s e) = event_core e.
Proof. by destruct e. Qed.
Lemma core_set_deliver_at t e : event_core (set_deliver_at t e) = event_core e.
Proof. by destruct e. Qed.
Lemma core_set_destination d e : event_core (set_destination d e) = event_core e.
Proof. by destruct e. Qed.
Lemma core_bump_attempts e : event_core (bump_attempts e) = event_core e.
Proof. by destruct e. Qed.
Lemma core_set_delivered a o e : event_core (set_delivered a o e) = event_core e.
Proof. by destruct e. Qed.

Lemma status_set_status s e : event_status (set_status s e) = s.
Proof. by destruct e. Qed.
Lemma status_set_deliver_at t e : event_status (set_deliver_at t e) = event_status e.
Proof. by destruct e. Qed.
Lemma id_set_status s e : event_id (set_status s e) = event_id e.
Proof. by destruct e. Qed.
Lemma id_set_deliver_at t e : event_id (set_deliver_at t e) = event_id e.
Proof. by destruct e. Qed.
Lemma id_set_destination d e : event_id (set_destination d e) = event_id e.
Proof. by destruct e. Qed.
Lemma id_bump_attempts e : event_id (bump_attempts e) = event_id e.
Proof. by destruct e. Qed.
Lemma id_set_delivered a o e : event_id (set_delivered a o e) = event_id e.
Proof. by destruct e. Qed.
Lemma lane_set_status s e : event_lane (set_status s e) = event_lane e.
Proof. by destruct e. Qed.
Lemma lane_set_deliver_at t e : event_lane (set_deliver_at t e) = event_lane e.
Proof. by destruct e. Qed.
Lemma lane_bump_attempts e : event_lane (bump_attempts e) = event_lane e.
Proof. by destruct e. Qed.
Lemma made_set_status s e : made_by_fault (set_status s e) = made_by_fault e.
Proof. by destruct e. Qed.
Lemma made_set_deliver_at t e : made_by_fault (set_deliver_at t e) = made_by_fault e.
Proof. by destruct e. Qed.
Lemma made_bump_attempts e : made_by_fault (bump_attempts e) = made_by_fault e.
Proof. by destruct e. Qed.
Lemma destination_set_status s e : event_destination (set_status s e) = event_destination e.
Proof. by destruct e. Qed.
Lemma destination_set_deliver_at t e : event_destination (set_deliver_at t e) = event_destination e.
Proof. by destruct e. Qed.
Lemma destination_set_destination d e : event_destination (set_destination d e) = d.
Proof. by destruct e. Qed.
Lemma destination_bump_attempts e : event_destination (bump_attempts e) = event_destination e.
Proof. by destruct e. Qed.
Lemma destination_set_delivered a o e :
  event_destination (set_delivered a o e) = event_destination e.
Proof. by destruct e. Qed.
Lemma attempts_set_status s e : event_attempts (set_status s e) = event_attempts e.
Proof. by destruct e. Qed.
Lemma attempts_set_deliver_at t e : event_attempts (set_deliver_at t e) = event_attempts e.
Proof. by destruct e. Qed.
Lemma attempts_set_destination d e : event_attempts (set_destination d e) = event_attempts e.
Proof. by destruct e. Qed.
Lemma attempts_set_delivered a o e : event_attempts (set_delivered a o e) = event_attempts e.
Proof. by destruct e. Qed.
Lemma attempts_bump_attempts e :
  event_attempts (bump_attempts e) = saturating_add u32_max (event_attempts e) 1.
Proof. by destruct e. Qed.
Lemma deliver_at_set_deliver_at t e : event_deliver_at (set_deliver_at t e) = t.
Proof. by destruct e. Qed.
Lemma deliver_at_set_status s e : event_deliver_at (set_status s e) = event_deliver_at e.
Proof. by destruct e. Qed.
Lemma subject_set_status s e : event_subject (set_status s e) = event_subject e.
Proof. by destruct e. Qed.
End setters.

Create Rewrite HintDb event.

#[export] Hint Rewrite core_set_status core_set_deliver_at core_set_destination core_bump_attempts
  core_set_delivered status_set_status status_set_deliver_at id_set_status id_set_deliver_at
  id_set_destination id_bump_attempts id_set_delivered lane_set_status lane_set_deliver_at
  lane_bump_attempts made_set_status made_set_deliver_at made_bump_attempts
  destination_set_status destination_set_deliver_at destination_set_destination
  destination_bump_attempts destination_set_delivered attempts_set_status
  attempts_set_deliver_at attempts_set_destination attempts_set_delivered attempts_bump_attempts
  deliver_at_set_deliver_at deliver_at_set_status subject_set_status : event.

(** The setters keep the widths. *)
Ltac solve_typed :=
  unfold event_typed, control_event_typed, asset_event_typed in *; simpl in *;
  repeat match goal with H : _ /\ _ |- _ => destruct H end;
  repeat (assumption || match goal with |- _ /\ _ => split | |- True => exact I end).

Lemma typed_set_status s e : event_typed e -> event_typed (set_status s e).
Proof. by destruct e. Qed.

Lemma typed_set_deliver_at t e : is_u64 t -> event_typed e -> event_typed (set_deliver_at t e).
Proof. intros. destruct e; solve_typed. Qed.

Lemma typed_set_destination d e : is_u32 d -> event_typed e -> event_typed (set_destination d e).
Proof. intros. destruct e; solve_typed. Qed.

Lemma typed_bump_attempts e : event_typed e -> event_typed (bump_attempts e).
Proof.
  intros. destruct e; solve_typed; unfold fits, saturating_add in *;
    match goal with H : 0 <= ?x <= u32_max |- 0 <= u32_max `min` (?x + 1) <= u32_max => lia end.
Qed.

Lemma typed_deliver_at e : event_typed e -> is_u64 (event_deliver_at e).
Proof. intros. destruct e; solve_typed. Qed.

(** The key an event waits under. *)
Definition event_key (e : Event) : QueueKey :=
  queue_key_new (event_deliver_at e) (event_lane e) (event_id e).

(** * Widths of the operations *)

Definition control_request_typed (r : ControlRequest) : Prop :=
  maybe is_u64 r.(cr_id) /\ is_u32 r.(cr_source) /\ is_u32 r.(cr_destination) /\
  is_bytes r.(cr_bytes) /\ is_u64 r.(cr_deliver_at) /\ maybe is_u64 r.(cr_expires_at).

Definition asset_request_typed (r : AssetRequest) : Prop :=
  maybe is_u64 r.(ar_id) /\ is_wide r.(ar_transfer) /\ is_u32 r.(ar_source) /\
  is_u32 r.(ar_destination) /\ is_u128 r.(ar_amount) /\ is_u64 r.(ar_deliver_at) /\
  maybe is_u64 r.(ar_timeout_at).

Definition op_typed (op : Operation) : Prop :=
  match op with
  | ScheduleControl request => control_request_typed request
  | ScheduleAsset request => asset_request_typed request
  | AddFault fault => fault_typed fault
  | AdvanceBy ticks => is_u64 ticks
  | AdvanceTo tick | RunUntil tick => is_u64 tick
  | HaltEndpoint id | ResumeEndpoint id => is_u32 id
  | SwapDeliveryTicks first second => is_u64 first /\ is_u64 second
  | MoveBefore event other | MoveAfter event other => is_u64 event /\ is_u64 other
  | DeliverNext | DeliverReady | RunUntilIdle | PauseLane _ | ResumeLane _ => True
  end.

(** * The machine *)

Record Hand := mkHand {
  h_event : Event;
  h_bound : bool;          (* its fault batch is being applied *)
  h_content : bool;        (* a fault of the content group has run *)
  h_pending : list Z;      (* pieces of a split still to be made *)
  h_credit : Z             (* events its batch may still make *)
}.

#[global] Instance Hand_eta : Eta Hand := fun h =>
  mkHand (h_event h) (h_bound h) (h_content h) (h_pending h) (h_credit h).

Definition Config : Type := option Hand * Simulator.

Definition batch_fanout (batch : list Fault) : Z :=
  lsum (fun fault => action_fanout fault.(f_action)) batch.

(** The rule a delivered amount follows: within the request unless it is
    marked as over-delivered. *)
Definition amount_rule (requested delivered : Z) (over : bool) : Prop :=
  0 < delivered /\ if over then requested < delivered else delivered <= requested.

(** Whether a delivery at [now] is past the deadline of the event. *)
Definition is_late (e : Event) (now : Tick) : bool :=
  match event_deadline e with Some deadline => deadline <? now | None => false end.

(** The way to the destination is open: the lane runs and the endpoint is
    there and active. *)
Definition path_open (sim : Simulator) (e : Event) : Prop :=
  lane_state sim (event_lane e) = Running /\
  exists p, sim.(sim_endpoints) !! event_destination e = Some p /\ p.(ep_state) = Active.

Definition blocked_by (sim : Simulator) (e : Event) (reason : BlockReason) : Prop :=
  match reason with
  | ReasonLanePaused => lane_state sim (event_lane e) = Paused
  | ReasonEndpointHalted =>
      exists p, sim.(sim_endpoints) !! event_destination e = Some p /\ p.(ep_state) = Halted
  end.

Section machine.
Context (digest : list Z -> list Z).

(** An event as the caller schedules it. *)
Definition scheduled_event (e : Event) : Prop :=
  event_attempts e = 0 /\ event_duplicate_of e = None /\ made_by_fault e = false /\
  event_status e = Scheduled /\ event_destination e = event_intended_destination e /\
  match e with
  | EvControl c =>
      c.(ce_bytes) <> [] /\ c.(ce_message_id) = message_identity digest c.(ce_bytes) /\
      c.(ce_mutation) = None
  | EvAsset a =>
      a.(ae_requested) <> 0 /\ a.(ae_delivered) = a.(ae_requested) /\ a.(ae_piece) = None /\
      a.(ae_over_delivered) = false
  end.

(** A fault of the plan does this. *)
Definition planned (sim : Simulator) (action : FaultAction) : Prop :=
  exists id f, sim.(sim_plan) !! id = Some f /\ f.(f_action) = action.

Inductive mstep : Config -> Config -> Prop :=
| m_time sim t :
    sim.(sim_now) < t -> is_u64 t ->
    mstep (None, sim) (None, log (TrTickAdvanced sim.(sim_now) t) (sim <| sim_now := t |>))
| m_fault sim f :
    check_fault sim f = Ok tt -> fault_typed f ->
    mstep (None, sim) (None, sim <| sim_plan ::= plan_insert f |>)
| m_endpoint sim id :
    sim.(sim_endpoints) !! id = None -> is_u32 id ->
    mstep (None, sim) (None, sim <| sim_endpoints ::= <[id := endpoint_new id]> |>)
| m_schedule sim e :
    sim.(sim_events) !! event_id e = None -> event_id e + 1 <= u64_max ->
    check_route sim (event_source e) (event_destination e) = Ok tt ->
    sim.(sim_now) <= event_deliver_at e -> scheduled_event e -> event_typed e ->
    mstep (None, sim) (None, insert_scheduled e (event_subject e)
      (sim <| sim_next_event := Z.max (event_id e + 1) sim.(sim_next_event) |>))
| m_halt sim id p :
    sim.(sim_endpoints) !! id = Some p ->
    mstep (None, sim) (None, log (TrEndpointHalted id)
      (sim <| sim_endpoints ::= <[id := set_state Halted p]> |>))
| m_resume sim id p :
    sim.(sim_endpoints) !! id = Some p ->
    let out := release_held (sim <| sim_endpoints ::= <[id := set_state Active p]> |>) in
    mstep (None, sim) (None, log (TrEndpointResumed id out.1) out.2)
| m_pause sim lane :
    mstep (None, sim) (None, pause_lane lane sim)
| m_resume_lane sim lane :
    let out := release_held (sim <| sim_lanes ::= <[lane := Running]> |>) in
    mstep (None, sim) (None, log (TrLaneResumed lane out.1) out.2)
| m_move sim k e t :
    k ∈ sim.(sim_queue) -> sim.(sim_events) !! k.(qk_event) = Some e -> k.(qk_deliver_at) <> t ->
    is_u64 t ->
    mstep (None, sim) (None, log (TrEventReordered k.(qk_event) k.(qk_deliver_at) t)
      (enqueue (queue_key_new t (event_lane e) k.(qk_event))
        (store k.(qk_event) (set_deliver_at t e)
          (sim <| sim_queue ::= (fun queue => queue ∖ {[ k ]}) |>))))
| m_pick sim k e :
    k ∈ sim.(sim_queue) -> k.(qk_deliver_at) <= sim.(sim_now) ->
    sim.(sim_events) !! k.(qk_event) = Some e ->
    let e' := set_status Ready (bump_attempts e) in
    mstep (None, sim) (Some (mkHand e' false false [] 0),
      log (TrDeliveryAttempted k.(qk_event) (event_destination e') (event_attempts e'))
        (sim <| sim_queue ::= (fun queue => queue ∖ {[ k ]}) |>))
| m_bind sim e :
    event_id e ∉ sim.(sim_resolved) ->
    let sim' := sim <| sim_resolved ::= union {[ event_id e ]} |> in
    mstep (Some (mkHand e false false [] 0), sim)
      (Some (mkHand e true false [] (batch_fanout (pending_faults sim' e))), sim')
| m_note sim h fault effect :
    h.(h_bound) = true -> (forall to, effect <> EffRerouted to) ->
    mstep (Some h, sim) (Some h, record_effect fault (event_id h.(h_event)) effect sim)
| m_refuse sim h fault reason :
    h.(h_bound) = true ->
    mstep (Some h, sim) (Some h, log (TrFaultRejected fault (event_id h.(h_event)) reason) sim)
| m_reroute sim h fault to p :
    h.(h_bound) = true -> sim.(sim_endpoints) !! to = Some p -> planned sim (ReplaceDestination to) ->
    mstep (Some h, sim) (Some (h <| h_event ::= set_destination to |>),
      record_effect fault (event_id h.(h_event)) (EffRerouted to) sim)
| m_corrupt sim h c fault offset from mask :
    h.(h_bound) = true -> h.(h_content) = false -> h.(h_event) = EvControl c ->
    mask <> 0 -> is_u64 offset -> is_u8 mask -> c.(ce_mutation) = None ->
    c.(ce_bytes) !! Z.to_nat offset = Some from -> planned sim (CorruptByte offset mask) ->
    let to := Z.lxor from mask in
    let bytes := <[Z.to_nat offset := to]> c.(ce_bytes) in
    mstep (Some h, sim)
      (Some (h <| h_content := true |> <| h_event := EvControl (c <| ce_bytes := bytes |>
         <| ce_message_id := message_identity digest bytes |>
         <| ce_mutation := Some (mkByteMutation offset from to c.(ce_message_id)) |>) |>),
       record_effect fault c.(ce_id) (EffCorrupted offset from to) sim)
| m_amount sim h a fault amount over :
    h.(h_bound) = true -> h.(h_content) = false -> h.(h_event) = EvAsset a ->
    is_u128 amount -> (over = true -> a.(ae_requested) < amount) ->
    (over = false -> amount <> 0 /\ amount <= a.(ae_requested)) ->
    mstep (Some h, sim)
      (Some (h <| h_content := true |> <| h_event := set_delivered amount over (EvAsset a) |>),
       record_effect fault a.(ae_id) (EffAmountSet amount) sim)
| m_split sim h a fault first rest total :
    h.(h_bound) = true -> h.(h_content) = false -> h.(h_event) = EvAsset a ->
    has_zero_piece (first :: rest) = false -> sum_pieces (first :: rest) = Some total ->
    total <= a.(ae_requested) -> Forall is_u128 (first :: rest) ->
    made_by_fault h.(h_event) = false ->
    mstep (Some h, sim)
      (Some (h <| h_content := true |> <| h_pending := rest |>
         <| h_event := EvAsset (a <| ae_delivered := first |> <| ae_piece := Some 0 |>) |>),
       record_effect fault a.(ae_id)
         (EffSplitInto (Z.min u16_max (Z.of_nat (length (first :: rest))))) sim)
| m_piece sim sim' h a amount rest id index deliver_at :
    h.(h_bound) = true -> h.(h_event) = EvAsset a -> h.(h_pending) = amount :: rest ->
    0 < h.(h_credit) -> made_by_fault h.(h_event) = false ->
    take_generated_id sim = Some (id, sim') -> is_u64 deliver_at -> is_u16 index ->
    let piece := a <| ae_id := id |> <| ae_deliver_at := deliver_at |> <| ae_attempts := 0 |>
      <| ae_delivered := amount |> <| ae_piece := Some index |> <| ae_from_fault := true |>
      <| ae_status := Scheduled |> in
    mstep (Some h, sim)
      (Some (h <| h_pending := rest |> <| h_credit ::= Z.pred |>),
       log (TrPartialDeliveryCreated a.(ae_id) id a.(ae_transfer) amount index)
         (enqueue (queue_key_new deliver_at LaneAsset id) (store id (EvAsset piece) sim')))
| m_copy sim sim' h id deliver_at :
    h.(h_bound) = true -> 0 < h.(h_credit) -> made_by_fault h.(h_event) = false ->
    take_generated_id sim = Some (id, sim') -> is_u64 deliver_at ->
    let copy := clone_for_duplicate h.(h_event) id deliver_at in
    mstep (Some h, sim)
      (Some (h <| h_credit ::= Z.pred |>),
       log (TrDuplicateCreated (event_id h.(h_event)) id deliver_at)
         (enqueue (queue_key_new deliver_at (event_lane copy) id) (store id copy sim')))
| m_reject sim h reason :
    h.(h_bound) = true ->
    mstep (Some h, sim) (None, log (TrEventRejected (event_id h.(h_event)) reason)
      (store (event_id h.(h_event)) (set_status RejectedBySimulator h.(h_event)) sim))
| m_drop sim h fault :
    h.(h_bound) = true ->
    mstep (Some h, sim) (None, log (TrEventDropped (event_id h.(h_event)) (Some fault))
      (store (event_id h.(h_event)) (set_status Dropped h.(h_event)) sim))
| m_delay sim h to :
    h.(h_bound) = true -> is_u64 to ->
    mstep (Some h, sim) (None, enqueue (queue_key_new to (event_lane h.(h_event)) (event_id h.(h_event)))
      (store (event_id h.(h_event)) (set_deliver_at to (set_status Scheduled h.(h_event))) sim))
| m_block sim h reason :
    event_id h.(h_event) ∈ sim.(sim_resolved) -> blocked_by sim h.(h_event) reason ->
    mstep (Some h, sim) (None, block h.(h_event) reason sim)
| m_expire sim h deadline :
    event_id h.(h_event) ∈ sim.(sim_resolved) -> path_open sim h.(h_event) ->
    event_deadline h.(h_event) = Some deadline -> deadline < sim.(sim_now) ->
    config_policy sim.(sim_config) (event_lane h.(h_event)) = Expire ->
    mstep (Some h, sim) (None, log (TrEventExpired (event_id h.(h_event)) deadline)
      (store (event_id h.(h_event)) (set_status Expired h.(h_event)) sim))
| m_deliver sim h :
    event_id h.(h_event) ∈ sim.(sim_resolved) -> path_open sim h.(h_event) ->
    (is_late h.(h_event) sim.(sim_now) = true ->
     config_policy sim.(sim_config) (event_lane h.(h_event)) = DeliverWithMarker) ->
    mstep (Some h, sim) (None, hand_over h.(h_event) (is_late h.(h_event) sim.(sim_now)) sim).

Abbreviation msteps := (rtc mstep).
End machine.
