(* ===== verification/SimTables.v ===== *)
(** The tables of the simulator agree with each other: the queue holds
    exactly the scheduled events under their keys, the held set exactly the
    blocked ones, a blocked event has a cause, and a fault batch is decided
    at the first attempt.  [tables] says so with an event in hand, and every
    step of the machine preserves it. *)

From Stdlib Require Import ZArith Lia.
From S2P Require Import Prelude ProtocolTypes ProtocolCodec SimState SimEngine SimSteps.

(** * Ordered sets *)

Lemma elem_of_btree_set_iter {A} `{Countable A} (R : relation A) `{!RelDecision R} (s : gset A) x :
  x ∈ btree_set_iter R s <-> x ∈ s.
Proof. unfold btree_set_iter. rewrite merge_sort_Permutation. apply elem_of_elements. Qed.

Lemma NoDup_btree_set_iter {A} `{Countable A} (R : relation A) `{!RelDecision R} (s : gset A) :
  NoDup (btree_set_iter R s).
Proof. unfold btree_set_iter. rewrite merge_sort_Permutation. apply NoDup_elements. Qed.

Lemma head_sorted {A} (R : relation A) `{!Transitive R, !Reflexive R} (l : list A) x :
  Sorted R l -> head l = Some x -> x ∈ l /\ forall y, y ∈ l -> R x y.
Proof.
  intros Hs Hx. destruct l as [|a l]; simplify_eq/=. split; [left|].
  intros y [->|Hy]%elem_of_cons; [reflexivity|].
  apply Sorted_StronglySorted in Hs; [|apply _].
  inversion Hs as [|? ? _ Hall]; subst. by eapply Forall_forall in Hall.
Qed.

(** The first key of the queue is its least one. *)
Lemma queue_peek_Some q k :
  queue_peek q = Some k -> k ∈ q /\ forall k', k' ∈ q -> key_before k k'.
Proof.
  intros Hk. destruct (head_sorted key_before (queue_iter q) k) as [Hin Hmin];
    [apply (Sorted_merge_sort _)|done|].
  split; [by apply elem_of_btree_set_iter in Hin|].
  intros k' Hk'. apply Hmin. by apply elem_of_btree_set_iter.
Qed.

Lemma queue_peek_None q : queue_peek q = None <-> q = ∅.
Proof.
  unfold queue_peek, queue_iter. split.
  - intros Hh. destruct (btree_set_iter key_before q) eqn:E; [|done].
    apply set_eq. intros k. rewrite <-(elem_of_btree_set_iter key_before), E. set_solver.
  - intros ->. done.
Qed.

Lemma queue_find_Some id q k : queue_find id q = Some k -> k ∈ q /\ k.(qk_event) = id.
Proof.
  unfold queue_find. intros Hk.
  assert (k ∈ filter (fun k => qk_event k = id) (queue_iter q)) as Hin.
  { destruct (filter _ _); simplify_eq/=. left. }
  apply list_elem_of_filter in Hin as [? Hin]. by apply elem_of_btree_set_iter in Hin.
Qed.

Lemma queue_find_None id q : queue_find id q = None <-> forall k, k ∈ q -> k.(qk_event) <> id.
Proof.
  unfold queue_find. split.
  - intros Hn k Hk Hid.
    assert (k ∈ filter (fun k => qk_event k = id) (queue_iter q)) as Hin.
    { apply list_elem_of_filter. split; [done|]. by apply elem_of_btree_set_iter. }
    destruct (filter _ _); [set_solver|done].
  - intros Hall. destruct (filter _ _) as [|k l] eqn:E; [done|].
    assert (k ∈ filter (fun k => qk_event k = id) (queue_iter q)) as Hin by (rewrite E; left).
    apply list_elem_of_filter in Hin as [? Hin]. apply elem_of_btree_set_iter in Hin.
    by destruct (Hall k).
Qed.

(** * The invariant *)

Definition in_hand (h : option Hand) (id : EventId) : Prop :=
  match h with Some hd => event_id hd.(h_event) = id | None => False end.

Definition bound_in_hand (h : option Hand) (id : EventId) : Prop :=
  match h with Some hd => hd.(h_bound) = true /\ event_id hd.(h_event) = id | None => False end.

Definition routed (sim : Simulator) (e : Event) : Prop :=
  is_Some (sim.(sim_endpoints) !! event_source e) /\
  is_Some (sim.(sim_endpoints) !! event_intended_destination e) /\
  is_Some (sim.(sim_endpoints) !! event_destination e).

(** An event and its bent form on the same route. *)
Lemma routed_core sim e e' :
  event_core e' = event_core e -> event_destination e' = event_destination e ->
  routed sim e -> routed sim e'.
Proof.
  unfold routed, event_core. intros Hc Hd. injection Hc as _ _ Hs Hi _ _ _ _.
  by rewrite Hs, Hi, Hd.
Qed.

(** What the event in hand keeps of the stored one. *)
Record hand_matches (hd : Hand) (e : Event) : Prop := {
  hm_status : event_status e = Scheduled;
  hm_core : event_core hd.(h_event) = event_core e;
  hm_attempts : event_attempts hd.(h_event) = saturating_add u32_max (event_attempts e) 1;
  hm_first : hd.(h_bound) = true -> event_attempts e = 0;
  hm_typed : event_typed hd.(h_event);
  hm_pending : Forall is_u128 hd.(h_pending)
}.

Record tables (h : option Hand) (sim : Simulator) : Prop := {
  tb_ids id e : sim.(sim_events) !! id = Some e -> event_id e = id /\ id < sim.(sim_next_event);
  tb_queue k :
    k ∈ sim.(sim_queue) <->
    exists e, sim.(sim_events) !! k.(qk_event) = Some e /\ event_status e = Scheduled /\
      ~ in_hand h k.(qk_event) /\ k = event_key e;
  tb_held id :
    id ∈ sim.(sim_held) <->
    exists e, sim.(sim_events) !! id = Some e /\ event_status e = Blocked;
  tb_cause id e :
    sim.(sim_events) !! id = Some e -> event_status e = Blocked -> ~ path_open sim e;
  tb_ready id e : sim.(sim_events) !! id = Some e -> event_status e <> Ready;
  tb_resolved id :
    id ∈ sim.(sim_resolved) <->
    (exists e, sim.(sim_events) !! id = Some e /\ 0 < event_attempts e) \/ bound_in_hand h id;
  tb_attempts id e : sim.(sim_events) !! id = Some e -> 0 <= event_attempts e <= u32_max;
  tb_routed id e : sim.(sim_events) !! id = Some e -> routed sim e;
  tb_typed id e : sim.(sim_events) !! id = Some e -> event_typed e;
  tb_endpoints id p : sim.(sim_endpoints) !! id = Some p -> p.(ep_id) = id /\ is_u32 id;
  tb_now : is_u64 sim.(sim_now);
  tb_next : 0 <= sim.(sim_next_event);
  tb_plan id f : sim.(sim_plan) !! id = Some f -> f.(f_id) = id /\ fault_typed f;
  tb_hand hd :
    h = Some hd ->
    exists e, sim.(sim_events) !! event_id hd.(h_event) = Some e /\ hand_matches hd e /\
      routed sim hd.(h_event)
}.

(** The invariant reads only some of the tables. *)
Lemma tables_frame h sim sim' :
  sim'.(sim_endpoints) = sim.(sim_endpoints) -> sim'.(sim_events) = sim.(sim_events) ->
  sim'.(sim_queue) = sim.(sim_queue) -> sim'.(sim_held) = sim.(sim_held) ->
  sim'.(sim_lanes) = sim.(sim_lanes) -> sim'.(sim_resolved) = sim.(sim_resolved) ->
  sim'.(sim_next_event) = sim.(sim_next_event) -> sim'.(sim_now) = sim.(sim_now) ->
  sim'.(sim_plan) = sim.(sim_plan) ->
  tables h sim -> tables h sim'.
Proof.
  destruct sim, sim'; simpl; intros; subst.
  match goal with H : tables _ _ |- _ => destruct H end. constructor; assumption.
Qed.

Lemma tables_log h a sim : tables h (log a sim) <-> tables h sim.
Proof. split; apply tables_frame; reflexivity. Qed.

(** The event in hand may be bent as long as its core stays. *)
Lemma tables_bend hd hd' sim :
  tables (Some hd) sim -> event_core hd'.(h_event) = event_core hd.(h_event) ->
  event_attempts hd'.(h_event) = event_attempts hd.(h_event) ->
  routed sim hd'.(h_event) -> event_typed hd'.(h_event) -> Forall is_u128 hd'.(h_pending) ->
  hd'.(h_bound) = hd.(h_bound) -> tables (Some hd') sim.
Proof.
  intros HT Hcore Hatt Hr Hty Hpe Hb. pose proof (core_id _ _ Hcore) as Hid. destruct HT.
  constructor; try assumption; simpl in *; rewrite ?Hid, ?Hb in *; try assumption.
  intros ? [= <-]. destruct (tb_hand0 hd eq_refl) as (e & He & [? ? ? ? ? ?] & _).
  exists e. rewrite Hid. split; [done|]. split; [|done]. split; congruence || (rewrite ?Hb; auto).
Qed.

(** A new event enters scheduled, under a number no event has. *)
Definition fresh_event (sim : Simulator) (e : Event) : Prop :=
  sim.(sim_events) !! event_id e = None /\ event_status e = Scheduled /\ event_attempts e = 0 /\
  routed sim e /\ event_typed e.

Lemma tables_add h sim e next :
  tables h sim -> fresh_event sim e -> event_id e < next -> sim.(sim_next_event) <= next ->
  tables h (enqueue (event_key e) (store (event_id e) e (sim <| sim_next_event := next |>))).
Proof.
  intros HT (Hn & Hs & Ha & Hr & Hty) Hlt Hle.
  assert (forall id, ~ in_hand h id \/ id <> event_id e) as Hne.
  { intros id. destruct h as [hd|]; [|left; auto].
    destruct (tb_hand _ _ HT hd eq_refl) as (e0 & He0 & _).
    simpl. destruct (decide (id = event_id e)) as [->|]; [|by right].
    left. intros Heq. rewrite Heq in He0. congruence. }
  destruct HT. constructor; simpl; try assumption.
  - intros id e1. rewrite lookup_insert_Some. intros [[<- <-]|[? H1]]; [done|].
    apply tb_ids0 in H1. lia.
  - intros k. rewrite elem_of_union, elem_of_singleton, tb_queue0. split.
    + intros [->|(e1 & H1 & ? & ? & ?)].
      * exists e. simpl. rewrite lookup_insert_eq. split_and!; try done.
        destruct (Hne (event_id e)); done.
      * exists e1. rewrite lookup_insert_ne by congruence. done.
    + intros (e1 & H1 & ? & ? & ?). apply lookup_insert_Some in H1 as [[? <-]|[? H1]]; [by left|].
      right. exists e1. done.
  - intros id. rewrite tb_held0. split; intros (e1 & H1 & ?).
    + exists e1. rewrite lookup_insert_ne by congruence. done.
    + apply lookup_insert_Some in H1 as [[? <-]|[? H1]]; [congruence|]. eauto.
  - intros id e1. rewrite lookup_insert_Some. intros [[<- <-]|[? H1]] ?; [congruence|]. by eapply tb_cause0.
  - intros id e1. rewrite lookup_insert_Some. intros [[<- <-]|[? H1]]; [congruence|]. by eapply tb_ready0.
  - intros id. rewrite tb_resolved0. split; (intros [(e1 & H1 & ?)|?]; [left|by right]).
    + exists e1. rewrite lookup_insert_ne by congruence. done.
    + apply lookup_insert_Some in H1 as [[? <-]|[? H1]]; [lia|]. eauto.
  - intros id e1. rewrite lookup_insert_Some. intros [[<- <-]|[? H1]]; [rewrite Ha; by vm_compute|]. by eapply tb_attempts0.
  - intros id e1. rewrite lookup_insert_Some. intros [[<- <-]|[? H1]]; [done|]. by eapply tb_routed0.
  - intros id e1. rewrite lookup_insert_Some. intros [[<- <-]|[? H1]]; [assumption|]. by eapply tb_typed0.
  - lia.
  - intros hd ->. destruct (tb_hand0 hd eq_refl) as (e1 & H1 & Hm & ?).
    exists e1. by rewrite lookup_insert_ne by congruence.
Qed.

Lemma path_open_frame sim sim' e :
  sim'.(sim_endpoints) = sim.(sim_endpoints) -> sim'.(sim_lanes) = sim.(sim_lanes) ->
  path_open sim' e <-> path_open sim e.
Proof. intros He Hl. unfold path_open, lane_state. by rewrite He, Hl. Qed.

(** Rewriting one stored event, with its place in the queue and among the
    held events rewritten to match. *)
Lemma tables_write h sim sim' id e0 e :
  tables h sim -> (forall id', in_hand h id' -> id' = id) ->
  sim.(sim_events) !! id = Some e0 -> event_core e = event_core e0 ->
  sim'.(sim_events) = <[id := e]> sim.(sim_events) ->
  sim'.(sim_endpoints) = sim.(sim_endpoints) -> sim'.(sim_lanes) = sim.(sim_lanes) ->
  sim'.(sim_resolved) = sim.(sim_resolved) -> sim'.(sim_next_event) = sim.(sim_next_event) ->
  sim'.(sim_now) = sim.(sim_now) -> sim'.(sim_plan) = sim.(sim_plan) ->
  (forall k, k.(qk_event) <> id -> k ∈ sim'.(sim_queue) <-> k ∈ sim.(sim_queue)) ->
  (forall k, k.(qk_event) = id ->
    k ∈ sim'.(sim_queue) <-> event_status e = Scheduled /\ k = event_key e) ->
  (forall i, i <> id -> i ∈ sim'.(sim_held) <-> i ∈ sim.(sim_held)) ->
  (id ∈ sim'.(sim_held) <-> event_status e = Blocked) ->
  routed sim e -> event_typed e -> event_status e <> Ready ->
  (event_status e = Blocked -> ~ path_open sim e) ->
  0 <= event_attempts e <= u32_max -> (0 < event_attempts e <-> id ∈ sim.(sim_resolved)) ->
  tables None sim'.
Proof.
  intros HT Hh He0 Hcore Hev Hend Hlan Hres Hnext Hnow Hplan Hq Hqid Hhe Hheid Hr Hty Hrd Hcause Hatt Hreso.
  assert (event_id e = id /\ id < sim.(sim_next_event)) as [Hid Hlt].
  { rewrite (core_id _ _ Hcore). by apply (tb_ids _ _ HT). }
  destruct HT. constructor; rewrite ?Hev, ?Hend, ?Hres, ?Hnext, ?Hnow, ?Hplan; try assumption.
  - intros i e1. rewrite lookup_insert_Some. intros [[<- <-]|[? H1]]; [done|by apply tb_ids0].
  - intros k. destruct (decide (qk_event k = id)) as [Hk|Hk].
    + rewrite Hqid, Hk, lookup_insert_eq by done. simpl. naive_solver.
    + rewrite Hq, tb_queue0, lookup_insert_ne by done. simpl. naive_solver.
  - intros i. destruct (decide (i = id)) as [->|Hk].
    + rewrite Hheid, lookup_insert_eq. naive_solver.
    + by rewrite Hhe, tb_held0, lookup_insert_ne by done.
  - intros i e1. rewrite lookup_insert_Some, (path_open_frame sim) by done.
    intros [[<- <-]|[? H1]]; [done|]. by eapply tb_cause0.
  - intros i e1. rewrite lookup_insert_Some. intros [[<- <-]|[? H1]]; [done|]. by eapply tb_ready0.
  - intros i. destruct (decide (i = id)) as [->|Hk].
    + rewrite <-Hreso, lookup_insert_eq. simpl. naive_solver.
    + rewrite tb_resolved0, lookup_insert_ne by done.
      assert (~ bound_in_hand h i) by (intros Hb; apply Hk, Hh; destruct h; naive_solver).
      simpl. naive_solver.
  - intros i e1. rewrite lookup_insert_Some. intros [[<- <-]|[? H1]]; [lia|]. by eapply tb_attempts0.
  - intros i e1. unfold routed. rewrite lookup_insert_Some, Hend.
    intros [[<- <-]|[? H1]]; [done|]. by eapply tb_routed0.
  - intros i e1. rewrite lookup_insert_Some. intros [[<- <-]|[? H1]]; [assumption|]. by eapply tb_typed0.
  - done.
Qed.

(** The event in hand goes back into the tables its new status calls for. *)
Definition put_back (e : Event) (sim : Simulator) : Simulator :=
  let sim := store (event_id e) e sim in
  match event_status e with
  | Scheduled => enqueue (event_key e) sim
  | Blocked => sim <| sim_held ::= union {[ event_id e ]} |>
  | _ => sim
  end.

Lemma tables_put_back hd sim e :
  tables (Some hd) sim -> event_core e = event_core hd.(h_event) ->
  event_attempts e = event_attempts hd.(h_event) -> routed sim e -> event_typed e ->
  event_id e ∈ sim.(sim_resolved) -> event_status e <> Ready ->
  (event_status e = Blocked -> ~ path_open sim e) ->
  tables None (put_back e sim).
Proof.
  intros HT Hcore Hatt Hr Hty Hres Hrd Hcause. pose proof (core_id _ _ Hcore) as Hid.
  destruct (tb_hand _ _ HT hd eq_refl) as (e0 & He0 & [Hs0 Hc0 Ha0 _ _ _] & _).
  pose proof (tb_attempts _ _ HT _ _ He0) as Hr0. rewrite <-Hid in He0.
  assert (forall k, k ∈ sim.(sim_queue) -> qk_event k <> event_id e) as Hnq.
  { intros k Hk Heq. apply (tb_queue _ _ HT) in Hk as (? & _ & _ & Hn & _).
    apply Hn. simpl. congruence. }
  assert (event_id e ∉ sim.(sim_held)) as Hnh.
  { intros (? & ? & ?)%(tb_held _ _ HT). congruence. }
  assert (0 < event_attempts e <= u32_max) as Hpos.
  { rewrite Hatt, Ha0. unfold saturating_add. revert Hr0. unfold u32_max. lia. }
  apply (tables_write _ _ _ (event_id e) _ e HT ltac:(simpl; congruence) He0); try assumption; try done;
    try (unfold put_back; by destruct (event_status e)); try congruence; try lia.
  - intros k Hk. unfold put_back. destruct (event_status e); simpl; try done.
    rewrite elem_of_union, elem_of_singleton. split; [intros [->|]; done|auto].
  - intros k Hk. unfold put_back. destruct (event_status e); simpl; try naive_solver.
    rewrite elem_of_union, elem_of_singleton. naive_solver.
  - intros k Hk. unfold put_back. destruct (event_status e); simpl; set_solver.
  - unfold put_back. destruct (event_status e); simpl; set_solver.
  - split; [done|lia].
Qed.

(** A blocked event is released. *)
Lemma tables_release_one sim n id :
  tables None sim -> id ∈ sim.(sim_held) -> tables None (release_one (n, sim) id).2.
Proof.
  intros HT Hin. pose proof Hin as (e & He & Hs)%(tb_held _ _ HT).
  pose proof (tb_ids _ _ HT _ _ He) as [Hid _].
  unfold release_one. simpl. rewrite He. simpl.
  apply (tables_write _ _ _ id e (set_deliver_at (Z.max (sim_now sim) (event_deliver_at e)) (set_status Scheduled e)) HT); try done;
    autorewrite with event; try done.
  - intros k Hk. simpl. rewrite elem_of_union, elem_of_singleton.
    split; [intros [->|]; done|auto].
  - intros k Hk. simpl. rewrite elem_of_union, elem_of_singleton. unfold event_key.
    autorewrite with event. rewrite Hid. split; [|naive_solver].
    intros [?|(e1 & ? & ? & _)%(tb_queue _ _ HT)]; [done|]. congruence.
  - intros i Hi. simpl. set_solver.
  - simpl. set_solver.
  - eapply routed_core, (tb_routed _ _ HT _ _ He); by autorewrite with event.
  - apply typed_set_deliver_at, typed_set_status, (tb_typed _ _ HT _ _ He).
    pose proof (tb_now _ _ HT). pose proof (typed_deliver_at _ (tb_typed _ _ HT _ _ He)).
    unfold fits in *. lia.
  - by apply (tb_attempts _ _ HT _ _ He).
  - rewrite (tb_resolved _ _ HT). simpl. naive_solver.
Qed.

(** * Releasing held events *)

Definition released (now : Tick) (e : Event) : Event :=
  set_deliver_at (Z.max now (event_deliver_at e)) (set_status Scheduled e).

(** What releasing the events [ids] does to the network. *)
Record releases (ids : list EventId) (sim sim' : Simulator) : Prop := {
  rs_config : sim'.(sim_config) = sim.(sim_config);
  rs_now : sim'.(sim_now) = sim.(sim_now);
  rs_endpoints : sim'.(sim_endpoints) = sim.(sim_endpoints);
  rs_lanes : sim'.(sim_lanes) = sim.(sim_lanes);
  rs_plan : sim'.(sim_plan) = sim.(sim_plan);
  rs_resolved : sim'.(sim_resolved) = sim.(sim_resolved);
  rs_trace : sim'.(sim_trace) = sim.(sim_trace);
  rs_next : sim'.(sim_next_event) = sim.(sim_next_event);
  rs_held id : id ∈ sim'.(sim_held) <-> id ∈ sim.(sim_held) /\ id ∉ ids;
  rs_other id : id ∉ ids -> sim'.(sim_events) !! id = sim.(sim_events) !! id;
  rs_event id : id ∈ ids ->
    exists e, sim.(sim_events) !! id = Some e /\ event_status e = Blocked /\
      sim'.(sim_events) !! id = Some (released sim.(sim_now) e)
}.

Lemma release_fold ids n sim :
  tables None sim -> NoDup ids -> (forall id, id ∈ ids -> id ∈ sim.(sim_held)) ->
  let sim' := (foldl release_one (n, sim) ids).2 in
  tables None sim' /\ releases ids sim sim'.
Proof.
  revert n sim. induction ids as [|id ids IH]; intros n sim HT Hnd Hin; cbn [foldl].
  { split; [done|]. split; set_solver. }
  apply NoDup_cons in Hnd as [Hni Hnd].
  pose proof (Hin id ltac:(left)) as Hid.
  pose proof Hid as (e & He & Hs)%(tb_held _ _ HT).
  pose proof (tables_release_one sim n id HT Hid) as HT1.
  destruct (release_one (n, sim) id) as [n1 sim1] eqn:E1. simpl in HT1.
  unfold release_one in E1. simpl in E1. rewrite He in E1. injection E1 as _ Hsim1.
  destruct (IH n1 sim1 HT1 Hnd) as [HT2 [? ? ? ? ? ? ? ? Hheld Hother Hev]].
  { intros i Hi. subst sim1. simpl. apply elem_of_difference.
    split; [set_solver|]. rewrite elem_of_singleton. intros ->. done. }
  split; [done|]. subst sim1. simpl in *. split; try done.
  - intros i. rewrite Hheld. set_solver.
  - intros i Hi. rewrite Hother, lookup_insert_ne by set_solver. done.
  - intros i [->|Hi]%elem_of_cons.
    + exists e. rewrite Hother, lookup_insert_eq by done. done.
    + destruct (Hev i Hi) as (e1 & H1 & ? & ?). exists e1.
      rewrite lookup_insert_ne in H1 by set_solver. done.
Qed.

(** Releasing reads neither the endpoints nor the lanes. *)
Lemma release_fold_paths ids n sim ends lanes :
  foldl release_one (n, sim <| sim_endpoints := ends |> <| sim_lanes := lanes |>) ids =
  let out := foldl release_one (n, sim) ids in
  (out.1, out.2 <| sim_endpoints := ends |> <| sim_lanes := lanes |>).
Proof.
  revert n sim. induction ids as [|id ids IH]; intros n sim; [done|].
  cbn [foldl]. destruct (release_one (n, sim) id) as [n1 sim1] eqn:E.
  replace (release_one _ id) with (n1, sim1 <| sim_endpoints := ends |> <| sim_lanes := lanes |>);
    [apply IH|].
  unfold release_one in *. simpl in *. by destruct (sim_events sim !! id); simplify_eq.
Qed.

(** How many events were released. *)
Lemma release_fold_count ids n sim :
  0 <= n <= u32_max -> (forall id, id ∈ ids -> is_Some (sim.(sim_events) !! id)) ->
  (foldl release_one (n, sim) ids).1 = Z.min u32_max (n + Z.of_nat (length ids)).
Proof.
  revert n sim. induction ids as [|id ids IH]; intros n sim Hn Hin; cbn [foldl length]; [simpl; lia|].
  destruct (Hin id ltac:(left)) as [e He].
  assert (release_one (n, sim) id = (saturating_add u32_max n 1, (release_one (n, sim) id).2)) as ->.
  { unfold release_one. simpl. by rewrite He. }
  rewrite IH; [unfold saturating_add; lia|unfold saturating_add; lia|].
  intros i Hi. unfold release_one. simpl. rewrite He. simpl.
  destruct (decide (i = id)) as [->|]; [rewrite lookup_insert_eq; eauto|].
  rewrite lookup_insert_ne by done. apply Hin. by right.
Qed.

Lemma path_is_clear_open sim id e :
  sim.(sim_events) !! id = Some e -> path_is_clear sim id = true <-> path_open sim e.
Proof.
  intros He. unfold path_is_clear, path_open. rewrite He.
  destruct (lane_state sim (event_lane e)); simpl; [|split; [done|intros [? _]; done]].
  destruct (sim_endpoints sim !! event_destination e) as [p|]; [|split; [done|intros (_ & ? & ? & _); done]].
  unfold is_halted. destruct (ep_state p) eqn:Hs; simpl; split; try done; [eauto|].
  intros (_ & ? & [= <-] & ?). congruence.
Qed.

(** The tables after a change of endpoints and lanes. *)
Lemma tables_paths h sim sim' :
  tables h sim ->
  sim'.(sim_events) = sim.(sim_events) -> sim'.(sim_queue) = sim.(sim_queue) ->
  sim'.(sim_held) = sim.(sim_held) -> sim'.(sim_resolved) = sim.(sim_resolved) ->
  sim'.(sim_next_event) = sim.(sim_next_event) -> sim'.(sim_now) = sim.(sim_now) ->
  sim'.(sim_plan) = sim.(sim_plan) ->
  (forall id, is_Some (sim.(sim_endpoints) !! id) -> is_Some (sim'.(sim_endpoints) !! id)) ->
  (forall id p, sim'.(sim_endpoints) !! id = Some p -> p.(ep_id) = id /\ is_u32 id) ->
  (forall id e, sim.(sim_events) !! id = Some e -> event_status e = Blocked -> ~ path_open sim' e) ->
  tables h sim'.
Proof.
  intros HT Hev Hq Hhe Hre Hnx Hnow Hplan Hdom Hid Hcause. destruct HT.
  constructor; rewrite ?Hev, ?Hq, ?Hhe, ?Hre, ?Hnx, ?Hnow, ?Hplan; try assumption.
  - intros id e He. destruct (tb_routed0 _ _ He) as (? & ? & ?). split_and!; by apply Hdom.
  - intros hd Hh. destruct (tb_hand0 hd Hh) as (e & ? & ? & (? & ? & ?)).
    exists e. split_and!; try done. split_and!; by apply Hdom.
Qed.

Lemma tables_set_endpoint h sim id p :
  tables h sim -> p.(ep_id) = id -> is_u32 id ->
  (forall i e, sim.(sim_events) !! i = Some e -> event_status e = Blocked ->
    event_destination e = id -> p.(ep_state) <> Active) ->
  tables h (sim <| sim_endpoints ::= <[id := p]> |>).
Proof.
  intros HT Hp Hid Hst. apply (tables_paths h sim); try done; simpl.
  - intros i Hi. destruct (decide (i = id)) as [->|]; [rewrite lookup_insert_eq; eauto|].
    by rewrite lookup_insert_ne.
  - intros i q. rewrite lookup_insert_Some. intros [[<- <-]|[? Hq]]; [done|by apply (tb_endpoints _ _ HT)].
  - intros i e He Hs (Hl & q & Hq & Ha). apply (tb_cause _ _ HT _ _ He Hs). simpl in Hq.
    apply lookup_insert_Some in Hq as [[? <-]|[? Hq]]; [|split; eauto].
    by destruct (Hst _ _ He Hs).
Qed.

(** A resume: the paths change, and every held event with an open path is
    released. *)
Lemma tables_resume sim sim0 ends lanes :
  tables None sim -> sim0 = sim <| sim_endpoints := ends |> <| sim_lanes := lanes |> ->
  (forall id, is_Some (sim.(sim_endpoints) !! id) -> is_Some (ends !! id)) ->
  (forall id p, ends !! id = Some p -> p.(ep_id) = id /\ is_u32 id) ->
  let sim' := (release_held sim0).2 in
  tables None sim' /\
  exists ids, NoDup ids /\ releases ids sim0 sim' /\
    (forall id, id ∈ ids <-> id ∈ sim.(sim_held) /\ path_is_clear sim0 id = true) /\
    (release_held sim0).1 = Z.min u32_max (Z.of_nat (length ids)).
Proof.
  intros HT Hsim0 Hdom Hid. unfold release_held.
  set (ids := filter _ _).
  assert (forall id, id ∈ ids <-> id ∈ sim.(sim_held) /\ path_is_clear sim0 id = true) as Hids.
  { intros id. unfold ids. rewrite list_elem_of_filter, elem_of_btree_set_iter, Is_true_true.
    subst sim0. naive_solver. }
  assert (NoDup ids) as Hnd by apply NoDup_filter, NoDup_btree_set_iter.
  destruct (release_fold ids 0 sim HT Hnd) as [HT1 HR]; [naive_solver|].
  assert ((foldl release_one (0, sim0) ids).1 = Z.min u32_max (Z.of_nat (length ids))) as Hcount.
  { rewrite release_fold_count; [f_equal; lia|unfold u32_max; lia|]. intros id [Hin _]%Hids.
    apply (tb_held _ _ HT) in Hin as (e & He & _). subst sim0. eauto. }
  clearbody ids. subst sim0. rewrite release_fold_paths in Hcount |- *. cbn [fst snd] in *. split.
  - apply (tables_paths None _ _ HT1); try done; simpl.
    + rewrite (rs_endpoints _ _ _ HR). done.
    + intros id e He Hs Hopen.
      assert (id ∉ ids) as Hni.
      { intros Hin. destruct (rs_event _ _ _ HR id Hin) as (? & _ & _ & He2).
        rewrite He in He2. injection He2 as ->. unfold released in Hs.
        by autorewrite with event in Hs. }
      rewrite (rs_other _ _ _ HR) in He by done.
      apply Hni, Hids. split; [apply (tb_held _ _ HT); eauto|].
      by apply (path_is_clear_open
        (sim <| sim_endpoints := ends |> <| sim_lanes := lanes |>) id e).
  - exists ids. split_and!; try done. destruct HR. split; try done.
Qed.

(** The two ways a path opens. *)
Lemma resume_endpoint_releases sim id p :
  tables None sim -> sim.(sim_endpoints) !! id = Some p ->
  let sim0 := sim <| sim_endpoints ::= <[id := set_state Active p]> |> in
  tables None (release_held sim0).2 /\
  exists ids, NoDup ids /\ releases ids sim0 (release_held sim0).2 /\
    (forall i, i ∈ ids <-> i ∈ sim.(sim_held) /\ path_is_clear sim0 i = true) /\
    (release_held sim0).1 = Z.min u32_max (Z.of_nat (length ids)).
Proof.
  intros HT Hp. apply (tables_resume sim _ (<[id := set_state Active p]> (sim_endpoints sim)) (sim_lanes sim));
    [done|reflexivity|..].
  - intros i Hi. destruct (decide (i = id)) as [->|]; [rewrite lookup_insert_eq; eauto|].
    by rewrite lookup_insert_ne.
  - intros i q. rewrite lookup_insert_Some. intros [[<- <-]|[? Hq]];
      [by apply (tb_endpoints _ _ HT id p)|by apply (tb_endpoints _ _ HT)].
Qed.

Lemma resume_lane_releases sim lane :
  tables None sim ->
  let sim0 := sim <| sim_lanes ::= <[lane := Running]> |> in
  tables None (release_held sim0).2 /\
  exists ids, NoDup ids /\ releases ids sim0 (release_held sim0).2 /\
    (forall i, i ∈ ids <-> i ∈ sim.(sim_held) /\ path_is_clear sim0 i = true) /\
    (release_held sim0).1 = Z.min u32_max (Z.of_nat (length ids)).
Proof.
  intros HT. apply (tables_resume sim _ (sim_endpoints sim) (<[lane := Running]> (sim_lanes sim)));
    [done|reflexivity|done|apply (tb_endpoints _ _ HT)].
Qed.

(** * Every step keeps the tables *)

(** Known events lie below [next_event], so the first candidate is free. *)
Lemma take_generated_id_tables h sim :
  tables h sim ->
  take_generated_id sim =
  match checked_add u64_max sim.(sim_next_event) 1 with
  | Some next => Some (sim.(sim_next_event), sim <| sim_next_event := next |>)
  | None => None
  end.
Proof.
  intros HT. unfold take_generated_id. simpl.
  destruct (sim_events sim !! sim_next_event sim) as [e|] eqn:E; [|done].
  apply (tb_ids _ _ HT) in E as [_ ?]. lia.
Qed.

Lemma take_generated_id_Some h sim id sim' :
  tables h sim -> take_generated_id sim = Some (id, sim') ->
  id = sim.(sim_next_event) /\ sim' = sim <| sim_next_event := id + 1 |> /\
  sim.(sim_events) !! id = None /\ id + 1 <= u64_max.
Proof.
  intros HT. rewrite (take_generated_id_tables h) by done.
  destruct (checked_add _ _ _) as [next|] eqn:E; intros; simplify_eq.
  apply checked_add_Some in E as [-> ?]. split_and!; try done.
  destruct (sim_events sim !! sim_next_event sim) as [e|] eqn:He; [|done].
  apply (tb_ids _ _ HT) in He as [_ ?]. lia.
Qed.

Lemma require_endpoint_Ok sim id u : require_endpoint sim id = Ok u <-> is_Some (sim.(sim_endpoints) !! id).
Proof. unfold require_endpoint. destruct (sim_endpoints sim !! id), u; split; try done; intros [? ?]; done. Qed.

Lemma check_route_Ok sim source destination u :
  check_route sim source destination = Ok u ->
  is_Some (sim.(sim_endpoints) !! source) /\ is_Some (sim.(sim_endpoints) !! destination) /\
  source <> destination.
Proof.
  unfold check_route. intros. invert_ok.
  repeat match goal with H : require_endpoint _ _ = Ok _ |- _ => apply require_endpoint_Ok in H end.
  done.
Qed.

(** Made events are fresh and travel where the event in hand travels. *)
Lemma tables_make hd sim sim' id e :
  tables (Some hd) sim -> take_generated_id sim = Some (id, sim') ->
  event_id e = id -> event_status e = Scheduled -> event_attempts e = 0 -> routed sim e ->
  event_typed e ->
  tables (Some hd) (enqueue (event_key e) (store id e sim')).
Proof.
  intros HT Htake <- Hs Ha Hr Hty.
  destruct (take_generated_id_Some _ _ _ _ HT Htake) as (Hid & -> & Hn & ?).
  apply tables_add; [assumption|by split_and!|lia|lia].
Qed.

Lemma hand_routed hd sim : tables (Some hd) sim -> routed sim hd.(h_event).
Proof. intros HT. by destruct (tb_hand _ _ HT hd eq_refl) as (? & _ & _ & ?). Qed.

Lemma hand_typed hd sim : tables (Some hd) sim -> event_typed hd.(h_event).
Proof. intros HT. by destruct (tb_hand _ _ HT hd eq_refl) as (? & _ & [] & _). Qed.

Lemma hand_pending hd sim : tables (Some hd) sim -> Forall is_u128 hd.(h_pending).
Proof. intros HT. by destruct (tb_hand _ _ HT hd eq_refl) as (? & _ & [] & _). Qed.

Lemma hand_resolved hd sim :
  tables (Some hd) sim -> hd.(h_bound) = true -> event_id hd.(h_event) ∈ sim.(sim_resolved).
Proof. intros HT Hb. apply (tb_resolved _ _ HT). by right. Qed.

Lemma blocked_not_open sim e reason : blocked_by sim e reason -> ~ path_open sim e.
Proof.
  destruct reason; simpl; unfold path_open.
  - intros (p & Hp & Hs) (_ & q & Hq & Hs'). congruence.
  - intros -> [? _]. done.
Qed.

(** Taking an event from the queue into hand. *)
Lemma tables_pick sim k e :
  tables None sim -> k ∈ sim.(sim_queue) -> sim.(sim_events) !! k.(qk_event) = Some e ->
  tables (Some (mkHand (set_status Ready (bump_attempts e)) false false [] 0))
    (sim <| sim_queue ::= (fun queue => queue ∖ {[ k ]}) |>).
Proof.
  intros HT Hk He. pose proof Hk as (e1 & He1 & Hs & _ & Hkey)%(tb_queue _ _ HT).
  assert (e1 = e) as -> by congruence. pose proof (tb_ids _ _ HT _ _ He) as [Hid _].
  destruct HT. constructor; try done; simpl; autorewrite with event.
  - intros k'. rewrite elem_of_difference, elem_of_singleton, tb_queue0. simpl. split.
    + intros [(e' & He' & ? & _ & ?) Hne]. exists e'. split_and!; try done.
      intros Heq. apply Hne. rewrite <-Heq, Hid in He'. congruence.
    + intros (e' & He' & ? & Hne & ?). split; [exists e'; split_and!; auto|].
      intros ->. congruence.
  - intros id. rewrite tb_resolved0. simpl. naive_solver.
  - intros hd [= <-]. exists e. simpl. autorewrite with event. rewrite Hid. split_and!; [done| |].
    + split; simpl; autorewrite with event; try done.
      by apply typed_set_status, typed_bump_attempts, (tb_typed0 _ _ He).
    + eapply routed_core, tb_routed0; [..|done]; by autorewrite with event.
Qed.

Lemma tables_bind sim e credit :
  let sim' := sim <| sim_resolved ::= union {[ event_id e ]} |> in
  tables (Some (mkHand e false false [] 0)) sim -> event_id e ∉ sim.(sim_resolved) ->
  tables (Some (mkHand e true false [] credit)) sim'.
Proof.
  simpl. intros HT Hn. destruct HT. constructor; try done; simpl.
  - intros id. rewrite elem_of_union, elem_of_singleton, tb_resolved0. simpl. naive_solver.
  - intros hd [= <-]. destruct (tb_hand0 _ eq_refl) as (e0 & He0 & [? ? ? ? ? ?] & ?). simpl in *.
    exists e0. split_and!; try done. split; try done. simpl. intros _.
    destruct (decide (0 < event_attempts e0)) as [Hpos|].
    + exfalso. apply Hn, tb_resolved0. left. eauto.
    + pose proof (tb_attempts0 _ _ He0). lia.
Qed.

Lemma is_Some_alter {A} (f : A -> A) (m : gmap Z A) i j :
  is_Some (m !! i) -> is_Some (alter f j m !! i).
Proof.
  intros [x Hx]. destruct (decide (i = j)) as [->|].
  - rewrite lookup_alter_eq, Hx. by eexists.
  - rewrite lookup_alter_ne, Hx by done. by eexists.
Qed.

(** Delivering writes an inbox and nothing a path depends on. *)
Lemma path_open_alter sim f d e :
  (forall p, (f p).(ep_state) = p.(ep_state)) ->
  path_open (sim <| sim_endpoints ::= alter f d |>) e <-> path_open sim e.
Proof.
  intros Hf. unfold path_open, lane_state. simpl.
  destruct (decide (event_destination e = d)) as [->|];
    [rewrite lookup_alter_eq|rewrite lookup_alter_ne by done; done].
  destruct (sim_endpoints sim !! d) as [p|] eqn:E; simpl; [|done]. split.
  - intros (? & q & Hq & Hs). simplify_eq. rewrite Hf in Hs. eauto.
  - intros (? & q & Hq & Hs). simplify_eq. split; [done|]. eexists. split; [done|]. by rewrite Hf.
Qed.

Lemma push_delivery_keeps e now late p :
  (push_delivery e now late p).(ep_state) = p.(ep_state) /\
  (push_delivery e now late p).(ep_id) = p.(ep_id).
Proof. by destruct e. Qed.

Lemma tables_inbox h sim e now late d :
  tables h sim -> tables h (sim <| sim_endpoints ::= alter (push_delivery e now late) d |>).
Proof.
  intros HT. apply (tables_paths h sim); try done; simpl.
  - intros id. apply is_Some_alter.
  - intros id p. destruct (decide (id = d)) as [->|].
    + rewrite lookup_alter_eq. intros (q & Hq & ->)%fmap_Some.
      rewrite (proj2 (push_delivery_keeps _ _ _ _)). by apply (tb_endpoints _ _ HT).
    + rewrite lookup_alter_ne by done. by apply (tb_endpoints _ _ HT).
  - intros id e1 He Hs. rewrite path_open_alter; [by apply (tb_cause _ _ HT _ _ He Hs)|].
    intros. apply push_delivery_keeps.
Qed.

(** Closing steps write the event back as [put_back] does. *)
Lemma tables_close hd sim e :
  tables (Some hd) sim -> event_core e = event_core hd.(h_event) ->
  event_attempts e = event_attempts hd.(h_event) ->
  event_destination e = event_destination hd.(h_event) -> event_typed e ->
  event_id hd.(h_event) ∈ sim.(sim_resolved) -> event_status e <> Ready ->
  (event_status e = Blocked -> ~ path_open sim e) ->
  tables None (put_back e sim).
Proof.
  intros HT Hc Ha Hd Hty Hr Hs Hb. apply (tables_put_back hd); try assumption.
  - by eapply routed_core, hand_routed.
  - by rewrite (core_id _ _ Hc).
Qed.

Lemma tables_move sim k e t :
  tables None sim -> k ∈ sim.(sim_queue) -> sim.(sim_events) !! k.(qk_event) = Some e ->
  is_u64 t -> tables None (enqueue (queue_key_new t (event_lane e) k.(qk_event))
    (store k.(qk_event) (set_deliver_at t e)
      (sim <| sim_queue ::= (fun queue => queue ∖ {[ k ]}) |>))).
Proof.
  intros HT Hk He Ht. pose proof Hk as (e1 & He1 & Hs & _ & Hkey)%(tb_queue _ _ HT).
  assert (e1 = e) as -> by congruence. pose proof (tb_ids _ _ HT _ _ He) as [Hid _].
  apply (tables_write None sim _ (qk_event k) e (set_deliver_at t e) HT); try done;
    autorewrite with event; try done; try congruence.
  - intros k' Hk'. simpl. rewrite elem_of_union, elem_of_difference, !elem_of_singleton.
    split; [intros [->|[? _]]; done|]. intros. right. split; [done|]. by intros ->.
  - intros k' Hk'. simpl. rewrite elem_of_union, elem_of_difference, !elem_of_singleton.
    unfold event_key. autorewrite with event. rewrite Hid. split; [|naive_solver].
    intros [->|[Hin Hne]]; [done|]. apply (tb_queue _ _ HT) in Hin as (e' & He' & _ & _ & ->).
    rewrite Hk', He in He'. injection He' as <-. done.
  - simpl. rewrite (tb_held _ _ HT). split; [|congruence]. intros (? & ? & ?). congruence.
  - eapply routed_core, (tb_routed _ _ HT _ _ He); by autorewrite with event.
  - apply typed_set_deliver_at, (tb_typed _ _ HT _ _ He). exact Ht.
  - by apply (tb_attempts _ _ HT _ _ He).
  - rewrite (tb_resolved _ _ HT). simpl. naive_solver.
Qed.

Lemma tables_schedule sim e :
  tables None sim -> sim.(sim_events) !! event_id e = None -> event_status e = Scheduled ->
  event_attempts e = 0 -> event_destination e = event_intended_destination e -> event_typed e ->
  check_route sim (event_source e) (event_destination e) = Ok tt ->
  tables None (insert_scheduled e (event_subject e)
    (sim <| sim_next_event := Z.max (event_id e + 1) sim.(sim_next_event) |>)).
Proof.
  intros HT Hn Hs Ha Hd Hty Hr%check_route_Ok. unfold insert_scheduled.
  match goal with |- tables None (enqueue _ (store _ _ (log ?a ?s))) =>
    change (tables None (log a (enqueue (event_key e) (store (event_id e) e s)))) end.
  apply tables_log, tables_add; [assumption| |lia..].
  split_and!; try assumption. unfold routed. rewrite <-Hd. naive_solver.
Qed.

(** A byte flipped by a byte is a byte. *)
Lemma lxor_byte x y : is_byte x -> is_byte y -> is_byte (Z.lxor x y).
Proof.
  unfold is_byte. intros Hx Hy.
  assert (0 <= Z.lxor x y) by (apply Z.lxor_nonneg; lia). split; [done|].
  destruct (Z.eq_dec (Z.lxor x y) 0) as [->|Hne]; [done|].
  apply (Z.log2_lt_pow2 _ 8); [lia|].
  assert (forall z, 0 <= z < 256 -> Z.log2 z < 8) as Hl.
  { intros z Hz. destruct (Z.eq_dec z 0) as [->|]; [done|]. apply Z.log2_lt_pow2; [lia|]. simpl. lia. }
  pose proof (Z.log2_lxor x y ltac:(lia) ltac:(lia)). pose proof (Hl x Hx). pose proof (Hl y Hy). lia.
Qed.

Section steps.
Context (digest : list Z -> list Z).

(** The steps that do not involve an attempt. *)
Lemma tables_mstep_idle sim b :
  mstep digest (None, sim) b -> b.1 = None -> tables None sim -> tables None b.2.
Proof.
  intros Hm Hb HT. inversion Hm; subst; simpl in *; try done; rewrite ?tables_log.
  - destruct HT. constructor; assumption.
  - destruct HT. constructor; try assumption. simpl. intros i g. unfold plan_insert.
    rewrite lookup_insert_Some. intros [[<- <-]|[_ ?]]; [done|auto].
  - apply tables_set_endpoint; [assumption|done|assumption|]. intros i e He _ <-.
    destruct (tb_routed _ _ HT _ _ He) as (_ & _ & [? ?]). congruence.
  - match goal with H : scheduled_event _ _ |- _ => destruct H as (? & ? & ? & ? & ? & _) end.
    by apply tables_schedule.
  - apply tables_set_endpoint; [done|by apply (tb_endpoints _ _ HT id p)|by eapply (tb_endpoints _ _ HT id p)|done].
  - by apply resume_endpoint_releases.
  - unfold pause_lane. rewrite tables_log.
    apply (tables_paths None sim); try done; [by apply (tb_endpoints _ _ HT)|].
    intros i e He Hs (Hl & q & Hq & Ha). apply (tb_cause _ _ HT _ _ He Hs). split; [|eauto].
    revert Hl. unfold lane_state. cbn.
    destruct (decide (event_lane e = lane)) as [->|];
      [rewrite lookup_insert_eq|rewrite lookup_insert_ne by done]; done.
  - by apply resume_lane_releases.
  - by apply tables_move.
Qed.

(** A byte edit keeps the widths. *)
Lemma corrupt_typed c offset from mask bytes id :
  event_typed (EvControl c) -> is_u64 offset -> is_u8 mask ->
  c.(ce_bytes) !! Z.to_nat offset = Some from ->
  bytes = <[Z.to_nat offset := Z.lxor from mask]> c.(ce_bytes) ->
  event_typed (EvControl (c <| ce_bytes := bytes |> <| ce_message_id := message_identity digest bytes |>
    <| ce_mutation := Some (mkByteMutation offset from (Z.lxor from mask) id) |>)).
Proof.
  intros Hty Ho Hm Hf ->.
  assert (is_bytes (ce_bytes c)) as Hb by solve_typed.
  assert (is_byte from) as Hfrom by exact (Forall_lookup_1 _ _ _ _ Hb Hf).
  assert (is_byte (Z.lxor from mask)) as Hto.
  { apply lxor_byte; [done|]. revert Hm. unfold fits, u8_max, is_byte. lia. }
  assert (is_bytes (<[Z.to_nat offset := Z.lxor from mask]> (ce_bytes c))) by (apply Forall_insert; assumption).
  assert (is_u8 from) by (unfold fits, u8_max, is_byte in *; lia).
  assert (is_u8 (Z.lxor from mask)) by (unfold fits, u8_max, is_byte in *; lia).
  solve_typed.
Qed.

(** Making an event leaves the one in hand alone. *)
Lemma tables_mstep_make hd hd' sim sim' id e :
  tables (Some hd) sim -> take_generated_id sim = Some (id, sim') -> event_id e = id ->
  event_status e = Scheduled -> event_attempts e = 0 -> routed sim e -> event_typed e ->
  hd'.(h_event) = hd.(h_event) -> hd'.(h_bound) = hd.(h_bound) -> Forall is_u128 hd'.(h_pending) ->
  tables (Some hd') (enqueue (event_key e) (store id e sim')).
Proof.
  intros HT Ht Hid Hs Ha Hr Hty He Hb Hpe.
  apply (tables_bend hd); rewrite ?He; try done.
  - by apply (tables_make _ sim).
  - destruct (take_generated_id_Some _ _ _ _ HT Ht) as (_ & -> & _). exact (hand_routed _ _ HT).
  - exact (hand_typed _ _ HT).
Qed.

Lemma generated_u64 h sim id sim' :
  tables h sim -> take_generated_id sim = Some (id, sim') -> is_u64 id.
Proof.
  intros HT Ht. destruct (take_generated_id_Some _ _ _ _ HT Ht) as (-> & _ & _ & ?).
  pose proof (tb_next _ _ HT). unfold fits. lia.
Qed.

Lemma tables_mstep_piece sim sim' h a amount rest id index deliver_at :
  tables (Some h) sim -> h.(h_event) = EvAsset a -> h.(h_pending) = amount :: rest ->
  take_generated_id sim = Some (id, sim') -> is_u64 deliver_at -> is_u16 index ->
  let piece := a <| ae_id := id |> <| ae_deliver_at := deliver_at |> <| ae_attempts := 0 |>
    <| ae_delivered := amount |> <| ae_piece := Some index |> <| ae_from_fault := true |>
    <| ae_status := Scheduled |> in
  tables (Some (h <| h_pending := rest |> <| h_credit ::= Z.pred |>))
    (enqueue (queue_key_new deliver_at LaneAsset id) (store id (EvAsset piece) sim')).
Proof.
  intros HT He Hp Ht Hu Hi piece.
  pose proof (hand_pending _ _ HT) as Hpe. rewrite Hp in Hpe. apply Forall_cons in Hpe as [Hamt Hpe].
  pose proof (hand_routed _ _ HT) as Hr. pose proof (hand_typed _ _ HT) as Hty. rewrite He in Hr, Hty.
  pose proof (generated_u64 _ _ _ _ HT Ht) as Hid. assert (is_u32 0) as H0 by by vm_compute.
  apply (tables_mstep_make h _ sim sim' id (EvAsset piece)); try done. solve_typed.
Qed.

Lemma tables_mstep_copy sim sim' h id deliver_at :
  tables (Some h) sim -> take_generated_id sim = Some (id, sim') -> is_u64 deliver_at ->
  let copy := clone_for_duplicate h.(h_event) id deliver_at in
  tables (Some (h <| h_credit ::= Z.pred |>))
    (enqueue (queue_key_new deliver_at (event_lane copy) id) (store id copy sim')).
Proof.
  intros HT Ht Hu copy.
  pose proof (hand_routed _ _ HT) as Hr. pose proof (hand_typed _ _ HT) as Hty.
  pose proof (hand_pending _ _ HT) as Hpe.
  pose proof (generated_u64 _ _ _ _ HT Ht) as Hid. assert (is_u32 0) as H0 by by vm_compute.
  assert (event_typed copy) as Hc by (unfold copy; destruct (h_event h); solve_typed).
  assert (event_id copy = id /\ event_status copy = Scheduled /\ event_attempts copy = 0 /\
          event_deliver_at copy = deliver_at /\ routed sim copy) as (Hcid & ? & ? & Hda & ?)
    by (unfold copy; by destruct (h_event h)).
  pose proof (tables_mstep_make h (h <| h_credit ::= Z.pred |>) sim sim' id copy) as HM.
  unfold event_key in HM. rewrite Hcid, Hda in HM. by apply HM.
Qed.

(** The steps of an attempt that keep the event in hand. *)
Lemma tables_mstep_hand h sim hd' sim' :
  mstep digest (h, sim) (Some hd', sim') -> tables h sim -> tables (Some hd') sim'.
Proof.
  intros Hm HT. inversion Hm; subst; unfold record_effect; rewrite ?tables_log; try done;
    try (pose proof (hand_typed _ _ HT) as Hty; pose proof (hand_routed _ _ HT) as Hr;
         pose proof (hand_pending _ _ HT) as Hpe).
  - by apply tables_pick.
  - by apply (tables_bind sim e).
  - destruct Hr as (? & ? & ?). apply (tables_bend h0); simpl; autorewrite with event; try assumption; try done.
    + split_and!; autorewrite with event; try done; by destruct (h_event h0).
    + apply typed_set_destination; [|assumption].
      by eapply (tb_endpoints _ _ HT).
  - replace (h_event h0) with (EvControl c) in Hr, Hty.
    eapply tables_bend; try done; simpl; [by replace (h_event h0) with (EvControl c)..|].
    by apply corrupt_typed.
  - replace (h_event h0) with (EvAsset a) in Hr, Hty.
    eapply tables_bend; try done; simpl; [by replace (h_event h0) with (EvAsset a)..|]. solve_typed.
  - replace (h_event h0) with (EvAsset a) in Hr, Hty.
    match goal with H : Forall _ (_ :: _) |- _ => apply Forall_cons in H as [? ?] end.
    assert (is_u16 0) by by vm_compute.
    eapply tables_bend; try done; simpl; [by replace (h_event h0) with (EvAsset a)..|]. solve_typed.
  - eapply tables_mstep_piece; eassumption.
  - eapply tables_mstep_copy; eassumption.
Qed.

(** The steps that end an attempt. *)
Lemma tables_mstep_close hd sim sim' :
  mstep digest (Some hd, sim) (None, sim') -> tables (Some hd) sim -> tables None sim'.
Proof.
  intros Hm HT. inversion Hm; subst; unfold block, hand_over; rewrite ?tables_log; try done.
  all: assert (forall s, event_typed (set_status s (h_event hd))) as Hst
    by (intros; apply typed_set_status, (hand_typed _ _ HT)).
  all: try match goal with H : h_bound _ = true |- _ => apply (hand_resolved _ _ HT) in H end.
  - pose proof (tables_close hd sim (set_status RejectedBySimulator (h_event hd)) HT) as HC.
    unfold put_back in HC. autorewrite with event in HC. apply HC; apply Hst || done.
  - pose proof (tables_close hd sim (set_status Dropped (h_event hd)) HT) as HC.
    unfold put_back in HC. autorewrite with event in HC. apply HC; apply Hst || done.
  - pose proof (tables_close hd sim (set_deliver_at to (set_status Scheduled (h_event hd))) HT) as HC.
    unfold put_back, event_key in HC. autorewrite with event in HC.
    apply HC; try done. by apply typed_set_deliver_at.
  - pose proof (tables_close hd sim (set_status Blocked (h_event hd)) HT) as HC.
    unfold put_back in HC. autorewrite with event in HC. apply HC; try done.
    intros _ Hopen. eapply blocked_not_open; [done|].
    unfold path_open in *. by autorewrite with event in Hopen.
  - pose proof (tables_close hd sim (set_status Expired (h_event hd)) HT) as HC.
    unfold put_back in HC. autorewrite with event in HC. apply HC; apply Hst || done.
  - pose proof (tables_close hd sim (set_status Delivered (h_event hd)) HT) as HC.
    unfold put_back in HC. autorewrite with event in HC.
    eapply tables_inbox in HC; [exact HC|apply Hst || done..].
Qed.

Lemma tables_mstep a b : mstep digest a b -> tables a.1 a.2 -> tables b.1 b.2.
Proof.
  destruct a as [[hd|] sim], b as [[hd'|] sim']; simpl; intros Hm HT.
  - by eapply tables_mstep_hand.
  - by eapply tables_mstep_close.
  - by eapply tables_mstep_hand.
  - by eapply (tables_mstep_idle _ _ Hm).
Qed.

Lemma tables_msteps a b : rtc (mstep digest) a b -> tables a.1 a.2 -> tables b.1 b.2.
Proof. induction 1; eauto using tables_mstep. Qed.
End steps.
