(* ===== verification/SimRuns.v ===== *)
(** Every method of the engine is a run of the machine of [SimSteps], a
    refused one leaves the network as it was, and the delivery loops end
    within the budgets the engine gives them. *)

From Stdlib Require Import ZArith Lia.
From S2P Require Import Prelude ProtocolTypes ProtocolCodec SimState SimEngine SimSteps SimTables.

(** * Setup *)

Lemma register_endpoint_fold ids m m' :
  try_fold register_endpoint m ids = Ok m' -> Forall is_u32 ids ->
  (forall id p, m !! id = Some p -> p = endpoint_new id /\ is_u32 id) ->
  forall id p, m' !! id = Some p -> p = endpoint_new id /\ is_u32 id.
Proof.
  revert m. induction ids as [|i ids IH]; intros m Hf Hids Hm; simpl in Hf; [by simplify_eq|].
  unfold register_endpoint in Hf at 1. destruct (m !! i); [done|].
  apply Forall_cons in Hids as [Hi Hids].
  apply (IH _ Hf Hids). intros id p. rewrite lookup_insert_Some. intros [[<- <-]|[_ ?]]; eauto.
Qed.

Lemma with_config_Ok config ids sim :
  with_config config ids = Ok sim -> Forall is_u32 ids ->
  exists ends lanes, sim = mkSimulator config 0 ends ∅ ∅ ∅ lanes ∅ ∅ [] 1 /\
    (forall id p, ends !! id = Some p -> p = endpoint_new id /\ is_u32 id) /\
    forall lane, lane_state sim lane = Running.
Proof.
  unfold with_config. intros Hw Hids. invert_ok. eexists _, _. split; [done|].
  split; [|by intros []].
  eapply register_endpoint_fold; [done|done|]. intros id p Hp. by rewrite lookup_empty in Hp.
Qed.

Lemma tables_init config ids sim :
  with_config config ids = Ok sim -> Forall is_u32 ids -> tables None sim.
Proof.
  intros Hw Hids. destruct (with_config_Ok _ _ _ Hw Hids) as (ends & lanes & -> & Hends & _).
  constructor; simpl; try done.
  - intros k. split; [set_solver|]. intros (e & He & _). done.
  - intros id. split; [set_solver|]. intros (e & He & _). done.
  - intros id. split; [set_solver|]. intros [(e & He & _)|[]]. done.
  - intros id p Hp. destruct (Hends id p Hp) as [-> Hu]. by split.
Qed.

Section runs.
Context (digest : list Z -> list Z).
Local Abbreviation mstep := (mstep digest).
Local Abbreviation msteps := (rtc mstep).

(** What an operation that reports a result leaves behind. *)
Definition steps_or_refuses {A} (sim : Simulator) (out : result SimError A * Simulator) : Prop :=
  match out.1 with
  | Ok _ => msteps (None, sim) (None, out.2)
  | Err _ => out.2 = sim
  end.

(** * Scheduling *)

Lemma reserve_event_id_Ok wanted sim id sim' :
  reserve_event_id wanted sim = (Ok id, sim') ->
  sim.(sim_events) !! id = None /\ id + 1 <= u64_max /\
  sim' = sim <| sim_next_event := Z.max (id + 1) sim.(sim_next_event) |>.
Proof.
  unfold reserve_event_id. destruct (sim_events sim !! _) eqn:E; [done|].
  destruct (ok_or _ _) as [next|] eqn:Hn; [|done]. intros [= <- <-].
  apply ok_or_Ok, checked_add_Some in Hn as [-> ?]. done.
Qed.

Lemma reserve_event_id_Err wanted sim e sim' : reserve_event_id wanted sim = (Err e, sim') -> sim' = sim.
Proof.
  unfold reserve_event_id. destruct (sim_events sim !! _); [by intros [= _ <-]|].
  destruct (ok_or _ _); [done|]. by intros [= _ <-].
Qed.

Lemma reserve_event_id_u64 wanted sim id sim' :
  tables None sim -> maybe is_u64 wanted -> reserve_event_id wanted sim = (Ok id, sim') -> is_u64 id.
Proof.
  intros HT Hw. unfold reserve_event_id. destruct (sim_events sim !! _); [done|].
  destruct (ok_or _ _) as [next|] eqn:Hn; [|done]. intros [= <- _].
  apply ok_or_Ok, checked_add_Some in Hn as [_ Hle].
  destruct wanted; simpl in *; [exact Hw|]. pose proof (tb_next _ _ HT). unfold fits. lia.
Qed.

Lemma check_delivery_tick_Ok sim tick u : check_delivery_tick sim tick = Ok u -> sim.(sim_now) <= tick.
Proof. unfold check_delivery_tick. intros. invert_ok. lia. Qed.

Lemma schedule_control_steps request sim :
  tables None sim -> control_request_typed request ->
  steps_or_refuses sim (schedule_control digest request sim).
Proof.
  intros HT (Hu & ? & ? & ? & ? & ?). unfold schedule_control, steps_or_refuses.
  destruct (check_route _ _ _) as [[]|] eqn:Hr; [|done].
  destruct (bool_decide _) eqn:Hb; [done|]. bool_to_prop.
  destruct (check_delivery_tick _ _) eqn:Ht; [|done]. apply check_delivery_tick_Ok in Ht.
  destruct (reserve_event_id _ _) as [[id|e] sim'] eqn:Hid; simpl;
    [|by apply reserve_event_id_Err in Hid].
  pose proof (reserve_event_id_u64 _ _ _ _ HT Hu Hid) as Hid64.
  apply reserve_event_id_Ok in Hid as (Hn & Hle & ->). apply rtc_once.
  match goal with |- SimSteps.mstep _ _ (None, insert_scheduled ?e _ _) =>
    apply (m_schedule digest sim e); try assumption end; [done..|].
  assert (is_u32 0) by by vm_compute. solve_typed.
Qed.

Lemma schedule_asset_steps request sim :
  tables None sim -> asset_request_typed request ->
  steps_or_refuses sim (schedule_asset request sim).
Proof.
  intros HT (Hu & ? & ? & ? & ? & ? & ?). unfold schedule_asset, steps_or_refuses.
  destruct (check_route _ _ _) as [[]|] eqn:Hr; [|done].
  destruct (ar_amount request =? 0) eqn:Hb; [done|]. bool_to_prop.
  destruct (check_delivery_tick _ _) eqn:Ht; [|done]. apply check_delivery_tick_Ok in Ht.
  destruct (reserve_event_id _ _) as [[id|e] sim'] eqn:Hid; simpl;
    [|by apply reserve_event_id_Err in Hid].
  pose proof (reserve_event_id_u64 _ _ _ _ HT Hu Hid) as Hid64.
  apply reserve_event_id_Ok in Hid as (Hn & Hle & ->). apply rtc_once.
  match goal with |- SimSteps.mstep _ _ (None, insert_scheduled ?e _ _) =>
    apply (m_schedule digest sim e); try assumption end; [done..|].
  assert (is_u32 0) by by vm_compute. solve_typed.
Qed.

(** * The clock, faults, endpoints and lanes *)

Lemma advance_to_steps target sim : is_u64 target -> steps_or_refuses sim (advance_to target sim).
Proof.
  intros Hu. unfold advance_to, steps_or_refuses. destruct (target <? sim_now sim) eqn:E; [done|].
  destruct (target =? sim_now sim) eqn:E'; [apply rtc_refl|]. bool_to_prop.
  apply rtc_once, m_time; [lia|exact Hu].
Qed.

Lemma tick_checked_add_u64 t n t' : is_u64 t -> 0 <= n -> tick_checked_add t n = Some t' -> is_u64 t'.
Proof. intros [? ?] Hn [-> ?]%checked_add_Some. split; lia. Qed.

Lemma advance_by_steps ticks sim :
  tables None sim -> is_u64 ticks -> steps_or_refuses sim (advance_by ticks sim).
Proof.
  intros HT [? ?]. unfold advance_by. destruct (ok_or _ _) as [t|] eqn:E; [|done].
  apply ok_or_Ok in E. apply advance_to_steps.
  eapply tick_checked_add_u64; [apply (tb_now _ _ HT)| |exact E]. lia.
Qed.

Lemma add_fault_steps fault sim : fault_typed fault -> steps_or_refuses sim (add_fault fault sim).
Proof.
  intros Ht. unfold add_fault, steps_or_refuses. destruct (check_fault sim fault) as [[]|] eqn:E; [|done].
  by apply rtc_once, m_fault.
Qed.

Lemma add_endpoint_steps id sim : is_u32 id -> steps_or_refuses sim (add_endpoint id sim).
Proof.
  intros Hu. unfold add_endpoint, steps_or_refuses. destruct (sim_endpoints sim !! id) eqn:E; [done|].
  by apply rtc_once, m_endpoint.
Qed.

Lemma halt_endpoint_steps id sim : steps_or_refuses sim (halt_endpoint id sim).
Proof.
  unfold halt_endpoint, steps_or_refuses. destruct (sim_endpoints sim !! id) eqn:E; [|done].
  by apply rtc_once, m_halt.
Qed.

Lemma resume_endpoint_steps id sim : steps_or_refuses sim (resume_endpoint id sim).
Proof.
  unfold resume_endpoint, steps_or_refuses.
  destruct (sim_endpoints sim !! id) as [p|] eqn:E; [|done].
  pose proof (m_resume digest sim id p E) as Hm. simpl in Hm. simpl.
  destruct (release_held _) as [n sim']. by apply rtc_once.
Qed.

Lemma resume_lane_steps lane sim : msteps (None, sim) (None, resume_lane lane sim).
Proof.
  unfold resume_lane. pose proof (m_resume_lane digest sim lane) as Hm. simpl in Hm.
  destruct (release_held _) as [n sim']. by apply rtc_once.
Qed.

(** * Reordering *)

Lemma pending_key_Ok sim id k :
  tables None sim -> pending_key sim id = Ok k ->
  k ∈ sim.(sim_queue) /\ k.(qk_event) = id /\ is_Some (sim.(sim_events) !! id) /\
  is_u64 k.(qk_deliver_at).
Proof.
  intros HT. unfold pending_key. destruct (sim_events sim !! id) eqn:E; [|done].
  intros [Hk <-]%ok_or_Ok%queue_find_Some. split_and!; [done..|by eexists|].
  apply (tb_queue _ _ HT) in Hk as (e' & He & _ & _ & ->).
  by apply typed_deliver_at, (tb_typed _ _ HT _ _ He).
Qed.

Lemma move_to_steps sim k t :
  k ∈ sim.(sim_queue) -> is_Some (sim.(sim_events) !! k.(qk_event)) -> is_u64 t ->
  msteps (None, sim) (None, move_to k t sim).
Proof.
  intros Hk [e He] Hu. unfold move_to. destruct (Z.eqb_spec (qk_deliver_at k) t); [apply rtc_refl|].
  simpl. rewrite He. rewrite lane_set_deliver_at. by apply rtc_once, m_move.
Qed.

(** Another event keeps its key while one is moved. *)
Lemma move_to_other sim k k' t :
  k' ∈ sim.(sim_queue) -> k'.(qk_event) <> k.(qk_event) ->
  is_Some (sim.(sim_events) !! k'.(qk_event)) ->
  k' ∈ (move_to k t sim).(sim_queue) /\ is_Some ((move_to k t sim).(sim_events) !! k'.(qk_event)).
Proof.
  intros Hk Hne Hs. unfold move_to. destruct (_ =? _); [done|]. simpl.
  destruct (sim_events sim !! qk_event k) eqn:E; simpl.
  - split; [set_solver|]. by rewrite lookup_insert_ne.
  - split; [set_solver|done].
Qed.

Lemma tables_key_unique sim k k' :
  tables None sim -> k ∈ sim.(sim_queue) -> k' ∈ sim.(sim_queue) ->
  k.(qk_event) = k'.(qk_event) -> k = k'.
Proof.
  intros HT (e & He & _ & _ & ->)%(tb_queue _ _ HT) (e' & He' & _ & _ & ->)%(tb_queue _ _ HT) Heq.
  rewrite Heq in He. by simplify_eq.
Qed.

Lemma swap_delivery_ticks_steps l r sim :
  tables None sim -> steps_or_refuses sim (swap_delivery_ticks l r sim).
Proof.
  intros HT. unfold swap_delivery_ticks, steps_or_refuses.
  destruct (pending_key sim l) as [kl|] eqn:El; [|done].
  destruct (pending_key sim r) as [kr|] eqn:Er; [|done]. simpl.
  apply pending_key_Ok in El as (Hl & Hle & Hls & Hlu); [|done].
  apply pending_key_Ok in Er as (Hr & Hre & Hrs & Hru); [|done].
  subst. transitivity (@None Hand, move_to kl (qk_deliver_at kr) sim); [by apply move_to_steps|].
  destruct (decide (qk_event kr = qk_event kl)) as [Heq|Hne].
  - assert (kr = kl) as -> by by eapply tables_key_unique.
    unfold move_to. rewrite !Z.eqb_refl. apply rtc_refl.
  - destruct (move_to_other sim kl kr (qk_deliver_at kr)) as [Hin Hs]; try done.
    exact (move_to_steps _ kr (qk_deliver_at kl) Hin Hs Hlu).
Qed.

Lemma move_before_steps event other sim :
  tables None sim -> steps_or_refuses sim (move_before event other sim).
Proof.
  intros HT. unfold move_before, steps_or_refuses.
  destruct (pending_key sim event) as [k|] eqn:E; [|done].
  destruct (pending_key sim other) as [a|] eqn:Ea; [|done]. simpl.
  apply pending_key_Ok in E as (? & <- & ? & _); [|done].
  apply pending_key_Ok in Ea as (_ & _ & _ & Hu); [|done]. apply move_to_steps; [done..|].
  pose proof (tb_now _ _ HT) as Hn. unfold saturating_sub, fits in *. lia.
Qed.

Lemma move_after_steps event other sim :
  tables None sim -> steps_or_refuses sim (move_after event other sim).
Proof.
  intros HT. unfold move_after, steps_or_refuses.
  destruct (pending_key sim event) as [k|] eqn:E; [|done].
  destruct (pending_key sim other) as [a|] eqn:Ea; [|done].
  destruct (ok_or _ _) as [t|] eqn:Et; [|done]. simpl.
  apply pending_key_Ok in E as (? & <- & ? & _); [|done].
  apply pending_key_Ok in Ea as (_ & _ & _ & Hu); [|done]. apply move_to_steps; [done..|].
  apply ok_or_Ok in Et. eapply tick_checked_add_u64; [exact Hu| |exact Et]. lia.
Qed.
End runs.
