(* ===== verification/SimAttempt.v ===== *)
(** A delivery attempt is a run of the machine: the fault passes of
    [compose] bend the event in hand within the rules the batch check
    enforces, and the attempt then puts it back. *)

From Stdlib Require Import ZArith Lia.
From S2P Require Import Prelude ProtocolTypes ProtocolCodec SimState SimEngine SimSteps SimTables.
From S2P Require Import SimRuns.

(** What the content checks read of an event. *)
Definition same_load (e e' : Event) : Prop :=
  match e, e' with
  | EvControl c, EvControl c' => c'.(ce_bytes) = c.(ce_bytes) /\ c'.(ce_mutation) = c.(ce_mutation)
  | EvAsset a, EvAsset a' => a'.(ae_requested) = a.(ae_requested)
  | _, _ => False
  end.

Lemma same_load_refl e : same_load e e.
Proof. by destruct e. Qed.

Lemma same_load_destination e e' to : same_load e e' -> same_load e (set_destination to e').
Proof. by destruct e, e'. Qed.

Lemma check_action_load sim e e' action :
  same_load e e' -> check_action sim action e = None -> check_action sim action e' = None.
Proof.
  unfold check_action. intros Hl. destruct action; try done; destruct e, e'; simpl in *; try done.
  - by destruct Hl as [-> ->].
  - by rewrite Hl.
  - by rewrite Hl.
  - by rewrite Hl.
Qed.

Lemma check_action_endpoints sim sim' e action :
  sim'.(sim_endpoints) = sim.(sim_endpoints) ->
  check_action sim' action e = check_action sim action e.
Proof. intros He. unfold check_action. by rewrite He. Qed.

Section attempt.
Context (digest : list Z -> list Z).
Local Abbreviation mstep := (mstep digest).

(** The steps of an attempt after the event was picked. *)
Definition hstep (a b : Config) : Prop := is_Some a.1 /\ mstep a b.

Local Abbreviation hsteps := (rtc hstep).

Lemma h_once hd sim b : mstep (Some hd, sim) b -> hstep (Some hd, sim) b.
Proof. intros. split; [by eexists|done]. Qed.

Lemma hsteps_msteps a b : hsteps a b -> rtc mstep a b.
Proof. intros Hs. induction Hs as [|? ? ? [_ ?]]; [done|by eapply rtc_l]. Qed.

Lemma tables_hsteps a b : hsteps a b -> tables a.1 a.2 -> tables b.1 b.2.
Proof. intros Hs. apply (tables_msteps digest). by apply hsteps_msteps. Qed.

(** Only the counter of a network moves when an identifier is taken. *)
Lemma take_generated_frame sim id sim' :
  take_generated_id sim = Some (id, sim') -> exists n, sim' = sim <| sim_next_event := n |>.
Proof.
  unfold take_generated_id. generalize (S (size (sim_events sim))) (sim_next_event sim).
  intros fuel. induction fuel as [|fuel IH]; intros c; [done|]. cbn [generated_loop].
  destruct (sim_events sim !! c), (checked_add u64_max c 1); try done; [apply IH|].
  intros [= _ <-]. by eexists.
Qed.

(** An attempt leaves the plan alone. *)
Lemma hsteps_planned a b action : hsteps a b -> planned a.2 action -> planned b.2 action.
Proof.
  intros Hs. assert (Hp : sim_plan b.2 = sim_plan a.2).
  { induction Hs as [|x y z [Hx Hm] _ IH]; [done|]. rewrite IH. clear IH.
    destruct Hm; destruct Hx as [? [=]]; cbn; try done;
      try (unfold block, hand_over; cbn; by repeat case_match);
      match goal with Ht : take_generated_id _ = Some _ |- _ =>
        by apply take_generated_frame in Ht as [n ->] end. }
  unfold planned. by rewrite Hp.
Qed.

(** Steps that made events from the event in hand and changed nothing of it
    but the credit and the pieces still to make. *)
Definition made_from (hd hd' : Hand) (sim sim' : Simulator) (n : Z) : Prop :=
  hsteps (Some hd, sim) (Some hd', sim') /\ hd'.(h_event) = hd.(h_event) /\
  hd'.(h_bound) = hd.(h_bound) /\ hd'.(h_content) = hd.(h_content) /\
  hd.(h_credit) - n <= hd'.(h_credit) /\ sim'.(sim_endpoints) = sim.(sim_endpoints).

Lemma made_from_refl hd sim n : 0 <= n -> made_from hd hd sim sim n.
Proof. intros. split; [apply rtc_refl|]. split_and!; try done. lia. Qed.

Lemma made_from_step hd hd1 hd2 sim sim1 sim2 n :
  mstep (Some hd, sim) (Some hd1, sim1) -> hd1.(h_event) = hd.(h_event) ->
  hd1.(h_bound) = hd.(h_bound) -> hd1.(h_content) = hd.(h_content) ->
  hd.(h_credit) - 1 <= hd1.(h_credit) -> sim1.(sim_endpoints) = sim.(sim_endpoints) ->
  made_from hd1 hd2 sim1 sim2 n -> made_from hd hd2 sim sim2 (1 + n).
Proof.
  intros Hm ? ? ? ? ? (Hms & ? & ? & ? & ? & ?). split; [by eapply rtc_l; [apply h_once|]|].
  split_and!; try congruence. lia.
Qed.

(** A generated identifier and the network it leaves. *)
Lemma take_generated_id_endpoints h sim id sim' :
  tables h sim -> take_generated_id sim = Some (id, sim') ->
  sim'.(sim_endpoints) = sim.(sim_endpoints).
Proof. intros HT Ht. by destruct (take_generated_id_Some _ _ _ _ HT Ht) as (_ & -> & _). Qed.

Lemma capped_tick_u64 t n : is_u64 t -> 0 <= n -> is_u64 (default u64_max (tick_checked_add t n)).
Proof.
  intros Ht Hn. destruct (tick_checked_add t n) eqn:E; simpl.
  - by eapply tick_checked_add_u64.
  - unfold fits, u64_max. lia.
Qed.

Lemma spaced_tick_u64 h sim id sim' spacing index :
  tables h sim -> take_generated_id sim = Some (id, sim') -> is_u64 spacing -> 0 <= index ->
  is_u64 (spaced_tick sim' spacing index).
Proof.
  intros HT Ht [Hs _] Hi. destruct (take_generated_id_Some _ _ _ _ HT Ht) as (_ & -> & _).
  apply capped_tick_u64; [apply (tb_now _ _ HT)|]. unfold u64_max. nia.
Qed.

Lemma duplicate_loop_steps spacing indices hd sim :
  is_u64 spacing -> Forall (fun i => 0 <= i) indices ->
  hd.(h_bound) = true -> made_by_fault hd.(h_event) = false ->
  Z.of_nat (length indices) <= hd.(h_credit) -> tables (Some hd) sim ->
  exists hd', made_from hd hd' sim (duplicate_loop hd.(h_event) spacing indices sim)
    (Z.of_nat (length indices)).
Proof.
  intros Hsp. revert hd sim. induction indices as [|i indices IH]; intros hd sim Hix Hb Hm Hc HT; simpl.
  { exists hd. by apply made_from_refl. }
  destruct (take_generated_id sim) as [[id sim1]|] eqn:Ht; [|exists hd; apply made_from_refl; lia].
  simpl in Hc. apply Forall_cons in Hix as [Hi Hix].
  pose proof (take_generated_id_endpoints _ _ _ _ HT Ht) as Hend.
  pose proof (m_copy digest sim sim1 hd id (spaced_tick sim1 spacing i) Hb ltac:(lia) Hm Ht
    (spaced_tick_u64 _ _ _ _ _ _ HT Ht Hsp Hi)) as Hstep.
  cbv zeta in Hstep. set (hd1 := hd <| h_credit ::= Z.pred |>) in Hstep.
  match type of Hstep with SimSteps.mstep _ _ (_, ?s) => set (sim2 := s) in Hstep end.
  assert (tables (Some hd1) sim2) as HT1 by exact (tables_mstep _ _ _ Hstep HT).
  destruct (IH hd1 sim2) as [hd2 H2]; [done..|simpl; lia|done|].
  exists hd2. replace (Z.of_nat (S (length indices))) with (1 + Z.of_nat (length indices)) by lia.
  eapply made_from_step; [exact Hstep|try done; simpl; lia..|exact H2].
Qed.

Lemma split_loop_steps a spacing position pieces hd sim :
  is_u64 spacing -> 0 <= position ->
  hd.(h_bound) = true -> hd.(h_event) = EvAsset a -> made_by_fault hd.(h_event) = false ->
  hd.(h_pending) = pieces -> Z.of_nat (length pieces) <= hd.(h_credit) -> tables (Some hd) sim ->
  exists hd', made_from hd hd' sim (split_loop a spacing position pieces sim)
    (Z.of_nat (length pieces)).
Proof.
  intros Hsp. revert position hd sim.
  induction pieces as [|amount pieces IH]; intros position hd sim Hpos Hb He Hm Hp Hc HT; simpl.
  { exists hd. by apply made_from_refl. }
  destruct (take_generated_id sim) as [[id sim1]|] eqn:Ht; [|exists hd; apply made_from_refl; lia].
  simpl in Hc. assert (is_u16 (Z.min u16_max position)) as Hix by (unfold fits, u16_max; lia).
  pose proof (take_generated_id_endpoints _ _ _ _ HT Ht) as Hend.
  pose proof (m_piece digest sim sim1 hd a amount pieces id (Z.min u16_max position)
    (spaced_tick sim1 spacing (Z.min u16_max position)) Hb He Hp ltac:(lia) Hm Ht
    (spaced_tick_u64 _ _ _ _ _ _ HT Ht Hsp (proj1 Hix)) Hix) as Hstep.
  cbv zeta in Hstep. set (hd1 := hd <| h_pending := pieces |> <| h_credit ::= Z.pred |>) in Hstep.
  match type of Hstep with SimSteps.mstep _ _ (_, ?s) => set (sim2 := s) in Hstep end.
  assert (tables (Some hd1) sim2) as HT1 by exact (tables_mstep _ _ _ Hstep HT).
  destruct (IH (position + 1) hd1 sim2) as [hd2 H2]; [lia|done..|simpl; lia|done|].
  exists hd2. replace (Z.of_nat (S (length pieces))) with (1 + Z.of_nat (length pieces)) by lia.
  eapply made_from_step; [exact Hstep|try done; simpl; lia..|exact H2].
Qed.

(** ** The fault passes *)

(** What a fault pass needs of the event in hand, relative to the event the
    batch was checked on and the groups applied so far. *)
Record passing (orig : Event) (groups : list ExclusionGroup) (hd : Hand) : Prop := {
  pg_bound : hd.(h_bound) = true;
  pg_made : made_by_fault hd.(h_event) = made_by_fault orig;
  pg_content : hd.(h_content) = true -> GroupContent ∈ groups;
  pg_load : hd.(h_content) = false -> same_load orig hd.(h_event);
  pg_kind : event_lane hd.(h_event) = event_lane orig;
  pg_id : event_id hd.(h_event) = event_id orig
}.

Lemma passing_keep orig groups g hd hd' :
  passing orig groups hd -> hd'.(h_bound) = hd.(h_bound) ->
  event_core hd'.(h_event) = event_core hd.(h_event) -> hd'.(h_content) = hd.(h_content) ->
  (same_load orig hd.(h_event) -> same_load orig hd'.(h_event)) ->
  passing orig (groups ++ [g]) hd'.
Proof.
  intros [Hb Hm Hc Hl Hk Hi] Hb' Hcore Hc' Hload.
  pose proof (core_id _ _ Hcore). pose proof (core_lane _ _ Hcore). pose proof (core_made _ _ Hcore).
  split; try congruence; rewrite Hc'; [|by auto].
  intros. apply elem_of_app. left. auto.
Qed.

Lemma passing_content orig groups hd hd' :
  passing orig groups hd -> hd'.(h_bound) = hd.(h_bound) ->
  event_core hd'.(h_event) = event_core hd.(h_event) -> hd'.(h_content) = true ->
  passing orig (groups ++ [GroupContent]) hd'.
Proof.
  intros [Hb Hm Hc Hl Hk Hi] Hb' Hcore Hc'.
  pose proof (core_id _ _ Hcore). pose proof (core_lane _ _ Hcore). pose proof (core_made _ _ Hcore).
  split; try congruence. intros _. apply elem_of_app. right. by apply list_elem_of_singleton.
Qed.

(** One fault pass as steps of the machine. *)
Definition pass_done (orig : Event) (groups : list ExclusionGroup) (action : FaultAction)
    (hd : Hand) (sim : Simulator) (e : Event) (sim' : Simulator) : Prop :=
  exists hd', hsteps (Some hd, sim) (Some hd', sim') /\ hd'.(h_event) = e /\
    passing orig (groups ++ [action_group action]) hd' /\
    hd.(h_credit) - action_fanout action <= hd'.(h_credit) /\
    sim'.(sim_endpoints) = sim.(sim_endpoints).

(** A pass that only leaves a record, or nothing at all. *)
Lemma pass_note orig groups action hd sim fault effect :
  passing orig groups hd -> 0 <= action_fanout action -> (forall to, effect <> EffRerouted to) ->
  pass_done orig groups action hd sim hd.(h_event)
    (record_effect fault (event_id hd.(h_event)) effect sim).
Proof.
  intros Hp Hf He. exists hd. split; [by apply rtc_once, h_once, m_note; [apply Hp|]|]. split_and!; try done; [|lia].
  by eapply passing_keep.
Qed.

Lemma pass_nothing orig groups action hd sim :
  passing orig groups hd -> 0 <= action_fanout action ->
  pass_done orig groups action hd sim hd.(h_event) sim.
Proof.
  intros Hp Hf. exists hd. split; [apply rtc_refl|]. split_and!; try done; [|lia].
  by eapply passing_keep.
Qed.

Lemma pass_reroute orig groups hd sim fault to :
  passing orig groups hd -> is_Some (sim.(sim_endpoints) !! to) -> planned sim (ReplaceDestination to) ->
  pass_done orig groups (ReplaceDestination to) hd sim (set_destination to hd.(h_event))
    (record_effect fault (event_id hd.(h_event)) (EffRerouted to) sim).
Proof.
  intros Hp [p Hto] Hpl. exists (hd <| h_event ::= set_destination to |>).
  split; [apply rtc_once, h_once; by eapply m_reroute; [apply Hp|..]|].
  split_and!; try done; [|simpl; lia].
  apply (passing_keep _ _ _ hd); try done; simpl; [by autorewrite with event|].
  by apply same_load_destination.
Qed.

Lemma pass_duplicate orig groups hd sim fault copies spacing :
  passing orig groups hd -> tables (Some hd) sim -> made_by_fault orig = false ->
  is_u64 spacing ->
  action_fanout (Duplicate copies spacing) <= hd.(h_credit) ->
  pass_done orig groups (Duplicate copies spacing) hd sim hd.(h_event)
    (duplicate fault hd.(h_event) copies spacing sim).
Proof.
  intros Hp HT Hm Hsp Hfan. pose proof (pg_bound _ _ _ Hp) as Hb.
  pose proof (m_note digest sim hd fault (EffDuplicated copies) Hb ltac:(done)) as Hstep.
  destruct (duplicate_loop_steps spacing (seqZ 1 copies) hd
    (record_effect fault (event_id (h_event hd)) (EffDuplicated copies) sim))
    as (hd' & Hms & He & Hb' & Hc' & Hcr & Hend); try assumption.
  { apply Forall_forall. intros i [? ?]%elem_of_seqZ. lia. }
  { by rewrite (pg_made _ _ _ Hp). }
  { exact (tables_mstep _ _ _ Hstep HT). }
  exists hd'. split; [by eapply rtc_l; [apply h_once|]|]. split_and!; try done.
  apply (passing_keep _ _ _ hd); try done; congruence.
Qed.

Lemma pass_corrupt orig groups hd sim c fault offset mask :
  passing orig groups hd -> hd.(h_content) = false -> hd.(h_event) = EvControl c ->
  is_u64 offset -> is_u8 mask -> planned sim (CorruptByte offset mask) ->
  check_action sim (CorruptByte offset mask) (EvControl c) = None ->
  let out := corrupt digest fault (EvControl c) offset mask sim in
  pass_done orig groups (CorruptByte offset mask) hd sim out.1 out.2.
Proof.
  intros Hp Hc He Hou Hmu Hpl Hchk. simpl in *.
  destruct (mask =? 0) eqn:Hmask; [done|]. bool_to_prop.
  destruct (bool_decide _) eqn:Hmut; [done|]. bool_to_prop.
  destruct (ce_bytes c !! Z.to_nat offset) as [from|] eqn:Hby; [|rewrite <-He; by apply pass_nothing].
  assert (ce_mutation c = None) as Hmn by (destruct (ce_mutation c); [by destruct Hmut|done]).
  rewrite Hmn. cbn [fst snd].
  eexists. split; [apply rtc_once, h_once; by eapply m_corrupt; [apply Hp|..]|].
  split_and!; try done; [|simpl; lia].
  apply (passing_content _ _ hd); try done. simpl. by rewrite He.
Qed.

Lemma pass_amount orig groups hd sim a fault action amount over :
  passing orig groups hd -> hd.(h_content) = false -> hd.(h_event) = EvAsset a ->
  action_group action = GroupContent -> action_fanout action = 0 -> is_u128 amount ->
  (over = true -> a.(ae_requested) < amount) ->
  (over = false -> amount <> 0 /\ amount <= a.(ae_requested)) ->
  pass_done orig groups action hd sim (set_delivered amount over (EvAsset a))
    (record_effect fault a.(ae_id) (EffAmountSet amount) sim).
Proof.
  intros Hp Hc He Hg Hf Hu Hov Hpart.
  eexists. split; [apply rtc_once, h_once; by eapply m_amount; [apply Hp|..]|].
  split_and!; try done; [|simpl; lia].
  rewrite Hg. apply (passing_content _ _ hd); try done. simpl. by rewrite He.
Qed.

Lemma pass_split orig groups hd sim a fault pieces spacing :
  passing orig groups hd -> tables (Some hd) sim -> hd.(h_content) = false ->
  hd.(h_event) = EvAsset a -> made_by_fault orig = false ->
  Forall is_u128 pieces -> is_u64 spacing -> check_action sim (Split pieces spacing) (EvAsset a) = None ->
  action_fanout (Split pieces spacing) <= hd.(h_credit) ->
  let out := split fault (EvAsset a) pieces spacing sim in
  pass_done orig groups (Split pieces spacing) hd sim out.1 out.2.
Proof.
  intros Hp HT Hc He Hm Hpu Hsp Hchk Hfan. simpl in *.
  destruct pieces as [|first rest]; [done|]. rewrite bool_decide_false in Hchk by done.
  destruct (has_zero_piece _) eqn:Hz; [done|].
  destruct (sum_pieces _) as [total|] eqn:Hsum; [|done].
  unfold then_some in Hchk. destruct (Z.ltb_spec (ae_requested a) total); [done|].
  pose proof (m_split digest sim hd a fault first rest total (pg_bound _ _ _ Hp) Hc He Hz Hsum
    ltac:(lia) Hpu ltac:(by rewrite (pg_made _ _ _ Hp))) as Hstep.
  set (a1 := a <| ae_delivered := first |> <| ae_piece := Some 0 |>) in *.
  set (hd1 := hd <| h_content := true |> <| h_pending := rest |> <| h_event := EvAsset a1 |>) in *.
  match type of Hstep with SimSteps.mstep _ _ (_, ?s) => set (sim1 := s) in * end.
  destruct (split_loop_steps a1 spacing 1 rest hd1 sim1)
    as (hd' & Hms & He' & Hb' & Hc' & Hcr & Hend); try assumption; try done.
  { by apply Hp. }
  { simpl. transitivity (made_by_fault (EvAsset a)); [done|]. by rewrite <-He, (pg_made _ _ _ Hp). }
  { simpl in *. lia. }
  { exact (tables_mstep _ _ _ Hstep HT). }
  exists hd'. split; [by eapply rtc_l; [apply h_once|]|]. split_and!; try done; [|simpl in *; lia].
  apply (passing_content _ _ hd); try done; rewrite He'; simpl; by rewrite He.
Qed.

Lemma apply_fault_steps orig groups hd sim dl dr fault :
  passing orig groups hd -> tables (Some hd) sim ->
  check_action sim fault.(f_action) orig = None ->
  action_group fault.(f_action) ∉ groups ->
  (made_by_fault orig = true -> creates_events fault.(f_action) = false) ->
  action_fanout fault.(f_action) <= hd.(h_credit) -> fault_typed fault ->
  planned sim fault.(f_action) ->
  let p := apply_fault digest (mkPassing hd.(h_event) sim dl dr) fault in
  pass_done orig groups fault.(f_action) hd sim p.(ps_event) p.(ps_sim).
Proof.
  intros Hp HT Hchk Hgrp Hcre Hfan (_ & _ & Hty) Hpl p.
  assert (action_group (f_action fault) = GroupContent -> h_content hd = false) as Hfresh.
  { intros Hg. destruct (h_content hd) eqn:E; [|done]. rewrite Hg in Hgrp.
    by apply (pg_content _ _ _ Hp) in E. }
  pose proof (fun Hc => check_action_load _ _ _ _ (pg_load _ _ _ Hp Hc) Hchk) as Hchk'.
  assert (creates_events (f_action fault) = true -> made_by_fault orig = false) as Hnew.
  { intros Hc. destruct (made_by_fault orig); [|done]. rewrite Hcre in Hc by done. done. }
  subst p. destruct fault as [fid target action]. simpl in *.
  destruct action as [ticks| |copies spacing|to|offset mask|amount|pieces spacing|amount].
  - by apply pass_note.
  - by apply pass_note.
  - destruct Hty. apply pass_duplicate; auto.
  - simpl. rewrite id_set_destination. apply pass_reroute; [done| |done].
    unfold check_action, then_some in Hchk. case_bool_decide as Hto; [done|].
    by apply not_eq_None_Some.
  - specialize (Hfresh eq_refl). specialize (Hchk' Hfresh).
    destruct (h_event hd) as [c|a] eqn:Hev.
    + destruct Hty as [Ho Hmk].
      pose proof (pass_corrupt _ _ _ _ _ fid _ _ Hp Hfresh Hev Ho Hmk Hpl Hchk') as Hd.
      cbn [apply_fault f_action f_id]. by destruct (corrupt _ _ _ _ _ _).
    + simpl. rewrite <-Hev. by apply pass_nothing.
  - specialize (Hfresh eq_refl). specialize (Hchk' Hfresh).
    destruct (h_event hd) as [c|a] eqn:Hev; simpl.
    + pose proof (pass_note _ _ (Partial amount) hd sim fid (EffAmountSet amount) Hp ltac:(done) ltac:(done)) as Hn.
      by rewrite Hev in Hn.
    + simpl in Hchk'. destruct (Z.eqb_spec amount 0); [done|].
      unfold then_some in Hchk'. destruct (Z.ltb_spec (ae_requested a) amount); [done|].
      by apply pass_amount.
  - specialize (Hfresh eq_refl). specialize (Hchk' Hfresh).
    destruct (h_event hd) as [c|a] eqn:Hev.
    + simpl. rewrite <-Hev. apply pass_nothing; [done|]. simpl. lia.
    + destruct Hty as [Hpu Hsp].
      pose proof (pass_split _ _ _ _ _ fid _ _ Hp HT Hfresh Hev ltac:(auto) Hpu Hsp Hchk' Hfan) as Hd.
      cbn [apply_fault f_action f_id]. by destruct (split _ _ _ _ _).
  - specialize (Hfresh eq_refl). specialize (Hchk' Hfresh).
    destruct (h_event hd) as [c|a] eqn:Hev; simpl.
    + pose proof (pass_note _ _ (OverDeliver amount) hd sim fid (EffAmountSet amount) Hp ltac:(done) ltac:(done)) as Hn.
      by rewrite Hev in Hn.
    + simpl in Hchk'. unfold then_some in Hchk'.
      destruct (Z.leb_spec amount (ae_requested a)); [done|]. by apply pass_amount.
Qed.

Lemma apply_fault_delayed e sim dl dr fault :
  maybe is_u64 dl -> is_u64 sim.(sim_now) -> fault_typed fault ->
  maybe is_u64 (apply_fault digest (mkPassing e sim dl dr) fault).(ps_delayed).
Proof.
  intros Hdl Hn (_ & _ & Hty). unfold apply_fault. destruct (f_action fault) eqn:E; try exact Hdl.
  - apply capped_tick_u64; [exact Hn|apply Hty].
  - by destruct (corrupt _ _ _ _ _ _).
  - by destruct (split _ _ _ _ _).
Qed.

Lemma action_fanout_nonneg action : 0 <= action_fanout action.
Proof. destruct action; simpl; lia. Qed.

Lemma batch_fanout_nonneg batch : 0 <= batch_fanout batch.
Proof. apply lsum_nonneg. intros. apply action_fanout_nonneg. Qed.

(** The passes of a whole batch that was checked. *)
Lemma apply_faults_steps orig sim0 batch groups hd sim dl dr :
  check_batch_from sim0 orig groups batch = None ->
  sim.(sim_endpoints) = sim0.(sim_endpoints) ->
  (forall fault, fault ∈ batch -> made_by_fault orig = true -> creates_events fault.(f_action) = false) ->
  (forall fault, fault ∈ batch -> fault_typed fault) ->
  (forall fault, fault ∈ batch -> planned sim fault.(f_action)) ->
  batch_fanout batch <= hd.(h_credit) -> passing orig groups hd -> tables (Some hd) sim ->
  maybe is_u64 dl ->
  let p := foldl (apply_fault digest) (mkPassing hd.(h_event) sim dl dr) batch in
  exists hd', hsteps (Some hd, sim) (Some hd', p.(ps_sim)) /\ hd'.(h_event) = p.(ps_event) /\
    hd'.(h_bound) = true /\ event_id hd'.(h_event) = event_id orig /\ maybe is_u64 p.(ps_delayed).
Proof.
  revert groups hd sim dl dr.
  induction batch as [|fault batch IH]; intros groups hd sim dl dr Hchk Hend Hcre Hty Hpl Hfan Hp HT Hdl p.
  { exists hd. split; [apply rtc_refl|]. split_and!; [done|apply Hp..|exact Hdl]. }
  subst p. simpl in Hchk. case_bool_decide as Hgrp; [done|].
  destruct (check_action sim0 _ _) eqn:Hact; [done|].
  unfold batch_fanout in Hfan. rewrite lsum_cons in Hfan.
  pose proof (batch_fanout_nonneg batch) as Hnn. unfold batch_fanout in Hnn.
  destruct (apply_fault_steps orig groups hd sim dl dr fault) as (hd1 & Hms & He & Hp1 & Hcr & Hend1); try done.
  { by rewrite (check_action_endpoints sim0). }
  { apply Hcre. left. }
  { lia. }
  { apply Hty. left. }
  { apply Hpl. left. }
  pose proof (apply_fault_delayed (h_event hd) sim dl dr fault Hdl (tb_now _ _ HT)
    (Hty fault ltac:(left))) as Hdl1.
  cbn [foldl].
  destruct (apply_fault digest (mkPassing (h_event hd) sim dl dr) fault) as [e1 sim1 dl1 dr1] eqn:E.
  simpl in *. subst e1.
  destruct (IH (groups ++ [action_group (f_action fault)]) hd1 sim1 dl1 dr1) as (hd2 & Hms2 & ? & ? & ? & ?); try done.
  - congruence.
  - intros f Hf. apply Hcre. by right.
  - intros f Hf. apply Hty. by right.
  - intros f Hf. apply (hsteps_planned _ _ _ Hms). apply Hpl. by right.
  - unfold batch_fanout. lia.
  - exact (tables_hsteps _ _ Hms HT).
  - exists hd2. split_and!; try done. by transitivity (Some hd1, sim1).
Qed.

Lemma plan_iter_elem sim f :
  f ∈ plan_iter sim.(sim_plan) -> exists id, sim.(sim_plan) !! id = Some f.
Proof.
  unfold plan_iter. intros ([id g] & -> & Hin)%list_elem_of_fmap. exists id.
  by apply elem_of_btree_iter in Hin.
Qed.

Lemma pending_in_plan sim e f :
  f ∈ pending_faults sim e -> exists id, sim.(sim_plan) !! id = Some f.
Proof.
  intros [_ Hf]%list_elem_of_filter. unfold plan_matching in Hf.
  rewrite merge_sort_Permutation in Hf. apply list_elem_of_filter in Hf as [_ Hf].
  by apply plan_iter_elem.
Qed.

Lemma pending_typed h sim e f : tables h sim -> f ∈ pending_faults sim e -> fault_typed f.
Proof.
  intros HT [id Hid]%pending_in_plan. by apply (tb_plan _ _ HT _ _ Hid).
Qed.

(** [compose] as steps: it binds the event to its batch at the first
    attempt, and what it decides needs a bound event. *)
Lemma compose_steps e sim :
  let hd := mkHand e false false [] 0 in
  tables (Some hd) sim ->
  let '(outcome, e', sim') := compose digest e sim in
  exists hd', hsteps (Some hd, sim) (Some hd', sim') /\ hd'.(h_event) = e' /\
    (outcome <> Proceed -> hd'.(h_bound) = true) /\ event_id e' ∈ sim'.(sim_resolved) /\
    event_id e' = event_id e /\ (forall to, outcome = OutDelayed to -> is_u64 to).
Proof.
  intros hd HT. unfold compose. case_bool_decide as Hres.
  { exists hd. by split_and!. }
  pose proof (m_bind digest sim e Hres) as Hbind. cbv zeta in Hbind.
  set (sim1 := sim <| sim_resolved ::= union {[ event_id e ]} |>) in *.
  set (batch := pending_faults sim1 e) in *.
  assert (tables (Some (mkHand e true false [] (batch_fanout batch))) sim1) as HT1
    by exact (tables_mstep _ _ _ Hbind HT).
  assert (event_id e ∈ sim_resolved sim1) as Hin by (simpl; set_solver).
  case_bool_decide.
  { eexists. split; [by apply rtc_once, h_once|]. done. }
  destruct (check_batch sim1 batch e) as [[fault reason]|] eqn:Hchk.
  { exists (mkHand e true false [] (batch_fanout batch)). split; [|done].
    eapply rtc_l; [exact (h_once _ _ _ Hbind)|]. by apply rtc_once, h_once, (m_refuse digest sim1 (mkHand e true _ _ _)). }
  destruct (apply_faults_steps e sim1 batch [] (mkHand e true false [] (batch_fanout batch)) sim1
    None None Hchk eq_refl) as (hd' & Hms & He & Hb & Hid & Hdl); try done.
  { intros f Hf Hmade. unfold batch, pending_faults in Hf. apply list_elem_of_filter in Hf as [Hf _].
    rewrite Hmade in Hf. by destruct (creates_events (f_action f)). }
  { intros f Hf. eapply pending_typed; [exact HT1|exact Hf]. }
  { intros f Hf. apply pending_in_plan in Hf as [id Hid]. by exists id, f. }
  { split; try done. intros _. apply same_load_refl. }
  simpl in Hms, He.
  assert (event_id (h_event hd') ∈ sim_resolved
    (ps_sim (foldl (apply_fault digest) (mkPassing e sim1 None None) batch))) as Hres'.
  { apply (hand_resolved _ _ (tables_hsteps _ _ Hms HT1) Hb). }
  rewrite He in Hres', Hid. pose proof (rtc_l _ _ _ _ (h_once _ _ _ Hbind) Hms) as Hall.
  destruct (foldl (apply_fault digest) _ batch) as [e' sim' dl dr]. simpl in *.
  destruct dr, dl; exists hd'; split_and!; try done. by intros ? [= <-].
Qed.

(** What is left of the attempt puts the event back. *)
Lemma finish_attempt_steps hd sim :
  tables (Some hd) sim -> event_id hd.(h_event) ∈ sim.(sim_resolved) ->
  mstep (Some hd, sim) (None, finish_attempt (event_id hd.(h_event)) hd.(h_event) sim).
Proof.
  intros HT Hres. unfold finish_attempt.
  destruct (lane_state sim (event_lane (h_event hd))) eqn:Hl; simpl; [|by apply m_block].
  destruct (hand_routed _ _ HT) as (_ & _ & [p Hp]). rewrite Hp.
  unfold is_halted. destruct (ep_state p) eqn:Hs; simpl; [|apply m_block; [done|by exists p]].
  assert (path_open sim (h_event hd)) as Hopen by (split; eauto).
  pose proof (m_deliver digest sim hd Hres Hopen) as Hdel. unfold is_late in Hdel.
  destruct (event_deadline (h_event hd)) as [deadline|] eqn:Hd; [|by apply Hdel].
  destruct (deadline <? sim_now sim) eqn:Hlate; [|by apply Hdel]. bool_to_prop.
  destruct (config_policy _ _) eqn:Hpol; [by apply Hdel|by apply m_expire].
Qed.

Lemma attempt_steps sim k :
  tables None sim -> k ∈ sim.(sim_queue) -> k.(qk_deliver_at) <= sim.(sim_now) ->
  exists c, is_Some c.1 /\ mstep (None, sim) c /\
    hsteps c (None, attempt digest k.(qk_event)
      (sim <| sim_queue ::= (fun queue => queue ∖ {[ k ]}) |>)).
Proof.
  intros HT Hk Hdue. pose proof Hk as (e & He & Hs & _ & _)%(tb_queue _ _ HT).
  destruct (tb_ids _ _ HT _ _ He) as [Hid _].
  pose proof (m_pick digest sim k e Hk Hdue He) as Hpick. cbv zeta in Hpick.
  unfold attempt. simpl. rewrite He, Hs. cbn [is_terminal].
  set (e1 := set_status Ready (bump_attempts e)) in *.
  match type of Hpick with SimSteps.mstep _ _ (_, ?s) => set (sim1 := s) in * end.
  match goal with |- context [compose digest e1 ?s] => change s with sim1 end.
  assert (tables (Some (mkHand e1 false false [] 0)) sim1) as HT1
    by exact (tables_mstep _ _ _ Hpick HT).
  pose proof (compose_steps e1 sim1 HT1) as Hc.
  destruct (compose digest e1 sim1) as [[outcome e2] sim2].
  destruct Hc as (hd & Hms & He2 & Hb & Hres & Hid2 & Hto). subst e2.
  assert (tables (Some hd) sim2) as HT2 by exact (tables_hsteps _ _ Hms HT1).
  assert (qk_event k = event_id (h_event hd)) as Hid3.
  { rewrite Hid2. unfold e1. by autorewrite with event. }
  eexists. split; [|split; [exact Hpick|]]; [by eexists|].
  transitivity (Some hd, sim2); [exact Hms|]. rewrite Hid3. apply rtc_once, h_once.
  destruct outcome as [|to|fault|reason].
  - by apply finish_attempt_steps.
  - apply m_delay; [by apply Hb|by apply Hto].
  - apply m_drop, Hb. done.
  - apply m_reject, Hb. done.
Qed.

(** ** One delivery *)

Lemma deliver_next_steps sim :
  tables None sim ->
  match deliver_next digest sim with
  | (Some id, sim') =>
      (exists c, is_Some c.1 /\ mstep (None, sim) c /\ hsteps c (None, sim')) /\
      exists k, k ∈ sim.(sim_queue) /\ k.(qk_event) = id /\ k.(qk_deliver_at) <= sim.(sim_now) /\
        (forall k', k' ∈ sim.(sim_queue) -> key_before k k')
  | (None, sim') =>
      sim' = sim /\ forall k, k ∈ sim.(sim_queue) -> sim.(sim_now) < k.(qk_deliver_at)
  end.
Proof.
  intros HT. unfold deliver_next. destruct (queue_peek (sim_queue sim)) as [k|] eqn:Hpeek.
  - destruct (queue_peek_Some _ _ Hpeek) as [Hin Hmin].
    destruct (Z.ltb_spec (sim_now sim) (qk_deliver_at k)).
    + split; [done|]. intros k' Hk'. apply Hmin in Hk'. unfold key_before in Hk'. lia.
    + split; [|by exists k].
      pose proof (attempt_steps sim k HT Hin ltac:(done)) as Hms.
      replace (sim <| sim_queue ::= queue_pop |>)
        with (sim <| sim_queue ::= (fun queue => queue ∖ {[ k ]}) |>); [done|].
      unfold set_field, queue_pop. simpl. by rewrite Hpeek.
  - apply queue_peek_None in Hpeek. split; [done|]. rewrite Hpeek. set_solver.
Qed.
End attempt.
