(* ===== verification/SimLoops.v ===== *)
(** The delivery loops end.  [work] bounds the attempts the queue can still
    lead to; picking an event takes one from it and no step of an attempt
    gives it back, because a fault batch runs once and the events it makes
    run no fault that makes more. *)

From Stdlib Require Import ZArith Lia.
From S2P Require Import Prelude ProtocolTypes ProtocolCodec SimState SimEngine SimSteps SimTables.
From S2P Require Import SimRuns SimAttempt.

(** * The potential of a configuration *)

Lemma lsum_singleton_union {A} `{Countable A} (f : A -> Z) (x : A) (s : gset A) :
  x ∉ s -> lsum f (elements ({[ x ]} ∪ s)) = f x + lsum f (elements s).
Proof. intros Hx. by rewrite elements_union_singleton, lsum_cons. Qed.

Lemma lsum_delete_elem {A} `{Countable A} (f : A -> Z) (x : A) (s : gset A) :
  x ∈ s -> lsum f (elements s) = f x + lsum f (elements (s ∖ {[ x ]})).
Proof.
  intros Hx. rewrite <-lsum_singleton_union by set_solver.
  by rewrite <-union_difference_singleton_L.
Qed.

Lemma work_ext sim sim' :
  sim'.(sim_queue) = sim.(sim_queue) ->
  (forall k, k ∈ sim.(sim_queue) ->
    attempts_left sim' k.(qk_event) = attempts_left sim k.(qk_event)) ->
  work sim' = work sim.
Proof.
  intros Hq Hk. unfold work. rewrite Hq. apply lsum_ext. intros k Hin%elem_of_elements. by apply Hk.
Qed.

Lemma plan_fanout_nonneg plan : 0 <= plan_fanout plan.
Proof. apply batch_fanout_nonneg. Qed.

Lemma attempts_left_pos sim id : 1 <= attempts_left sim id.
Proof.
  unfold attempts_left. destruct (sim_events sim !! id); [|done].
  pose proof (plan_fanout_nonneg (sim_plan sim)). case_bool_decide; [done|].
  destruct (made_by_fault _); lia.
Qed.

Lemma work_nonneg sim : 0 <= work sim.
Proof. apply lsum_nonneg. intros k _. pose proof (attempts_left_pos sim (qk_event k)). lia. Qed.

Lemma work_log a sim : work (log a sim) = work sim.
Proof. done. Qed.

(** Writing an event that is not in the queue. *)
Lemma work_store sim id e :
  (forall k, k ∈ sim.(sim_queue) -> k.(qk_event) <> id) -> work (store id e sim) = work sim.
Proof.
  intros Hn. apply work_ext; [done|]. intros k Hk. unfold attempts_left. simpl.
  by rewrite lookup_insert_ne by (intros ->; by eapply Hn).
Qed.

Lemma work_enqueue sim k :
  k ∉ sim.(sim_queue) -> work (enqueue k sim) = attempts_left sim k.(qk_event) + work sim.
Proof. exact (lsum_singleton_union (fun key => attempts_left sim (qk_event key)) k (sim_queue sim)). Qed.

(** What a batch makes is within what the plan can make. *)
Lemma lsum_filter_le {A} (P : A -> Prop) `{forall x, Decision (P x)} (f : A -> Z) l :
  (forall x, 0 <= f x) -> lsum f (filter P l) <= lsum f l.
Proof.
  intros Hf. rewrite lsum_filter. apply lsum_le. intros x _. pose proof (Hf x).
  case_decide; lia.
Qed.

Lemma batch_fanout_pending sim e :
  batch_fanout (pending_faults sim e) <=
  if made_by_fault e then 0 else plan_fanout sim.(sim_plan).
Proof.
  unfold pending_faults, plan_matching. destruct (made_by_fault e); simpl.
  - unfold batch_fanout. rewrite lsum_filter. apply Z.eq_le_incl.
    rewrite (lsum_ext _ (fun _ => 0)).
    + induction (merge_sort _ _); [done|]. rewrite lsum_cons. lia.
    + intros f _. case_decide as Hf; [|done]. by destruct (f_action f).
  - unfold batch_fanout. etrans; [apply lsum_filter_le; intros; apply action_fanout_nonneg|].
    rewrite merge_sort_Permutation. apply lsum_filter_le. intros. apply action_fanout_nonneg.
Qed.

Definition hand_left (hd : Hand) (sim : Simulator) : Z :=
  if hd.(h_bound) then 1 + 2 * hd.(h_credit)
  else attempts_left sim (event_id hd.(h_event)) - 1.

Definition potential (c : Config) : Z :=
  work c.2 + match c.1 with Some hd => hand_left hd c.2 | None => 0 end.

Definition credit_ok (c : Config) : Prop :=
  match c.1 with Some hd => 0 <= hd.(h_credit) | None => True end.

Section potential.
Context (digest : list Z -> list Z).

Lemma in_hand_not_queued hd sim k :
  tables (Some hd) sim -> k ∈ sim.(sim_queue) -> k.(qk_event) <> event_id hd.(h_event).
Proof. intros HT (e & _ & _ & Hn & _)%(tb_queue _ _ HT) Heq. by apply Hn. Qed.

Lemma fresh_not_queued h sim id :
  tables h sim -> sim.(sim_events) !! id = None -> forall k, k ∈ sim.(sim_queue) -> k.(qk_event) <> id.
Proof. intros HT Hn k (e & He & _)%(tb_queue _ _ HT) <-. congruence. Qed.

Lemma fresh_not_resolved hd sim id :
  tables (Some hd) sim -> sim.(sim_events) !! id = None -> id ∉ sim.(sim_resolved).
Proof.
  intros HT Hn [(e & He & _)|[_ <-]]%(tb_resolved _ _ HT); [congruence|].
  destruct (tb_hand _ _ HT hd eq_refl) as (e & He & _). congruence.
Qed.

(** Making an event costs two of the credit. *)
Lemma work_make hd sim sim' id e k a :
  tables (Some hd) sim -> take_generated_id sim = Some (id, sim') -> k.(qk_event) = id ->
  made_by_fault e = true ->
  work (log a (enqueue k (store id e sim'))) = work sim + 2.
Proof.
  intros HT Ht Hk Hm. destruct (take_generated_id_Some _ _ _ _ HT Ht) as (_ & -> & Hn & _).
  pose proof (fresh_not_queued _ _ _ HT Hn) as Hq.
  pose proof (fresh_not_resolved _ _ _ HT Hn) as Hr.
  transitivity (work (enqueue k (store id e (sim <| sim_next_event := id + 1 |>)))); [done|].
  rewrite work_enqueue by (intros Hin; by apply (Hq k)).
  rewrite work_store by exact Hq.
  unfold attempts_left. simpl. rewrite Hk, lookup_insert_eq, Hm.
  rewrite bool_decide_false by done.
  change (work (sim <| sim_next_event := id + 1 |>)) with (work sim). lia.
Qed.

(** Putting an event back costs at most the one attempt a delay adds. *)
Lemma work_close hd sim e :
  tables (Some hd) sim -> event_id e = event_id hd.(h_event) ->
  event_id e ∈ sim.(sim_resolved) ->
  work (put_back e sim) <= work sim + if bool_decide (event_status e = Scheduled) then 1 else 0.
Proof.
  intros HT Hid Hr.
  assert (work (store (event_id e) e sim) = work sim) as Hst.
  { apply work_store. rewrite Hid. intros k. by apply in_hand_not_queued. }
  unfold put_back. destruct (event_status e) eqn:Hs; try (rewrite bool_decide_false by done);
    try (change (work (set_field sim_held ?f ?s)) with (work s)); try lia.
  rewrite work_enqueue.
  - unfold attempts_left. simpl. rewrite lookup_insert_eq, bool_decide_true by done. lia.
  - intros Hin. by apply (in_hand_not_queued hd sim (event_key e) HT Hin).
Qed.

(** Picking an event spends one attempt. *)
Lemma potential_pick sim c :
  tables None sim -> is_Some c.1 -> mstep digest (None, sim) c ->
  potential c = potential (None, sim) - 1 /\ credit_ok c.
Proof.
  intros HT [hd Hc] Hm. destruct c as [h sim']; simpl in Hc; subst h.
  inversion Hm as [| | | | | | | | |? k e Hk Hdue He| | | | | | | | | | | | | | |]; subst.
  unfold potential, credit_ok, hand_left. cbn [fst snd h_bound h_event h_credit]. split; [|done].
  destruct (tb_ids _ _ HT _ _ He) as [Hid _].
  replace (event_id e') with (qk_event k) by (subst e'; by autorewrite with event).
  match goal with |- _ + (attempts_left ?s ?i - 1) = _ =>
    change (attempts_left s i) with (attempts_left sim i) end.
  pose proof (lsum_delete_elem (fun key => attempts_left sim (qk_event key)) k (sim_queue sim) Hk) as Hd.
  unfold work at 2. rewrite Hd.
  match goal with |- work ?s + _ = _ =>
    change (work s) with (lsum (fun key => attempts_left sim (qk_event key)) (elements (sim_queue sim ∖ {[k]}))) end.
  lia.
Qed.

(** Binding an event to its batch. *)
Lemma potential_bind sim e :
  let sim' := sim <| sim_resolved ::= union {[ event_id e ]} |> in
  let credit := batch_fanout (pending_faults sim' e) in
  tables (Some (mkHand e false false [] 0)) sim -> event_id e ∉ sim.(sim_resolved) ->
  work sim' + (1 + 2 * credit) <= work sim + (attempts_left sim (event_id e) - 1).
Proof.
  intros sim' credit HT Hn.
  destruct (tb_hand _ _ HT _ eq_refl) as (e0 & He0 & [_ Hcore _ _ _ _] & _). simpl in *.
  assert (work sim' = work sim) as ->.
  { apply work_ext; [done|]. intros k Hk. apply (in_hand_not_queued _ _ _ HT) in Hk. simpl in Hk.
    unfold attempts_left. simpl. destruct (sim_events sim !! qk_event k); [|done].
    by rewrite (bool_decide_ext _ (qk_event k ∈ sim_resolved sim)) by set_solver. }
  pose proof (batch_fanout_pending sim' e) as Hb. fold credit in Hb.
  unfold attempts_left. rewrite He0, bool_decide_false by done.
  rewrite <-(core_made _ _ Hcore). destruct (made_by_fault e); simpl in Hb; lia.
Qed.

(** No later step of the attempt adds to the potential. *)
Lemma potential_hand hd hd' sim sim' :
  tables (Some hd) sim -> mstep digest (Some hd, sim) (Some hd', sim') -> 0 <= hd.(h_credit) ->
  potential (Some hd', sim') <= potential (Some hd, sim) /\ 0 <= hd'.(h_credit).
Proof.
  intros HT Hm Hc. unfold potential. cbn [fst snd].
  inversion Hm; subst; try (split; [|simpl; lia]; unfold hand_left; simpl;
    repeat match goal with H : h_bound _ = _ |- _ => rewrite H end; reflexivity || done).
  - split; [|apply batch_fanout_nonneg]. by apply potential_bind.
  - rewrite (work_make hd sim sim'0) by done. unfold hand_left. simpl.
    match goal with H : h_bound _ = true |- _ => rewrite H end. lia.
  - rewrite (work_make hd sim sim'0) by (done || by subst copy; destruct (h_event hd)).
    unfold hand_left. simpl. match goal with H : h_bound _ = true |- _ => rewrite H end. lia.
Qed.

(** Neither does the step that ends it. *)
Lemma potential_close hd sim sim' :
  tables (Some hd) sim -> mstep digest (Some hd, sim) (None, sim') -> 0 <= hd.(h_credit) ->
  potential (None, sim') <= potential (Some hd, sim).
Proof.
  intros HT Hm Hc. unfold potential. cbn [fst snd].
  assert (0 <= hand_left hd sim) as Hl.
  { unfold hand_left. pose proof (attempts_left_pos sim (event_id (h_event hd))).
    destruct (h_bound hd); lia. }
  assert (forall e, event_id e = event_id (h_event hd) -> event_id (h_event hd) ∈ sim_resolved sim ->
    work (put_back e sim) <= work sim + if bool_decide (event_status e = Scheduled) then 1 else 0) as HC.
  { intros e Hid Hr. apply (work_close hd); [done|done|by rewrite Hid]. }
  inversion Hm; subst;
    try match goal with H : h_bound _ = true |- _ => pose proof (hand_resolved _ _ HT H) end.
  - specialize (HC (set_status RejectedBySimulator (h_event hd))). unfold put_back in HC.
    autorewrite with event in HC. specialize (HC eq_refl ltac:(done)). rewrite bool_decide_false in HC by done.
    rewrite work_log. lia.
  - specialize (HC (set_status Dropped (h_event hd))). unfold put_back in HC.
    autorewrite with event in HC. specialize (HC eq_refl ltac:(done)). rewrite bool_decide_false in HC by done.
    rewrite work_log. lia.
  - specialize (HC (set_deliver_at to (set_status Scheduled (h_event hd)))).
    unfold put_back, event_key in HC. autorewrite with event in HC.
    specialize (HC eq_refl ltac:(done)). rewrite bool_decide_true in HC by done.
    unfold hand_left in *. destruct (h_bound hd); [|done]. lia.
  - specialize (HC (set_status Blocked (h_event hd))). unfold put_back in HC.
    autorewrite with event in HC. specialize (HC eq_refl ltac:(done)).
    rewrite bool_decide_false in HC by done. unfold block. rewrite work_log. lia.
  - specialize (HC (set_status Expired (h_event hd))). unfold put_back in HC.
    autorewrite with event in HC. specialize (HC eq_refl ltac:(done)). rewrite bool_decide_false in HC by done.
    rewrite work_log. lia.
  - specialize (HC (set_status Delivered (h_event hd))). unfold put_back in HC.
    autorewrite with event in HC. specialize (HC eq_refl ltac:(done)).
    rewrite bool_decide_false in HC by done. unfold hand_over.
    match goal with |- work ?s + 0 <= _ =>
      change (work s) with (work (store (event_id (h_event hd)) (set_status Delivered (h_event hd)) sim)) end.
    lia.
Qed.

Lemma potential_hsteps a b :
  rtc (hstep digest) a b -> tables a.1 a.2 -> credit_ok a -> potential b <= potential a.
Proof.
  induction 1 as [|[h1 sim1] [h2 sim2] c [[hd Hh] Hm] Hs IH]; intros HT Hc; [done|].
  simpl in Hh. subst h1. pose proof (tables_mstep _ _ _ Hm HT) as HT2. simpl in *.
  destruct h2 as [hd2|].
  - destruct (potential_hand _ _ _ _ HT Hm Hc) as [Hp Hc2]. specialize (IH HT2 Hc2). lia.
  - pose proof (potential_close _ _ _ HT Hm Hc) as Hp. specialize (IH HT2 I). lia.
Qed.

(** * The clock stands still during an attempt *)

Lemma mstep_now_attempt a b :
  mstep digest a b -> is_Some a.1 \/ is_Some b.1 -> tables a.1 a.2 -> b.2.(sim_now) = a.2.(sim_now).
Proof.
  intros Hm Hh HT. inversion Hm; subst; simpl in *; try done; try by destruct Hh as [[]|[]].
  - destruct (take_generated_id_Some _ _ _ _ HT ltac:(done)) as (_ & -> & _). done.
  - destruct (take_generated_id_Some _ _ _ _ HT ltac:(done)) as (_ & -> & _). done.
Qed.

Lemma hsteps_now a b :
  rtc (hstep digest) a b -> tables a.1 a.2 -> b.2.(sim_now) = a.2.(sim_now).
Proof.
  induction 1 as [|x y z [Hx Hm] Hs IH]; intros HT; [done|].
  rewrite IH by by eapply tables_mstep. apply mstep_now_attempt; [done|by left|done].
Qed.
End potential.

(** * The loops *)

Section loops.
Context (digest : list Z -> list Z).
Local Abbreviation msteps := (rtc (mstep digest)).

Lemma deliver_next_progress sim id sim' :
  tables None sim -> deliver_next digest sim = (Some id, sim') ->
  msteps (None, sim) (None, sim') /\ tables None sim' /\ work sim' < work sim /\
  sim'.(sim_now) = sim.(sim_now).
Proof.
  intros HT Hd. pose proof (deliver_next_steps digest sim HT) as H. rewrite Hd in H.
  destruct H as [(c & Hc & Hpick & Hs) _].
  assert (tables c.1 c.2) as HTc by exact (tables_mstep _ _ _ Hpick HT).
  destruct (potential_pick digest sim c HT Hc Hpick) as [Hp Hcr].
  pose proof (potential_hsteps _ _ _ Hs HTc Hcr) as Hle.
  pose proof (hsteps_now _ _ _ Hs HTc) as Hn. simpl in Hn.
  pose proof (mstep_now_attempt _ _ _ Hpick (or_intror Hc) HT) as Hn'. simpl in Hn'.
  assert (msteps (None, sim) (None, sim')) as Hms.
  { eapply rtc_l; [exact Hpick|]. by apply hsteps_msteps. }
  split_and!; [done|exact (tables_msteps _ _ _ Hms HT)| |congruence].
  unfold potential in *. simpl in *. lia.
Qed.

(** What a delivery loop leaves behind. *)
Record delivered_until (sim sim' : Simulator) : Prop := {
  du_steps : msteps (None, sim) (None, sim');
  du_tables : tables None sim';
  du_work : work sim' <= work sim
}.

Lemma delivered_until_refl sim : tables None sim -> delivered_until sim sim.
Proof. intros. split; [apply rtc_refl|done|lia]. Qed.

Lemma delivered_until_trans sim1 sim2 sim3 :
  delivered_until sim1 sim2 -> delivered_until sim2 sim3 -> delivered_until sim1 sim3.
Proof. intros [H1 ? ?] [H2 ? ?]. split; [by etrans|done|lia]. Qed.

Lemma deliver_ready_loop_ends fuel count sim :
  tables None sim -> (Z.to_nat (work sim) < fuel)%nat ->
  exists n sim', deliver_ready_loop digest fuel count sim = Some (n, sim') /\
    delivered_until sim sim' /\ sim'.(sim_now) = sim.(sim_now) /\
    (forall k, k ∈ sim'.(sim_queue) -> sim.(sim_now) < k.(qk_deliver_at)) /\
    ((exists k, k ∈ sim.(sim_queue) /\ k.(qk_deliver_at) <= sim.(sim_now)) -> work sim' < work sim).
Proof.
  revert count sim. induction fuel as [|fuel IH]; intros count sim HT Hf; [lia|]. simpl.
  destruct (deliver_next digest sim) as [[id|] sim1] eqn:Hd.
  - destruct (deliver_next_progress _ _ _ HT Hd) as (Hms & HT1 & Hlt & Hnow).
    pose proof (work_nonneg sim1).
    destruct (IH (saturating_add u32_max count 1) sim1 HT1) as (n & sim' & He & Hdu & Hn & Hk & _);
      [lia|].
    exists n, sim'. split_and!; try done; try congruence.
    + by apply (delivered_until_trans _ sim1); [split; [done|done|lia]|].
    + by rewrite <-Hnow.
    + intros _. pose proof (du_work _ _ Hdu). lia.
  - pose proof (deliver_next_steps digest sim HT) as H. rewrite Hd in H. destruct H as [-> Hk].
    exists count, sim. split; [done|]. split; [by apply delivered_until_refl|].
    split_and!; try done. intros (k & Hin & ?). apply Hk in Hin. lia.
Qed.

Lemma deliver_ready_ends sim :
  tables None sim ->
  exists n sim', deliver_ready digest sim = Some (n, sim') /\
    delivered_until sim sim' /\ sim'.(sim_now) = sim.(sim_now) /\
    (forall k, k ∈ sim'.(sim_queue) -> sim.(sim_now) < k.(qk_deliver_at)) /\
    ((exists k, k ∈ sim.(sim_queue) /\ k.(qk_deliver_at) <= sim.(sim_now)) -> work sim' < work sim).
Proof. intros HT. apply deliver_ready_loop_ends; [done|lia]. Qed.

(** Moving the clock to the next tick and delivering there. *)
Lemma advance_and_deliver sim tick :
  tables None sim -> next_tick sim.(sim_queue) = Some tick ->
  exists sim1 n sim2, advance_to (Z.max tick sim.(sim_now)) sim = (Ok tt, sim1) /\
    deliver_ready digest sim1 = Some (n, sim2) /\ delivered_until sim sim2 /\
    work sim2 < work sim /\ sim2.(sim_now) = Z.max tick sim.(sim_now).
Proof.
  intros HT Ht. unfold next_tick in Ht. apply fmap_Some in Ht as (k & Hk & ->).
  destruct (queue_peek_Some _ _ Hk) as [Hin _].
  assert (is_u64 (Z.max (qk_deliver_at k) (sim_now sim))) as Hu.
  { pose proof Hin as (e & He & _ & _ & ->)%(tb_queue _ _ HT). simpl.
    pose proof (typed_deliver_at _ (tb_typed _ _ HT _ _ He)). pose proof (tb_now _ _ HT).
    unfold fits in *. lia. }
  pose proof (advance_to_steps digest (Z.max (qk_deliver_at k) (sim_now sim)) sim Hu) as Hadv.
  assert (exists sim1, advance_to (Z.max (qk_deliver_at k) (sim_now sim)) sim = (Ok tt, sim1) /\
    work sim1 = work sim /\ sim_queue sim1 = sim_queue sim /\
    sim_now sim1 = Z.max (qk_deliver_at k) (sim_now sim)) as (sim1 & He & Hw & Hq & Hn).
  { unfold advance_to. destruct (Z.ltb_spec (Z.max (qk_deliver_at k) (sim_now sim)) (sim_now sim)); [lia|].
    destruct (Z.eqb_spec (Z.max (qk_deliver_at k) (sim_now sim)) (sim_now sim)); eexists; split_and!; done. }
  rewrite He in Hadv. simpl in Hadv.
  assert (tables None sim1) as HT1 by exact (tables_msteps _ _ _ Hadv HT).
  destruct (deliver_ready_ends sim1 HT1) as (n & sim2 & Hr & Hdu & Hn2 & _ & Hlt).
  exists sim1, n, sim2. split_and!; try done.
  - apply (delivered_until_trans _ sim1); [split; [done|done|lia]|done].
  - rewrite <-Hw. apply Hlt. exists k. rewrite Hq, Hn. split; [done|lia].
  - congruence.
Qed.

Lemma next_tick_None q : next_tick q = None <-> q = ∅.
Proof. unfold next_tick. rewrite fmap_None. apply queue_peek_None. Qed.

Lemma run_until_idle_loop_ends fuel count sim :
  tables None sim -> (Z.to_nat (work sim) < fuel)%nat ->
  exists n sim', run_until_idle_loop digest fuel count sim = Some (n, sim') /\
    delivered_until sim sim' /\ sim'.(sim_queue) = ∅ /\ sim.(sim_now) <= sim'.(sim_now).
Proof.
  revert count sim. induction fuel as [|fuel IH]; intros count sim HT Hf; [lia|]. simpl.
  destruct (next_tick (sim_queue sim)) as [tick|] eqn:Ht.
  - destruct (advance_and_deliver _ _ HT Ht) as (sim1 & n & sim2 & -> & -> & Hdu & Hlt & Hn).
    pose proof (work_nonneg sim2).
    destruct (IH (saturating_add u32_max count n) sim2 (du_tables _ _ Hdu)) as (m & sim' & He & Hdu' & Hq & Hle);
      [lia|].
    exists m, sim'. split_and!; try done; [by eapply delivered_until_trans|lia].
  - exists count, sim. split; [done|]. split; [by apply delivered_until_refl|].
    split; [by apply next_tick_None|lia].
Qed.

Lemma run_until_loop_ends fuel target count sim :
  tables None sim -> (Z.to_nat (work sim) < fuel)%nat -> sim.(sim_now) <= target -> is_u64 target ->
  exists n sim', run_until_loop digest fuel target count sim = Some (Ok n, sim') /\
    msteps (None, sim) (None, sim') /\ sim'.(sim_now) = target /\
    (forall k, k ∈ sim'.(sim_queue) -> target < k.(qk_deliver_at)).
Proof.
  revert count sim. induction fuel as [|fuel IH]; intros count sim HT Hf Hle Hu; [lia|].
  cbn [run_until_loop].
  assert (exists sim', advance_to target sim = (Ok tt, sim') /\ sim_now sim' = target /\
    sim_queue sim' = sim_queue sim /\ msteps (None, sim) (None, sim')) as (sim' & Ha & Hn & Hq & Hms).
  { pose proof (advance_to_steps digest target sim Hu) as Hs. unfold advance_to in *.
    destruct (Z.ltb_spec target (sim_now sim)); [lia|].
    destruct (Z.eqb_spec target (sim_now sim)); eexists; split_and!; done. }
  destruct (next_tick (sim_queue sim)) as [tick|] eqn:Ht.
  - destruct (Z.ltb_spec target tick).
    + rewrite Ha. exists count, sim'. split_and!; try done. rewrite Hq. intros k Hk.
      unfold next_tick in Ht. apply fmap_Some in Ht as (k0 & Hk0 & ->).
      apply (proj2 (queue_peek_Some _ _ Hk0)) in Hk. unfold key_before in Hk. lia.
    + destruct (advance_and_deliver _ _ HT Ht) as (sim1 & n & sim2 & -> & -> & Hdu & Hlt & Hn2).
      pose proof (work_nonneg sim2).
      destruct (IH (saturating_add u32_max count n) sim2 (du_tables _ _ Hdu)) as (m & sim3 & He & Hms3 & ? & ?);
        [lia|lia|exact Hu|].
      exists m, sim3. split_and!; try done. by transitivity (@None Hand, sim2); [apply Hdu|].
  - rewrite Ha. exists count, sim'. split_and!; try done. rewrite Hq.
    apply next_tick_None in Ht. rewrite Ht. set_solver.
Qed.
End loops.

(** * Operations and reachable networks *)

Section operations.
Context (digest : list Z -> list Z).
Local Abbreviation msteps := (rtc (mstep digest)).

Lemma forget_steps {A} sim (out : result SimError A * Simulator) :
  steps_or_refuses digest sim out -> steps_or_refuses digest sim (forget out).
Proof. unfold steps_or_refuses, forget. destruct out as [[]]; done. Qed.

(** Every operation returns; it is a run of the machine, or it was refused
    and left the network as it was. *)
Lemma apply_steps op sim :
  tables None sim -> op_typed op ->
  exists out, apply digest op sim = Some out /\ steps_or_refuses digest sim out.
Proof.
  intros HT Hty. destruct op; simpl in *.
  - eexists. split; [done|]. by apply forget_steps, schedule_control_steps.
  - eexists. split; [done|]. by apply forget_steps, schedule_asset_steps.
  - eexists. split; [done|]. by apply add_fault_steps.
  - eexists. split; [done|]. by apply advance_by_steps.
  - eexists. split; [done|]. by apply advance_to_steps.
  - eexists. split; [done|]. unfold steps_or_refuses. simpl.
    destruct (deliver_next digest sim) as [[id|] sim'] eqn:E; simpl.
    + by apply (deliver_next_progress _ _ _ _ HT E).
    + pose proof (deliver_next_steps digest sim HT) as H. rewrite E in H. destruct H as [-> _].
      apply rtc_refl.
  - destruct (deliver_ready_ends digest sim HT) as (n & sim' & -> & Hdu & _).
    eexists. split; [done|]. apply Hdu.
  - destruct (run_until_idle_loop_ends digest (S (Z.to_nat (work sim))) 0 sim HT)
      as (n & sim' & E & Hdu & _); [lia|].
    unfold run_until_idle. rewrite E. eexists. split; [done|]. apply Hdu.
  - unfold run_until. destruct (Z.ltb_spec tick (sim_now sim)).
    + eexists. split; done.
    + destruct (run_until_loop_ends digest (S (Z.to_nat (work sim))) tick 0 sim HT)
        as (n & sim' & -> & Hms & _); [lia|lia|exact Hty|]. eexists. split; done.
  - eexists. split; [done|]. apply halt_endpoint_steps.
  - eexists. split; [done|]. apply resume_endpoint_steps.
  - eexists. split; [done|]. apply rtc_once, m_pause.
  - eexists. split; [done|]. apply resume_lane_steps.
  - eexists. split; [done|]. by apply swap_delivery_ticks_steps.
  - eexists. split; [done|]. by apply move_before_steps.
  - eexists. split; [done|]. by apply move_after_steps.
Qed.

(** One call of the public interface. *)
Inductive sim_step : Simulator -> Simulator -> Prop :=
| ss_apply op r sim sim' :
    op_typed op -> apply digest op sim = Some (r, sim') -> sim_step sim sim'
| ss_endpoint id sim : is_u32 id -> sim_step sim (add_endpoint id sim).2.

Definition sim_reachable (sim : Simulator) : Prop :=
  exists config ids sim0, Forall is_u32 ids /\ with_config config ids = Ok sim0 /\
    rtc sim_step sim0 sim.

Lemma sim_step_msteps sim sim' : tables None sim -> sim_step sim sim' -> msteps (None, sim) (None, sim').
Proof.
  intros HT Hstep. revert HT. destruct Hstep as [op r s s' Hty Ha|id s Hu]; intros HT.
  - destruct (apply_steps op s HT Hty) as ([r' s''] & E & Hs). rewrite Ha in E. simplify_eq.
    unfold steps_or_refuses in Hs. simpl in Hs. destruct r'; [done|]. subst. apply rtc_refl.
  - pose proof (add_endpoint_steps digest id s Hu) as Hs. unfold steps_or_refuses in Hs.
    destruct (add_endpoint id s) as [[] s'']; simpl in *; [done|]. subst. apply rtc_refl.
Qed.

(** What every step of the machine preserves holds of every reachable
    network. *)
Lemma reachable_ind (P : Config -> Prop) sim :
  (forall config ids sim0,
    with_config config ids = Ok sim0 -> Forall is_u32 ids -> P (None, sim0)) ->
  (forall a b, mstep digest a b -> tables a.1 a.2 -> P a -> P b) ->
  sim_reachable sim -> tables None sim /\ P (None, sim).
Proof.
  intros Hinit Hstep (config & ids & sim0 & Hids & H0 & Hs).
  assert (forall a b, msteps a b -> tables a.1 a.2 -> P a -> P b) as Hsteps.
  { induction 1 as [|x y z Hm _ IH]; intros HT HP; [done|].
    apply IH; [by eapply tables_mstep|by eapply Hstep]. }
  pose proof (tables_init _ _ _ H0 Hids) as HT0. pose proof (Hinit _ _ _ H0 Hids) as HP0.
  revert HT0 HP0. clear H0. induction Hs as [|x y z Hxy _ IH]; intros HT HP; [done|].
  pose proof (sim_step_msteps _ _ HT Hxy) as Hms. apply IH.
  - exact (tables_msteps _ _ _ Hms HT).
  - by eapply Hsteps.
Qed.

Lemma reachable_tables sim : sim_reachable sim -> tables None sim.
Proof. intros Hr. by apply (reachable_ind (fun _ => True)). Qed.
End operations.
