(* ===== verification/SimContent.v ===== *)
(** What events carry.  A control event's identifier is the identity of its
    bytes and its mutation record names the one byte that was changed; an
    asset event delivers within its request unless it is marked as
    over-delivered; the pieces of a split add up within the request of the
    event they came from; and an event a fault made repeats what a caller
    scheduled. *)

From Stdlib Require Import ZArith Lia.
From S2P Require Import Prelude ProtocolTypes ProtocolCodec SimState SimEngine SimSteps SimTables.
From S2P Require Import SimRuns SimAttempt SimLoops.

(** * Predicates on events *)

Section content.
Context (digest : list Z -> list Z).

(** The record of a byte edit is truthful: the byte at the offset is the new
    one, it differs from the old one, and with the old one put back the
    bytes have the original identity. *)
Definition mutation_ok (bytes : list Z) (m : ByteMutation) : Prop :=
  bytes !! Z.to_nat m.(bm_offset) = Some m.(bm_to) /\ m.(bm_from) <> m.(bm_to) /\
  m.(bm_original_message_id) =
    message_identity digest (<[Z.to_nat m.(bm_offset) := m.(bm_from)]> bytes).

Definition content_ok (e : Event) : Prop :=
  match e with
  | EvControl c =>
      c.(ce_bytes) <> [] /\ c.(ce_message_id) = message_identity digest c.(ce_bytes) /\
      match c.(ce_mutation) with Some m => mutation_ok c.(ce_bytes) m | None => True end
  | EvAsset a =>
      0 < a.(ae_requested) /\ amount_rule a.(ae_requested) a.(ae_delivered) a.(ae_over_delivered)
  end.

Lemma content_set_status s e : content_ok (set_status s e) <-> content_ok e.
Proof. by destruct e. Qed.
Lemma content_set_deliver_at t e : content_ok (set_deliver_at t e) <-> content_ok e.
Proof. by destruct e. Qed.
Lemma content_set_destination d e : content_ok (set_destination d e) <-> content_ok e.
Proof. by destruct e. Qed.
Lemma content_bump_attempts e : content_ok (bump_attempts e) <-> content_ok e.
Proof. by destruct e. Qed.
Lemma content_clone e id t : content_ok (clone_for_duplicate e id t) <-> content_ok e.
Proof. by destruct e. Qed.

Lemma content_scheduled e : scheduled_event digest e -> event_typed e -> content_ok e.
Proof.
  intros (_ & _ & _ & _ & _ & Hc) Hty. destruct e as [c|a]; simpl in *.
  - destruct Hc as (? & ? & ->). done.
  - destruct Hc as (Hr & -> & _ & ->). destruct Hty as (_ & _ & _ & _ & _ & [Hn _] & _).
    unfold amount_rule. lia.
Qed.

Lemma lxor_changes x m : m <> 0 -> x <> Z.lxor x m.
Proof.
  intros Hm Heq. apply Hm. rewrite <-(Z.lxor_0_l m), <-(Z.lxor_nilpotent x), Z.lxor_assoc, <-Heq.
  done.
Qed.

Lemma content_corrupt c offset from mask :
  content_ok (EvControl c) -> mask <> 0 -> c.(ce_mutation) = None ->
  c.(ce_bytes) !! Z.to_nat offset = Some from ->
  let bytes := <[Z.to_nat offset := Z.lxor from mask]> c.(ce_bytes) in
  content_ok (EvControl (c <| ce_bytes := bytes |> <| ce_message_id := message_identity digest bytes |>
    <| ce_mutation := Some (mkByteMutation offset from (Z.lxor from mask) c.(ce_message_id)) |>)).
Proof.
  intros (Hne & Hid & _) Hm _ Hb bytes. simpl. split_and!.
  - intros Hnil. apply Hne. apply (f_equal length) in Hnil. unfold bytes in Hnil.
    rewrite length_insert in Hnil. by destruct (ce_bytes c).
  - done.
  - split_and!; simpl.
    + unfold bytes. rewrite list_lookup_insert_eq; [done|]. by eapply lookup_lt_Some.
    + by apply lxor_changes.
    + unfold bytes. rewrite list_insert_insert_eq, list_insert_id by done. done.
Qed.

(** * Sums of pieces *)

Definition piece_of (a : TraceAction) (origin : EventId) : Z :=
  match a with
  | TrPartialDeliveryCreated original _ _ amount _ => if original =? origin then amount else 0
  | _ => 0
  end.

(** The value the pieces made from one event carried when they were made. *)
Definition pieces_made (t : list TraceRecord) (origin : EventId) : Z :=
  lsum (fun r => piece_of r.(tr_action) origin) t.

Lemma pieces_made_log a sim origin :
  pieces_made (log a sim).(sim_trace) origin = pieces_made sim.(sim_trace) origin + piece_of a origin.
Proof.
  unfold pieces_made, log, trace_push. simpl. rewrite lsum_app, lsum_cons, lsum_nil.
  simpl. lia.
Qed.

Lemma sum_pieces_Some pieces total :
  sum_pieces pieces = Some total -> total = lsum (fun x => x) pieces.
Proof.
  unfold sum_pieces. assert (forall acc t, sum_pieces_from acc pieces = Some t ->
    t = acc + lsum (fun x => x) pieces) as H.
  { induction pieces as [|p pieces IH]; intros acc t; simpl; [intros [= <-]; rewrite lsum_nil; lia|].
    destruct (checked_add _ _ _) as [acc'|] eqn:E; [|done]. apply checked_add_Some in E as [-> _].
    intros Ht%IH. rewrite lsum_cons. lia. }
  intros Ht. rewrite (H 0 total Ht). lia.
Qed.

Lemma has_zero_piece_false pieces :
  has_zero_piece pieces = false -> Forall is_u128 pieces -> Forall (fun x => 0 < x) pieces.
Proof.
  unfold has_zero_piece. induction 2 as [|p pieces [Hp _] _ IH]; [done|]. simpl in H.
  apply orb_false_iff in H as [Hz H]. bool_to_prop. constructor; [lia|by apply IH].
Qed.

Lemma pieces_nonneg pieces : Forall (fun x => 0 < x) pieces -> 0 <= lsum (fun x => x) pieces.
Proof.
  rewrite Forall_forall. intros Hp. apply lsum_nonneg. intros x Hx. specialize (Hp x Hx). lia.
Qed.

(** * The invariant *)

(** The request of an asset event, what of it an event delivers itself, and
    the pieces made and still to be made from it. *)
Definition split_ok (made pending : Z) (e : Event) : Prop :=
  match e with
  | EvAsset a => 0 < made + pending -> made + pending + a.(ae_delivered) <= a.(ae_requested)
  | EvControl _ => made + pending = 0
  end.

(** What an event repeats of the event a caller scheduled. *)
Definition repeats (e0 e : Event) : Prop :=
  made_by_fault e0 = false /\ event_lane e = event_lane e0 /\ event_source e = event_source e0 /\
  event_intended_destination e = event_intended_destination e0 /\
  event_deadline e = event_deadline e0 /\
  (fun a => (ae_transfer a, ae_requested a)) <$> event_asset e =
  (fun a => (ae_transfer a, ae_requested a)) <$> event_asset e0.

Definition over_of (e : Event) : bool :=
  match e with EvAsset a => a.(ae_over_delivered) | EvControl _ => false end.

Definition pending_sum (hd : Hand) : Z := lsum (fun x => x) hd.(h_pending).

(** The event in hand, given the value of the pieces made from it. *)
Record hand_ok (resolved : bool) (made : Z) (hd : Hand) : Prop := {
  ho_content : content_ok hd.(h_event);
  ho_pending : Forall (fun x => 0 < x) hd.(h_pending);
  ho_split : split_ok made (pending_sum hd) hd.(h_event);
  ho_fresh : hd.(h_content) = false -> hd.(h_pending) = [] /\ (hd.(h_bound) = true -> made = 0);
  ho_over : made_by_fault hd.(h_event) = false ->
    (hd.(h_bound) = true /\ hd.(h_content) = false) \/ hd.(h_pending) <> [] \/ resolved = false ->
    over_of hd.(h_event) = false
}.

Record contents (c : Config) : Prop := {
  ct_stored id e : c.2.(sim_events) !! id = Some e -> content_ok e;
  ct_split id e :
    c.2.(sim_events) !! id = Some e -> ~ in_hand c.1 id ->
    split_ok (pieces_made c.2.(sim_trace) id) 0 e;
  ct_unbound id : id ∉ c.2.(sim_resolved) -> pieces_made c.2.(sim_trace) id = 0;
  ct_pieces id : 0 <= pieces_made c.2.(sim_trace) id;
  ct_over id e :
    c.2.(sim_events) !! id = Some e -> id ∉ c.2.(sim_resolved) -> made_by_fault e = false ->
    over_of e = false;
  ct_origin id e :
    c.2.(sim_events) !! id = Some e -> made_by_fault e = true ->
    exists o e0, c.2.(sim_events) !! o = Some e0 /\ repeats e0 e;
  ct_hand hd :
    c.1 = Some hd ->
    hand_ok (bool_decide (event_id hd.(h_event) ∈ c.2.(sim_resolved)))
      (pieces_made c.2.(sim_trace) (event_id hd.(h_event))) hd
}.

(** ** Events that carry the same *)

(** The part of an event the content rules are about. *)
Definition load (e : Event) : (list Z * list Z * option ByteMutation) + (Z * Z * bool) :=
  match e with
  | EvControl c => inl (c.(ce_bytes), c.(ce_message_id), c.(ce_mutation))
  | EvAsset a => inr (a.(ae_requested), a.(ae_delivered), a.(ae_over_delivered))
  end.

Lemma load_content e e' : load e' = load e -> content_ok e -> content_ok e'.
Proof. by destruct e as [[]|[]], e' as [[]|[]]; simpl; intros [=]; subst. Qed.

Lemma load_split e e' made pending : load e' = load e -> split_ok made pending e -> split_ok made pending e'.
Proof. by destruct e as [[]|[]], e' as [[]|[]]; simpl; intros [=]; subst. Qed.

Lemma load_over e e' : load e' = load e -> over_of e' = over_of e.
Proof. by destruct e as [[]|[]], e' as [[]|[]]; simpl; intros [=]; subst. Qed.

Lemma load_set_status s e : load (set_status s e) = load e.
Proof. by destruct e. Qed.
Lemma load_set_deliver_at t e : load (set_deliver_at t e) = load e.
Proof. by destruct e. Qed.
Lemma load_bump_attempts e : load (bump_attempts e) = load e.
Proof. by destruct e. Qed.
Lemma load_set_destination d e : load (set_destination d e) = load e.
Proof. by destruct e. Qed.

Lemma repeats_core e0 e0' e e' :
  event_core e0' = event_core e0 -> event_core e' = event_core e -> repeats e0 e -> repeats e0' e'.
Proof.
  unfold repeats, event_core. intros H0 H. injection H0 as _ -> -> -> _ -> -> ->.
  injection H as _ -> -> -> _ _ -> ->. done.
Qed.

Lemma split_ok_settle made pending e : 0 <= pending -> split_ok made pending e -> 0 <= made -> split_ok made 0 e.
Proof. destruct e; simpl; lia. Qed.

(** The rules read the events up to their load and core. *)
Lemma contents_frame h sim sim' :
  (forall id, pieces_made sim'.(sim_trace) id = pieces_made sim.(sim_trace) id) ->
  sim'.(sim_resolved) = sim.(sim_resolved) ->
  (forall id e', sim'.(sim_events) !! id = Some e' ->
    exists e, sim.(sim_events) !! id = Some e /\ event_core e' = event_core e /\ load e' = load e) ->
  (forall id e, sim.(sim_events) !! id = Some e ->
    exists e', sim'.(sim_events) !! id = Some e' /\ event_core e' = event_core e) ->
  contents (h, sim) -> contents (h, sim').
Proof.
  intros Hp Hr Hback Hforth [C1 C2 C3 C4 C5 C6 C7]. simpl in *.
  constructor; simpl; intros *; rewrite ?Hp, ?Hr; auto.
  - intros (e1 & He1 & _ & Hl)%Hback. eapply load_content; eauto.
  - intros (e1 & He1 & _ & Hl)%Hback Hh. eapply load_split; eauto.
  - intros (e1 & He1 & Hc & Hl)%Hback Hn Hm. rewrite (load_over _ _ Hl). rewrite (core_made _ _ Hc) in Hm. eauto.
  - intros (e1 & He1 & Hc & Hl)%Hback Hm. rewrite (core_made _ _ Hc) in Hm.
    destruct (C6 _ _ He1 Hm) as (o & e0 & He0 & Hrep).
    destruct (Hforth _ _ He0) as (e0' & He0' & Hc0). exists o, e0'. split; [done|]. by eapply repeats_core.
Qed.

Lemma contents_log h sim a :
  (forall id, piece_of a id = 0) -> contents (h, sim) -> contents (h, log a sim).
Proof.
  intros Ha. apply contents_frame; try done; [|eauto..].
  intros id. rewrite pieces_made_log, Ha. lia.
Qed.

(** A new event. *)
Lemma contents_add h sim e next k :
  contents (h, sim) -> tables h sim -> sim.(sim_events) !! event_id e = None -> content_ok e ->
  over_of e = false \/ made_by_fault e = true ->
  (made_by_fault e = true -> exists o e0, sim.(sim_events) !! o = Some e0 /\ repeats e0 e) ->
  contents (h, enqueue k (store (event_id e) e (sim <| sim_next_event := next |>))).
Proof.
  intros [C1 C2 C3 C4 C5 C6 C7] HT Hn Hc Ho Hrep. simpl in *.
  assert (event_id e ∉ sim.(sim_resolved)) as Hnr.
  { intros [(e1 & He1 & _)|Hb]%(tb_resolved _ _ HT); [congruence|].
    destruct h as [hd|]; [|done]. destruct Hb as [_ Hb].
    destruct (tb_hand _ _ HT hd eq_refl) as (e1 & He1 & _). congruence. }
  constructor; simpl; auto.
  - intros id e1. rewrite lookup_insert_Some. intros [[<- <-]|[? ?]]; eauto.
  - intros id e1. rewrite lookup_insert_Some. intros [[<- <-]|[? ?]] Hh; [|eauto].
    rewrite C3 by done. destruct e; simpl; lia.
  - intros id e1. rewrite lookup_insert_Some. intros [[<- <-]|[? ?]] ? Hm; [|eauto].
    destruct Ho as [?|?]; [done|congruence].
  - intros id e1. rewrite lookup_insert_Some. intros [[<- <-]|[? H1]] Hm.
    + destruct (Hrep Hm) as (o & e0 & He0 & ?). exists o, e0.
      rewrite lookup_insert_ne by congruence. done.
    + destruct (C6 _ _ H1 Hm) as (o & e0 & He0 & ?). exists o, e0.
      rewrite lookup_insert_ne by congruence. done.
Qed.

(** ** The steps that do not involve an attempt *)

Lemma contents_released ids sim sim' :
  releases ids sim sim' -> contents (None, sim) -> contents (None, sim').
Proof.
  intros [_ _ _ _ _ Hr Ht _ _ Ho Hin]. apply contents_frame; [by rewrite Ht|done|..].
  - intros id e' He'. destruct (decide (id ∈ ids)) as [Hid|Hid].
    + destruct (Hin id Hid) as (e & He & _ & He2). exists e. rewrite He' in He2. injection He2 as ->.
      unfold released. rewrite load_set_deliver_at, load_set_status. by autorewrite with event.
    + rewrite Ho in He' by done. eauto.
  - intros id e He. destruct (decide (id ∈ ids)) as [Hid|Hid].
    + destruct (Hin id Hid) as (e1 & He1 & _ & He2). rewrite He in He1. injection He1 as <-.
      eexists. split; [done|]. unfold released. by autorewrite with event.
    + exists e. by rewrite Ho.
Qed.

Lemma contents_store h sim sim' id e0 e :
  sim.(sim_events) !! id = Some e0 -> event_core e = event_core e0 -> load e = load e0 ->
  sim'.(sim_events) = <[id := e]> sim.(sim_events) -> sim'.(sim_trace) = sim.(sim_trace) ->
  sim'.(sim_resolved) = sim.(sim_resolved) -> contents (h, sim) -> contents (h, sim').
Proof.
  intros He0 Hc Hl Hev Htr Hre. apply contents_frame; [by rewrite Htr|done|..]; rewrite Hev.
  - intros i e'. rewrite lookup_insert_Some. intros [[<- <-]|[_ ?]]; eauto.
  - intros i e' He'. destruct (decide (i = id)) as [->|].
    + exists e. rewrite lookup_insert_eq. split; [done|congruence].
    + exists e'. by rewrite lookup_insert_ne.
Qed.

Lemma contents_schedule sim e :
  tables None sim -> contents (None, sim) -> sim.(sim_events) !! event_id e = None ->
  scheduled_event digest e -> event_typed e ->
  contents (None, insert_scheduled e (event_subject e)
    (sim <| sim_next_event := Z.max (event_id e + 1) sim.(sim_next_event) |>)).
Proof.
  intros HT HC Hn Hs Hty. unfold insert_scheduled.
  match goal with |- contents (None, enqueue _ (store _ _ (log ?a ?s))) =>
    change (contents (None, log a (enqueue (event_key e) (store (event_id e) e s)))) end.
  apply contents_log; [done|]. apply contents_add; try done.
  - by apply content_scheduled.
  - left. destruct Hs as (_ & _ & _ & _ & _ & Hs). destruct e; [done|]. by apply Hs.
  - destruct Hs as (_ & _ & -> & _). done.
Qed.

Lemma contents_mstep_idle sim sim' :
  mstep digest (None, sim) (None, sim') -> tables None sim -> contents (None, sim) ->
  contents (None, sim').
Proof.
  intros Hm HT HC. inversion Hm; subst; unfold pause_lane;
    try (apply contents_log; [done|]); try (revert HC; apply contents_frame; by eauto).
  - by apply contents_schedule.
  - destruct (resume_endpoint_releases sim id p HT) as (_ & ids & _ & HR & _); [done|].
    apply (contents_released _ _ _ HR). revert HC. apply contents_frame; by eauto.
  - destruct (resume_lane_releases sim lane HT) as (_ & ids & _ & HR & _).
    apply (contents_released _ _ _ HR). revert HC. apply contents_frame; by eauto.
  - revert HC. eapply contents_store; [done|..|done|done|done];
      [by autorewrite with event|apply load_set_deliver_at].
Qed.

(** ** The steps of an attempt *)

(** The event in hand is bent: the rest of the network stays. *)
Lemma contents_bend hd hd' sim sim' :
  contents (Some hd, sim) -> event_id hd'.(h_event) = event_id hd.(h_event) ->
  sim'.(sim_events) = sim.(sim_events) -> sim'.(sim_resolved) = sim.(sim_resolved) ->
  (forall id, pieces_made sim'.(sim_trace) id = pieces_made sim.(sim_trace) id) ->
  hand_ok (bool_decide (event_id hd.(h_event) ∈ sim.(sim_resolved)))
    (pieces_made sim.(sim_trace) (event_id hd.(h_event))) hd' ->
  contents (Some hd', sim').
Proof.
  intros [C1 C2 C3 C4 C5 C6 _] Hid Hev Hre Htr Hh. simpl in *.
  constructor; simpl; intros *; rewrite ?Hev, ?Hre, ?Htr, ?Hid; eauto.
  intros [= <-]. by rewrite Hid.
Qed.

Lemma contents_pick sim k e :
  tables None sim -> contents (None, sim) -> sim.(sim_events) !! k.(qk_event) = Some e ->
  contents (Some (mkHand (set_status Ready (bump_attempts e)) false false [] 0),
    sim <| sim_queue ::= (fun queue => queue ∖ {[ k ]}) |>).
Proof.
  intros HT [C1 C2 C3 C4 C5 C6 _] He. simpl in *. pose proof (tb_ids _ _ HT _ _ He) as [Hid _].
  constructor; simpl; intros *; eauto.
  intros [= <-]. simpl. autorewrite with event. rewrite Hid.
  assert (load (set_status Ready (bump_attempts e)) = load e) as Hl
    by by rewrite load_set_status, load_bump_attempts.
  constructor; simpl.
  - eapply load_content; eauto.
  - constructor.
  - eapply load_split; [done|]. unfold pending_sum. simpl. rewrite lsum_nil. eauto.
  - done.
  - autorewrite with event. intros Hm [[? _]|[?|Hr]]; [done..|]. rewrite (load_over _ _ Hl).
    apply bool_decide_eq_false in Hr. eauto.
Qed.

Lemma contents_bind sim e credit :
  contents (Some (mkHand e false false [] 0), sim) -> event_id e ∉ sim.(sim_resolved) ->
  contents (Some (mkHand e true false [] credit),
    sim <| sim_resolved ::= union {[ event_id e ]} |>).
Proof.
  intros [C1 C2 C3 C4 C5 C6 C7] Hn. simpl in *. specialize (C7 _ eq_refl). simpl in C7.
  rewrite bool_decide_eq_false_2 in C7 by done. destruct C7 as [H1 H2 H3 H4 H5]. simpl in *.
  constructor; simpl; intros *; eauto.
  - intros Hin. apply C3. set_solver.
  - intros He Hin. apply (C5 _ _ He). set_solver.
  - intros [= <-]. simpl. constructor; simpl; auto.
Qed.

Lemma contents_reroute hd sim fault to :
  contents (Some hd, sim) ->
  contents (Some (hd <| h_event ::= set_destination to |>),
    record_effect fault (event_id hd.(h_event)) (EffRerouted to) sim).
Proof.
  intros HC. pose proof (ct_hand _ HC _ eq_refl) as [H1 H2 H3 H4 H5]. simpl in *.
  assert (load (set_destination to (h_event hd)) = load (h_event hd)) as Hl
    by apply load_set_destination.
  eapply contents_bend; [exact HC|by simpl; autorewrite with event|done|done| |].
  - intros id. unfold record_effect. rewrite pieces_made_log. simpl. lia.
  - constructor; simpl; try done.
    + by eapply load_content.
    + by eapply load_split.
    + rewrite (load_over _ _ Hl). by destruct (h_event hd).
Qed.

Lemma contents_corrupt hd c sim fault offset from mask :
  hd.(h_event) = EvControl c -> hd.(h_bound) = true -> hd.(h_content) = false ->
  mask <> 0 -> c.(ce_mutation) = None -> c.(ce_bytes) !! Z.to_nat offset = Some from ->
  contents (Some hd, sim) ->
  let bytes := <[Z.to_nat offset := Z.lxor from mask]> c.(ce_bytes) in
  contents (Some (hd <| h_content := true |> <| h_event := EvControl (c <| ce_bytes := bytes |>
      <| ce_message_id := message_identity digest bytes |>
      <| ce_mutation := Some (mkByteMutation offset from (Z.lxor from mask) c.(ce_message_id)) |>) |>),
    record_effect fault c.(ce_id) (EffCorrupted offset from (Z.lxor from mask)) sim).
Proof.
  intros He Hb Hc Hm Hn Hf HC bytes. pose proof (ct_hand _ HC _ eq_refl) as [H1 H2 H3 H4 _].
  rewrite He in *. simpl in *. destruct (H4 Hc) as [Hp _].
  eapply contents_bend; [exact HC|by rewrite He|done|done| |].
  - intros id. unfold record_effect. rewrite pieces_made_log. simpl. lia.
  - rewrite He. constructor; simpl; try done.
    by apply (content_corrupt c offset from mask).
Qed.

Lemma contents_amount hd a sim fault amount over :
  hd.(h_event) = EvAsset a -> hd.(h_bound) = true -> hd.(h_content) = false ->
  is_u128 amount -> (over = true -> a.(ae_requested) < amount) ->
  (over = false -> amount <> 0 /\ amount <= a.(ae_requested)) ->
  tables (Some hd) sim -> contents (Some hd, sim) ->
  contents (Some (hd <| h_content := true |> <| h_event := set_delivered amount over (EvAsset a) |>),
    record_effect fault a.(ae_id) (EffAmountSet amount) sim).
Proof.
  intros He Hb Hc [Hu _] Hov Hun HT HC. pose proof (hand_resolved _ _ HT Hb) as Hres. pose proof (ct_hand _ HC _ eq_refl) as [H1 H2 H3 H4 H5].
  rewrite He in *. simpl in *. destruct (H4 Hc) as [Hp Hmade]. specialize (Hmade Hb).
  assert (pending_sum hd = 0) as Hps by (unfold pending_sum; by rewrite Hp).
  eapply contents_bend; [exact HC|by rewrite He|done|done| |].
  - intros id. unfold record_effect. rewrite pieces_made_log. simpl. lia.
  - rewrite He. constructor; simpl; try done.
    + destruct H1 as [? _]. unfold amount_rule. destruct over; naive_solver lia.
    + unfold pending_sum. simpl. rewrite Hp, lsum_nil, Hmade. lia.
    + rewrite bool_decide_eq_true_2 by done. intros _ [[_ ?]|[?|?]]; done.
Qed.

Lemma contents_split hd a sim fault first rest total n :
  hd.(h_event) = EvAsset a -> hd.(h_bound) = true -> hd.(h_content) = false ->
  made_by_fault hd.(h_event) = false -> has_zero_piece (first :: rest) = false ->
  sum_pieces (first :: rest) = Some total -> total <= a.(ae_requested) ->
  Forall is_u128 (first :: rest) -> contents (Some hd, sim) ->
  contents (Some (hd <| h_content := true |> <| h_pending := rest |>
      <| h_event := EvAsset (a <| ae_delivered := first |> <| ae_piece := Some 0 |>) |>),
    record_effect fault a.(ae_id) (EffSplitInto n) sim).
Proof.
  intros He Hb Hc Hm Hz Hsum Ht Hu HC. pose proof (ct_hand _ HC _ eq_refl) as [H1 H2 H3 H4 H5].
  rewrite He in *. simpl in *. destruct (H4 Hc) as [Hp Hmade]. specialize (Hmade Hb).
  pose proof (H5 Hm (or_introl (conj Hb Hc))) as Hov.
  apply (has_zero_piece_false (first :: rest)) in Hz; [|done]. apply Forall_cons in Hz as [Hf Hrest].
  apply sum_pieces_Some in Hsum. rewrite lsum_cons in Hsum.
  pose proof (pieces_nonneg _ Hrest) as Hnn.
  eapply contents_bend; [exact HC|by rewrite He|done|done| |].
  - intros id. unfold record_effect. rewrite pieces_made_log. simpl. lia.
  - rewrite He. constructor; simpl; try done.
    + destruct H1 as [? _]. split; [done|]. unfold amount_rule. rewrite Hov. lia.
    + unfold pending_sum. simpl. rewrite Hmade. lia.
Qed.

(** The event in hand, which a caller scheduled, is what its batch repeats. *)
Lemma hand_origin hd sim e :
  tables (Some hd) sim -> made_by_fault hd.(h_event) = false -> repeats hd.(h_event) e ->
  exists o e0, sim.(sim_events) !! o = Some e0 /\ repeats e0 e.
Proof.
  intros HT Hm Hr. destruct (tb_hand _ _ HT _ eq_refl) as (e0 & He0 & [_ Hcore _ _ _ _] & _).
  exists (event_id hd.(h_event)), e0. split; [done|].
  by apply (repeats_core (h_event hd) _ e e).
Qed.

(** A piece moves from what is still to be made to what was made. *)
Lemma contents_count hd a sim amount rest id transfer index :
  hd.(h_event) = EvAsset a -> hd.(h_pending) = amount :: rest ->
  a.(ae_id) ∈ sim.(sim_resolved) -> contents (Some hd, sim) ->
  contents (Some (hd <| h_pending := rest |> <| h_credit ::= Z.pred |>),
    log (TrPartialDeliveryCreated a.(ae_id) id transfer amount index) sim).
Proof.
  intros He Hp Hres [C1 C2 C3 C4 C5 C6 C7]. simpl in *.
  pose proof (C7 _ eq_refl) as [H1 H2 H3 H4 H5]. rewrite He, Hp in *. simpl in *.
  apply Forall_cons in H2 as [Ham Hrest]. unfold pending_sum in H3. rewrite Hp, lsum_cons in H3.
  assert (forall i, pieces_made (log (TrPartialDeliveryCreated a.(ae_id) id transfer amount index) sim).(sim_trace) i =
    pieces_made sim.(sim_trace) i + if a.(ae_id) =? i then amount else 0) as Hpm
    by (intros; apply pieces_made_log).
  constructor; cbn [fst snd]; eauto.
  - intros i e Hi Hh. rewrite Hpm. simpl in Hh. rewrite He in Hh. simpl in Hh.
    rewrite (proj2 (Z.eqb_neq _ _) Hh), Z.add_0_r. by apply C2.
  - intros i Hi. rewrite Hpm, C3 by done. destruct (Z.eqb_spec (ae_id a) i); [by subst|done].
  - intros i. rewrite Hpm. pose proof (C4 i). destruct (_ =? _); lia.
  - intros hd' [= <-]. simpl. rewrite He. simpl. rewrite Hpm, Z.eqb_refl. constructor; simpl.
    + by rewrite He.
    + done.
    + rewrite He. unfold pending_sum. simpl. lia.
    + intros Hc. destruct (H4 Hc); done.
    + rewrite He. simpl. intros Hm Hcase. apply H5; [done|]. by right; left.
Qed.

Lemma contents_piece hd a sim sim' amount rest id index deliver_at :
  hd.(h_event) = EvAsset a -> hd.(h_pending) = amount :: rest ->
  hd.(h_bound) = true -> made_by_fault hd.(h_event) = false ->
  take_generated_id sim = Some (id, sim') -> tables (Some hd) sim -> contents (Some hd, sim) ->
  let piece := a <| ae_id := id |> <| ae_deliver_at := deliver_at |> <| ae_attempts := 0 |>
    <| ae_delivered := amount |> <| ae_piece := Some index |> <| ae_from_fault := true |>
    <| ae_status := Scheduled |> in
  contents (Some (hd <| h_pending := rest |> <| h_credit ::= Z.pred |>),
    log (TrPartialDeliveryCreated a.(ae_id) id a.(ae_transfer) amount index)
      (enqueue (queue_key_new deliver_at LaneAsset id) (store id (EvAsset piece) sim'))).
Proof.
  intros He Hp Hb Hm Ht HT HC piece. pose proof (ct_hand _ HC _ eq_refl) as [H1 H2 H3 H4 H5].
  destruct (take_generated_id_Some _ _ _ _ HT Ht) as (_ & -> & Hn & _).
  assert (over_of (h_event hd) = false) as Hov by (apply H5; [done|]; right; left; by rewrite Hp).
  assert (0 < amount) as Ham by (rewrite Hp in H2; by apply Forall_cons in H2 as [? _]).
  pose proof (hand_resolved _ _ HT Hb) as Hres. rewrite He in Hres, H1, H3, Hov, Hm. simpl in *.
  apply (contents_count hd a _ amount rest id _ index); [done|done|done|].
  apply (contents_add _ sim (EvAsset piece) (id + 1)); try done.
  - simpl. split; [apply H1|]. unfold amount_rule. rewrite Hov. split; [done|].
    unfold pending_sum in H3. rewrite Hp, lsum_cons in H3.
    rewrite Hp in H2. apply Forall_cons in H2 as [_ Hrest%pieces_nonneg].
    pose proof (ct_pieces _ HC (ae_id a)). destruct H1 as [_ [? _]]. simpl in *. lia.
  - by right.
  - intros _. apply (hand_origin hd); [done|by rewrite He|]. rewrite He. by split_and!.
Qed.

Lemma contents_copy hd sim sim' id deliver_at :
  made_by_fault hd.(h_event) = false -> take_generated_id sim = Some (id, sim') ->
  tables (Some hd) sim -> contents (Some hd, sim) ->
  let copy := clone_for_duplicate hd.(h_event) id deliver_at in
  contents (Some (hd <| h_credit ::= Z.pred |>),
    log (TrDuplicateCreated (event_id hd.(h_event)) id deliver_at)
      (enqueue (queue_key_new deliver_at (event_lane copy) id) (store id copy sim'))).
Proof.
  intros Hm Ht HT HC copy. pose proof (ct_hand _ HC _ eq_refl) as Hh.
  destruct (take_generated_id_Some _ _ _ _ HT Ht) as (_ & -> & Hn & _).
  assert (event_id copy = id) as Hid by (unfold copy; by destruct (h_event hd)).
  assert (contents (Some hd, enqueue (queue_key_new deliver_at (event_lane copy) id)
    (store id copy (sim <| sim_next_event := id + 1 |>)))) as HC1.
  { rewrite <-Hid. apply contents_add; rewrite ?Hid; try done.
    - apply content_clone, Hh.
    - right. unfold copy. by destruct (h_event hd).
    - intros _. apply (hand_origin hd); [done|done|]. unfold copy. by destruct (h_event hd); split_and!. }
  apply contents_log; [done|]. eapply contents_bend; [exact HC1|done..|].
  simpl. by destruct Hh.
Qed.

(** The attempt ends and the event goes back as it is. *)
Lemma contents_close hd sim sim' e :
  sim'.(sim_events) = <[event_id hd.(h_event) := e]> sim.(sim_events) ->
  event_core e = event_core hd.(h_event) -> load e = load hd.(h_event) ->
  event_id hd.(h_event) ∈ sim.(sim_resolved) ->
  sim'.(sim_trace) = sim.(sim_trace) -> sim'.(sim_resolved) = sim.(sim_resolved) ->
  tables (Some hd) sim -> contents (Some hd, sim) -> contents (None, sim').
Proof.
  intros Hev Hcore Hl Hres Htr Hre HT HC.
  destruct (tb_hand _ _ HT _ eq_refl) as (e0 & He0 & [_ Hcore0 _ _ _ _] & _).
  destruct HC as [C1 C2 C3 C4 C5 C6 C7]. pose proof (C7 _ eq_refl) as [H1 H2 H3 _ _]. simpl in *.
  constructor; simpl; intros *; rewrite ?Hev, ?Hre, ?Htr, ?lookup_insert_Some; eauto.
  - intros [[_ <-]|[_ ?]]; [by eapply load_content|eauto].
  - intros [[<- <-]|[Hne ?]] _; [|by apply C2].
    by eapply load_split, split_ok_settle; [|apply pieces_nonneg|..].
  - intros [[<- _]|[_ ?]] Hn; [done|eauto].
  - match goal with |- (_ = id /\ e = ?x \/ _) -> _ => rename x into e' end. intros Hin Hm.
    assert (exists e1, sim_events sim !! id = Some e1 /\ event_core e' = event_core e1) as (e1 & He1 & Hc1).
    { destruct Hin as [[<- <-]|[_ ?]]; [|eauto]. exists e0. split; [done|congruence]. }
    rewrite (core_made _ _ Hc1) in Hm. destruct (C6 _ _ He1 Hm) as (o & eo & Ho & Hr).
    assert (exists eo', <[event_id hd.(h_event) := e]> (sim_events sim) !! o = Some eo' /\
      event_core eo' = event_core eo) as (eo' & Ho' & Hco).
    { destruct (decide (o = event_id hd.(h_event))) as [->|].
      - exists e. rewrite lookup_insert_eq. split; [done|congruence].
      - exists eo. by rewrite lookup_insert_ne. }
    exists o, eo'. split; [done|]. by eapply repeats_core.
  - done.
Qed.

Lemma contents_mstep_hand h sim hd' sim' :
  mstep digest (h, sim) (Some hd', sim') -> tables h sim -> contents (h, sim) ->
  contents (Some hd', sim').
Proof.
  intros Hm HT HC. inversion Hm; subst.
  - apply contents_log; [done|]. by apply contents_pick.
  - by apply contents_bind.
  - by apply contents_log.
  - by apply contents_log.
  - by apply contents_reroute.
  - by apply (contents_corrupt h0).
  - by apply (contents_amount h0).
  - by apply (contents_split h0 a sim fault first rest total).
  - eapply contents_piece; eassumption.
  - eapply contents_copy; eassumption.
Qed.

Lemma contents_mstep_close hd sim sim' :
  mstep digest (Some hd, sim) (None, sim') -> tables (Some hd) sim -> contents (Some hd, sim) ->
  contents (None, sim').
Proof.
  intros Hm HT HC. inversion Hm; subst; unfold block, hand_over;
    try match goal with H : h_bound _ = true |- _ => apply (hand_resolved _ _ HT) in H end;
    try (apply contents_log; [done|]).
  all: eapply (contents_close hd sim); try done; try reflexivity; by destruct (h_event hd).
Qed.

Lemma contents_mstep a b :
  mstep digest a b -> tables a.1 a.2 -> contents a -> contents b.
Proof.
  destruct a as [[hd|] sim], b as [[hd'|] sim']; simpl; intros Hm HT.
  - by apply contents_mstep_hand.
  - by apply contents_mstep_close.
  - by apply contents_mstep_hand.
  - by apply contents_mstep_idle.
Qed.

Lemma contents_init config ids sim :
  with_config config ids = Ok sim -> Forall is_u32 ids -> contents (None, sim).
Proof.
  intros Hw Hids. destruct (with_config_Ok _ _ _ Hw Hids) as (ends & lanes & -> & _).
  by constructor.
Qed.

Lemma reachable_contents sim : sim_reachable digest sim -> contents (None, sim).
Proof.
  intros Hr. apply (reachable_ind digest contents); [|apply contents_mstep|done].
  intros config ids sim0 Hw Hids. by eapply contents_init.
Qed.
End content.
