(* ===== verification/SimInbox.v ===== *)
(** Deliveries happen once.  The inboxes of the endpoints are what the trace
    says was delivered, in its order: every delivered event has one record,
    every record one delivered event, and nothing else reaches an inbox. *)

From Stdlib Require Import ZArith Lia.
From S2P Require Import Prelude ProtocolTypes ProtocolCodec SimState SimEngine SimSteps SimTables.
From S2P Require Import SimRuns SimAttempt SimLoops.

(** * Reading deliveries from the trace *)

(** The event a record says was delivered. *)
Definition delivery_id (a : TraceAction) : option EventId :=
  match a with TrEventDelivered id _ _ _ => Some id | _ => None end.

(** What the record of a delivery put into an inbox, and whose. *)
Definition receipt (events : gmap Z Event) (r : TraceRecord) :
    option (EndpointId * (DeliveredControl + DeliveredAsset)) :=
  match r.(tr_action) with
  | TrEventDelivered id destination _ late =>
      match events !! id with
      | Some (EvControl c) => Some (destination, inl (delivered_control c r.(tr_tick) late))
      | Some (EvAsset a) => Some (destination, inr (delivered_asset a r.(tr_tick) late))
      | None => None
      end
  | _ => None
  end.

Definition receipts (sim : Simulator) : list (EndpointId * (DeliveredControl + DeliveredAsset)) :=
  omap (receipt sim.(sim_events)) sim.(sim_trace).

Definition control_for (d : EndpointId) (x : EndpointId * (DeliveredControl + DeliveredAsset)) :
    option DeliveredControl :=
  match x with (to, inl c) => if to =? d then Some c else None | (_, inr _) => None end.

Definition asset_for (d : EndpointId) (x : EndpointId * (DeliveredControl + DeliveredAsset)) :
    option DeliveredAsset :=
  match x with (to, inr a) => if to =? d then Some a else None | (_, inl _) => None end.

(** How often the trace says an event was delivered. *)
Definition times_delivered (t : list TraceRecord) (id : EventId) : nat :=
  length (filter (fun r => delivery_id r.(tr_action) = Some id) t).

Definition is_delivered (events : gmap Z Event) (id : EventId) : bool :=
  match events !! id with
  | Some e => bool_decide (event_status e = Delivered)
  | None => false
  end.

(** A record of a delivery tells the truth about the stored event. *)
Definition record_true (sim : Simulator) (r : TraceRecord) : Prop :=
  match r.(tr_action) with
  | TrEventDelivered id destination subject late =>
      exists e, sim.(sim_events) !! id = Some e /\ event_status e = Delivered /\
        event_destination e = destination /\ event_subject e = subject /\
        late = is_late e r.(tr_tick) /\
        (late = true -> config_policy sim.(sim_config) (event_lane e) = DeliverWithMarker)
  | _ => True
  end.

Record inboxes (sim : Simulator) : Prop := {
  ib_inbox d p :
    sim.(sim_endpoints) !! d = Some p ->
    p.(ep_control_inbox) = omap (control_for d) (receipts sim) /\
    p.(ep_asset_inbox) = omap (asset_for d) (receipts sim);
  ib_record r : r ∈ sim.(sim_trace) -> record_true sim r;
  ib_once id : times_delivered sim.(sim_trace) id = if is_delivered sim.(sim_events) id then 1%nat else 0%nat
}.

(** * Steps that deliver nothing *)

(** The delivered events of two networks are the same. *)
Definition same_delivered (events events' : gmap Z Event) : Prop :=
  forall id e, event_status e = Delivered -> events !! id = Some e <-> events' !! id = Some e.

Lemma same_delivered_refl events : same_delivered events events.
Proof. by intros ? ? ?. Qed.

Lemma same_delivered_insert events id e :
  event_status e <> Delivered ->
  (forall e0, events !! id = Some e0 -> event_status e0 <> Delivered) ->
  same_delivered events (<[id := e]> events).
Proof.
  intros Hs H0 i x Hx. rewrite lookup_insert_Some. split.
  - intros Hi. right. split; [|done]. intros ->. by destruct (H0 x).
  - intros [[_ ->]|[_ ?]]; done.
Qed.

Lemma is_delivered_true events id :
  is_delivered events id = true <-> exists e, events !! id = Some e /\ event_status e = Delivered.
Proof.
  unfold is_delivered. destruct (events !! id) as [e|]; [rewrite bool_decide_eq_true|]; naive_solver.
Qed.

Lemma is_delivered_same events events' id :
  same_delivered events events' -> is_delivered events' id = is_delivered events id.
Proof.
  intros Hs. apply eq_true_iff_eq. rewrite !is_delivered_true.
  split; intros (e & He & Hd); exists e; (split; [|done]); by apply (Hs id e Hd).
Qed.

Lemma receipts_same sim events' :
  Forall (record_true sim) sim.(sim_trace) -> same_delivered sim.(sim_events) events' ->
  omap (receipt events') sim.(sim_trace) = receipts sim.
Proof.
  intros Hall Hs. apply list_omap_ext, Forall_Forall2_diag. apply (Forall_impl _ _ _ Hall).
  intros r. unfold receipt, record_true. destruct (tr_action r); try done. intros Hr.
  destruct Hr as (e & He & Hd & _). rewrite He. apply (Hs _ _ Hd) in He. by rewrite He.
Qed.

(** The trace gains records of no delivery. *)
Definition extends (t t' : list TraceRecord) : Prop :=
  t' = t \/ exists r, delivery_id r.(tr_action) = None /\ t' = t ++ [r].

Lemma extends_push t now a : delivery_id a = None -> extends t (trace_push now a t).
Proof. intros Ha. right. eexists. split; [|reflexivity]. exact Ha. Qed.

Lemma inboxes_frame sim sim' :
  inboxes sim -> same_delivered sim.(sim_events) sim'.(sim_events) ->
  extends sim.(sim_trace) sim'.(sim_trace) -> sim'.(sim_config) = sim.(sim_config) ->
  (forall d p', sim'.(sim_endpoints) !! d = Some p' ->
    (exists p, sim.(sim_endpoints) !! d = Some p /\ p'.(ep_control_inbox) = p.(ep_control_inbox) /\
      p'.(ep_asset_inbox) = p.(ep_asset_inbox)) \/
    (sim.(sim_endpoints) !! d = None /\ p'.(ep_control_inbox) = [] /\ p'.(ep_asset_inbox) = [] /\
     omap (control_for d) (receipts sim) = [] /\ omap (asset_for d) (receipts sim) = [])) ->
  inboxes sim'.
Proof.
  intros [I1 I2 I3] Hs Ht Hc He.
  assert (receipts sim' = receipts sim) as Hrec.
  { rewrite <-(receipts_same sim (sim_events sim')); [|by apply Forall_forall|done].
    unfold receipts. destruct Ht as [->|(r & Hr & ->)]; [done|]. rewrite omap_app. simpl.
    unfold receipt at 2. destruct (tr_action r); try done; by rewrite app_nil_r. }
  constructor.
  - intros d p' Hp'. rewrite Hrec.
    destruct (He d p' Hp') as [(p & Hp & -> & ->)|(_ & -> & -> & -> & ->)]; [by apply I1|done].
  - assert (forall r, record_true sim r -> record_true sim' r) as Hold.
    { intros r. unfold record_true. destruct (tr_action r); try done. intros (e & Hev & Hd & Hrest).
      exists e. rewrite Hc. split; [by apply (Hs _ _ Hd)|done]. }
    intros r. destruct Ht as [->|(r0 & Hr & ->)]; [auto|].
    rewrite elem_of_app, list_elem_of_singleton. intros [?| ->]; [auto|].
    unfold record_true. by destruct (tr_action r0).
  - intros id. rewrite (is_delivered_same _ _ _ Hs), <-I3. unfold times_delivered.
    destruct Ht as [->|(r & Hr & ->)]; [done|]. rewrite filter_app, length_app.
    rewrite (filter_cons_False _ r) by congruence. simpl. lia.
Qed.

(** * Every step *)

Lemma inboxes_log sim a : delivery_id a = None -> inboxes sim -> inboxes (log a sim).
Proof.
  intros Ha HI. apply (inboxes_frame sim); try done; [by apply extends_push|eauto].
Qed.

(** A write of an event that is not delivered. *)
Lemma inboxes_write sim sim' id e :
  inboxes sim -> event_status e <> Delivered ->
  (forall e0, sim.(sim_events) !! id = Some e0 -> event_status e0 <> Delivered) ->
  sim'.(sim_events) = <[id := e]> sim.(sim_events) -> sim'.(sim_trace) = sim.(sim_trace) ->
  sim'.(sim_config) = sim.(sim_config) -> sim'.(sim_endpoints) = sim.(sim_endpoints) -> inboxes sim'.
Proof.
  intros HI Hs H0 Hev Htr Hc He. apply (inboxes_frame sim); try done.
  - rewrite Hev. by apply same_delivered_insert.
  - by left.
  - rewrite He. eauto.
Qed.

Lemma inboxes_paths sim sim' :
  inboxes sim -> sim'.(sim_events) = sim.(sim_events) -> sim'.(sim_trace) = sim.(sim_trace) ->
  sim'.(sim_config) = sim.(sim_config) ->
  (forall d p', sim'.(sim_endpoints) !! d = Some p' ->
    exists p, sim.(sim_endpoints) !! d = Some p /\ p'.(ep_control_inbox) = p.(ep_control_inbox) /\
      p'.(ep_asset_inbox) = p.(ep_asset_inbox)) ->
  inboxes sim'.
Proof.
  intros HI Hev Htr Hc He. apply (inboxes_frame sim); try done.
  - rewrite Hev. apply same_delivered_refl.
  - by left.
  - intros d p' Hp'. left. by apply He.
Qed.

Lemma inboxes_set_state sim sim' id p s :
  inboxes sim -> sim.(sim_endpoints) !! id = Some p -> sim'.(sim_events) = sim.(sim_events) ->
  sim'.(sim_trace) = sim.(sim_trace) -> sim'.(sim_config) = sim.(sim_config) ->
  sim'.(sim_endpoints) = <[id := set_state s p]> sim.(sim_endpoints) -> inboxes sim'.
Proof.
  intros HI Hp Hev Htr Hc He. apply (inboxes_paths sim); try done.
  intros d q. rewrite He, lookup_insert_Some. intros [[<- <-]|[_ ?]]; [|eauto].
  exists p. by destruct p.
Qed.

(** No record of a delivery names an endpoint that is not there. *)
Lemma receipts_routed sim h d :
  inboxes sim -> tables h sim -> sim.(sim_endpoints) !! d = None ->
  omap (control_for d) (receipts sim) = [] /\ omap (asset_for d) (receipts sim) = [].
Proof.
  intros [_ I2 _] HT Hd.
  assert (Forall (fun x => x.1 <> d) (receipts sim)) as Hall.
  { apply Forall_forall. intros [to x] Hin. apply list_elem_of_omap in Hin as (r & Hr & Hx).
    specialize (I2 r Hr). unfold receipt in Hx. unfold record_true in I2.
    destruct (tr_action r); try done. destruct I2 as (e & He & _ & Hde & _).
    destruct (tb_routed _ _ HT _ _ He) as (_ & _ & [q Hq]). rewrite He in Hx.
    destruct e; simplify_eq/=; congruence. }
  induction Hall as [|[to [c|a]] l Hne _ [IH1 IH2]]; [done|..];
    apply Z.eqb_neq in Hne; cbn -[Z.eqb] in *; rewrite ?Hne; done.
Qed.

Lemma inboxes_released ids sim sim' : releases ids sim sim' -> inboxes sim -> inboxes sim'.
Proof.
  intros [Hc _ He _ _ _ Ht _ _ Ho Hin] HI. apply (inboxes_frame sim); try done.
  - intros id e Hs. destruct (decide (id ∈ ids)) as [Hid|Hid]; [|by rewrite Ho].
    destruct (Hin id Hid) as (e1 & -> & Hb & ->). unfold released.
    split; intros [= <-]; [congruence|]. by autorewrite with event in Hs.
  - rewrite Ht. by left.
  - rewrite He. eauto.
Qed.

Section steps.
Context (digest : list Z -> list Z).

Lemma inboxes_mstep_idle sim sim' :
  mstep digest (None, sim) (None, sim') -> tables None sim -> inboxes sim -> inboxes sim'.
Proof.
  intros Hm HT HI. inversion Hm; subst; unfold pause_lane;
    try (apply inboxes_log; [done|]); try (by apply (inboxes_paths sim); eauto).
  - apply (inboxes_frame sim); try done; [by left|]. simpl. intros d p.
    rewrite lookup_insert_Some. intros [[<- <-]|[_ ?]]; [right|eauto].
    split_and!; try done; by eapply receipts_routed.
  - unfold insert_scheduled. match goal with |- inboxes (enqueue _ (store _ _ (log ?a ?s))) =>
      change (inboxes (log a (enqueue (event_key e) (store (event_id e) e s)))) end.
    apply inboxes_log; [done|]. eapply (inboxes_write sim _ (event_id e) e); try done; [|congruence].
    match goal with H : scheduled_event _ _ |- _ => destruct H as (_ & _ & _ & -> & _) end. done.
  - by eapply inboxes_set_state.
  - destruct (resume_endpoint_releases sim id p HT) as (_ & ids & _ & HR & _); [done|].
    apply (inboxes_released _ _ _ HR). by eapply inboxes_set_state.
  - destruct (resume_lane_releases sim lane HT) as (_ & ids & _ & HR & _).
    apply (inboxes_released _ _ _ HR). apply (inboxes_paths sim); eauto.
  - match goal with H : k ∈ _ |- _ => apply (tb_queue _ _ HT) in H as (e1 & He1 & Hs & _) end.
    assert (e1 = e) as -> by congruence.
    eapply (inboxes_write sim _ (qk_event k) (set_deliver_at t e)); try done.
    + autorewrite with event. by rewrite Hs.
    + congruence.
Qed.

Lemma inboxes_mstep_hand h sim hd sim' :
  mstep digest (h, sim) (Some hd, sim') -> tables h sim -> inboxes sim -> inboxes sim'.
Proof.
  intros Hm HT HI. inversion Hm; subst; unfold record_effect; try (apply inboxes_log; [done|]);
    try done; try (by apply (inboxes_paths sim); eauto).
  all: match goal with H : take_generated_id _ = _ |- _ =>
    destruct (take_generated_id_Some _ _ _ _ HT H) as (_ & -> & Hn & _) end.
  - apply (inboxes_write sim _ id (EvAsset piece)); try done. congruence.
  - apply (inboxes_write sim _ id copy); try done; [|congruence]. unfold copy. by destruct (h_event h0).
Qed.

Lemma receipts_deliver sim sim' e late :
  Forall (record_true sim) sim.(sim_trace) ->
  (forall e0, sim.(sim_events) !! event_id e = Some e0 -> event_status e0 <> Delivered) ->
  sim' = hand_over e late sim ->
  receipts sim' = receipts sim ++ [(event_destination e,
    match e with
    | EvControl c => inl (delivered_control c sim.(sim_now) late)
    | EvAsset a => inr (delivered_asset a sim.(sim_now) late)
    end)].
Proof.
  intros Hall Hn ->. unfold receipts, hand_over, log, trace_push. simpl. rewrite omap_app. f_equal.
  - apply list_omap_ext, Forall_Forall2_diag, (Forall_impl _ _ _ Hall).
    intros r. unfold receipt, record_true. destruct (tr_action r); try done. intros (e1 & He1 & Hd & _).
    rewrite lookup_insert_ne; [done|]. intros <-. by destruct (Hn e1).
  - unfold receipt. simpl. rewrite lookup_insert_eq. by destruct e.
Qed.

(** The delivery itself: one record, one entry, in the inbox of the endpoint
    the event goes to. *)
Lemma inboxes_deliver hd sim :
  tables (Some hd) sim -> inboxes sim ->
  (is_late hd.(h_event) sim.(sim_now) = true ->
   config_policy sim.(sim_config) (event_lane hd.(h_event)) = DeliverWithMarker) ->
  inboxes (hand_over hd.(h_event) (is_late hd.(h_event) sim.(sim_now)) sim).
Proof.
  intros HT [I1 I2 I3] Hpol. destruct (tb_hand _ _ HT _ eq_refl) as (e0 & He0 & [Hs0 _ _ _ _ _] & _).
  set (e := h_event hd) in *. set (late := is_late e _) in *.
  assert (forall e1, sim_events sim !! event_id e = Some e1 -> event_status e1 <> Delivered) as Hn
    by congruence.
  assert (Forall (record_true sim) (sim_trace sim)) as Hall by by apply Forall_forall.
  pose proof (receipts_deliver sim _ e late Hall Hn eq_refl) as Hrec. constructor.
  - intros d p. rewrite Hrec, !omap_app. unfold hand_over. simpl.
    destruct (decide (d = event_destination e)) as [->|Hne].
    + rewrite lookup_alter_eq. intros (q & Hq & ->)%fmap_Some. destruct (I1 _ _ Hq) as [Hc Ha].
      rewrite <-Hc, <-Ha. destruct e; cbn -[Z.eqb]; rewrite Z.eqb_refl, ?app_nil_r; done.
    + rewrite lookup_alter_ne by done. intros Hp. destruct (I1 _ _ Hp) as [-> ->].
      apply not_eq_sym, Z.eqb_neq in Hne.
      destruct e; cbn -[Z.eqb] in *; rewrite Hne, !app_nil_r; done.
  - unfold hand_over, log, trace_push. simpl. intros r.
    rewrite elem_of_app, list_elem_of_singleton. intros [Hr| ->].
    + specialize (I2 r Hr). unfold record_true in *. destruct (tr_action r); try done. simpl.
      destruct I2 as (e1 & He1 & Hd & Hrest). exists e1. split; [|done].
      rewrite lookup_insert_ne; [done|]. intros <-. by destruct (Hn e1).
    + unfold record_true. simpl. exists (set_status Delivered e). rewrite lookup_insert_eq.
      autorewrite with event. unfold is_late. split_and!; try done.
      subst late. unfold is_late. by destruct e.
  - intros id. unfold hand_over, log, trace_push, times_delivered, is_delivered. simpl.
    rewrite filter_app, length_app. fold (times_delivered (sim_trace sim) id). rewrite I3.
    destruct (decide (id = event_id e)) as [->|Hne].
    + rewrite lookup_insert_eq, filter_cons_True by done. autorewrite with event.
      rewrite bool_decide_eq_true_2 by done. unfold is_delivered. rewrite He0.
      rewrite bool_decide_eq_false_2 by congruence. done.
    + rewrite lookup_insert_ne, filter_cons_False by (simpl; congruence). simpl.
      rewrite Nat.add_0_r. done.
Qed.

Lemma inboxes_mstep_close hd sim sim' :
  mstep digest (Some hd, sim) (None, sim') -> tables (Some hd) sim -> inboxes sim -> inboxes sim'.
Proof.
  intros Hm HT HI. destruct (tb_hand _ _ HT _ eq_refl) as (e0 & He0 & [Hs0 _ _ _ _ _] & _).
  inversion Hm; subst; unfold block; try (by apply inboxes_deliver);
    try (apply inboxes_log; [done|]).
  all: eapply (inboxes_write sim _ (event_id (h_event hd))); try reflexivity; try done;
    autorewrite with event; try done; congruence.
Qed.

Lemma inboxes_mstep a b :
  mstep digest a b -> tables a.1 a.2 -> inboxes a.2 -> inboxes b.2.
Proof.
  destruct a as [[hd|] sim], b as [[hd'|] sim']; simpl; intros Hm HT.
  - by eapply inboxes_mstep_hand.
  - by eapply inboxes_mstep_close.
  - by eapply inboxes_mstep_hand.
  - by apply inboxes_mstep_idle.
Qed.

Lemma reachable_inboxes sim : sim_reachable digest sim -> inboxes sim.
Proof.
  intros Hr. apply (reachable_ind digest (fun c => inboxes c.2) sim); [|apply inboxes_mstep|done].
  intros config ids sim0 Hw Hids. destruct (with_config_Ok _ _ _ Hw Hids) as (ends & lanes & -> & He & _).
  constructor; simpl; [|by intros r ?%elem_of_nil|done].
  intros d p Hp. by destruct (He d p Hp) as [-> _].
Qed.

(** Where an inbox entry comes from. *)
Lemma asset_entry sim d entry :
  sim_reachable digest sim -> entry ∈ asset_inbox sim d ->
  exists a r late, r ∈ sim.(sim_trace) /\ sim.(sim_events) !! a.(ae_id) = Some (EvAsset a) /\
    a.(ae_status) = Delivered /\ a.(ae_destination) = d /\ entry = delivered_asset a r.(tr_tick) late.
Proof.
  intros Hr Hin. pose proof (reachable_tables _ _ Hr) as HT.
  destruct (reachable_inboxes _ Hr) as [I1 I2 _]. unfold asset_inbox in Hin.
  destruct (sim_endpoints sim !! d) as [p|] eqn:Hp; [|by apply elem_of_nil in Hin].
  simpl in Hin. rewrite (proj2 (I1 _ _ Hp)) in Hin.
  apply list_elem_of_omap in Hin as ([to x] & Hx & He).
  apply list_elem_of_omap in Hx as (r & Hrec & Hx). specialize (I2 r Hrec).
  unfold receipt in Hx. unfold record_true in I2. destruct (tr_action r); try done.
  destruct I2 as (e & Hev & Hs & Hd & _). rewrite Hev in Hx.
  destruct (tb_ids _ _ HT _ _ Hev) as [Hid _].
  destruct e as [c|a]; simplify_eq/=. destruct (Z.eqb_spec (ae_destination a) d); simplify_eq.
  by exists a, r, after_deadline.
Qed.

Lemma control_entry sim d entry :
  sim_reachable digest sim -> entry ∈ control_inbox sim d ->
  exists c r late, r ∈ sim.(sim_trace) /\ sim.(sim_events) !! c.(ce_id) = Some (EvControl c) /\
    c.(ce_status) = Delivered /\ c.(ce_destination) = d /\ entry = delivered_control c r.(tr_tick) late.
Proof.
  intros Hr Hin. pose proof (reachable_tables _ _ Hr) as HT.
  destruct (reachable_inboxes _ Hr) as [I1 I2 _]. unfold control_inbox in Hin.
  destruct (sim_endpoints sim !! d) as [p|] eqn:Hp; [|by apply elem_of_nil in Hin].
  simpl in Hin. rewrite (proj1 (I1 _ _ Hp)) in Hin.
  apply list_elem_of_omap in Hin as ([to x] & Hx & He).
  apply list_elem_of_omap in Hx as (r & Hrec & Hx). specialize (I2 r Hrec).
  unfold receipt in Hx. unfold record_true in I2. destruct (tr_action r); try done.
  destruct I2 as (e & Hev & Hs & Hd & _). rewrite Hev in Hx.
  destruct (tb_ids _ _ HT _ _ Hev) as [Hid _].
  destruct e as [c|a]; simplify_eq/=. destruct (Z.eqb_spec (ce_destination c) d); simplify_eq.
  by exists c, r, after_deadline.
Qed.
End steps.
