(* ===== verification/SimLedger.v ===== *)
(** The trace as a ledger.  [replay] reads the records of a trace one by one
    and keeps, for every event, where it goes, how often it was tried and
    how it stands; it refuses a record that no run can write.  The trace of
    a reachable network is never refused and what it adds up to is the
    network. *)

From Stdlib Require Import ZArith Lia.
From S2P Require Import Prelude ProtocolTypes ProtocolCodec SimState SimEngine SimSteps SimTables.
From S2P Require Import SimRuns SimAttempt SimLoops.

(** * The ledger *)

(** What the trace tells about one event. *)
Record Life := mkLife {
  lf_lane : Lane;
  lf_source : EndpointId;
  lf_destination : EndpointId;
  lf_attempts : Z;
  lf_made : bool;            (* made by a fault *)
  lf_status : EventStatus
}.

#[global] Instance Life_eta : Eta Life := fun l =>
  mkLife (lf_lane l) (lf_source l) (lf_destination l) (lf_attempts l) (lf_made l) (lf_status l).

Record Ledger := mkLedger {
  lg_count : nat;            (* records read *)
  lg_now : Tick;
  lg_halted : gset Z;
  lg_paused : gset Lane;
  lg_lives : gmap Z Life;
  lg_hand : option EventId   (* the event whose attempt is open *)
}.

#[global] Instance Ledger_eta : Eta Ledger := fun l =>
  mkLedger (lg_count l) (lg_now l) (lg_halted l) (lg_paused l) (lg_lives l) (lg_hand l).

Definition ledger_empty : Ledger := mkLedger 0 0 ∅ ∅ ∅ None.

Definition life_open (L : Ledger) (l : Life) : Prop :=
  (lf_lane l ∉ lg_paused L) /\ (lf_destination l ∉ lg_halted L).

#[global] Instance life_open_dec L l : Decision (life_open L l).
Proof. unfold life_open. apply _. Defined.

(** The reason a record gives for holding an event back. *)
Definition life_blocked (L : Ledger) (l : Life) (reason : BlockReason) : Prop :=
  match reason with
  | ReasonLanePaused => l.(lf_lane) ∈ L.(lg_paused)
  | ReasonEndpointHalted => l.(lf_destination) ∈ L.(lg_halted)
  end.

#[global] Instance life_blocked_dec L l reason : Decision (life_blocked L l reason).
Proof. destruct reason; simpl; apply _. Defined.

Definition freed (L : Ledger) (l : Life) : Prop := l.(lf_status) = Blocked /\ life_open L l.

#[global] Instance freed_dec L l : Decision (freed L l).
Proof. unfold freed. apply _. Defined.

(** The held events whose path is open again wait once more, and how many
    they are. *)
Definition free_lives (L : Ledger) : gmap Z Life :=
  (fun l => if decide (freed L l) then l <| lf_status := Scheduled |> else l) <$> L.(lg_lives).

Definition freed_count (L : Ledger) : Z :=
  Z.min u32_max (Z.of_nat (size (filter (fun p => freed L p.2) L.(lg_lives)))).

(** An attempt that ends without a record of its own was put off, which
    only the faults of a first attempt do. *)
Definition settle (L : Ledger) : option Ledger :=
  match L.(lg_hand) with
  | None => Some L
  | Some id =>
      match L.(lg_lives) !! id with
      | Some l =>
          if bool_decide (l.(lf_attempts) = 1) then
            Some (L <| lg_lives ::= <[id := l <| lf_status := Scheduled |>]> |> <| lg_hand := None |>)
          else None
      | None => None
      end
  end.

(** Records between attempts. *)
Definition idle_record (L : Ledger) (tick : Tick) (a : TraceAction) : option Ledger :=
  match a with
  | TrTickAdvanced from to =>
      if bool_decide (from = L.(lg_now) /\ from < to /\ tick = to) then Some (L <| lg_now := to |>) else None
  | TrEventScheduled id lane source destination _ deliver_at =>
      if bool_decide (tick = L.(lg_now) /\ L.(lg_now) <= deliver_at /\ source <> destination /\
                      L.(lg_lives) !! id = None) then
        Some (L <| lg_lives ::= <[id := mkLife lane source destination 0 false Scheduled]> |>)
      else None
  | TrEndpointHalted d =>
      if bool_decide (tick = L.(lg_now)) then Some (L <| lg_halted ::= union {[ d ]} |>) else None
  | TrEndpointResumed d released =>
      let L' := L <| lg_halted ::= (fun s => s ∖ {[ d ]}) |> in
      if bool_decide (tick = L.(lg_now) /\ released = freed_count L') then
        Some (L' <| lg_lives := free_lives L' |>)
      else None
  | TrLanePaused lane =>
      if bool_decide (tick = L.(lg_now)) then Some (L <| lg_paused ::= union {[ lane ]} |>) else None
  | TrLaneResumed lane released =>
      let L' := L <| lg_paused ::= (fun s => s ∖ {[ lane ]}) |> in
      if bool_decide (tick = L.(lg_now) /\ released = freed_count L') then
        Some (L' <| lg_lives := free_lives L' |>)
      else None
  | TrEventReordered id from to =>
      match L.(lg_lives) !! id with
      | Some l =>
          if bool_decide (tick = L.(lg_now) /\ l.(lf_status) = Scheduled /\ from <> to) then Some L else None
      | None => None
      end
  | TrDeliveryAttempted id destination attempt =>
      match L.(lg_lives) !! id with
      | Some l =>
          if bool_decide (tick = L.(lg_now) /\ l.(lf_status) = Scheduled /\ destination = l.(lf_destination) /\
                          attempt = saturating_add u32_max l.(lf_attempts) 1) then
            Some (L <| lg_lives ::= <[id := l <| lf_status := Ready |> <| lf_attempts := attempt |>]> |>
                    <| lg_hand := Some id |>)
          else None
      | None => None
      end
  | _ => None
  end.

Definition finish (L : Ledger) (id : EventId) (l : Life) (s : EventStatus) : option Ledger :=
  Some (L <| lg_lives ::= <[id := l <| lf_status := s |>]> |> <| lg_hand := None |>).

(** Records of the open attempt, of the event [id] that stands as [l]. *)
Definition attempt_record (L : Ledger) (id : EventId) (l : Life) (a : TraceAction) : option Ledger :=
  match a with
  | TrFaultApplied _ _ effect =>
      if bool_decide (l.(lf_attempts) = 1) then
        match effect with
        | EffRerouted to => Some (L <| lg_lives ::= <[id := l <| lf_destination := to |>]> |>)
        | _ => Some L
        end
      else None
  | TrFaultRejected _ _ _ => if bool_decide (l.(lf_attempts) = 1) then Some L else None
  | TrDuplicateCreated _ copy _ =>
      if bool_decide (l.(lf_attempts) = 1 /\ l.(lf_made) = false /\ L.(lg_lives) !! copy = None) then
        Some (L <| lg_lives ::=
          <[copy := mkLife l.(lf_lane) l.(lf_source) l.(lf_destination) 0 true Scheduled]> |>)
      else None
  | TrPartialDeliveryCreated _ piece _ amount _ =>
      if bool_decide (l.(lf_attempts) = 1 /\ l.(lf_made) = false /\ L.(lg_lives) !! piece = None /\
                      l.(lf_lane) = LaneAsset) then
        Some (L <| lg_lives ::=
          <[piece := mkLife l.(lf_lane) l.(lf_source) l.(lf_destination) 0 true Scheduled]> |>)
      else None
  | TrDeliveryBlocked _ destination reason =>
      if bool_decide (destination = l.(lf_destination) /\ life_blocked L l reason)
      then finish L id l Blocked else None
  | TrEventDelivered _ destination _ _ =>
      if bool_decide (destination = l.(lf_destination) /\ life_open L l) then finish L id l Delivered else None
  | TrEventExpired _ deadline =>
      if bool_decide (deadline < L.(lg_now) /\ life_open L l) then finish L id l Expired else None
  | TrEventDropped _ _ => if bool_decide (l.(lf_attempts) = 1) then finish L id l Dropped else None
  | TrEventRejected _ _ =>
      if bool_decide (l.(lf_attempts) = 1) then finish L id l RejectedBySimulator else None
  | _ => None
  end.

Definition is_idle (a : TraceAction) : bool :=
  match a with
  | TrTickAdvanced _ _ | TrEventScheduled _ _ _ _ _ _ | TrEndpointHalted _ | TrEndpointResumed _ _
  | TrLanePaused _ | TrLaneResumed _ _ | TrEventReordered _ _ _ | TrDeliveryAttempted _ _ _ => true
  | _ => false
  end.

(** One record; its index is its position. *)
Definition read_record (L : Ledger) (r : TraceRecord) : option Ledger :=
  if bool_decide (r.(tr_index) = Z.min u32_max (Z.of_nat L.(lg_count))) then
    let L := L <| lg_count ::= S |> in
    if is_idle r.(tr_action) then
      match settle L with Some L => idle_record L r.(tr_tick) r.(tr_action) | None => None end
    else
      match L.(lg_hand) with
      | Some id =>
          match L.(lg_lives) !! id with
          | Some l =>
              if bool_decide (r.(tr_tick) = L.(lg_now) /\ action_event r.(tr_action) = Some id)
              then attempt_record L id l r.(tr_action) else None
          | None => None
          end
      | None => None
      end
  else None.

Definition replay (t : list TraceRecord) : option Ledger :=
  foldl (fun acc r => match acc with Some L => read_record L r | None => None end) (Some ledger_empty) t.

Lemma replay_snoc t r : replay (t ++ [r]) = match replay t with Some L => read_record L r | None => None end.
Proof. unfold replay. by rewrite foldl_app. Qed.

(** An accepted trace numbers its records by position. *)
Lemma read_record_count L r L' :
  read_record L r = Some L' ->
  L'.(lg_count) = S L.(lg_count) /\ r.(tr_index) = Z.min u32_max (Z.of_nat L.(lg_count)).
Proof.
  unfold read_record, settle, idle_record, attempt_record, finish. intros H.
  repeat (case_match || case_bool_decide); simplify_eq; done.
Qed.

Lemma replay_index t L :
  replay t = Some L -> L.(lg_count) = length t /\
  forall i r, t !! i = Some r -> r.(tr_index) = Z.min u32_max (Z.of_nat i).
Proof.
  revert L. induction t as [|r t IH] using rev_ind; intros L; [by intros [= <-]|].
  rewrite replay_snoc. destruct (replay t) as [L0|]; [|done]. intros [Hc Hi]%read_record_count.
  destruct (IH L0 eq_refl) as [Hc0 IHt]. split; [rewrite length_app; simpl; lia|].
  intros i r' [H|[Hl H]]%lookup_app_Some; [by apply IHt|].
  apply list_lookup_singleton_Some in H as [Hz <-]. rewrite Hi, Hc0. f_equal. lia.
Qed.

(** * What the ledger says of a network *)

Definition life_of (e : Event) : Life :=
  mkLife (event_lane e) (event_source e) (event_destination e) (event_attempts e) (made_by_fault e)
    (event_status e).

Lemma life_set_status s e : life_of (set_status s e) = (life_of e) <| lf_status := s |>.
Proof. by destruct e. Qed.
Lemma life_set_deliver_at t e : life_of (set_deliver_at t e) = life_of e.
Proof. by destruct e. Qed.
Lemma life_set_destination d e : life_of (set_destination d e) = (life_of e) <| lf_destination := d |>.
Proof. by destruct e. Qed.
Lemma life_bump_attempts e :
  life_of (bump_attempts e) = (life_of e) <| lf_attempts ::= (fun n => saturating_add u32_max n 1) |>.
Proof. by destruct e. Qed.
Lemma life_set_delivered a o e : life_of (set_delivered a o e) = life_of e.
Proof. by destruct e. Qed.

#[export] Hint Rewrite life_set_status life_set_deliver_at life_set_destination life_bump_attempts
  life_set_delivered : event.

(** The ledger tells the network, with [lives] for its events. *)
Record tells (L : Ledger) (sim : Simulator) (lives : gmap Z Life) : Prop := {
  tl_count : L.(lg_count) = length sim.(sim_trace);
  tl_now : L.(lg_now) = sim.(sim_now);
  tl_halted d : d ∈ L.(lg_halted) <->
    exists p, sim.(sim_endpoints) !! d = Some p /\ p.(ep_state) = Halted;
  tl_paused lane : lane ∈ L.(lg_paused) <-> lane_state sim lane = Paused;
  tl_lives : L.(lg_lives) = lives
}.

(** Between attempts the settled ledger tells the stored events; during one
    it also tells the event in hand. *)
Definition ledger_agrees (c : Config) : Prop :=
  exists L, replay c.2.(sim_trace) = Some L /\
  match c.1 with
  | None => exists L', settle L = Some L' /\ L'.(lg_hand) = None /\
      tells L' c.2 (life_of <$> c.2.(sim_events))
  | Some hd => L.(lg_hand) = Some (event_id hd.(h_event)) /\ event_status hd.(h_event) = Ready /\
      tells L c.2 (<[event_id hd.(h_event) := life_of hd.(h_event)]> (life_of <$> c.2.(sim_events)))
  end.

(** The record a logged action becomes is read at its position. *)
Lemma replay_log a sim :
  replay (log a sim).(sim_trace) =
  match replay sim.(sim_trace) with
  | Some L => read_record L (mkTraceRecord (Z.min u32_max (Z.of_nat (length sim.(sim_trace)))) sim.(sim_now) a)
  | None => None
  end.
Proof. unfold log, trace_push. simpl. apply replay_snoc. Qed.

(** Settling keeps everything but the lives. *)
Lemma settle_frame L L' :
  settle L = Some L' ->
  L'.(lg_count) = L.(lg_count) /\ L'.(lg_now) = L.(lg_now) /\ L'.(lg_halted) = L.(lg_halted) /\
  L'.(lg_paused) = L.(lg_paused) /\ settle (L <| lg_count ::= S |>) = Some (L' <| lg_count ::= S |>).
Proof.
  unfold settle. destruct (lg_hand L) as [id|] eqn:Eh; [|by intros [= <-]; simpl; rewrite Eh].
  simpl. rewrite Eh. destruct (lg_lives L !! id) as [l|] eqn:El; [|done]. simpl.
  case_bool_decide; [|done]. by intros [= <-].
Qed.

Lemma length_trace_push tick a t : length (trace_push tick a t) = S (length t).
Proof. unfold trace_push. rewrite length_app. simpl. lia. Qed.

(** How the records of a run are read. *)
Lemma read_idle sim tick a :
  ledger_agrees (None, sim) -> is_idle a = true ->
  exists L, L.(lg_hand) = None /\ tells L sim (life_of <$> sim.(sim_events)) /\
    replay (trace_push tick a sim.(sim_trace)) = idle_record (L <| lg_count ::= S |>) tick a.
Proof.
  intros (L & HL & L' & Hs & Hh & Ht) Ha. simpl in *. exists L'. split_and!; try done.
  unfold trace_push. rewrite replay_snoc, HL. unfold read_record.
  destruct (settle_frame _ _ Hs) as (Hc & _ & _ & _ & Hs'). rewrite bool_decide_eq_true_2.
  - cbn [tr_action tr_tick]. by rewrite Ha, Hs'.
  - simpl. by rewrite <-Hc, (tl_count _ _ _ Ht).
Qed.

Lemma read_hand hd sim a :
  ledger_agrees (Some hd, sim) -> is_idle a = false -> action_event a = Some (event_id hd.(h_event)) ->
  exists L, L.(lg_hand) = Some (event_id hd.(h_event)) /\ event_status hd.(h_event) = Ready /\
    tells L sim (<[event_id hd.(h_event) := life_of hd.(h_event)]> (life_of <$> sim.(sim_events))) /\
    replay (trace_push sim.(sim_now) a sim.(sim_trace)) =
      attempt_record (L <| lg_count ::= S |>) (event_id hd.(h_event)) (life_of hd.(h_event)) a.
Proof.
  intros (L & HL & Hh & Hr & Ht) Ha He. simpl in *. exists L. split_and!; try done.
  unfold trace_push. rewrite replay_snoc, HL. unfold read_record.
  rewrite bool_decide_eq_true_2 by (simpl; by rewrite (tl_count _ _ _ Ht)).
  cbn [tr_action tr_tick]. rewrite Ha. cbn. rewrite Hh, (tl_lives _ _ _ Ht), lookup_insert_eq.
  rewrite bool_decide_eq_true_2; [done|]. by rewrite (tl_now _ _ _ Ht).
Qed.

(** Between attempts nothing is left to settle. *)
Lemma agrees_idle L sim' :
  replay sim'.(sim_trace) = Some L -> L.(lg_hand) = None -> tells L sim' (life_of <$> sim'.(sim_events)) ->
  ledger_agrees (None, sim').
Proof.
  intros HL Hh Ht. exists L. split; [done|]. exists L. split_and!; try done. unfold settle. by rewrite Hh.
Qed.

Lemma tells_lives L sim lives lives' : lives = lives' -> tells L sim lives -> tells L sim lives'.
Proof. by intros ->. Qed.

(** A record was read and the paths and the clock stayed. *)
Lemma tells_next L L' sim sim' lives tick a :
  tells L sim lives -> sim'.(sim_trace) = trace_push tick a sim.(sim_trace) ->
  sim'.(sim_now) = sim.(sim_now) -> sim'.(sim_lanes) = sim.(sim_lanes) ->
  (forall d, (exists p, sim'.(sim_endpoints) !! d = Some p /\ p.(ep_state) = Halted) <->
    (exists p, sim.(sim_endpoints) !! d = Some p /\ p.(ep_state) = Halted)) ->
  L'.(lg_count) = S L.(lg_count) -> L'.(lg_now) = L.(lg_now) -> L'.(lg_halted) = L.(lg_halted) ->
  L'.(lg_paused) = L.(lg_paused) -> tells L' sim' L'.(lg_lives).
Proof.
  intros [T1 T2 T3 T4 _] Htr Hn Hl He Hc Hn' Hh Hp. constructor; try done.
  - by rewrite Hc, T1, Htr, length_trace_push.
  - congruence.
  - intros d. by rewrite He, Hh, T3.
  - intros lane. rewrite Hp, T4. unfold lane_state. by rewrite Hl.
Qed.

Lemma agrees_frame h sim sim' :
  sim'.(sim_trace) = sim.(sim_trace) -> sim'.(sim_now) = sim.(sim_now) -> sim'.(sim_lanes) = sim.(sim_lanes) ->
  sim'.(sim_events) = sim.(sim_events) ->
  (forall d, (exists p, sim'.(sim_endpoints) !! d = Some p /\ p.(ep_state) = Halted) <->
    (exists p, sim.(sim_endpoints) !! d = Some p /\ p.(ep_state) = Halted)) ->
  ledger_agrees (h, sim) -> ledger_agrees (h, sim').
Proof.
  intros Htr Hn Hl Hev He.
  assert (forall L lives, tells L sim lives -> tells L sim' lives) as Hall.
  { intros L lives [T1 T2 T3 T4 T5]. constructor; try congruence.
    - intros d. by rewrite He, T3.
    - intros lane. rewrite T4. unfold lane_state. by rewrite Hl. }
  intros (L & HL & Hh). exists L. simpl in *. rewrite Htr, Hev. split; [done|].
  destruct h as [hd|]; [naive_solver|]. destruct Hh as (L' & ? & ? & ?). exists L'. auto.
Qed.

(** * Releasing *)

(** The freed lives are those of the released events. *)
Lemma freed_released L sim sim0 sim' ids :
  tables None sim -> releases ids sim0 sim' -> sim0.(sim_events) = sim.(sim_events) ->
  (forall i, i ∈ ids <-> i ∈ sim.(sim_held) /\ path_is_clear sim0 i = true) -> NoDup ids ->
  (forall d, is_Some (sim.(sim_endpoints) !! d) -> is_Some (sim0.(sim_endpoints) !! d)) ->
  tells L sim0 (life_of <$> sim0.(sim_events)) ->
  free_lives L = life_of <$> sim'.(sim_events) /\
  freed_count L = Z.min u32_max (Z.of_nat (length ids)).
Proof.
  intros HT [_ _ _ _ _ _ _ _ _ Ho Hin] Hev Hids Hnd Hdom [_ _ T3 T4 T5]. rewrite Hev in *.
  assert (forall id e, sim_events sim !! id = Some e -> freed L (life_of e) <-> id ∈ ids) as Hfreed.
  { intros id e He. rewrite Hids, (tb_held _ _ HT), (path_is_clear_open sim0 id e) by by rewrite Hev.
    unfold freed, life_open, path_open. simpl. rewrite T3, T4. split.
    - intros (Hs & Hl & Hd). split; [eauto|]. split; [by destruct (lane_state sim0 (event_lane e))|].
      destruct (tb_routed _ _ HT _ _ He) as (_ & _ & Hr). destruct (Hdom _ Hr) as [p Hp].
      exists p. split; [done|]. destruct (ep_state p) eqn:Hep; [done|]. destruct Hd. eauto.
    - intros ((e' & He' & Hs) & Hl & p & Hp & Hep). rewrite He in He'. injection He' as <-.
      split_and!; [done|by rewrite Hl|]. intros (q & Hq & Hq'). congruence. }
  split.
  - unfold free_lives. rewrite T5. apply map_eq. intros id. rewrite !lookup_fmap.
    destruct (decide (id ∈ ids)) as [Hid|Hid].
    + destruct (Hin id Hid) as (e & He & _ & ->). rewrite He. simpl.
      rewrite decide_True by by apply (Hfreed id e). unfold released. by autorewrite with event.
    + rewrite Ho by done. destruct (sim_events sim !! id) as [e|] eqn:He; [|done]. simpl.
      rewrite decide_False; [done|]. by rewrite (Hfreed id e).
  - unfold freed_count. f_equal. f_equal. rewrite T5.
    assert (dom (filter (fun p => freed L p.2) (life_of <$> sim_events sim)) = list_to_set ids) as Hd.
    { apply set_eq. intros id. rewrite elem_of_dom, elem_of_list_to_set. unfold is_Some.
      setoid_rewrite map_lookup_filter_Some. setoid_rewrite lookup_fmap_Some. simpl. split.
      - intros (l & (e & <- & He) & Hf). by apply (Hfreed id e).
      - intros Hid. destruct (Hin id Hid) as (e & He & _).
        exists (life_of e). split; [eauto|]. by apply (Hfreed id e). }
    rewrite <-size_dom, Hd. by apply size_list_to_set.
Qed.

Section steps.
Context (digest : list Z -> list Z).

Lemma agrees_time sim t :
  sim.(sim_now) < t -> ledger_agrees (None, sim) ->
  ledger_agrees (None, log (TrTickAdvanced sim.(sim_now) t) (sim <| sim_now := t |>)).
Proof.
  intros Hlt HA. destruct (read_idle sim t (TrTickAdvanced (sim_now sim) t) HA eq_refl) as (L & Hh & Ht & Hrep).
  destruct Ht as [T1 T2 T3 T4 T5]. simpl in Hrep. rewrite bool_decide_eq_true_2 in Hrep by done.
  eapply agrees_idle; [exact Hrep|done|]. constructor; simpl; try done.
  by rewrite length_trace_push, T1.
Qed.

Lemma agrees_schedule sim e :
  ledger_agrees (None, sim) -> sim.(sim_events) !! event_id e = None ->
  check_route sim (event_source e) (event_destination e) = Ok tt ->
  sim.(sim_now) <= event_deliver_at e -> scheduled_event digest e ->
  ledger_agrees (None, insert_scheduled e (event_subject e)
    (sim <| sim_next_event := Z.max (event_id e + 1) sim.(sim_next_event) |>)).
Proof.
  intros HA Hn (_ & _ & Hne)%check_route_Ok Hle (Ha & _ & Hm & Hs & _).
  destruct (read_idle sim (sim_now sim) (TrEventScheduled (event_id e) (event_lane e) (event_source e)
    (event_destination e) (event_subject e) (event_deliver_at e)) HA eq_refl) as (L & Hh & Ht & Hrep).
  pose proof Ht as [T1 T2 T3 T4 T5]. simpl in Hrep. rewrite bool_decide_eq_true_2 in Hrep.
  2: { simpl. rewrite T2, T5, lookup_fmap, Hn. done. }
  eapply agrees_idle; [exact Hrep|done|]. simpl. rewrite fmap_insert.
  eapply tells_lives; [|by eapply (tells_next L); [exact Ht|reflexivity|..]].
  simpl. rewrite T5. unfold life_of at 2. by rewrite Ha, Hm, Hs.
Qed.

Lemma agrees_halt sim id p :
  sim.(sim_endpoints) !! id = Some p -> ledger_agrees (None, sim) ->
  ledger_agrees (None, log (TrEndpointHalted id) (sim <| sim_endpoints ::= <[id := set_state Halted p]> |>)).
Proof.
  intros Hp HA. destruct (read_idle sim (sim_now sim) (TrEndpointHalted id) HA eq_refl) as (L & Hh & Ht & Hrep).
  pose proof Ht as [T1 T2 T3 T4 T5]. simpl in Hrep. rewrite bool_decide_eq_true_2 in Hrep by done.
  eapply agrees_idle; [exact Hrep|done|]. constructor; simpl; try done.
  - by rewrite length_trace_push, T1.
  - intros d. rewrite elem_of_union, elem_of_singleton, T3. destruct (decide (d = id)) as [->|Hne].
    + rewrite lookup_insert_eq. split; [|by left]. intros _. by eexists.
    + rewrite lookup_insert_ne by done. naive_solver.
Qed.

Lemma agrees_pause sim lane : ledger_agrees (None, sim) -> ledger_agrees (None, pause_lane lane sim).
Proof.
  intros HA. destruct (read_idle sim (sim_now sim) (TrLanePaused lane) HA eq_refl) as (L & Hh & Ht & Hrep).
  pose proof Ht as [T1 T2 T3 T4 T5]. simpl in Hrep. rewrite bool_decide_eq_true_2 in Hrep by done.
  eapply agrees_idle; [exact Hrep|done|]. constructor; simpl; try done.
  - by rewrite length_trace_push, T1.
  - intros lane'. rewrite elem_of_union, elem_of_singleton, T4. unfold lane_state. simpl.
    destruct (decide (lane' = lane)) as [->|Hne].
    + rewrite lookup_insert_eq. naive_solver.
    + rewrite lookup_insert_ne by done. naive_solver.
Qed.

(** A path opened and the freed events were released. *)
Lemma agrees_release sim sim0 ids a L L0 :
  tables None sim -> NoDup ids -> releases ids sim0 (release_held sim0).2 ->
  (forall i, i ∈ ids <-> i ∈ sim.(sim_held) /\ path_is_clear sim0 i = true) ->
  (release_held sim0).1 = Z.min u32_max (Z.of_nat (length ids)) ->
  sim0.(sim_events) = sim.(sim_events) -> sim0.(sim_trace) = sim.(sim_trace) -> sim0.(sim_now) = sim.(sim_now) ->
  (forall d, is_Some (sim.(sim_endpoints) !! d) -> is_Some (sim0.(sim_endpoints) !! d)) ->
  tells L sim (life_of <$> sim.(sim_events)) -> tells L0 sim0 (life_of <$> sim0.(sim_events)) ->
  L0.(lg_hand) = None ->
  replay (trace_push sim.(sim_now) a sim.(sim_trace)) =
    (if bool_decide (sim.(sim_now) = L.(lg_now) /\ (release_held sim0).1 = freed_count L0)
     then Some (L0 <| lg_count ::= S |> <| lg_lives := free_lives L0 |>) else None) ->
  ledger_agrees (None, log a (release_held sim0).2).
Proof.
  intros HT Hnd HR Hids Hcount Hev Htr Hnow Hdom Ht Ht0 Hh Hrep.
  destruct (freed_released L0 sim sim0 _ ids HT HR Hev Hids Hnd Hdom Ht0) as [Hlives Hfc].
  rewrite bool_decide_eq_true_2 in Hrep by (split; [by rewrite (tl_now _ _ _ Ht)|congruence]).
  pose proof Ht0 as [T1 T2 T3 T4 _]. pose proof HR as [_ Hn He Hl _ _ Htr' _ _ _ _].
  eapply agrees_idle.
  - simpl. rewrite Htr', Hn, Htr, Hnow. exact Hrep.
  - done.
  - constructor; simpl; try done; try congruence.
    + by rewrite length_trace_push, Htr', T1.
    + intros d. by rewrite T3, He.
    + intros lane. rewrite T4. unfold lane_state. simpl. by rewrite Hl.
Qed.

Lemma agrees_resume sim id p :
  tables None sim -> sim.(sim_endpoints) !! id = Some p -> ledger_agrees (None, sim) ->
  let out := release_held (sim <| sim_endpoints ::= <[id := set_state Active p]> |>) in
  ledger_agrees (None, log (TrEndpointResumed id out.1) out.2).
Proof.
  intros HT Hp HA. destruct (resume_endpoint_releases sim id p HT Hp) as (_ & ids & Hnd & HR & Hids & Hcount).
  cbv zeta in *. set (sim0 := sim <| sim_endpoints ::= <[id := set_state Active p]> |>) in *.
  destruct (read_idle sim (sim_now sim) (TrEndpointResumed id (release_held sim0).1) HA eq_refl)
    as (L & Hh & Ht & Hrep). pose proof Ht as [T1 T2 T3 T4 T5].
  apply (agrees_release sim sim0 ids _ L (L <| lg_halted ::= (fun s => s ∖ {[ id ]}) |>)); try done.
  - intros d Hd. simpl. destruct (decide (d = id)) as [->|]; [rewrite lookup_insert_eq; eauto|].
    by rewrite lookup_insert_ne.
  - constructor; simpl; try done. intros d. rewrite elem_of_difference, elem_of_singleton, T3.
    destruct (decide (d = id)) as [->|].
    + rewrite lookup_insert_eq. split; [by intros [_ []]|]. intros (q & [= <-] & ?). by destruct p.
    + rewrite lookup_insert_ne by done. naive_solver.
Qed.

Lemma agrees_resume_lane sim lane :
  tables None sim -> ledger_agrees (None, sim) ->
  let out := release_held (sim <| sim_lanes ::= <[lane := Running]> |>) in
  ledger_agrees (None, log (TrLaneResumed lane out.1) out.2).
Proof.
  intros HT HA. destruct (resume_lane_releases sim lane HT) as (_ & ids & Hnd & HR & Hids & Hcount).
  cbv zeta in *. set (sim0 := sim <| sim_lanes ::= <[lane := Running]> |>) in *.
  destruct (read_idle sim (sim_now sim) (TrLaneResumed lane (release_held sim0).1) HA eq_refl)
    as (L & Hh & Ht & Hrep). pose proof Ht as [T1 T2 T3 T4 T5].
  apply (agrees_release sim sim0 ids _ L (L <| lg_paused ::= (fun s => s ∖ {[ lane ]}) |>)); try done.
  constructor; simpl; try done. intros lane'. rewrite elem_of_difference, elem_of_singleton, T4.
  unfold lane_state. simpl. destruct (decide (lane' = lane)) as [->|].
  - rewrite lookup_insert_eq. simpl. naive_solver.
  - rewrite lookup_insert_ne by done. naive_solver.
Qed.

Lemma agrees_move sim k e t :
  tables None sim -> k ∈ sim.(sim_queue) -> sim.(sim_events) !! k.(qk_event) = Some e ->
  k.(qk_deliver_at) <> t -> ledger_agrees (None, sim) ->
  ledger_agrees (None, log (TrEventReordered k.(qk_event) k.(qk_deliver_at) t)
    (enqueue (queue_key_new t (event_lane e) k.(qk_event))
      (store k.(qk_event) (set_deliver_at t e)
        (sim <| sim_queue ::= (fun queue => queue ∖ {[ k ]}) |>)))).
Proof.
  intros HT Hk He Hne HA. pose proof Hk as (e1 & He1 & Hs & _)%(tb_queue _ _ HT).
  assert (e1 = e) as -> by congruence.
  destruct (read_idle sim (sim_now sim) (TrEventReordered k.(qk_event) k.(qk_deliver_at) t) HA eq_refl)
    as (L & Hh & Ht & Hrep).
  pose proof Ht as [T1 T2 T3 T4 T5]. simpl in Hrep. rewrite T5, lookup_fmap, He in Hrep. simpl in Hrep.
  rewrite bool_decide_eq_true_2 in Hrep by done.
  eapply agrees_idle; [exact Hrep|done|]. simpl. rewrite fmap_insert. autorewrite with event.
  eapply tells_lives; [|by eapply (tells_next L); [exact Ht|reflexivity|..]].
  simpl. rewrite T5, insert_id; [done|]. by rewrite lookup_fmap, He.
Qed.

Lemma agrees_pick sim k e :
  tables None sim -> k ∈ sim.(sim_queue) -> sim.(sim_events) !! k.(qk_event) = Some e ->
  ledger_agrees (None, sim) ->
  let e' := set_status Ready (bump_attempts e) in
  ledger_agrees (Some (mkHand e' false false [] 0),
    log (TrDeliveryAttempted k.(qk_event) (event_destination e') (event_attempts e'))
      (sim <| sim_queue ::= (fun queue => queue ∖ {[ k ]}) |>)).
Proof.
  intros HT Hk He HA e'. pose proof Hk as (e1 & He1 & Hs & _)%(tb_queue _ _ HT).
  assert (e1 = e) as -> by congruence. destruct (tb_ids _ _ HT _ _ He) as [Hid _].
  assert (life_of e' = (life_of e) <| lf_status := Ready |>
    <| lf_attempts := saturating_add u32_max (event_attempts e) 1 |>) as Hlife by by destruct e.
  assert (event_id e' = k.(qk_event)) as Hid' by (unfold e'; by autorewrite with event).
  assert (event_destination e' = event_destination e) as Hd by (unfold e'; by autorewrite with event).
  assert (event_attempts e' = saturating_add u32_max (event_attempts e) 1) as Hat
    by (unfold e'; by autorewrite with event).
  assert (event_status e' = Ready) as Hst by (unfold e'; by autorewrite with event).
  clearbody e'.
  destruct (read_idle sim (sim_now sim) (TrDeliveryAttempted k.(qk_event) (event_destination e') (event_attempts e'))
    HA eq_refl) as (L & Hh & Ht & Hrep).
  pose proof Ht as [T1 T2 T3 T4 T5]. simpl in Hrep. rewrite T5, lookup_fmap, He in Hrep. simpl in Hrep.
  rewrite bool_decide_eq_true_2 in Hrep by done.
  eexists. split; [exact Hrep|]. simpl. rewrite Hid'. split_and!; [done|done|].
  eapply tells_lives; [|by eapply (tells_next L); [exact Ht|reflexivity|..]].
  simpl. by rewrite T5, Hlife, Hat.
Qed.

(** A fault batch runs on the first attempt. *)
Lemma hand_first hd sim : tables (Some hd) sim -> hd.(h_bound) = true -> event_attempts hd.(h_event) = 1.
Proof.
  intros HT Hb. destruct (tb_hand _ _ HT _ eq_refl) as (e & _ & [_ _ Ha H0 _ _] & _).
  rewrite Ha, (H0 Hb). done.
Qed.

(** A record about the event in hand that leaves the attempt open. *)
Lemma agrees_open hd hd' sim sim' a :
  ledger_agrees (Some hd, sim) -> is_idle a = false -> action_event a = Some (event_id hd.(h_event)) ->
  sim'.(sim_trace) = trace_push sim.(sim_now) a sim.(sim_trace) -> sim'.(sim_now) = sim.(sim_now) ->
  sim'.(sim_lanes) = sim.(sim_lanes) -> sim'.(sim_endpoints) = sim.(sim_endpoints) ->
  event_id hd'.(h_event) = event_id hd.(h_event) -> event_status hd'.(h_event) = event_status hd.(h_event) ->
  (forall L, tells L sim (<[event_id hd.(h_event) := life_of hd.(h_event)]> (life_of <$> sim.(sim_events))) ->
    attempt_record (L <| lg_count ::= S |>) (event_id hd.(h_event)) (life_of hd.(h_event)) a =
      Some (L <| lg_count ::= S |> <| lg_lives :=
        <[event_id hd.(h_event) := life_of hd'.(h_event)]> (life_of <$> sim'.(sim_events)) |>)) ->
  ledger_agrees (Some hd', sim').
Proof.
  intros HA Hi Hev Htr Hn Hl He Hid Hst Hrec.
  destruct (read_hand hd sim a HA Hi Hev) as (L & Hh & Hr & Ht & Hrep).
  rewrite (Hrec L Ht) in Hrep. eexists. simpl. rewrite Htr. split; [exact Hrep|]. simpl.
  rewrite Hid. split_and!; [done|congruence|].
  eapply tells_lives; [|by eapply (tells_next L); [exact Ht|exact Htr|done|done|by rewrite He|..]]. done.
Qed.

Lemma same_lives L lives :
  L.(lg_lives) = lives -> L <| lg_count ::= S |> = L <| lg_count ::= S |> <| lg_lives := lives |>.
Proof. by intros <-. Qed.

Lemma change_lives L f lives :
  f L.(lg_lives) = lives ->
  L <| lg_count ::= S |> <| lg_lives ::= f |> = L <| lg_count ::= S |> <| lg_lives := lives |>.
Proof. by intros <-. Qed.

(** A record about the event in hand that ends the attempt. *)
Lemma agrees_close hd sim sim' a s :
  ledger_agrees (Some hd, sim) -> is_idle a = false -> action_event a = Some (event_id hd.(h_event)) ->
  sim'.(sim_trace) = trace_push sim.(sim_now) a sim.(sim_trace) -> sim'.(sim_now) = sim.(sim_now) ->
  sim'.(sim_lanes) = sim.(sim_lanes) ->
  (forall d, (exists p, sim'.(sim_endpoints) !! d = Some p /\ p.(ep_state) = Halted) <->
    (exists p, sim.(sim_endpoints) !! d = Some p /\ p.(ep_state) = Halted)) ->
  sim'.(sim_events) = <[event_id hd.(h_event) := set_status s hd.(h_event)]> sim.(sim_events) ->
  (forall L, tells L sim (<[event_id hd.(h_event) := life_of hd.(h_event)]> (life_of <$> sim.(sim_events))) ->
    attempt_record (L <| lg_count ::= S |>) (event_id hd.(h_event)) (life_of hd.(h_event)) a =
      finish (L <| lg_count ::= S |>) (event_id hd.(h_event)) (life_of hd.(h_event)) s) ->
  ledger_agrees (None, sim').
Proof.
  intros HA Hi Hev Htr Hn Hl He Hevents Hrec.
  destruct (read_hand hd sim a HA Hi Hev) as (L & Hh & Hr & Ht & Hrep).
  rewrite (Hrec L Ht) in Hrep. eapply agrees_idle; [rewrite Htr; exact Hrep|done|].
  eapply tells_lives; [|by eapply (tells_next L); [exact Ht|exact Htr|..]].
  simpl. rewrite (tl_lives _ _ _ Ht), insert_insert_eq, Hevents, fmap_insert. by autorewrite with event.
Qed.

(** The way is open in the ledger when it is open in the network. *)
Lemma path_life L sim lives e : tells L sim lives -> path_open sim e -> life_open (L <| lg_count ::= S |>) (life_of e).
Proof.
  intros [_ _ T3 T4 _] (Hl & p & Hp & Ha). split; simpl.
  - by rewrite T4, Hl.
  - rewrite T3. intros (q & Hq & Hs). simpl in Hq. congruence.
Qed.

(** An event made from the one in hand. *)
Lemma agrees_make hd hd' sim sim' id e a :
  tables (Some hd) sim -> ledger_agrees (Some hd, sim) -> sim.(sim_events) !! id = None ->
  is_idle a = false -> action_event a = Some (event_id hd.(h_event)) -> hd'.(h_event) = hd.(h_event) ->
  sim'.(sim_trace) = trace_push sim.(sim_now) a sim.(sim_trace) -> sim'.(sim_now) = sim.(sim_now) ->
  sim'.(sim_lanes) = sim.(sim_lanes) -> sim'.(sim_endpoints) = sim.(sim_endpoints) ->
  sim'.(sim_events) = <[id := e]> sim.(sim_events) ->
  (forall L, L.(lg_lives) !! id = None ->
    attempt_record L (event_id hd.(h_event)) (life_of hd.(h_event)) a =
      Some (L <| lg_lives ::= <[id := life_of e]> |>)) ->
  ledger_agrees (Some hd', sim').
Proof.
  intros HT HA Hn Hi Hev He' Htr Hnow Hl He Hevents Hrec.
  destruct (tb_hand _ _ HT _ eq_refl) as (e0 & He0 & _).
  assert (id <> event_id (h_event hd)) as Hne by congruence.
  apply (agrees_open hd hd' sim sim' a); rewrite ?He'; try done. intros L Ht. rewrite Hrec.
  - f_equal. apply change_lives.
    by rewrite (tl_lives _ _ _ Ht), Hevents, fmap_insert, insert_insert_ne.
  - simpl. rewrite (tl_lives _ _ _ Ht), lookup_insert_ne, lookup_fmap, Hn by done. done.
Qed.

Lemma agrees_mstep_idle sim sim' :
  mstep digest (None, sim) (None, sim') -> tables None sim -> ledger_agrees (None, sim) ->
  ledger_agrees (None, sim').
Proof.
  intros Hm HT HA. inversion Hm; subst.
  - by apply agrees_time.
  - revert HA. by apply agrees_frame.
  - revert HA. apply agrees_frame; try done. simpl. intros d. destruct (decide (d = id)) as [->|].
    + rewrite lookup_insert_eq. split; [by intros (? & [= <-] & ?)|]. intros (p & Hp & _). congruence.
    + by rewrite lookup_insert_ne.
  - by apply agrees_schedule.
  - by apply agrees_halt.
  - by apply agrees_resume.
  - by apply agrees_pause.
  - by apply agrees_resume_lane.
  - by apply agrees_move.
Qed.

Lemma agrees_mstep_hand h sim hd sim' :
  mstep digest (h, sim) (Some hd, sim') -> tables h sim -> ledger_agrees (h, sim) ->
  ledger_agrees (Some hd, sim').
Proof.
  intros Hm HT HA. inversion Hm; subst;
    try match goal with H : h_bound _ = true |- _ => pose proof (hand_first _ _ HT H) as Hfirst end.
  - by apply agrees_pick.
  - revert HA. destruct 1 as (L & ? & ? & ? & []). exists L. simpl in *. by split_and!.
  - apply (agrees_open hd hd sim _ (TrFaultApplied fault (event_id (h_event hd)) effect)); try done.
    intros L Ht. simpl. rewrite bool_decide_eq_true_2 by done. rewrite <-(same_lives L) by apply Ht.
    destruct effect; try done. by match goal with H : forall to, _ <> EffRerouted to |- _ => destruct (H to) end.
  - apply (agrees_open hd hd sim _ (TrFaultRejected fault (event_id (h_event hd)) reason)); try done.
    intros L Ht. simpl. rewrite bool_decide_eq_true_2 by done. by rewrite <-(same_lives L) by apply Ht.
  - apply (agrees_open h0 _ sim _ (TrFaultApplied fault (event_id (h_event h0)) (EffRerouted to)));
      try done; simpl; autorewrite with event; try done; [by destruct (h_event h0)|].
    intros L Ht. rewrite bool_decide_eq_true_2 by done. f_equal. apply change_lives.
    by rewrite (tl_lives _ _ _ Ht), insert_insert_eq.
  - destruct h0 as [ev ? ? ? ?]. simpl in *. subst ev.
    eapply (agrees_open _ _ sim _ (TrFaultApplied fault (ce_id c) (EffCorrupted offset from to)) HA); try done.
    intros L Ht. simpl. rewrite bool_decide_eq_true_2 by done. f_equal. apply same_lives, Ht.
  - destruct h0 as [ev ? ? ? ?]. simpl in *. subst ev.
    eapply (agrees_open _ _ sim _ (TrFaultApplied fault (ae_id a) (EffAmountSet amount)) HA); try done.
    intros L Ht. simpl. rewrite bool_decide_eq_true_2 by done. f_equal. apply same_lives, Ht.
  - destruct h0 as [ev ? ? ? ?]. simpl in *. subst ev.
    eapply (agrees_open _ _ sim _ (TrFaultApplied fault (ae_id a)
      (EffSplitInto (Z.min u16_max (Z.of_nat (length (first :: rest)))))) HA); try done.
    intros L Ht. simpl. rewrite bool_decide_eq_true_2 by done. f_equal. apply same_lives, Ht.
  - destruct h0 as [ev ? ? ? ?]. simpl in *. subst ev.
    match goal with H : take_generated_id _ = _ |- _ =>
      destruct (take_generated_id_Some _ _ _ _ HT H) as (_ & -> & Hn & _) end.
    eapply (agrees_make _ _ sim _ id (EvAsset piece)
      (TrPartialDeliveryCreated (ae_id a) id (ae_transfer a) amount index) HT HA); try done.
    intros L HL. simpl. by rewrite bool_decide_eq_true_2.
  - match goal with H : take_generated_id _ = _ |- _ =>
      destruct (take_generated_id_Some _ _ _ _ HT H) as (_ & -> & Hn & _) end.
    eapply (agrees_make _ _ sim _ id copy (TrDuplicateCreated (event_id (h_event h0)) id deliver_at) HT HA); try done.
    intros L HL. simpl. rewrite bool_decide_eq_true_2 by done. unfold copy. by destruct (h_event h0).
Qed.

(** An attempt put off leaves no record; the ledger settles it. *)
Lemma agrees_delay hd sim to :
  ledger_agrees (Some hd, sim) -> event_attempts hd.(h_event) = 1 ->
  ledger_agrees (None, enqueue (queue_key_new to (event_lane hd.(h_event)) (event_id hd.(h_event)))
    (store (event_id hd.(h_event)) (set_deliver_at to (set_status Scheduled hd.(h_event))) sim)).
Proof.
  intros (L & HL & Hh & Hr & Ht) Ha. simpl in *. exists L. split; [done|]. simpl.
  eexists. unfold settle. rewrite Hh, (tl_lives _ _ _ Ht), lookup_insert_eq.
  rewrite bool_decide_eq_true_2 by done. split; [done|]. split; [done|].
  destruct Ht as [T1 T2 T3 T4 T5]. constructor; try done. simpl.
  rewrite T5, insert_insert_eq, fmap_insert. by autorewrite with event.
Qed.

Lemma agrees_mstep_close hd sim sim' :
  mstep digest (Some hd, sim) (None, sim') -> tables (Some hd) sim -> ledger_agrees (Some hd, sim) ->
  ledger_agrees (None, sim').
Proof.
  intros Hm HT HA. inversion Hm; subst;
    try match goal with H : h_bound _ = true |- _ => pose proof (hand_first _ _ HT H) as Hfirst end.
  - apply (agrees_close hd sim _ (TrEventRejected (event_id (h_event hd)) reason) RejectedBySimulator); try done.
    intros L Ht. simpl. by rewrite bool_decide_eq_true_2.
  - apply (agrees_close hd sim _ (TrEventDropped (event_id (h_event hd)) (Some fault)) Dropped); try done.
    intros L Ht. simpl. by rewrite bool_decide_eq_true_2.
  - by apply agrees_delay.
  - apply (agrees_close hd sim _ (TrDeliveryBlocked (event_id (h_event hd)) (event_destination (h_event hd)) reason)
      Blocked); try done.
    intros L [_ _ T3 T4 _]. simpl. rewrite bool_decide_eq_true_2; [done|]. split; [done|].
    destruct reason; simpl in *; [by apply T3|by apply T4].
  - apply (agrees_close hd sim _ (TrEventExpired (event_id (h_event hd)) deadline) Expired); try done.
    intros L Ht. simpl. rewrite bool_decide_eq_true_2; [done|]. split; [by rewrite (tl_now _ _ _ Ht)|].
    by eapply path_life.
  - unfold hand_over. eapply (agrees_close hd sim _ (TrEventDelivered (event_id (h_event hd))
      (event_destination (h_event hd)) (event_subject (set_status Delivered (h_event hd)))
      (is_late (h_event hd) (sim_now sim))) Delivered); try done.
    + simpl. intros d. destruct (decide (d = event_destination (h_event hd))) as [->|].
      * rewrite lookup_alter_eq. setoid_rewrite fmap_Some. split.
        -- intros (p & (q & Hq & ->) & Hs). rewrite (proj1 (push_delivery_keeps _ _ _ _)) in Hs. eauto.
        -- intros (q & Hq & Hs). eexists. split; [by exists q|]. by rewrite (proj1 (push_delivery_keeps _ _ _ _)).
      * by rewrite lookup_alter_ne.
    + intros L Ht. simpl. rewrite bool_decide_eq_true_2; [done|]. split; [done|]. by eapply path_life.
Qed.

Lemma agrees_mstep a b : mstep digest a b -> tables a.1 a.2 -> ledger_agrees a -> ledger_agrees b.
Proof.
  destruct a as [[hd|] sim], b as [[hd'|] sim']; simpl; intros Hm HT.
  - by eapply agrees_mstep_hand.
  - by eapply agrees_mstep_close.
  - by eapply agrees_mstep_hand.
  - by apply agrees_mstep_idle.
Qed.

Lemma reachable_agrees sim : sim_reachable digest sim -> ledger_agrees (None, sim).
Proof.
  intros Hr. apply (reachable_ind digest ledger_agrees); [|apply agrees_mstep|done].
  intros config ids sim0 Hw Hids. destruct (with_config_Ok _ _ _ Hw Hids) as (ends & lanes & -> & He & Hl).
  apply (agrees_idle ledger_empty); [done|done|]. constructor; simpl; try done.
  - intros d. split; [set_solver|]. intros (p & Hp & Hs). by destruct (He d p Hp) as [-> _].
  - intros lane. rewrite Hl. split; [set_solver|done].
Qed.
End steps.
