(* ===== verification/SimDigest.v ===== *)
(** The canonical digest of a network and its snapshots.  The encoder writes
    the state field by field; what it writes is a prefix code, so equal
    bytes mean equal fields, and the one part of a stored event it leaves
    out is determined by the rest. *)

From Stdlib Require Import ZArith Lia.
From S2P Require Import Prelude ProtocolLayout ProtocolTypes ProtocolCodec ProtocolWire ProtocolMessages.
From S2P Require Import SimState SimEngine SimSteps SimTables SimRuns SimAttempt SimLoops SimContent SimInbox.

(** * The encoder *)

(** A method of [Encoder] is the bytes it appends. *)
Definition enc_tag (tag : list Z) : list Z := tag.
Definition enc_u8 (value : Z) : list Z := [value].
Definition enc_bool (value : bool) : list Z := [if value then 1 else 0].
Definition enc_u16 (value : Z) : list Z := to_be 2 value.
Definition enc_u32 (value : Z) : list Z := to_be 4 value.
Definition enc_u64 (value : Z) : list Z := to_be 8 value.
Definition enc_u128 (value : Z) : list Z := to_be 16 value.

(** [count]: a length, saturated at the top of [u32]. *)
Definition enc_count (value : nat) : list Z := enc_u32 (Z.min u32_max (Z.of_nat value)).

Definition enc_wide (value : list Z) : list Z := value.
Definition enc_blob (value : list Z) : list Z := enc_count (length value) ++ value.
Definition enc_tick (value : Tick) : list Z := enc_u64 value.

Definition enc_maybe_tick (value : option Tick) : list Z :=
  enc_bool (bool_decide (is_Some value)) ++ enc_u64 (default 0 value).
Definition enc_maybe_u64 (value : option Z) : list Z :=
  enc_bool (bool_decide (is_Some value)) ++ enc_u64 (default 0 value).
Definition enc_maybe_u16 (value : option Z) : list Z :=
  enc_bool (bool_decide (is_Some value)) ++ enc_u16 (default 0 value).

Definition lane_state_code (s : LaneState) : Z := match s with Running => 0 | Paused => 1 end.
Definition policy_code (p : LatePolicy) : Z := match p with DeliverWithMarker => 0 | Expire => 1 end.

(** A counted loop over a collection. *)
Definition enc_list {A} (write : A -> list Z) (l : list A) : list Z :=
  enc_count (length l) ++ concat (write <$> l).

(** * The parts of the state *)

Definition write_delivered_mutation (mutation : option ByteMutation) : list Z :=
  match mutation with
  | Some m => enc_bool true ++ enc_u64 m.(bm_offset) ++ enc_u8 m.(bm_from) ++ enc_u8 m.(bm_to) ++
      enc_wide m.(bm_original_message_id)
  | None => enc_bool false ++ enc_u64 0 ++ enc_u8 0 ++ enc_u8 0 ++ enc_wide (replicate 32 0)
  end.

Definition write_delivered_control (entry : DeliveredControl) : list Z :=
  enc_u64 entry.(dc_event) ++ enc_u32 entry.(dc_source) ++ enc_u32 entry.(dc_intended_destination) ++
  enc_blob entry.(dc_bytes) ++ enc_wide entry.(dc_message_id) ++ enc_tick entry.(dc_delivered_at) ++
  enc_maybe_u64 entry.(dc_duplicate_of) ++ write_delivered_mutation entry.(dc_mutation) ++
  enc_bool entry.(dc_after_deadline).

Definition write_control_inbox (entries : list DeliveredControl) : list Z :=
  enc_list write_delivered_control entries.

Definition write_delivered_asset (entry : DeliveredAsset) : list Z :=
  enc_u64 entry.(da_event) ++ enc_wide entry.(da_transfer) ++ enc_u32 entry.(da_source) ++
  enc_u32 entry.(da_intended_destination) ++ enc_u128 entry.(da_requested) ++
  enc_u128 entry.(da_delivered) ++ enc_tick entry.(da_delivered_at) ++
  enc_maybe_u64 entry.(da_duplicate_of) ++ enc_maybe_u16 entry.(da_piece) ++
  enc_bool entry.(da_over_delivered) ++ enc_bool entry.(da_after_timeout).

Definition write_asset_inbox (entries : list DeliveredAsset) : list Z :=
  enc_list write_delivered_asset entries.

Definition write_endpoint (endpoint : Endpoint) : list Z :=
  enc_u32 endpoint.(ep_id) ++ enc_bool (is_halted endpoint) ++
  write_control_inbox endpoint.(ep_control_inbox) ++ write_asset_inbox endpoint.(ep_asset_inbox).

(** The mutation of a stored event, without the identity it replaced. *)
Definition write_mutation (mutation : option ByteMutation) : list Z :=
  match mutation with
  | Some m => enc_bool true ++ enc_u64 m.(bm_offset) ++ enc_u8 m.(bm_from) ++ enc_u8 m.(bm_to)
  | None => enc_bool false ++ enc_u64 0 ++ enc_u8 0 ++ enc_u8 0
  end.

Definition write_event (event : Event) : list Z :=
  enc_u8 (lane_priority (event_lane event)) ++
  match event with
  | EvControl control =>
      enc_u64 control.(ce_id) ++ enc_u32 control.(ce_source) ++ enc_u32 control.(ce_destination) ++
      enc_u32 control.(ce_intended_destination) ++ enc_blob control.(ce_bytes) ++
      enc_wide control.(ce_message_id) ++ enc_tick control.(ce_deliver_at) ++
      enc_u32 control.(ce_attempts) ++ enc_maybe_u64 control.(ce_duplicate_of) ++
      write_mutation control.(ce_mutation) ++ enc_maybe_tick control.(ce_expires_at) ++
      enc_bool control.(ce_from_fault) ++ enc_u8 (status_code control.(ce_status))
  | EvAsset asset =>
      enc_u64 asset.(ae_id) ++ enc_wide asset.(ae_transfer) ++ enc_u32 asset.(ae_source) ++
      enc_u32 asset.(ae_destination) ++ enc_u32 asset.(ae_intended_destination) ++
      enc_u128 asset.(ae_requested) ++ enc_u128 asset.(ae_delivered) ++
      enc_tick asset.(ae_deliver_at) ++ enc_u32 asset.(ae_attempts) ++
      enc_maybe_u64 asset.(ae_duplicate_of) ++ enc_maybe_u16 asset.(ae_piece) ++
      enc_bool asset.(ae_over_delivered) ++ enc_maybe_tick asset.(ae_timeout_at) ++
      enc_bool asset.(ae_from_fault) ++ enc_u8 (status_code asset.(ae_status))
  end.

Definition write_target (target : FaultTarget) : list Z :=
  match target with
  | TargetEvent id => enc_u8 1 ++ enc_u64 id
  | TargetMessage id => enc_u8 2 ++ enc_wide id
  | TargetTransfer id => enc_u8 3 ++ enc_wide id
  | TargetRoute source destination lane =>
      enc_u8 4 ++ enc_u32 source ++ enc_u32 destination ++ enc_u8 (lane_priority lane)
  | TargetLane lane => enc_u8 5 ++ enc_u8 (lane_priority lane)
  end.

Definition write_action (action : FaultAction) : list Z :=
  match action with
  | Delay ticks => enc_u8 1 ++ enc_u64 ticks
  | Drop => enc_u8 2
  | Duplicate copies spacing => enc_u8 3 ++ enc_u16 copies ++ enc_u64 spacing
  | ReplaceDestination to => enc_u8 4 ++ enc_u32 to
  | CorruptByte offset mask => enc_u8 5 ++ enc_u64 offset ++ enc_u8 mask
  | Partial amount => enc_u8 6 ++ enc_u128 amount
  | Split pieces spacing => enc_u8 7 ++ enc_list enc_u128 pieces ++ enc_u64 spacing
  | OverDeliver amount => enc_u8 8 ++ enc_u128 amount
  end.

Definition write_fault (fault : Fault) : list Z :=
  enc_u32 fault.(f_id) ++ write_target fault.(f_target) ++ write_action fault.(f_action).

Definition write_key (key : QueueKey) : list Z :=
  enc_tick key.(qk_deliver_at) ++ enc_u8 key.(qk_lane_priority) ++ enc_u64 key.(qk_event).

Definition write_lane (sim : Simulator) (lane : Lane) : list Z :=
  enc_u8 (lane_priority lane) ++ enc_u8 (lane_state_code (lane_state sim lane)).

(** The values of a [BTreeMap] in key order. *)
Definition values {V} (m : gmap Z V) : list V := (btree_iter Z.le m).*2.

(** The tags, in ASCII. *)
Definition XSM1 : list Z := [88; 83; 77; 49].
Definition TIME : list Z := [84; 73; 77; 69].
Definition CONF : list Z := [67; 79; 78; 70].
Definition ENDP : list Z := [69; 78; 68; 80].
Definition EVNT : list Z := [69; 86; 78; 84].
Definition QUEU : list Z := [81; 85; 69; 85].
Definition HELD : list Z := [72; 69; 76; 68].
Definition LANE : list Z := [76; 65; 78; 69].
Definition PLAN : list Z := [80; 76; 65; 78].
Definition BOUN : list Z := [66; 79; 85; 78].
Definition TRCE : list Z := [84; 82; 67; 69].
Definition NEXT : list Z := [78; 69; 88; 84].

Definition encode_state (sim : Simulator) : list Z :=
  enc_tag XSM1 ++ enc_tag TIME ++ enc_tick sim.(sim_now) ++
  enc_tag CONF ++ enc_u8 (policy_code sim.(sim_config).(sc_control_late_policy)) ++
  enc_u8 (policy_code sim.(sim_config).(sc_asset_late_policy)) ++
  enc_tag ENDP ++ enc_list write_endpoint (values sim.(sim_endpoints)) ++
  enc_tag EVNT ++ enc_list write_event (values sim.(sim_events)) ++
  enc_tag QUEU ++ enc_list write_key (queue_iter sim.(sim_queue)) ++
  enc_tag HELD ++ enc_list enc_u64 (btree_set_iter Z.le sim.(sim_held)) ++
  enc_tag LANE ++ write_lane sim LaneControl ++ write_lane sim LaneAsset ++
  enc_tag PLAN ++ enc_list write_fault (plan_iter sim.(sim_plan)) ++
  enc_tag BOUN ++ enc_list enc_u64 (btree_set_iter Z.le sim.(sim_resolved)) ++
  enc_tag TRCE ++ enc_count (length sim.(sim_trace)) ++
  enc_tag NEXT ++ enc_u64 sim.(sim_next_event).

Definition state_hash (digest : list Z -> list Z) (sim : Simulator) : list Z :=
  keccak256 digest (encode_state sim).

(** * Snapshots *)

Record Snapshot := mkSnapshot { sn_state : Simulator; sn_hash : list Z }.

Definition snapshot_new (digest : list Z -> list Z) (state : Simulator) : Snapshot :=
  mkSnapshot state (state_hash digest state).

Definition restore (s : Snapshot) : Simulator := s.(sn_state).

(** [branch] runs on a copy, so a refusal leaves nothing but the error. *)
Definition branch (digest : list Z -> list Z) (s : Snapshot) (operations : list Operation) :
    option (result SimError Simulator) :=
  match apply_all digest operations (restore s) with
  | None => None
  | Some (Ok _, copy) => Some (Ok copy)
  | Some (Err e, _) => Some (Err e)
  end.

(** Written fields stay folded. *)
#[global] Arguments enc_tag : simpl never.
#[global] Arguments enc_u8 : simpl never.
#[global] Arguments enc_bool : simpl never.
#[global] Arguments enc_u16 : simpl never.
#[global] Arguments enc_u32 : simpl never.
#[global] Arguments enc_u64 : simpl never.
#[global] Arguments enc_u128 : simpl never.
#[global] Arguments enc_count : simpl never.
#[global] Arguments enc_wide : simpl never.
#[global] Arguments enc_blob : simpl never.
#[global] Arguments enc_tick : simpl never.
#[global] Arguments enc_maybe_tick : simpl never.
#[global] Arguments enc_maybe_u64 : simpl never.
#[global] Arguments enc_maybe_u16 : simpl never.
#[global] Arguments enc_list : simpl never.
#[global] Typeclasses Opaque enc_tag enc_u8 enc_bool enc_u16 enc_u32 enc_u64 enc_u128 enc_count enc_wide enc_blob enc_tick
  enc_maybe_tick enc_maybe_u64 enc_maybe_u16 enc_list.

(** * Prefix codes *)

(** Two written values that start the same bytes are the same value. *)
Class PrefixCode {A} (P : A -> Prop) (write : A -> list Z) : Prop :=
  prefix_code x y r s : P x -> P y -> write x ++ r = write y ++ s -> x = y /\ r = s.

Lemma code_be n : PrefixCode (fits (be_max n)) (to_be n).
Proof.
  intros x y r s Hx Hy He. apply app_inj_1 in He as [He ->]; [|by rewrite !length_to_be].
  split; [|done]. by rewrite <-(from_to_be n x), <-(from_to_be n y), He.
Qed.

#[export] Instance code_u8 : PrefixCode (fun _ => True) enc_u8.
Proof. intros x y r s _ _ [= -> ->]. done. Qed.

#[export] Instance code_bool : PrefixCode (fun _ => True) enc_bool.
Proof. intros [] [] r s _ _ [= ->]; done. Qed.

#[export] Instance code_u16 : PrefixCode is_u16 enc_u16.
Proof. exact (code_be 2). Qed.

#[export] Instance code_u32 : PrefixCode is_u32 enc_u32.
Proof. exact (code_be 4). Qed.

#[export] Instance code_u64 : PrefixCode is_u64 enc_u64.
Proof. exact (code_be 8). Qed.

#[export] Instance code_u128 : PrefixCode is_u128 enc_u128.
Proof. exact (code_be 16). Qed.

#[export] Instance code_tick : PrefixCode is_u64 enc_tick.
Proof. exact code_u64. Qed.

#[export] Instance code_wide : PrefixCode (fun l => length l = WIDE) enc_wide.
Proof. intros x y r s Hx Hy He. apply app_inj_1 in He; [done|by etrans]. Qed.

#[export] Instance code_tag : PrefixCode (fun l => length l = 4%nat) enc_tag.
Proof. intros x y r s Hx Hy He. apply app_inj_1 in He; [done|by etrans]. Qed.

(** A length the encoder does not saturate. *)
Definition counted (n : nat) : Prop := Z.of_nat n <= u32_max.

#[export] Instance code_count : PrefixCode counted enc_count.
Proof.
  intros x y r s Hx Hy He. unfold counted, enc_count in *. rewrite !Z.min_r in He by done.
  apply code_u32 in He as [? ->]; [split; [lia|done]|split; lia..].
Qed.

Lemma code_maybe (P : Z -> Prop) (write : Z -> list Z) :
  PrefixCode P write -> P 0 ->
  PrefixCode (maybe P) (fun o => enc_bool (bool_decide (is_Some o)) ++ write (default 0 o)).
Proof.
  intros Hc H0 x y r s Hx Hy He. rewrite <-!app_assoc in He.
  apply code_bool in He as [Hb He]; [|done..].
  apply Hc in He as [Hv ->]; [|by destruct x|by destruct y]. split; [|done].
  destruct x, y; simpl in *; congruence.
Qed.

#[export] Instance code_maybe_u64 : PrefixCode (maybe is_u64) enc_maybe_u64.
Proof. by apply (code_maybe is_u64 enc_u64 _). Qed.

#[export] Instance code_maybe_tick : PrefixCode (maybe is_u64) enc_maybe_tick.
Proof. by apply (code_maybe is_u64 enc_u64 _). Qed.

#[export] Instance code_maybe_u16 : PrefixCode (maybe is_u16) enc_maybe_u16.
Proof. by apply (code_maybe is_u16 enc_u16 _). Qed.

#[export] Instance code_blob : PrefixCode (fun l => counted (length l)) enc_blob.
Proof.
  intros x y r s Hx Hy He. unfold enc_blob in He. rewrite <-!app_assoc in He.
  apply code_count in He as [Hl He]; [|done..]. by apply app_inj_1.
Qed.

#[export] Instance code_list {A} (P : A -> Prop) write `{!PrefixCode P write} :
  PrefixCode (fun l => counted (length l) /\ Forall P l) (enc_list write).
Proof.
  intros x y r s [Hcx Hx] [Hcy Hy] He. unfold enc_list in He. rewrite <-!app_assoc in He.
  apply code_count in He as [Hl He]; [|done..]. clear Hcx Hcy. revert y Hy Hl He.
  induction Hx as [|a x Ha _ IH]; intros [|b y] Hy Hl He; simplify_eq/=; [done|].
  apply Forall_cons in Hy as [Hb Hy]. rewrite <-!app_assoc in He.
  apply prefix_code in He as [-> He]; [|done..]. apply IH in He as [-> ->]; done.
Qed.

(** Reads the equal leading field off both sides. *)
Ltac peel H :=
  lazymatch type of H with
  | ?f ?x ++ _ = ?f ?y ++ _ =>
      let E := fresh "E" in
      apply (prefix_code x y) in H as [E H]; [|done || assumption..]
  end.

Ltac peel_all H := rewrite <-?app_assoc in H; repeat peel H.

#[export] Instance code_status : PrefixCode (fun _ => True) (fun s => enc_u8 (status_code s)).
Proof. intros x y r s _ _ He. peel_all He. split; [|done]. by destruct x, y. Qed.

#[export] Instance code_lane : PrefixCode (fun _ => True) (fun l => enc_u8 (lane_priority l)).
Proof. intros x y r s _ _ He. peel_all He. split; [|done]. by destruct x, y. Qed.

(** * The parts are prefix codes *)

Definition delivered_control_ok (d : DeliveredControl) : Prop :=
  is_u64 d.(dc_event) /\ is_u32 d.(dc_source) /\ is_u32 d.(dc_intended_destination) /\
  counted (length d.(dc_bytes)) /\ length d.(dc_message_id) = WIDE /\ is_u64 d.(dc_delivered_at) /\
  maybe is_u64 d.(dc_duplicate_of) /\
  match d.(dc_mutation) with
  | Some m => is_u64 m.(bm_offset) /\ length m.(bm_original_message_id) = WIDE
  | None => True
  end.

Definition delivered_asset_ok (d : DeliveredAsset) : Prop :=
  is_u64 d.(da_event) /\ length d.(da_transfer) = WIDE /\ is_u32 d.(da_source) /\
  is_u32 d.(da_intended_destination) /\ is_u128 d.(da_requested) /\ is_u128 d.(da_delivered) /\
  is_u64 d.(da_delivered_at) /\ maybe is_u64 d.(da_duplicate_of) /\ maybe is_u16 d.(da_piece).

#[export] Instance code_delivered_mutation :
  PrefixCode (fun o => match o with
    | Some m => is_u64 m.(bm_offset) /\ length m.(bm_original_message_id) = WIDE
    | None => True
    end) write_delivered_mutation.
Proof.
  intros [[]|] [[]|] r s Hx Hy He; cbn in *;
    repeat match goal with H : _ /\ _ |- _ => destruct H end;
    unfold write_delivered_mutation in He; cbn in He; peel_all He; try done; by subst.
Qed.

#[export] Instance code_delivered_control : PrefixCode delivered_control_ok write_delivered_control.
Proof.
  intros [] [] r s (? & ? & ? & ? & ? & ? & ? & ?) (? & ? & ? & ? & ? & ? & ? & ?) He. cbn in *.
  unfold write_delivered_control in He. cbn in He. peel_all He. by subst.
Qed.

#[export] Instance code_delivered_asset : PrefixCode delivered_asset_ok write_delivered_asset.
Proof.
  intros [] [] r s (? & ? & ? & ? & ? & ? & ? & ? & ?) (? & ? & ? & ? & ? & ? & ? & ? & ?) He. cbn in *.
  unfold write_delivered_asset in He. cbn in He. peel_all He. by subst.
Qed.

Definition endpoint_ok (p : Endpoint) : Prop :=
  is_u32 p.(ep_id) /\
  (counted (length p.(ep_control_inbox)) /\ Forall delivered_control_ok p.(ep_control_inbox)) /\
  (counted (length p.(ep_asset_inbox)) /\ Forall delivered_asset_ok p.(ep_asset_inbox)).

#[export] Instance code_endpoint : PrefixCode endpoint_ok write_endpoint.
Proof.
  intros [] [] r s (? & ? & ?) (? & ? & ?) He. cbn in *.
  unfold write_endpoint, write_control_inbox, write_asset_inbox in He. cbn in He. peel_all He. subst.
  split; [|done]. repeat match goal with st : EndpointState |- _ => destruct st end; done.
Qed.

#[export] Instance code_target : PrefixCode target_typed write_target.
Proof.
  intros x y r s Hx Hy He. destruct x, y; cbn in *; unfold is_wide in *;
    repeat match goal with H : _ /\ _ |- _ => destruct H end;
    peel_all He; try done; subst; try done;
    repeat match goal with l : Lane |- _ => destruct l end; done.
Qed.

Definition action_ok (a : FaultAction) : Prop :=
  match a with
  | Split pieces spacing => (counted (length pieces) /\ Forall is_u128 pieces) /\ is_u64 spacing
  | _ => action_typed a
  end.

#[export] Instance code_action : PrefixCode action_ok write_action.
Proof.
  intros x y r s Hx Hy He. destruct x, y; cbn in *;
    repeat match goal with H : _ /\ is_u64 _ |- _ => destruct H | H : _ /\ is_u8 _ |- _ => destruct H end;
    peel_all He; try done; by subst.
Qed.

Definition fault_ok (f : Fault) : Prop :=
  is_u32 f.(f_id) /\ target_typed f.(f_target) /\ action_ok f.(f_action).

#[export] Instance code_fault : PrefixCode fault_ok write_fault.
Proof.
  intros [] [] r s (? & ? & ?) (? & ? & ?) He. cbn in *. unfold write_fault in He. cbn in He.
  peel_all He. by subst.
Qed.

#[export] Instance code_key : PrefixCode (fun k => is_u64 k.(qk_deliver_at) /\ is_u64 k.(qk_event)) write_key.
Proof.
  intros [] [] r s (? & ?) (? & ?) He. cbn in *. unfold write_key in He. cbn in He. peel_all He. by subst.
Qed.

Section events.
Context (digest : list Z -> list Z) (Hwide : forall bytes, length (digest bytes) = WIDE).

(** The identity a corrupted event carried before follows from its bytes. *)
Definition event_ok (e : Event) : Prop :=
  event_typed e /\ content_ok digest e /\
  match e with EvControl c => counted (length c.(ce_bytes)) | EvAsset _ => True end.

Lemma mutation_code bytes m m' r s :
  match m with Some m => is_u64 m.(bm_offset) /\ is_u8 m.(bm_from) /\ is_u8 m.(bm_to) | None => True end ->
  match m' with Some m => is_u64 m.(bm_offset) /\ is_u8 m.(bm_from) /\ is_u8 m.(bm_to) | None => True end ->
  match m with Some m => mutation_ok digest bytes m | None => True end ->
  match m' with Some m => mutation_ok digest bytes m | None => True end ->
  write_mutation m ++ r = write_mutation m' ++ s -> m = m' /\ r = s.
Proof.
  intros Hm Hm' Ho Ho' He. destruct m as [[]|], m' as [[]|]; cbn in *; unfold mutation_ok in *; cbn in *;
    repeat match goal with H : _ /\ _ |- _ => destruct H end; peel_all He; try done. by subst.
Qed.

#[local] Instance code_event : PrefixCode event_ok write_event.
Proof.
  intros [c|a] [c'|a'] r s (Hx & Hc & Hl) (Hy & Hc' & Hl') He; unfold write_event in He;
    cbn [event_lane] in He; rewrite <-!app_assoc in He; peel He; try done.
  - destruct c, c'. unfold event_typed, control_event_typed, content_ok in *. cbn in *.
    repeat match goal with H : _ /\ _ |- _ => destruct H end. subst.
    assert (forall b, length (message_identity digest b) = WIDE) as Hid by (intros; apply Hwide).
    repeat (peel He || (apply (prefix_code (message_identity digest _)) in He as [_ He]; [|apply Hid..])).
    subst. eapply mutation_code in He as [-> He]; [|done..]. peel_all He. subst.
    split; [|done]. repeat match goal with st : EventStatus |- _ => destruct st end; done.
  - destruct a, a'. unfold event_typed, asset_event_typed, is_wide in *. cbn in *.
    repeat match goal with H : _ /\ _ |- _ => destruct H end. peel_all He. subst.
    split; [|done]. repeat match goal with st : EventStatus |- _ => destruct st end; done.
Qed.
End events.

(** * The whole state *)

(** Every collection the encoder counts fits the counter. *)
Definition counts_fit (sim : Simulator) : Prop :=
  counted (size sim.(sim_endpoints)) /\ counted (size sim.(sim_events)) /\
  counted (size sim.(sim_queue)) /\ counted (size sim.(sim_held)) /\ counted (size sim.(sim_plan)) /\
  counted (size sim.(sim_resolved)) /\ counted (length sim.(sim_trace)) /\
  map_Forall (fun _ p => counted (length p.(ep_control_inbox)) /\ counted (length p.(ep_asset_inbox)))
    sim.(sim_endpoints) /\
  map_Forall (fun _ e => match e with EvControl c => counted (length c.(ce_bytes)) | EvAsset _ => True end)
    sim.(sim_events) /\
  map_Forall (fun _ f => match f.(f_action) with Split pieces _ => counted (length pieces) | _ => True end)
    sim.(sim_plan).

#[global] Instance counts_fit_dec sim : Decision (counts_fit sim).
Proof.
  unfold counts_fit, counted. repeat apply and_dec; try apply _.
  - apply map_Forall_dec. intros _ []; apply _.
  - apply map_Forall_dec. intros _ f. destruct (f_action f); apply _.
Defined.

(** What two networks with the same bytes share: everything but the records
    of the trace, of which only the number is written. *)
Record same_network (sim sim' : Simulator) : Prop := {
  sn_now : sim.(sim_now) = sim'.(sim_now);
  sn_config : sim.(sim_config) = sim'.(sim_config);
  sn_endpoints : sim.(sim_endpoints) = sim'.(sim_endpoints);
  sn_events : sim.(sim_events) = sim'.(sim_events);
  sn_queue : sim.(sim_queue) = sim'.(sim_queue);
  sn_held : sim.(sim_held) = sim'.(sim_held);
  sn_lanes lane : lane_state sim lane = lane_state sim' lane;
  sn_plan : sim.(sim_plan) = sim'.(sim_plan);
  sn_resolved : sim.(sim_resolved) = sim'.(sim_resolved);
  sn_trace : length sim.(sim_trace) = length sim'.(sim_trace);
  sn_next : sim.(sim_next_event) = sim'.(sim_next_event)
}.

Lemma length_values {V} (m : gmap Z V) : length (values m) = size m.
Proof. unfold values. by rewrite length_fmap, btree_iter_Permutation, length_map_to_list. Qed.

Lemma Forall_values {V} (P : V -> Prop) (m : gmap Z V) :
  (forall k v, m !! k = Some v -> P v) -> Forall P (values m).
Proof.
  intros HP. unfold values. apply Forall_fmap, Forall_forall. intros [k v] Hin.
  apply elem_of_btree_iter in Hin. by eapply HP.
Qed.

Lemma length_set_iter {A} `{Countable A} (R : relation A) `{!RelDecision R} (s : gset A) :
  length (btree_set_iter R s) = size s.
Proof. unfold btree_set_iter. by rewrite merge_sort_Permutation. Qed.

(** A map whose values know their keys is its values. *)
Lemma values_inj {V} (key : V -> Z) (m m' : gmap Z V) :
  (forall k v, m !! k = Some v -> key v = k) -> (forall k v, m' !! k = Some v -> key v = k) ->
  values m = values m' -> m = m'.
Proof.
  intros Hm Hm' He.
  assert (forall m0 : gmap Z V, (forall k v, m0 !! k = Some v -> key v = k) ->
    btree_iter Z.le m0 = (fun v => (key v, v)) <$> values m0) as Hkeys.
  { intros m0 H0. unfold values. rewrite <-list_fmap_compose. symmetry.
    rewrite <-(list_fmap_id (btree_iter Z.le m0)) at 2. apply list_fmap_ext.
    intros i [k v] Hi%list_elem_of_lookup_2. apply elem_of_btree_iter in Hi. simpl. by rewrite (H0 k v). }
  apply map_eq. intros k. apply option_eq. intros v.
  rewrite <-!(elem_of_btree_iter Z.le), !Hkeys, He by done. done.
Qed.

Lemma set_iter_inj {A} `{Countable A} (R : relation A) `{!RelDecision R} (s s' : gset A) :
  btree_set_iter R s = btree_set_iter R s' -> s = s'.
Proof.
  intros He. apply set_eq. intros x. by rewrite <-!(elem_of_btree_set_iter R), He.
Qed.

Section binding.
Context (digest : list Z -> list Z) (Hwide : forall bytes, length (digest bytes) = WIDE).

(** The clock and the counter of a network stay within their widths. *)
Definition clocked (c : Config) : Prop :=
  c.2.(sim_next_event) <= u64_max /\ Forall (fun r => 0 <= r.(tr_tick) <= c.2.(sim_now)) c.2.(sim_trace).

Lemma clocked_frame h h' sim sim' :
  clocked (h, sim) -> 0 <= sim.(sim_now) <= sim'.(sim_now) -> sim'.(sim_next_event) <= u64_max ->
  (sim'.(sim_trace) = sim.(sim_trace) \/
   exists i a, sim'.(sim_trace) = sim.(sim_trace) ++ [mkTraceRecord i sim'.(sim_now) a]) ->
  clocked (h', sim').
Proof.
  intros [_ Ht] Hn Hx Htr. split; [done|]. simpl in *.
  assert (Forall (fun r => 0 <= r.(tr_tick) <= sim'.(sim_now)) sim.(sim_trace)) as Hold.
  { eapply Forall_impl; [done|]. simpl. intros; lia. }
  destruct Htr as [->|(i & a & ->)]; [done|]. apply Forall_app. split; [done|].
  apply Forall_singleton. simpl. lia.
Qed.

Lemma clocked_released ids sim0 sim' a :
  releases ids sim0 sim' -> 0 <= sim0.(sim_now) -> clocked (None, sim0) -> clocked (None, log a sim').
Proof.
  intros HR Hn HC. destruct HR as [_ Hnow _ _ _ _ Htr Hnx _ _ _]. pose proof HC as [Hx _].
  eapply (clocked_frame _ _ sim0); [exact HC|simpl; simpl in Hx; lia..|].
  right. simpl. unfold trace_push. rewrite Htr. by eexists _, _.
Qed.

Lemma clocked_mstep a b : mstep digest a b -> tables a.1 a.2 -> clocked a -> clocked b.
Proof.
  intros Hm HT HC. destruct a as [h sim]. simpl in *.
  pose proof (tb_now _ _ HT) as [Hn _]. pose proof HC as [Hx _]. simpl in Hx.
  inversion Hm; subst;
    try match goal with H : take_generated_id _ = _ |- _ =>
      destruct (take_generated_id_Some _ _ _ _ HT H) as (_ & -> & _ & ?) end.
  all: try (eapply (clocked_frame _ _ sim); [exact HC|simpl; lia|simpl; lia|
    simpl; (by left) || (right; eexists _, _; reflexivity)]).
  - destruct (resume_endpoint_releases sim id p HT) as (_ & ids & _ & HR & _); [done|].
    by apply (clocked_released _ _ _ _ HR).
  - destruct (resume_lane_releases sim lane HT) as (_ & ids & _ & HR & _).
    by apply (clocked_released _ _ _ _ HR).
Qed.

Lemma reachable_clocked sim : sim_reachable digest sim -> clocked (None, sim).
Proof.
  intros Hr. apply (reachable_ind digest clocked); [|apply clocked_mstep|done].
  intros config ids sim0 Hw Hids. destruct (with_config_Ok _ _ _ Hw Hids) as (ends & lanes & -> & _).
  by split.
Qed.

(** The parts of a reachable network are within what the codes read back. *)
Lemma event_fits sim id e :
  sim_reachable digest sim -> counts_fit sim -> sim.(sim_events) !! id = Some e -> event_ok digest e.
Proof.
  intros Hr (_ & _ & _ & _ & _ & _ & _ & _ & Hb & _) He. pose proof (reachable_tables _ _ Hr) as HT.
  destruct (reachable_contents _ _ Hr) as [C1 _ _ _ _ _ _].
  split_and!; [exact (tb_typed _ _ HT _ _ He)|exact (C1 _ _ He)|exact (Hb _ _ He)].
Qed.

Lemma delivered_control_fits c tick late :
  event_ok digest (EvControl c) -> is_u64 tick -> delivered_control_ok (delivered_control c tick late).
Proof.
  intros (Hty & (_ & Hid & Hm) & Hl) Ht. unfold delivered_control_ok. cbn in *.
  unfold control_event_typed in Hty. repeat match goal with H : _ /\ _ |- _ => destruct H end.
  split_and!; try assumption.
  - rewrite Hid. apply Hwide.
  - destruct (ce_mutation c) as [m|]; [|done]. destruct Hm as (_ & _ & ->).
    split; [by match goal with H : _ /\ _ |- _ => destruct H end|apply Hwide].
Qed.

Lemma delivered_asset_fits a tick late :
  event_ok digest (EvAsset a) -> is_u64 tick -> delivered_asset_ok (delivered_asset a tick late).
Proof.
  intros (Hty & _ & _) Ht. unfold delivered_asset_ok. cbn in *. unfold asset_event_typed, is_wide in Hty.
  repeat match goal with H : _ /\ _ |- _ => destruct H end. split_and!; assumption.
Qed.

Lemma reachable_endpoint_ok sim :
  sim_reachable digest sim -> counts_fit sim -> Forall endpoint_ok (values sim.(sim_endpoints)).
Proof.
  intros Hr Hfit. pose proof (reachable_tables _ _ Hr) as HT.
  assert (forall id e, sim.(sim_events) !! id = Some e -> event_ok digest e) as Hev
    by (intros; by eapply event_fits).
  destruct Hfit as (_ & _ & _ & _ & _ & _ & _ & Hl & _ & _).
  destruct (reachable_clocked _ Hr) as [_ Hticks]. rewrite Forall_forall in Hticks.
  assert (forall r, r ∈ sim_trace sim -> is_u64 (tr_tick r)) as Htick.
  { intros r Hin. specialize (Hticks r Hin). pose proof (tb_now _ _ HT). simpl in *. unfold fits in *. lia. }
  apply Forall_values. intros d p Hp. destruct (Hl _ _ Hp) as [Hlc Hla].
  destruct (tb_endpoints _ _ HT _ _ Hp) as [Hid Hu]. split_and!; try done; [by rewrite Hid|..].
  - apply Forall_forall. intros entry Hin.
    assert (entry ∈ control_inbox sim d) as Hin' by (unfold control_inbox; by rewrite Hp).
    destruct (control_entry _ _ _ _ Hr Hin') as (c & r & late & Hin2 & Hc & _ & _ & ->).
    apply delivered_control_fits; eauto.
  - apply Forall_forall. intros entry Hin.
    assert (entry ∈ asset_inbox sim d) as Hin' by (unfold asset_inbox; by rewrite Hp).
    destruct (asset_entry _ _ _ _ Hr Hin') as (a & r & late & Hin2 & Ha & _ & _ & ->).
    apply delivered_asset_fits; eauto.
Qed.

Lemma reachable_fault_ok sim :
  sim_reachable digest sim -> counts_fit sim -> Forall fault_ok (plan_iter sim.(sim_plan)).
Proof.
  intros Hr (_ & _ & _ & _ & _ & _ & _ & _ & _ & Hl). pose proof (reachable_tables _ _ Hr) as HT.
  apply (Forall_values fault_ok). intros k f Hf. destruct (tb_plan _ _ HT _ _ Hf) as (_ & ? & ? & Ha).
  specialize (Hl _ _ Hf). simpl in Hl. split_and!; try done. destruct (f_action f); try done. by destruct Ha.
Qed.

Lemma reachable_ids_fit sim id :
  sim_reachable digest sim -> is_Some (sim.(sim_events) !! id) -> is_u64 id.
Proof.
  intros Hr [e He]. pose proof (reachable_tables _ _ Hr) as HT. destruct (tb_ids _ _ HT _ _ He) as [<- _].
  pose proof (tb_typed _ _ HT _ _ He). destruct e; solve_typed.
Qed.

(** Every part of the state is within its code. *)
Record state_ok (sim : Simulator) : Prop := {
  so_now : is_u64 sim.(sim_now);
  so_endpoints : counted (length (values sim.(sim_endpoints))) /\ Forall endpoint_ok (values sim.(sim_endpoints));
  so_events : counted (length (values sim.(sim_events))) /\ Forall (event_ok digest) (values sim.(sim_events));
  so_queue : counted (length (queue_iter sim.(sim_queue))) /\
    Forall (fun k => is_u64 k.(qk_deliver_at) /\ is_u64 k.(qk_event)) (queue_iter sim.(sim_queue));
  so_held : counted (length (btree_set_iter Z.le sim.(sim_held))) /\
    Forall is_u64 (btree_set_iter Z.le sim.(sim_held));
  so_plan : counted (length (plan_iter sim.(sim_plan))) /\ Forall fault_ok (plan_iter sim.(sim_plan));
  so_resolved : counted (length (btree_set_iter Z.le sim.(sim_resolved))) /\
    Forall is_u64 (btree_set_iter Z.le sim.(sim_resolved));
  so_trace : counted (length sim.(sim_trace));
  so_next : is_u64 sim.(sim_next_event)
}.

Lemma reachable_state_ok sim : sim_reachable digest sim -> counts_fit sim -> state_ok sim.
Proof.
  intros Hr Hfit. pose proof (reachable_tables _ _ Hr) as HT. pose proof Hfit as (? & ? & ? & ? & ? & ? & ? & _).
  constructor; try assumption;
    try (split; [unfold queue_iter; rewrite ?length_values, ?(length_set_iter Z.le), ?(length_set_iter key_before);
      assumption || (unfold plan_iter; by rewrite length_fmap, btree_iter_Permutation, length_map_to_list)|]).
  - apply (tb_now _ _ HT).
  - by apply reachable_endpoint_ok.
  - apply Forall_values. intros. by eapply event_fits.
  - apply Forall_forall. intros k Hk. apply elem_of_btree_set_iter in Hk.
    apply (tb_queue _ _ HT) in Hk as (e & He & _ & _ & Hk). rewrite Hk at 1. simpl. split.
    + exact (typed_deliver_at _ (tb_typed _ _ HT _ _ He)).
    + by eapply reachable_ids_fit.
  - apply Forall_forall. intros id Hid. apply elem_of_btree_set_iter in Hid.
    apply (tb_held _ _ HT) in Hid as (e & He & _). by eapply reachable_ids_fit.
  - by apply reachable_fault_ok.
  - apply Forall_forall. intros id Hid. apply elem_of_btree_set_iter in Hid.
    apply (tb_resolved _ _ HT) in Hid as [(e & He & _)|[]]. by eapply reachable_ids_fit.
  - split; [apply (tb_next _ _ HT)|apply (reachable_clocked _ Hr)].
Qed.

Lemma encode_state_inj sim sim' :
  state_ok sim -> state_ok sim' -> tables None sim -> tables None sim' ->
  encode_state sim = encode_state sim' -> same_network sim sim'.
Proof.
  intros [] [] HT HT' He. pose proof (code_event digest Hwide) as Hce.
  apply (f_equal (fun l => l ++ [])) in He. unfold encode_state, write_lane in He. peel_all He.
  assert (forall a b, policy_code a = policy_code b -> a = b) as Hpol by (by intros [] []).
  assert (forall a b, lane_state_code a = lane_state_code b -> a = b) as Hlane by (by intros [] []).
  constructor; try done.
  - destruct (sim_config sim), (sim_config sim'). f_equal; auto.
  - apply (values_inj ep_id); try done; intros k p Hp;
      [apply (tb_endpoints _ _ HT _ _ Hp)|apply (tb_endpoints _ _ HT' _ _ Hp)].
  - apply (values_inj event_id); try done; intros k e Hk;
      [apply (tb_ids _ _ HT _ _ Hk)|apply (tb_ids _ _ HT' _ _ Hk)].
  - by apply (set_iter_inj key_before).
  - by apply (set_iter_inj Z.le).
  - intros []; auto.
  - apply (values_inj f_id); try done; intros k f Hf;
      [apply (tb_plan _ _ HT _ _ Hf)|apply (tb_plan _ _ HT' _ _ Hf)].
  - by apply (set_iter_inj Z.le).
Qed.
End binding.
