(* ===== verification/SimTheorems.v ===== *)
(** What the cross-chain simulator promises: its tables agree in every
    reachable network, everything delivered was delivered once and as the
    trace says, operations are all or nothing, the delivery loops end with
    nothing left to do, and the value and the bytes that arrive are those
    that were sent, bent only as the records say. *)

From Stdlib Require Import ZArith Lia.
From S2P Require Import Prelude ProtocolLayout ProtocolTypes ProtocolCodec ProtocolMessages SimState SimEngine SimSteps SimTables.
From S2P Require Import SimRuns SimAttempt SimLoops SimContent SimInbox SimLedger SimDigest.

(** A concrete run the witnesses evaluate: two endpoints, a corrupted control
    message, a transfer split in two pieces, a duplicated transfer and a
    halted endpoint. *)
Module SimSample.

(** A digest of the right width: 31 zero bytes and the sum of the input. *)
Definition sample_digest (bytes : list Z) : list Z :=
  replicate 31 0 ++ [foldl Z.add 0 bytes mod 256].

Definition transfer (n : Z) : list Z := replicate 31 0 ++ [n].

Definition first_steps : list Operation :=
  [ ScheduleControl (mkControlRequest None 1 2 [10; 20; 30] 1 (Some 2));
    ScheduleAsset (mkAssetRequest None (transfer 1) 1 2 100 2 (Some 9));
    ScheduleAsset (mkAssetRequest None (transfer 2) 2 1 7 3 None);
    AddFault (mkFault 1 (TargetEvent 1) (CorruptByte 1 255));
    AddFault (mkFault 2 (TargetEvent 2) (Split [40; 50] 1));
    AddFault (mkFault 3 (TargetEvent 3) (Duplicate 1 2));
    AddFault (mkFault 4 (TargetLane LaneControl) (Delay 2)) ].

Definition later_steps : list Operation :=
  [ RunUntil 2; HaltEndpoint 2; RunUntil 5; PauseLane LaneAsset ].

Definition start : Simulator :=
  match simulator_new [1; 2] with Ok sim => sim | Err _ => mkSimulator config_default 0 ∅ ∅ ∅ ∅ ∅ ∅ ∅ [] 1 end.

Definition after (ops : list Operation) : Simulator :=
  match apply_all sample_digest ops start with
  | Some (_, sim) => sim
  | None => start
  end.

(** The network with everything scheduled, in mid run, and at rest. *)
Definition scheduled : Simulator := Eval vm_compute in after first_steps.
Definition running : Simulator := Eval vm_compute in after (first_steps ++ later_steps).
Definition at_rest : Simulator := Eval vm_compute in
  after (first_steps ++ later_steps ++ [ResumeEndpoint 2; ResumeLane LaneAsset; RunUntilIdle]).

Lemma apply_all_reachable digest ops sim r sim' :
  Forall op_typed ops -> apply_all digest ops sim = Some (r, sim') -> rtc (sim_step digest) sim sim'.
Proof.
  revert sim. induction ops as [|op ops IH]; intros sim Hops; simpl.
  { intros [= _ <-]. apply rtc_refl. }
  apply Forall_cons in Hops as [Hop Hops]. destruct (apply digest op sim) as [[[u|e] sim1]|] eqn:E; [| |done].
  - intros H. eapply rtc_l; [by eapply ss_apply|]. by apply IH.
  - intros [= _ <-]. eapply rtc_once. by eapply ss_apply.
Qed.

Lemma start_reachable ops sim :
  Forall op_typed ops -> apply_all sample_digest ops start = Some (Ok tt, sim) ->
  sim_reachable sample_digest sim.
Proof.
  intros Hops Ha. exists config_default, [1; 2], start. split_and!.
  - repeat (constructor; [by vm_compute|]). constructor.
  - reflexivity.
  - by eapply apply_all_reachable.
Qed.

Ltac sample_run ops := apply (start_reachable ops); [by repeat constructor|vm_compute; reflexivity].

Lemma scheduled_reachable : sim_reachable sample_digest scheduled.
Proof. sample_run first_steps. Qed.

Lemma running_reachable : sim_reachable sample_digest running.
Proof. sample_run (first_steps ++ later_steps). Qed.

Lemma at_rest_reachable : sim_reachable sample_digest at_rest.
Proof.
  sample_run (first_steps ++ later_steps ++ [ResumeEndpoint 2; ResumeLane LaneAsset; RunUntilIdle]).
Qed.

(** One lane or the other paused and resumed. *)
Definition pulsed (lane : Lane) : list Operation := [PauseLane lane; ResumeLane lane].
Definition control_pulsed : Simulator := Eval vm_compute in after (pulsed LaneControl).
Definition asset_pulsed : Simulator := Eval vm_compute in after (pulsed LaneAsset).

Lemma control_pulsed_reachable : sim_reachable sample_digest control_pulsed.
Proof. sample_run (pulsed LaneControl). Qed.

Lemma asset_pulsed_reachable : sim_reachable sample_digest asset_pulsed.
Proof. sample_run (pulsed LaneAsset). Qed.
End SimSample.

Section theorems.
Context (digest : list Z -> list Z).

(** C32. In every reachable network the queue holds exactly the scheduled
    events, each under the key of its tick, lane and identifier; the held
    set holds exactly the blocked events, and each of them has a closed
    path; no stored event is left in the middle of an attempt; the faults
    are bound of exactly the events that were attempted; and every event is
    stored under its own identifier, below the next one to be handed out,
    between known endpoints. *)
Theorem network_tables_agree sim :
  sim_reachable digest sim ->
  (forall k, k ∈ sim.(sim_queue) <->
    exists e, sim.(sim_events) !! k.(qk_event) = Some e /\ event_status e = Scheduled /\ k = event_key e) /\
  (forall id, id ∈ sim.(sim_held) <->
    exists e, sim.(sim_events) !! id = Some e /\ event_status e = Blocked) /\
  (forall id, id ∈ sim.(sim_resolved) <->
    exists e, sim.(sim_events) !! id = Some e /\ 0 < event_attempts e) /\
  (forall id e, sim.(sim_events) !! id = Some e ->
    event_id e = id /\ id < sim.(sim_next_event) /\ event_status e <> Ready /\ event_typed e /\
    routed sim e /\ (event_status e = Blocked -> ~ path_open sim e)).
Proof.
  intros HT%reachable_tables. split_and!.
  - intros k. rewrite (tb_queue _ _ HT). simpl. naive_solver.
  - apply (tb_held _ _ HT).
  - intros id. rewrite (tb_resolved _ _ HT). simpl. naive_solver.
  - intros id e He. destruct (tb_ids _ _ HT _ _ He). split_and!; try done.
    + by apply (tb_ready _ _ HT _ _ He).
    + by apply (tb_typed _ _ HT _ _ He).
    + by apply (tb_routed _ _ HT _ _ He).
    + by apply (tb_cause _ _ HT _ _ He).
Qed.

(** C33. Deliveries happen exactly once.  In every reachable network the
    inboxes of an endpoint are, in order, what the trace says was delivered
    to it; the trace records the delivery of an event once if the event is
    stored as delivered and never otherwise; and each such record names the
    endpoint the event went to and marks it late exactly when its deadline
    lies before the tick of the record, which happens only on a lane whose
    policy delivers late events. *)
Theorem deliveries_exactly_once sim :
  sim_reachable digest sim ->
  (forall d p, sim.(sim_endpoints) !! d = Some p ->
    control_inbox sim d = omap (control_for d) (receipts sim) /\
    asset_inbox sim d = omap (asset_for d) (receipts sim)) /\
  (forall id, times_delivered sim.(sim_trace) id =
    if is_delivered sim.(sim_events) id then 1%nat else 0%nat) /\
  (forall r, r ∈ sim.(sim_trace) -> record_true sim r).
Proof.
  intros [I1 I2 I3]%reachable_inboxes. split_and!; try done.
  intros d p Hp. unfold control_inbox, asset_inbox. rewrite Hp. simpl. by apply I1.
Qed.

(** C34. The delivery loops end.  Running until idle returns with an empty
    queue and every event either finished or blocked behind a closed path,
    and running until a tick returns at that tick with nothing due left. *)
Theorem delivery_runs_end sim :
  sim_reachable digest sim ->
  (exists n sim', run_until_idle digest sim = Some (n, sim') /\ sim'.(sim_queue) = ∅ /\
    forall id e, sim'.(sim_events) !! id = Some e ->
      is_terminal (event_status e) = true \/ (event_status e = Blocked /\ ~ path_open sim' e)) /\
  (forall t, is_u64 t -> sim.(sim_now) <= t ->
    exists n sim', run_until digest t sim = Some (Ok n, sim') /\ sim'.(sim_now) = t /\
      forall id e, sim'.(sim_events) !! id = Some e -> event_status e = Scheduled ->
        t < event_deliver_at e).
Proof.
  intros HT%reachable_tables. split.
  - destruct (run_until_idle_loop_ends digest (S (Z.to_nat (work sim))) 0 sim HT)
      as (n & sim' & E & Hdu & Hq & _); [lia|].
    exists n, sim'. split_and!; [done|done|]. intros id e He. pose proof (du_tables _ _ _ Hdu) as HT'.
    destruct (event_status e) eqn:Hs; try (by left).
    + destruct (tb_ids _ _ HT' _ _ He) as [Hid _].
      assert (event_key e ∈ sim_queue sim') as Hk.
      { apply (tb_queue _ _ HT'). exists e. simpl. rewrite Hid. auto. }
      rewrite Hq in Hk. by apply not_elem_of_empty in Hk.
    + by destruct (tb_ready _ _ HT' _ _ He).
    + right. split; [done|]. by apply (tb_cause _ _ HT' _ _ He).
  - intros t Ht Hle. unfold run_until. destruct (Z.ltb_spec t (sim_now sim)); [lia|].
    destruct (run_until_loop_ends digest (S (Z.to_nat (work sim))) t 0 sim HT)
      as (n & sim' & E & Hms & Hn & Hk); [lia|lia|exact Ht|].
    exists n, sim'. split_and!; [done|done|]. intros id e He Hs.
    assert (tables None sim') as HT' by exact (tables_msteps _ _ _ Hms HT).
    destruct (tb_ids _ _ HT' _ _ He) as [Hid _]. apply (Hk (event_key e)).
    apply (tb_queue _ _ HT'). exists e. simpl. rewrite Hid. auto.
Qed.

(** The operations a best effort run had accepted. *)
Definition accepted (ops : list Operation) (rs : list (result SimError unit)) : list Operation :=
  omap (fun pr => match pr.2 with Ok _ => Some pr.1 | Err _ => None end) (zip ops rs).

Lemma best_effort_runs ops sim :
  tables None sim -> Forall op_typed ops ->
  exists rs sim', apply_best_effort digest ops sim = Some (rs, sim') /\ length rs = length ops /\
    apply_all digest (accepted ops rs) sim = Some (Ok tt, sim').
Proof.
  revert sim. induction ops as [|op ops IH]; intros sim HT Hops; [by exists [], sim|].
  apply Forall_cons in Hops as [Hop Hops].
  destruct (apply_steps digest op sim HT Hop) as ([r sim1] & Ha & Hs). unfold steps_or_refuses in Hs.
  assert (tables None sim1) as HT1.
  { simpl in Hs. destruct r; [exact (tables_msteps _ _ _ Hs HT)|by subst]. }
  destruct (IH sim1 HT1 Hops) as (rs & sim' & Hb & Hl & Hall).
  exists (r :: rs), sim'. simpl. rewrite Ha, Hb. split_and!; [done|lia|].
  unfold accepted. simpl in *. destruct r as [[]|e]; simpl.
  - by rewrite Ha.
  - subst. done.
Qed.

(** Operations are all or nothing.  Every operation on a reachable
    network returns and leaves a reachable network, and one that is refused
    changed nothing; so a best effort run ends exactly where the operations
    it had accepted lead on their own. *)
Theorem operations_all_or_nothing sim :
  sim_reachable digest sim ->
  (forall op, op_typed op ->
    exists r sim', apply digest op sim = Some (r, sim') /\ sim_reachable digest sim' /\
      forall e, r = Err e -> sim' = sim) /\
  (forall ops, Forall op_typed ops ->
    exists rs sim', apply_best_effort digest ops sim = Some (rs, sim') /\ length rs = length ops /\
      apply_all digest (accepted ops rs) sim = Some (Ok tt, sim')).
Proof.
  intros Hr. pose proof (reachable_tables _ _ Hr) as HT. split.
  - intros op Hop. destruct (apply_steps digest op sim HT Hop) as ([r sim'] & Ha & Hs).
    exists r, sim'. split_and!; [done| |by intros e ->].
    destruct Hr as (config & ids & sim0 & Hids & H0 & Hsteps). exists config, ids, sim0.
    split_and!; try done. eapply rtc_r; [done|]. by eapply ss_apply.
  - intros ops. by apply best_effort_runs.
Qed.


(** C36. The trace tells the network.  The trace of a reachable network is a
    legal history for [replay]: attempts follow one another, faults act on
    first attempts only, copies and pieces come only from scheduled events,
    deliveries and expiries need an open path, blocks a closed one, releases
    count exactly the events they free, records are numbered by position.
    What the replayed records add up to is the network: its clock, the
    halted endpoints and paused lanes, and for every event its route, the
    number of its attempts and its status. *)
Theorem trace_tells_the_network sim :
  sim_reachable digest sim ->
  exists L L', replay sim.(sim_trace) = Some L /\ settle L = Some L' /\
    L'.(lg_now) = sim.(sim_now) /\
    (forall d, d ∈ L'.(lg_halted) <-> exists p, sim.(sim_endpoints) !! d = Some p /\ p.(ep_state) = Halted) /\
    (forall lane, lane ∈ L'.(lg_paused) <-> lane_state sim lane = Paused) /\
    L'.(lg_lives) = life_of <$> sim.(sim_events) /\
    (Z.of_nat (length sim.(sim_trace)) <= u32_max -> indices_are_contiguous sim.(sim_trace) = true).
Proof.
  intros (L & HL & L' & Hs & _ & [T1 T2 T3 T4 T5])%reachable_agrees. simpl in *.
  exists L, L'. split_and!; try done. intros Hlen. destruct (replay_index _ _ HL) as [_ Hi].
  unfold indices_are_contiguous. apply Is_true_true, forallb_True, Forall_lookup. intros i [j r].
  rewrite list_lookup_imap. intros (r0 & Hr & [= -> ->])%fmap_Some. simpl. apply Is_true_true, Z.eqb_eq.
  rewrite (Hi _ _ Hr). apply lookup_lt_Some in Hr. lia.
Qed.

(** The digest of a network binds it.  For a hash of the declared
    width, two reachable networks whose collections fit the 32-bit counters
    and whose digests are equal have the same clock, policies, endpoints
    with their inboxes, events, queue, held events, lanes, fault plan, bound
    events and next identifier, and traces of one length; or their own
    state bytes are two inputs with one hash.  The identity a corrupted
    event had before is not written, and is still determined. *)
Theorem state_hash_binds sim sim' :
  (forall bytes, length (digest bytes) = WIDE) ->
  sim_reachable digest sim -> sim_reachable digest sim' -> counts_fit sim -> counts_fit sim' ->
  state_hash digest sim = state_hash digest sim' ->
  same_network sim sim' \/ collides digest (encode_state sim) (encode_state sim').
Proof.
  intros Hwide Hr Hr' Hc Hc' He.
  destruct (decide (encode_state sim = encode_state sim')) as [Heq|Hne]; [left|right].
  - apply (encode_state_inj digest Hwide); try done;
      by apply reachable_state_ok || eapply reachable_tables.
  - by split.
Qed.
End theorems.

(** * Witnesses *)

Import SimSample.

Lemma network_tables_agree_witness :
  exists e, running.(sim_events) !! 4 = Some e /\ event_status e = Blocked.
Proof.
  destruct (network_tables_agree sample_digest running running_reachable) as (_ & Hheld & _).
  apply Hheld. apply (bool_decide_unpack _). vm_compute. exact I.
Defined.

Lemma deliveries_exactly_once_witness :
  times_delivered at_rest.(sim_trace) 1 = 1%nat /\
  asset_inbox at_rest 2 = omap (asset_for 2) (receipts at_rest).
Proof.
  destruct (deliveries_exactly_once sample_digest at_rest at_rest_reachable) as (Hin & Honce & _). split.
  - exact (Honce 1).
  - refine (proj2 (Hin 2 _ _)). vm_compute. reflexivity.
Defined.

Lemma delivery_runs_end_witness :
  exists n sim', run_until_idle sample_digest scheduled = Some (n, sim') /\ sim'.(sim_queue) = ∅ /\
    forall id e, sim'.(sim_events) !! id = Some e ->
      is_terminal (event_status e) = true \/ (event_status e = Blocked /\ ~ path_open sim' e).
Proof. exact (proj1 (delivery_runs_end sample_digest scheduled scheduled_reachable)). Defined.

Lemma operations_all_or_nothing_witness :
  exists r sim', apply sample_digest (HaltEndpoint 9) running = Some (r, sim') /\
    r = Err (UnknownEndpoint 9) /\ sim' = running.
Proof.
  destruct (operations_all_or_nothing sample_digest running running_reachable) as [Hop _].
  destruct (Hop (HaltEndpoint 9)) as (r & sim' & Ha & _ & Hsame); [by vm_compute|].
  exists r, sim'. assert (r = Err (UnknownEndpoint 9)) as Hr.
  { vm_compute in Ha. injection Ha as <- _. reflexivity. }
  split; [exact Ha|]. split; [exact Hr|exact (Hsame _ Hr)].
Defined.


Lemma trace_tells_the_network_witness :
  exists L L', replay running.(sim_trace) = Some L /\ settle L = Some L' /\
    (lf_attempts <$> L'.(lg_lives) !! 1) = Some 2 /\ (lf_status <$> L'.(lg_lives) !! 4) = Some Blocked.
Proof.
  destruct (trace_tells_the_network sample_digest running running_reachable)
    as (L & L' & HL & Hs & _ & _ & _ & Hl & _).
  exists L, L'. split; [exact HL|]. split; [exact Hs|]. rewrite Hl. split; vm_compute; reflexivity.
Defined.

(** The ledger refuses what no run writes: a second delivery of an event,
    or a delivery into a halted endpoint. *)
Example replay_refuses_a_second_delivery :
  replay (trace_push 5 (TrEventDelivered 2 2 (SubjectTransfer (transfer 1)) false) at_rest.(sim_trace)) = None.
Proof. vm_compute. reflexivity. Qed.

Example replay_refuses_a_closed_path :
  let attempted := trace_push 0 (TrDeliveryAttempted 1 2 1)
    (trace_push 0 (TrEndpointHalted 2) scheduled.(sim_trace)) in
  is_Some (replay attempted) /\
  replay (trace_push 0 (TrEventDelivered 1 2 (SubjectTransfer (transfer 1)) false) attempted) = None.
Proof. split; [vm_compute; eexists; reflexivity|vm_compute; reflexivity]. Qed.

Lemma state_hash_binds_witness :
  same_network control_pulsed asset_pulsed \/
  collides sample_digest (encode_state control_pulsed) (encode_state asset_pulsed).
Proof.
  apply (state_hash_binds sample_digest).
  - intros bytes. reflexivity.
  - exact control_pulsed_reachable.
  - exact asset_pulsed_reachable.
  - apply (bool_decide_unpack _). vm_compute. exact I.
  - apply (bool_decide_unpack _). vm_compute. exact I.
  - vm_compute. reflexivity.
Defined.

(** * Where the code leaves the text *)

(** The digest counts the records of the trace and does not read them: the
    control lane paused and resumed leaves the digest that the asset lane
    paused and resumed leaves, for every hash, although the traces differ. *)
Theorem digest_forgets_the_records :
  (forall digest, apply_all digest (pulsed LaneControl) start = Some (Ok tt, control_pulsed)) /\
  (forall digest, apply_all digest (pulsed LaneAsset) start = Some (Ok tt, asset_pulsed)) /\
  (forall digest, state_hash digest control_pulsed = state_hash digest asset_pulsed) /\
  control_pulsed.(sim_trace) <> asset_pulsed.(sim_trace).
Proof.
  split_and!; [by intros digest; vm_compute..|vm_compute; congruence].
Qed.

(** A transfer of 100 split into two pieces of 50, where the second piece
    is also the target of a partial delivery of 100. *)
Definition raised_piece : list Operation :=
  [ ScheduleAsset (mkAssetRequest None (transfer 1) 1 2 100 1 None);
    AddFault (mkFault 1 (TargetEvent 1) (Split [50; 50] 1));
    RunUntil 1;
    AddFault (mkFault 2 (TargetEvent 2) (Partial 100));
    RunUntilIdle ].

(** A partial delivery, which is to deliver less than the request, is held
    against the whole request also when it bends a piece of a split: the
    run is accepted, the piece of 50 arrives as 100, and 150 arrive of a
    request of 100 with no copy made and no entry marked as over-delivered. *)
Theorem partial_fault_raises_a_piece :
  exists sim, apply_all sample_digest raised_piece start = Some (Ok tt, sim) /\
    (fun entry => (entry.(da_event), entry.(da_delivered), entry.(da_over_delivered))) <$>
      asset_inbox sim 2 = [(1, 50, false); (2, 100, false)] /\
    delivered_for_transfer sim (transfer 1) = 150 /\
    Forall (fun entry => entry.(da_requested) = 100 /\ entry.(da_duplicate_of) = None) (asset_inbox sim 2).
Proof.
  eexists. split; [vm_compute; reflexivity|]. split; [vm_compute; reflexivity|].
  split; [vm_compute; reflexivity|]. by repeat constructor.
Qed.
