(* ===== verification/SimTransit.v ===== *)
(** A network whose plan holds no fault that reroutes, corrupts or
    over-delivers forges nothing: whatever a caller knows of the route and
    the content of every event it scheduled holds of every event in the
    network, copies and pieces included, and of every entry of an inbox; and
    inboxes only grow. *)

From Stdlib Require Import ZArith Lia.
From S2P Require Import Prelude ProtocolTypes ProtocolCodec SimState SimEngine SimSteps SimTables.
From S2P Require Import SimRuns SimAttempt SimLoops SimInbox.

(** The part of an event no mild fault can change. *)
Definition cargo (e : Event) :
    (EndpointId * EndpointId * list Z) + (EndpointId * EndpointId * TransferId * Z) :=
  match e with
  | EvControl c => inl (c.(ce_source), c.(ce_destination), c.(ce_bytes))
  | EvAsset a => inr (a.(ae_source), a.(ae_destination), a.(ae_transfer), a.(ae_requested))
  end.

Definition mild (action : FaultAction) : bool :=
  match action with ReplaceDestination _ | CorruptByte _ _ | OverDeliver _ => false | _ => true end.

Definition mild_plan (sim : Simulator) : Prop :=
  forall id f, sim.(sim_plan) !! id = Some f -> mild f.(f_action) = true.

Lemma mild_not_planned sim action : mild_plan sim -> mild action = false -> ~ planned sim action.
Proof. intros Hm Ha (id & f & Hf & <-). apply Hm in Hf. congruence. Qed.

(** Inboxes only grow. *)
Definition grows (sim sim' : Simulator) : Prop :=
  forall d, control_inbox sim d `prefix_of` control_inbox sim' d
    /\ asset_inbox sim d `prefix_of` asset_inbox sim' d.

#[global] Instance grows_po : PreOrder grows.
Proof.
  split.
  - intros sim d. by split.
  - intros s1 s2 s3 H1 H2 d. destruct (H1 d), (H2 d). split; by etrans.
Qed.

Lemma grows_same sim sim' : sim'.(sim_endpoints) = sim.(sim_endpoints) -> grows sim sim'.
Proof. intros He d. unfold control_inbox, asset_inbox. by rewrite He. Qed.

Lemma grows_hand_over e late sim : grows sim (hand_over e late sim).
Proof.
  intros d. unfold hand_over, control_inbox, asset_inbox. cbn. rewrite lookup_alter.
  case_decide as Hd; [subst|done]. destruct (sim_endpoints sim !! _) as [p|]; [cbn|done].
  destruct (set_status Delivered e); cbn; split; try done; by apply prefix_app_r.
Qed.

Section transit.
Context (digest : list Z -> list Z) (P : Event -> Prop).
Context (HP : forall e e', cargo e' = cargo e -> P e -> P e').

Definition carried (c : Config) : Prop :=
  (forall id e, c.2.(sim_events) !! id = Some e -> P e) /\
  (forall hd, c.1 = Some hd -> P hd.(h_event)).

Lemma carried_store h sim id e e0 :
  carried (h, sim) -> P e0 -> cargo e = cargo e0 -> carried (h, store id e sim).
Proof.
  intros [Hs Hh] H0 He. split; [|done]. cbn. intros id' e' [[<- <-]|[_ ?]]%lookup_insert_Some; eauto.
Qed.

Lemma carried_none h sim : carried (h, sim) -> carried (None, sim).
Proof. intros [Hs _]. by split. Qed.

(** Every step of an attempt keeps what is carried. *)
Lemma carried_hstep a b : hstep digest a b -> mild_plan a.2 -> carried a ->
  carried b /\ grows a.2 b.2 /\ sim_plan b.2 = sim_plan a.2.
Proof.
  intros [Hx Hm] Hmild Hc. destruct Hm; destruct Hx as [? [=]];
    try match goal with Ht : take_generated_id _ = Some _ |- _ =>
      apply take_generated_frame in Ht as [n ->] end;
    try match goal with Hp : planned _ _ |- _ =>
      exfalso; by eapply mild_not_planned; [exact Hmild| |exact Hp] end;
    pose proof Hc as [Hs Hh]; pose proof (Hh _ eq_refl) as He; cbn in He;
    (split; [|split; [first [by apply grows_same | by apply grows_hand_over]|done]]);
    try (by split; [exact Hs|intros ? [= <-]; cbn in *; eauto]);
    try (eapply carried_none, carried_store; [exact Hc|exact He|
      match goal with |- _ = cargo ?e => by destruct e end]);
    try match goal with E : h_event _ = EvAsset _ |- _ => rewrite E in He end.
  all: split; cbn; [|intros ? [= <-]; cbn].
  all: try (intros id' e' [[<- <-]|[_ ?]]%lookup_insert_Some; [|by eapply Hs]).
  all: try (match goal with
    | copy := clone_for_duplicate ?e _ _ |- _ => apply (HP e); [by subst copy; destruct e|done]
    | He : P (EvAsset ?a) |- P (EvAsset _) => by apply (HP (EvAsset a)) end); try done.
  all: match goal with E : h_event _ = _ |- _ => by rewrite E end.
Qed.
Lemma carried_hsteps a b : rtc (hstep digest) a b -> mild_plan a.2 -> carried a ->
  carried b /\ grows a.2 b.2 /\ sim_plan b.2 = sim_plan a.2.
Proof.
  induction 1 as [x|x y z Hxy _ IH]; intros Hm Hc; [done|].
  destruct (carried_hstep _ _ Hxy Hm Hc) as (Hc1 & Hg1 & Hp1).
  destruct IH as (Hc2 & Hg2 & Hp2); [by unfold mild_plan; rewrite Hp1|done|].
  split; [done|]. split; [by etrans|congruence].
Qed.

Lemma carried_pick sim c : is_Some c.1 -> mstep digest (None, sim) c -> carried (None, sim) ->
  carried c /\ grows sim c.2 /\ sim_plan c.2 = sim_plan sim.
Proof.
  intros [hd Hc] Hm Hcar. remember (@None Hand, sim) as a eqn:Ea.
  destruct Hm; simplify_eq/=. destruct Hcar as [Hs _].
  split; [|split; [by apply grows_same|done]]. split; [exact Hs|]. intros ? [= <-]. cbn.
  apply (HP e); [by destruct e|by eapply Hs].
Qed.

(** * The operations of a caller *)

Record transit (sim : Simulator) : Prop := {
  tn_tables : tables None sim;
  tn_mild : mild_plan sim;
  tn_carried : carried (None, sim)
}.

(** A network that went on from another. *)
Definition moves (sim sim' : Simulator) : Prop := transit sim' /\ grows sim sim'.

Lemma moves_refl sim : transit sim -> moves sim sim.
Proof. by split. Qed.

Lemma moves_trans sim1 sim2 sim3 : moves sim1 sim2 -> moves sim2 sim3 -> moves sim1 sim3.
Proof. intros [_ ?] [? ?]. split; [done|by etrans]. Qed.

Lemma deliver_next_moves sim : transit sim -> moves sim (deliver_next digest sim).2.
Proof.
  intros [HT Hm Hc]. pose proof (deliver_next_steps digest sim HT) as Hd.
  destruct (deliver_next digest sim) as [[id|] sim'] eqn:E; cbn [snd].
  2: { destruct Hd as [-> _]. by apply moves_refl. }
  destruct Hd as [(c & Hsome & Hpick & Hs) _].
  destruct (carried_pick _ _ Hsome Hpick Hc) as (Hc1 & Hg1 & Hp1).
  destruct (carried_hsteps _ _ Hs) as (Hc2 & Hg2 & Hp2); [by unfold mild_plan; rewrite Hp1|done|].
  cbn [snd] in Hg2, Hp2. destruct (deliver_next_progress digest _ _ _ HT E) as (_ & HT' & _).
  split; [|by etrans]. split; [done| |done]. unfold mild_plan. by rewrite Hp2, Hp1.
Qed.

Lemma deliver_ready_loop_moves fuel count sim n sim' : transit sim ->
  deliver_ready_loop digest fuel count sim = Some (n, sim') -> moves sim sim'.
Proof.
  revert count sim. induction fuel as [|fuel IH]; intros count sim Ht; cbn [deliver_ready_loop]; [done|].
  pose proof (deliver_next_moves sim Ht) as Hm. destruct (deliver_next digest sim) as [[id|] sim1]; cbn in Hm.
  - intros Hl. eapply moves_trans; [exact Hm|]. eapply IH; [apply Hm|exact Hl].
  - by intros [= _ <-].
Qed.

(** A step of the clock, the plan or the schedule leaves the inboxes. *)
Lemma moves_frame sim sim' : transit sim -> tables None sim' ->
  sim'.(sim_endpoints) = sim.(sim_endpoints) ->
  (forall id f, sim'.(sim_plan) !! id = Some f -> sim.(sim_plan) !! id = Some f \/ mild f.(f_action) = true) ->
  (forall id e, sim'.(sim_events) !! id = Some e ->
     P e \/ exists e0, sim.(sim_events) !! id = Some e0 /\ cargo e = cargo e0) ->
  moves sim sim'.
Proof.
  intros [HT Hm Hc] HT' He Hp Hev. split; [|by apply grows_same]. split; [done| |].
  - intros id f Hf. destruct (Hp id f Hf); [by eapply Hm|done].
  - split; [|done]. cbn. intros id e Hid. destruct (Hev id e Hid) as [?|(e0 & H0 & Hcg)]; [done|].
    apply (HP e0 e Hcg). by eapply (proj1 Hc).
Qed.

Lemma steps_tables {A} sim (out : result SimError A * Simulator) :
  tables None sim -> steps_or_refuses digest sim out -> tables None out.2.
Proof.
  intros HT Hs. unfold steps_or_refuses in Hs. destruct out as [[] sim']; cbn in *.
  - exact (tables_msteps _ _ _ Hs HT).
  - by subst.
Qed.

Lemma advance_to_moves target sim : transit sim -> is_u64 target -> moves sim (advance_to target sim).2.
Proof.
  intros Ht Hu. pose proof (steps_tables _ _ (tn_tables _ Ht) (advance_to_steps digest target sim Hu)) as HT'.
  unfold advance_to in *. destruct (target <? sim_now sim); [by apply moves_refl|].
  destruct (target =? sim_now sim); [by apply moves_refl|]. apply moves_frame; cbn; eauto.
Qed.

Lemma next_tick_u64 sim tick : tables None sim -> next_tick sim.(sim_queue) = Some tick ->
  is_u64 (Z.max tick sim.(sim_now)).
Proof.
  intros HT (k & Hk & ->)%fmap_Some. destruct (queue_peek_Some _ _ Hk) as [Hin _].
  apply (tb_queue _ _ HT) in Hin as (e & He & _ & _ & ->). cbn.
  pose proof (typed_deliver_at _ (tb_typed _ _ HT _ _ He)). pose proof (tb_now _ _ HT).
  unfold fits in *. lia.
Qed.

Lemma run_until_idle_loop_moves fuel count sim n sim' : transit sim ->
  run_until_idle_loop digest fuel count sim = Some (n, sim') -> moves sim sim'.
Proof.
  revert count sim. induction fuel as [|fuel IH]; intros count sim Ht; cbn [run_until_idle_loop]; [done|].
  destruct (next_tick (sim_queue sim)) as [tick|] eqn:Hn; [|by intros [= _ <-]; apply moves_refl].
  pose proof (advance_to_moves _ _ Ht (next_tick_u64 _ _ (tn_tables _ Ht) Hn)) as Hadv.
  destruct (advance_to _ sim) as [[u|e] sim1]; cbn [snd] in Hadv; [|by intros [= _ <-]].
  destruct (deliver_ready digest sim1) as [[m sim2]|] eqn:Hd; [|done]. intros Hl.
  pose proof (deliver_ready_loop_moves _ _ _ _ _ (proj1 Hadv) Hd) as Hd2.
  eapply moves_trans; [exact Hadv|]. eapply moves_trans; [exact Hd2|]. eapply IH; [apply Hd2|exact Hl].
Qed.

Lemma schedule_control_moves request sim : transit sim -> control_request_typed request ->
  (forall e, cargo e = inl (request.(cr_source), request.(cr_destination), request.(cr_bytes)) -> P e) ->
  moves sim (schedule_control digest request sim).2.
Proof.
  intros Ht Hty Hnew. pose proof (steps_tables _ _ (tn_tables _ Ht)
    (schedule_control_steps digest request sim (tn_tables _ Ht) Hty)) as HT'.
  unfold schedule_control in *. destruct (check_route _ _ _); [|by apply moves_refl].
  case_bool_decide; [by apply moves_refl|]. destruct (check_delivery_tick _ _); [|by apply moves_refl].
  destruct (reserve_event_id _ sim) as [[id|e] sim1] eqn:Er; cbn [snd] in *.
  - apply reserve_event_id_Ok in Er as (_ & _ & ->). apply moves_frame; cbn; eauto.
    intros id' e' [[_ <-]|[_ ?]]%lookup_insert_Some; [left|right; eauto]. by apply Hnew.
  - apply reserve_event_id_Err in Er as ->. by apply moves_refl.
Qed.

Lemma schedule_asset_moves request sim : transit sim -> asset_request_typed request ->
  (forall e, cargo e = inr (request.(ar_source), request.(ar_destination), request.(ar_transfer),
     request.(ar_amount)) -> P e) ->
  moves sim (schedule_asset request sim).2.
Proof.
  intros Ht Hty Hnew. pose proof (steps_tables _ _ (tn_tables _ Ht)
    (schedule_asset_steps digest request sim (tn_tables _ Ht) Hty)) as HT'.
  unfold schedule_asset in *. destruct (check_route _ _ _); [|by apply moves_refl].
  destruct (_ =? 0); [by apply moves_refl|]. destruct (check_delivery_tick _ _); [|by apply moves_refl].
  destruct (reserve_event_id _ sim) as [[id|e] sim1] eqn:Er; cbn [snd] in *.
  - apply reserve_event_id_Ok in Er as (_ & _ & ->). apply moves_frame; cbn; eauto.
    intros id' e' [[_ <-]|[_ ?]]%lookup_insert_Some; [left|right; eauto]. by apply Hnew.
  - apply reserve_event_id_Err in Er as ->. by apply moves_refl.
Qed.

Lemma add_fault_moves fault sim : transit sim -> fault_typed fault -> mild fault.(f_action) = true ->
  moves sim (add_fault fault sim).2.
Proof.
  intros Ht Hty Hm. pose proof (steps_tables _ _ (tn_tables _ Ht) (add_fault_steps digest fault sim Hty)) as HT'.
  unfold add_fault in *. destruct (check_fault sim fault); [|by apply moves_refl].
  apply moves_frame; cbn; eauto. unfold plan_insert.
  intros id f [[_ <-]|[_ ?]]%lookup_insert_Some; auto.
Qed.

Lemma move_to_events k t sim :
  (move_to k t sim).(sim_endpoints) = sim.(sim_endpoints) /\ (move_to k t sim).(sim_plan) = sim.(sim_plan) /\
  forall id e, (move_to k t sim).(sim_events) !! id = Some e ->
    exists e0, sim.(sim_events) !! id = Some e0 /\ cargo e = cargo e0.
Proof.
  unfold move_to. destruct (_ =? _); [by eauto|]. cbn.
  destruct (sim_events sim !! qk_event k) as [e0|] eqn:E; cbn; [|by eauto].
  split_and!; [done..|]. intros id e [[<- <-]|[_ ?]]%lookup_insert_Some; [|by eauto].
  exists e0. split; [done|by destruct e0].
Qed.

Lemma swap_moves left right sim : transit sim -> moves sim (swap_delivery_ticks left right sim).2.
Proof.
  intros Ht. pose proof (steps_tables _ _ (tn_tables _ Ht)
    (swap_delivery_ticks_steps digest left right sim (tn_tables _ Ht))) as HT'.
  unfold swap_delivery_ticks in *. destruct (pending_key sim left) as [kl|]; [|by apply moves_refl].
  destruct (pending_key sim right) as [kr|]; [|by apply moves_refl]. cbn [snd] in *.
  destruct (move_to_events kl (qk_deliver_at kr) sim) as (He1 & Hp1 & Hv1).
  destruct (move_to_events kr (qk_deliver_at kl) (move_to kl (qk_deliver_at kr) sim)) as (He2 & Hp2 & Hv2).
  apply moves_frame; [done|done|congruence|rewrite Hp2, Hp1; auto|].
  intros id e (e1 & (e0 & H0 & Hc0)%Hv1 & Hc1)%Hv2. right. exists e0. split; [done|congruence].
Qed.

(** * What arrives *)

Lemma control_arrives sim d entry : sim_reachable digest sim -> carried (None, sim) ->
  entry ∈ control_inbox sim d ->
  exists e, P e /\ cargo e = inl (entry.(dc_source), d, entry.(dc_bytes)).
Proof.
  intros Hr [Hs _] Hin. destruct (control_entry _ _ _ _ Hr Hin) as (c & r & late & _ & Hc & _ & <- & ->).
  exists (EvControl c). split; [by eapply Hs|done].
Qed.

Lemma asset_arrives sim d entry : sim_reachable digest sim -> carried (None, sim) ->
  entry ∈ asset_inbox sim d ->
  exists e, P e /\ cargo e = inr (entry.(da_source), d, entry.(da_transfer), entry.(da_requested)).
Proof.
  intros Hr [Hs _] Hin. destruct (asset_entry _ _ _ _ Hr Hin) as (a & r & late & _ & Ha & _ & <- & ->).
  exists (EvAsset a). split; [by eapply Hs|done].
Qed.
End transit.
