(* ===== verification/E2eWorld.v ===== *)
(** The end-to-end harness ([programs/solevm-remote-leg/e2e/src]): it runs a
    script of wire operations against a live remote leg, with the simulator
    as the transport between the hub and the leg, and observes both.

    The leg runs inside LiteSVM; the interface [Fixture] stands for it, with
    the account lists the test fixture ([tests/common/mod.rs]) hands it, and
    its laws are in [E2eFacts].  The simulator is the model of [SimEngine]
    itself, the messages are built as [tests/common/messages.rs] does.  Texts
    are lists of characters; an error text is the value it prints.  A call of
    the harness that panics returns [None]. *)

From Stdlib Require Import ZArith Lia.
From stdpp Require Import strings.
From S2P Require Import Prelude ProtocolLayout ProtocolTypes ProtocolCodec.
From S2P Require Import RemoteState RemoteMessage RemotePlatform RemoteLeg RemoteInit.
From S2P Require Import SimState SimEngine.

(** * Hex *)

Module Hex.

Inductive HexError : Set :=
| OddLength
| BadPair (a b : Z)
| NotThirtyTwo.

Definition hex_digit (d : Z) : Z := if d <? 10 then 48 + d else 87 + d.

(** [format!("{byte:02x}")]. *)
Definition byte_text (byte : Z) : list Z := [hex_digit (byte / 16); hex_digit (byte mod 16)].

Definition encode (bytes : list Z) : list Z := byte_string "0x" ++ concat (byte_text <$> bytes).

Definition encode_array (bytes : list Z) : list Z := encode bytes.

(** [char::is_whitespace]. *)
Definition is_whitespace (c : Z) : bool :=
  ((9 <=? c) && (c <=? 13)) || (c =? 32) || (c =? 0x85) || (c =? 0xA0) || (c =? 0x1680)
  || ((0x2000 <=? c) && (c <=? 0x200A)) || (c =? 0x2028) || (c =? 0x2029) || (c =? 0x202F)
  || (c =? 0x205F) || (c =? 0x3000).

Fixpoint trim_start (text : list Z) : list Z :=
  match text with
  | c :: rest => if is_whitespace c then trim_start rest else text
  | [] => []
  end.

Definition trim (text : list Z) : list Z := reverse (trim_start (reverse (trim_start text))).

(** [strip_prefix("0x").unwrap_or(text)]. *)
Definition strip_0x (text : list Z) : list Z :=
  match text with
  | a :: b :: rest => if (a =? 48) && (b =? 120) then rest else text
  | _ => text
  end.

(** [str::len], in bytes of UTF-8. *)
Definition char_len (c : Z) : Z :=
  if c <? 0x80 then 1 else if c <? 0x800 then 2 else if c <? 0x10000 then 3 else 4.

Definition text_len (text : list Z) : Z := lsum char_len text.

(** [char::to_digit(16)]. *)
Definition to_digit (c : Z) : option Z :=
  if (48 <=? c) && (c <=? 57) then Some (c - 48)
  else if (97 <=? c) && (c <=? 102) then Some (c - 87)
  else if (65 <=? c) && (c <=? 70) then Some (c - 55)
  else None.

(** [u8::from_str_radix(pair, 16)]: a leading plus sign is accepted. *)
Definition from_pair (a b : Z) : option Z :=
  if a =? 43 then to_digit b
  else high ← to_digit a; low ← to_digit b; Some (high * 16 + low).

(** The loop over the pairs; a last character without a partner is dropped. *)
Fixpoint decode_pairs (chars : list Z) : result HexError (list Z) :=
  match chars with
  | a :: b :: rest =>
      let? byte := ok_or (from_pair a b) (BadPair a b) in
      let? out := decode_pairs rest in
      Ok (byte :: out)
  | _ => Ok []
  end.

Definition decode (text : list Z) : result HexError (list Z) :=
  let text := trim text in
  let text := strip_0x text in
  require text_len text mod 2 =? 0 or OddLength;
  decode_pairs text.

Definition decode32 (text : list Z) : result HexError (list Z) :=
  let? bytes := decode text in
  require (length bytes =? 32)%nat or NotThirtyTwo;
  Ok bytes.

End Hex.

(** * Scripts *)

Inductive WireOp : Set :=
| Warp (ts : Z)
| ScheduleControl (bytes : list Z) (at_ : Z)
| ScheduleAsset (transfer : list Z) (amount at_ : Z)
| FaultDrop (event : Z)
| FaultDelay (event ticks : Z)
| FaultDuplicate (event copies spacing : Z)
| FaultPartial (event amount : Z)
| FaultSplit (event : Z) (pieces : list Z) (spacing : Z)
| Swap (left right : Z)
| AdvanceTo (tick : Z)
| DeliverReady
| RunUntilIdle
| ApplyControl
| ApplyAsset
| Attribute (transfer : list Z)
| Deploy (amount : Z)
| ConfigureAdapter (max_liquid loss_bps : Z)
| Withdraw (transfer : list Z) (amount : Z)
| SendRecall (transfer : list Z) (amount at_ : Z)
| PublishReport (epoch at_ : Z)
| PublishRecallSent (transfer : list Z) (at_ : Z)
| Freeze
| ConfigUpdate (bytes : list Z)
| ConfigUpdateNext
| ConfigUpdateWrongLane
| ConfigUpdateReuseSequence
| AllocateNext (transfer : list Z) (amount : Z).

(** * The fixture *)

(** The transactions the harness sends. *)
Inductive Tx : Set :=
| TxAllocate (transfer : list Z) (sequence : Z) (bytes : list Z)
| TxRecall (transfer : list Z) (sequence : Z) (bytes : list Z)
| TxConfigUpdate (sequence : Z) (bytes : list Z)
| TxResolve (transfer : list Z) (sequence : Z) (bytes : list Z)
| TxSettle (transfer : list Z) (sequence : Z) (bytes : list Z)
| TxAttribute (transfer : list Z)
| TxDeploy (amount : Z)
| TxConfigureAdapter (max_liquid_principal loss_bps : Z) (deposits_paused : bool)
| TxWithdraw (transfer : list Z) (maximum_principal : Z)
| TxSendRecall (transfer : list Z) (maximum_amount : Z)
| TxPublishReport (epoch_id : Z)
| TxPublishRecallSent (transfer : list Z)
| TxFreeze.

Class Fixture := {
  (** The chain with its accounts, and the error of a failed transaction. *)
  Fx : Type;
  TxError : Type;
  (** [Fixture::e2e]. *)
  fx_e2e : Fx;
  (** The accounts of the leg as the fixture reads them back. *)
  fx_leg : Fx -> Leg;
  fx_unix_timestamp : Fx -> Z;
  fx_set_time : Z -> Fx -> Fx;
  (** Adds to the custody account; a sum past its width panics. *)
  fx_credit : Z -> Fx -> option Fx;
  (** Sends a transaction; a deployment whose approval is refused panics. *)
  fx_transact : Tx -> Fx -> option (result TxError unit * Fx);
  (** The message bytes of the last event in the last logs, if there is one. *)
  fx_last_event : Fx -> option (list Z)
}.

(** * Messages *)

(** The builder of canonical messages ([tests/common/messages.rs]), with the
    domain of the fixture ([tests/common/mod.rs]) filled in. *)
Module Builder.

Definition DEPLOYMENT_ID : list Z := replicate 32 0x11.
Definition VAULT_ID : list Z := replicate 32 0x22.
Definition SOURCE_APPLICATION_ID : list Z := replicate 32 0x33.
Definition LOCAL_APPLICATION_ID : list Z := replicate 32 0x44.
Definition SOURCE_CHAIN_ID : Z := 8453.
Definition DESTINATION_CHAIN_ID : Z := 900.
Definition CONTROL_LANE_ID : Z := 1.
Definition CONFIG_VERSION : Z := 1.
Definition START_TIMESTAMP : Z := 1700000000.
Definition OBSERVED_AT : Z := START_TIMESTAMP - 200.
Definition PUBLISHED_AT : Z := START_TIMESTAMP - 100.
Definition EFFECTIVE_AT : Z := START_TIMESTAMP - 50.
Definition EXPIRES_AT : Z := START_TIMESTAMP + 100000.

Definition default_header : Header := {|
  h_protocol_version := PROTOCOL_VERSION;
  h_schema_version := SCHEMA_VERSION;
  h_flags := 0;
  h_source_chain := SOURCE_CHAIN_ID;
  h_destination_chain := DESTINATION_CHAIN_ID;
  h_source_application := SOURCE_APPLICATION_ID;
  h_destination_application := LOCAL_APPLICATION_ID;
  h_deployment_id := DEPLOYMENT_ID;
  h_vault_id := VAULT_ID;
  h_lane_id := CONTROL_LANE_ID;
  h_sequence := 1;
  h_previous_commitment := wide_zero;
  h_observed_at := OBSERVED_AT;
  h_published_at := PUBLISHED_AT;
  h_expires_at := EXPIRES_AT
|}.

Definition default_config_body : ConfigUpdateBody := {|
  cu_config_version := CONFIG_VERSION + 1;
  cu_previous_config_version := CONFIG_VERSION;
  cu_max_remote_allocation_bps := 6000;
  cu_max_upward_deviation_bps := 200;
  cu_max_downward_deviation_bps := 1000;
  cu_max_report_age := 3600;
  cu_effective_timestamp := EFFECTIVE_AT;
  cu_config_commitment := replicate 32 0xCC
|}.

Definition default_allocate_body : AllocateBody := {|
  al_transfer_id := replicate 32 0x77;
  al_amount := 1000000;
  al_expected_source_balance := 5000000;
  al_minimum_destination_amount := 999000;
  al_deadline := EXPIRES_AT;
  al_config_version := CONFIG_VERSION
|}.

#[global] Instance Header_eta : Eta Header := fun h => mkHeader
  (h_protocol_version h) (h_schema_version h) (h_flags h) (h_source_chain h) (h_destination_chain h)
  (h_source_application h) (h_destination_application h) (h_deployment_id h) (h_vault_id h)
  (h_lane_id h) (h_sequence h) (h_previous_commitment h) (h_observed_at h) (h_published_at h)
  (h_expires_at h).

#[global] Instance AllocateBody_eta : Eta AllocateBody := fun b => mkAllocateBody
  (al_transfer_id b) (al_amount b) (al_expected_source_balance b) (al_minimum_destination_amount b)
  (al_deadline b) (al_config_version b).

(** [MessageBuilder::config_update] and [MessageBuilder::allocate]. *)
Definition config_update : Message := mkMessage default_header (BConfigUpdate default_config_body).
Definition allocate : Message := mkMessage default_header (BAllocate default_allocate_body).

Definition sequence (n : Z) (m : Message) : Message :=
  mkMessage (m.(m_header) <| h_sequence := n |>) m.(m_body).

Definition previous_commitment (c : list Z) (m : Message) : Message :=
  mkMessage (m.(m_header) <| h_previous_commitment := c |>) m.(m_body).

Definition lane (id : Z) (m : Message) : Message :=
  mkMessage (m.(m_header) <| h_lane_id := id |>) m.(m_body).

(** Panics on a builder that holds another body. *)
Definition allocate_body (edit : AllocateBody -> AllocateBody) (m : Message) : option Message :=
  match m.(m_body) with
  | BAllocate body => Some (mkMessage m.(m_header) (BAllocate (edit body)))
  | _ => None
  end.

Definition transfer_id (id : list Z) (m : Message) : option Message :=
  match m.(m_body) with
  | BAllocate _ => allocate_body (fun body => body <| al_transfer_id := id |>) m
  | BRecall b => Some (mkMessage m.(m_header) (BRecall (mkRecallBody id b.(rc_requested_amount)
      b.(rc_minimum_return_amount) b.(rc_deadline) b.(rc_config_version))))
  | BResolve b => Some (mkMessage m.(m_header) (BResolve (mkResolveBody id b.(re_target_sequence)
      b.(re_action) b.(re_config_version))))
  | _ => None
  end.

Section encode.
Context `{Chain}.

(** [encode]: canonical bytes; a message that does not encode panics. *)
Definition encoded (m : Message) : option (list Z) :=
  match encode_message keccak m with Ok bytes => Some bytes | Err _ => None end.
End encode.

End Builder.

(** * The trace *)

(** Why an operation of the script was refused. *)
Inductive Failure : Set :=
| TimestampOverflow
| HexFailed (e : Hex.HexError)
| SimFailed (e : SimError).

Section harness.
Context `{Chain, Fixture}.

(** The text kept for the last refusal, empty when there was none. *)
Inductive Detail : Type :=
| NoDetail
| DecodeFailed (e : DecodeError)
| Unexpected (t : MessageType)
| TxFailed (e : TxError)
| TransportFailed (e : Failure).

Record TraceEvent := mkTraceEvent {
  te_timestamp : Z;
  te_tick : Z;
  te_component : string;
  te_event : string;
  te_direction : string;
  te_transfer_id : list Z;
  te_message_type : option MessageType;
  te_sequence : Z;
  te_message_id : list Z;
  te_amount : Z;
  te_accepted : bool;
  te_detail : Detail
}.

Definition TraceLog := list TraceEvent.

Definition push (event : TraceEvent) (log : TraceLog) : TraceLog := log ++ [event].

(** [map(encode_array).unwrap_or_default()]. *)
Definition hex_or_empty (bytes : option (list Z)) : list Z :=
  match bytes with Some b => Hex.encode_array b | None => [] end.

Definition record (timestamp tick : Z) (component event direction : string)
    (transfer_id : option (list Z)) (message_type : option MessageType) (sequence : Z)
    (message_id : option (list Z)) (amount : Z) (accepted : bool) (detail : Detail)
    (log : TraceLog) : TraceLog :=
  push (mkTraceEvent timestamp tick component event direction (hex_or_empty transfer_id)
    message_type sequence (hex_or_empty message_id) amount accepted detail) log.

(** * The world *)

Definition HUB : EndpointId := 1.
Definition LEG : EndpointId := 2.

Record World := mkWorld {
  fixture : Fx;
  sim : Simulator;
  hub : EndpointId;
  leg : EndpointId;
  control_applied : nat;
  asset_applied : nat;
  next_fault : Z;
  last_accepted : bool;
  last_error : Detail;
  last_event_id : Z;
  trace : TraceLog
}.

#[global] Instance World_eta : Eta World := fun w => mkWorld
  (fixture w) (sim w) (hub w) (leg w) (control_applied w) (asset_applied w) (next_fault w)
  (last_accepted w) (last_error w) (last_event_id w) (trace w).

Definition world_new : option World :=
  match simulator_new [HUB; LEG] with
  | Ok sim => Some (mkWorld fx_e2e sim HUB LEG 0 0 1 true NoDetail 0 [])
  | Err _ => None
  end.

Definition now (w : World) : Z := Z.max (fx_unix_timestamp w.(fixture)) 0.

Definition note (component event direction : string) (transfer : option (list Z))
    (message_type : option MessageType) (sequence : Z) (message_id : option (list Z))
    (amount : Z) (accepted : bool) (detail : Detail) (w : World) : World :=
  w <| trace ::= record (now w) w.(sim).(sim_now) component event direction transfer message_type
         sequence message_id amount accepted detail |>.

(** [note(component, event, "", None, "", 0, None, 0, true, "")]. *)
Definition note_plain (component event : string) (w : World) : World :=
  note component event "" None None 0 None 0 true NoDetail w.

Definition transfer_of (message : option Message) : option (list Z) :=
  match m_body <$> message with
  | Some (BAllocate body) => Some body.(al_transfer_id)
  | Some (BRecall body) => Some body.(rc_transfer_id)
  | Some (BRecallSent body) => Some body.(rs_transfer_id)
  | Some (BResolve body) => Some body.(re_transfer_id)
  | Some (BTransportSettlement body) => Some body.(ts_transfer_id)
  | _ => None
  end.

Definition direction (source : EndpointId) : string :=
  if source =? HUB then "evm_to_solana" else "solana_to_evm".

(** The result of a call of the simulator, with the network it left. *)
Definition with_sim {A} (out : result SimError A * Simulator) (w : World) : result Failure A * World :=
  (match out.1 with Ok a => Ok a | Err e => Err (SimFailed e) end, w <| sim := out.2 |>).

(** * Transport *)

Definition schedule_control (source destination : EndpointId) (bytes : list Z) (at_ : Z) (w : World)
    : result Failure unit * World :=
  let decoded := match decode_message keccak bytes with Ok m => Some m | Err _ => None end in
  let message_type := message_type <$> decoded in
  let sequence := match decoded with Some m => m.(m_header).(h_sequence) | None => 0 end in
  let transfer := transfer_of decoded in
  let '(out, w) := with_sim (SimEngine.schedule_control keccak
    (control_request_new source destination bytes (Z.max at_ w.(sim).(sim_now))) w.(sim)) w in
  match out with
  | Err e => (Err e, w)
  | Ok id =>
      let w := w <| last_event_id := id |> in
      (Ok tt, note "transport" "schedule_control" (direction source) transfer message_type sequence
                None 0 true NoDetail w)
  end.

Definition schedule_asset (source destination : EndpointId) (transfer : list Z) (amount at_ : Z)
    (w : World) : result Failure unit * World :=
  if amount =? 0 then (Ok tt, w)
  else
    let '(out, w) := with_sim (SimEngine.schedule_asset
      (asset_request_new transfer source destination amount (Z.max at_ w.(sim).(sim_now))) w.(sim)) w in
    match out with
    | Err e => (Err e, w)
    | Ok id =>
        let w := w <| last_event_id := id |> in
        (Ok tt, note "transport" "schedule_asset" (direction source) (Some transfer) None 0 None
                  amount true NoDetail w)
    end.

Definition add_fault (event : Z) (action : FaultAction) (w : World) : result Failure unit * World :=
  let id := w.(next_fault) in
  let w := w <| next_fault := saturating_add u32_max w.(next_fault) 1 |> in
  let '(out, w) := with_sim (SimEngine.add_fault (mkFault id (TargetEvent event) action) w.(sim)) w in
  match out with
  | Err e => (Err e, w)
  | Ok _ => (Ok tt, note_plain "transport" "fault" w)
  end.

Definition schedule_config_update (sequence lane : option Z) (w : World)
    : option (result Failure unit * World) :=
  let lane_state := (fx_leg w.(fixture)).(l_lane) in
  let sequence := default (saturating_add u64_max lane_state.(rl_highest_consumed_sequence) 1)
                    sequence in
  let previous := if sequence =? 1 then wide_zero else lane_state.(rl_message_commitment) in
  let builder := Builder.previous_commitment previous
    (Builder.sequence sequence Builder.config_update) in
  let builder := match lane with Some lane_id => Builder.lane lane_id builder | None => builder end in
  bytes ← Builder.encoded builder;
  Some (schedule_control w.(hub) w.(leg) bytes w.(sim).(sim_now) w).

Definition schedule_allocate_next (transfer : list Z) (amount : Z) (w : World)
    : option (result Failure unit * World) :=
  let lane := (fx_leg w.(fixture)).(l_lane) in
  let sequence := saturating_add u64_max lane.(rl_highest_consumed_sequence) 1 in
  let builder := Builder.previous_commitment lane.(rl_message_commitment)
    (Builder.sequence sequence Builder.allocate) in
  builder ← Builder.transfer_id transfer builder;
  builder ← Builder.allocate_body (fun body =>
    body <| al_amount := amount |> <| al_minimum_destination_amount := amount |>
         <| al_config_version := (fx_leg w.(fixture)).(l_config).(cf_config_version) |>) builder;
  bytes ← Builder.encoded builder;
  Some (schedule_control w.(hub) w.(leg) bytes w.(sim).(sim_now) w).

(** * Transactions *)

Definition record_tx (result : result TxError unit) (event : string) (transfer : option (list Z))
    (message_type : option MessageType) (sequence amount : Z) (w : World) : bool * World :=
  match result with
  | Ok _ =>
      let w := w <| last_accepted := true |> <| last_error := NoDetail |> in
      (true, note "solana" event "evm_to_solana" transfer message_type sequence None amount true
               NoDetail w)
  | Err failure =>
      let w := w <| last_accepted := false |> <| last_error := TxFailed failure |> in
      (false, note "solana" event "evm_to_solana" transfer message_type sequence None amount false
                w.(last_error) w)
  end.

(** Sends a transaction through the fixture. *)
Definition submit (tx : Tx) (w : World) : option (result TxError unit * World) :=
  '(out, f) ← fx_transact tx w.(fixture); Some (out, w <| fixture := f |>).

Definition finish_tx (tx : Tx) (event : string) (transfer : option (list Z)) (amount : Z) (w : World)
    : option World :=
  '(out, w) ← submit tx w; Some (record_tx out event transfer None 0 amount w).2.

(** Posts the message of the last event to the hub; its refusal is ignored. *)
Definition forward (at_ : Z) (w : World) : option World :=
  bytes ← fx_last_event w.(fixture); Some (schedule_control w.(leg) w.(hub) bytes at_ w).2.

(** A control message that is not for the leg. *)
Definition refuse_control (event : string) (transfer : option (list Z)) (message_type : option MessageType)
    (sequence : Z) (detail : Detail) (w : World) : World :=
  let w := w <| last_accepted := false |> <| last_error := detail |> in
  note "solana" event "evm_to_solana" transfer message_type sequence None 0 false w.(last_error) w.

Definition dispatch_control (bytes : list Z) (w : World) : option World :=
  match decode_message keccak bytes with
  | Err error => Some (refuse_control "decode" None None 0 (DecodeFailed error) w)
  | Ok decoded =>
      let sequence := decoded.(m_header).(h_sequence) in
      let message_type := message_type decoded in
      let transfer := transfer_of (Some decoded) in
      let control tx :=
        '(out, w) ← submit tx w;
        Some (record_tx out "control" transfer (Some message_type) sequence 0 w).2 in
      match decoded.(m_body) with
      | BAllocate body => control (TxAllocate body.(al_transfer_id) sequence bytes)
      | BRecall body => control (TxRecall body.(rc_transfer_id) sequence bytes)
      | BConfigUpdate _ => control (TxConfigUpdate sequence bytes)
      | BResolve body =>
          if bool_decide (body.(re_action) = ActAdmit)
          then control (TxResolve body.(re_transfer_id) sequence bytes)
          else
            '(out, w) ← submit (TxSettle body.(re_transfer_id) sequence bytes) w;
            let '(accepted, w) := record_tx out "settle" transfer (Some message_type) sequence 0 w in
            if accepted then forward w.(sim).(sim_now) w else Some w
      | _ => Some (refuse_control "reject" transfer (Some message_type) sequence
                     (Unexpected message_type) w)
      end
  end.

Definition apply_control (w : World) : option World :=
  let inbox := control_inbox w.(sim) w.(leg) in
  let start := w.(control_applied) in
  w ← foldl (fun acc item => acc ≫= dispatch_control item.(dc_bytes)) (Some w) (drop start inbox);
  Some (w <| control_applied := length inbox |>).

(** One arrival credited to custody, as a [u64]. *)
Definition clamp_u64 (amount : Z) : Z := Z.min u64_max amount.

Definition credit_one (acc : option World) (item : DeliveredAsset) : option World :=
  w ← acc;
  let amount := clamp_u64 item.(da_delivered) in
  f ← fx_credit amount w.(fixture);
  let w := w <| fixture := f |> in
  let w := note "solana" "credit" "asset" (Some item.(da_transfer)) None 0 None amount true NoDetail w in
  Some (w <| last_accepted := true |> <| last_error := NoDetail |>).

Definition apply_asset (w : World) : option World :=
  let inbox := asset_inbox w.(sim) w.(leg) in
  let start := w.(asset_applied) in
  w ← foldl credit_one (Some w) (drop start inbox);
  Some (w <| asset_applied := length inbox |>).

Definition escrow_amount (w : World) : Z := (fx_leg w.(fixture)).(l_world).(w_escrow).(tk_amount).

Definition send_recall (transfer : list Z) (amount at_ : Z) (w : World) : option World :=
  let before := escrow_amount w in
  w ← finish_tx (TxSendRecall transfer amount) "send" (Some transfer) amount w;
  if negb w.(last_accepted) then Some w
  else
    let after := escrow_amount w in
    let sent := saturating_sub after before in
    Some match schedule_asset w.(leg) w.(hub) transfer sent at_ w with
         | (Err error, w) => w <| last_accepted := false |> <| last_error := TransportFailed error |>
         | (Ok _, w) => w
         end.

(** Publishes through [tx] and posts the message to the hub. *)
Definition publish (tx : Tx) (event : string) (transfer : option (list Z)) (message_type : MessageType)
    (at_ : Z) (w : World) : option World :=
  '(out, w) ← submit tx w;
  let '(accepted, w) := record_tx out event transfer (Some message_type) 0 0 w in
  if negb accepted then Some w else forward at_ w.

Definition publish_report (epoch at_ : Z) (w : World) : option World :=
  publish (TxPublishReport epoch) "publish_report" None MtRemoteReport at_ w.

Definition publish_recall_sent (transfer : list Z) (at_ : Z) (w : World) : option World :=
  publish (TxPublishRecallSent transfer) "publish_recall_sent" (Some transfer) MtRecallSent at_ w.

(** * Operations *)

(** [hexutil::decode32(text)?] before the rest of an operation. *)
Definition with_transfer (text : list Z) (w : World)
    (k : list Z -> option (result Failure unit * World)) : option (result Failure unit * World) :=
  match Hex.decode32 text with
  | Err e => Some (Err (HexFailed e), w)
  | Ok transfer => k transfer
  end.

Definition with_bytes (text : list Z) (w : World)
    (k : list Z -> option (result Failure unit * World)) : option (result Failure unit * World) :=
  match Hex.decode text with
  | Err e => Some (Err (HexFailed e), w)
  | Ok bytes => k bytes
  end.

Definition done (w : World) : option (result Failure unit * World) := Some (Ok tt, w).

(** The end of an operation that refuses nothing. *)
Definition finish (w : option World) : option (result Failure unit * World) := w ≫= done.

Definition apply (op : WireOp) (w : World) : option (result Failure unit * World) :=
  match op with
  | Warp ts =>
      if i64_max <? ts then Some (Err TimestampOverflow, w)
      else
        let w := w <| fixture ::= fx_set_time ts |> in
        done (note_plain "solana" "warp" w)
  | ScheduleControl bytes at_ =>
      with_bytes bytes w (fun payload => Some (schedule_control w.(hub) w.(leg) payload at_ w))
  | ScheduleAsset transfer amount at_ =>
      with_transfer transfer w (fun transfer =>
        Some (schedule_asset w.(hub) w.(leg) transfer amount at_ w))
  | FaultDrop event => Some (add_fault event Drop w)
  | FaultDelay event ticks => Some (add_fault event (Delay ticks) w)
  | FaultDuplicate event copies spacing => Some (add_fault event (Duplicate copies spacing) w)
  | FaultPartial event amount => Some (add_fault event (Partial amount) w)
  | FaultSplit event pieces spacing => Some (add_fault event (Split pieces spacing) w)
  | Swap l r =>
      match with_sim (swap_delivery_ticks l r w.(sim)) w with
      | (Err e, w) => Some (Err e, w)
      | (Ok _, w) => done (note_plain "transport" "swap" w)
      end
  | AdvanceTo tick => Some (with_sim (advance_to tick w.(sim)) w)
  | DeliverReady =>
      '(_, s) ← deliver_ready keccak w.(sim);
      done (note_plain "transport" "deliver" (w <| sim := s |>))
  | RunUntilIdle =>
      '(_, s) ← run_until_idle keccak w.(sim);
      done (note_plain "transport" "idle" (w <| sim := s |>))
  | ApplyControl => finish (apply_control w)
  | ApplyAsset => finish (apply_asset w)
  | Attribute transfer =>
      with_transfer transfer w (fun transfer =>
        finish (finish_tx (TxAttribute transfer) "attribute" (Some transfer) 0 w))
  | Deploy amount => finish (finish_tx (TxDeploy amount) "deploy" None amount w)
  | ConfigureAdapter max_liquid loss_bps =>
      finish (finish_tx (TxConfigureAdapter max_liquid loss_bps false) "configure_adapter" None 0 w)
  | Withdraw transfer amount =>
      with_transfer transfer w (fun transfer =>
        finish (finish_tx (TxWithdraw transfer amount) "withdraw" (Some transfer) amount w))
  | SendRecall transfer amount at_ =>
      with_transfer transfer w (fun transfer => finish (send_recall transfer amount at_ w))
  | PublishReport epoch at_ => finish (publish_report epoch at_ w)
  | PublishRecallSent transfer at_ =>
      with_transfer transfer w (fun transfer => finish (publish_recall_sent transfer at_ w))
  | Freeze => finish (finish_tx TxFreeze "freeze" None 0 w)
  | ConfigUpdate bytes =>
      with_bytes bytes w (fun payload =>
        Some (schedule_control w.(hub) w.(leg) payload w.(sim).(sim_now) w))
  | ConfigUpdateNext => schedule_config_update None None w
  | ConfigUpdateWrongLane =>
      schedule_config_update None (Some (saturating_add u32_max Builder.CONTROL_LANE_ID 1)) w
  | ConfigUpdateReuseSequence => schedule_config_update (Some 1) None w
  | AllocateNext transfer amount =>
      with_transfer transfer w (fun transfer => schedule_allocate_next transfer amount w)
  end.

Fixpoint apply_all (ops : list WireOp) (w : World) : option (result Failure unit * World) :=
  match ops with
  | [] => Some (Ok tt, w)
  | op :: ops =>
      match apply op w with
      | None => None
      | Some (Err e, w) => Some (Err e, w)
      | Some (Ok _, w) => apply_all ops w
      end
  end.

(** * Observations *)

Record Observation := mkObservation {
  ob_timestamp : Z;
  ob_tick : Z;
  ob_principal : Z;
  ob_deployed : Z;
  ob_custody : Z;
  ob_unattributed : Z;
  ob_recalled : Z;
  ob_realized_loss : Z;
  ob_lane_sequence : Z;
  ob_lane_commitment : list Z;
  ob_outbound_next : Z;
  ob_outbound_commitment : list Z;
  ob_active_transfer : list Z;
  ob_transfer_open : bool;
  ob_frozen : bool;
  ob_last_accepted : bool;
  ob_last_error : Detail;
  ob_last_event_id : Z;
  ob_inbound_asset : Z;
  ob_impaired_outstanding : Z;
  ob_reports : list (list Z);
  ob_recall_sents : list (list Z);
  ob_settlements : list (list Z);
  ob_latest_report : list Z;
  ob_latest_recall_sent : list Z;
  ob_latest_settlement : list Z;
  ob_trace : TraceLog
}.

(** The messages of one type in the hub's inbox, as hex. *)
Definition received (t : MessageType) (w : World) : list (list Z) :=
  omap (fun item =>
      match decode_message keccak item.(dc_bytes) with
      | Ok m => if bool_decide (message_type m = t) then Some (Hex.encode item.(dc_bytes)) else None
      | Err _ => None
      end)
    (control_inbox w.(sim) w.(hub)).

Definition latest (l : list (list Z)) : list Z := default [] (last l).

Definition observe (w : World) : Observation :=
  let l := fx_leg w.(fixture) in
  let position := l.(l_position) in
  let lane := l.(l_lane) in
  let outbound := l.(l_outbound) in
  let reports := received MtRemoteReport w in
  let recall_sents := received MtRecallSent w in
  let settlements := received MtTransportSettlement w in
  let inbound_asset := foldl (fun total item => saturating_add u128_max total item.(da_delivered)) 0
    (asset_inbox w.(sim) w.(hub)) in
  {| ob_timestamp := now w;
     ob_tick := w.(sim).(sim_now);
     ob_principal := position.(po_attributed_principal);
     ob_deployed := position.(po_deployed_principal);
     ob_custody := l.(l_world).(w_custody).(tk_amount);
     ob_unattributed := position.(po_unattributed_custody);
     ob_recalled := position.(po_recalled_custody);
     ob_realized_loss := position.(po_cumulative_realized_loss);
     ob_lane_sequence := lane.(rl_highest_consumed_sequence);
     ob_lane_commitment := Hex.encode_array lane.(rl_message_commitment);
     ob_outbound_next := outbound.(ol_next_sequence);
     ob_outbound_commitment := Hex.encode_array outbound.(ol_current_commitment);
     ob_active_transfer := Hex.encode_array position.(po_active_transfer_id);
     ob_transfer_open := has_active_transfer position;
     ob_frozen := l.(l_config).(cf_frozen);
     ob_last_accepted := w.(last_accepted);
     ob_last_error := w.(last_error);
     ob_last_event_id := w.(last_event_id);
     ob_inbound_asset := inbound_asset;
     ob_impaired_outstanding :=
       match l.(l_ledger) !! (ledger_address l.(l_key)).1 with
       | Some (Owned lg) => lg.(tl_impaired_outstanding)
       | _ => 0
       end;
     ob_reports := reports;
     ob_recall_sents := recall_sents;
     ob_settlements := settlements;
     ob_latest_report := latest reports;
     ob_latest_recall_sent := latest recall_sents;
     ob_latest_settlement := latest settlements;
     ob_trace := w.(trace) |}.

End harness.
