(* ===== verification/E2eFacts.v ===== *)
(** What the end-to-end harness keeps, whatever script it runs: the leg it
    drives is on a run of its own, fed only by what the transport delivered
    to it, in order and at most once; the transport holds nothing for the hub
    but what the leg published or sent; and every unit that arrived in
    custody is accounted for. *)

From Stdlib Require Import ZArith Lia.
From stdpp Require Import strings.
From S2P Require Import Prelude ProtocolLayout ProtocolTypes ProtocolCodec ProtocolWire.
From S2P Require Import ProtocolBodies ProtocolMessages RemoteState RemoteMessage.
From S2P Require Import RemotePlatform RemoteLeg RemoteSettle RemoteInit RemoteBooks.
From S2P Require Import RemoteEffects RemotePreserve RemoteRuns RemoteHistory.
From S2P Require Import SimState SimEngine SimSteps SimTables SimRuns SimAttempt SimLoops SimInbox.
From S2P Require Import SimTransit E2eWorld.

(** * What a leg answers for *)

(** Custody, strategy, losses and assets sent back. *)
Definition holdings (l : Leg) : Z :=
  l.(l_world).(w_custody).(tk_amount) + l.(l_position).(po_deployed_principal)
  + l.(l_position).(po_cumulative_realized_loss) + total tr_assets_sent l.(l_transfers).

Section leg.
Context `{Chain}.
Implicit Types (l : Leg) (env : Env).

Lemma settles_holdings env l body seq lg l1 lg' st : settles env l body seq lg l1 lg' st ->
  l1.(l_world) = l.(l_world) /\
  l1.(l_position).(po_deployed_principal) = l.(l_position).(po_deployed_principal) /\
  l1.(l_position).(po_cumulative_realized_loss) = l.(l_position).(po_cumulative_realized_loss) /\
  total tr_assets_sent l1.(l_transfers) = total tr_assets_sent l.(l_transfers).
Proof.
  intros [? ? ? Hc|? ? ? Hc].
  - apply close_Ok in Hc as (r & r' & p' & s & Hr & _ & _ & Hcase & _ & _ & _ & ->). cbn.
    erewrite total_replace by exact Hr. destruct Hcase; cbn; split_and!; try done; lia.
  - apply recover_Ok in Hc as (s & n & _ & Hfree & _ & _ & _ & _ & _ & _ & ->). cbn.
    rewrite total_create by done. cbn. split_and!; try done; lia.
Qed.

Lemma settled_sent r now : (settled r now).(tr_assets_sent) = r.(tr_assets_sent).
Proof. apply settled_other. Qed.

(** Instructions only move what the leg answers for between its places. *)
Lemma exec_holdings env l ix l' bs : ix_typed ix -> exec env l ix = Ok (l', bs) ->
  holdings l' = holdings l.
Proof.
  intros Ht He. unfold holdings. exec_cases He; try done; cbn.
  - destruct (vm_fresh v); [destruct He as (_ & _ & ->)|subst l']; done.
  - rewrite total_create by done. unfold allocation_record, allocation_position.
    destruct (is_none q); cbn; lia.
  - erewrite total_replace by done. case_match; cbn; lia.
  - unfold custody_buckets in *. cbn in *. lia.
  - rewrite total_create by done. unfold recall_record, recall_position.
    destruct (vm_fresh v); cbn; lia.
  - apply settles_holdings in Hset as (Hw & -> & -> & ->). done.
  - destruct Had as [->|(r & Hr & _ & _ & _ & _ & _ & _ & _ & ->)]; [done|]. cbn.
    erewrite total_replace by done. case_match; cbn; lia.
  - match goal with Hs : settle_recall _ _ _ = _ |- _ =>
      pose proof (settle_recall_settled _ _ _ _ _ _ Hs) as [-> _];
      apply settle_buckets in Hs as (_ & -> & _ & ->) end.
    erewrite total_replace by done. rewrite settled_sent. unfold custody_buckets in *. cbn in *. lia.
  - match goal with Hs : settle_recall _ _ _ = _ |- _ =>
      pose proof (settle_recall_settled _ _ _ _ _ _ Hs) as [-> _];
      apply settle_buckets in Hs as (_ & -> & _ & ->) end.
    erewrite total_replace by done. rewrite settled_sent. unfold custody_buckets in *. cbn in *. lia.
Qed.

(** The configuration version a leg holds fits its field. *)
Lemma exec_version env l ix l' bs : ix_typed ix -> exec env l ix = Ok (l', bs) ->
  is_u64 l.(l_config).(cf_config_version) -> is_u64 l'.(l_config).(cf_config_version).
Proof.
  intros Ht He Hv. exec_cases He; try done; cbn.
  - destruct (vm_fresh v); [destruct He as (_ & _ & ->)|subst l']; [|done]. cbn.
    match goal with Hc : consumes _ _ _ _ _ _, Hb : m_body _ = _ |- _ =>
      apply cs_valid, validate_inbound_typed in Hc as [_ Hc]; [|exact Ht]; rewrite Hb in Hc; apply Hc end.
  - destruct Had as [->|(r & Hr & _ & _ & _ & _ & _ & _ & _ & ->)]; done.
Qed.

Lemma run_version l0 ins outs l : run l0 ins outs l ->
  is_u64 l0.(l_config).(cf_config_version) -> is_u64 l.(l_config).(cf_config_version).
Proof. induction 1; [done| |done]. intros. eapply exec_version; eauto. Qed.

(** The lane's head fits its field, and its commitment is a digest. *)
Lemma lane_tracks_typed l ins : (forall b, is_wide (keccak b)) -> lane_tracks l ins ->
  0 <= l.(l_lane).(rl_highest_consumed_sequence) /\ is_wide l.(l_lane).(rl_message_commitment).
Proof.
  intros Hk (-> & -> & _). split; [lia|]. unfold lane_commitment.
  destruct (message_id keccak <$> ins) as [|x ids] using rev_ind.
  - split; [done|]. by apply (bool_decide_unpack (is_bytes wide_zero)).
  - rewrite foldl_app. apply Hk.
Qed.

Lemma region_is_bytes fs : Forall is_bytes fs.*2 -> is_bytes (region fs).
Proof. unfold region. induction 1; [constructor|]. by apply Forall_app. Qed.

(** Splits the fields of a layout; integers are bytes, the rest is typed. *)
Local Ltac field_bytes :=
  rewrite ?fmap_cons, ?fmap_nil; cbn [snd];
  repeat first [ apply Forall_nil_2
               | apply Forall_cons_2;
                 [first [ assumption | apply to_be_is_bytes
                        | by apply (bool_decide_unpack (is_bytes MAGIC)) ]|] ].

Lemma header_is_bytes h kind hash : header_typed h -> is_bytes hash ->
  is_bytes (region (header_fields h kind hash)).
Proof.
  intros (_ & _ & _ & _ & _ & [_ ?] & [_ ?] & [_ ?] & [_ ?] & _ & _ & [_ ?] & _) Hh.
  apply region_is_bytes. unfold header_fields. field_bytes.
Qed.

Lemma body_is_bytes b : body_typed b -> is_bytes (body_region b).
Proof.
  destruct b as [b|b|b|b|b|b|b]; cbn [body_typed body_region w_typed w_fields allocate_wire recall_wire
    remote_report_wire recall_sent_wire config_update_wire resolve_wire transport_settlement_wire];
    unfold allocate_typed, recall_typed, remote_report_typed, recall_sent_typed, config_update_typed,
      resolve_typed, transport_settlement_typed, is_wide; intros Ht;
    repeat match goal with H : _ /\ _ |- _ => destruct H end; apply region_is_bytes;
    unfold allocate_fields, recall_fields, remote_report_fields, recall_sent_fields,
      config_update_fields, resolve_fields, transport_settlement_fields; field_bytes.
Qed.

(** Canonical bytes are bytes. *)
Lemma encode_is_bytes m bytes : (forall b, is_wide (keccak b)) -> message_typed m ->
  encode_message keccak m = Ok bytes -> is_bytes bytes.
Proof.
  intros Hk Ht. rewrite encode_message_spec; [|done|apply Hk]. destruct (message_rules m); [|done].
  intros [= <-]. destruct Ht. apply Forall_app. split; [|by apply body_is_bytes].
  apply header_is_bytes; [done|apply Hk].
Qed.

End leg.

(** * Hex *)

Definition digit_ok (d : Z) : bool :=
  let c := Hex.hex_digit d in
  bool_decide (Hex.to_digit c = Some d) && negb (Hex.is_whitespace c) && (Hex.char_len c =? 1)
  && negb (c =? 43).

Lemma hex_digit_spec d : 0 <= d < 16 ->
  Hex.to_digit (Hex.hex_digit d) = Some d /\ Hex.is_whitespace (Hex.hex_digit d) = false /\
  Hex.char_len (Hex.hex_digit d) = 1 /\ (Hex.hex_digit d =? 43) = false.
Proof.
  intros Hd. assert (Hall : forallb digit_ok (seqZ 0 16) = true) by (vm_compute; reflexivity).
  rewrite forallb_forall in Hall. specialize (Hall d).
  assert (Hok : digit_ok d = true) by (apply Hall, list_elem_of_In, elem_of_seqZ; lia).
  unfold digit_ok in Hok. bool_to_prop. split_and!; try done. by apply Z.eqb_neq.
Qed.

Lemma to_digit_bound c d : Hex.to_digit c = Some d -> 0 <= d < 16.
Proof. unfold Hex.to_digit. intros. repeat case_match; simplify_eq; bool_to_prop; lia. Qed.

Lemma from_pair_byte a b v : Hex.from_pair a b = Some v -> is_byte v.
Proof.
  unfold Hex.from_pair, is_byte. destruct (a =? 43).
  - intros ?%to_digit_bound. lia.
  - destruct (Hex.to_digit a) eqn:Ha; [|done]. destruct (Hex.to_digit b) eqn:Hb; [|done].
    apply to_digit_bound in Ha, Hb. intros [= <-]. lia.
Qed.

Lemma decode_pairs_bytes chars out : Hex.decode_pairs chars = Ok out -> is_bytes out.
Proof.
  revert chars out. fix IH 1. intros [|a [|b rest]] out; cbn; try (intros [= <-]; constructor).
  destruct (Hex.from_pair a b) as [v|] eqn:Hv; [|done]. cbn.
  destruct (Hex.decode_pairs rest) as [tail|] eqn:Ht; [|done]. intros [= <-].
  constructor; [by eapply from_pair_byte|by eapply IH].
Qed.

Lemma decode_bytes text out : Hex.decode text = Ok out -> is_bytes out.
Proof. unfold Hex.decode. intros Hd. invert_step. by eapply decode_pairs_bytes. Qed.

Lemma decode32_wide text out : Hex.decode32 text = Ok out -> is_wide out.
Proof.
  unfold Hex.decode32. intros Hd. repeat invert_step. simplify_eq. bool_to_prop.
  split; [by apply Nat.eqb_eq|by eapply decode_bytes].
Qed.

Lemma trim_start_id text : Forall (fun c => Hex.is_whitespace c = false) text ->
  Hex.trim_start text = text.
Proof. destruct 1 as [|c text Hc]; [done|]. cbn. by rewrite Hc. Qed.

Lemma trim_id text : Forall (fun c => Hex.is_whitespace c = false) text -> Hex.trim text = text.
Proof.
  intros Ht. unfold Hex.trim. rewrite (trim_start_id text Ht), trim_start_id, reverse_involutive; [done|].
  by apply Forall_reverse.
Qed.

Lemma byte_digits v : is_byte v -> 0 <= v / 16 < 16 /\ 0 <= v mod 16 < 16.
Proof.
  intros Hv. unfold is_byte in Hv. split; [|apply Z.mod_pos_bound; lia].
  split; [apply Z.div_pos; lia|apply Z.div_lt_upper_bound; lia].
Qed.

(** The digits of bytes: no whitespace, two characters a byte, read back. *)
Lemma digits_spec bytes : is_bytes bytes ->
  Forall (fun c => Hex.is_whitespace c = false) (concat (Hex.byte_text <$> bytes)) /\
  Hex.text_len (concat (Hex.byte_text <$> bytes)) = 2 * Z.of_nat (length bytes) /\
  Hex.decode_pairs (concat (Hex.byte_text <$> bytes)) = Ok bytes.
Proof.
  induction 1 as [|v bytes Hv _ (IHw & IHl & IHd)]; [by repeat constructor|].
  destruct (byte_digits v Hv) as [Hh Hl].
  destruct (hex_digit_spec _ Hh) as (Dh & Wh & Lh & Ph), (hex_digit_spec _ Hl) as (Dl & Wl & Ll & Pl).
  change (concat (Hex.byte_text <$> v :: bytes)) with
    (Hex.hex_digit (v / 16) :: Hex.hex_digit (v mod 16) :: concat (Hex.byte_text <$> bytes)).
  split_and!.
  - by repeat constructor.
  - unfold Hex.text_len in *. rewrite !lsum_cons, Lh, Ll, IHl. cbn [length]. lia.
  - cbn [Hex.decode_pairs]. unfold Hex.from_pair. rewrite Ph, Dh, Dl. cbn. rewrite IHd. cbn. do 2 f_equal.
    pose proof (Z.div_mod v 16). lia.
Qed.

Lemma decode_encode bytes : is_bytes bytes -> Hex.decode (Hex.encode bytes) = Ok bytes.
Proof.
  intros (Hw & Hl & Hd)%digits_spec. unfold Hex.decode. rewrite trim_id.
  - change (Hex.strip_0x (Hex.encode bytes)) with (concat (Hex.byte_text <$> bytes)).
    cbv zeta. rewrite Hl, Z.mul_comm, Z.mod_mul by lia. exact Hd.
  - unfold Hex.encode. apply Forall_app. split; [|done]. by repeat constructor.
Qed.

(** * What the fixture promises *)

(** The instruction a transaction brings to the leg; the adapter's own
    configuration is none of them. *)
Definition tx_ix (tx : Tx) : option Ix :=
  match tx with
  | TxAllocate _ _ bytes => Some (IxAllocate bytes)
  | TxRecall _ _ bytes => Some (IxRecall bytes)
  | TxConfigUpdate _ bytes => Some (IxConfigUpdate bytes)
  | TxResolve _ _ bytes => Some (IxResolve bytes)
  | TxSettle _ _ bytes => Some (IxSettlement bytes)
  | TxAttribute _ => Some IxAttribute
  | TxDeploy amount => Some (IxDeploy amount)
  | TxConfigureAdapter _ _ _ => None
  | TxWithdraw _ maximum => Some (IxWithdraw maximum)
  | TxSendRecall _ maximum => Some (IxSend maximum)
  | TxPublishReport epoch => Some (IxPublishReport epoch)
  | TxPublishRecallSent _ => Some IxPublishRecallSent
  | TxFreeze => Some IxFreeze
  end.

(** The transfer whose record the account list of a transaction names. *)
Definition tx_transfer (tx : Tx) : option (list Z) :=
  match tx with
  | TxAllocate transfer _ _ | TxRecall transfer _ _ | TxResolve transfer _ _
  | TxSettle transfer _ _ | TxAttribute transfer | TxWithdraw transfer _
  | TxSendRecall transfer _ | TxPublishRecallSent transfer => Some transfer
  | _ => None
  end.

Definition credited (n : Z) (l : Leg) : Leg :=
  l <| l_world := l.(l_world) <| w_custody := l.(l_world).(w_custody)
         <| tk_amount := l.(l_world).(w_custody).(tk_amount) + n |> |> |>.

Definition sent_bytes (bs : list BuiltMessage) : list (list Z) :=
  (fun b => em_as_bytes b.(bm_encoded)) <$> bs.

Section laws.
Context `{C : Chain, F : Fixture}.

(** A leg that was set up and has consumed and published nothing yet. *)
Definition set_up (l : Leg) : Prop :=
  exists se w p c max l0,
    0 <= w.(w_custody).(tk_amount) /\ 0 <= max /\ is_u64 p.(ip_config_version) /\
    launch se w p c max = Ok l0 /\ RemoteRuns.run l0 [] [] l.

(** What the leg's accounts look like after a transaction that landed. *)
Definition landed (tx : Tx) (f f' : Fx) : Prop :=
  match tx_ix tx with
  | Some ix =>
      exists env bs, exec env (fx_leg f) ix = Ok (fx_leg f', bs) /\
        (forall transfer, tx_transfer tx = Some transfer ->
           env.(e_transfer_record) = record_key (fx_leg f) transfer) /\
        (forall bytes, fx_last_event f' = Some bytes -> bytes ∈ sent_bytes bs)
  | None => exists account,
      fx_leg f' = (fx_leg f) <| l_world, w_adapter_state := account |>
  end.

(** The runtime: transactions land or leave the leg alone, its clock is its
    own, and crediting custody touches nothing else. *)
Class FixtureLaws : Prop := {
  fl_keccak bytes : is_wide (keccak bytes);
  fl_set_up : set_up (fx_leg fx_e2e);
  fl_set_time t f : fx_leg (fx_set_time t f) = fx_leg f;
  fl_credit n f f' : fx_credit n f = Some f' -> fx_leg f' = credited n (fx_leg f);
  fl_refused tx f e f' : fx_transact tx f = Some (Err e, f') -> fx_leg f' = fx_leg f;
  fl_landed tx f u f' : fx_transact tx f = Some (Ok u, f') -> landed tx f f';
  fl_event_bytes f bytes : fx_last_event f = Some bytes -> is_bytes bytes
}.

End laws.
Arguments FixtureLaws : clear implicits.
Arguments FixtureLaws {C F}.

(** * What the harness keeps *)

Section sound.
Context `{C : Chain, F : Fixture, L : !FixtureLaws}.
Implicit Types (l : Leg) (f : Fx) (s : Simulator) (w : E2eWorld.World).

Definition e2e_leg : Leg := fx_leg fx_e2e.

(** What may travel: bytes, and to the hub only what the leg published and
    assets its records say it sent. *)
Definition genuine (outs : list BuiltMessage) l (e : Event) : Prop :=
  match e with
  | EvControl c => is_bytes c.(ce_bytes) /\
      (c.(ce_destination) = HUB -> c.(ce_source) = LEG /\ c.(ce_bytes) ∈ sent_bytes outs)
  | EvAsset a => a.(ae_destination) = HUB -> a.(ae_source) = LEG /\
      exists r, l.(l_transfers) !! record_key l a.(ae_transfer) = Some (Owned r) /\
        a.(ae_requested) <= r.(tr_assets_sent)
  end.

Lemma genuine_cargo outs l e e' : cargo e' = cargo e -> genuine outs l e -> genuine outs l e'.
Proof.
  destruct e as [c|a], e' as [c'|a']; cbn; intros Hc; try discriminate Hc.
  - injection Hc as -> -> ->. done.
  - injection Hc as -> -> -> ->. done.
Qed.

Lemma genuine_mono outs outs' l l' e : sent_bytes outs ⊆ sent_bytes outs' ->
  l'.(l_key) = l.(l_key) -> store_advances l.(l_transfers) l'.(l_transfers) ->
  genuine outs l e -> genuine outs' l' e.
Proof.
  intros Ho Hk Ha. destruct e as [c|a]; cbn.
  - intros [Hb Hg]. split; [done|]. intros Hd. destruct (Hg Hd). auto.
  - intros Hg Hd. destruct (Hg Hd) as (Hs & r & Hr & Hle). split; [done|].
    destruct (Ha _ _ Hr) as (r' & Hr' & Hadv). exists r'. unfold record_key in *. rewrite Hk.
    split; [done|]. pose proof (av_sent _ _ Hadv). lia.
Qed.

Lemma transit_mono (P Q : Event -> Prop) s : (forall e, P e -> Q e) -> transit P s -> transit Q s.
Proof.
  intros HPQ [HT Hm [Hs _]]. split; [done..|]. split; [|done]. intros id e He. by eapply HPQ, Hs.
Qed.

(** After [n] control messages and [m] assets were handed to the leg. *)
Record sound (n m : nat) (ins : list (list Z)) (outs : list BuiltMessage) f s : Prop := {
  so_run : RemoteRuns.run e2e_leg ins outs (fx_leg f);
  so_reach : sim_reachable keccak s;
  so_transit : transit (genuine outs (fx_leg f)) s;
  so_count : (n <= length (control_inbox s LEG))%nat /\ (m <= length (asset_inbox s LEG))%nat;
  so_ins : ins `sublist_of` (dc_bytes <$> take n (control_inbox s LEG));
  so_assets : holdings (fx_leg f) = holdings e2e_leg
    + lsum (fun a => clamp_u64 a.(da_delivered)) (take m (asset_inbox s LEG))
}.

Lemma e2e_books : books e2e_leg.
Proof.
  destruct fl_set_up as (se & w & p & c & max & l0 & Hw & Hm & _ & Hl & Hr).
  eapply run_books; [by eapply books_launch|done].
Qed.

Lemma run_e2e_books ins outs l : RemoteRuns.run e2e_leg ins outs l -> books l.
Proof. intros Hr. eapply run_books; [apply e2e_books|done]. Qed.

Lemma e2e_lane ins outs l : RemoteRuns.run e2e_leg ins outs l -> lane_tracks l ins.
Proof.
  destruct fl_set_up as (se & w & p & c & max & l0 & _ & _ & _ & Hl & Hr0). intros Hr.
  pose proof (run_lane _ _ _ _ (launch_lane _ _ _ _ _ _ Hl) Hr0) as H0.
  by eapply run_lane.
Qed.

Lemma e2e_version ins outs l : RemoteRuns.run e2e_leg ins outs l ->
  is_u64 l.(l_config).(cf_config_version).
Proof.
  destruct fl_set_up as (se & w & p & c & max & l0 & _ & _ & Hv & Hl & Hr0). intros Hr.
  eapply run_version; [exact Hr|]. eapply run_version; [exact Hr0|].
  revert Hl. unfold launch, process_initialize. intros Hl. leg_steps. done.
Qed.

(** The transport went on. *)
Lemma sound_moves n m ins outs f s s' : sound n m ins outs f s ->
  moves (genuine outs (fx_leg f)) s s' -> sim_reachable keccak s' -> sound n m ins outs f s'.
Proof.
  intros [Hr _ _ [Hn Hm] Hi Ha] [Ht Hg] Hr'. destruct (Hg LEG) as [[kc Hc] [ka Hk]].
  split; try done; rewrite ?Hc, ?Hk, ?length_app, ?take_app_le by lia; try done. lia.
Qed.

(** An instruction landed; the message it carried is among the first [n']
    of the inbox. *)
Lemma sound_exec n n' m ins outs f s f' env ix bs : sound n m ins outs f s -> ix_typed ix ->
  exec env (fx_leg f) ix = Ok (fx_leg f', bs) -> (n' <= length (control_inbox s LEG))%nat ->
  ins ++ ix_message ix `sublist_of` (dc_bytes <$> take n' (control_inbox s LEG)) ->
  sound n' m (ins ++ ix_message ix) (outs ++ bs) f' s.
Proof.
  intros [Hr Hre Ht [Hn Hm] Hi Ha] Hty He Hn' Hsub. split; try done.
  - by eapply run_ix.
  - eapply transit_mono; [|exact Ht]. intros e. apply genuine_mono.
    + unfold sent_bytes. rewrite fmap_app. set_solver.
    + by apply (exec_identity _ _ _ _ _ Hty He).
    + apply store_step_advances. eapply exec_transfers; [|done..]. by eapply run_e2e_books.
  - by rewrite (exec_holdings _ _ _ _ _ Hty He).
Qed.

(** The leg's accounts did not change. *)
Lemma sound_same n m ins outs f s f' : sound n m ins outs f s -> fx_leg f' = fx_leg f ->
  sound n m ins outs f' s.
Proof. intros [? ? ? ? ? ?] Hl. split; by rewrite ?Hl. Qed.

(** More of the inbox was looked at than consumed. *)
Lemma sound_skip n n' m ins outs f s : sound n m ins outs f s -> (n <= n')%nat ->
  (n' <= length (control_inbox s LEG))%nat -> sound n' m ins outs f s.
Proof.
  intros [? ? ? [? ?] Hi ?] Hle Hn'. split; try done. etrans; [exact Hi|].
  apply fmap_sublist. replace (take n _) with (take n (take n' (control_inbox s LEG))).
  - apply sublist_take.
  - rewrite take_take. f_equal. lia.
Qed.

(** The adapter's state, which belongs to another program, changed. *)
Lemma sound_adapter n m ins outs f s f' account : sound n m ins outs f s ->
  fx_leg f' = (fx_leg f) <| l_world, w_adapter_state := account |> -> sound n m ins outs f' s.
Proof.
  intros [Hr ? Ht ? ? Ha] Hl. split; try done; rewrite Hl.
  - by apply run_world.
  - exact Ht.
  - exact Ha.
Qed.

(** One more arrival was credited. *)
Lemma sound_credit n m ins outs f s f' item : sound n m ins outs f s ->
  asset_inbox s LEG !! m = Some item -> 0 <= item.(da_delivered) ->
  fx_leg f' = credited (clamp_u64 item.(da_delivered)) (fx_leg f) ->
  sound n (S m) ins outs f' s.
Proof.
  intros [Hr ? Ht [Hn Hm] ? Ha] Hin Hpos Hl.
  assert (0 <= clamp_u64 (da_delivered item)) by (unfold clamp_u64, u64_max; lia).
  split; try done; rewrite ?Hl.
  - apply run_world; [done|]. cbn. lia.
  - exact Ht.
  - split; [done|]. by apply lookup_lt_Some in Hin.
  - erewrite take_S_r by exact Hin. rewrite lsum_app, lsum_cons, lsum_nil.
    transitivity (holdings (fx_leg f) + clamp_u64 (da_delivered item)).
    + unfold holdings. cbn. lia.
    + rewrite Ha. lia.
Qed.

(** * The transport *)

Lemma reach_apply op s r s' : sim_reachable keccak s -> op_typed op ->
  SimEngine.apply keccak op s = Some (r, s') -> sim_reachable keccak s'.
Proof.
  intros (config & ids & s0 & Hids & H0 & Hs) Hty Ha. exists config, ids, s0.
  split_and!; try done. eapply rtc_r; [done|]. by eapply ss_apply.
Qed.

Lemma sound_now n m ins outs f s at_ : sound n m ins outs f s -> is_u64 at_ ->
  is_u64 (Z.max at_ s.(sim_now)).
Proof.
  intros Hs Hu. pose proof (tb_now _ _ (tn_tables _ _ (so_transit _ _ _ _ _ _ Hs))).
  unfold fits in *. lia.
Qed.

(** A message for the leg, or one the leg published for the hub. *)
Definition postable (outs : list BuiltMessage) (src dst : EndpointId) (bytes : list Z) : Prop :=
  src = HUB /\ dst = LEG \/ src = LEG /\ dst = HUB /\ bytes ∈ sent_bytes outs.

Lemma sound_control n m ins outs f s src dst bytes at_ : sound n m ins outs f s -> is_u64 at_ ->
  is_bytes bytes -> postable outs src dst bytes ->
  sound n m ins outs f (SimEngine.schedule_control keccak
    (control_request_new src dst bytes (Z.max at_ s.(sim_now))) s).2.
Proof.
  intros Hs Hu Hb Hp.
  assert (Hty : control_request_typed (control_request_new src dst bytes (Z.max at_ s.(sim_now)))).
  { pose proof (sound_now _ _ _ _ _ _ _ Hs Hu). destruct Hp as [[-> ->]|(-> & -> & _)]; by split_and!. }
  eapply sound_moves; [done|..].
  - apply schedule_control_moves; [apply genuine_cargo|apply Hs|done|].
    intros [c|a] Hc; [|done]. injection Hc as E1 E2 E3. cbn in E1, E2, E3. cbn. rewrite E1, E2, E3.
    split; [done|]. intros ->. destruct Hp as [[_ ?]|(-> & _ & ?)]; done.
  - eapply (reach_apply (SimEngine.ScheduleControl _)); [apply Hs|exact Hty|].
    cbn [SimEngine.apply]. unfold forget. f_equal.
Qed.

(** Assets for the leg, or assets the leg's records say it sent. *)
Definition payable l (src dst : EndpointId) (transfer : list Z) (amount : Z) : Prop :=
  src = HUB /\ dst = LEG \/ src = LEG /\ dst = HUB /\
  exists r, l.(l_transfers) !! record_key l transfer = Some (Owned r) /\ amount <= r.(tr_assets_sent).

Lemma sound_asset n m ins outs f s src dst transfer amount at_ : sound n m ins outs f s ->
  is_u64 at_ -> is_wide transfer -> is_u128 amount -> payable (fx_leg f) src dst transfer amount ->
  sound n m ins outs f (SimEngine.schedule_asset
    (asset_request_new transfer src dst amount (Z.max at_ s.(sim_now))) s).2.
Proof.
  intros Hs Hu Hw Ha Hp.
  assert (Hty : asset_request_typed (asset_request_new transfer src dst amount (Z.max at_ s.(sim_now)))).
  { pose proof (sound_now _ _ _ _ _ _ _ Hs Hu). destruct Hp as [[-> ->]|(-> & -> & _)];
      destruct Hw; by split_and!. }
  eapply sound_moves; [done|..].
  - apply (schedule_asset_moves keccak); [apply genuine_cargo|apply Hs|done|].
    intros [c|a] Hc; [done|]. injection Hc as E1 E2 E3 E4. cbn in E1, E2, E3, E4. cbn.
    rewrite E1, E2, E3, E4. intros ->. destruct Hp as [[_ ?]|(-> & _ & ?)]; done.
  - eapply (reach_apply (SimEngine.ScheduleAsset _)); [apply Hs|exact Hty|done].
Qed.

Lemma sound_fault n m ins outs f s fault : sound n m ins outs f s -> fault_typed fault ->
  mild fault.(f_action) = true -> sound n m ins outs f (SimEngine.add_fault fault s).2.
Proof.
  intros Hs Hty Hm. eapply sound_moves; [done|..].
  - apply (add_fault_moves keccak); [apply genuine_cargo|apply Hs|done|done].
  - eapply (reach_apply (SimEngine.AddFault _)); [apply Hs|exact Hty|]. cbn [SimEngine.apply].
    by rewrite <- surjective_pairing.
Qed.

Lemma sound_swap n m ins outs f s a b : sound n m ins outs f s -> is_u64 a -> is_u64 b ->
  sound n m ins outs f (swap_delivery_ticks a b s).2.
Proof.
  intros Hs Ha Hb. eapply sound_moves; [done|..].
  - apply (swap_moves keccak); [apply genuine_cargo|apply Hs].
  - eapply (reach_apply (SwapDeliveryTicks a b)); [apply Hs|by split|]. cbn [SimEngine.apply].
    by rewrite <- surjective_pairing.
Qed.

Lemma sound_advance n m ins outs f s t : sound n m ins outs f s -> is_u64 t ->
  sound n m ins outs f (advance_to t s).2.
Proof.
  intros Hs Hu. eapply sound_moves; [done|..].
  - apply (advance_to_moves keccak); [apply genuine_cargo|apply Hs|done].
  - eapply (reach_apply (SimEngine.AdvanceTo t)); [apply Hs|done|]. 
    cbn [SimEngine.apply]. by rewrite <- surjective_pairing.
Qed.

Lemma sound_deliver n m ins outs f s k s' : sound n m ins outs f s ->
  deliver_ready keccak s = Some (k, s') -> sound n m ins outs f s'.
Proof.
  intros Hs Hd. eapply sound_moves; [done|..].
  - eapply deliver_ready_loop_moves; [apply genuine_cargo|apply Hs|exact Hd].
  - eapply (reach_apply SimEngine.DeliverReady); [apply Hs|done|].
    cbn [SimEngine.apply]. by rewrite Hd.
Qed.

Lemma sound_idle n m ins outs f s k s' : sound n m ins outs f s ->
  run_until_idle keccak s = Some (k, s') -> sound n m ins outs f s'.
Proof.
  intros Hs Hd. eapply sound_moves; [done|..].
  - eapply run_until_idle_loop_moves; [apply genuine_cargo|apply Hs|exact Hd].
  - eapply (reach_apply SimEngine.RunUntilIdle); [apply Hs|done|].
    cbn [SimEngine.apply]. by rewrite Hd.
Qed.
End sound.
