(* ===== verification/E2eRuns.v ===== *)
(** Every operation of a script keeps the harness sound: the transport calls,
    the transactions and what they post to the hub, the inboxes handed to the
    leg, and the whole script. *)

From Stdlib Require Import ZArith Lia.
From stdpp Require Import strings.
From S2P Require Import Prelude ProtocolLayout ProtocolTypes ProtocolCodec ProtocolWire.
From S2P Require Import ProtocolBodies ProtocolMessages RemoteState RemoteMessage.
From S2P Require Import RemotePlatform RemoteLeg RemoteSettle RemoteInit RemoteBooks.
From S2P Require Import RemoteEffects RemotePreserve RemoteRuns RemoteHistory.
From S2P Require Import SimState SimEngine SimSteps SimTables SimRuns SimAttempt SimLoops SimInbox.
From S2P Require Import SimTransit E2eWorld E2eFacts.

(** The widths of an operation's fields. *)
Definition wire_typed (op : WireOp) : Prop :=
  match op with
  | Warp ts => is_u64 ts
  | ScheduleControl _ at_ => is_u64 at_
  | ScheduleAsset _ amount at_ | SendRecall _ amount at_ => is_u64 amount /\ is_u64 at_
  | FaultDrop event => is_u64 event
  | FaultDelay event ticks => is_u64 event /\ is_u64 ticks
  | FaultDuplicate event copies spacing => is_u64 event /\ is_u16 copies /\ is_u64 spacing
  | FaultPartial event amount => is_u64 event /\ is_u64 amount
  | FaultSplit event pieces spacing => is_u64 event /\ Forall is_u64 pieces /\ is_u64 spacing
  | Swap l r => is_u64 l /\ is_u64 r
  | AdvanceTo tick => is_u64 tick
  | Deploy amount | Withdraw _ amount | AllocateNext _ amount => is_u64 amount
  | ConfigureAdapter max_liquid loss_bps => is_u64 max_liquid /\ is_u16 loss_bps
  | PublishReport epoch at_ => is_u64 epoch /\ is_u64 at_
  | PublishRecallSent _ at_ => is_u64 at_
  | _ => True
  end.

Section runs.
Context `{C : Chain, F : Fixture, L : !FixtureLaws}.
Implicit Types (l : Leg) (f : Fx) (s : Simulator) (w : E2eWorld.World).

Record stands (n m : nat) ins outs w : Prop := {
  st_hub : w.(hub) = HUB;
  st_leg : w.(leg) = LEG;
  st_fault : is_u32 w.(next_fault);
  st_sound : sound n m ins outs w.(fixture) w.(sim)
}.

(** What a part of an operation leaves: the counters, and the inboxes but
    for new entries. *)
Definition framed w w' : Prop :=
  w'.(control_applied) = w.(control_applied) /\ w'.(asset_applied) = w.(asset_applied) /\
  grows w.(sim) w'.(sim).

#[global] Instance framed_po : PreOrder framed.
Proof.
  split; [by intros w|]. intros w1 w2 w3 (? & ? & ?) (? & ? & ?). split_and!; [congruence..|].
  by etrans.
Qed.

(** ** Transport *)

Lemma control_grows request s : grows s (SimEngine.schedule_control keccak request s).2.
Proof.
  apply grows_same. unfold SimEngine.schedule_control. destruct (check_route _ _ _); [|done].
  case_bool_decide; [done|]. destruct (check_delivery_tick _ _); [|done].
  destruct (reserve_event_id _ s) as [[id|e] s1] eqn:Er.
  - by apply reserve_event_id_Ok in Er as (_ & _ & ->).
  - by apply reserve_event_id_Err in Er as ->.
Qed.

Lemma asset_grows request s : grows s (SimEngine.schedule_asset request s).2.
Proof.
  apply grows_same. unfold SimEngine.schedule_asset. destruct (check_route _ _ _); [|done].
  destruct (_ =? 0); [done|]. destruct (check_delivery_tick _ _); [|done].
  destruct (reserve_event_id _ s) as [[id|e] s1] eqn:Er.
  - by apply reserve_event_id_Ok in Er as (_ & _ & ->).
  - by apply reserve_event_id_Err in Er as ->.
Qed.

Lemma schedule_control_keeps n m ins outs w src dst bytes at_ : stands n m ins outs w ->
  is_u64 at_ -> is_bytes bytes -> postable outs src dst bytes ->
  let w' := (schedule_control src dst bytes at_ w).2 in framed w w' /\ stands n m ins outs w'.
Proof.
  intros [Hh Hl Hf Hs] Hu Hb Hp. pose proof (sound_control _ _ _ _ _ _ _ _ _ _ Hs Hu Hb Hp) as Hs'.
  pose proof (control_grows (control_request_new src dst bytes (Z.max at_ (sim_now (sim w)))) (sim w)) as Hg.
  cbv zeta. unfold schedule_control, with_sim.
  destruct (SimEngine.schedule_control _ _ _) as [[id|e] s'] eqn:E; cbn in *; by split.
Qed.

Lemma schedule_asset_keeps n m ins outs w src dst transfer amount at_ : stands n m ins outs w ->
  is_u64 at_ -> is_wide transfer -> is_u128 amount ->
  payable (fx_leg w.(fixture)) src dst transfer amount ->
  let w' := (schedule_asset src dst transfer amount at_ w).2 in framed w w' /\ stands n m ins outs w'.
Proof.
  intros [Hh Hl Hf Hs] Hu Hw Ha Hp.
  pose proof (sound_asset _ _ _ _ _ _ _ _ _ _ _ Hs Hu Hw Ha Hp) as Hs'.
  pose proof (asset_grows (asset_request_new transfer src dst amount (Z.max at_ (sim_now (sim w)))) (sim w)) as Hg.
  cbv zeta. unfold schedule_asset, with_sim. destruct (amount =? 0); [by split|].
  destruct (SimEngine.schedule_asset _ _) as [[id|e] s'] eqn:E; cbn in *; by split.
Qed.

(** ** Transactions *)

Lemma record_tx_keeps n m ins outs w out event transfer t sequence amount : stands n m ins outs w ->
  let r := record_tx out event transfer t sequence amount w in
  framed w r.2 /\ stands n m ins outs r.2 /\ r.2.(fixture) = w.(fixture) /\ r.1 = is_ok out.
Proof. intros [? ? ? ?]. destruct out; by split_and!. Qed.

(** A transaction that brings an instruction to the leg; [n'] bounds where
    its message stands in the inbox. *)
Lemma submit_keeps n n' m ins outs w tx ix out w' : stands n m ins outs w ->
  tx_ix tx = Some ix -> ix_typed ix ->
  (n <= n' <= length (control_inbox w.(sim) LEG))%nat ->
  ins ++ ix_message ix `sublist_of` (dc_bytes <$> take n' (control_inbox w.(sim) LEG)) ->
  submit tx w = Some (out, w') ->
  framed w w' /\ exists ins' outs', stands n' m ins' outs' w' /\
    (is_ok out = true -> forall bytes, fx_last_event w'.(fixture) = Some bytes ->
       bytes ∈ sent_bytes outs').
Proof.
  intros [Hh Hl Hf Hs] Htx Hty [Hn Hn'] Hsub Hx. unfold submit in Hx.
  destruct (fx_transact tx (fixture w)) as [[out' f']|] eqn:Ht; [|done]. cbn in Hx. injection Hx as -> <-.
  split; [by split_and!|]. destruct out as [u|e].
  - apply fl_landed in Ht. unfold landed in Ht. rewrite Htx in Ht.
    destruct Ht as (env & bs & He & _ & Hev). exists (ins ++ ix_message ix), (outs ++ bs). split.
    + split; try done. by eapply sound_exec.
    + intros _ bytes Hb. unfold sent_bytes. rewrite fmap_app. apply elem_of_app. right. by apply Hev.
  - apply fl_refused in Ht. exists ins, outs. split; [|done]. split; try done. cbn.
    eapply sound_same; [|exact Ht]. by eapply sound_skip.
Qed.

Lemma finish_tx_keeps n m ins outs w tx event transfer amount w' : stands n m ins outs w ->
  match tx_ix tx with Some ix => ix_typed ix /\ ix_message ix = [] | None => True end ->
  finish_tx tx event transfer amount w = Some w' ->
  framed w w' /\ exists ins' outs', stands n m ins' outs' w'.
Proof.
  intros Hs Hix Hx. unfold finish_tx in Hx. destruct (submit tx w) as [[out w1]|] eqn:Hsub; [|done].
  cbn in Hx. injection Hx as <-. pose proof Hs as [Hh Hl Hf Hso].
  assert (framed w w1 /\ exists ins' outs', stands n m ins' outs' w1) as (Hfr & ins' & outs' & Hs1).
  { destruct (tx_ix tx) as [ix|] eqn:Htx.
    - destruct Hix as [Hty Hm]. pose proof (so_count _ _ _ _ _ _ Hso) as [? ?].
      edestruct (submit_keeps n n) as (Hfr & ins' & outs' & Hs' & _); try done; [|by eauto].
      rewrite Hm, app_nil_r. apply (so_ins _ _ _ _ _ _ Hso).
    - unfold submit in Hsub. destruct (fx_transact tx (fixture w)) as [[out' f']|] eqn:Ht; [|done].
      cbn in Hsub. injection Hsub as -> <-. split; [by split_and!|]. exists ins, outs.
      split; try done. cbn. destruct out as [u|e].
      + apply fl_landed in Ht. unfold landed in Ht. rewrite Htx in Ht. destruct Ht as [account Ha].
        by eapply sound_adapter.
      + apply fl_refused in Ht. by eapply sound_same. }
  destruct (record_tx_keeps _ _ _ _ _ out event transfer None 0 amount Hs1) as (? & ? & _).
  split; [by etrans|by eauto].
Qed.

Lemma forward_keeps n m ins outs w at_ w' : stands n m ins outs w -> is_u64 at_ ->
  (forall bytes, fx_last_event w.(fixture) = Some bytes -> bytes ∈ sent_bytes outs) ->
  forward at_ w = Some w' -> framed w w' /\ stands n m ins outs w'.
Proof.
  intros Hs Hu Hev Hx. unfold forward in Hx. destruct (fx_last_event (fixture w)) as [bytes|] eqn:E; [|done].
  cbn in Hx. injection Hx as <-. rewrite (st_hub _ _ _ _ _ Hs), (st_leg _ _ _ _ _ Hs).
  apply schedule_control_keeps; try done.
  - by eapply fl_event_bytes.
  - right. split_and!; try done. by apply Hev.
Qed.

Lemma stands_now n m ins outs w : stands n m ins outs w -> is_u64 w.(sim).(sim_now).
Proof.
  intros [_ _ _ Hs]. apply (tb_now _ _ (tn_tables _ _ (so_transit _ _ _ _ _ _ Hs))).
Qed.

(** Accepted transactions post what they published; [record_tx] only books. *)
Lemma post_keeps n m ins outs w out event transfer t sequence amount (at_ : E2eWorld.World -> Z) w' :
  stands n m ins outs w -> (forall w, stands n m ins outs w -> is_u64 (at_ w)) ->
  (is_ok out = true -> forall bytes, fx_last_event w.(fixture) = Some bytes -> bytes ∈ sent_bytes outs) ->
  (let '(accepted, w) := record_tx out event transfer t sequence amount w in
   if accepted then forward (at_ w) w else Some w) = Some w' ->
  framed w w' /\ stands n m ins outs w'.
Proof.
  intros Hs Hu Hev. pose proof (record_tx_keeps _ _ _ _ _ out event transfer t sequence amount Hs) as Hr.
  destruct (record_tx _ _ _ _ _ _ _) as [accepted w1]. cbn in Hr. destruct Hr as (Hf & Hs1 & Hfx & ->).
  destruct (is_ok out); [|by intros [= <-]]. intros Hx.
  rewrite <- Hfx in Hev. specialize (Hev eq_refl).
  destruct (forward_keeps _ _ _ _ _ _ _ Hs1 (Hu _ Hs1) Hev Hx) as [Hf2 Hs2]. split; [by etrans|done].
Qed.

Lemma publish_keeps n m ins outs w tx ix event transfer t at_ w' : stands n m ins outs w ->
  tx_ix tx = Some ix -> ix_typed ix -> ix_message ix = [] -> is_u64 at_ ->
  publish tx event transfer t at_ w = Some w' ->
  framed w w' /\ exists ins' outs', stands n m ins' outs' w'.
Proof.
  intros Hs Htx Hty Hm Hu Hx. unfold publish in Hx.
  destruct (submit tx w) as [[out w1]|] eqn:Hsub; [|done]. cbn in Hx.
  pose proof (st_sound _ _ _ _ _ Hs) as Hso. pose proof (so_count _ _ _ _ _ _ Hso) as [? ?].
  edestruct (submit_keeps n n) as (Hf1 & ins' & outs' & Hs1 & Hev); try done.
  { rewrite Hm, app_nil_r. apply (so_ins _ _ _ _ _ _ Hso). }
  destruct (post_keeps _ _ _ _ _ out event transfer (Some t) 0 0 (fun _ => at_) w' Hs1 (fun _ _ => Hu) Hev)
    as [Hf2 Hs2].
  { destruct (record_tx out event transfer (Some t) 0 0 w1) as [[] ?]; exact Hx. }
  split; [by etrans|by eauto].
Qed.

(** ** Handing the inboxes to the leg *)

Lemma inbox_next (inbox : list DeliveredControl) n ins item : inbox !! n = Some item ->
  ins `sublist_of` (dc_bytes <$> take n inbox) ->
  ins ++ [item.(dc_bytes)] `sublist_of` (dc_bytes <$> take (S n) inbox).
Proof.
  intros Hi Hs. rewrite (take_S_r _ _ _ Hi), fmap_app. by apply sublist_app.
Qed.

Lemma inbox_bytes n m ins outs f s item : sound n m ins outs f s ->
  item ∈ control_inbox s LEG -> is_bytes item.(dc_bytes).
Proof.
  intros Hs Hi. destruct (control_arrives _ _ _ _ _ (so_reach _ _ _ _ _ _ Hs)
    (tn_carried _ _ (so_transit _ _ _ _ _ _ Hs)) Hi) as ([c|a] & Hg & Hc); [|done].
  injection Hc as _ _ <-. apply Hg.
Qed.

Lemma dispatch_keeps n m ins outs w item w' : stands n m ins outs w ->
  control_inbox w.(sim) LEG !! n = Some item -> dispatch_control item.(dc_bytes) w = Some w' ->
  framed w w' /\ exists ins' outs', stands (S n) m ins' outs' w'.
Proof.
  intros Hs Hi Hx. pose proof (st_sound _ _ _ _ _ Hs) as Hso.
  assert (Hlen : (n <= S n <= length (control_inbox (sim w) LEG))%nat)
    by (apply lookup_lt_Some in Hi; lia).
  assert (Hb : is_bytes (dc_bytes item))
    by (eapply inbox_bytes; [exact Hso|by eapply list_elem_of_lookup_2]).
  pose proof (inbox_next _ _ _ _ Hi (so_ins _ _ _ _ _ _ Hso)) as Hsub.
  assert (Hrefuse : forall event transfer t sequence detail,
    framed w (refuse_control event transfer t sequence detail w) /\
    exists ins' outs', stands (S n) m ins' outs' (refuse_control event transfer t sequence detail w)).
  { intros. split; [by split_and!|]. exists ins, outs. destruct Hs. split; try done.
    eapply sound_skip; [exact Hso|apply Hlen..]. }
  assert (Hcontrol : forall tx ix out w1 event transfer t sequence, submit tx w = Some (out, w1) ->
    tx_ix tx = Some ix -> ix_typed ix -> ix_message ix = [dc_bytes item] ->
    framed w (record_tx out event transfer t sequence 0 w1).2 /\
    exists ins' outs', stands (S n) m ins' outs' (record_tx out event transfer t sequence 0 w1).2).
  { intros tx ix out w1 event transfer t sequence Hsubm Htx Hty Hm. rewrite <- Hm in Hsub.
    destruct (submit_keeps _ _ _ _ _ _ _ _ _ _ Hs Htx Hty Hlen Hsub Hsubm) as (Hf1 & ins' & outs' & Hs1 & _).
    destruct (record_tx_keeps _ _ _ _ _ out event transfer t sequence 0 Hs1) as (Hf2 & Hs2 & _).
    split; [by etrans|by eauto]. }
  unfold dispatch_control in Hx. destruct (decode_message keccak (dc_bytes item)) as [d|e];
    [|injection Hx as <-; apply Hrefuse].
  destruct (m_body d) as [b|b|b|b|b|b|b]; try (injection Hx as <-; apply Hrefuse).
  4: destruct (bool_decide (re_action b = ActAdmit)).
  all: match type of Hx with context [submit ?tx ?x] =>
         destruct (submit tx x) as [[out w1]|] eqn:Hsubm; [|done] end; cbn [mbind option_bind] in Hx.
  all: try (injection Hx as <-; by eapply Hcontrol).
  destruct (submit_keeps _ _ _ _ _ _ (TxSettle _ _ _) (IxSettlement (dc_bytes item)) _ _
    Hs eq_refl Hb Hlen Hsub Hsubm) as (Hf1 & ins' & outs' & Hs1 & Hev).
  destruct (post_keeps _ _ _ _ _ _ _ _ _ _ _ (fun w => sim_now (sim w)) _ Hs1
    (stands_now _ _ _ _) Hev Hx)
    as [Hf2 Hs2].
  split; [by etrans|by eauto].
Qed.

(** A loop that panicked stays so. *)
Lemma foldl_none {A B} (f : option B -> A -> option B) xs :
  (forall x, f None x = None) -> foldl f None xs = None.
Proof. intros Hf. induction xs as [|x xs IH]; [done|]. cbn. by rewrite Hf. Qed.

Lemma prefix_lookup_at {A} (l k : list A) i x : l `prefix_of` k -> l !! i = Some x -> k !! i = Some x.
Proof. intros [r ->] Hi. by apply lookup_app_l_Some. Qed.

Lemma dispatch_all_keeps inbox n m ins outs w w' : stands n m ins outs w ->
  inbox `prefix_of` control_inbox w.(sim) LEG -> (n <= length inbox)%nat ->
  foldl (fun acc item => acc ≫= dispatch_control item.(dc_bytes)) (Some w) (drop n inbox) = Some w' ->
  framed w w' /\ exists ins' outs', stands (length inbox) m ins' outs' w'.
Proof.
  remember (length inbox - n)%nat as k eqn:Hk. revert n ins outs w Hk.
  induction k as [|k IH]; intros n ins outs w Hk Hs Hpre Hle Hx.
  { rewrite drop_ge in Hx by lia. injection Hx as <-. assert (n = length inbox) as -> by lia.
    split; [reflexivity|by eauto]. }
  destruct (lookup_lt_is_Some_2 inbox n) as [item Hi]; [lia|].
  rewrite (drop_S _ _ _ Hi) in Hx. cbn [foldl mbind option_bind] in Hx.
  destruct (dispatch_control (dc_bytes item) w) as [w1|] eqn:Hd.
  2: { by rewrite foldl_none in Hx. }
  destruct (dispatch_keeps _ _ _ _ _ _ _ Hs (prefix_lookup_at _ _ _ _ Hpre Hi) Hd)
    as (Hf1 & ins1 & outs1 & Hs1).
  destruct (IH (S n) ins1 outs1 w1) as (Hf2 & ins2 & outs2 & Hs2); try done; [lia| |lia|].
  - etrans; [exact Hpre|]. apply Hf1.
  - split; [by etrans|by eauto].
Qed.

(** The harness between two operations. *)
Definition standing w : Prop :=
  exists ins outs, stands w.(control_applied) w.(asset_applied) ins outs w.

Lemma framed_standing n m ins outs w w' : framed w w' ->
  n = w.(control_applied) -> m = w.(asset_applied) -> stands n m ins outs w' -> standing w'.
Proof. intros (Hc & Ha & _) -> -> Hs. exists ins, outs. by rewrite Hc, Ha. Qed.

Lemma apply_control_keeps w w' : standing w -> apply_control w = Some w' -> standing w'.
Proof.
  intros (ins & outs & Hs) Hx. unfold apply_control in Hx. rewrite (st_leg _ _ _ _ _ Hs) in Hx.
  destruct (foldl _ _ _) as [w1|] eqn:Hf; [|done]. cbn in Hx. injection Hx as <-.
  pose proof (so_count _ _ _ _ _ _ (st_sound _ _ _ _ _ Hs)) as [Hc _].
  destruct (dispatch_all_keeps _ _ _ _ _ _ _ Hs (reflexivity _) Hc Hf)
    as ((_ & Ha & _) & ins1 & outs1 & [? ? ? Hs1]).
  exists ins1, outs1. cbn. rewrite Ha. by split.
Qed.

Lemma arrival_nonneg n m ins outs f s item : sound n m ins outs f s ->
  item ∈ asset_inbox s LEG -> 0 <= item.(da_delivered).
Proof.
  intros Hs Hi. destruct (asset_entry _ _ _ _ (so_reach _ _ _ _ _ _ Hs) Hi)
    as (a & r & late & _ & Ha & _ & _ & ->).
  pose proof (tb_typed _ _ (tn_tables _ _ (so_transit _ _ _ _ _ _ Hs)) _ _ Ha)
    as (_ & _ & _ & _ & _ & _ & [Hd _] & _). exact Hd.
Qed.

Lemma credit_all_keeps inbox n m ins outs w w' : stands n m ins outs w ->
  inbox = asset_inbox w.(sim) LEG -> (m <= length inbox)%nat ->
  foldl credit_one (Some w) (drop m inbox) = Some w' ->
  framed w w' /\ stands n (length inbox) ins outs w'.
Proof.
  remember (length inbox - m)%nat as k eqn:Hk. revert m w Hk.
  induction k as [|k IH]; intros m w Hk Hs Hin Hle Hx.
  { rewrite drop_ge in Hx by lia. injection Hx as <-. assert (m = length inbox) as -> by lia.
    split; [reflexivity|done]. }
  destruct (lookup_lt_is_Some_2 inbox m) as [item Hi]; [lia|].
  rewrite (drop_S _ _ _ Hi) in Hx. cbn [foldl] in Hx.
  destruct (credit_one (Some w) item) as [w1|] eqn:Hd.
  2: { by rewrite foldl_none in Hx. }
  unfold credit_one in Hd. cbn in Hd.
  destruct (fx_credit (clamp_u64 (da_delivered item)) (fixture w)) as [f'|] eqn:Hc; [|done].
  cbn in Hd. injection Hd as Hd.
  assert (Hs1 : stands n (S m) ins outs w1).
  { subst w1. destruct Hs as [? ? ? Hso]. split; try done. cbn. subst inbox.
    eapply sound_credit; [exact Hso|exact Hi| |by apply fl_credit].
    eapply arrival_nonneg; [exact Hso|by eapply list_elem_of_lookup_2]. }
  assert (Hf1 : framed w w1) by (subst w1; by split_and!).
  destruct (IH (S m) w1) as (Hf2 & Hs2); try done; [lia|by subst w1|lia|].
  split; [by etrans|done].
Qed.

Lemma apply_asset_keeps w w' : standing w -> apply_asset w = Some w' -> standing w'.
Proof.
  intros (ins & outs & Hs) Hx. unfold apply_asset in Hx. rewrite (st_leg _ _ _ _ _ Hs) in Hx.
  destruct (foldl _ _ _) as [w1|] eqn:Hf; [|done]. cbn in Hx. injection Hx as <-.
  pose proof (so_count _ _ _ _ _ _ (st_sound _ _ _ _ _ Hs)) as [_ Hm].
  destruct (credit_all_keeps _ _ _ _ _ _ _ Hs eq_refl Hm Hf) as ((Hc & _ & _) & [? ? ? Hs1]).
  exists ins, outs. cbn. rewrite Hc. by split.
Qed.

(** ** Sending assets back *)

(** What a send moved into the escrow stands in its record. *)
Lemma send_payable transfer amount f u f' : books (fx_leg f) -> is_u64 amount ->
  fx_transact (TxSendRecall transfer amount) f = Some (Ok u, f') ->
  let sent := saturating_sub (fx_leg f').(l_world).(w_escrow).(tk_amount)
                (fx_leg f).(l_world).(w_escrow).(tk_amount) in
  is_u128 sent /\ payable (fx_leg f') LEG HUB transfer sent.
Proof.
  intros Hbk [Ha0 Ha1] (env & bs & He & Hkey & _)%fl_landed. specialize (Hkey _ eq_refl).
  apply exec_inv in He. cbn in He.
  apply process_send_Ok in He as (r & s & x & n & r' & p' & settled & Hr & Hk & Hst & _ & _ & _ & _ & Hn
    & _ & _ & Hesc & Hset & Hl).
  destruct (bk_records _ Hbk _ _ Hr) as [_ Hok]. unfold record_ok in Hok. rewrite Hk in Hok.
  destruct (bk_position _ Hbk) as [(_ & _ & ? & _) _ _ _ _ _].
  assert (0 <= tr_assets_sent r) by (unfold recall_ok in Hok; lia).
  apply settle_recall_settled in Hset as [-> _].
  cbv zeta. rewrite Hl. cbn. rewrite Hesc. unfold saturating_sub, fits, u64_max, u128_max in *.
  split; [lia|]. right. split_and!; try done. eexists. unfold record_key in *. cbn.
  rewrite <- Hkey, lookup_insert_eq. split; [done|]. rewrite settled_sent. cbn. lia.
Qed.

Lemma send_recall_keeps n m ins outs w transfer amount at_ w' : stands n m ins outs w ->
  is_wide transfer -> is_u64 amount -> is_u64 at_ -> send_recall transfer amount at_ w = Some w' ->
  framed w w' /\ exists ins' outs', stands n m ins' outs' w'.
Proof.
  intros Hs Hw Ha Hu Hx. unfold send_recall in Hx.
  destruct (finish_tx _ _ _ _ w) as [w1|] eqn:Hfin; [|done]. cbn [mbind option_bind] in Hx.
  edestruct finish_tx_keeps as (Hf1 & ins1 & outs1 & Hs1); [exact Hs| |exact Hfin|]; [done|].
  destruct (last_accepted w1) eqn:Hacc; cbn [negb] in Hx; [|by injection Hx as <-; eauto].
  assert (Hpay : is_u128 (saturating_sub (escrow_amount w1) (escrow_amount w)) /\
    payable (fx_leg (fixture w1)) LEG HUB transfer (saturating_sub (escrow_amount w1) (escrow_amount w))).
  { unfold finish_tx, submit in Hfin.
    destruct (fx_transact _ (fixture w)) as [[[u|e] f']|] eqn:Ht; cbn in Hfin; [|by injection Hfin as <-|done].
    injection Hfin as <-. cbn. eapply send_payable; [|exact Ha|exact Ht].
    eapply run_e2e_books, so_run, Hs. }
  destruct Hpay as [Hu128 Hpay].
  pose proof (schedule_asset_keeps _ _ _ _ _ _ _ _ _ _ Hs1 Hu Hw Hu128 Hpay) as [Hf2 Hs2].
  rewrite (st_hub _ _ _ _ _ Hs1), (st_leg _ _ _ _ _ Hs1) in Hx.
  destruct (schedule_asset _ _ _ _ _ w1) as [[?|error] w2]; injection Hx as <-; cbn in Hf2, Hs2.
  - split; [by etrans|by eauto].
  - split; [etrans; [exact Hf1|exact Hf2]|]. exists ins1, outs1. by destruct Hs2.
Qed.

(** ** Messages the harness builds *)

Lemma built_bytes m bytes : message_typed m -> Builder.encoded m = Some bytes -> is_bytes bytes.
Proof.
  unfold Builder.encoded. intros Ht He. destruct (encode_message keccak m) eqn:E; [|done].
  injection He as <-. eapply encode_is_bytes; [exact fl_keccak|exact Ht|exact E].
Qed.

Lemma next_sequence_typed ins outs l : RemoteRuns.run e2e_leg ins outs l ->
  is_u64 (saturating_add u64_max l.(l_lane).(rl_highest_consumed_sequence) 1) /\
  is_wide l.(l_lane).(rl_message_commitment).
Proof.
  intros Hr. destruct (lane_tracks_typed _ _ fl_keccak (e2e_lane _ _ _ Hr)) as [H0 Hw].
  split; [|done]. unfold saturating_add, fits, u64_max. lia.
Qed.

Lemma wide_zero_wide : is_wide wide_zero.
Proof. split; [done|]. by apply (bool_decide_unpack (is_bytes wide_zero)). Qed.

(** Closes a goal about constants: widths and byte lists. *)
Local Ltac by_width :=
  first [ done
        | by apply (bool_decide_unpack (is_wide _)) | split; vm_compute; congruence ].

Lemma header_typed_with sequence commitment lane : is_u64 sequence -> is_wide commitment -> is_u32 lane ->
  header_typed (Builder.default_header <| h_sequence := sequence |>
    <| h_previous_commitment := commitment |> <| h_lane_id := lane |>).
Proof. intros Hs Hc Hl. unfold header_typed. cbn. split_and!; by_width. Qed.

Lemma config_update_keeps n m ins outs w sequence lane r w' : stands n m ins outs w ->
  maybe is_u64 sequence -> maybe is_u32 lane ->
  schedule_config_update sequence lane w = Some (r, w') -> framed w w' /\ stands n m ins outs w'.
Proof.
  intros Hs Hseq Hlane Hx. unfold schedule_config_update in Hx.
  set (seq := default _ sequence) in Hx.
  pose proof (next_sequence_typed _ _ _ (so_run _ _ _ _ _ _ (st_sound _ _ _ _ _ Hs))) as [Hnext Hcom].
  assert (Hu : is_u64 seq) by (subst seq; destruct sequence; done).
  destruct (Builder.encoded _) as [bytes|] eqn:He; [|done]. cbn [mbind option_bind] in Hx.
  injection Hx as Hx. apply (f_equal snd) in Hx. cbn [snd] in Hx. subst w'.
  rewrite (st_hub _ _ _ _ _ Hs), (st_leg _ _ _ _ _ Hs).
  apply schedule_control_keeps; [done|by eapply stands_now| |by left].
  eapply built_bytes; [|exact He]. split.
  - set (c := if seq =? 1 then wide_zero else rl_message_commitment (l_lane (fx_leg (fixture w)))).
    assert (is_wide c) by (subst c; destruct (seq =? 1); [apply wide_zero_wide|done]).
    destruct lane as [id|]; [by apply (header_typed_with seq c id)|].
    apply (header_typed_with seq c Builder.CONTROL_LANE_ID); try done.
  - destruct lane; cbn; unfold config_update_typed; cbn; split_and!; by_width.
Qed.

Lemma allocate_next_keeps n m ins outs w transfer amount r w' : stands n m ins outs w ->
  is_wide transfer -> is_u64 amount ->
  schedule_allocate_next transfer amount w = Some (r, w') -> framed w w' /\ stands n m ins outs w'.
Proof.
  intros Hs Hw Ha Hx. unfold schedule_allocate_next in Hx.
  pose proof (so_run _ _ _ _ _ _ (st_sound _ _ _ _ _ Hs)) as Hr.
  pose proof (next_sequence_typed _ _ _ Hr) as [Hnext Hcom]. pose proof (e2e_version _ _ _ Hr) as Hv.
  cbn [Builder.transfer_id Builder.allocate_body Builder.previous_commitment Builder.sequence Builder.allocate m_body
    m_header mbind option_bind] in Hx.
  destruct (Builder.encoded _) as [bytes|] eqn:He; [|done]. cbn [mbind option_bind] in Hx.
  injection Hx as Hx. apply (f_equal snd) in Hx. cbn [snd] in Hx. subst w'.
  rewrite (st_hub _ _ _ _ _ Hs), (st_leg _ _ _ _ _ Hs).
  apply schedule_control_keeps; [done|by eapply stands_now| |by left].
  assert (is_u128 amount) by (unfold fits, u64_max, u128_max in *; lia).
  eapply built_bytes; [|exact He]. split.
  - apply (header_typed_with _ (rl_message_commitment (l_lane (fx_leg (fixture w)))) Builder.CONTROL_LANE_ID);
      try done.
  - cbn. unfold allocate_typed. cbn. split_and!; by_width.
Qed.

(** ** Operations *)

Lemma add_fault_keeps n m ins outs w event action r w' : stands n m ins outs w ->
  is_u64 event -> action_typed action -> mild action = true ->
  add_fault event action w = (r, w') ->
  w'.(control_applied) = w.(control_applied) /\ w'.(asset_applied) = w.(asset_applied) /\
  stands n m ins outs w'.
Proof.
  intros [Hh Hl Hf Hs] He Ha Hm Hx.
  assert (is_u32 (saturating_add u32_max (next_fault w) 1))
    by (unfold saturating_add, fits, u32_max in *; lia).
  pose proof (sound_fault _ _ _ _ _ _ (mkFault w.(next_fault) (TargetEvent event) action) Hs) as Hs'.
  unfold add_fault, with_sim in Hx. cbn in Hx, Hs'.
  destruct (SimEngine.add_fault _ _) as [[u|e] s']; cbn in Hx; injection Hx as <- <-;
    (split_and!; [done..|]; split; try done; cbn; by apply Hs').
Qed.

Lemma standing_sim w s ins outs : stands w.(control_applied) w.(asset_applied) ins outs w ->
  sound w.(control_applied) w.(asset_applied) ins outs w.(fixture) s -> standing (w <| sim := s |>).
Proof. intros [? ? ? _] Hs. exists ins, outs. by split. Qed.

Lemma note_standing component event direction transfer t sequence id amount accepted detail w :
  standing w -> standing (note component event direction transfer t sequence id amount accepted detail w).
Proof. intros (ins & outs & [? ? ? ?]). exists ins, outs. by split. Qed.

(** The end of an operation, from the world its parts left. *)
Lemma finish_standing (x : option E2eWorld.World) w r w' :
  standing w ->
  (forall w1, x = Some w1 -> framed w w1 /\ exists ins outs,
     stands w.(control_applied) w.(asset_applied) ins outs w1) ->
  finish x = Some (r, w') -> standing w'.
Proof.
  intros Hs Hk Hx. destruct x as [w1|]; [|done]. cbn in Hx. injection Hx as _ <-.
  destruct (Hk w1 eq_refl) as (Hf & ins & outs & Hs1). by eapply framed_standing.
Qed.

Lemma with_transfer_standing text w k r w' : standing w -> with_transfer text w k = Some (r, w') ->
  (forall transfer, is_wide transfer -> k transfer = Some (r, w') -> standing w') -> standing w'.
Proof.
  intros Hst Hw Hk. unfold with_transfer in Hw.
  destruct (Hex.decode32 text) as [t|] eqn:E; [|by injection Hw as _ <-].
  eapply Hk; [by eapply decode32_wide|done].
Qed.

Lemma with_bytes_standing text w k r w' : standing w -> with_bytes text w k = Some (r, w') ->
  (forall bytes, is_bytes bytes -> k bytes = Some (r, w') -> standing w') -> standing w'.
Proof.
  intros Hst Hw Hk. unfold with_bytes in Hw.
  destruct (Hex.decode text) as [b|] eqn:E; [|by injection Hw as _ <-].
  eapply Hk; [by eapply decode_bytes|done].
Qed.

(** Control and assets scheduled by the script come from the hub. *)
Lemma hub_control_standing w bytes at_ r w' : standing w -> is_bytes bytes -> is_u64 at_ ->
  Some (schedule_control w.(hub) w.(leg) bytes at_ w) = Some (r, w') -> standing w'.
Proof.
  intros (ins & outs & Hs) Hb Hu He. injection He as He.
  rewrite (st_hub _ _ _ _ _ Hs), (st_leg _ _ _ _ _ Hs) in He.
  destruct (schedule_control_keeps _ _ _ _ _ HUB LEG bytes at_ Hs Hu Hb) as [Hfr Hs1]; [by left|].
  rewrite He in Hfr, Hs1. by eapply framed_standing.
Qed.

Lemma hub_asset_standing w transfer amount at_ r w' : standing w -> is_wide transfer ->
  is_u64 amount -> is_u64 at_ ->
  Some (schedule_asset w.(hub) w.(leg) transfer amount at_ w) = Some (r, w') -> standing w'.
Proof.
  intros (ins & outs & Hs) Hw Ha Hu He. injection He as He.
  rewrite (st_hub _ _ _ _ _ Hs), (st_leg _ _ _ _ _ Hs) in He.
  assert (is_u128 amount) by (unfold fits, u64_max, u128_max in *; lia).
  destruct (schedule_asset_keeps _ _ _ _ _ HUB LEG transfer amount at_ Hs Hu Hw) as [Hfr Hs1];
    [done|by left|]. rewrite He in Hfr, Hs1. by eapply framed_standing.
Qed.

Lemma fault_standing w event action r w' : standing w -> is_u64 event -> action_typed action ->
  mild action = true -> Some (add_fault event action w) = Some (r, w') -> standing w'.
Proof.
  intros (ins & outs & Hs) Hev Hac Hm He. injection He as He.
  destruct (add_fault_keeps _ _ _ _ _ _ _ _ _ Hs Hev Hac Hm He) as (Hc & Ha & Hs1).
  exists ins, outs. by rewrite Hc, Ha.
Qed.

(** Time and order of the transport. *)
Lemma swap_standing w a b r w' : standing w -> is_u64 a -> is_u64 b ->
  apply (Swap a b) w = Some (r, w') -> standing w'.
Proof.
  intros (ins & outs & Hs) Ha Hb Hx. pose proof (sound_swap _ _ _ _ _ _ a b (st_sound _ _ _ _ _ Hs) Ha Hb).
  cbn [apply] in Hx. unfold with_sim in Hx.
  destruct (swap_delivery_ticks a b (sim w)) as [[u|e] s]; cbn in Hx; injection Hx as _ <-;
    [apply note_standing|]; by eapply standing_sim.
Qed.

Lemma deliver_standing w r w' : standing w -> apply DeliverReady w = Some (r, w') -> standing w'.
Proof.
  intros (ins & outs & Hs) Hx. cbn [apply] in Hx.
  destruct (deliver_ready keccak (sim w)) as [[k s]|] eqn:E; [|done]. cbn in Hx. injection Hx as _ <-.
  apply note_standing. eapply standing_sim; [done|]. by eapply sound_deliver; [apply Hs|].
Qed.

Lemma idle_standing w r w' : standing w -> apply RunUntilIdle w = Some (r, w') -> standing w'.
Proof.
  intros (ins & outs & Hs) Hx. cbn [apply] in Hx.
  destruct (run_until_idle keccak (sim w)) as [[k s]|] eqn:E; [|done]. cbn in Hx. injection Hx as _ <-.
  apply note_standing. eapply standing_sim; [done|]. by eapply sound_idle; [apply Hs|].
Qed.

Lemma warp_standing w ts r w' : standing w -> apply (Warp ts) w = Some (r, w') -> standing w'.
Proof.
  intros Hst Hx. cbn [apply] in Hx. destruct (i64_max <? ts); injection Hx as _ <-; [done|].
  apply note_standing. destruct Hst as (ins & outs & [? ? ? ?]). exists ins, outs. split; try done.
  eapply sound_same; [done|apply fl_set_time].
Qed.

(** A transaction that carries no message ends its operation. *)
Lemma plain_standing w tx event transfer amount r w' : standing w ->
  match tx_ix tx with Some ix => ix_typed ix /\ ix_message ix = [] | None => True end ->
  finish (finish_tx tx event transfer amount w) = Some (r, w') -> standing w'.
Proof.
  intros Hst Hix Hx. pose proof Hst as (ins & outs & Hs).
  eapply finish_standing; [exact Hst| |exact Hx]. intros w1 Hx1. by eapply finish_tx_keeps.
Qed.

Lemma publish_standing w tx ix event transfer t at_ r w' : standing w ->
  tx_ix tx = Some ix -> ix_typed ix -> ix_message ix = [] -> is_u64 at_ ->
  finish (publish tx event transfer t at_ w) = Some (r, w') -> standing w'.
Proof.
  intros Hst Hix Hty Hm Hu Hx. pose proof Hst as (ins & outs & Hs).
  eapply finish_standing; [exact Hst| |exact Hx]. intros w1 Hx1. by eapply publish_keeps.
Qed.

Lemma config_standing w sequence lane r w' : standing w -> maybe is_u64 sequence ->
  maybe is_u32 lane -> schedule_config_update sequence lane w = Some (r, w') -> standing w'.
Proof.
  intros (ins & outs & Hs) Hq Hl Hx. destruct (config_update_keeps _ _ _ _ _ _ _ _ _ Hs Hq Hl Hx).
  by eapply framed_standing.
Qed.

(** Operations on a transfer named in hex. *)
Lemma transfer_op_standing op w r w' : standing w -> wire_typed op ->
  match op with
  | ScheduleAsset _ _ _ | Attribute _ | Withdraw _ _ | SendRecall _ _ _ | PublishRecallSent _ _
  | AllocateNext _ _ => True
  | _ => False
  end -> apply op w = Some (r, w') -> standing w'.
Proof.
  intros Hst Hty Hop Hx. pose proof Hst as (ins & outs & Hs).
  destruct op; try (exfalso; exact Hop); cbn [apply wire_typed] in Hx, Hty;
    (eapply with_transfer_standing; [exact Hst|exact Hx|]; clear Hx; intros t Hwide Hx; cbv beta in Hx).
  - destruct Hty. by eapply hub_asset_standing; [..|exact Hx].
  - by eapply plain_standing; [exact Hst| |exact Hx].
  - by eapply plain_standing; [exact Hst| |exact Hx].
  - destruct Hty. eapply finish_standing; [exact Hst| |exact Hx]. intros w1 Hx1.
    by eapply send_recall_keeps; [..|exact Hx1].
  - by eapply (publish_standing _ (TxPublishRecallSent t) IxPublishRecallSent); [..|exact Hx].
  - destruct (allocate_next_keeps _ _ _ _ _ _ _ _ _ Hs Hwide Hty Hx). by eapply framed_standing.
Qed.

Lemma u128_of_u64 n : is_u64 n -> is_u128 n.
Proof. unfold fits, u64_max, u128_max. lia. Qed.

Lemma apply_standing op w r w' : standing w -> wire_typed op -> apply op w = Some (r, w') -> standing w'.
Proof.
  intros Hst Hty Hx. pose proof Hst as (ins & outs & Hs). pose proof (stands_now _ _ _ _ _ Hs) as Hnow.
  destruct op; cbn [wire_typed] in Hty.
  - by eapply warp_standing; [..|exact Hx].
  - cbn [apply] in Hx. eapply with_bytes_standing; [exact Hst|exact Hx|].
    intros bytes0 Hb Hx0. by eapply hub_control_standing; [..|exact Hx0].
  - by eapply transfer_op_standing; [exact Hst| | |exact Hx].
  - by eapply fault_standing; [..|exact Hx].
  - destruct Hty. by eapply fault_standing; [..|exact Hx].
  - destruct Hty. by eapply fault_standing; [..|exact Hx].
  - destruct Hty. eapply fault_standing; [exact Hst| | | |exact Hx]; [done| |done].
    by apply u128_of_u64.
  - destruct Hty as (He & Hp & Hsp). eapply fault_standing; [exact Hst| | | |exact Hx]; [done| |done].
    split; [|done]. eapply Forall_impl; [exact Hp|apply u128_of_u64].
  - destruct Hty. by eapply swap_standing; [..|exact Hx].
  - cbn [apply] in Hx. unfold with_sim in Hx. injection Hx as _ <-.
    eapply standing_sim; [done|]. by apply sound_advance; [apply Hs|].
  - by eapply deliver_standing; [..|exact Hx].
  - by eapply idle_standing; [..|exact Hx].
  - cbn [apply] in Hx. destruct (apply_control w) as [w1|] eqn:E; [|done]. injection Hx as _ <-.
    by eapply apply_control_keeps.
  - cbn [apply] in Hx. destruct (apply_asset w) as [w1|] eqn:E; [|done]. injection Hx as _ <-.
    by eapply apply_asset_keeps.
  - by eapply transfer_op_standing; [exact Hst| | |exact Hx].
  - by eapply plain_standing; [exact Hst| |exact Hx].
  - by eapply plain_standing; [exact Hst| |exact Hx].
  - by eapply transfer_op_standing; [exact Hst| | |exact Hx].
  - by eapply transfer_op_standing; [exact Hst| | |exact Hx].
  - destruct Hty. by eapply (publish_standing _ (TxPublishReport _)); [..|exact Hx].
  - by eapply transfer_op_standing; [exact Hst| | |exact Hx].
  - by eapply plain_standing; [exact Hst| |exact Hx].
  - cbn [apply] in Hx. eapply with_bytes_standing; [exact Hst|exact Hx|].
    intros bytes0 Hb Hx0. by eapply hub_control_standing; [..|exact Hx0].
  - cbn [apply] in Hx. by eapply config_standing; [exact Hst| | |exact Hx].
  - cbn [apply] in Hx. by eapply config_standing; [exact Hst| | |exact Hx].
  - cbn [apply] in Hx. eapply config_standing; [exact Hst| | |exact Hx]; [|exact I].
    unfold maybe, fits, u64_max. lia.
  - by eapply transfer_op_standing; [exact Hst| | |exact Hx].
Qed.

Lemma apply_all_standing ops w r w' : standing w -> Forall wire_typed ops ->
  apply_all ops w = Some (r, w') -> standing w'.
Proof.
  intros Hst Hty. revert w Hst. induction Hty as [|op ops Hop _ IH]; intros w Hst Hx; cbn [apply_all] in Hx.
  - by injection Hx as _ <-.
  - destruct (apply op w) as [[[u|e] w1]|] eqn:E; [| |done].
    + eapply IH; [|exact Hx]. by eapply apply_standing.
    + injection Hx as _ <-. by eapply apply_standing.
Qed.

Lemma world_new_standing w : world_new = Some w -> standing w.
Proof.
  unfold world_new. destruct (simulator_new [HUB; LEG]) as [s0|] eqn:E; [|done]. intros [= <-].
  assert (Hids : Forall is_u32 [HUB; LEG]) by by repeat constructor.
  exists [], []. split; try done; cbn. destruct (with_config_Ok _ _ _ E Hids) as (ends & lanes & Hs0 & _).
  split; cbn.
  - apply run_start.
  - exists config_default, [HUB; LEG], s0. by split_and!.
  - split; [by eapply tables_init|by subst s0|]. split; [|done]. by subst s0.
  - lia.
  - done.
  - rewrite take_0, lsum_nil. unfold e2e_leg. lia.
Qed.

(** Every script leaves the harness standing. *)
Lemma script_standing ops w0 r w : world_new = Some w0 -> Forall wire_typed ops ->
  apply_all ops w0 = Some (r, w) -> standing w.
Proof. intros H0%world_new_standing Hty Hx. by eapply apply_all_standing. Qed.
End runs.
