(* ===== verification/E2eTheorems.v ===== *)
(** The properties of the end-to-end harness
    ([programs/solevm-remote-leg/e2e/src]), for any script of typed
    operations, and a concrete bench that runs one. *)

From Stdlib Require Import ZArith Lia.
From stdpp Require Import strings.
From S2P Require Import Prelude ProtocolLayout ProtocolTypes ProtocolCodec ProtocolWire.
From S2P Require Import ProtocolBodies ProtocolMessages RemoteState RemoteMessage.
From S2P Require Import RemotePlatform RemoteLeg RemoteSettle RemoteInit RemoteBooks.
From S2P Require Import RemoteEffects RemotePreserve RemoteRuns RemoteHistory RemoteSample.
From S2P Require Import SimState SimEngine SimSteps SimTables SimRuns SimAttempt SimLoops SimInbox.
From S2P Require Import SimTransit E2eWorld E2eFacts E2eRuns.

Section facts.
Context `{C : Chain, F : Fixture, L : !FixtureLaws}.
Implicit Types (w : E2eWorld.World).

Lemma tracked_NoDup l ins : lane_tracks l ins -> NoDup ins.
Proof.
  intros (_ & _ & Hall). apply NoDup_alt. intros i j b Hi Hj.
  destruct (Hall i b Hi) as (m & Hm & Hs & _). destruct (Hall j b Hj) as (m' & Hm' & Hs' & _).
  assert (m' = m) as -> by congruence. lia.
Qed.

Lemma hub_control n m ins outs f s item : sound n m ins outs f s -> item ∈ control_inbox s HUB ->
  item.(dc_source) = LEG /\ is_bytes item.(dc_bytes) /\ item.(dc_bytes) ∈ sent_bytes outs.
Proof.
  intros Hs Hi. destruct (control_arrives _ _ _ _ _ (so_reach _ _ _ _ _ _ Hs)
    (tn_carried _ _ (so_transit _ _ _ _ _ _ Hs)) Hi) as ([c|a] & Hg & Hc); [|done].
  injection Hc as E1 E2 <-. destruct Hg as [Hb Hg]. rewrite <- E1. destruct (Hg E2). by split_and!.
Qed.

Lemma hub_asset n m ins outs f s item : sound n m ins outs f s -> item ∈ asset_inbox s HUB ->
  item.(da_source) = LEG /\
  exists r, (fx_leg f).(l_transfers) !! record_key (fx_leg f) item.(da_transfer) = Some (Owned r) /\
    item.(da_requested) <= r.(tr_assets_sent).
Proof.
  intros Hs Hi. destruct (asset_arrives _ _ _ _ _ (so_reach _ _ _ _ _ _ Hs)
    (tn_carried _ _ (so_transit _ _ _ _ _ _ Hs)) Hi) as ([c|a] & Hg & Hc); [done|].
  injection Hc as E1 E2 E3 E4. destruct (Hg E2) as (Hsrc & r & Hr & Hle).
  rewrite <- E1, <- E3, <- E4. eauto.
Qed.

(** A text of the observation is the hex of an entry of the hub's inbox. *)
Lemma received_entry t w text : text ∈ received t w ->
  exists item, item ∈ control_inbox w.(sim) w.(hub) /\ text = Hex.encode item.(dc_bytes).
Proof.
  unfold received. intros (item & Hi & Hx)%list_elem_of_omap. exists item. split; [done|].
  destruct (decode_message keccak (dc_bytes item)); [|done]. case_bool_decide; [|done]. by injection Hx.
Qed.

Lemma received_genuine n m ins outs t w text : stands n m ins outs w -> text ∈ received t w ->
  exists bytes, Hex.decode text = Ok bytes /\ bytes ∈ sent_bytes outs.
Proof.
  intros Hs (item & Hi & ->)%received_entry. rewrite (st_hub _ _ _ _ _ Hs) in Hi.
  destruct (hub_control _ _ _ _ _ _ _ (st_sound _ _ _ _ _ Hs) Hi) as (_ & Hb & Hin).
  exists (dc_bytes item). split; [by apply decode_encode|done].
Qed.
End facts.

(** C37. Nothing is forged between the chains: after any script, whatever it
    drops, delays, duplicates, splits or reorders, the leg is on a run that
    consumed, each once and in their order of arrival, only messages the
    transport delivered to it; everything in the hub's inboxes came from the
    leg, each message one the leg published and each asset for a transfer
    whose record says at least that much was sent; and every report, notice
    and settlement of the observation decodes to a published message. *)
Theorem harness_traffic_is_genuine (C : Chain) (F : Fixture) (L : FixtureLaws) ops w0 r w :
  world_new = Some w0 -> Forall wire_typed ops -> apply_all ops w0 = Some (r, w) ->
  let l := fx_leg w.(fixture) in
  exists ins outs,
    RemoteRuns.run (fx_leg fx_e2e) ins outs l /\ NoDup ins /\
    l.(l_lane).(rl_highest_consumed_sequence) = Z.of_nat (length ins) /\
    ins `sublist_of` (dc_bytes <$> take w.(control_applied) (control_inbox w.(sim) LEG)) /\
    (forall item, item ∈ control_inbox w.(sim) HUB ->
       item.(dc_source) = LEG /\ item.(dc_bytes) ∈ sent_bytes outs) /\
    (forall item, item ∈ asset_inbox w.(sim) HUB -> item.(da_source) = LEG /\
       exists r, l.(l_transfers) !! record_key l item.(da_transfer) = Some (Owned r) /\
         item.(da_requested) <= r.(tr_assets_sent)) /\
    (forall text, text ∈ ob_reports (observe w) ++ ob_recall_sents (observe w)
       ++ ob_settlements (observe w) ->
       exists bytes, Hex.decode text = Ok bytes /\ bytes ∈ sent_bytes outs).
Proof.
  intros H0 Hty Hx. destruct (script_standing _ _ _ _ H0 Hty Hx) as (ins & outs & Hs).
  pose proof (st_sound _ _ _ _ _ Hs) as Hso. pose proof (so_run _ _ _ _ _ _ Hso) as Hr.
  pose proof (e2e_lane _ _ _ Hr) as Hlane. exists ins, outs. split_and!.
  - exact Hr.
  - by eapply tracked_NoDup.
  - apply Hlane.
  - apply (so_ins _ _ _ _ _ _ Hso).
  - intros item Hi. by destruct (hub_control _ _ _ _ _ _ _ Hso Hi) as (? & _ & ?).
  - intros item Hi. by eapply hub_asset.
  - intros text Ht. rewrite !elem_of_app in Ht.
    destruct Ht as [Ht|[Ht|Ht]]; exact (received_genuine _ _ _ _ _ _ _ Hs Ht).
Qed.

(** C38. The harness loses and makes no assets: after any script, what the
    leg holds in custody and has deployed, lost and sent back adds up to what
    it started with and the arrivals credited to it, each arrival of its
    inbox once. *)
Theorem harness_conserves_assets (C : Chain) (F : Fixture) (L : FixtureLaws) ops w0 r w :
  world_new = Some w0 -> Forall wire_typed ops -> apply_all ops w0 = Some (r, w) ->
  let o := observe w in
  o.(ob_custody) + o.(ob_deployed) + o.(ob_realized_loss)
    + total tr_assets_sent (fx_leg w.(fixture)).(l_transfers)
  = holdings (fx_leg fx_e2e)
    + lsum (fun a => clamp_u64 a.(da_delivered)) (take w.(asset_applied) (asset_inbox w.(sim) LEG)).
Proof.
  intros H0 Hty Hx. destruct (script_standing _ _ _ _ H0 Hty Hx) as (ins & outs & Hs).
  exact (so_assets _ _ _ _ _ _ (st_sound _ _ _ _ _ Hs)).
Qed.

(** * A bench *)

(** A leg of the fixture's own deployment on the sample chain, driven by the
    program's instructions under the accounts the fixture would list. *)

#[local] Existing Instance sample_chain.

Definition bench_params : InitializeParams := {|
  ip_deployment_id := Builder.DEPLOYMENT_ID;
  ip_vault_id := Builder.VAULT_ID;
  ip_source_chain_id := Builder.SOURCE_CHAIN_ID;
  ip_destination_chain_id := Builder.DESTINATION_CHAIN_ID;
  ip_source_application_id := Builder.SOURCE_APPLICATION_ID;
  ip_local_application_id := Builder.LOCAL_APPLICATION_ID;
  ip_control_lane_id := Builder.CONTROL_LANE_ID;
  ip_report_lane_id := 2;
  ip_config_version := Builder.CONFIG_VERSION;
  ip_transport_verifier := replicate 32 4;
  ip_emergency_guardian := replicate 32 2
|}.

Definition bench_control : ControlStateParams := {|
  cp_max_remote_allocation_bps := 6000;
  cp_max_upward_deviation_bps := 200;
  cp_max_downward_deviation_bps := 1000;
  cp_max_report_age := 3600;
  cp_config_commitment := replicate 32 0xAA;
  cp_mandatory_watermark_lag := 2
|}.

Definition bench_key : Key := (find_program_address (config_seeds bench_params) crate_ID).1.

Definition bench_adapter_state : Key :=
  (find_program_address [ADAPTER_STATE_SEED; bench_key] sample_adapter_key).1.

Definition bench_adapter_authority : Key :=
  (find_program_address [ADAPTER_AUTHORITY_SEED; bench_adapter_state] sample_adapter_key).1.

Definition bench_setup : SetupEnv := {|
  se_unix_timestamp := Builder.START_TIMESTAMP;
  se_administrator := replicate 32 1;
  se_upgrade_authority := replicate 32 1;
  se_program_upgrade_authority := Some (replicate 32 1);
  se_asset_mint := replicate 32 61;
  se_mint_decimals := REQUIRED_MINT_DECIMALS;
  se_token_program := replicate 32 62;
  se_custody_token_account := replicate 32 63;
  se_outbound_escrow := replicate 32 64;
  se_adapter_program := sample_adapter_key;
  se_adapter_executable := true;
  se_adapter_state := bench_adapter_state;
  se_adapter_authority := bench_adapter_authority;
  se_adapter_token_vault := replicate 32 65
|}.

Definition bench_world : RemotePlatform.World := {|
  w_custody := sample_token 0 (custody_authority bench_key).1;
  w_vault := sample_token 0 bench_adapter_authority;
  w_escrow := sample_token 0 (replicate 32 66);
  w_adapter_state := sample_adapter_account 0
|}.

Definition bench_launch : Result Leg :=
  launch bench_setup bench_world bench_params bench_control 10000000.

Lemma bench_launch_ok : is_ok bench_launch = true.
Proof. vm_compute. reflexivity. Qed.

Definition launched_leg : Leg := ok_value bench_launch bench_launch_ok.

(** The leg with the deployment policy adopted. *)
Definition adopted : Result (Leg * list (list Z) * list BuiltMessage) :=
  play launched_leg Builder.START_TIMESTAMP [ActAdopt].

Lemma adopted_ok : is_ok adopted = true.
Proof. vm_compute. reflexivity. Qed.

Definition bench_leg : Leg := (ok_value adopted adopted_ok).1.1.

Lemma bench_set_up : set_up bench_leg.
Proof.
  exists bench_setup, bench_world, bench_params, bench_control, 10000000, launched_leg.
  split_and!; [by vm_compute|by vm_compute|split; vm_compute; congruence|apply (ok_value_Ok bench_launch)|].
  eapply (play_run _ Builder.START_TIMESTAMP [ActAdopt]). exact (ok_value_Ok adopted adopted_ok).
Qed.

#[local] Instance Env_eta : Eta Env := fun e => mkEnv (e_unix_timestamp e) (e_signer e) (e_guardian e)
  (e_funded e) (e_transfer_record e) (e_consumed_message e) (e_report_record e) (e_recall_sent_marker e)
  (e_transport_ledger e) (e_active_transfer_record e) (e_custody_token_account e) (e_outbound_escrow e)
  (e_asset_mint e) (e_token_program e) (e_adapter_program e) (e_adapter_state e) (e_adapter_authority e)
  (e_adapter_token_vault e) (e_receipt_key e) (e_receipt e) (e_introspection e).

Definition bench_env (l : Leg) (now : Z) (tx : Tx) : Env :=
  let act := match tx with TxDeploy n => ActDeploy n | TxFreeze => ActFreeze | _ => ActArrive 0 end in
  let env := act_env l now act in
  match tx_transfer tx with
  | Some t => env <| e_transfer_record := record_key l t |>
                  <| e_recall_sent_marker := (marker_address l.(l_key) t).1 |>
  | None => env
  end.

Record Bench := mkBench {
  bn_leg : Leg;
  bn_time : Z;
  bn_last : option (list Z)
}.

Definition bench_transact (tx : Tx) (f : Bench) : option (result Error unit * Bench) :=
  let l := f.(bn_leg) in
  match tx_ix tx with
  | Some ix =>
      match exec (bench_env l f.(bn_time) tx) l ix with
      | Ok (l', bs) => Some (Ok tt, mkBench l' f.(bn_time) (last (sent_bytes bs)))
      | Err e => Some (Err e, mkBench l f.(bn_time) None)
      end
  | None => Some (Ok tt, mkBench (l <| l_world, w_adapter_state := l.(l_world).(w_adapter_state) |>)
                           f.(bn_time) None)
  end.

Definition bench : Fixture := {|
  Fx := Bench;
  TxError := Error;
  fx_e2e := mkBench bench_leg Builder.START_TIMESTAMP None;
  fx_leg := bn_leg;
  fx_unix_timestamp := bn_time;
  fx_set_time := fun t f => mkBench f.(bn_leg) t f.(bn_last);
  fx_credit := fun n f =>
    if f.(bn_leg).(l_world).(w_custody).(tk_amount) + n <=? u64_max
    then Some (mkBench (credited n f.(bn_leg)) f.(bn_time) f.(bn_last)) else None;
  fx_transact := bench_transact;
  fx_last_event := fun f =>
    bytes ← f.(bn_last); if bool_decide (is_bytes bytes) then Some bytes else None
|}.

#[local] Existing Instance bench.

#[local] Instance bench_laws : FixtureLaws.
Proof.
  split.
  - intros bytes. split; [apply length_to_be|apply to_be_is_bytes].
  - exact bench_set_up.
  - done.
  - intros n f f'. cbn. destruct (_ <=? _); [|done]. by intros [= <-].
  - intros tx f e f'. cbn. unfold bench_transact. destruct (tx_ix tx); [|done].
    destruct (exec _ _ _) as [[l' bs]|]; [done|]. by intros [= _ <-].
  - intros tx f u f'. cbn. unfold bench_transact, landed. destruct (tx_ix tx) as [ix|] eqn:Hix.
    + destruct (exec _ _ _) as [[l' bs]|] eqn:He; [|done]. intros [= _ <-].
      exists (bench_env (bn_leg f) (bn_time f) tx), bs. split_and!; [done|..].
      * intros t Ht. unfold bench_env. by rewrite Ht.
      * intros bytes. cbn. destruct (last (sent_bytes bs)) as [b|] eqn:Hl; [|done]. cbn.
        case_bool_decide; [|done]. intros [= <-]. by apply last_Some_elem_of.
    + intros [= _ <-]. by eexists.
  - intros f bytes. cbn. destruct (bn_last f) as [b|]; [|done]. cbn.
    case_bool_decide; [|done]. by intros [= <-].
Qed.

(** * A script *)

Definition script_transfer : list Z := Hex.encode (replicate 32 0x77).

Definition outward : list WireOp :=
  [AllocateNext script_transfer 1000; FaultDuplicate 1 1 3; ScheduleAsset script_transfer 1000 2;
   FaultSplit 2 [600; 400] 1; RunUntilIdle; ApplyControl; ApplyAsset; Attribute script_transfer; Deploy 600;
   PublishReport 1 5; RunUntilIdle].

(** The world a script leads to, when it returns. *)
Definition bench_run (ops : list WireOp) : option (result Failure unit * E2eWorld.World) :=
  w ← world_new; apply_all ops w.

(** The recall the hub would send next. *)
Definition recall_bytes (w : E2eWorld.World) : list Z :=
  let lane := (fx_leg w.(fixture)).(l_lane) in
  default [] (Builder.encoded (Builder.previous_commitment lane.(rl_message_commitment)
    (Builder.sequence (lane.(rl_highest_consumed_sequence) + 1)
       (mkMessage Builder.default_header (BRecall (mkRecallBody (replicate 32 0x88) 700 1
          Builder.EXPIRES_AT Builder.CONFIG_VERSION)))))).

Definition script_recall : list Z := Hex.encode (replicate 32 0x88).

Definition homeward (w : E2eWorld.World) : list WireOp :=
  [ScheduleControl (Hex.encode (recall_bytes w)) 10; RunUntilIdle; ApplyControl;
   Withdraw script_recall 300; SendRecall script_recall 10000 20; PublishRecallSent script_recall 20;
   RunUntilIdle].

Definition round_trip : list WireOp :=
  match bench_run outward with Some (_, w) => outward ++ homeward w | None => [] end.

#[local] Instance wire_typed_dec op : Decision (wire_typed op).
Proof. destruct op; cbn; unfold fits; apply _. Defined.

Lemma round_trip_typed : Forall wire_typed round_trip.
Proof. apply (bool_decide_unpack (Forall wire_typed round_trip)). vm_compute. exact I. Qed.

(** Out and back: a duplicated allocation is refused the second time, a
    split arrival is credited in pieces, and of a recall of 700 units 30 are
    lost and 670 reach the hub. *)
Lemma harness_traffic_is_genuine_witness :
  match bench_run round_trip with
  | Some (r, w) => r = Ok tt /\
      length (ob_reports (observe w)) = 1%nat /\ length (ob_recall_sents (observe w)) = 1%nat /\
      length (control_inbox w.(sim) LEG) = 3%nat /\
      exists ins, RemoteRuns.lane_tracks (fx_leg w.(fixture)) ins /\ length ins = 2%nat
  | None => False
  end.
Proof.
  assert (E : match bench_run round_trip with
    | Some (r, w) => r = Ok tt /\ length (ob_reports (observe w)) = 1%nat /\
        length (ob_recall_sents (observe w)) = 1%nat /\ length (control_inbox w.(sim) LEG) = 3%nat /\
        rl_highest_consumed_sequence (l_lane (fx_leg w.(fixture))) = 2
    | None => False end) by (vm_compute; repeat split).
  unfold bench_run in *. destruct world_new as [w0|] eqn:H0; [|destruct E]. cbn [mbind option_bind] in *.
  destruct (apply_all round_trip w0) as [[r w]|] eqn:Hx; [|destruct E].
  destruct E as (Hr & H1 & H2 & H3 & H4).
  destruct (harness_traffic_is_genuine sample_chain bench bench_laws round_trip w0 r w H0 round_trip_typed Hx)
    as (ins & outs & Hrun & _ & Hl & _).
  split; [exact Hr|]. split; [exact H1|]. split; [exact H2|]. split; [exact H3|].
  exists ins. split; [exact (e2e_lane ins outs _ Hrun)|]. rewrite H4 in Hl. lia.
Defined.

Lemma harness_conserves_assets_witness :
  match bench_run round_trip with
  | Some (_, w) => ob_custody (observe w) = 0 /\ ob_deployed (observe w) = 300 /\
      ob_realized_loss (observe w) = 30 /\ ob_inbound_asset (observe w) = 670 /\
      total tr_assets_sent (l_transfers (fx_leg w.(fixture))) = 670
  | None => False
  end.
Proof.
  assert (E : match bench_run round_trip with
    | Some (_, w) => ob_custody (observe w) = 0 /\ ob_deployed (observe w) = 300 /\
        ob_realized_loss (observe w) = 30 /\ ob_inbound_asset (observe w) = 670 /\
        holdings (fx_leg fx_e2e) = 0 /\
        lsum (fun a => clamp_u64 a.(da_delivered))
          (take w.(asset_applied) (asset_inbox w.(sim) LEG)) = 1000
    | None => False end) by (vm_compute; repeat split).
  unfold bench_run in *. destruct world_new as [w0|] eqn:H0; [|destruct E]. cbn [mbind option_bind] in *.
  destruct (apply_all round_trip w0) as [[r w]|] eqn:Hx; [|destruct E].
  destruct E as (H1 & H2 & H3 & H4 & H5 & H6).
  pose proof (harness_conserves_assets sample_chain bench bench_laws round_trip w0 r w H0 round_trip_typed Hx)
    as Hc. cbv zeta in Hc. rewrite H1, H2, H3, H5, H6 in Hc.
  split; [exact H1|]. split; [exact H2|]. split; [exact H3|]. split; [exact H4|]. lia.
Defined.
