(* ===== verification/DiffRecorder.v ===== *)
(** The recorder of the differential run
    ([crates/evm-differential/src/action.rs], [result.rs], [snapshot.rs] and
    [scenario.rs]): it drives the accounting model, the reference, and writes
    down what the Solidity vault must reproduce.  Numeric codes keep their
    wire values; the names printed for debugging are left out.  An array
    [[u128; 4]] is a list of four, one entry per user. *)

From Stdlib Require Import ZArith Lia.
From S2P Require Import Prelude AccountingMath AccountingState AccountingTransition.
From S2P Require Import ProtocolCodec.

Module Diff.

(** * Actors and actions *)

Definition USER_COUNT : nat := 4.
Definition ADMIN_SLOT : Z := 4.
Definition GUARDIAN_SLOT : Z := 5.
Definition ACTOR_COUNT : nat := 6.
Definition USER_BASE_ACCOUNT : Z := 1.
Definition ADMIN_ACCOUNT : Z := 100.
Definition GUARDIAN_ACCOUNT : Z := 101.

(** [0..USER_COUNT]. *)
Definition users : list nat := seq 0 USER_COUNT.

Definition account_for (slot : Z) : AccountId :=
  if slot =? ADMIN_SLOT then ADMIN_ACCOUNT
  else if slot =? GUARDIAN_SLOT then GUARDIAN_ACCOUNT
  else USER_BASE_ACCOUNT + slot.

Inductive ActionKind : Set :=
| RequestDeposit | CancelDeposit | RequestRedeem | CancelRedeem | CutoffEpoch | FinalizeEpoch
| OpenNextEpoch | ClaimDeposit | ClaimRedeem | RefundDeposit | RefundRedeem | Pause | Unpause
| Freeze | AbortEpoch | BeginAllocate | CompleteAllocation | BeginRecall | AcceptRecallSent
| ObserveInbound | ApplyRemoteValuation | LockRemoteValuation | RequestClose | SettleClose
| BeginRecover | SettleRecover.

#[global] Instance ActionKind_eq_dec : EqDecision ActionKind.
Proof. solve_decision. Defined.

Definition ALL : list ActionKind :=
  [RequestDeposit; CancelDeposit; RequestRedeem; CancelRedeem; CutoffEpoch; FinalizeEpoch;
   OpenNextEpoch; ClaimDeposit; ClaimRedeem; RefundDeposit; RefundRedeem; Pause; Unpause;
   Freeze; AbortEpoch; BeginAllocate; CompleteAllocation; BeginRecall; AcceptRecallSent;
   ObserveInbound; ApplyRemoteValuation; LockRemoteValuation; RequestClose; SettleClose;
   BeginRecover; SettleRecover].

Definition kind_raw (k : ActionKind) : Z :=
  match k with
  | RequestDeposit => 0 | CancelDeposit => 1 | RequestRedeem => 2 | CancelRedeem => 3
  | CutoffEpoch => 4 | FinalizeEpoch => 5 | OpenNextEpoch => 6 | ClaimDeposit => 7
  | ClaimRedeem => 8 | RefundDeposit => 9 | RefundRedeem => 10 | Pause => 11 | Unpause => 12
  | Freeze => 13 | AbortEpoch => 14 | BeginAllocate => 15 | CompleteAllocation => 16
  | BeginRecall => 17 | AcceptRecallSent => 18 | ObserveInbound => 19
  | ApplyRemoteValuation => 20 | LockRemoteValuation => 21 | RequestClose => 22
  | SettleClose => 23 | BeginRecover => 24 | SettleRecover => 25
  end.

Definition is_cancellation (k : ActionKind) : bool :=
  match k with CancelDeposit | CancelRedeem => true | _ => false end.

Definition is_refund (k : ActionKind) : bool :=
  match k with RefundDeposit | RefundRedeem => true | _ => false end.

Record Action := mkAction {
  kind : ActionKind;
  actor : Z;
  amount : Z;
  a_epoch : Z;
  timestamp : Z;
  aux0 : Z;
  aux1 : Z
}.

(** The identity is the number in the low sixteen bytes. *)
Definition transfer_id_from (aux0 : Z) : TransferId := replicate 16 0 ++ to_be 16 aux0.

Definition action_new (kind : ActionKind) (actor amount epoch timestamp : Z) : Action :=
  mkAction kind actor amount epoch timestamp 0 0.

Definition to_operation (a : Action) : Operation :=
  let account := account_for a.(actor) in
  let epoch := a.(a_epoch) in
  let now := a.(timestamp) in
  match a.(kind) with
  | RequestDeposit => AccountingState.RequestDeposit account a.(amount)
  | CancelDeposit => AccountingState.CancelDeposit account
  | RequestRedeem => AccountingState.RequestRedeem account a.(amount)
  | CancelRedeem => AccountingState.CancelRedeem account
  | CutoffEpoch => AccountingState.CutoffEpoch now
  | FinalizeEpoch => AccountingState.FinalizeEpoch
  | OpenNextEpoch => AccountingState.OpenNextEpoch now
  | ClaimDeposit => AccountingState.ClaimDeposit account epoch
  | ClaimRedeem => AccountingState.ClaimRedeem account epoch
  | RefundDeposit => AccountingState.ClaimAbortedDeposit account epoch
  | RefundRedeem => AccountingState.ClaimAbortedRedeem account epoch
  | Pause => AccountingState.Pause account
  | Unpause => AccountingState.Unpause account
  | Freeze => AccountingState.Freeze account
  | AbortEpoch => AccountingState.AbortEpoch account
  | BeginAllocate =>
      AccountingState.BeginAllocate account (transfer_id_from a.(aux0)) a.(amount)
  | CompleteAllocation =>
      AccountingState.CompleteAllocation (transfer_id_from a.(aux0)) a.(amount)
  | BeginRecall => AccountingState.BeginRecall account (transfer_id_from a.(aux0)) a.(amount)
  | AcceptRecallSent =>
      AccountingState.AcceptRecallSent (transfer_id_from a.(aux0)) a.(amount) a.(aux1)
        (saturating_sub a.(amount) a.(aux1))
  | ObserveInbound => AccountingState.ObserveInbound a.(amount)
  | ApplyRemoteValuation => AccountingState.ApplyRemoteValuation a.(amount) a.(aux1)
  | LockRemoteValuation => AccountingState.LockRemoteValuation
  | RequestClose => AccountingState.RequestClose account (transfer_id_from a.(aux0))
  | SettleClose => AccountingState.SettleClose (transfer_id_from a.(aux0)) a.(amount)
  | BeginRecover => AccountingState.BeginRecover account (transfer_id_from a.(aux0))
  | SettleRecover => AccountingState.SettleRecover (transfer_id_from a.(aux0)) a.(amount)
  end.

(** * Results *)

Inductive ResultCode : Set :=
| Success | InvalidVaultState | Unauthorized | EpochNotOpen | EpochAlreadyOpen
| EpochAlreadyCutOff | EpochNotCutOff | EpochAlreadySettled | CutoffNotReached
| CancellationAfterCutoff | EpochNotFinalized | EpochNotAborted | RequestNotFound
| RequestNotActive | ClaimAlreadyConsumed | RefundAlreadyConsumed | ZeroAmount
| AmountBelowMinimum | InsufficientAssetBalance | InsufficientShareBalance
| InsufficientLiquidity | TimestampNotMonotonic | InvalidConfiguration | ArithmeticFailure.

#[global] Instance ResultCode_eq_dec : EqDecision ResultCode.
Proof. solve_decision. Defined.

Definition code_raw (c : ResultCode) : Z :=
  match c with
  | Success => 0 | InvalidVaultState => 1 | Unauthorized => 2 | EpochNotOpen => 3
  | EpochAlreadyOpen => 4 | EpochAlreadyCutOff => 5 | EpochNotCutOff => 6
  | EpochAlreadySettled => 7 | CutoffNotReached => 8 | CancellationAfterCutoff => 9
  | EpochNotFinalized => 10 | EpochNotAborted => 11 | RequestNotFound => 12
  | RequestNotActive => 13 | ClaimAlreadyConsumed => 14 | RefundAlreadyConsumed => 15
  | ZeroAmount => 16 | AmountBelowMinimum => 17 | InsufficientAssetBalance => 18
  | InsufficientShareBalance => 19 | InsufficientLiquidity => 20 | TimestampNotMonotonic => 21
  | InvalidConfiguration => 22 | ArithmeticFailure => 23
  end.

(** The catch-all arm of the source is for variants a later version may add. *)
Definition code_for (k : ActionKind) (rejection : Rejection) : ResultCode :=
  match rejection with
  | AccountingMath.InvalidVaultState => InvalidVaultState
  | AccountingMath.UnauthorizedActor => Unauthorized
  | AccountingMath.EpochNotOpen => EpochNotOpen
  | AccountingMath.EpochAlreadyOpen => EpochAlreadyOpen
  | AccountingMath.EpochAlreadyCutOff => EpochAlreadyCutOff
  | AccountingMath.EpochNotCutOff => EpochNotCutOff
  | AccountingMath.EpochAlreadyFinalized => EpochAlreadySettled
  | AccountingMath.CutoffNotReached => CutoffNotReached
  | AccountingMath.CancellationAfterCutoff => CancellationAfterCutoff
  | AccountingMath.EpochNotFinalized => EpochNotFinalized
  | AccountingMath.EpochNotAborted => EpochNotAborted
  | AccountingMath.RequestNotFound | AccountingMath.ClaimNotFound =>
      if is_cancellation k then RequestNotActive else RequestNotFound
  | AccountingMath.RequestAlreadyCancelled => RequestNotActive
  | AccountingMath.RequestAlreadySettled | AccountingMath.ClaimAlreadyConsumed =>
      if is_refund k then RefundAlreadyConsumed else ClaimAlreadyConsumed
  | AccountingMath.ZeroAmount => ZeroAmount
  | AccountingMath.AmountBelowMinimum => AmountBelowMinimum
  | AccountingMath.InsufficientAssetBalance => InsufficientAssetBalance
  | AccountingMath.InsufficientShareBalance => InsufficientShareBalance
  | AccountingMath.InsufficientRedemptionLiquidity => InsufficientLiquidity
  | AccountingMath.TimestampNotMonotonic => TimestampNotMonotonic
  | AccountingMath.InvalidConfiguration | AccountingMath.DuplicateAccount => InvalidConfiguration
  | AccountingMath.ArithmeticOverflow | AccountingMath.ArithmeticUnderflow
  | AccountingMath.DivisionByZero => ArithmeticFailure
  | AccountingMath.ActiveTransferExists | AccountingMath.NoActiveTransfer
  | AccountingMath.TransferIdReused | AccountingMath.InvalidRecallSentAmounts
  | AccountingMath.RemoteValuationRequired | AccountingMath.ValuationAlreadyFixed
  | AccountingMath.InvalidAssetAttribution | AccountingMath.CloseAlreadyRequested
  | AccountingMath.NoPendingSettlement | AccountingMath.NothingToRecover
  | AccountingMath.SettlementMismatch => InvalidConfiguration
  | AccountingMath.InsufficientRemotePrincipal => InsufficientLiquidity
  | AccountingMath.AllocateNotAllowed => InvalidVaultState
  end.

(** * Snapshots *)

Definition MAX_TRACKED_EPOCHS : Z := 16.

Record Snapshot := mkSnapshot {
  s_pending_deposit_escrow : Z;
  s_idle_backing : Z;
  s_claim_reserve : Z;
  s_unattributed_balance : Z;
  s_total_supply : Z;
  s_vault_share_balance : Z;
  s_vault_asset_balance : Z;
  s_status : Z;
  s_epoch_open : bool;
  s_epoch_phase : Z;
  s_epoch_id : Z;
  s_next_epoch_id : Z;
  s_epoch_deposit_assets : Z;
  s_epoch_redeem_shares : Z;
  s_consumed_mask : Z;
  s_actor_assets : list Z;
  s_actor_shares : list Z;
  s_actor_deposit_assets : list Z;
  s_actor_redeem_shares : list Z;
  s_unattributed_inbound : Z;
  s_outbound_in_transit : Z;
  s_accepted_remote_value : Z;
  s_inbound_in_transit : Z;
  s_remote_principal_cap : Z;
  s_impaired_transport : Z
}.

#[global] Instance Snapshot_eta : Eta Snapshot := fun s => mkSnapshot
  (s_pending_deposit_escrow s) (s_idle_backing s) (s_claim_reserve s) (s_unattributed_balance s)
  (s_total_supply s) (s_vault_share_balance s) (s_vault_asset_balance s) (s_status s)
  (s_epoch_open s) (s_epoch_phase s) (s_epoch_id s) (s_next_epoch_id s)
  (s_epoch_deposit_assets s) (s_epoch_redeem_shares s) (s_consumed_mask s) (s_actor_assets s)
  (s_actor_shares s) (s_actor_deposit_assets s) (s_actor_redeem_shares s)
  (s_unattributed_inbound s) (s_outbound_in_transit s) (s_accepted_remote_value s)
  (s_inbound_in_transit s) (s_remote_principal_cap s) (s_impaired_transport s).

#[global] Instance Snapshot_eq_dec : EqDecision Snapshot.
Proof. solve_decision. Defined.

Definition consumed_bit (epoch : Z) (user : nat) (redeem : bool) : option Z :=
  if (MAX_TRACKED_EPOCHS <=? epoch) || (USER_COUNT <=? user)%nat then None
  else
    let kind := if redeem then 1 else 0 in
    let index := epoch * 8 + Z.of_nat user * 2 + kind in
    if index <=? u32_max then Some index else None.

Definition next_epoch_id (s : State) : Z :=
  match s.(epoch) with
  | None => s.(AccountingState.next_epoch_id)
  | Some e => saturating_add u64_max e.(ep_id) 1
  end.

Definition deposit_assets_at (s : State) (k : RequestKey) : Z :=
  match s.(deposit_requests) !! k with Some r => r.(dr_assets) | None => 0 end.

Definition redeem_shares_at (s : State) (k : RequestKey) : Z :=
  match s.(redeem_requests) !! k with Some r => r.(rr_shares) | None => 0 end.

Definition deposit_spent (s : State) (k : RequestKey) : bool :=
  match s.(deposit_requests) !! k with Some r => r.(dr_claimed) | None => false end.

Definition redeem_spent (s : State) (k : RequestKey) : bool :=
  match s.(redeem_requests) !! k with Some r => r.(rr_claimed) | None => false end.

(** [mask |= 1 << bit], when the flag has a bit. *)
Definition mark (mask : Z) (flag : bool) (bit : option Z) : Z :=
  match bit with
  | Some b => if flag then Z.lor mask (Z.shiftl 1 b) else mask
  | None => mask
  end.

(** The flags of one user, over the tracked epochs. *)
Definition capture_mask (s : State) (user : nat) (mask : Z) : Z :=
  foldl (fun mask epoch =>
      let key := mkRequestKey epoch (account_for (Z.of_nat user)) in
      let mask := mark mask (deposit_spent s key) (consumed_bit epoch user false) in
      mark mask (redeem_spent s key) (consumed_bit epoch user true))
    mask (seqZ 0 MAX_TRACKED_EPOCHS).

(** The fields of one user. *)
Definition capture_user (s : State) (shot : Snapshot) (user : nat) : Snapshot :=
  let a := account_for (Z.of_nat user) in
  let holding := account s a in
  let shot := shot <| s_actor_assets ::= <[user := holding.(acc_assets)]> |> in
  let shot := shot <| s_actor_shares ::= <[user := holding.(acc_shares)]> |> in
  let shot :=
    match s.(epoch) with
    | Some e =>
        let key := mkRequestKey e.(ep_id) a in
        shot <| s_actor_deposit_assets ::= <[user := deposit_assets_at s key]> |>
             <| s_actor_redeem_shares ::= <[user := redeem_shares_at s key]> |>
    | None => shot
    end in
  shot <| s_consumed_mask ::= capture_mask s user |>.

Definition status_code (v : VaultState) : Z :=
  match v with Active => 0 | Paused => 1 | Frozen => 2 end.

Definition phase_code (p : EpochPhase) : Z := match p with Open => 0 | CutOff => 1 end.

Definition capture (s : State) : Snapshot :=
  let b := s.(buckets) in
  let add := saturating_add u128_max in
  let shot := {|
    s_pending_deposit_escrow := b.(pending_deposit_escrow);
    s_idle_backing := b.(idle_backing);
    s_claim_reserve := b.(claim_reserve);
    s_unattributed_balance := b.(unattributed_balance);
    s_total_supply := s.(total_share_supply);
    s_vault_share_balance := add s.(escrowed_redeem_shares) s.(claimable_deposit_shares);
    s_vault_asset_balance :=
      add (add (add (add b.(pending_deposit_escrow) b.(idle_backing)) b.(claim_reserve))
             b.(unattributed_balance)) b.(unattributed_inbound);
    s_status := status_code s.(vault_state);
    s_epoch_open := match s.(epoch) with Some _ => true | None => false end;
    s_epoch_phase := 0;
    s_epoch_id := 0;
    s_next_epoch_id := next_epoch_id s;
    s_epoch_deposit_assets := 0;
    s_epoch_redeem_shares := 0;
    s_consumed_mask := 0;
    s_actor_assets := replicate USER_COUNT 0;
    s_actor_shares := replicate USER_COUNT 0;
    s_actor_deposit_assets := replicate USER_COUNT 0;
    s_actor_redeem_shares := replicate USER_COUNT 0;
    s_unattributed_inbound := b.(unattributed_inbound);
    s_outbound_in_transit := b.(outbound_in_transit);
    s_accepted_remote_value := b.(accepted_remote_value);
    s_inbound_in_transit := b.(inbound_in_transit);
    s_remote_principal_cap := s.(remote_principal_cap);
    s_impaired_transport := s.(impaired_transport)
  |} in
  let shot :=
    match s.(epoch) with
    | Some e =>
        shot <| s_epoch_id := e.(ep_id) |>
             <| s_epoch_phase := phase_code e.(ep_phase) |>
             <| s_epoch_deposit_assets := e.(ep_pending_deposit_assets) |>
             <| s_epoch_redeem_shares := e.(ep_pending_redeem_shares) |>
    | None => shot
    end in
  foldl (capture_user s) shot users.

(** * Scenarios *)

Definition OUTCOME_FINALIZED : Z := 1.
Definition OUTCOME_ABORTED : Z := 2.
Definition ASSET_DECIMALS : Z := 6.
Definition SHARE_DECIMALS : Z := 18.

Record EpochActorTerms := mkEpochActorTerms {
  ea_deposit_assets : Z;
  ea_redeem_shares : Z;
  ea_claim_shares : Z;
  ea_claim_assets : Z
}.

Record EpochRecord := mkEpochRecord {
  er_epoch_id : Z;
  er_outcome : Z;
  er_settled_at_step : Z;
  er_cutoff_at : Z;
  er_total_assets : Z;
  er_total_supply : Z;
  er_deposit_assets : Z;
  er_minted_shares : Z;
  er_redeem_shares : Z;
  er_redeem_assets : Z;
  er_deposit_dust : Z;
  er_redeem_dust : Z;
  er_actors : list EpochActorTerms
}.

#[global] Instance EpochRecord_eta : Eta EpochRecord := fun s => mkEpochRecord
  (er_epoch_id s) (er_outcome s) (er_settled_at_step s) (er_cutoff_at s) (er_total_assets s)
  (er_total_supply s) (er_deposit_assets s) (er_minted_shares s) (er_redeem_shares s)
  (er_redeem_assets s) (er_deposit_dust s) (er_redeem_dust s) (er_actors s).

Record RecordedAction := mkRecordedAction {
  ra_action : Action;
  ra_result : ResultCode;
  ra_return_value : Z
}.

Record Setup := mkSetup {
  su_index : Z;
  su_seed : Z;
  su_family : Z;
  su_start_timestamp : Z;
  su_epoch_duration : Z;
  su_min_deposit : Z;
  su_min_redeem : Z;
  su_config_version : Z;
  su_initial_assets : list Z
}.

(** [sc_setup] holds the nine fields the source repeats from [Setup]. *)
Record Scenario := mkScenario {
  sc_setup : Setup;
  sc_initial_snapshot : Snapshot;
  sc_actions : list RecordedAction;
  sc_snapshots : list Snapshot;
  sc_epochs : list EpochRecord
}.

#[global] Instance Scenario_eta : Eta Scenario := fun s => mkScenario
  (sc_setup s) (sc_initial_snapshot s) (sc_actions s) (sc_snapshots s) (sc_epochs s).

Definition successes (s : Scenario) : nat :=
  length (filter (fun e => e.(ra_result) = Success) s.(sc_actions)).

Definition rejections (s : Scenario) : nat := (length s.(sc_actions) - successes s)%nat.

Definition has_finalized_epoch (s : Scenario) : bool :=
  existsb (fun e => e.(er_outcome) =? OUTCOME_FINALIZED) s.(sc_epochs).

Definition has_aborted_epoch (s : Scenario) : bool :=
  existsb (fun e => e.(er_outcome) =? OUTCOME_ABORTED) s.(sc_epochs).

Definition counts (s : Scenario) (k : ActionKind) : nat :=
  length (filter (fun e => e.(ra_action).(kind) = k /\ e.(ra_result) = Success) s.(sc_actions)).

Inductive BuildError : Set :=
| GenesisError (r : Rejection)
| PricingError (r : Rejection).

(** * The builder *)

Record Builder := mkBuilder {
  b_state : State;
  b_scenario : Scenario;
  b_settled_steps : gmap Z Z;
  b_now : Z
}.

#[global] Instance Builder_eta : Eta Builder := fun b => mkBuilder
  (b_state b) (b_scenario b) (b_settled_steps b) (b_now b).

(** [map_err(E)] with a constructor that keeps the reason. *)
Definition map_reason {E F A} (f : E -> F) (r : result E A) : result F A :=
  match r with Ok a => Ok a | Err e => Err (f e) end.

(** The genesis a scenario starts from. *)
Definition genesis_of (setup : Setup) : Genesis := {|
  gen_config := {|
    cfg_version := setup.(su_config_version);
    cfg_asset_decimals := ASSET_DECIMALS;
    cfg_share_decimals := SHARE_DECIMALS;
    cfg_min_deposit_assets := setup.(su_min_deposit);
    cfg_min_redeem_shares := setup.(su_min_redeem);
    cfg_epoch_duration := setup.(su_epoch_duration)
  |};
  gen_authority := {| admin := account_for ADMIN_SLOT; guardian := account_for GUARDIAN_SLOT |};
  gen_accounts := (fun user =>
      (account_for (Z.of_nat user), default 0 (setup.(su_initial_assets) !! user))) <$> users;
  gen_unattributed_balance := 0;
  gen_opened_at := setup.(su_start_timestamp)
|}.

Definition builder_new (setup : Setup) : result BuildError Builder :=
  let? state := map_reason GenesisError (state_new (genesis_of setup)) in
  let initial_snapshot := capture state in
  Ok {| b_state := state;
        b_scenario := mkScenario setup initial_snapshot [] [] [];
        b_settled_steps := ∅;
        b_now := setup.(su_start_timestamp) |}.

Definition steps (b : Builder) : nat := length b.(b_scenario).(sc_actions).

Definition advance_to (timestamp : Z) (b : Builder) : Builder := b <| b_now ::= Z.max timestamp |>.

Definition advance_by (seconds : Z) (b : Builder) : Builder :=
  b <| b_now := saturating_add u64_max b.(b_now) seconds |>.

Definition user_assets (b : Builder) (user : nat) : Z :=
  (account b.(b_state) (account_for (Z.of_nat user))).(acc_assets).

Definition user_shares (b : Builder) (user : nat) : Z :=
  (account b.(b_state) (account_for (Z.of_nat user))).(acc_shares).

Definition current_epoch_id (b : Builder) : Z :=
  match b.(b_state).(epoch) with Some e => e.(ep_id) | None => 0 end.

Definition current_cutoff_at (b : Builder) : Z :=
  match b.(b_state).(epoch) with Some e => e.(ep_cutoff_at) | None => 0 end.

Definition epoch_open (b : Builder) : bool :=
  match b.(b_state).(epoch) with Some _ => true | None => false end.

Definition epoch_is_taking_requests (b : Builder) : bool :=
  match b.(b_state).(epoch) with
  | Some e => bool_decide (e.(ep_phase) = Open)
  | None => false
  end.

Definition is_active (b : Builder) : bool := bool_decide (b.(b_state).(vault_state) = Active).

Definition is_frozen (b : Builder) : bool := bool_decide (b.(b_state).(vault_state) = Frozen).

Definition active_deposit (b : Builder) (user : nat) (epoch : Z) : Z :=
  deposit_assets_at b.(b_state) (mkRequestKey epoch (account_for (Z.of_nat user))).

Definition active_redeem (b : Builder) (user : nat) (epoch : Z) : Z :=
  redeem_shares_at b.(b_state) (mkRequestKey epoch (account_for (Z.of_nat user))).

Definition finalized_epochs (b : Builder) : list Z :=
  (filter (fun kv => is_Some (outcome_finalized kv.2)) (btree_iter Z.le b.(b_state).(epochs))).*1.

Definition aborted_epochs (b : Builder) : list Z :=
  (filter (fun kv => is_Some (outcome_aborted kv.2)) (btree_iter Z.le b.(b_state).(epochs))).*1.

(** The value a call returns when it succeeds, read before the state moves. *)
Definition return_value (s : State) (a : Action) : Z :=
  let key := mkRequestKey a.(a_epoch) (account_for a.(actor)) in
  match a.(kind) with
  | ClaimDeposit => default 0 (
      terms ← finalized_terms s a.(a_epoch);
      request ← s.(deposit_requests) !! key;
      match shares_for terms request.(dr_assets) with Ok v => Some v | Err _ => None end)
  | ClaimRedeem => default 0 (
      terms ← finalized_terms s a.(a_epoch);
      request ← s.(redeem_requests) !! key;
      match assets_for terms request.(rr_shares) with Ok v => Some v | Err _ => None end)
  | RefundDeposit => deposit_assets_at s key
  | RefundRedeem => redeem_shares_at s key
  | ObserveInbound => a.(amount)
  | _ => 0
  end.

(** Remembers the step at which an epoch left the slot. *)
Definition note_settlements (b : Builder) : Builder :=
  let step := Z.min u32_max (Z.of_nat (length b.(b_scenario).(sc_actions) - 1)) in
  b <| b_settled_steps := foldl (fun m id =>
         match m !! id with Some _ => m | None => <[id := step]> m end)
       b.(b_settled_steps) (btree_iter Z.le b.(b_state).(epochs)).*1 |>.

Definition exec_aux (kind : ActionKind) (actor amount epoch aux0 aux1 : Z) (b : Builder) : Builder :=
  let action := mkAction kind actor amount epoch b.(b_now) aux0 aux1 in
  let expected_return := return_value b.(b_state) action in
  let '(b, res, ret) :=
    match apply b.(b_state) (to_operation action) with
    | Ok next => (b <| b_state := next |>, Success, expected_return)
    | Err reason => (b, code_for kind reason, 0)
    end in
  let b := b <| b_scenario, sc_actions := b.(b_scenario).(sc_actions)
                 ++ [mkRecordedAction action res ret] |> in
  let b := b <| b_scenario, sc_snapshots := b.(b_scenario).(sc_snapshots)
                 ++ [capture b.(b_state)] |> in
  note_settlements b.

Definition exec (kind : ActionKind) (actor amount epoch : Z) (b : Builder) : Builder :=
  exec_aux kind actor amount epoch 0 0 b.

Definition exec_simple (kind : ActionKind) (actor : Z) (b : Builder) : Builder :=
  exec kind actor 0 0 b.

(** The terms of one user in a settled epoch. *)
Definition actor_terms (s : State) (id : Z) (outcome : EpochOutcome) (user : nat) :
    result BuildError EpochActorTerms :=
  let key := mkRequestKey id (account_for (Z.of_nat user)) in
  let deposit := deposit_assets_at s key in
  let redeem := redeem_shares_at s key in
  match outcome with
  | Finalized terms =>
      let? claim_shares := map_reason PricingError (shares_for terms deposit) in
      let? claim_assets := map_reason PricingError (assets_for terms redeem) in
      Ok (mkEpochActorTerms deposit redeem claim_shares claim_assets)
  | Aborted _ => Ok (mkEpochActorTerms deposit redeem 0 0)
  end.

(** The record of a settled epoch before the users are filled in. *)
Definition record_outcome (id step : Z) (outcome : EpochOutcome) : EpochRecord :=
  let actors := replicate USER_COUNT (mkEpochActorTerms 0 0 0 0) in
  match outcome with
  | Finalized t => mkEpochRecord id OUTCOME_FINALIZED step t.(et_cutoff_at) t.(et_total_assets)
      t.(et_total_supply) t.(et_deposit_assets) t.(et_minted_shares) t.(et_redeem_shares)
      t.(et_redeem_assets) t.(et_deposit_dust) t.(et_redeem_dust) actors
  | Aborted t => mkEpochRecord id OUTCOME_ABORTED step t.(at_cutoff_at) 0 0
      t.(at_refund_assets) 0 t.(at_refund_shares) 0 0 0 actors
  end.

Definition epoch_record (b : Builder) (id : Z) (outcome : EpochOutcome) :
    result BuildError EpochRecord :=
  let record := record_outcome id (default 0 (b.(b_settled_steps) !! id)) outcome in
  try_fold (fun record user =>
      let? entry := actor_terms b.(b_state) id outcome user in
      Ok (record <| er_actors ::= <[user := entry]> |>))
    record users.

Definition finish (b : Builder) : result BuildError Scenario :=
  let? records := try_fold (fun records kv =>
      let? record := epoch_record b kv.1 kv.2 in Ok (records ++ [record]))
    [] (btree_iter Z.le b.(b_state).(epochs)) in
  Ok (b.(b_scenario) <| sc_epochs := records |>).

End Diff.
