(* ===== verification/DiffGenerator.v ===== *)
(** The generator of the differential run
    ([crates/evm-differential/src/rng.rs], [generator.rs] and [lib.rs]): a
    SplitMix64 stream scripts eight families of scenarios over the recorder.
    A script reads and writes the builder and the stream; [Gen] threads both
    in the order of the source. *)

From Stdlib Require Import ZArith Lia.
From S2P Require Import Prelude AccountingMath AccountingState AccountingTransition.
From S2P Require Import DiffRecorder.
Import Diff.

Module Gen.

(** * The random stream *)

Record Rng := mkRng { state : Z }.

Definition GAMMA : Z := 0x9E3779B97F4A7C15.
Definition MIX_A : Z := 0xBF58476D1CE4E5B9.
Definition MIX_B : Z := 0x94D049BB133111EB.

(** Wrapping arithmetic of a [w]-bit unsigned integer. *)
Definition wrap (w v : Z) : Z := v mod 2 ^ w.

Definition rng_new (seed : Z) : Rng := mkRng seed.

Definition next_u64 (r : Rng) : Z * Rng :=
  let s := wrap 64 (r.(state) + GAMMA) in
  let z := s in
  let z := wrap 64 (Z.lxor z (Z.shiftr z 30) * MIX_A) in
  let z := wrap 64 (Z.lxor z (Z.shiftr z 27) * MIX_B) in
  (Z.lxor z (Z.shiftr z 31), mkRng s).

Definition below (bound : Z) (r : Rng) : Z * Rng :=
  if bound =? 0 then (0, r)
  else let '(v, r) := next_u64 r in (v mod bound, r).

Definition between (low high : Z) (r : Rng) : Z * Rng :=
  let '(low, high) := if low <=? high then (low, high) else (high, low) in
  let '(v, r) := below (wrap 64 (wrap 64 (high - low) + 1)) r in
  (wrap 64 (low + v), r).

Definition between_u128 (low high : Z) (r : Rng) : Z * Rng :=
  let '(low, high) := if low <=? high then (low, high) else (high, low) in
  let span := wrap 128 (wrap 128 (high - low) + 1) in
  if span =? 0 then (low, r)
  else
    let '(hi, r) := next_u64 r in
    let '(lo, r) := next_u64 r in
    let draw := Z.lor (Z.shiftl hi 64) lo in
    (wrap 128 (low + draw mod span), r).

Definition chance (numerator denominator : Z) (r : Rng) : bool * Rng :=
  if denominator =? 0 then (false, r)
  else let '(v, r) := below denominator r in (v <? numerator, r).

Definition pick {A} (options : list A) (r : Rng) : option A * Rng :=
  match options with
  | [] => (None, r)
  | _ => let '(index, r) := below (Z.of_nat (length options)) r in
         (options !! Z.to_nat index, r)
  end.

(** * Scripts *)

Definition Script (A : Type) : Type := Builder -> Rng -> A * Builder * Rng.

#[global] Instance Script_ret : MRet Script := fun A a b r => (a, b, r).

#[global] Instance Script_bind : MBind Script := fun A B k m b r =>
  let '(a, b, r) := m b r in k a b r.

Definition draw {A} (f : Rng -> A * Rng) : Script A := fun b r => let '(a, r) := f r in (a, b, r).

Definition read {A} (f : Builder -> A) : Script A := fun b r => (f b, b, r).

Definition act (f : Builder -> Builder) : Script unit := fun b r => (tt, f b, r).

(** A loop over a list. *)
Fixpoint for_each {A} (l : list A) (body : A -> Script unit) : Script unit :=
  match l with
  | [] => mret tt
  | x :: l' => body x ;; for_each l' body
  end.

(** A loop that carries a local. *)
Fixpoint for_fold {A B} (l : list A) (body : B -> A -> Script B) (acc : B) : Script B :=
  match l with
  | [] => mret acc
  | x :: l' => acc' ← body acc x; for_fold l' body acc'
  end.

(** * Setup *)

Definition FAMILY_COUNT : Z := 8.
Definition FAMILY_DEPOSIT : Z := 0.
Definition FAMILY_REDEMPTION : Z := 1.
Definition FAMILY_MIXED : Z := 2.
Definition FAMILY_MULTI_EPOCH : Z := 3.
Definition FAMILY_PAUSE : Z := 4.
Definition FAMILY_FREEZE : Z := 5.
Definition FAMILY_REJECTION : Z := 6.
Definition FAMILY_XCHAIN : Z := 7.

Definition BASE_TIMESTAMP : Z := 1700000000.

(** The loop that fills [initial_assets]. *)
Fixpoint draw_assets (n : nat) (r : Rng) : list Z * Rng :=
  match n with
  | O => ([], r)
  | S n' =>
      let '(v, r) := between_u128 60000000 900000000 r in
      let '(vs, r) := draw_assets n' r in
      (v :: vs, r)
  end.

Definition setup_for (index seed : Z) (r : Rng) : Setup * Rng :=
  let family := index mod FAMILY_COUNT in
  let '(c, r) := chance 1 4 r in
  let min_deposit := if c then 500000 else 1000000 in
  let '(c, r) := chance 1 4 r in
  let min_redeem := if c then 500000000000 else 1000000000000 in
  let '(epoch_duration, r) := between 600 7200 r in
  let '(offset, r) := between 0 100000 r in
  let start_timestamp := BASE_TIMESTAMP + offset in
  let '(initial_assets, r) := draw_assets USER_COUNT r in
  (mkSetup index seed family start_timestamp epoch_duration min_deposit min_redeem 1
     initial_assets, r).

(** * Shared steps *)

Definition any_user : Script Z := draw (below (Z.of_nat USER_COUNT)).

Definition cutoff : Script unit :=
  target ← read current_cutoff_at;
  delay ← draw (below 45);
  act (advance_to (saturating_add u64_max target delay)) ;;
  caller ← any_user;
  act (exec_simple CutoffEpoch caller).

Definition finalize : Script unit :=
  caller ← any_user;
  act (exec_simple FinalizeEpoch caller).

Definition settle : Script unit := cutoff ;; finalize.

Definition open_next : Script unit :=
  pause ← draw (between 1 300);
  act (advance_by pause) ;;
  caller ← any_user;
  act (exec_simple OpenNextEpoch caller).

(** [saturating_mul] of a [u128]. *)
Definition saturating_mul (a b : Z) : Z := Z.min u128_max (a * b).

Definition deposit_amount (user : nat) (setup : Setup) : Script Z :=
  balance ← read (fun b => user_assets b user);
  if balance <? setup.(su_min_deposit) then mret setup.(su_min_deposit)
  else
    let ceiling := Z.max (Z.min balance (saturating_mul setup.(su_min_deposit) 30))
                         setup.(su_min_deposit) in
    draw (between_u128 setup.(su_min_deposit) ceiling).

Definition redeem_amount (user : nat) (setup : Setup) : Script Z :=
  held ← read (fun b => user_shares b user);
  if held <? setup.(su_min_redeem) then mret setup.(su_min_redeem)
  else
    let ceiling := Z.max (saturating_sub held (held / 4)) setup.(su_min_redeem) in
    draw (between_u128 setup.(su_min_redeem) ceiling).

Definition request_deposit (user : Z) (setup : Setup) : Script unit :=
  amount ← deposit_amount (Z.to_nat user) setup;
  act (exec RequestDeposit user amount 0).

Definition request_redeem (user : Z) (setup : Setup) : Script unit :=
  amount ← redeem_amount (Z.to_nat user) setup;
  act (exec RequestRedeem user amount 0).

(** The slots of the users, [u8::try_from(user)]. *)
Definition user_slots : list Z := Z.of_nat <$> users.

Definition bootstrap_shares (setup : Setup) : Script unit :=
  epoch ← read current_epoch_id;
  for_each user_slots (fun slot => request_deposit slot setup) ;;
  settle ;;
  for_each user_slots (fun slot => act (exec ClaimDeposit slot 0 epoch)).

(** Both claims of every user in one epoch. *)
Definition claim_all (epoch : Z) : Script unit :=
  for_each user_slots (fun slot =>
    act (exec ClaimDeposit slot 0 epoch) ;; act (exec ClaimRedeem slot 0 epoch)).

(** * Families *)

Definition deposit_lifecycle (setup : Setup) : Script unit :=
  epoch ← read current_epoch_id;
  request_deposit 0 setup ;;
  request_deposit 0 setup ;;
  request_deposit 1 setup ;;
  pause ← draw (between 1 60);
  act (advance_by pause) ;;
  act (exec_simple CancelDeposit 0) ;;
  act (exec_simple CancelDeposit 0) ;;
  request_deposit 0 setup ;;
  request_deposit 2 setup ;;
  act (exec RequestDeposit 3 0 0) ;;
  act (exec RequestDeposit 3 (saturating_sub setup.(su_min_deposit) 1) 0) ;;
  cutoff ;;
  act (exec_simple CancelDeposit 1) ;;
  act (exec RequestDeposit 2 setup.(su_min_deposit) 0) ;;
  act (exec_simple CutoffEpoch 0) ;;
  act (exec ClaimDeposit 0 0 epoch) ;;
  finalize ;;
  act (exec ClaimDeposit 0 0 epoch) ;;
  act (exec ClaimDeposit 0 0 epoch) ;;
  act (exec ClaimDeposit 1 0 epoch) ;;
  act (exec ClaimDeposit 3 0 epoch) ;;
  act (exec RefundDeposit 1 0 epoch) ;;
  open_next ;;
  act (exec ClaimDeposit 2 0 epoch).

Definition redemption_lifecycle (setup : Setup) : Script unit :=
  bootstrap_shares setup ;;
  open_next ;;
  epoch ← read current_epoch_id;
  request_redeem 0 setup ;;
  request_redeem 0 setup ;;
  request_redeem 1 setup ;;
  pause ← draw (between 1 60);
  act (advance_by pause) ;;
  act (exec_simple CancelRedeem 0) ;;
  act (exec_simple CancelRedeem 0) ;;
  request_redeem 0 setup ;;
  act (exec RequestRedeem 2 0 0) ;;
  act (exec RequestRedeem 2 (saturating_sub setup.(su_min_redeem) 1) 0) ;;
  cutoff ;;
  act (exec_simple CancelRedeem 1) ;;
  act (exec RequestRedeem 2 setup.(su_min_redeem) 0) ;;
  finalize ;;
  act (exec ClaimRedeem 0 0 epoch) ;;
  act (exec ClaimRedeem 0 0 epoch) ;;
  act (exec ClaimRedeem 1 0 epoch) ;;
  act (exec ClaimRedeem 3 0 epoch) ;;
  act (exec RefundRedeem 1 0 epoch).

Definition mixed_settlement (setup : Setup) : Script unit :=
  bootstrap_shares setup ;;
  open_next ;;
  epoch ← read current_epoch_id;
  request_deposit 0 setup ;;
  request_deposit 1 setup ;;
  request_redeem 2 setup ;;
  request_redeem 3 setup ;;
  request_deposit 2 setup ;;
  request_redeem 0 setup ;;
  settle ;;
  claim_all epoch ;;
  open_next.

(** One cycle of [multi_epoch], with the epochs not yet claimed. *)
Definition multi_epoch_cycle (setup : Setup) (pending : list Z) (_ : nat) : Script (list Z) :=
  open_next ;;
  epoch ← read current_epoch_id;
  depositors ← draw (between 1 2);
  for_each (seqZ 0 depositors) (fun offset =>
    request_deposit (offset mod Z.of_nat USER_COUNT) setup) ;;
  redeemer ← any_user;
  request_redeem redeemer setup ;;
  settle ;;
  let pending := pending ++ [epoch] in
  match pending with
  | older :: (_ :: _) as rest => claim_all older ;; mret (drop 1 pending)
  | _ => mret pending
  end.

Definition multi_epoch (setup : Setup) (rounds : Z) : Script unit :=
  bootstrap_shares setup ;;
  let cycles := Z.to_nat (Z.min (Z.max rounds 3) 5) in
  pending ← for_fold (seq 0 cycles) (multi_epoch_cycle setup) [];
  for_each pending claim_all.

Definition pause_behavior (setup : Setup) : Script unit :=
  epoch ← read current_epoch_id;
  request_deposit 0 setup ;;
  request_deposit 1 setup ;;
  act (exec_simple Pause 0) ;;
  act (exec_simple Pause ADMIN_SLOT) ;;
  act (exec_simple Pause ADMIN_SLOT) ;;
  act (exec RequestDeposit 2 setup.(su_min_deposit) 0) ;;
  act (exec RequestRedeem 2 setup.(su_min_redeem) 0) ;;
  act (exec_simple CancelDeposit 1) ;;
  act (exec_simple CutoffEpoch 0) ;;
  act (exec_simple FinalizeEpoch 0) ;;
  act (exec_simple Unpause GUARDIAN_SLOT) ;;
  act (exec_simple Unpause 0) ;;
  act (exec_simple Unpause ADMIN_SLOT) ;;
  act (exec_simple Unpause ADMIN_SLOT) ;;
  request_deposit 1 setup ;;
  request_deposit 2 setup ;;
  settle ;;
  act (exec_simple Pause GUARDIAN_SLOT) ;;
  act (exec ClaimDeposit 0 0 epoch) ;;
  act (exec ClaimDeposit 1 0 epoch) ;;
  act (exec_simple OpenNextEpoch 0) ;;
  act (exec_simple Unpause ADMIN_SLOT) ;;
  open_next ;;
  act (exec ClaimDeposit 2 0 epoch).

Definition freeze_and_abort (setup : Setup) : Script unit :=
  bootstrap_shares setup ;;
  settled ← read current_epoch_id;
  open_next ;;
  epoch ← read current_epoch_id;
  request_deposit 0 setup ;;
  request_deposit 1 setup ;;
  request_redeem 2 setup ;;
  request_redeem 3 setup ;;
  late ← draw (chance 1 2);
  (if (late : bool) then cutoff else mret tt) ;;
  act (exec RefundDeposit 0 0 epoch) ;;
  act (exec_simple Freeze 0) ;;
  act (exec_simple Freeze GUARDIAN_SLOT) ;;
  act (exec_simple Freeze ADMIN_SLOT) ;;
  act (exec RequestDeposit 0 setup.(su_min_deposit) 0) ;;
  act (exec_simple CancelDeposit 0) ;;
  act (exec_simple CancelRedeem 2) ;;
  act (exec_simple CutoffEpoch 0) ;;
  act (exec_simple FinalizeEpoch 0) ;;
  act (exec_simple Unpause ADMIN_SLOT) ;;
  act (exec RefundDeposit 0 0 epoch) ;;
  act (exec_simple AbortEpoch 0) ;;
  act (exec_simple AbortEpoch GUARDIAN_SLOT) ;;
  act (exec_simple AbortEpoch GUARDIAN_SLOT) ;;
  act (exec RefundDeposit 0 0 epoch) ;;
  act (exec RefundDeposit 0 0 epoch) ;;
  act (exec RefundDeposit 1 0 epoch) ;;
  act (exec RefundRedeem 2 0 epoch) ;;
  act (exec RefundRedeem 2 0 epoch) ;;
  act (exec RefundRedeem 3 0 epoch) ;;
  act (exec RefundDeposit 2 0 epoch) ;;
  act (exec ClaimDeposit 0 0 epoch) ;;
  act (exec ClaimDeposit 0 0 settled) ;;
  act (exec ClaimRedeem 2 0 settled) ;;
  act (exec_simple OpenNextEpoch 0).

Definition rejection_trace (setup : Setup) : Script unit :=
  epoch ← read current_epoch_id;
  act (exec RequestDeposit 0 0 0) ;;
  act (exec RequestDeposit 0 (saturating_sub setup.(su_min_deposit) 1) 0) ;;
  act (exec RequestDeposit 0 u64_max 0) ;;
  act (exec RequestRedeem 0 setup.(su_min_redeem) 0) ;;
  act (exec_simple CancelDeposit 0) ;;
  act (exec_simple CancelRedeem 0) ;;
  act (exec_simple CutoffEpoch 0) ;;
  act (exec_simple FinalizeEpoch 0) ;;
  act (exec ClaimDeposit 0 0 epoch) ;;
  act (exec ClaimRedeem 0 0 epoch) ;;
  act (exec RefundDeposit 0 0 epoch) ;;
  act (exec RefundRedeem 0 0 epoch) ;;
  act (exec_simple Unpause ADMIN_SLOT) ;;
  act (exec_simple AbortEpoch GUARDIAN_SLOT) ;;
  act (exec_simple OpenNextEpoch 0) ;;
  request_deposit 0 setup ;;
  request_deposit 1 setup ;;
  act (exec_simple CancelDeposit 2) ;;
  settle ;;
  act (exec_simple FinalizeEpoch 0) ;;
  act (exec_simple CutoffEpoch 0) ;;
  act (exec ClaimDeposit 0 0 epoch) ;;
  act (exec ClaimDeposit 0 0 epoch) ;;
  act (exec RefundDeposit 0 0 epoch) ;;
  act (exec ClaimDeposit 2 0 epoch) ;;
  act (exec ClaimRedeem 1 0 epoch) ;;
  act (exec ClaimDeposit 0 0 (saturating_add u64_max epoch 5)) ;;
  open_next ;;
  act (exec_simple OpenNextEpoch 0) ;;
  act (exec_simple CutoffEpoch 0).

Definition read_idle : Script Z := read (fun b => b.(b_state).(buckets).(idle_backing)).

Definition transport_shortfall (remote : Z) : Script unit :=
  idle ← read_idle;
  let sent := idle / 5 in
  if sent <? 4 then mret tt
  else
    let credited := sent / 4 * 3 in
    let shortfall := sent - credited in
    let recovered := shortfall / 2 in
    act (exec_aux BeginAllocate ADMIN_SLOT sent 0 5 0) ;;
    act (exec_aux RequestClose 0 0 0 5 0) ;;
    act (exec_aux RequestClose ADMIN_SLOT 0 0 6 0) ;;
    act (exec_aux SettleClose 0 credited 0 5 0) ;;
    act (exec_aux RequestClose ADMIN_SLOT 0 0 5 0) ;;
    act (exec_aux RequestClose ADMIN_SLOT 0 0 5 0) ;;
    act (exec_aux CompleteAllocation 0 sent 0 5 0) ;;
    act (exec_aux ApplyRemoteValuation 0 (remote / 2) 0 0 0) ;;
    act (exec_aux BeginRecover ADMIN_SLOT 0 0 7 0) ;;
    act (exec_aux SettleRecover 0 0 0 5 0) ;;
    act (exec_aux SettleClose 0 (sent + 1) 0 5 0) ;;
    cutoff ;;
    act (exec_aux LockRemoteValuation 0 0 0 0 0) ;;
    finalize ;;
    act (exec_aux SettleClose 0 credited 0 5 0) ;;
    act (exec_aux SettleClose 0 credited 0 5 0) ;;
    act (exec_aux LockRemoteValuation 0 0 0 0 0) ;;
    finalize ;;
    open_next ;;
    act (exec_aux BeginRecover 0 0 0 7 0) ;;
    act (exec_aux BeginRecover ADMIN_SLOT 0 0 5 0) ;;
    act (exec_aux BeginRecover ADMIN_SLOT 0 0 7 0) ;;
    act (exec_aux BeginAllocate ADMIN_SLOT sent 0 8 0) ;;
    act (exec_aux SettleRecover 0 (shortfall + 1) 0 7 0) ;;
    act (exec_aux SettleRecover 0 recovered 0 7 0) ;;
    act (exec_aux BeginRecover ADMIN_SLOT 0 0 9 0) ;;
    act (exec_aux SettleRecover 0 0 0 9 0) ;;
    act (exec_aux ApplyRemoteValuation 0
      (saturating_add u128_max (saturating_add u128_max remote credited) recovered) 0 0 0).

Definition xchain_accounting (setup : Setup) : Script unit :=
  bootstrap_shares setup ;;
  open_next ;;
  idle ← read_idle;
  let amount := if 4 <=? idle then idle / 4 else idle in
  if amount =? 0 then rejection_trace setup
  else
    act (exec_aux BeginAllocate ADMIN_SLOT amount 0 1 0) ;;
    act (exec_aux BeginAllocate ADMIN_SLOT amount 0 2 0) ;;
    act (exec_aux CompleteAllocation 0 (saturating_mul amount 2) 0 1 0) ;;
    cutoff ;;
    act (exec_aux LockRemoteValuation 0 0 0 0 0) ;;
    finalize ;;
    open_next ;;
    let recalled := amount / 2 in
    let loss := recalled / 4 in
    let remaining := saturating_sub amount recalled in
    act (exec_aux BeginRecall ADMIN_SLOT recalled 0 4 0) ;;
    act (exec_aux ApplyRemoteValuation 0 remaining 0 0 loss) ;;
    cutoff ;;
    act (exec_aux LockRemoteValuation 0 0 0 0 0) ;;
    finalize ;;
    open_next ;;
    let returned := saturating_sub recalled loss in
    act (exec_aux AcceptRecallSent 0 recalled 0 4 returned) ;;
    act (exec_aux ObserveInbound 0 returned 0 0 0) ;;
    act (exec_aux ApplyRemoteValuation 0 remaining 0 0 0) ;;
    transport_shortfall remaining ;;
    act (exec_aux BeginRecall ADMIN_SLOT remaining 0 2 0) ;;
    act (exec_simple Freeze ADMIN_SLOT) ;;
    act (exec_aux AcceptRecallSent 0 remaining 0 2 remaining) ;;
    act (exec_aux ObserveInbound 0 remaining 0 0 0) ;;
    act (exec_aux BeginAllocate ADMIN_SLOT amount 0 3 0).

(** The script of a family. *)
Definition family_script (setup : Setup) (rounds : Z) : Script unit :=
  let family := setup.(su_family) in
  if family =? FAMILY_DEPOSIT then deposit_lifecycle setup
  else if family =? FAMILY_REDEMPTION then redemption_lifecycle setup
  else if family =? FAMILY_MIXED then mixed_settlement setup
  else if family =? FAMILY_MULTI_EPOCH then multi_epoch setup rounds
  else if family =? FAMILY_PAUSE then pause_behavior setup
  else if family =? FAMILY_FREEZE then freeze_and_abort setup
  else if family =? FAMILY_XCHAIN then xchain_accounting setup
  else rejection_trace setup.

Definition generate (setup : Setup) (r : Rng) (rounds : Z) : result BuildError Scenario :=
  let? builder := builder_new setup in
  let '(_, builder, _) := family_script setup rounds builder r in
  finish builder.

(** * Runs *)

Record RunConfig := mkRunConfig {
  rc_seed : Z;
  rc_cases : Z;
  rc_steps : Z;
  rc_only : option Z
}.

Definition run_default : RunConfig := mkRunConfig 1 64 4 None.

Definition derive_seed (seed index : Z) : Z :=
  (next_u64 (rng_new (Z.lxor seed (wrap 64 (index * 0x9E3779B97F4A7C15))))).1.

(** One scenario of a run. *)
Definition scenario_at (config : RunConfig) (index : Z) : result BuildError Scenario :=
  let seed := derive_seed config.(rc_seed) index in
  let '(setup, r) := setup_for index seed (rng_new seed) in
  generate setup r config.(rc_steps).

(** The loop body of [build_run]. *)
Definition build_step (config : RunConfig) (scenarios : list Scenario) (index : Z) :
    result BuildError (list Scenario) :=
  let skip := match config.(rc_only) with
              | Some wanted => negb (wanted =? index)
              | None => false
              end in
  if skip then Ok scenarios
  else let? scenario := scenario_at config index in Ok (scenarios ++ [scenario]).

Definition build_run (config : RunConfig) : result BuildError (list Scenario) :=
  try_fold (build_step config) [] (seqZ 0 config.(rc_cases)).

End Gen.
