(* ===== verification/DiffFacts.v ===== *)
(** Facts of the differential recorder: the ranges of the random stream, the
    reference replay of a trace, and the invariant [Recorded] that every step
    of the builder keeps. *)

From Stdlib Require Import ZArith Lia.
From S2P Require Import Prelude AccountingMath AccountingState AccountingTransition.
From S2P Require Import AccountingBook AccountingSafety AccountingFigures.
From S2P Require Import AccountingPreserve AccountingChecks AccountingLifecycle.
From S2P Require Import DiffRecorder DiffGenerator.
Import Diff.

(** * The stream *)

Lemma wrap_range w v : 0 <= w -> 0 <= Gen.wrap w v < 2 ^ w.
Proof. intros Hw. apply Z.mod_pos_bound. by apply Z.pow_pos_nonneg. Qed.

Lemma wrap_small w v : 0 <= v < 2 ^ w -> Gen.wrap w v = v.
Proof. apply Z.mod_small. Qed.

Lemma lxor_range w a b : 0 <= w -> 0 <= a < 2 ^ w -> 0 <= b < 2 ^ w -> 0 <= Z.lxor a b < 2 ^ w.
Proof.
  intros Hw Ha Hb. split; [apply Z.lxor_nonneg; lia|].
  destruct (Z.eq_dec (Z.lxor a b) 0) as [->|Hne]; [apply Z.pow_pos_nonneg; lia|].
  assert (0 < Z.lxor a b) by (pose proof (proj2 (Z.lxor_nonneg a b)); lia).
  assert (Hlt : forall x, 0 <= x < 2 ^ w -> 0 < x -> Z.log2 x < w)
    by (intros x Hx Hx'; apply Z.log2_lt_pow2; lia).
  apply Z.log2_lt_pow2; [done|].
  pose proof (Z.log2_lxor a b ltac:(lia) ltac:(lia)) as Hl.
  destruct (Z.eq_dec a 0) as [->|]; destruct (Z.eq_dec b 0) as [->|].
  - by rewrite Z.lxor_nilpotent in Hne.
  - rewrite Z.lxor_0_l. apply Hlt; lia.
  - rewrite Z.lxor_0_r. apply Hlt; lia.
  - pose proof (Hlt a Ha ltac:(lia)). pose proof (Hlt b Hb ltac:(lia)). lia.
Qed.

Lemma next_u64_range r : is_u64 (Gen.next_u64 r).1.
Proof.
  unfold Gen.next_u64. cbn [fst]. set (z := Gen.wrap 64 (_ * Gen.MIX_B)).
  assert (Hz : 0 <= z < 2 ^ 64) by (apply wrap_range; lia).
  assert (Hs : 0 <= Z.shiftr z 31 < 2 ^ 64).
  { rewrite Z.shiftr_div_pow2 by lia. split; [apply Z.div_pos; lia|].
    apply Z.le_lt_trans with z; [apply Z.div_le_upper_bound; lia|lia]. }
  pose proof (lxor_range 64 z (Z.shiftr z 31) ltac:(lia) Hz Hs). unfold fits, u64_max. lia.
Qed.

Lemma below_range bound r : 0 < bound -> 0 <= (Gen.below bound r).1 < bound.
Proof.
  intros Hb. unfold Gen.below. rewrite (proj2 (Z.eqb_neq _ _)) by lia.
  destruct (Gen.next_u64 r). by apply Z.mod_pos_bound.
Qed.

Lemma between_range low high r :
  0 <= low <= high -> is_u64 high -> low <= (Gen.between low high r).1 <= high.
Proof.
  unfold fits, u64_max. intros Hl [_ Hh]. unfold Gen.between. rewrite (proj2 (Z.leb_le _ _)) by lia.
  rewrite (wrap_small 64 (high - low)) by lia.
  assert (Hd : 0 <= (Gen.below (Gen.wrap 64 (high - low + 1)) r).1 <= high - low).
  { destruct (Z.eq_dec (high - low + 1) (2 ^ 64)) as [E|Hne].
    - rewrite E. change (Gen.wrap 64 (2 ^ 64)) with 0. cbn [Gen.below fst]. cbn. lia.
    - rewrite wrap_small by lia. pose proof (below_range (high - low + 1) r ltac:(lia)). lia. }
  destruct (Gen.below _ r) as [v r']. cbn [fst] in *. rewrite wrap_small; lia.
Qed.

Lemma between_u128_range low high r :
  0 <= low <= high -> is_u128 high -> low <= (Gen.between_u128 low high r).1 <= high.
Proof.
  unfold fits, u128_max. intros Hl [_ Hh]. unfold Gen.between_u128.
  rewrite (proj2 (Z.leb_le _ _)) by lia. rewrite (wrap_small 128 (high - low)) by lia.
  destruct (Z.eq_dec (high - low + 1) (2 ^ 128)) as [E|Hne].
  { rewrite E. change (Gen.wrap 128 (2 ^ 128)) with 0. cbn [Z.eqb fst]. lia. }
  rewrite (wrap_small 128) by lia. rewrite (proj2 (Z.eqb_neq _ _)) by lia.
  destruct (Gen.next_u64 r) as [hi r1]. destruct (Gen.next_u64 r1) as [lo r2]. cbn [fst].
  set (v := Z.lor _ _ mod _). assert (0 <= v < high - low + 1) by (apply Z.mod_pos_bound; lia).
  rewrite wrap_small; lia.
Qed.

(** * Setups *)

Record setup_ok (setup : Setup) : Prop := {
  so_start : 0 <= setup.(su_start_timestamp) <= 2 ^ 32;
  so_duration : 0 < setup.(su_epoch_duration) <= 2 ^ 32;
  so_min_deposit : 0 < setup.(su_min_deposit) <= u128_max;
  so_min_redeem : 0 < setup.(su_min_redeem) <= u128_max;
  so_count : length setup.(su_initial_assets) = USER_COUNT;
  so_assets : Forall (fun a => 0 <= a <= 900000000) setup.(su_initial_assets)
}.

Lemma draw_assets_ok n r : length (Gen.draw_assets n r).1 = n /\
  Forall (fun a => 0 <= a <= 900000000) (Gen.draw_assets n r).1.
Proof.
  revert r. induction n as [|n IH]; intros r; [done|]. cbn [Gen.draw_assets].
  pose proof (between_u128_range 60000000 900000000 r ltac:(lia) ltac:(by split)) as Hv.
  destruct (Gen.between_u128 60000000 900000000 r) as [v r']. cbn [fst] in Hv.
  destruct (IH r') as [Hl Hf]. destruct (Gen.draw_assets n r') as [vs r'']. cbn [fst length] in *.
  split; [by f_equal|]. constructor; [lia|done].
Qed.

Lemma setup_for_ok index seed r : setup_ok (Gen.setup_for index seed r).1.
Proof.
  unfold Gen.setup_for. destruct (Gen.chance 1 4 r) as [c1 r1]. destruct (Gen.chance 1 4 r1) as [c2 r2].
  pose proof (between_range 600 7200 r2 ltac:(lia) ltac:(by split)) as Hd.
  destruct (Gen.between 600 7200 r2) as [d r3]. cbn [fst] in Hd.
  pose proof (between_range 0 100000 r3 ltac:(lia) ltac:(by split)) as Ho.
  destruct (Gen.between 0 100000 r3) as [o r4]. cbn [fst] in Ho.
  destruct (draw_assets_ok USER_COUNT r4) as [Hl Hf].
  destruct (Gen.draw_assets USER_COUNT r4) as [l r5]. cbn [fst] in *.
  constructor; cbn; try done; unfold u128_max, Gen.BASE_TIMESTAMP; destruct c1, c2; lia.
Qed.

Lemma genesis_of_typed setup : setup_ok setup -> genesis_typed (genesis_of setup).
Proof.
  intros H. split; [by split|]. destruct (su_initial_assets setup) as [|a [|b [|c [|d []]]]] eqn:E;
    pose proof (so_count _ H) as Hc; rewrite E in Hc; try discriminate Hc.
  pose proof (so_assets _ H) as Hf. rewrite E in Hf. unfold fits, u64_max, u128_max.
  unfold genesis_of. cbn. rewrite E. cbn.
  repeat (apply Forall_cons in Hf as [? Hf]). repeat (constructor; [split; cbn [fst snd]; [by vm_compute|lia]|]). constructor.
Qed.

Lemma genesis_step_ok accts supply id x :
  accts !! id = None -> supply + x <= u128_max ->
  genesis_step (accts, supply) (id, x) = Ok (<[id := mkAccount x 0]> accts, supply + x).
Proof.
  intros Hn Hx. unfold genesis_step. rewrite Hn, bool_decide_false by (by intros []).
  by rewrite amount_add_ok.
Qed.

(** The genesis of a scenario is accepted, and all of it is issued. *)
Lemma genesis_of_Ok setup : setup_ok setup -> exists s0,
  state_new (genesis_of setup) = Ok s0 /\ s0.(epochs) = ∅
  /\ issued s0 + s0.(buckets).(unattributed_inbound) <= 3600000000.
Proof.
  intros H. destruct (su_initial_assets setup) as [|a [|b [|c [|d []]]]] eqn:E;
    pose proof (so_count _ H) as Hc; rewrite E in Hc; try discriminate Hc.
  pose proof (so_assets _ H) as Hf. rewrite E in Hf.
  repeat (apply Forall_cons in Hf as [? Hf]). destruct H.
  assert (Hv : config_validate (genesis_of setup).(gen_config) = Ok tt).
  { unfold config_validate, is_zero. cbn [gen_config genesis_of cfg_share_decimals
      cfg_asset_decimals cfg_epoch_duration cfg_min_deposit_assets cfg_min_redeem_shares].
    by rewrite !(proj2 (Z.eqb_neq _ _)) by lia. }
  assert (Ha : (genesis_of setup).(gen_accounts) = [(1, a); (2, b); (3, c); (4, d)])
    by (unfold genesis_of; cbn; by rewrite E).
  unfold state_new. rewrite Hv, Ha. change (virtual_shares_for _ _) with (Ok (E := Rejection) (10 ^ 12)).
  cbn [try_fold]. cbv beta iota. change (gen_unattributed_balance _) with 0.
  repeat (rewrite genesis_step_ok;
    [|by rewrite ?lookup_insert_ne, lookup_empty by done|unfold u128_max; lia]).
  cbn [gen_opened_at gen_config genesis_of cfg_epoch_duration].
  unfold checked_add_seconds, checked_add. rewrite (proj2 (Z.leb_le _ _)) by (unfold u64_max; lia).
  cbn [ok_or]. eexists. split; [reflexivity|]. split; [done|]. unfold issued. cbn. lia.
Qed.

(** * What operations issue *)

(** The assets an operation may bring in from outside. *)
Definition inflow_of (op : Operation) : Z :=
  match op with AccountingState.ObserveInbound x => x | _ => 0 end.

Definition received (s : State) : Z := issued s + s.(buckets).(unattributed_inbound).

Lemma apply_received s op s' : Inv s -> op_typed op -> apply s op = Ok s' ->
  received s' <= received s + inflow_of op.
Proof.
  intros HI Hty Happ. pose proof (inv_type _ HI) as []. unfold received, issued.
  destruct op; cbn [apply inflow_of op_typed] in *;
    unfold AccountingTransition.request_deposit, cancel_deposit, AccountingTransition.request_redeem,
      cancel_redeem, cutoff_epoch, finalize_epoch, abort_epoch, claim_deposit, claim_redeem,
      claim_aborted_deposit, claim_aborted_redeem, open_next_epoch, pause, unpause, freeze,
      begin_allocate, complete_allocation, begin_recall, accept_recall_sent, observe_inbound,
      apply_remote_valuation, lock_remote_valuation, request_close, settle_close,
      begin_recover, settle_recover, credit_remote, epoch_mut in Happ;
    cbv zeta in Happ;
    repeat (first [progress invert_amounts | progress cbv beta iota in * |
      match goal with H : (if ?b then _ else _) = Ok _ |- _ => destruct b eqn:?
                    | H : (let (_, _) := ?p in _) = Ok _ |- _ => destruct p end]);
    cbn in *; unfold fits in *; try lia; repeat case_match; bool_to_prop; lia.
Qed.

(** * Replaying a trace *)

(** What the model does with one action: its state, the code and the value
    the vault must return. *)
Definition replay_action (s : State) (a : Action) : State * ResultCode * Z :=
  match apply s (to_operation a) with
  | Ok s' => (s', Success, return_value s a)
  | Err reason => (s, code_for a.(kind) reason, 0)
  end.

(** A trace replayed from a state: the recording and the state it ends in. *)
Definition replay_step (acc : list RecordedAction * list Snapshot * State) (a : Action) :
    list RecordedAction * list Snapshot * State :=
  let '(actions, shots, s) := acc in
  let '(s', res, ret) := replay_action s a in
  (actions ++ [mkRecordedAction a res ret], shots ++ [capture s'], s').

Definition replay (s0 : State) (trace : list Action) :
    list RecordedAction * list Snapshot * State :=
  foldl replay_step ([], [], s0) trace.

Definition replay_state (s0 : State) (trace : list Action) : State := (replay s0 trace).2.

Lemma replay_trace_snoc s0 trace a :
  replay s0 (trace ++ [a]) = replay_step (replay s0 trace) a.
Proof. unfold replay. by rewrite foldl_app. Qed.

Lemma replay_state_snoc s0 trace a :
  replay_state s0 (trace ++ [a]) = (replay_action (replay_state s0 trace) a).1.1.
Proof.
  unfold replay_state. rewrite replay_trace_snoc. destruct (replay s0 trace) as [[acts shots] s].
  cbn. by destruct (replay_action s a) as [[s' res] ret].
Qed.

(** A typed action: every field at its width, an actor with a slot. *)
Record action_typed (a : Action) : Prop := {
  at_actor : 0 <= a.(actor) < 6;
  at_amount : is_u128 a.(amount);
  at_timestamp : is_u64 a.(timestamp);
  at_aux0 : is_u128 a.(aux0);
  at_aux1 : is_u128 a.(aux1)
}.

Lemma account_for_range slot : 0 <= slot < 6 -> is_u64 (account_for slot).
Proof.
  intros H. unfold account_for, fits, u64_max. repeat case_match; unfold ADMIN_ACCOUNT,
    GUARDIAN_ACCOUNT, USER_BASE_ACCOUNT; lia.
Qed.

Lemma to_operation_typed a : action_typed a -> op_typed (to_operation a).
Proof.
  intros []. pose proof (account_for_range a.(actor) ltac:(done)).
  unfold to_operation. destruct (kind a); cbn; try done.
  split_and!; try done. unfold saturating_sub, fits in *. lia.
Qed.

Lemma replay_action_reachable s0 s a :
  reachable s0 s -> action_typed a -> reachable s0 (replay_action s a).1.1.
Proof.
  intros Hr Ha. unfold replay_action. destruct (apply s (to_operation a)) eqn:E; [|done].
  eapply reach_step; [done|by apply to_operation_typed|done].
Qed.

Lemma replay_reachable s0 trace : Forall action_typed trace -> reachable s0 (replay_state s0 trace).
Proof.
  induction trace as [|a trace IH] using rev_ind; intros Hty; [apply reach_start|].
  apply Forall_app in Hty as [Hty [Ha _]%Forall_cons]. rewrite replay_state_snoc.
  apply replay_action_reachable; auto.
Qed.

Lemma replay_received s0 trace a : Inv s0 -> Forall action_typed trace -> action_typed a ->
  received (replay_state s0 (trace ++ [a]))
    <= received (replay_state s0 trace) + inflow_of (to_operation a).
Proof.
  intros HI Hty Ha. rewrite replay_state_snoc. unfold replay_action.
  assert (Hi : 0 <= inflow_of (to_operation a)).
  { destruct Ha as [_ [? _] _ _ _]. unfold to_operation. by destruct (kind a); cbn. }
  destruct (apply _ _) eqn:E; cbn [fst]; [|lia].
  apply apply_received; [|by apply to_operation_typed|done].
  eapply reachable_inv; [done|by apply replay_reachable].
Qed.

(** The step at which an epoch left the slot: before it the epoch is not
    settled, after it it is. *)
Definition settled_at (s0 : State) (trace : list Action) (id : Z) (k : nat) : Prop :=
  (k < length trace)%nat
  /\ (replay_state s0 (take k trace)).(epochs) !! id = None
  /\ is_Some ((replay_state s0 (take (S k) trace)).(epochs) !! id).

Lemma settled_at_app s0 trace a id k :
  settled_at s0 trace id k -> settled_at s0 (trace ++ [a]) id k.
Proof.
  intros (Hk & Hn & Hs). unfold settled_at. rewrite length_app, !take_app_le by lia.
  split; [cbn; lia|done].
Qed.

(** * What the builder keeps *)

Abbreviation trace_of sc := (ra_action <$> sc.(sc_actions)).

(** A builder that has recorded faithfully: its scenario is the replay of its
    own trace from its genesis, time never went back, what was received is always
    within [budget], and each settled epoch has the step it settled at. *)
Record Recorded (setup : Setup) (s0 : State) (budget : Z) (b : Builder) : Prop := {
  rec_setup : b.(b_scenario).(sc_setup) = setup;
  rec_initial : b.(b_scenario).(sc_initial_snapshot) = capture s0;
  rec_replay : replay s0 (trace_of b.(b_scenario))
    = (b.(b_scenario).(sc_actions), b.(b_scenario).(sc_snapshots), b.(b_state));
  rec_typed : Forall action_typed (trace_of b.(b_scenario));
  rec_now : setup.(su_start_timestamp) <= b.(b_now) <= u64_max;
  rec_sorted : Sorted Z.le (timestamp <$> trace_of b.(b_scenario));
  rec_times : Forall (fun a => setup.(su_start_timestamp) <= a.(timestamp) <= b.(b_now))
    (trace_of b.(b_scenario));
  rec_budget : forall k, received (replay_state s0 (take k (trace_of b.(b_scenario)))) <= budget;
  rec_epochs : forall id, is_Some (b.(b_settled_steps) !! id) <-> is_Some (b.(b_state).(epochs) !! id);
  rec_steps : forall id step, b.(b_settled_steps) !! id = Some step ->
    exists k, settled_at s0 (trace_of b.(b_scenario)) id k /\ step = Z.min u32_max (Z.of_nat k)
}.

(** [note_settlements] adds the epochs it has not seen. *)
Lemma note_fold_lookup step (l : list Z) (m : gmap Z Z) id :
  foldl (fun m id => match m !! id with Some _ => m | None => <[id := step]> m end) m l !! id
    = match m !! id with Some v => Some v | None => if decide (id ∈ l) then Some step else None end.
Proof.
  revert m. induction l as [|x l IH]; intros m; cbn [foldl].
  { destruct (m !! id); [done|]. by rewrite decide_False by apply not_elem_of_nil. }
  rewrite IH. destruct (m !! x) as [v|] eqn:Ex.
  - destruct (m !! id) as [w|] eqn:Ei; [done|].
    assert (id <> x) by congruence. repeat case_decide; set_solver.
  - destruct (decide (x = id)) as [->|Hne].
    + rewrite lookup_insert_eq, Ex. rewrite decide_True by set_solver. done.
    + rewrite lookup_insert_ne by done. destruct (m !! id); [done|].
      repeat case_decide; set_solver.
Qed.

Lemma note_settlements_lookup b id :
  (note_settlements b).(b_settled_steps) !! id =
    match b.(b_settled_steps) !! id with
    | Some v => Some v
    | None => if decide (is_Some (b.(b_state).(epochs) !! id))
              then Some (Z.min u32_max (Z.of_nat (length b.(b_scenario).(sc_actions) - 1)))
              else None
    end.
Proof.
  unfold note_settlements. cbn. rewrite note_fold_lookup. destruct (b_settled_steps b !! id); [done|].
  apply decide_ext. rewrite list_elem_of_fmap. split.
  - intros ([k o] & -> & Hin). apply elem_of_btree_iter in Hin. by exists o.
  - intros [o Ho]. exists (id, o). split; [done|]. by apply elem_of_btree_iter.
Qed.
