(* ===== verification/DiffScripts.v ===== *)
(** Every script of the generator keeps the recording faithful: a small
    program logic over [Gen.Script] whose judgement [keeps] carries the
    invariant [Recorded] and a budget for the assets observed, one rule per
    primitive and one lemma per script. *)

From Stdlib Require Import ZArith Lia.
From S2P Require Import Prelude AccountingMath AccountingState AccountingTransition.
From S2P Require Import AccountingBook AccountingSafety AccountingFigures.
From S2P Require Import AccountingPreserve AccountingChecks AccountingClaims AccountingLifecycle.
From S2P Require Import DiffRecorder DiffGenerator DiffFacts.
Import Diff.

(** The scripts already verified. *)
Create HintDb script discriminated.

(** * Steps of the builder *)

(** What a recorded action adds to the budget. *)
Definition cost (k : ActionKind) (amount : Z) : Z :=
  match k with ObserveInbound => amount | _ => 0 end.

Lemma exec_aux_eq k ac am ep x0 x1 b :
  exec_aux k ac am ep x0 x1 b =
    let a := mkAction k ac am ep b.(b_now) x0 x1 in
    let '(s', res, ret) := replay_action b.(b_state) a in
    let sc := b.(b_scenario) in
    note_settlements (mkBuilder s'
      (mkScenario sc.(sc_setup) sc.(sc_initial_snapshot)
         (sc.(sc_actions) ++ [mkRecordedAction a res ret]) (sc.(sc_snapshots) ++ [capture s'])
         sc.(sc_epochs))
      b.(b_settled_steps) b.(b_now)).
Proof.
  unfold exec_aux, replay_action. destruct b as [s sc settled now]. destruct sc. cbn [b_state b_now].
  by destruct (apply s _).
Qed.

Lemma Sorted_snoc_le l x : Sorted Z.le l -> Forall (fun y => y <= x) l -> Sorted Z.le (l ++ [x]).
Proof.
  intros Hs Hf. apply Sorted_snoc; [done|]. destruct l as [|y l _] using rev_ind; [constructor|].
  constructor. by apply Forall_app in Hf as [_ [? _]%Forall_cons].
Qed.

Lemma Sorted_start x (l : list Action) : Sorted Z.le (timestamp <$> l) ->
  Forall (fun a => x <= a.(timestamp)) l -> Sorted Z.le (x :: (timestamp <$> l)).
Proof. intros Hs Hf. constructor; [done|]. by destruct Hf; constructor. Qed.

Lemma note_scenario b : (note_settlements b).(b_scenario) = b.(b_scenario).
Proof. done. Qed.

Lemma note_state b : (note_settlements b).(b_state) = b.(b_state).
Proof. done. Qed.

Lemma note_now b : (note_settlements b).(b_now) = b.(b_now).
Proof. done. Qed.

Section recorded.
Context (setup : Setup) (s0 : State) (Hsetup : setup_ok setup) (HI : Inv s0).

Lemma recorded_inv budget b : Recorded setup s0 budget b -> Inv b.(b_state).
Proof.
  intros []. eapply reachable_inv; [done|].
  pose proof (replay_reachable s0 _ rec_typed) as Hr. unfold replay_state in Hr.
  by rewrite rec_replay in Hr.
Qed.

Lemma recorded_state budget b :
  Recorded setup s0 budget b -> replay_state s0 (trace_of b.(b_scenario)) = b.(b_state).
Proof. intros []. unfold replay_state. by rewrite rec_replay. Qed.

(** The settled steps after one more action. *)
Lemma note_steps s s' (settled : gmap Z Z) trace a :
  replay_state s0 trace = s -> replay_state s0 (trace ++ [a]) = s' ->
  (forall id, is_Some (s.(epochs) !! id) -> is_Some (s'.(epochs) !! id)) ->
  (forall id, is_Some (settled !! id) <-> is_Some (s.(epochs) !! id)) ->
  (forall id step, settled !! id = Some step ->
    exists k, settled_at s0 trace id k /\ step = Z.min u32_max (Z.of_nat k)) ->
  let settled' id := match settled !! id with
    | Some v => Some v
    | None => if decide (is_Some (s'.(epochs) !! id))
              then Some (Z.min u32_max (Z.of_nat (length trace))) else None
    end in
  (forall id, is_Some (settled' id) <-> is_Some (s'.(epochs) !! id))
  /\ (forall id step, settled' id = Some step ->
       exists k, settled_at s0 (trace ++ [a]) id k /\ step = Z.min u32_max (Z.of_nat k)).
Proof.
  intros Hs Hs' Hmono Hdom Hsteps. cbn zeta. split; intros id.
  - destruct (settled !! id) as [v|] eqn:Ev.
    + split; [|done]. intros _. apply Hmono, Hdom. by rewrite Ev.
    + case_decide; split; intros H'; try done; by destruct H'.
  - intros step. destruct (settled !! id) as [v|] eqn:Ev.
    + intros [= <-]. destruct (Hsteps id v Ev) as (k & Hk & ->). exists k.
      split; [by apply settled_at_app|done].
    + case_decide as Hd; [|done]. intros [= <-]. exists (length trace). split; [|done].
      unfold settled_at. rewrite length_app, take_app_length. cbn [length].
      rewrite take_ge by (rewrite length_app; cbn; lia). rewrite Hs, Hs'.
      split; [lia|]. split; [|done]. destruct (epochs s !! id) eqn:Eo; [|done].
      destruct (proj2 (Hdom id) ltac:(eauto)). congruence.
Qed.

Lemma exec_recorded budget b k ac am ep x0 x1 :
  Recorded setup s0 budget b -> 0 <= ac < 6 -> is_u128 am -> is_u128 x0 -> is_u128 x1 ->
  Recorded setup s0 (budget + cost k am) (exec_aux k ac am ep x0 x1 b).
Proof.
  intros Hrec Hac Ham Hx0 Hx1. pose proof (recorded_state _ _ Hrec) as Hst.
  pose proof (recorded_inv _ _ Hrec) as HIb. rewrite exec_aux_eq. cbv zeta.
  set (a := mkAction k ac am ep (b_now b) x0 x1). pose proof Hrec as [].
  assert (Ha : action_typed a).
  { destruct Hsetup. constructor; cbn; try done. unfold fits. lia. }
  pose proof (replay_received s0 _ a HI rec_typed Ha) as Hrcv.
  pose proof (replay_trace_snoc s0 (trace_of (b_scenario b)) a) as Hsnoc. rewrite rec_replay in Hsnoc.
  pose proof (replay_action_reachable (b_state b) (b_state b) a (reach_start _) Ha) as Hreach.
  pose proof (replay_state_snoc s0 (trace_of (b_scenario b)) a) as Hst'.
  rewrite Hst' in Hrcv. rewrite !Hst in Hrcv. rewrite Hst in Hst'.
  cbn [replay_step] in Hsnoc. destruct (replay_action (b_state b) a) as [[s' res] ret] eqn:Er.
  cbn [fst] in Hrcv, Hreach, Hst'.
  destruct (note_steps (b_state b) s' (b_settled_steps b) (trace_of (b_scenario b)) a Hst Hst')
    as [Hdom Hsteps]; [|done|done|].
  { intros id [o Ho]. exists o. by eapply reachable_epochs. }
  set (sc := mkScenario _ _ _ _ _).
  assert (Htr : trace_of sc = trace_of (b_scenario b) ++ [a]) by (cbn; by rewrite fmap_app).
  assert (Hlen : (length (sc_actions sc) - 1)%nat = length (trace_of (b_scenario b)))
    by (cbn; rewrite length_app, length_fmap; cbn; lia).
  constructor; rewrite ?note_scenario, ?note_state, ?note_now; cbn [b_scenario b_state b_now b_settled_steps]; rewrite ?Htr;
    try done.
  - apply Forall_app. by split; [|apply Forall_singleton].
  - rewrite fmap_app. apply Sorted_snoc_le; [done|]. apply Forall_fmap.
    eapply Forall_impl; [exact rec_times|]. cbn. lia.
  - apply Forall_app. split; [done|]. apply Forall_singleton. cbn. lia.
  - intros j. assert (Hcost : inflow_of (to_operation a) = cost k am /\ 0 <= cost k am)
      by (unfold cost, to_operation, a, fits in *; cbn; destruct k; cbn; lia).
    destruct (decide (j <= length (trace_of (b_scenario b)))%nat).
    + rewrite take_app_le by done. pose proof (rec_budget j). lia.
    + rewrite take_ge by (rewrite length_app; cbn; lia). rewrite Hst'.
      pose proof (rec_budget (length (trace_of (b_scenario b)))) as Hnow.
      rewrite take_ge, Hst in Hnow by done. lia.
  - intros id. rewrite note_settlements_lookup. cbn [b_settled_steps b_state b_scenario].
    rewrite Hlen. apply Hdom.
  - intros id step. rewrite note_settlements_lookup. cbn [b_settled_steps b_state b_scenario].
    rewrite Hlen. apply Hsteps.
Qed.

Lemma advance_recorded budget b now :
  Recorded setup s0 budget b -> b.(b_now) <= now <= u64_max ->
  Recorded setup s0 budget (b <| b_now := now |>).
Proof.
  intros [] Hn. constructor; cbn; try done; [lia|].
  eapply Forall_impl; [exact rec_times|]. cbn. lia.
Qed.

(** * The logic *)

(** From a faithful recording within [budget] the script ends in one within
    [budget'], with a value that satisfies [Q]. *)
Definition keeps {A} (budget : Z) (m : Gen.Script A) (budget' : Z) (Q : A -> Prop) : Prop :=
  forall b r, Recorded setup s0 budget b ->
    let '(a, b', _) := m b r in Recorded setup s0 budget' b' /\ Q a.

Abbreviation runs budget m := (keeps budget m budget (fun _ : unit => True)).

Lemma keeps_ret {A} budget (a : A) (Q : A -> Prop) : Q a -> keeps budget (mret a) budget Q.
Proof. intros HQ b r Hb. by split. Qed.

Lemma keeps_bind {A C} budget mid budget' (m : Gen.Script A) (f : A -> Gen.Script C) P (Q : C -> Prop) :
  keeps budget m mid P -> (forall a, P a -> keeps mid (f a) budget' Q) ->
  keeps budget (m ≫= f) budget' Q.
Proof.
  intros Hm Hf b r Hb. unfold mbind, Gen.Script_bind. specialize (Hm b r Hb).
  destruct (m b r) as [[a b1] r1]. destruct Hm as [Hb1 Ha]. exact (Hf a Ha b1 r1 Hb1).
Qed.

Lemma keeps_draw {A} budget (f : Gen.Rng -> A * Gen.Rng) (Q : A -> Prop) :
  (forall r, Q (f r).1) -> keeps budget (Gen.draw f) budget Q.
Proof.
  intros HQ b r Hb. unfold Gen.draw. specialize (HQ r). destruct (f r) as [a r']. by split.
Qed.

Lemma keeps_read {A} budget (f : Builder -> A) (Q : A -> Prop) :
  (forall b, Recorded setup s0 budget b -> Q (f b)) -> keeps budget (Gen.read f) budget Q.
Proof. intros HQ b r Hb. split; [done|by apply HQ]. Qed.

Lemma keeps_exec budget k ac am ep x0 x1 :
  0 <= ac < 6 -> is_u128 am -> is_u128 x0 -> is_u128 x1 ->
  keeps budget (Gen.act (exec_aux k ac am ep x0 x1)) (budget + cost k am) (fun _ => True).
Proof. intros ???? b r Hb. split; [by apply exec_recorded|done]. Qed.

(** An action that observes nothing leaves the budget. *)
Lemma runs_exec budget k ac am ep x0 x1 :
  k <> ObserveInbound -> 0 <= ac < 6 -> is_u128 am -> is_u128 x0 -> is_u128 x1 ->
  runs budget (Gen.act (exec_aux k ac am ep x0 x1)).
Proof.
  intros Hk ????. pose proof (keeps_exec budget k ac am ep x0 x1) as He.
  replace (cost k am) with 0 in He by (by destruct k). rewrite Z.add_0_r in He. by apply He.
Qed.

Lemma runs_simple budget k ac :
  k <> ObserveInbound -> 0 <= ac < 6 -> runs budget (Gen.act (exec_simple k ac)).
Proof. intros. apply runs_exec; [done..|by split|by split|by split]. Qed.

Lemma runs_plain budget k ac am ep :
  k <> ObserveInbound -> 0 <= ac < 6 -> is_u128 am -> runs budget (Gen.act (exec k ac am ep)).
Proof. intros. apply runs_exec; [done..|by split|by split]. Qed.

Lemma runs_advance_to budget now : now <= u64_max -> runs budget (Gen.act (advance_to now)).
Proof.
  intros Hn b r Hb. split; [|done]. apply advance_recorded; [done|].
  destruct Hb. lia.
Qed.

Lemma runs_advance_by budget seconds : 0 <= seconds -> runs budget (Gen.act (advance_by seconds)).
Proof.
  intros Hs b r Hb. split; [|done]. apply advance_recorded; [done|].
  destruct Hb. unfold saturating_add. lia.
Qed.

Lemma runs_for_each {A} budget (l : list A) body :
  (forall x, x ∈ l -> runs budget (body x)) -> runs budget (Gen.for_each l body).
Proof.
  induction l as [|x l IH]; intros Hl; [by apply keeps_ret|]. cbn [Gen.for_each].
  eapply keeps_bind; [apply Hl; set_solver|]. intros _ _. apply IH. set_solver.
Qed.

Lemma keeps_for_fold {A C} budget (l : list A) (body : C -> A -> Gen.Script C) acc (Q : C -> Prop) :
  (forall c x, Q c -> keeps budget (body c x) budget Q) -> Q acc ->
  keeps budget (Gen.for_fold l body acc) budget Q.
Proof.
  intros Hl. revert acc. induction l as [|x l IH]; intros acc Hacc; [by apply keeps_ret|].
  cbn [Gen.for_fold]. eapply keeps_bind; [by apply Hl|]. intros c Hc. by apply IH.
Qed.

(** * Values the scripts read and draw *)

Lemma idle_range budget b : Recorded setup s0 budget b ->
  0 <= b.(b_state).(buckets).(idle_backing) <= budget.
Proof.
  intros Hb. pose proof (recorded_inv _ _ Hb) as HIb. pose proof (rec_budget _ _ _ _ Hb (length (trace_of (b_scenario b)))) as Hr.
  rewrite take_ge, (recorded_state _ _ Hb) in Hr by done.
  pose proof (inv_asset_bounds _ HIb) as []. pose proof (inv_type _ HIb) as [].
  pose proof (inv_asset _ HIb) as Ha. unfold received, AssetInv, issued in *. lia.
Qed.

Lemma shares_range budget b user : Recorded setup s0 budget b -> is_u128 (user_shares b user).
Proof.
  intros Hb. pose proof (recorded_inv _ _ Hb) as HIb. unfold user_shares.
  set (a := account_for (Z.of_nat user)). pose proof (account_nonneg _ a (inv_type _ HIb)).
  pose proof (share_credit_fits _ a 0 HIb) as Hc. pose proof (inv_type _ HIb) as [].
  unfold fits. lia.
Qed.

Lemma any_user_range budget : keeps budget Gen.any_user budget (fun v => 0 <= v < 4).
Proof. apply keeps_draw. intros r. by apply below_range. Qed.

(** Arithmetic of a script: literals, widths and the bounds of the setup. *)
Ltac script_side :=
  match goal with
  | |- _ <> ObserveInbound => discriminate
  | |- True => exact I
  | _ => unfold Gen.saturating_mul, saturating_sub, saturating_add, fits, ADMIN_SLOT, GUARDIAN_SLOT in *;
         first [lia | unfold u128_max, u64_max in *; first [lia|euclid]]
  end.

(** One step of a script: a primitive, or a script already verified. *)
Ltac script_prim :=
  first
    [ apply runs_simple; script_side
    | apply runs_plain; script_side
    | apply runs_exec; script_side
    | apply runs_advance_by; script_side
    | apply any_user_range
    | solve [eauto with script] ].

Ltac script_step := eapply keeps_bind; [script_prim|intros ? ?].
Ltac script := repeat script_step; try script_prim.

Lemma cutoff_runs budget : runs budget Gen.cutoff.
Proof.
  unfold Gen.cutoff. eapply keeps_bind; [by apply (keeps_read _ _ (fun _ => True))|]. intros target _.
  eapply keeps_bind; [apply (keeps_draw _ _ (fun v => 0 <= v)); intros r; by apply below_range|].
  intros delay Hd. eapply keeps_bind; [apply runs_advance_to; unfold saturating_add; lia|].
  intros _ _. script.
Qed.

Lemma finalize_runs budget : runs budget Gen.finalize.
Proof. unfold Gen.finalize. script. Qed.

Lemma settle_runs budget : runs budget Gen.settle.
Proof. eapply keeps_bind; [apply cutoff_runs|]. intros _ _. apply finalize_runs. Qed.

Lemma open_next_runs budget : runs budget Gen.open_next.
Proof.
  unfold Gen.open_next. eapply keeps_bind;
    [apply (keeps_draw _ _ (fun v => 1 <= v <= 300)); intros r; by apply between_range|].
  intros v Hv. script.
Qed.

Lemma request_deposit_runs budget user :
  0 <= user < 4 -> runs budget (Gen.request_deposit user setup).
Proof.
  intros Hu. unfold Gen.request_deposit. destruct Hsetup.
  eapply (keeps_bind _ _ _ _ _ (fun v => is_u128 v)); [|intros v Hv; script_prim].
  unfold Gen.deposit_amount. eapply keeps_bind; [by apply (keeps_read _ _ (fun _ => True))|].
  intros balance _. case_match; [apply keeps_ret; script_side|]. apply keeps_draw. intros r.
  match goal with |- is_u128 (Gen.between_u128 ?l ?h r).1 =>
    pose proof (between_u128_range l h r ltac:(script_side) ltac:(script_side)) end.
  script_side.
Qed.

Lemma request_redeem_runs budget user :
  0 <= user < 4 -> runs budget (Gen.request_redeem user setup).
Proof.
  intros Hu. unfold Gen.request_redeem. destruct Hsetup.
  eapply (keeps_bind _ _ _ _ _ (fun v => is_u128 v)); [|intros v Hv; script_prim].
  unfold Gen.redeem_amount. eapply keeps_bind;
    [apply (keeps_read _ _ (fun v => is_u128 v)); intros b Hb; by eapply shares_range|].
  intros held Hheld. case_match; [apply keeps_ret; script_side|]. apply keeps_draw. intros r.
  assert (0 <= held / 4 <= held) by (unfold fits in Hheld; euclid).
  match goal with |- is_u128 (Gen.between_u128 ?l ?h r).1 =>
    pose proof (between_u128_range l h r ltac:(script_side) ltac:(script_side)) end.
  script_side.
Qed.

Lemma read_epoch budget : keeps budget (Gen.read current_epoch_id) budget (fun _ => True).
Proof. by apply keeps_read. Qed.

Lemma slots_range x : x ∈ Gen.user_slots -> 0 <= x < 4.
Proof. unfold Gen.user_slots. intros (n & -> & Hn%elem_of_seq)%list_elem_of_fmap. unfold USER_COUNT in Hn. lia. Qed.

#[local] Hint Resolve cutoff_runs finalize_runs settle_runs open_next_runs read_epoch : script.
#[local] Hint Extern 2 (keeps _ (Gen.request_deposit _ _) _ _) =>
  (apply request_deposit_runs; script_side) : script.
#[local] Hint Extern 2 (keeps _ (Gen.request_redeem _ _) _ _) =>
  (apply request_redeem_runs; script_side) : script.

Lemma claim_all_runs budget epoch : runs budget (Gen.claim_all epoch).
Proof.
  apply runs_for_each. intros x Hx%slots_range. script.
Qed.

Lemma bootstrap_runs budget : runs budget (Gen.bootstrap_shares setup).
Proof.
  unfold Gen.bootstrap_shares. script_step.
  eapply keeps_bind; [apply runs_for_each; intros x Hx%slots_range; script|intros _ _].
  script_step. apply runs_for_each. intros x Hx%slots_range. script.
Qed.

#[local] Hint Resolve claim_all_runs bootstrap_runs : script.

Lemma between_keeps budget low high : 0 <= low <= high -> is_u64 high ->
  keeps budget (Gen.draw (Gen.between low high)) budget (fun v => low <= v <= high).
Proof. intros. apply keeps_draw. intros r. by apply between_range. Qed.

#[local] Hint Extern 2 (keeps _ (Gen.draw (Gen.between _ _)) _ _) =>
  (apply between_keeps; script_side) : script.

(** * The families *)

Lemma deposit_lifecycle_runs budget : runs budget (Gen.deposit_lifecycle setup).
Proof. unfold Gen.deposit_lifecycle. pose proof (so_min_deposit _ Hsetup). script. Qed.

Lemma redemption_lifecycle_runs budget : runs budget (Gen.redemption_lifecycle setup).
Proof. unfold Gen.redemption_lifecycle. pose proof (so_min_redeem _ Hsetup). script. Qed.

Lemma mixed_settlement_runs budget : runs budget (Gen.mixed_settlement setup).
Proof. unfold Gen.mixed_settlement. script. Qed.

Lemma multi_epoch_cycle_keeps budget pending i :
  keeps budget (Gen.multi_epoch_cycle setup pending i) budget (fun _ => True).
Proof.
  unfold Gen.multi_epoch_cycle. do 3 script_step.
  eapply keeps_bind.
  { apply runs_for_each. intros x Hx. apply request_deposit_runs. unfold USER_COUNT. euclid. }
  intros _ _. do 3 script_step. destruct (pending ++ _) as [|older [|]]; [by apply keeps_ret..|].
  script_step. by apply keeps_ret.
Qed.

Lemma multi_epoch_runs budget rounds : runs budget (Gen.multi_epoch setup rounds).
Proof.
  unfold Gen.multi_epoch. script_step.
  eapply keeps_bind; [apply (keeps_for_fold _ _ _ _ (fun _ => True)); [|done]|].
  { intros c x _. apply multi_epoch_cycle_keeps. }
  intros pending _. apply runs_for_each. intros x _. apply claim_all_runs.
Qed.

Lemma pause_behavior_runs budget : runs budget (Gen.pause_behavior setup).
Proof.
  unfold Gen.pause_behavior. pose proof (so_min_deposit _ Hsetup).
  pose proof (so_min_redeem _ Hsetup). script.
Qed.

Lemma freeze_and_abort_runs budget : runs budget (Gen.freeze_and_abort setup).
Proof.
  unfold Gen.freeze_and_abort. pose proof (so_min_deposit _ Hsetup). do 8 script_step.
  eapply keeps_bind; [by apply (keeps_draw _ _ (fun _ => True))|]. intros late _.
  eapply keeps_bind; [destruct late; [script|by apply keeps_ret]|]. intros _ _. script.
Qed.

Lemma rejection_trace_runs budget : runs budget (Gen.rejection_trace setup).
Proof.
  unfold Gen.rejection_trace. pose proof (so_min_deposit _ Hsetup).
  pose proof (so_min_redeem _ Hsetup). script.
Qed.

(** A budget that every amount of the cross-chain family stays within. *)
Definition small (budget : Z) : Prop := 0 <= budget <= 2 ^ 64.

Lemma read_idle_keeps budget :
  keeps budget Gen.read_idle budget (fun idle => 0 <= idle <= budget).
Proof. apply keeps_read. intros b Hb. by apply idle_range. Qed.

Lemma transport_shortfall_runs budget remote :
  small budget -> 0 <= remote <= budget -> runs budget (Gen.transport_shortfall remote).
Proof.
  unfold small. intros Hb Hr. unfold Gen.transport_shortfall.
  eapply keeps_bind; [apply read_idle_keeps|]. intros idle Hidle. cbv beta in Hidle.
  cbv zeta. case_match; [by apply keeps_ret|].
  assert (0 <= idle / 5 <= budget) as Hs by euclid. set (sent := idle / 5) in *.
  assert (0 <= sent / 4 * 3 <= sent) as Hc by euclid. set (credited := sent / 4 * 3) in *.
  assert (0 <= (sent - credited) / 2 <= budget) as Hrec by euclid.
  assert (0 <= remote / 2 <= budget) as Hh by euclid.
  clearbody sent credited. set (recovered := (sent - credited) / 2) in *. clearbody recovered.
  set (marked := remote / 2) in *. clearbody marked. script.
Qed.

Lemma observe_keeps budget amount : 0 <= amount <= u128_max ->
  keeps budget (Gen.act (exec_aux ObserveInbound 0 amount 0 0 0)) (budget + amount) (fun _ => True).
Proof. intros. by apply keeps_exec. Qed.

Lemma keeps_weaken {A} budget (m : Gen.Script A) mid budget' Q :
  keeps budget m mid Q -> mid <= budget' -> keeps budget m budget' Q.
Proof.
  intros Hm Hle b r Hb. specialize (Hm b r Hb). destruct (m b r) as [[a b'] r'].
  destruct Hm as [Hb' HQ]. split; [|done]. destruct Hb'. constructor; try done. intros k. pose proof (rec_budget k). lia.
Qed.

Lemma xchain_accounting_keeps budget : 0 <= budget <= 2 ^ 60 ->
  keeps budget (Gen.xchain_accounting setup) (3 * budget) (fun _ => True).
Proof.
  intros Hb. unfold Gen.xchain_accounting. do 2 script_step.
  eapply keeps_bind; [apply read_idle_keeps|]. intros idle Hidle. cbv beta in Hidle. cbv zeta.
  case_match; [eapply keeps_weaken; [apply rejection_trace_runs|lia]|].
  assert (0 <= (if 4 <=? idle then idle / 4 else idle) <= budget) as Ha
    by (case_match; [euclid|lia]).
  set (amount := if 4 <=? idle then idle / 4 else idle) in *. clearbody amount.
  assert (0 <= amount / 2 <= amount) as Hr by euclid. set (recalled := amount / 2) in *.
  assert (0 <= recalled / 4 <= recalled) as Hl by euclid. set (loss := recalled / 4) in *.
  clearbody loss. clearbody recalled. repeat script_step.
  eapply keeps_bind; [apply observe_keeps; script_side|]. intros _ _.
  assert (small (budget + saturating_sub recalled loss)
    /\ 0 <= saturating_sub amount recalled <= budget
    /\ budget <= budget + saturating_sub recalled loss <= 2 * budget)
    as (Hsm & Hrem & Hmid) by (unfold small, saturating_sub; lia).
  set (remaining := saturating_sub amount recalled) in *. clearbody remaining.
  set (mid := budget + saturating_sub recalled loss) in *. clearbody mid.
  script_step. eapply keeps_bind; [apply transport_shortfall_runs; [done|unfold small in *; lia]|].
  intros _ _. unfold small in *. do 3 script_step.
  eapply keeps_bind; [apply observe_keeps; script_side|]. intros _ _.
  eapply keeps_weaken; [script_prim|lia].
Qed.

Lemma family_script_keeps budget rounds : 0 <= budget <= 2 ^ 60 ->
  keeps budget (Gen.family_script setup rounds) (3 * budget) (fun _ => True).
Proof.
  intros Hb. unfold Gen.family_script.
  repeat (case_match; [first [by apply xchain_accounting_keeps |
    eapply keeps_weaken; [first [apply deposit_lifecycle_runs | apply redemption_lifecycle_runs
      | apply mixed_settlement_runs | apply multi_epoch_runs | apply pause_behavior_runs
      | apply freeze_and_abort_runs]|lia]]|]).
  eapply keeps_weaken; [apply rejection_trace_runs|lia].
Qed.
End recorded.
