(* ===== verification/DiffTheorems.v ===== *)
(** The theorems of the differential run: it is always produced, one scenario
    of it is reproduced by its index alone, and what it records is what the
    accounting model does.  The first half is what a finished scenario says:
    the record of every settled epoch prices every user at the epoch's terms,
    a snapshot shows the state it was taken from, and the value recorded for a
    claim is what the claim paid. *)

From Stdlib Require Import ZArith Lia.
From S2P Require Import Prelude AccountingMath AccountingState AccountingTransition AccountingInvariant.
From S2P Require Import AccountingBook AccountingSafety AccountingFigures.
From S2P Require Import AccountingPreserve AccountingChecks AccountingClaims AccountingLifecycle.
From S2P Require Import DiffRecorder DiffGenerator DiffFacts DiffScripts.
Import Diff.

(** * Settled epochs *)

(** What an epoch owes a user: the amounts requested, and at a finalized
    epoch their entitlements. *)
Definition owed (s : State) (id : Z) (o : EpochOutcome) (user : nat) : EpochActorTerms :=
  let key := mkRequestKey id (account_for (Z.of_nat user)) in
  let deposit := deposit_assets_at s key in
  let redeem := redeem_shares_at s key in
  match o with
  | Finalized t =>
      let b := terms_basis t in
      mkEpochActorTerms deposit redeem (deposit * share_units b / asset_units b)
        (redeem * asset_units b / share_units b)
  | Aborted _ => mkEpochActorTerms deposit redeem 0 0
  end.

(** The record of a settled epoch. *)
Definition settled_record (s : State) (step id : Z) (o : EpochOutcome) : EpochRecord :=
  (record_outcome id step o) <| er_actors := owed s id o <$> users |>.

Lemma at_le_sum {R} `{Request R} outcomes cur (m : gmap RequestKey R) k :
  book_ok outcomes cur m ->
  0 <= match m !! k with Some r => amt r | None => 0 end <= epoch_sum m (rk_epoch k) amt.
Proof.
  intros Hm. destruct (m !! k) as [r|] eqn:Hk.
  - split; [by eapply book_ok_amt_nonneg|]. apply epoch_sum_lookup_le; [|done].
    intros k' r' Hk'. by eapply book_ok_amt_nonneg.
  - split; [done|]. apply epoch_sum_nonneg. intros k' r' Hk' ?. by eapply book_ok_amt_nonneg.
Qed.

(** Pricing a settled epoch never fails. *)
Lemma actor_terms_ok s id o user :
  Inv s -> s.(epochs) !! id = Some o -> actor_terms s id o user = Ok (owed s id o user).
Proof.
  intros HI Ho. unfold actor_terms, owed. destruct o as [t|t]; [|done].
  pose proof (si_terms _ (inv_settle _ HI) _ _ Ho) as []. destruct (inv_book _ HI) as [HD HR _].
  set (key := mkRequestKey id _).
  pose proof (at_le_sum _ _ _ key HD) as Hd. pose proof (at_le_sum _ _ _ key HR) as Hr.
  change (rk_epoch key) with id in Hd, Hr. cbn [amt] in Hd, Hr. rewrite <-te_deposits in Hd.
  rewrite <-te_redeems in Hr. change (0 <= deposit_assets_at s key <= et_deposit_assets t) in Hd.
  change (0 <= redeem_shares_at s key <= et_redeem_shares t) in Hr.
  pose proof te_basis as (?&?&?&?&Hau&Hsu). unfold shares_for, assets_for.
  assert (0 < asset_units (terms_basis t) /\ 0 < share_units (terms_basis t)) as [HA HS]
    by (unfold asset_units, share_units; lia).
  assert (et_total_supply t <= share_units (terms_basis t))
    by (unfold share_units, terms_basis in *; cbn in *; lia).
  rewrite assets_to_shares_ok, shares_to_assets_ok; try done; unfold fits in *; try lia.
  - transitivity (asset_units (terms_basis t)); [|done]. apply Z.div_le_upper_bound; [done|nia].
  - transitivity (et_minted_shares t); [|done]. rewrite te_minted. apply Z.div_le_mono; [done|nia].
Qed.

Lemma epoch_record_ok b id o :
  Inv b.(b_state) -> b.(b_state).(epochs) !! id = Some o ->
  epoch_record b id o
    = Ok (settled_record b.(b_state) (default 0 (b.(b_settled_steps) !! id)) id o).
Proof.
  intros HI Ho. unfold epoch_record, settled_record, users. cbn [seq USER_COUNT try_fold fmap list_fmap].
  rewrite !(actor_terms_ok _ _ _ _ HI Ho). by destruct o.
Qed.

(** The records of a builder, in the order of their epochs. *)
Definition records (b : Builder) : list EpochRecord :=
  (fun kv => settled_record b.(b_state) (default 0 (b.(b_settled_steps) !! kv.1)) kv.1 kv.2)
    <$> btree_iter Z.le b.(b_state).(epochs).

Lemma try_fold_collect {E A B} (f : A -> result E B) (g : A -> B) l acc :
  (forall x, x ∈ l -> f x = Ok (g x)) ->
  try_fold (fun out x => let? y := f x in Ok (out ++ [y])) acc l = Ok (acc ++ (g <$> l)).
Proof.
  revert acc. induction l as [|x l IH]; intros acc Hf; cbn [try_fold fmap list_fmap].
  { by rewrite app_nil_r. }
  rewrite Hf by set_solver. rewrite IH by set_solver. by rewrite <-app_assoc.
Qed.

Lemma finish_ok b : Inv b.(b_state) -> finish b = Ok (b.(b_scenario) <| sc_epochs := records b |>).
Proof.
  intros HI. unfold finish. rewrite (try_fold_collect _ (fun kv => settled_record b.(b_state)
    (default 0 (b.(b_settled_steps) !! kv.1)) kv.1 kv.2)); [done|].
  intros [id o] Hin%elem_of_btree_iter. by apply epoch_record_ok.
Qed.

(** * Returned values *)


(** What the actor of an action holds: assets and shares. *)
Abbreviation holding s a := (account s (account_for a.(actor))).







(** * Snapshots *)

Definition spent (s : State) (epoch : Z) (user : nat) (redeem : bool) : bool :=
  let key := mkRequestKey epoch (account_for (Z.of_nat user)) in
  if redeem then redeem_spent s key else deposit_spent s key.

Lemma consumed_bit_Some epoch user redeem i :
  consumed_bit epoch user redeem = Some i <->
  epoch < 16 /\ (user < 4)%nat /\ i = epoch * 8 + Z.of_nat user * 2 + (if redeem then 1 else 0).
Proof.
  unfold consumed_bit, MAX_TRACKED_EPOCHS, USER_COUNT, u32_max.
  destruct (Z.leb_spec 16 epoch), (Nat.leb_spec 4 user); cbn [orb]; try (split; [done|lia]).
  case_match; bool_to_prop; (split; [intros Hi; simplify_eq; lia|intros (_ & _ & ->)]); [done|].
  destruct redeem; lia.
Qed.

(** A flag has a bit of its own. *)
Lemma consumed_bit_inj e1 u1 r1 e2 u2 r2 i :
  consumed_bit e1 u1 r1 = Some i -> consumed_bit e2 u2 r2 = Some i -> e1 = e2 /\ u1 = u2 /\ r1 = r2.
Proof.
  intros (_ & ? & H1)%consumed_bit_Some (_ & ? & H2)%consumed_bit_Some.
  destruct r1, r2; split_and!; try done; lia.
Qed.

Lemma mark_testbit mask flag bit i : 0 <= i -> (forall b, bit = Some b -> 0 <= b) ->
  Z.testbit (mark mask flag bit) i = true <->
  Z.testbit mask i = true \/ (flag = true /\ bit = Some i).
Proof.
  intros Hi Hb. unfold mark. destruct bit as [b|]; [|naive_solver].
  specialize (Hb b eq_refl). destruct flag; [|naive_solver].
  rewrite Z.lor_spec, orb_true_iff, Z.shiftl_1_l, Z.pow2_bits_eqb, Z.eqb_eq by lia. naive_solver.
Qed.

Lemma capture_mask_testbit s user mask i : 0 <= i ->
  Z.testbit (capture_mask s user mask) i = true <->
  Z.testbit mask i = true \/ exists e redeem, 0 <= e < 16 /\ spent s e user redeem = true
    /\ consumed_bit e user redeem = Some i.
Proof.
  intros Hi. unfold capture_mask, MAX_TRACKED_EPOCHS.
  assert (Hl : forall e, e ∈ seqZ 0 16 -> 0 <= e < 16) by (intros e He%elem_of_seqZ; lia).
  assert (Hl' : forall e, 0 <= e < 16 -> e ∈ seqZ 0 16) by (intros e He; apply elem_of_seqZ; lia).
  assert (Hgoal : forall l mask, (forall e, e ∈ l -> 0 <= e) ->
    Z.testbit (foldl (fun mask epoch =>
      let key := mkRequestKey epoch (account_for (Z.of_nat user)) in
      let mask := mark mask (deposit_spent s key) (consumed_bit epoch user false) in
      mark mask (redeem_spent s key) (consumed_bit epoch user true)) mask l) i = true <->
    Z.testbit mask i = true \/ exists e redeem, e ∈ l /\ spent s e user redeem = true
      /\ consumed_bit e user redeem = Some i).
  { clear mask Hl Hl'. induction l as [|e l IH]; intros mask Hl; cbn [foldl].
    { split; [by left|]. intros [?|(e & r & He & _)]; [done|by apply not_elem_of_nil in He]. }
    assert (Hbit : forall r b, consumed_bit e user r = Some b -> 0 <= b).
    { intros r b (_ & _ & ->)%consumed_bit_Some. pose proof (Hl e ltac:(set_solver)). destruct r; lia. }
    rewrite IH by set_solver. rewrite !mark_testbit by eauto. clear Hbit. split.
    - intros [[[?|[? ?]]|[? ?]]|(e' & r & ? & ? & ?)]; [by left|right..].
      + exists e, false. set_solver.
      + exists e, true. set_solver.
      + exists e', r. set_solver.
    - intros [?|(e' & r & [->|?]%elem_of_cons & ? & ?)]; [by left; left; left| |].
      + left. destruct r; [right|left; right]; done.
      + right. eauto. }
  rewrite Hgoal by (intros e He; apply Hl in He; lia).
  split; (intros [?|(e & r & ? & ? & ?)]; [by left|right; exists e, r; auto]).
Qed.

Lemma capture_user_mask s shot us : s_consumed_mask (foldl (capture_user s) shot us)
  = foldl (fun mask user => capture_mask s user mask) (s_consumed_mask shot) us.
Proof.
  revert shot. induction us as [|u us IH]; intros shot; [done|]. cbn [foldl]. rewrite IH.
  f_equal. unfold capture_user. by destruct (epoch s).
Qed.

Lemma users_mask_testbit s us mask i : 0 <= i ->
  Z.testbit (foldl (fun mask user => capture_mask s user mask) mask us) i = true <->
  Z.testbit mask i = true \/ exists e user redeem, 0 <= e < 16 /\ user ∈ us
    /\ spent s e user redeem = true /\ consumed_bit e user redeem = Some i.
Proof.
  intros Hi. revert mask. induction us as [|u us IH]; intros mask; cbn [foldl].
  { split; [by left|]. intros [?|(e & u & r & _ & Hu & _)]; [done|by apply not_elem_of_nil in Hu]. }
  rewrite IH, capture_mask_testbit by done. split.
  - intros [[?|(e & r & ? & ? & ?)]|(e & u' & r & ? & ? & ? & ?)]; [by left|right..].
    + exists e, u, r. set_solver.
    + exists e, u', r. set_solver.
  - intros [?|(e & u' & r & ? & [->|?]%elem_of_cons & ? & ?)]; [by left; left| |].
    + left. right. eauto.
    + right. eauto 8.
Qed.

(** The mask of a snapshot holds exactly the spent requests. *)
Lemma mask_tells_spent s e user (redeem : bool) : 0 <= e < 16 -> (user < 4)%nat ->
  Z.testbit (capture s).(s_consumed_mask) (e * 8 + Z.of_nat user * 2 + (if redeem then 1 else 0))
    = spent s e user redeem.
Proof.
  intros He Hu. set (i := e * 8 + _ + _).
  assert (Hbit : consumed_bit e user redeem = Some i) by (by apply consumed_bit_Some; split_and!; [lia|..]).
  assert (Hi : 0 <= i) by (unfold i; destruct redeem; lia).
  apply eq_true_iff_eq. unfold capture. rewrite capture_user_mask, users_mask_testbit by done.
  assert (Hzero : forall shot : Snapshot, s_consumed_mask shot = 0 -> Z.testbit (s_consumed_mask shot) i = false)
    by (intros shot ->; apply Z.bits_0).
  rewrite Hzero by (by destruct (epoch s)). split.
  - intros [?|(e' & u' & r' & _ & _ & Hs & Hb)]; [done|].
    by destruct (consumed_bit_inj _ _ _ _ _ _ _ Hb Hbit) as (<- & <- & <-).
  - intros Hs. right. exists e, user, redeem. split; [done|]. split; [|done]. apply elem_of_seq. unfold USER_COUNT. lia.
Qed.

(** * One scenario *)

(** What the generator makes of an index: the builder it finishes is a
    faithful recording. *)
Lemma scenario_built config index : exists s0 b,
  let setup := (Gen.setup_for index (Gen.derive_seed config.(Gen.rc_seed) index)
    (Gen.rng_new (Gen.derive_seed config.(Gen.rc_seed) index))).1 in
  setup_ok setup /\ state_new (genesis_of setup) = Ok s0 /\ Inv s0
  /\ Recorded setup s0 (2 ^ 60) b
  /\ Gen.scenario_at config index = Ok (b.(b_scenario) <| sc_epochs := records b |>).
Proof.
  unfold Gen.scenario_at. set (seed := Gen.derive_seed _ _).
  pose proof (setup_for_ok index seed (Gen.rng_new seed)) as Hok.
  destruct (Gen.setup_for index seed (Gen.rng_new seed)) as [setup r]. cbn [fst] in *.
  destruct (genesis_of_Ok setup Hok) as (s0 & Hnew & He & Hrcv).
  assert (HI : Inv s0) by (eapply state_new_inv; [by apply genesis_of_typed|done]).
  unfold Gen.generate, builder_new. rewrite Hnew. cbn [map_reason].
  set (b0 := mkBuilder _ _ _ _).
  assert (Hb0 : Recorded setup s0 3600000000 b0).
  { destruct Hok. constructor; try done; cbn.
    - unfold u64_max. lia.
    - intros k. by rewrite take_nil.
    - intros id. by rewrite He, !lookup_empty. }
  pose proof (family_script_keeps setup s0 Hok HI 3600000000 config.(Gen.rc_steps) ltac:(lia) b0 r Hb0)
    as Hkeep.
  destruct (Gen.family_script setup _ b0 r) as [[u b] r']. destruct Hkeep as [Hrec _].
  exists s0, b. split; [done|]. split; [done|]. split; [done|]. split.
  - destruct Hrec. constructor; try done. intros k. pose proof (rec_budget k). lia.
  - apply finish_ok. by eapply recorded_inv.
Qed.

Lemma setup_for_index index seed r : su_index (Gen.setup_for index seed r).1 = index.
Proof.
  unfold Gen.setup_for. repeat (case_match; simplify_eq/=). done.
Qed.

(** * Runs *)

Definition wanted (config : Gen.RunConfig) (i : Z) : Prop :=
  match config.(Gen.rc_only) with Some w => w = i | None => True end.

#[global] Instance wanted_dec config i : Decision (wanted config i).
Proof. unfold wanted. destruct (Gen.rc_only config); apply _. Defined.

(** The indexes a run produces. *)
Definition selected (config : Gen.RunConfig) : list Z :=
  filter (wanted config) (seqZ 0 config.(Gen.rc_cases)).

Lemma build_step_eq config scenarios i :
  Gen.build_step config scenarios i =
    if decide (wanted config i)
    then let? scenario := Gen.scenario_at config i in Ok (scenarios ++ [scenario])
    else Ok scenarios.
Proof.
  unfold Gen.build_step. case_decide as Hw; unfold wanted in Hw; destruct (Gen.rc_only config); try done.
  - subst. by rewrite Z.eqb_refl.
  - by rewrite (proj2 (Z.eqb_neq _ _)).
Qed.

Lemma build_fold config l acc : exists scenarios,
  try_fold (Gen.build_step config) acc l = Ok (acc ++ scenarios)
  /\ Forall2 (fun i sc => Gen.scenario_at config i = Ok sc) (filter (wanted config) l) scenarios.
Proof.
  revert acc. induction l as [|i l IH]; intros acc; cbn [try_fold].
  { exists []. rewrite app_nil_r. by split. }
  rewrite build_step_eq, filter_cons. case_decide as Hw; [|apply IH].
  destruct (scenario_built config i) as (s0 & b & _ & _ & _ & _ & Hsc). rewrite Hsc.
  destruct (IH (acc ++ [(b_scenario b) <| sc_epochs := records b |>])) as (scs & Hf & H2).
  eexists. rewrite Hf, <-app_assoc. split; [reflexivity|]. by constructor.
Qed.

Lemma build_run_Ok config : exists scenarios, Gen.build_run config = Ok scenarios
  /\ Forall2 (fun i sc => Gen.scenario_at config i = Ok sc) (selected config) scenarios.
Proof. destruct (build_fold config (seqZ 0 config.(Gen.rc_cases)) []) as (scs & Hf & H2). by exists scs. Qed.

Lemma scenario_index config i sc : Gen.scenario_at config i = Ok sc -> su_index (sc_setup sc) = i.
Proof.
  destruct (scenario_built config i) as (s0 & b & _ & _ & _ & Hrec & ->). intros [= <-].
  destruct Hrec. cbn. rewrite rec_setup. apply setup_for_index.
Qed.

Lemma select_one (l : list Z) i : NoDup l -> i ∈ l -> filter (fun j => i = j) l = [i].
Proof.
  induction 1 as [|x l Hx Hl IH]; intros Hi; [by apply not_elem_of_nil in Hi|].
  rewrite filter_cons. apply elem_of_cons in Hi as [->|Hi].
  - rewrite decide_True by done. f_equal. clear -Hx. induction l as [|y l IH]; [done|].
    rewrite filter_cons_False by set_solver. apply IH. set_solver.
  - rewrite decide_False by (intros ->; done). by apply IH.
Qed.

(** C40. The differential run is always produced, whatever the seed, the number of
    cases and the rounds: no genesis is refused and no settled epoch fails to
    price. It holds one scenario per selected index, in order, each fixed by
    the seed and its own index; and asking for one index alone reproduces that
    scenario of the full run. *)
Theorem differential_run_builds config : exists scenarios,
  Gen.build_run config = Ok scenarios
  /\ (fun sc => su_index (sc_setup sc)) <$> scenarios = selected config
  /\ (forall sc, sc ∈ scenarios -> Gen.scenario_at config (su_index (sc_setup sc)) = Ok sc)
  /\ (config.(Gen.rc_only) = None -> forall sc, sc ∈ scenarios ->
        Gen.build_run (Gen.mkRunConfig config.(Gen.rc_seed) config.(Gen.rc_cases)
          config.(Gen.rc_steps) (Some (su_index (sc_setup sc)))) = Ok [sc]).
Proof.
  destruct (build_run_Ok config) as (scenarios & Hrun & H2). exists scenarios. split; [done|].
  assert (Hin : forall sc, sc ∈ scenarios -> (su_index (sc_setup sc) ∈ selected config)
    /\ Gen.scenario_at config (su_index (sc_setup sc)) = Ok sc).
  { intros sc Hsc. apply list_elem_of_lookup_1 in Hsc as [k Hk].
    destruct (Forall2_lookup_r _ _ _ _ _ H2 Hk) as (i & Hi & Hat).
    rewrite (scenario_index _ _ _ Hat). split; [by eapply list_elem_of_lookup_2|done]. }
  split; [|split; [intros sc Hsc; by apply Hin|]].
  { clear Hin Hrun. induction H2 as [|i sc l scs Hi _ IH]; [done|]. cbn. f_equal; [|done].
    by apply (scenario_index config). }
  intros Honly sc Hsc. destruct (Hin sc Hsc) as [Hsel Hat].
  set (one := Gen.mkRunConfig _ _ _ _). destruct (build_run_Ok one) as (scs & Hrun1 & H21).
  assert (Hone : selected one = [su_index (sc_setup sc)]).
  { etrans; [apply (list_filter_iff (wanted one) (fun j => su_index (sc_setup sc) = j));
      intros j; reflexivity|].
    apply select_one; [apply NoDup_seqZ|]. by apply list_elem_of_filter in Hsel as [_ ?]. }
  assert (Hsame : Gen.scenario_at one (su_index (sc_setup sc)) = Ok sc)
    by (rewrite <-Hat; unfold Gen.scenario_at, one; reflexivity).
  rewrite Hone in H21. apply Forall2_cons_inv_l in H21 as (sc' & scs' & Hat' & Hnil & ->).
  apply Forall2_nil_inv_l in Hnil as ->. rewrite Hrun1. congruence.
Qed.


