(* ===== verification/DiffOutput.v ===== *)
(** What the differential run prints ([crates/evm-differential/src/abi.rs] and
    [main.rs]): the scenario as ABI types, the bundle of a run as hex, the
    statistics, and the command line.

    The ABI encoding is that of the crate alloy, the interface [Alloy].  A
    text is its bytes; an error or a line for debugging is the value it
    prints.  What reads the printed bundle back is in the second half. *)

From Stdlib Require Import ZArith Lia.
From stdpp Require Import strings.
From S2P Require Import Prelude ProtocolLayout ProtocolTypes ProtocolCodec RemoteState.
From S2P Require Import AccountingMath AccountingState AccountingTransition.
From S2P Require Import DiffRecorder DiffGenerator DiffTheorems.
Import Diff.

Module Out.

(** * ABI types *)

Record AbiRemoteBuckets := mkAbiRemoteBuckets {
  unattributedInbound : Z;
  outboundInTransit : Z;
  acceptedRemoteValue : Z;
  inboundInTransit : Z;
  remotePrincipalCap : Z;
  impairedTransport : Z
}.

Record AbiSnapshot := mkAbiSnapshot {
  pendingDepositEscrow : Z;
  idleBacking : Z;
  claimReserve : Z;
  unattributedBalance : Z;
  totalSupply : Z;
  vaultShareBalance : Z;
  vaultAssetBalance : Z;
  status : Z;
  epochOpen : bool;
  epochPhase : Z;
  epochId : Z;
  nextEpochId : Z;
  epochDepositAssets : Z;
  epochRedeemShares : Z;
  consumedMask : Z;
  actorAssets : list Z;
  actorShares : list Z;
  actorDepositAssets : list Z;
  actorRedeemShares : list Z;
  remote : AbiRemoteBuckets
}.

Record AbiAction := mkAbiAction {
  aa_kind : Z;
  aa_actor : Z;
  aa_amount : Z;
  aa_epochId : Z;
  aa_timestamp : Z;
  aa_expectedResult : Z;
  aa_expectedReturn : Z;
  aa_aux0 : Z;
  aa_aux1 : Z
}.

Record AbiEpochActor := mkAbiEpochActor {
  ae_depositAssets : Z;
  ae_redeemShares : Z;
  ae_claimShares : Z;
  ae_claimAssets : Z
}.

Record AbiEpoch := mkAbiEpoch {
  ab_epochId : Z;
  ab_outcome : Z;
  ab_settledAtStep : Z;
  ab_cutoffAt : Z;
  ab_totalAssets : Z;
  ab_totalSupply : Z;
  ab_depositAssets : Z;
  ab_mintedShares : Z;
  ab_redeemShares : Z;
  ab_redeemAssets : Z;
  ab_depositDust : Z;
  ab_redeemDust : Z;
  ab_actors : list AbiEpochActor
}.

Record AbiScenario := mkAbiScenario {
  as_index : Z;
  as_seed : Z;
  as_family : Z;
  as_startTimestamp : Z;
  as_epochDuration : Z;
  as_minDeposit : Z;
  as_minRedeem : Z;
  as_configVersion : Z;
  as_initialAssets : list Z;
  as_initialSnapshot : AbiSnapshot;
  as_actions : list AbiAction;
  as_snapshots : list AbiSnapshot;
  as_epochs : list AbiEpoch
}.

(** * Conversions *)

(** A [u128] as a [U256]. *)
Definition word (value : Z) : Z := value.

(** Four slots of [empty], overwritten from the left. *)
Definition four {A} (empty : A) (values : list A) : list A :=
  (fun slot => default empty (values !! slot)) <$> seq 0 4.

Definition words (values : list Z) : list Z := four 0 (word <$> values).

Definition abi_snapshot (shot : Snapshot) : AbiSnapshot := {|
  pendingDepositEscrow := word shot.(s_pending_deposit_escrow);
  idleBacking := word shot.(s_idle_backing);
  claimReserve := word shot.(s_claim_reserve);
  unattributedBalance := word shot.(s_unattributed_balance);
  totalSupply := word shot.(s_total_supply);
  vaultShareBalance := word shot.(s_vault_share_balance);
  vaultAssetBalance := word shot.(s_vault_asset_balance);
  status := shot.(s_status);
  epochOpen := shot.(s_epoch_open);
  epochPhase := shot.(s_epoch_phase);
  epochId := shot.(s_epoch_id);
  nextEpochId := shot.(s_next_epoch_id);
  epochDepositAssets := word shot.(s_epoch_deposit_assets);
  epochRedeemShares := word shot.(s_epoch_redeem_shares);
  consumedMask := word shot.(s_consumed_mask);
  actorAssets := words shot.(s_actor_assets);
  actorShares := words shot.(s_actor_shares);
  actorDepositAssets := words shot.(s_actor_deposit_assets);
  actorRedeemShares := words shot.(s_actor_redeem_shares);
  remote := {|
    unattributedInbound := word shot.(s_unattributed_inbound);
    outboundInTransit := word shot.(s_outbound_in_transit);
    acceptedRemoteValue := word shot.(s_accepted_remote_value);
    inboundInTransit := word shot.(s_inbound_in_transit);
    remotePrincipalCap := word shot.(s_remote_principal_cap);
    impairedTransport := word shot.(s_impaired_transport) |}
|}.

Definition abi_epoch_actor (entry : EpochActorTerms) : AbiEpochActor := {|
  ae_depositAssets := word entry.(ea_deposit_assets);
  ae_redeemShares := word entry.(ea_redeem_shares);
  ae_claimShares := word entry.(ea_claim_shares);
  ae_claimAssets := word entry.(ea_claim_assets)
|}.

Definition abi_epoch (record : EpochRecord) : AbiEpoch := {|
  ab_epochId := record.(er_epoch_id);
  ab_outcome := record.(er_outcome);
  ab_settledAtStep := record.(er_settled_at_step);
  ab_cutoffAt := record.(er_cutoff_at);
  ab_totalAssets := word record.(er_total_assets);
  ab_totalSupply := word record.(er_total_supply);
  ab_depositAssets := word record.(er_deposit_assets);
  ab_mintedShares := word record.(er_minted_shares);
  ab_redeemShares := word record.(er_redeem_shares);
  ab_redeemAssets := word record.(er_redeem_assets);
  ab_depositDust := word record.(er_deposit_dust);
  ab_redeemDust := word record.(er_redeem_dust);
  ab_actors := four (mkAbiEpochActor 0 0 0 0) (abi_epoch_actor <$> record.(er_actors))
|}.

Definition abi_action (entry : RecordedAction) : AbiAction :=
  let action := entry.(ra_action) in {|
  aa_kind := kind_raw action.(kind);
  aa_actor := action.(actor);
  aa_amount := word action.(amount);
  aa_epochId := action.(a_epoch);
  aa_timestamp := action.(timestamp);
  aa_expectedResult := code_raw entry.(ra_result);
  aa_expectedReturn := word entry.(ra_return_value);
  aa_aux0 := word action.(aux0);
  aa_aux1 := word action.(aux1)
|}.

Definition abi_scenario (scenario : Scenario) : AbiScenario :=
  let setup := scenario.(sc_setup) in {|
  as_index := setup.(su_index);
  as_seed := setup.(su_seed);
  as_family := setup.(su_family);
  as_startTimestamp := setup.(su_start_timestamp);
  as_epochDuration := setup.(su_epoch_duration);
  as_minDeposit := word setup.(su_min_deposit);
  as_minRedeem := word setup.(su_min_redeem);
  as_configVersion := setup.(su_config_version);
  as_initialAssets := words setup.(su_initial_assets);
  as_initialSnapshot := abi_snapshot scenario.(sc_initial_snapshot);
  as_actions := abi_action <$> scenario.(sc_actions);
  as_snapshots := abi_snapshot <$> scenario.(sc_snapshots);
  as_epochs := abi_epoch <$> scenario.(sc_epochs)
|}.

(** * Bundles *)

Class Alloy := {
  (** [abi_encode] of a scenario. *)
  abi_encode : AbiScenario -> list Z;
  (** [abi_encode_params] of a seed, a count and byte strings. *)
  abi_encode_params : Z -> Z -> list (list Z) -> list Z
}.

Section bundles.
Context `{Alloy}.

Definition encode_scenario (scenario : Scenario) : list Z := abi_encode (abi_scenario scenario).

Definition encode_bundle (seed : Z) (scenarios : list Scenario) : list Z :=
  let parts := encode_scenario <$> scenarios in
  let count := Z.min u32_max (Z.of_nat (length scenarios)) in
  abi_encode_params seed count parts.

(** The two lower case digits of every byte. *)
Definition build_hex_table : list (list Z) :=
  let digit d := if d <? 10 then 48 + d else 87 + d in
  (fun byte => [digit (byte / 16); digit (byte mod 16)]) <$> seqZ 0 256.

Definition HEX : list (list Z) := build_hex_table.

(** The text [emit_bundle] writes to the standard output. *)
Definition bundle_text (raw : list Z) : list Z :=
  byte_string "0x"
  ++ concat ((fun byte => default (byte_string "00") (HEX !! Z.to_nat byte)) <$> raw).

Definition emit_bundle (seed : Z) (scenarios : list Scenario) : list Z :=
  bundle_text (encode_bundle seed scenarios).
End bundles.

(** * Statistics *)

Record Stats := mkStats {
  operations : nat;
  st_successes : nat;
  with_finalize : nat;
  with_deposit_claim : nat;
  with_redeem_claim : nat;
  with_abort : nat;
  with_deposit_refund : nat;
  with_redeem_refund : nat;
  with_rejection : nat;
  with_cancel : nat;
  with_pause : nat;
  deepest : nat
}.

Definition stats_zero : Stats := mkStats 0 0 0 0 0 0 0 0 0 0 0 0.

(** [if hit { n += 1 }]. *)
Definition tally (hit : bool) (n : nat) : nat := if hit then S n else n.

Definition stats_step (t : Stats) (s : Scenario) : Stats := {|
  operations := t.(operations) + length s.(sc_actions);
  st_successes := t.(st_successes) + successes s;
  with_finalize := tally (has_finalized_epoch s) t.(with_finalize);
  with_deposit_claim := tally (0 <? counts s ClaimDeposit)%nat t.(with_deposit_claim);
  with_redeem_claim := tally (0 <? counts s ClaimRedeem)%nat t.(with_redeem_claim);
  with_abort := tally (has_aborted_epoch s) t.(with_abort);
  with_deposit_refund := tally (0 <? counts s RefundDeposit)%nat t.(with_deposit_refund);
  with_redeem_refund := tally (0 <? counts s RefundRedeem)%nat t.(with_redeem_refund);
  with_rejection := tally (0 <? rejections s)%nat t.(with_rejection);
  with_cancel := tally (0 <? counts s CancelDeposit + counts s CancelRedeem)%nat t.(with_cancel);
  with_pause := tally (0 <? counts s Pause)%nat t.(with_pause);
  deepest := Nat.max t.(deepest) (length s.(sc_actions))
|}.

(** The percentage [print_rate] prints. *)
Definition rate_percent (hits total : nat) : Z :=
  if (total =? 0)%nat then 0 else Z.min usize_max (Z.of_nat hits * 100) / Z.of_nat total.

(** The number of scenarios that reached each state, in the order printed. *)
Definition reached (t : Stats) : list nat :=
  [t.(with_finalize); t.(with_deposit_claim); t.(with_redeem_claim); t.(with_cancel); t.(with_pause);
   t.(with_abort); t.(with_deposit_refund); t.(with_redeem_refund); t.(with_rejection)].

(** The figures [report_stats] prints; a rate is its hits and the percentage
    of the total. *)
Record Report := mkReport {
  rp_seed : Z;
  rp_total : nat;
  rp_operations : nat;
  rp_successes : nat;
  rp_rejections : nat;
  rp_deepest : nat;
  rp_rates : list (nat * Z);
  rp_families : list nat
}.

Definition report_stats (config : Gen.RunConfig) (scenarios : list Scenario) : Report :=
  let stats := foldl stats_step stats_zero scenarios in {|
  rp_seed := config.(Gen.rc_seed);
  rp_total := length scenarios;
  rp_operations := stats.(operations);
  rp_successes := stats.(st_successes);
  rp_rejections := stats.(operations) - stats.(st_successes);
  rp_deepest := stats.(deepest);
  rp_rates := (fun hits => (hits, rate_percent hits (length scenarios))) <$> reached stats;
  rp_families := (fun family =>
    length (filter (fun s => s.(sc_setup).(su_family) = family) scenarios))
    <$> seqZ 0 Gen.FAMILY_COUNT
|}.

(** The scenario [describe] prints. *)
Definition described (scenarios : list Scenario) (index : Z) : option Scenario :=
  match list_find (fun s => s.(sc_setup).(su_index) = index) scenarios with
  | Some (_, s) => Some s
  | None => head scenarios
  end.

(** * The command line *)

Inductive Mode : Set :=
| Bundle
| StatsMode
| Describe (index : Z).

Record Args := mkArgs {
  ar_config : Gen.RunConfig;
  ar_mode : Mode
}.

Inductive ArgError : Set :=
| HelpRequested
| UnknownFlag (flag : list Z)
| NeedsValue (flag : list Z)
| NotANumber (flag raw : list Z)
| TooLarge (flag : list Z)
| NoCases.

(** [str::parse::<u64>]: decimal_step digits after an optional plus sign. *)
Definition decimal_step (acc : option Z) (c : Z) : option Z :=
  n ← acc;
  if (48 <=? c) && (c <=? 57) then
    let n := n * 10 + (c - 48) in if n <=? u64_max then Some n else None
  else None.

Definition parse_u64 (raw : list Z) : option Z :=
  let digits := match raw with 43 :: rest => rest | _ => raw end in
  match digits with [] => None | _ => foldl decimal_step (Some 0) digits end.

Definition read_number (argv : list (list Z)) (flag : list Z) : result ArgError (Z * list (list Z)) :=
  match argv with
  | [] => Err (NeedsValue flag)
  | raw :: argv =>
      let? value := ok_or (parse_u64 raw) (NotANumber flag raw) in
      Ok (value, argv)
  end.

Definition read_small (argv : list (list Z)) (flag : list Z) : result ArgError (Z * list (list Z)) :=
  let? '(value, argv) := read_number argv flag in
  require value <=? u32_max or TooLarge flag;
  Ok (value, argv).

#[global] Instance RunConfig_eta : Eta Gen.RunConfig := fun c =>
  Gen.mkRunConfig (Gen.rc_seed c) (Gen.rc_cases c) (Gen.rc_steps c) (Gen.rc_only c).

(** One turn of the loop: the flag and what is left after its value. *)
Definition parse_flag (flag : list Z) (argv : list (list Z)) (config : Gen.RunConfig) (mode : Mode)
    : result ArgError (Gen.RunConfig * Mode * list (list Z)) :=
  if bool_decide (flag = byte_string "--seed") then
    let? '(n, argv) := read_number argv flag in Ok (config <| Gen.rc_seed := n |>, mode, argv)
  else if bool_decide (flag = byte_string "--cases") then
    let? '(n, argv) := read_small argv flag in Ok (config <| Gen.rc_cases := n |>, mode, argv)
  else if bool_decide (flag = byte_string "--steps") then
    let? '(n, argv) := read_small argv flag in Ok (config <| Gen.rc_steps := n |>, mode, argv)
  else if bool_decide (flag = byte_string "--only") then
    let? '(n, argv) := read_small argv flag in Ok (config <| Gen.rc_only := Some n |>, mode, argv)
  else if bool_decide (flag = byte_string "--stats") then Ok (config, StatsMode, argv)
  else if bool_decide (flag = byte_string "--describe") then
    let? '(n, argv) := read_small argv flag in Ok (config, Describe n, argv)
  else if bool_decide (flag = byte_string "--help") || bool_decide (flag = byte_string "-h")
  then Err HelpRequested
  else Err (UnknownFlag flag).

(** The loop over the arguments; every turn takes at least one of them. *)
Fixpoint parse_loop (fuel : nat) (argv : list (list Z)) (config : Gen.RunConfig) (mode : Mode)
    : option (result ArgError Args) :=
  match fuel with
  | O => None
  | S fuel =>
      match argv with
      | [] => Some (if config.(Gen.rc_cases) =? 0 then Err NoCases else Ok (mkArgs config mode))
      | flag :: argv =>
          match parse_flag flag argv config mode with
          | Err e => Some (Err e)
          | Ok (config, mode, argv) => parse_loop fuel argv config mode
          end
      end
  end.

Definition parse_args (argv : list (list Z)) : option (result ArgError Args) :=
  parse_loop (S (length argv)) argv Gen.run_default Bundle.

(** What the process prints. *)
Inductive Printed : Type :=
| Usage (e : ArgError)
| GenerationFailed (e : BuildError)
| Text (text : list Z)
| Figures (r : Report)
| Described (s : Scenario)
| NothingToDescribe.

Definition main `{Alloy} (argv : list (list Z)) : option Printed :=
  args ← parse_args argv;
  Some match args with
       | Err message => Usage message
       | Ok args =>
           match Gen.build_run args.(ar_config) with
           | Err reason => GenerationFailed reason
           | Ok scenarios =>
               match args.(ar_mode) with
               | Bundle => Text (emit_bundle args.(ar_config).(Gen.rc_seed) scenarios)
               | StatsMode => Figures (report_stats args.(ar_config) scenarios)
               | Describe index =>
                   match described scenarios index with
                   | Some s => Described s
                   | None => NothingToDescribe
                   end
               end
           end
       end.

End Out.

Import Out.

(** * What is printed determines the run *)

(** ** Arrays *)

(** The arrays of four users, lists in the model, have four entries. *)
Definition snapshot_full (s : Snapshot) : Prop :=
  length s.(s_actor_assets) = 4%nat /\ length s.(s_actor_shares) = 4%nat /\
  length s.(s_actor_deposit_assets) = 4%nat /\ length s.(s_actor_redeem_shares) = 4%nat.

Definition epoch_full (e : EpochRecord) : Prop := length e.(er_actors) = 4%nat.

Definition scenario_full (s : Scenario) : Prop :=
  length s.(sc_setup).(su_initial_assets) = 4%nat /\ snapshot_full s.(sc_initial_snapshot) /\
  Forall snapshot_full s.(sc_snapshots) /\ Forall epoch_full s.(sc_epochs).

(** ** The conversion loses nothing *)

Lemma four_id {A} (empty : A) l : length l = 4%nat -> four empty l = l.
Proof. intros Hl. destruct l as [|a [|b [|c [|d [|]]]]]; done. Qed.

Lemma words_id l : length l = 4%nat -> words l = l.
Proof. intros Hl. unfold words, word. rewrite list_fmap_id. by apply four_id. Qed.

Lemma kind_raw_inj k k' : kind_raw k = kind_raw k' -> k = k'.
Proof. destruct k, k'; cbn; intros; congruence. Qed.

Lemma code_raw_inj c c' : code_raw c = code_raw c' -> c = c'.
Proof. destruct c, c'; cbn; intros; congruence. Qed.

Lemma abi_snapshot_inj s s' : snapshot_full s -> snapshot_full s' ->
  abi_snapshot s = abi_snapshot s' -> s = s'.
Proof.
  intros (L1 & L2 & L3 & L4) (L1' & L2' & L3' & L4'). unfold abi_snapshot, word.
  rewrite !words_id by done. destruct s, s'. cbn. intros He. injection He. intros. by subst.
Qed.

Lemma abi_action_inj : Inj (=) (=) abi_action.
Proof.
  intros [[] ? ?] [[] ? ?]. unfold abi_action, word. cbn.
  intros [= E1 -> -> -> -> E2 -> -> ->]. apply kind_raw_inj in E1. apply code_raw_inj in E2. by subst.
Qed.

Lemma abi_epoch_actor_inj : Inj (=) (=) abi_epoch_actor.
Proof. intros [] []. unfold abi_epoch_actor, word. cbn. congruence. Qed.

Lemma abi_epoch_inj e e' : epoch_full e -> epoch_full e' -> abi_epoch e = abi_epoch e' -> e = e'.
Proof.
  unfold epoch_full. intros Hl Hl'. unfold abi_epoch, word.
  rewrite !four_id by (by rewrite length_fmap). destruct e, e'. cbn.
  intros [= -> -> -> -> -> -> -> -> -> -> -> -> Ha]. f_equal.
  exact (list_fmap_eq_inj _ abi_epoch_actor_inj _ _ Ha).
Qed.

(** Equal images of entries a map is injective on are images of equal
    entries. *)
Lemma fmap_inj_on {A B} (T : A -> Prop) (f : A -> B) l k :
  (forall a b, T a -> T b -> f a = f b -> a = b) -> Forall T l -> Forall T k -> f <$> l = f <$> k -> l = k.
Proof.
  intros Hf Hl. revert k. induction Hl as [|a l Ha _ IH]; intros k Hk He; destruct Hk as [|b k Hb Hk];
    try done. injection He as E1 E2. f_equal; [by apply Hf|by apply IH].
Qed.

Lemma abi_scenario_inj s s' : scenario_full s -> scenario_full s' ->
  abi_scenario s = abi_scenario s' -> s = s'.
Proof.
  intros (H1 & H2 & H3 & H4) (H1' & H2' & H3' & H4') He. unfold abi_scenario, word in He.
  rewrite !words_id in He by done. destruct s as [su i a ss es], s' as [su' i' a' ss' es'].
  f_equal.
  - destruct su, su'. f_equal.
    + exact (f_equal as_index He).
    + exact (f_equal as_seed He).
    + exact (f_equal as_family He).
    + exact (f_equal as_startTimestamp He).
    + exact (f_equal as_epochDuration He).
    + exact (f_equal as_minDeposit He).
    + exact (f_equal as_minRedeem He).
    + exact (f_equal as_configVersion He).
    + exact (f_equal as_initialAssets He).
  - exact (abi_snapshot_inj _ _ H2 H2' (f_equal as_initialSnapshot He)).
  - exact (list_fmap_eq_inj _ abi_action_inj _ _ (f_equal as_actions He)).
  - exact (fmap_inj_on _ _ _ _ abi_snapshot_inj H3 H3' (f_equal as_snapshots He)).
  - exact (fmap_inj_on _ _ _ _ abi_epoch_inj H4 H4' (f_equal as_epochs He)).
Qed.

(** ** Encoding *)

Abbreviation is_u256 := (fits (2 ^ 256 - 1)).

Definition array_typed (l : list Z) : Prop := length l = 4%nat /\ Forall is_u256 l.

Definition abi_snapshot_typed (s : AbiSnapshot) : Prop :=
  Forall is_u8 [s.(status); s.(epochPhase)] /\ Forall is_u64 [s.(epochId); s.(nextEpochId)] /\
  Forall is_u256 [s.(pendingDepositEscrow); s.(idleBacking); s.(claimReserve);
    s.(unattributedBalance); s.(totalSupply); s.(vaultShareBalance); s.(vaultAssetBalance);
    s.(epochDepositAssets); s.(epochRedeemShares); s.(consumedMask);
    s.(remote).(unattributedInbound); s.(remote).(outboundInTransit);
    s.(remote).(acceptedRemoteValue); s.(remote).(inboundInTransit);
    s.(remote).(remotePrincipalCap); s.(remote).(impairedTransport)] /\
  Forall array_typed [s.(actorAssets); s.(actorShares); s.(actorDepositAssets); s.(actorRedeemShares)].

Definition abi_action_typed (a : AbiAction) : Prop :=
  Forall is_u8 [a.(aa_kind); a.(aa_actor); a.(aa_expectedResult)] /\
  Forall is_u64 [a.(aa_epochId); a.(aa_timestamp)] /\
  Forall is_u256 [a.(aa_amount); a.(aa_expectedReturn); a.(aa_aux0); a.(aa_aux1)].

Definition abi_actor_typed (t : AbiEpochActor) : Prop :=
  Forall is_u256 [t.(ae_depositAssets); t.(ae_redeemShares); t.(ae_claimShares); t.(ae_claimAssets)].

Definition abi_epoch_typed (e : AbiEpoch) : Prop :=
  is_u8 e.(ab_outcome) /\ is_u32 e.(ab_settledAtStep) /\ Forall is_u64 [e.(ab_epochId); e.(ab_cutoffAt)] /\
  Forall is_u256 [e.(ab_totalAssets); e.(ab_totalSupply); e.(ab_depositAssets); e.(ab_mintedShares);
    e.(ab_redeemShares); e.(ab_redeemAssets); e.(ab_depositDust); e.(ab_redeemDust)] /\
  length e.(ab_actors) = 4%nat /\ Forall abi_actor_typed e.(ab_actors).

(** Every field at the width of its Solidity type. *)
Definition abi_typed (s : AbiScenario) : Prop :=
  is_u8 s.(as_family) /\ Forall is_u32 [s.(as_index); s.(as_configVersion)] /\
  Forall is_u64 [s.(as_seed); s.(as_startTimestamp); s.(as_epochDuration)] /\
  Forall is_u256 [s.(as_minDeposit); s.(as_minRedeem)] /\ array_typed s.(as_initialAssets) /\
  abi_snapshot_typed s.(as_initialSnapshot) /\ Forall abi_action_typed s.(as_actions) /\
  Forall abi_snapshot_typed s.(as_snapshots) /\ Forall abi_epoch_typed s.(as_epochs).

(** What the run relies on: an encoding is bytes and decodes to what was
    encoded, so that distinct values have distinct encodings. *)
Class AlloyLaws `{Alloy} : Prop := {
  abi_encode_bytes a : Forall is_u8 (abi_encode a);
  abi_encode_params_bytes seed count parts : Forall is_u8 (abi_encode_params seed count parts);
  abi_encode_inj a b : abi_typed a -> abi_typed b -> abi_encode a = abi_encode b -> a = b;
  abi_encode_params_inj seed count parts seed' count' parts' :
    is_u64 seed -> is_u64 seed' -> is_u32 count -> is_u32 count' ->
    Forall (Forall is_u8) parts -> Forall (Forall is_u8) parts' ->
    abi_encode_params seed count parts = abi_encode_params seed' count' parts' ->
    seed = seed' /\ count = count' /\ parts = parts'
}.

(** A scenario whose fields have their Rust types. *)
Definition scenario_typed (s : Scenario) : Prop := scenario_full s /\ abi_typed (abi_scenario s).

(** ** Hex *)

Definition hex_of (byte : Z) : list Z := default (byte_string "00") (HEX !! Z.to_nat byte).

Lemma HEX_NoDup : NoDup HEX.
Proof. apply (bool_decide_unpack _). vm_compute. exact I. Qed.

Lemma HEX_two : Forall (fun digits => length digits = 2%nat) HEX.
Proof. apply (bool_decide_unpack _). vm_compute. exact I. Qed.

Lemma hex_of_lookup b : is_u8 b -> HEX !! Z.to_nat b = Some (hex_of b).
Proof.
  intros [Hl Hh]. unfold hex_of. destruct (lookup_lt_is_Some_2 HEX (Z.to_nat b)) as [digits ->]; [|done].
  change (length HEX) with 256%nat. unfold u8_max in Hh. lia.
Qed.

Lemma hex_of_length b : is_u8 b -> length (hex_of b) = 2%nat.
Proof. intros Hb. exact (Forall_lookup_1 _ _ _ _ HEX_two (hex_of_lookup b Hb)). Qed.

Lemma hex_of_inj a b : is_u8 a -> is_u8 b -> hex_of a = hex_of b -> a = b.
Proof.
  intros Ha Hb He. pose proof (hex_of_lookup a Ha) as La. rewrite He in La.
  pose proof (NoDup_lookup _ _ _ _ HEX_NoDup La (hex_of_lookup b Hb)). unfold fits in *. lia.
Qed.

Lemma bundle_text_inj raw raw' : Forall is_u8 raw -> Forall is_u8 raw' ->
  bundle_text raw = bundle_text raw' -> raw = raw'.
Proof.
  intros Hr Hr' He%app_inv_head. change (concat (hex_of <$> raw) = concat (hex_of <$> raw')) in He.
  revert raw' Hr' He. induction Hr as [|a raw Ha _ IH]; intros raw' Hr' He; destruct Hr' as [|b raw' Hb Hr'].
  - done.
  - apply (f_equal length) in He. rewrite fmap_cons, concat_cons, length_app, hex_of_length in He by done. done.
  - apply (f_equal length) in He. rewrite fmap_cons, concat_cons, length_app, hex_of_length in He by done. done.
  - rewrite !fmap_cons, !concat_cons in He. apply app_inj_1 in He as [E1 E2].
    + f_equal; [by apply hex_of_inj|by apply IH].
    + by rewrite !hex_of_length.
Qed.

(** ** Runs *)

Section runs.
Context `{AlloyLaws}.

(** The text a bundle prints determines the seed and every scenario: its
    setup, every action with the outcome recorded for it, every snapshot and
    every epoch. *)
Theorem bundle_determines_run seed seed' scenarios scenarios' :
  is_u64 seed -> is_u64 seed' -> Forall scenario_typed scenarios -> Forall scenario_typed scenarios' ->
  emit_bundle seed scenarios = emit_bundle seed' scenarios' -> seed = seed' /\ scenarios = scenarios'.
Proof.
  intros Hs Hs' Ht Ht' He. apply bundle_text_inj in He; [|apply abi_encode_params_bytes..].
  assert (Hparts : forall l, Forall (Forall is_u8) (encode_scenario <$> l)).
  { intros l. apply Forall_fmap, Forall_true. intros x. apply abi_encode_bytes. }
  assert (Hcount : forall l : list Scenario, is_u32 (Z.min u32_max (Z.of_nat (length l))))
    by (intros l; unfold fits, u32_max; lia).
  apply abi_encode_params_inj in He as (-> & _ & He); [|done || apply Hcount || apply Hparts..].
  split; [done|]. eapply (fmap_inj_on scenario_typed encode_scenario); [|exact Ht|exact Ht'|exact He].
  intros a b [Fa Ta] [Fb Tb] Hab%abi_encode_inj; [by apply abi_scenario_inj|done..].
Qed.

End runs.

(** * The command line *)

(** A turn of the loop takes its flag and at most one value. *)
Lemma parse_flag_shorter flag argv config mode config' mode' rest :
  parse_flag flag argv config mode = Ok (config', mode', rest) -> (length rest <= length argv)%nat.
Proof.
  unfold parse_flag, read_small, read_number, ok_or. intros He. revert He.
  repeat case_match; cbn; intros; simplify_eq; cbn; lia.
Qed.

Lemma parse_loop_total fuel argv config mode : (length argv < fuel)%nat ->
  is_Some (parse_loop fuel argv config mode).
Proof.
  revert argv config mode. induction fuel as [|fuel IH]; intros argv config mode Hf; [lia|].
  destruct argv as [|flag argv]; cbn; [by eexists|].
  destruct (parse_flag flag argv config mode) as [[[config' mode'] rest]|e] eqn:E; [|by eexists].
  apply IH. apply parse_flag_shorter in E. cbn in Hf. lia.
Qed.

(** The program ends on every command line, and what it prints is never a
    failed generation. *)
Theorem command_line_answers `{Alloy} argv : exists printed,
  main argv = Some printed /\ forall e, printed <> GenerationFailed e.
Proof.
  unfold main. destruct (parse_loop_total (S (length argv)) argv Gen.run_default Bundle) as [r Hr]; [lia|].
  unfold parse_args. rewrite Hr. cbn. eexists. split; [reflexivity|]. destruct r as [args|e]; [|done].
  destruct (build_run_Ok (ar_config args)) as (scs & -> & _). destruct (ar_mode args); [done..|].
  by destruct (described scs index).
Qed.

(** ** Numbers *)

Lemma decimal_u64 digits acc n : foldl decimal_step acc digits = Some n -> (forall m, acc = Some m -> is_u64 m) ->
  is_u64 n.
Proof.
  revert acc. induction digits as [|c digits IH]; intros acc; cbn; [auto|].
  intros Hd Ha. apply (IH _ Hd). intros m Hm. unfold decimal_step in Hm. destruct acc as [k|]; [|done].
  cbn in Hm. specialize (Ha k eq_refl). unfold fits, u64_max in *. repeat case_match; simplify_eq; lia.
Qed.

Lemma parse_u64_typed raw n : parse_u64 raw = Some n -> is_u64 n.
Proof.
  unfold parse_u64. set (digits := match raw with 43 :: rest => rest | _ => raw end).
  destruct digits as [|c digits]; [done|]. intros Hd. apply (decimal_u64 _ _ _ Hd).
  intros m [= <-]. unfold fits, u64_max. lia.
Qed.

Lemma read_number_typed argv flag n rest : read_number argv flag = Ok (n, rest) -> is_u64 n.
Proof.
  unfold read_number. destruct argv as [|raw argv]; [done|]. intros He. repeat invert_step.
  by eapply parse_u64_typed.
Qed.

Lemma read_small_typed argv flag n rest : read_small argv flag = Ok (n, rest) -> is_u32 n.
Proof.
  unfold read_small. destruct (read_number argv flag) as [[v argv']|] eqn:E; [|done].
  apply read_number_typed in E. destruct (v <=? u32_max) eqn:L; [|done].
  intros [= <- <-]. unfold fits in *. lia.
Qed.

Definition config_typed (c : Gen.RunConfig) : Prop :=
  is_u64 c.(Gen.rc_seed) /\ is_u32 c.(Gen.rc_cases) /\ is_u32 c.(Gen.rc_steps) /\
  (forall i, c.(Gen.rc_only) = Some i -> is_u32 i).

Lemma parse_flag_typed flag argv config mode config' mode' rest : config_typed config ->
  parse_flag flag argv config mode = Ok (config', mode', rest) -> config_typed config'.
Proof.
  intros (H1 & H2 & H3 & H4) He. unfold parse_flag in He. revert He.
  repeat case_match; intros; simplify_eq; try done;
    repeat match goal with
    | E : read_number _ _ = Ok _ |- _ => apply read_number_typed in E
    | E : read_small _ _ = Ok _ |- _ => apply read_small_typed in E
    end; split_and!; cbn; try done; by intros ? [= <-].
Qed.

(** A command line that is accepted asks for at least one case, and every
    number of it has its width. *)
Theorem accepted_arguments_are_typed argv args : parse_args argv = Some (Ok args) ->
  config_typed args.(ar_config) /\ 1 <= args.(ar_config).(Gen.rc_cases).
Proof.
  unfold parse_args. generalize (S (length argv)) as fuel. intros fuel.
  assert (Hd : config_typed Gen.run_default).
  { unfold config_typed, Gen.run_default, fits, u64_max, u32_max. cbn [Gen.rc_seed Gen.rc_cases Gen.rc_steps Gen.rc_only].
    repeat split; try lia; discriminate. }
  revert Hd. generalize Gen.run_default as config. generalize Bundle as mode. revert argv.
  induction fuel as [|fuel IH]; intros argv mode config Hc He; [done|]. destruct argv as [|flag argv]; cbn in He.
  - destruct (Z.eqb_spec config.(Gen.rc_cases) 0); [done|]. injection He as <-. split; [done|].
    destruct Hc as (_ & [] & _). cbn. lia.
  - destruct (parse_flag flag argv config mode) as [[[config' mode'] rest]|e] eqn:E; [|done].
    eapply (IH _ _ _ _ He). Unshelve. by eapply parse_flag_typed.
Qed.

(** * Statistics *)

Lemma tally_le hit n m : (n <= m)%nat -> (tally hit n <= S m)%nat.
Proof. destruct hit; cbn; lia. Qed.

Lemma successes_le s : (successes s <= length s.(sc_actions))%nat.
Proof. apply length_filter. Qed.

Lemma stats_rejections scenarios :
  let t := foldl stats_step stats_zero scenarios in
  (t.(st_successes) + sum_list (rejections <$> scenarios) = t.(operations))%nat.
Proof.
  cbv zeta. induction scenarios as [|s scenarios IH] using rev_ind; [done|].
  rewrite foldl_snoc, fmap_app, sum_list_with_app. cbn -[rejections].
  pose proof (successes_le s). unfold rejections in *. lia.
Qed.

Lemma stats_reached scenarios :
  Forall (fun hits => hits <= length scenarios)%nat (reached (foldl stats_step stats_zero scenarios)).
Proof.
  induction scenarios as [|s scenarios IH] using rev_ind; [by repeat constructor|].
  rewrite foldl_snoc, length_app, Nat.add_1_r. unfold reached in *. rewrite !Forall_cons in IH.
  destruct_and?. repeat (apply Forall_cons; split); try apply Forall_nil; try done; by apply tally_le.
Qed.

Lemma rate_percent_bounds hits total : (hits <= total)%nat -> 0 <= rate_percent hits total <= 100.
Proof.
  intros Hle. unfold rate_percent, usize_max. destruct (Nat.eqb_spec total 0); [lia|].
  split; [apply Z.div_pos; lia|]. apply Z.div_le_upper_bound; lia.
Qed.

(** The figures printed add up: the rejections are those of the scenarios,
    and every rate is of at most all scenarios, a percentage. *)
Theorem figures_add_up config scenarios :
  let r := report_stats config scenarios in
  r.(rp_rejections) = sum_list (rejections <$> scenarios)
  /\ Forall (fun '(hits, percent) => (hits <= r.(rp_total))%nat /\ 0 <= percent <= 100) r.(rp_rates).
Proof.
  pose proof (stats_rejections scenarios) as Hr. unfold report_stats in *. cbv zeta in *.
  cbn [rp_rejections rp_rates rp_total]. split; [lia|].
  apply Forall_fmap. eapply Forall_impl; [apply stats_reached|]. intros hits Hle. cbn.
  split; [done|]. by apply rate_percent_bounds.
Qed.

(** * A model of the encoding *)

(** The bits of a number the values count as: an encoding with the laws. *)
Fixpoint bits (p : positive) : list Z :=
  match p with
  | xH => []
  | xO p => 0 :: bits p
  | xI p => 1 :: bits p
  end.

Lemma bits_inj : Inj (=) (=) bits.
Proof. intros p. induction p; intros [q|q|]; cbn; intros [=]; f_equal; auto. Qed.

Lemma bits_bytes p : Forall is_u8 (bits p).
Proof. induction p; cbn; constructor; try done; unfold fits, u8_max; lia. Qed.

Definition snapshot_key (s : AbiSnapshot) : bool * list Z * list (list Z) :=
  (s.(epochOpen),
   [s.(pendingDepositEscrow); s.(idleBacking); s.(claimReserve); s.(unattributedBalance);
    s.(totalSupply); s.(vaultShareBalance); s.(vaultAssetBalance); s.(status); s.(epochPhase);
    s.(epochId); s.(nextEpochId); s.(epochDepositAssets); s.(epochRedeemShares); s.(consumedMask);
    s.(remote).(unattributedInbound); s.(remote).(outboundInTransit);
    s.(remote).(acceptedRemoteValue); s.(remote).(inboundInTransit);
    s.(remote).(remotePrincipalCap); s.(remote).(impairedTransport)],
   [s.(actorAssets); s.(actorShares); s.(actorDepositAssets); s.(actorRedeemShares)]).

Definition action_key (a : AbiAction) : list Z :=
  [a.(aa_kind); a.(aa_actor); a.(aa_amount); a.(aa_epochId); a.(aa_timestamp);
   a.(aa_expectedResult); a.(aa_expectedReturn); a.(aa_aux0); a.(aa_aux1)].

Definition actor_key (t : AbiEpochActor) : list Z :=
  [t.(ae_depositAssets); t.(ae_redeemShares); t.(ae_claimShares); t.(ae_claimAssets)].

Definition epoch_key (e : AbiEpoch) : list Z * list (list Z) :=
  ([e.(ab_epochId); e.(ab_outcome); e.(ab_settledAtStep); e.(ab_cutoffAt); e.(ab_totalAssets);
    e.(ab_totalSupply); e.(ab_depositAssets); e.(ab_mintedShares); e.(ab_redeemShares);
    e.(ab_redeemAssets); e.(ab_depositDust); e.(ab_redeemDust)],
   actor_key <$> e.(ab_actors)).

Definition scenario_key (s : AbiScenario) :=
  ([s.(as_index); s.(as_seed); s.(as_family); s.(as_startTimestamp); s.(as_epochDuration);
    s.(as_minDeposit); s.(as_minRedeem); s.(as_configVersion)],
   s.(as_initialAssets), snapshot_key s.(as_initialSnapshot), action_key <$> s.(as_actions),
   snapshot_key <$> s.(as_snapshots), epoch_key <$> s.(as_epochs)).

#[local] Instance snapshot_key_inj : Inj (=) (=) snapshot_key.
Proof. intros [? ? ? ? ? ? ? ? ? ? ? ? ? ? ? ? ? ? ? []] [? ? ? ? ? ? ? ? ? ? ? ? ? ? ? ? ? ? ? []] He. injection He. intros. by subst. Qed.

#[local] Instance action_key_inj : Inj (=) (=) action_key.
Proof. intros [] [] He. injection He. intros. by subst. Qed.

#[local] Instance actor_key_inj : Inj (=) (=) actor_key.
Proof. intros [] [] He. injection He. intros. by subst. Qed.

#[local] Instance epoch_key_inj : Inj (=) (=) epoch_key.
Proof. intros [] [] He. injection He. intros Ha. apply (inj _) in Ha. intros. by subst. Qed.

#[local] Instance scenario_key_inj : Inj (=) (=) scenario_key.
Proof.
  intros [] [] He. unfold scenario_key in He. cbn [as_index as_seed as_family as_startTimestamp
    as_epochDuration as_minDeposit as_minRedeem as_configVersion as_initialAssets as_initialSnapshot
    as_actions as_snapshots as_epochs] in He.
  apply pair_eq in He as [He E1%(inj _)]. apply pair_eq in He as [He E2%(inj _)].
  apply pair_eq in He as [He E3%(inj _)]. apply pair_eq in He as [He E4%(inj _)].
  injection He. intros. by subst.
Qed.

#[local] Instance counted : Alloy := {|
  abi_encode a := bits (encode (scenario_key a));
  abi_encode_params seed count parts := bits (encode (seed, count, parts))
|}.

(** The laws of the encoding can hold. *)
#[local] Instance counted_laws : AlloyLaws.
Proof.
  split; cbn; intros.
  - apply bits_bytes.
  - apply bits_bytes.
  - match goal with E : bits _ = _ |- _ => apply bits_inj, (inj encode), (inj scenario_key) in E; exact E end.
  - match goal with E : bits _ = _ |- _ => apply bits_inj, (inj encode) in E; by simplify_eq end.
Qed.

(** * Examples *)

#[local] Instance scenario_typed_dec s : Decision (scenario_typed s).
Proof.
  unfold scenario_typed, scenario_full, snapshot_full, epoch_full, abi_typed, abi_snapshot_typed,
    abi_action_typed, abi_epoch_typed, abi_actor_typed, array_typed. apply _.
Defined.

(** One scenario of each family is typed, and its bundle determines it. *)
Definition eight_families : list Scenario :=
  default [] (match Gen.build_run (Gen.mkRunConfig 1 8 4 None) with Ok l => Some l | Err _ => None end).

Example eight_families_are_typed : length eight_families = 8%nat /\ Forall scenario_typed eight_families.
Proof. split; [by vm_compute|]. apply (bool_decide_unpack _). vm_compute. exact I. Qed.

Example eight_families_read_back seed scenarios : is_u64 seed -> Forall scenario_typed scenarios ->
  emit_bundle 1 eight_families = emit_bundle seed scenarios -> seed = 1 /\ scenarios = eight_families.
Proof.
  intros Hs Ht He. assert (H1 : is_u64 1) by (unfold fits, u64_max; lia).
  destruct (bundle_determines_run _ _ _ _ H1 Hs (proj2 eight_families_are_typed) Ht He) as [E1 E2].
  split; symmetry; [exact E1|exact E2].
Qed.

Example command_lines :
  parse_args (byte_string <$> ["--seed"; "77"; "--only"; "+3"; "--stats"])
    = Some (Ok (mkArgs (Gen.mkRunConfig 77 64 4 (Some 3)) StatsMode))
  /\ parse_args (byte_string <$> ["--cases"; "0"]) = Some (Err NoCases)
  /\ parse_args (byte_string <$> ["--steps"; "4294967296"]) = Some (Err (TooLarge (byte_string "--steps")))
  /\ parse_args (byte_string <$> ["--seed"; "18446744073709551616"])
    = Some (Err (NotANumber (byte_string "--seed") (byte_string "18446744073709551616")))
  /\ parse_args (byte_string <$> ["--seed"]) = Some (Err (NeedsValue (byte_string "--seed"))).
Proof. split_and!; vm_compute; reflexivity. Qed.

Example hex_text : bundle_text [0; 15; 160; 255] = byte_string "0x000fa0ff".
Proof. reflexivity. Qed.
